(* ===== verification/_CoqProject ===== *)
-Q . S2P
Prelude.v
CStr.v
F64.v
Json.v
Dns.v
Firewall.v
Session.v
Config.v
Mining.v
Cashu.v
Core.v
Beacon.v
Market.v
MintHealth.v
Portal.v
Client.v
Ehash.v
RateLimiter.v
SubManager.v
Storage.v
Relay.v
Validator.v
StratumProxy.v
StratumClient.v
Api.v
Gate.v
Services.v
RemoteMiner.v
Nip04.v
Geohash.v
RelaySelector.v
Identity.v
NostrEvent.v
WebSocket.v
Mcp.v
Cvm.v
Sync.v
Payout.v
Setup.v
Keyboard.v
QrBits.v
QrField.v
QrBlocks.v
QrGrid.v
QrCode.v
Display.v
Panel.v
Font.v
Screen.v
Boot.v
Touch.v
HttpClient.v
DnsTask.v
Cleanup.v
RelayStart.v
SwMiner.v
RemoteTask.v
Handshake.v
Faucet.v
Announce.v
Wallet.v
RelayServer.v
Redeem.v
CvmTask.v
ProxyServer.v
Reports.v
PoolTask.v
Standalone.v
MinerTasks.v
