(* ===== verification/Prelude.v ===== *)
(** * TollGate for the ESP32: verification of the access gate

    The program under src/ turns an ESP32 into a Wi-Fi gate that sells Internet
    access.  A client that joins the access point is held by a captive DNS
    server and by a packet filter until it pays, with Cashu tokens or with
    mining shares; a payment becomes a session with an allotment of time or
    bytes, and the end of the session closes the filter again.  The gate
    announces its price in its beacons, hears the prices of its neighbours, can
    itself be the paying client of another gate, serves a Nostr relay to its
    clients, and proxies Stratum between miners and a pool.

    ** How the parts interact

    [Core] owns the platform callbacks and calls [Cashu] to judge a token,
    [Session] to open or extend a session and [Mining] to rate shares.  A token
    that has been paid goes through the queue of [Redeem] to [Wallet], which
    keeps one wallet of the Cashu library for each mint; [Payout] pays the owners
    out of it at intervals, and [Faucet] is asked for more.
    [Session] grants and revokes clients in [Firewall], which keeps the list of
    the authenticated clients of [Dns] in step.  [Portal] reads sessions;
    [Client] is the other end of [Core] and [Portal] on another gate.  [Beacon]
    writes the element that [Market] of another gate reads; [MintHealth]
    watches the mints.  [Relay] composes [RateLimiter], [SubManager] and
    [Storage]; [RelayServer] carries its messages in the frames of its clients,
    and [Sync] fetches events from the relay that [RelaySelector] chose into its
    store.  [StratumProxy] serves miners, whose connections [ProxyServer] accepts,
    and feeds [Mining]; [StratumClient] takes the jobs from the pool over the
    connection that [PoolTask] keeps; [SwMiner] works on them on the gate itself,
    [RemoteMiner] on another gate fetches them over HTTP and sends shares back
    ([MinerTasks] starts and stops it), and [Standalone] is a miner without a
    gate.  [Config] is read by most parts; [Api] and [Reports] answer the clients
    over HTTP from the tables of [Core] and the settings of [Config], [Setup]
    serves the portal's pages.  [Gate] puts every request that changes who may pass
    into one transition system, and [Services] adds the events of the Wi-Fi
    driver, which start and stop the parts.  [Identity] derives the gate's keys and
    addresses and hands them to [Config]; [NostrEvent] signs with them what
    [Relay] validates.  
    [Announce] publishes them on the configured relays.  [WebSocket] carries the
    events that [Cvm] takes for requests of the owner and hands to the tools of
    [Mcp], which read and write [Config]; [CvmTask] keeps that connection up.
    [Handshake] makes the connections to relays for [Sync] and [Cvm], [HttpClient]
    the requests of [Client].  [Boot] sets the device up before [Services] takes
    over; [DnsTask] runs [Dns], [RelayStart] starts the relay, [Cleanup] sweeps [Storage],
    [RemoteTask] repeats the rounds of [RemoteMiner].
    [Display] keeps what is to be shown; [Screen] draws it with the glyphs of [Font]
    and the symbols of [QrCode] into the frame buffer of [Panel], which sends it to
    the panel.  [QrCode] is built on [QrBits] (bit buffers and modes), [QrField]
    (arithmetic of GF(256), the generator, remainders), [QrBlocks] (blocks and their
    interleaving) and [QrGrid] (the modules).  [Touch] and [Keyboard] set up a
    network by touch.  [Nip04], [Geohash] and [Ehash] stand alone.

    ** Files and sources (under src/; T = components/tollgate_core/src,
    W = components/wisp_relay)

    - [Prelude], [CStr], [F64], [Json]: shared lemmas and tactics; C strings,
      [printf]/[strtoul] texts and big-endian bytes; binary64 arithmetic; the
      interface [CJson] of the JSON library.
    - [Dns]: T/tollgate_core_dns.c.  State [dns_state] (s_auth_list and the
      running flag); [dns_handle_datagram] is the body of dns_server_task.
    - [Firewall]: T/tollgate_core_firewall.c.  State [fw_state] (s_clients, the
      sandbox ports, the DNS state).
    - [Session]: T/tollgate_core_session.c.  State [session_state] (s_sessions,
      s_session_count, the firewall); a pointer to a session is its index.
    - [Mining]: T/tollgate_core_mining.c.  State [mining_state].
    - [Cashu]: T/tollgate_core_cashu.c.
    - [Core]: T/tollgate_core.c with the handlers of main/captive_portal.c and
      the part of main/tollgate_main.c that change its tables.  State
      [core_state] (the owner, the sessions, the mining table).
    - [Beacon], [Market]: T/tollgate_core_beacon.c, T/tollgate_core_market.c,
      main/market.c.
    - [MintHealth]: T/tollgate_core_mint_health.c, main/mint_health.c.
    - [Portal], [Client]: T/tollgate_core_portal.c, T/tollgate_core_client.c,
      main/tollgate_client.c.
    - [Ehash]: components/ehash_relay/src/ehash_relay.c.
    - [RateLimiter], [SubManager], [Storage], [Relay]: W/rate_limiter.c,
      W/sub_manager.c, W/storage_engine.c and W/relay_types.c, and W/handlers.c,
      router.c, broadcaster.c, deletion.c, relay_validator.c, ws_server.c with
      main/local_relay.c.
    - [StratumProxy], [StratumClient]: T/tollgate_core_stratum_proxy.c, and
      T/tollgate_core_stratum_client.c with main/stratum_client.c.

    - [Config]: main/config.c and config.h.  [tollgate_config_t] is g_config.
    - [Api]: main/tollgate_api.c, handlers as functions from a request and the
      tables to a reply and the tables.
    - [Gate]: the composition of [Core], [Api] and the portal's requests.
    - [Services]: main/tollgate_main.c and components/tollgate_esp.  State
      [main_state] (the flags of the file, the configuration, the core).
    - [RemoteMiner]: main/remote_miner.c.
    - [Nip04]: main/nip04.c.  [Geohash]: main/geohash.c.
    - [RelaySelector]: main/relay_selector.c.  State [relay_selector_t].
    - [Identity]: main/identity.c.  [NostrEvent]: main/nostr_event.c.
    - [WebSocket], [Cvm], [CvmTask]: main/cvm_server.c, the frames, the messages in
      them, the task that keeps the connection.
      [Mcp]: main/mcp_handler.c.  A request yields its effects: the configuration
      afterwards, the calls of the wallet, the messages published.
    - [Wallet]: components/nucula_lib/nucula_wallet.cpp.  State: the table of slots
      and the wallets of the library in them.
    - [Redeem]: main/tls_worker.c, the queue and task of main/mint_health.c.
    - [Payout]: main/lnurl_pay.c, lightning_payout.c.  [Faucet]:
      main/faucet_client.c.
    - [RelayServer]: W/ws_server.c, nip11_relay.c, flash_monitor.c,
      main/local_relay.c.  [Sync]: main/sync_manager.c.
    - [ProxyServer]: the server task of T/tollgate_core_stratum_proxy.c.
      [PoolTask]: the task of main/stratum_client.c.
    - [SwMiner], [MinerTasks], [Standalone]: main/sw_miner.c; the start and stop of
      main/remote_miner.c, asic_miner.c and negentropy_adapter.c;
      mining-standalone/main.
    - [Announce]: main/wifistr.c, beacon_price.c.
    - [Reports], [Setup]: the reports, routes, start and stop of
      main/tollgate_api.c; the pages, start and stop of main/captive_portal.c.
    - [Display], [Screen], [Font]: main/display.c and font.c.  [display] is the
      static state of display.c; a screen is a list of [draw_op], the fills it makes.
    - [QrBits], [QrField], [QrBlocks], [QrGrid], [QrCode]:
      components/qrcode/qrcoded.c.  A [bit_bucket] is a BitBucket with its bytes;
      [qrcode_initBytes] composes the steps in the order of the code.
    - [Panel]: components/axs15231b.  State [panel] (s_fb and its size); what goes
      over the bus is a list of [spi_event].
    - [Keyboard], [Touch]: main/keyboard.c and wifi_setup.c; main/touch.c.
    - [Boot]: app_main and the set-up of the interfaces in main/tollgate_main.c, as a
      sequence of [boot_call] in a monad of calls that may end in a reset.
    - [DnsTask]: the two tasks of T/tollgate_core_dns.c.  [Cleanup]: the task of
      W/storage_engine.c.  [RelayStart]: storage_init, storage_destroy and
      local_relay_init with what they take from the system.  [Validator]: the parts of
      W/relay_validator.c on libsecp256k1.  [RemoteTask]: the task of main/remote_miner.c.
    - [Handshake]: ws_connect of main/cvm_server.c and of main/sync_manager.c.
      [HttpClient]: the requests of main/tollgate_client.c.

    Definitions keep the names of the C functions; static state becomes a
    record passed along, pointers into a table become indices, error codes
    become sums and options, integers are [Z] with the wrap-around of their
    width written out ([u8] to [u64], [i32], [i64]), buffers are lists of bytes.
    A C string is the [string] before its NUL.  Where the code would read or
    write outside an object, or through NULL, the model gives [None] and the
    theorems say when that happens.

    ** What is shown

    - Access: in every state the gate reaches by payments and shares, over HTTP
      or through the core, a client passes the filter exactly when it has an
      active session ([gate_access_iff_session]); with the portal's grants and
      restarts of the services it needs a session or a grant
      ([access_needs_session_or_grant]).  With the outcome of a payment and of a share
      on every branch ([payment_outcome], [api_payment_outcome], [share_credit_outcome]), of
      the creation and expiry of sessions, and the filter's policy on raw packets
      ([filter_refines_policy]).
    - Tokens: a decoded token is well formed and its total is the sum of its
      proofs; spent proofs are recognised; allotments are proportional.  A token handed to
      the queue is waiting, in a wallet or dropped, never twice
      ([tokens_accounted]), and the head of the queue is offered to the mint
      ([paid_token_is_offered]).  What becomes of the
      proofs of a wallet that sends, pays an invoice or swaps is said on every branch
      ([wallet_send_outcome], [wallet_melt_outcome], [swap_reply_tells_outcome]);
      payouts are made only when they are due ([payouts_are_due]).
    - DNS: held clients are answered with the gate's address; a query without
      compression pointers terminates, one that points to itself does not; at most
      one task holds the port, and a server that says it runs has a task
      ([dns_server_consistent]), started by the system or not
      ([restart_kills_dns], [no_task_no_dns]).
    - Display: a text survives its QR code ([qr_code_reads_back]), whose blocks are
      words of the Reed-Solomon code ([qr_blocks_are_codewords]) and whose mask is the
      best of the eight ([qr_mask_is_best]); every screen reaches the panel without an
      access out of bounds and its code reads back from the pixels that were sent
      ([screens_show_their_code]); and the code names the access point that the start
      has set up ([display_code_joins_gate]).
    - Running: which services are up at any moment ([services_up_together]), that
      they start once and no more after a lost connection
      ([services_start_once]), that every network is tried
      ([every_network_is_tried]), that three reports move the relay on
      ([three_reports_fail_over]).
    - The configuration keeps its type: every text fits its field and every count
      its array, read from any file and after any sequence of changes
      ([config_stays_well_formed]).
    - Remote control: nothing happens unless the event names the gate's own key
      ([only_the_owner_commands]), which no signature backs
      ([forged_event_obeyed]); what each command may change ([command_effects]);
      frames read back and are read in bounds ([frame_roundtrip],
      [frame_read_in_bounds]); the gate's own events pass the relay's validation
      ([gate_events_are_valid]).
    - The relay: its tables stay consistent ([relay_tables_consistent]); over its
      frames the server does to them exactly what the messages do
      ([server_refines_relay]) and queues the answers in order
      ([frame_answers_delivered]); a round of synchronisation ends
      ([sync_round_ends]); the
      cleanup removes exactly what has expired ([cleanup_turn_outcome]); connections
      leave no handle behind ([relay_connections_ok]); a start takes all it needs or
      nothing ([relay_start_outcome]) and finds the events of the last run
      ([relay_restart_keeps]).
    - Miners: the proxy serves one miner at a time ([proxy_serves_one]); the pool's
      task closes every connection it opens, and loses a buffer with each one that
      breaks ([pool_task_books]); only hashes within the target are reported
      ([share_reported_only_with_pow]); what the remote miner submits is solved
      ([remote_shares_are_solved]).
    - Identity: names, keys and addresses of a private key ([identity_of_key]), taken
      over once ([derived_once]).
    - Texts and packets read back: the configuration across a restart, what the
      gate announces over HTTP, mining jobs and shares between gates, encrypted
      messages, advertisements, usage reports, E-Hash packets
      (a corrupted byte is rejected), Stratum jobs.
    - Tables stay consistent: mining clients, subscriptions, connections, miners
      and their counters, events in the store; rates are bounded per window.
    - Decisions: the best relay, the cell of a geohash, the cheapest gate, the renewal of a session, the reachability
      of a mint, the proof of work of a share as an inequality of numbers.
    - Behaviour that departs from what the code means to do is stated in
      theorems of its own (for example [payment_can_burn_token],
      [share_can_be_replayed], [nested_object_lends_id]).

    ** Parameters, bounds and fuel

    Code outside the repository is a parameter: cJSON (class [CJson]), base64,
    SHA-256, HMAC-SHA512, secp256k1 keys and Schnorr signatures, AES and ECDH,
    [qsort], HTTP, the Cashu library (class [CashuLib], with the laws [CashuLaws]),
    the Wi-Fi driver's station list and lwIP's ARP table (class [MacLookup]), the
    clock, [strdup] and [malloc] where their failure is handled, the results C
    leaves undefined (class [CUndef]).  Connections are scripts: lists of how each
    connection and each read turns out.  The floating point of hash rates is
    computed with the Standard Library's [SpecFloat].

    Fuel occurs in these loops: [parse_dns_name], for which
    [dns_query_without_pointer_terminates] gives a sufficient amount and
    [dns_pointer_loop_hangs] shows that none suffices for a query that points
    to itself; the reads of a round of [Sync], bounded by the bytes that the
    relay sends ([sync_round_ends]); the columns of a QR symbol, at most its width,
    and the ten turns that its balance of colours can need ([penalty_total] shows that
    the penalty is always found); the rows of a frame, cut into pieces of the swap
    buffer; the window of a thousand nonces of the
    miners, bounded by its size; the walk of the ARP table, bounded by the table.
    All other recursion is structural, on buffers, tables of fixed size, queues,
    scripts or texts.

    A mutex makes the operation it guards one step; tasks interleave at the
    granularity of these steps.  [malloc] succeeds except where its failure
    changes a table or ends a task.

    The theorems on QR symbols hold for the versions 1 to 11, which the display
    chooses from the length of a text, and all four levels of correction; the
    definitions are those of all forty versions.

    ** Not modelled

    What stands outside the code: the stacks of sockets and TLS, the HTTP server and
    client, the file system, the Wi-Fi driver, the scheduler; they appear as
    parameters, scripts and steps.  Of the code itself: the HTML of the two pages of
    the portal; pins, clock rates and delays of the drivers; the print of the wallet's
    status, the log of statistics of the stand-alone miner and all other logging; the
    stubs of mining-standalone/main, which do nothing, and its other files, which repeat
    files of main/ and of the core.  Nothing further is planned: what is left has no state
    or decision of its own. *)

From Stdlib Require Export ZArith Lia.
From Stdlib Require Export Ascii.
From stdpp Require Export base numbers strings option.
From stdpp Require Export list.
Export ListNotations.

#[export] Set Default Goal Selector "!".
#[global] Open Scope Z_scope.

(** * Hint databases and tactics *)

Create HintDb tg_db discriminated.
Create HintDb tg_rw.

(** [simpl_len]: normalise list lengths. *)
Ltac simpl_len := autorewrite with tg_rw in *.

(** Split every boolean conjunction / comparison hypothesis into Props. *)
Ltac bool_hyps :=
  repeat match goal with
  | H : (_ && _) = true |- _ => apply andb_true_iff in H; destruct H
  | H : (_ && _) = false |- _ => apply andb_false_iff in H
  | H : (_ || _) = true |- _ => apply orb_true_iff in H
  | H : (_ || _) = false |- _ => apply orb_false_iff in H; destruct H
  | H : negb _ = true |- _ => apply negb_true_iff in H
  | H : negb _ = false |- _ => apply negb_false_iff in H
  | H : (_ =? _) = true |- _ => apply Z.eqb_eq in H
  | H : (_ =? _) = false |- _ => apply Z.eqb_neq in H
  | H : (_ <? _) = true |- _ => apply Z.ltb_lt in H
  | H : (_ <? _) = false |- _ => apply Z.ltb_ge in H
  | H : (_ <=? _) = true |- _ => apply Z.leb_le in H
  | H : (_ <=? _) = false |- _ => apply Z.leb_gt in H
  | H : (_ >? _) = true |- _ => apply Z.gtb_lt in H
  | H : (_ =? _)%nat = true |- _ => apply Nat.eqb_eq in H
  | H : (_ =? _)%nat = false |- _ => apply Nat.eqb_neq in H
  | H : (_ <? _)%nat = true |- _ => apply Nat.ltb_lt in H
  | H : (_ <? _)%nat = false |- _ => apply Nat.ltb_ge in H
  | H : (_ <=? _)%nat = true |- _ => apply Nat.leb_le in H
  | H : (_ <=? _)%nat = false |- _ => apply Nat.leb_gt in H
  end.

(** Case split on the scrutinee of some [if] or [match] of the goal. *)
Ltac case_if :=
  match goal with
  | |- context [if ?b then _ else _] => let E := fresh "E" in destruct b eqn:E
  end.

(** Evaluate the powers of two that bound the C integer types, for [lia]. *)
Ltac pow_consts :=
  change (2 ^ 7) with 128 in *; change (2 ^ 8) with 256 in *;
  change (2 ^ 16) with 65536 in *;
  change (2 ^ 31) with 2147483648 in *; change (2 ^ 32) with 4294967296 in *;
  change (2 ^ 63) with 9223372036854775808 in *;
  change (2 ^ 64) with 18446744073709551616 in *.

(** [lia] with division and modulo turned into equations. *)
Ltac zlia := pow_consts; Z.to_euclidean_division_equations; lia.

(** * C integers *)

(** Conversions of a mathematical integer to an n-bit C integer type. *)
Definition u8 (z : Z) : Z := z mod 2 ^ 8.
Definition u16 (z : Z) : Z := z mod 2 ^ 16.
Definition u32 (z : Z) : Z := z mod 2 ^ 32.
Definition u64 (z : Z) : Z := z mod 2 ^ 64.
Definition swrap (w z : Z) : Z := (z + 2 ^ (w - 1)) mod 2 ^ w - 2 ^ (w - 1).
Definition i8 (z : Z) : Z := swrap 8 z.
Definition i32 (z : Z) : Z := swrap 32 z.
Definition i64 (z : Z) : Z := swrap 64 z.

Definition UINT32_MAX : Z := 2 ^ 32 - 1.
Definition UINT64_MAX : Z := 2 ^ 64 - 1.
Definition INT64_MAX : Z := 2 ^ 63 - 1.

Definition is_u8 (z : Z) : Prop := 0 <= z < 2 ^ 8.
Definition is_u16 (z : Z) : Prop := 0 <= z < 2 ^ 16.
Definition is_u32 (z : Z) : Prop := 0 <= z < 2 ^ 32.
Definition is_u64 (z : Z) : Prop := 0 <= z < 2 ^ 64.
Definition is_i64 (z : Z) : Prop := - 2 ^ 63 <= z < 2 ^ 63.

#[export] Instance is_u8_dec z : Decision (is_u8 z).
Proof. unfold is_u8. apply _. Defined.

Lemma u8_range z : is_u8 (u8 z).
Proof. unfold is_u8, u8. zlia. Qed.
Lemma u16_range z : is_u16 (u16 z).
Proof. unfold is_u16, u16. zlia. Qed.
Lemma u32_range z : is_u32 (u32 z).
Proof. unfold is_u32, u32. zlia. Qed.
Lemma u64_range z : is_u64 (u64 z).
Proof. unfold is_u64, u64. zlia. Qed.
Lemma u8_small z : is_u8 z → u8 z = z.
Proof. unfold is_u8, u8. intros. zlia. Qed.
Lemma u16_small z : is_u16 z → u16 z = z.
Proof. unfold is_u16, u16. intros. zlia. Qed.
Lemma u32_small z : is_u32 z → u32 z = z.
Proof. unfold is_u32, u32. intros. zlia. Qed.
Lemma u64_small z : is_u64 z → u64 z = z.
Proof. unfold is_u64, u64. intros. zlia. Qed.
Lemma i32_small z : - 2 ^ 31 <= z < 2 ^ 31 → i32 z = z.
Proof. unfold i32, swrap. change (32 - 1) with 31. intros. zlia. Qed.
Lemma i64_small z : is_i64 z → i64 z = z.
Proof.
  unfold is_i64, i64, swrap. intros.
  change (64 - 1) with 63. zlia.
Qed.
Lemma i64_high z : 2 ^ 63 <= z < 2 ^ 64 → i64 z = z - 2 ^ 64.
Proof. unfold i64, swrap. intros. change (64 - 1) with 63. zlia. Qed.

#[export] Hint Resolve u8_range u16_range u32_range u64_range : tg_db.

(** * Error codes of ESP-IDF that the sources return *)

Inductive esp_err_t :=
| ESP_OK | ESP_FAIL | ESP_ERR_NO_MEM | ESP_ERR_INVALID_ARG | ESP_ERR_INVALID_STATE
| ESP_ERR_NOT_FOUND.

#[export] Instance esp_err_eq_dec : EqDecision esp_err_t.
Proof. solve_decision. Defined.

(** * Tables with a fixed number of slots *)

(** The index of the first slot that satisfies [p]: the C idiom
    [for (i = 0; i < N; i++) if (p(slots[i])) return i]. *)
Fixpoint find_slot {A} (p : A → bool) (l : list A) : option nat :=
  match l with
  | [] => None
  | x :: l' => if p x then Some O else S <$> find_slot p l'
  end.

(** The number of slots that satisfy [p]. *)
Definition count_slots {A} (p : A → bool) (l : list A) : nat :=
  length (List.filter p l).

Section slots.
Context {A : Type} (p : A → bool).
Implicit Types l : list A.

Lemma find_slot_Some l i :
  find_slot p l = Some i →
  ∃ x, l !! i = Some x ∧ p x = true ∧
       ∀ j y, (j < i)%nat → l !! j = Some y → p y = false.
Proof.
  revert i. induction l as [|x l IH]; intros i; cbn; [done|].
  destruct (p x) eqn:Hx.
  - intros [= <-]. exists x. repeat split; [done|]. intros; lia.
  - destruct (find_slot p l) as [k|] eqn:Hk; cbn; [|done].
    intros [= <-]. destruct (IH k) as (y & Hy & Hpy & Hmin); [done|].
    exists y. repeat split; [done|done|].
    intros [|j] z Hj Hz; cbn in Hz; [congruence|].
    apply (Hmin j); [lia|done].
Qed.

Lemma find_slot_None l :
  find_slot p l = None ↔ ∀ j y, l !! j = Some y → p y = false.
Proof.
  split.
  - induction l as [|x l IH]; cbn; [done|].
    destruct (p x) eqn:Hx; [done|].
    destruct (find_slot p l); cbn; [done|].
    intros _ [|j] y Hj; cbn in Hj; [congruence|]. by apply (IH eq_refl j).
  - induction l as [|x l IH]; cbn; intros H; [done|].
    rewrite (H O x eq_refl). rewrite IH; [done|].
    intros j y Hj. by apply (H (S j)).
Qed.

Lemma find_slot_is_Some l j y :
  l !! j = Some y → p y = true → ∃ i, find_slot p l = Some i ∧ (i ≤ j)%nat.
Proof.
  intros Hj Hy. destruct (find_slot p l) as [i|] eqn:Hf.
  - exists i. split; [done|].
    apply find_slot_Some in Hf as (x & _ & _ & Hmin).
    destruct (decide (j < i)%nat) as [Hlt|]; [|lia].
    by rewrite (Hmin j y Hlt Hj) in Hy.
  - rewrite (proj1 (find_slot_None l) Hf j y Hj) in Hy. done.
Qed.

(** With at most one slot satisfying [p], [find_slot] returns that one. *)
Lemma find_slot_unique l i x :
  l !! i = Some x → p x = true →
  (∀ j y, l !! j = Some y → p y = true → j = i) →
  find_slot p l = Some i.
Proof.
  intros Hi Hx Huniq.
  destruct (find_slot_is_Some l i x Hi Hx) as (k & Hk & _).
  destruct (find_slot_Some l k Hk) as (y & Hy & Hpy & _).
  by rewrite (Huniq k y Hy Hpy) in Hk.
Qed.

Lemma count_slots_insert l i x y :
  l !! i = Some x →
  (count_slots p (<[i:=y]> l) + Nat.b2n (p x) = count_slots p l + Nat.b2n (p y))%nat.
Proof.
  unfold count_slots. revert i.
  induction l as [|z l IH]; intros [|i]; simpl; try done.
  - intros [= ->]. destruct (p x), (p y); simpl; lia.
  - intros Hi. specialize (IH i Hi). destruct (p z); simpl; lia.
Qed.

Lemma count_slots_le l : (count_slots p l ≤ length l)%nat.
Proof.
  unfold count_slots. induction l as [|x l IH]; cbn; [done|].
  destruct (p x); cbn; lia.
Qed.

Lemma count_slots_full l :
  count_slots p l = length l → ∀ i x, l !! i = Some x → p x = true.
Proof.
  induction l as [|z l IH]; intros Hc i x Hi; [done|].
  pose proof (count_slots_le l). unfold count_slots in *. cbn in Hc.
  destruct (p z) eqn:Hz; cbn in Hc; [|lia].
  destruct i as [|i]; cbn in Hi; [congruence|]. apply (IH ltac:(lia) i x Hi).
Qed.

Lemma count_slots_all l :
  (∀ i x, l !! i = Some x → p x = true) → count_slots p l = length l.
Proof.
  unfold count_slots. induction l as [|z l IH]; intros H; simpl; [done|].
  rewrite (H O z eq_refl). simpl. f_equal. apply IH. intros i x Hi. by apply (H (S i)).
Qed.

Lemma count_slots_not_full l :
  (count_slots p l < length l)%nat → ∃ i x, l !! i = Some x ∧ p x = false.
Proof.
  induction l as [|z l IH]; intros Hc; unfold count_slots in *; cbn in Hc; [lia|].
  destruct (p z) eqn:Hz; cbn in Hc.
  - destruct IH as (i & x & Hi & Hx); [lia|]. by exists (S i), x.
  - by exists O, z.
Qed.
(** Replacing a slot by one that the search sees alike. *)
Lemma find_slot_insert_same l i x y :
  l !! i = Some x → p y = p x → find_slot p (<[i := y]> l) = find_slot p l.
Proof.
  intros Hi Hp. revert i Hi. induction l as [|z l IH]; intros [|i] Hi; simpl in *; try done.
  - injection Hi as ->. by rewrite Hp.
  - by rewrite (IH i Hi).
Qed.
End slots.

(** Overwrite slot [i] with the last of the first [n] slots: the C idiom
    [slots[i] = slots[n - 1]; n--] of the tables kept dense. *)
Definition swap_remove {A} (i n : nat) (l : list A) : list A :=
  match l !! (n - 1)%nat with
  | Some x => <[i := x]> l
  | None => l
  end.

Lemma length_swap_remove {A} i n (l : list A) : length (swap_remove i n l) = length l.
Proof. unfold swap_remove. case_match; [by rewrite length_insert|done]. Qed.
#[export] Hint Rewrite @length_swap_remove @length_insert @length_take @length_app
  @length_replicate @length_map @length_drop : tg_rw.

(** Updating one slot in place. *)
Lemma lookup_alter_inv {A} (f : A → A) (l : list A) i j y :
  alter f i l !! j = Some y →
  ∃ x, l !! j = Some x ∧ y = if decide (i = j) then f x else x.
Proof.
  rewrite list_lookup_alter. case_decide as Hd.
  - subst. destruct (l !! j) as [x|]; [|done]. intros [= <-]. eauto.
  - eauto.
Qed.

Lemma alter_insert_Some {A} (f : A → A) (l : list A) i x :
  l !! i = Some x → alter f i l = <[i := f x]> l.
Proof.
  intros Hi. apply list_eq. intros j. rewrite list_lookup_alter, list_lookup_insert.
  rewrite Hi. repeat case_decide; simplify_eq/=; try done.
  - apply lookup_lt_Some in Hi. lia.
  - lia.
Qed.

Lemma alter_None {A} (f : A → A) (l : list A) i : l !! i = None → alter f i l = l.
Proof.
  intros Hi. apply list_eq. intros j. rewrite list_lookup_alter.
  case_decide; [subst; by rewrite Hi|done].
Qed.

Lemma length_alter_slot {A} (f : A → A) (l : list A) i : length (alter f i l) = length l.
Proof. apply length_alter. Qed.
#[export] Hint Rewrite @length_alter_slot : tg_rw.

Lemma take_S_last {A} (l : list A) n x :
  l !! n = Some x → take (S n) l = take n l ++ [x].
Proof. intros. by apply take_S_r. Qed.

Lemma insert_swap_perm {A} (l : list A) i (x y : A) :
  l !! i = Some x → x :: <[i:=y]> l ≡ₚ y :: l.
Proof.
  revert i. induction l as [|z l IH]; intros [|i]; cbn; try done.
  - intros [= ->]. apply Permutation_swap.
  - intros Hi. rewrite Permutation_swap, (IH i Hi). apply Permutation_swap.
Qed.

(** Removing slot [i] of a dense table leaves the other entries. *)
Lemma swap_remove_perm {A} (l : list A) i n x :
  (i < n)%nat → (n ≤ length l)%nat → l !! i = Some x →
  take n l ≡ₚ x :: take (n - 1) (swap_remove i n l).
Proof.
  intros Hi Hn Hx. unfold swap_remove.
  destruct (lookup_lt_is_Some_2 l (n - 1)) as [y Hy]; [lia|]. rewrite Hy.
  assert (take n l = take (n - 1) l ++ [y]) as ->.
  { replace n with (S (n - 1)) at 1 by lia. by apply take_S_last. }
  rewrite Permutation_app_comm; cbn.
  destruct (decide (i = (n - 1)%nat)) as [->|Hne].
  - rewrite take_insert_ge by lia. assert (x = y) as -> by congruence. reflexivity.
  - rewrite take_insert_lt by lia. symmetry. apply insert_swap_perm.
    rewrite lookup_take_lt by lia. done.
Qed.

Lemma take_app_insert {A} (l : list A) n x :
  (n < length l)%nat → take (S n) (<[n:=x]> l) = take n l ++ [x].
Proof.
  intros. rewrite (take_S_last _ n x) by (rewrite list_lookup_insert_eq; done).
  by rewrite take_insert_ge by lia.
Qed.

(** The first slot satisfying [p] among the first [n]. *)
Lemma find_slot_take_Some {A} (p : A → bool) (l : list A) n i :
  find_slot p (take n l) = Some i →
  ∃ x, (i < n)%nat ∧ l !! i = Some x ∧ p x = true.
Proof.
  intros (x & Hx & Hp & _)%find_slot_Some.
  apply lookup_take_Some in Hx as [Hx Hi]. eauto.
Qed.

(** * Tables whose valid slots have distinct keys *)

Section keyed.
Context {A K : Type} (valid : A → bool) (key : A → K).

Definition uniq_keys (l : list A) : Prop :=
  ∀ i j x y, l !! i = Some x → l !! j = Some y →
    valid x = true → valid y = true → key x = key y → i = j.

Lemma uniq_keys_insert l i y :
  uniq_keys l →
  (∀ j x, l !! j = Some x → valid x = true → valid y = true → key x = key y → j = i) →
  uniq_keys (<[i := y]> l).
Proof.
  intros Hu Hy j k a b Hj Hk Ha Hb Hab.
  apply list_lookup_insert_Some in Hj as [(<- & <- & _)|[Hij Hj]],
    Hk as [(? & ? & _)|[Hik Hk]]; subst; try done.
  - symmetry. by apply (Hy k b).
  - by apply (Hy j a).
  - by apply (Hu j k a b).
Qed.

Lemma uniq_keys_alter l i f :
  uniq_keys l → (∀ x, valid (f x) = valid x ∧ key (f x) = key x) → uniq_keys (alter f i l).
Proof.
  intros Hu Hf j k a b Hj Hk Ha Hb Hab.
  apply lookup_alter_inv in Hj as (a' & Hj & ->). apply lookup_alter_inv in Hk as (b' & Hk & ->).
  destruct (Hf a') as [Ha1 Ha2], (Hf b') as [Hb1 Hb2].
  apply (Hu j k a' b' Hj Hk); repeat case_decide; congruence.
Qed.

Lemma uniq_keys_replicate n x : valid x = false → uniq_keys (replicate n x).
Proof.
  intros Hv i j a b Hi _ Ha. apply lookup_replicate_1 in Hi as [-> _]. congruence.
Qed.
End keyed.

Lemma count_slots_alter_same {A} (p : A → bool) f (l : list A) i :
  (∀ x, p (f x) = p x) → count_slots p (alter f i l) = count_slots p l.
Proof.
  intros Hf. destruct (l !! i) as [x|] eqn:Hi; [|by rewrite alter_None].
  rewrite (alter_insert_Some _ _ _ _ Hi).
  pose proof (count_slots_insert p l i x (f x) Hi) as Hc. rewrite Hf in Hc. lia.
Qed.

(** * Dense tables: an array whose first [n] slots are in use *)

Section dense.
Context {A : Type} (key : A → Z).
Implicit Types l : list A.

(** The keys of the slots in use. *)
Definition dense_keys (n : nat) (l : list A) : list Z := key <$> take n l.

(** [for (i = 0; i < n; i++) if (slots[i].key == k) return i] *)
Definition dense_find (k : Z) (n : nat) (l : list A) : option nat :=
  find_slot (λ x, key x =? k) (take n l).

Lemma dense_find_Some k n l i :
  dense_find k n l = Some i →
  ∃ x, (i < n)%nat ∧ l !! i = Some x ∧ key x = k.
Proof.
  intros (x & Hi & Hx & Hk)%find_slot_take_Some. exists x. bool_hyps. eauto.
Qed.

Lemma dense_find_elem k n l : is_Some (dense_find k n l) ↔ k ∈ dense_keys n l.
Proof.
  unfold dense_keys. rewrite list_elem_of_fmap. split.
  - intros [i (x & Hi & Hx & Hk)%dense_find_Some]. exists x. split; [done|].
    apply list_elem_of_lookup. exists i. by apply lookup_take_Some.
  - intros (x & -> & [i Hi]%list_elem_of_lookup).
    destruct (find_slot_is_Some (λ y, key y =? key x) _ i x Hi) as (j & Hj & _).
    { apply Z.eqb_refl. }
    by exists j.
Qed.

Lemma dense_find_None k n l : dense_find k n l = None ↔ k ∉ dense_keys n l.
Proof. rewrite <- dense_find_elem, <- eq_None_not_Some. done. Qed.

Lemma dense_keys_add n l x :
  (n < length l)%nat → dense_keys (S n) (<[n:=x]> l) = dense_keys n l ++ [key x].
Proof. intros. unfold dense_keys. by rewrite take_app_insert, fmap_app. Qed.

Lemma dense_keys_remove n l i x :
  (i < n)%nat → (n ≤ length l)%nat → l !! i = Some x →
  dense_keys n l ≡ₚ key x :: dense_keys (n - 1) (swap_remove i n l).
Proof.
  intros. unfold dense_keys. by rewrite (swap_remove_perm l i n x), fmap_cons.
Qed.

Lemma dense_keys_length n l : (n ≤ length l)%nat → length (dense_keys n l) = n.
Proof. intros. unfold dense_keys. rewrite length_fmap, length_take. lia. Qed.

(** Overwriting a slot by one of the same key changes no key. *)
Lemma dense_keys_same n l i x y :
  l !! i = Some x → key y = key x → dense_keys n (<[i:=y]> l) = dense_keys n l.
Proof.
  intros Hx Hk. unfold dense_keys. rewrite take_insert.
  case_decide; [|done]. rewrite list_fmap_insert, Hk.
  apply list_insert_id. rewrite list_lookup_fmap, lookup_take_lt by done.
  by rewrite Hx.
Qed.
End dense.
#[global] Arguments dense_keys : simpl never.
#[global] Arguments dense_find : simpl never.

(** * Counted searches: [for (i = start; i < end; i++) if (check(i)) break], in 32 bits *)

Section search.
Context (check : Z → bool).

(** [todo] bounds the turns. *)
Fixpoint u32_search (todo : nat) (i end_ : Z) : option Z :=
  match todo with
  | O => None
  | S todo' => if i <? end_ then if check i then Some i else u32_search todo' (u32 (i + 1)) end_ else None
  end.

Lemma u32_search_find k : ∀ todo i,
  0 <= i → i + Z.of_nat k < 2 ^ 32 → (k < todo)%nat →
  u32_search todo i (i + Z.of_nat k) = List.find check (seqZ i (Z.of_nat k)).
Proof.
  induction k as [|k IH]; intros [|todo] i Hn Hk Ht; try lia; cbn [u32_search].
  - by rewrite Z.add_0_r, Z.ltb_irrefl.
  - rewrite (proj2 (Z.ltb_lt _ _)) by lia. rewrite seqZ_cons by lia. cbn [List.find].
    destruct (check i); [done|]. rewrite u32_small by (unfold is_u32; lia).
    replace (i + Z.of_nat (S k)) with (Z.succ i + Z.of_nat k) by lia.
    replace (Z.pred (Z.of_nat (S k))) with (Z.of_nat k) by lia.
    by rewrite <- (IH todo) by lia.
Qed.

(** A window of [k] numbers whose end wraps is not searched at all. *)
Lemma u32_search_window (k : nat) start :
  is_u32 start → Z.of_nat k < 2 ^ 31 →
  u32_search (S k) start (u32 (start + Z.of_nat k)) =
  if start + Z.of_nat k <? 2 ^ 32 then List.find check (seqZ start (Z.of_nat k)) else None.
Proof.
  unfold is_u32. intros Hs Hk. destruct (start + Z.of_nat k <? 2 ^ 32) eqn:He; bool_hyps.
  - rewrite u32_small by (unfold is_u32; lia). by apply u32_search_find; lia.
  - cbn [u32_search]. rewrite (proj2 (Z.ltb_ge _ _)); [done|]. unfold u32. zlia.
Qed.
End search.
