(* ===== verification/CStr.v ===== *)
(** C strings and byte buffers: the conversions, the [printf] and [strtol]
    family and the big-endian accessors that several components share.
    A C string is a Rocq [string] (the bytes before the terminating NUL), a
    byte buffer is a [list Z] of unsigned bytes. *)

From S2P Require Import Prelude.
From stdpp Require Export pretty.
#[global] Open Scope Z_scope.

(** * Bytes and characters *)

Definition chr (b : Z) : ascii := ascii_of_nat (Z.to_nat b).
Definition ord (c : ascii) : Z := Z.of_nat (nat_of_ascii c).

Fixpoint str_bytes (s : string) : list Z :=
  match s with
  | EmptyString => []
  | String c s' => ord c :: str_bytes s'
  end.

Fixpoint bytes_str (l : list Z) : string :=
  match l with
  | [] => EmptyString
  | b :: l' => String (chr b) (bytes_str l')
  end.

(** The C string at the start of a byte buffer. *)
Fixpoint cstr (l : list Z) : string :=
  match l with
  | [] => EmptyString
  | b :: l' => if b =? 0 then EmptyString else String (chr b) (cstr l')
  end.

(** [strncpy(dst, s, n)] into a zeroed buffer of [n + 1] bytes. *)
Definition strncpy (n : nat) (s : string) : string := String.substring 0 n s.

(** [s[0] == '\0'] *)
Definition str_empty (s : string) : bool :=
  match s with EmptyString => true | _ => false end.

Fixpoint str_drop (n : nat) (s : string) : string :=
  match n, s with
  | S n', String _ s' => str_drop n' s'
  | _, _ => s
  end.

Definition str_take (n : nat) (s : string) : string := String.substring 0 n s.

(** [strchr]: the offset of the first [c]. *)
Fixpoint strchr (c : ascii) (s : string) : option nat :=
  match s with
  | EmptyString => None
  | String d s' => if Ascii.eqb c d then Some O else S <$> strchr c s'
  end.

(** [strncmp(s, p, strlen(p)) == 0] *)
Fixpoint has_prefix (p s : string) : bool :=
  match p, s with
  | EmptyString, _ => true
  | String a p', String b s' => Ascii.eqb a b && has_prefix p' s'
  | _, _ => false
  end.

(** [strstr]: the offset of the first occurrence of [p]. *)
Fixpoint strstr (p s : string) : option nat :=
  if has_prefix p s then Some O else
  match s with
  | EmptyString => None
  | String _ s' => S <$> strstr p s'
  end.

(** * Hexadecimal *)

Definition hex_digit (d : Z) : ascii := if d <? 10 then chr (48 + d) else chr (87 + d).

(** [%02x] of a byte. *)
Definition hex2 (b : Z) : string :=
  String (hex_digit (b / 16)) (String (hex_digit (b mod 16)) EmptyString).

(** [%08lx] of a 32-bit word. *)
Definition hex8 (w : Z) : string :=
  (hex2 (w / 2 ^ 24 mod 256) +:+ hex2 (w / 2 ^ 16 mod 256)
   +:+ hex2 (w / 2 ^ 8 mod 256) +:+ hex2 (w mod 256))%string.

Fixpoint hex_bytes (l : list Z) : string :=
  match l with
  | [] => EmptyString
  | b :: l' => (hex2 b +:+ hex_bytes l')%string
  end.

(** The value of a hexadecimal digit of either case. *)
Definition hex_val (c : ascii) : option Z :=
  let b := ord c in
  if (48 <=? b) && (b <=? 57) then Some (b - 48)
  else if (97 <=? b) && (b <=? 102) then Some (b - 87)
  else if (65 <=? b) && (b <=? 70) then Some (b - 55)
  else None.

(** * Decimal and hexadecimal numbers: atoi, atoll, strtoul *)

Definition is_space (c : ascii) : bool :=
  let b := ord c in (b =? 32) || ((9 <=? b) && (b <=? 13)).

Fixpoint skip_space (s : string) : string :=
  match s with
  | String c s' => if is_space c then skip_space s' else s
  | EmptyString => s
  end.

Definition dec_val (c : ascii) : option Z :=
  let b := ord c in if (48 <=? b) && (b <=? 57) then Some (b - 48) else None.

(** Accumulate the longest prefix of digits. *)
Fixpoint read_digits (val : ascii → option Z) (base acc : Z) (s : string) : Z :=
  match s with
  | String c s' =>
      match val c with
      | Some d => read_digits val base (acc * base + d) s'
      | None => acc
      end
  | EmptyString => acc
  end.

(** The optional sign of the [strtol] family. *)
Definition read_sign (s : string) : bool * string :=
  match s with
  | String "-" s' => (true, s')
  | String "+" s' => (false, s')
  | _ => (false, s)
  end.

Definition read_int (val : ascii → option Z) (base : Z) (s : string) : Z :=
  let '(neg, r) := read_sign (skip_space s) in
  let v := read_digits val base 0 r in
  if neg then - v else v.

(** [0x] is accepted before the digits in base 16. *)
Definition skip_0x (s : string) : string :=
  match s with
  | String "0" (String x ((String d _) as r)) =>
      if (Ascii.eqb x "x" || Ascii.eqb x "X") && bool_decide (is_Some (hex_val d)) then r else s
  | _ => s
  end.

Definition clamp (lo hi v : Z) : Z := Z.max lo (Z.min hi v).

(** [atoll] and [strtoll(s, NULL, 10)] saturate; [atoi] is [(int) strtol],
    with [long] of 32 bits on the target. *)
Definition atoll (s : string) : Z := clamp (- 2 ^ 63) (2 ^ 63 - 1) (read_int dec_val 10 s).
Definition atoi (s : string) : Z := clamp (- 2 ^ 31) (2 ^ 31 - 1) (read_int dec_val 10 s).

(** [strtoul] on a 32-bit [unsigned long]: an overflow gives ULONG_MAX, a
    minus sign negates the result modulo 2^32. *)
Definition strtoul_digits (val : ascii → option Z) (base : Z) (strip : string → string)
    (s : string) : Z :=
  let '(neg, r) := read_sign (skip_space s) in
  let v := read_digits val base 0 (strip r) in
  if UINT32_MAX <? v then UINT32_MAX else if neg then u32 (- v) else v.
Definition strtoul10 (s : string) : Z := strtoul_digits dec_val 10 (λ r, r) s.
Definition strtoul16 (s : string) : Z := strtoul_digits hex_val 16 skip_0x s.

(** [sscanf(s, ''%02x'', &byte)]: white space is skipped, then at most two
    characters are read, a sign and a [0x] counting among them ([0x] without
    digits reads as 0, as newlib has it); [None] when nothing is converted. *)
Definition scan_hex2 (s : string) : option Z :=
  match skip_space s with
  | EmptyString => None
  | String c r =>
      match hex_val c with
      | Some a =>
          match r with
          | String d _ =>
              match hex_val d with Some b => Some (16 * a + b) | None => Some a end
          | EmptyString => Some a
          end
      | None =>
          match r with
          | String d _ =>
              if Ascii.eqb c "-" then (λ b, u32 (- b)) <$> hex_val d
              else if Ascii.eqb c "+" then hex_val d else None
          | EmptyString => None
          end
      end
  end.

(** [n] turns of a loop that reads [%02x]: the bytes written so far and whether
    all were.  Past the end of the string nothing is converted. *)
Fixpoint hex_to_bytes_loop (n : nat) (hex : string) : list Z * bool :=
  match n with
  | O => ([], true)
  | S n' =>
      match scan_hex2 hex with
      | None => ([], false)
      | Some b => let '(l, ok) := hex_to_bytes_loop n' (str_drop 2 hex) in (u8 b :: l, ok)
      end
  end.

(** [strtoull(s, NULL, 10)] *)
Definition strtoull10 (s : string) : Z :=
  let '(neg, r) := read_sign (skip_space s) in
  let v := read_digits dec_val 10 0 r in
  if UINT64_MAX <? v then UINT64_MAX else if neg then u64 (- v) else v.

(** [%u], [%llu] of an unsigned integer of at most 64 bits: twenty digits are
    enough. *)
Fixpoint dec_go (fuel : nat) (n : Z) (acc : string) : string :=
  match fuel with
  | O => acc
  | S fuel' =>
      let acc' := String (chr (48 + n mod 10)) acc in
      if n / 10 =? 0 then acc' else dec_go fuel' (n / 10) acc'
  end.

Definition print_u (n : Z) : string := dec_go 20 n "".
(** A text in double quotes. *)
Definition dq (s : string) : string := String (chr 34) (s +:+ String (chr 34) "").

(** [%d], [%lld] *)
Definition print_d (n : Z) : string :=
  if n <? 0 then String "-" (print_u (- n)) else print_u n.

(** [IPSTR] of an address in network byte order, read from memory. *)
Definition ip_str (ip : Z) : string :=
  (print_u (u8 ip) +:+ "." +:+ print_u (u8 (Z.shiftr ip 8)) +:+ "."
   +:+ print_u (u8 (Z.shiftr ip 16)) +:+ "." +:+ print_u (u8 (Z.shiftr ip 24)))%string.

(** * Big-endian integers in byte buffers *)

Fixpoint put_be (n : nat) (v : Z) : list Z :=
  match n with
  | O => []
  | S n' => v / 2 ^ (8 * Z.of_nat n') mod 256 :: put_be n' v
  end.

Definition get_be (l : list Z) : Z := foldl (λ acc b, acc * 256 + b) 0 l.

(** Bytes [off .. off + n - 1] of a buffer. *)
Definition slice (off n : nat) (l : list Z) : list Z := take n (drop off l).

(** Little-endian memory image of a 32-bit word. *)
Definition put_le32 (v : Z) : list Z := rev (put_be 4 v).

(** * Lemmas *)

Lemma length_put_be n v : length (put_be n v) = n.
Proof. induction n; cbn; congruence. Qed.
#[export] Hint Rewrite length_put_be : tg_rw.

Lemma put_be_bytes n v : Forall is_u8 (put_be n v).
Proof.
  induction n; cbn; constructor; [|done]. unfold is_u8. pow_consts.
  apply Z.mod_pos_bound. lia.
Qed.

Lemma get_be_app l b : get_be (l ++ [b]) = get_be l * 256 + b.
Proof. unfold get_be. by rewrite foldl_app. Qed.

Lemma foldl_be_acc l a :
  foldl (λ acc b, acc * 256 + b) a l = a * 256 ^ Z.of_nat (length l) + get_be l.
Proof.
  unfold get_be. revert a. induction l as [|x l IH]; intros a; [simpl; lia|].
  change (foldl (λ acc b, acc * 256 + b) (a * 256 + x) l =
    a * 256 ^ Z.of_nat (S (length l)) + foldl (λ acc b, acc * 256 + b) (0 * 256 + x) l).
  rewrite (IH (a * 256 + x)), (IH (0 * 256 + x)).
  rewrite Nat2Z.inj_succ, Z.pow_succ_r by lia. lia.
Qed.

Lemma get_be_cons x l : get_be (x :: l) = x * 256 ^ Z.of_nat (length l) + get_be l.
Proof. unfold get_be at 1. simpl. apply (foldl_be_acc l x). Qed.

(** Reading back what was written, modulo the width. *)
Lemma get_put_be n v : get_be (put_be n v) = v mod 256 ^ Z.of_nat n.
Proof.
  induction n as [|n IH]; [by rewrite Z.mod_1_r|].
  simpl put_be. rewrite get_be_cons, IH, length_put_be.
  rewrite Nat2Z.inj_succ, Z.pow_succ_r by lia.
  rewrite (Z.mul_comm 256 (256 ^ _)).
  rewrite Z.rem_mul_r by (try apply Z.pow_nonzero; lia).
  replace (2 ^ (8 * Z.of_nat n)) with (256 ^ Z.of_nat n); [lia|].
  change 256 with (2 ^ 8). by rewrite <- Z.pow_mul_r by lia.
Qed.

Lemma get_be_range l : Forall is_u8 l → 0 <= get_be l < 256 ^ Z.of_nat (length l).
Proof.
  induction 1 as [|x l Hx Hl IH]; [done|].
  rewrite get_be_cons. simpl length. rewrite Nat2Z.inj_succ, Z.pow_succ_r by lia.
  unfold is_u8 in Hx. pow_consts. nia.
Qed.

(** Big-endian reading is injective on buffers of one length. *)
Lemma get_be_inj l1 l2 :
  Forall is_u8 l1 → Forall is_u8 l2 → length l1 = length l2 →
  get_be l1 = get_be l2 → l1 = l2.
Proof.
  intros H1. revert l2. induction H1 as [|x l1 Hx Hl1 IH]; intros [|y l2] H2 Hlen Hv; try done.
  apply Forall_cons in H2 as [Hy H2]. simpl in Hlen.
  assert (length l1 = length l2) as Hlen' by lia.
  rewrite !get_be_cons, Hlen' in Hv.
  pose proof (get_be_range l1 Hl1). pose proof (get_be_range l2 H2).
  rewrite Hlen' in *. unfold is_u8 in *. pow_consts.
  assert (x = y) as -> by nia. f_equal. apply IH; [done|lia|lia].
Qed.

Lemma put_get_be l : Forall is_u8 l → put_be (length l) (get_be l) = l.
Proof.
  intros Hl. apply get_be_inj; [apply put_be_bytes|done|by rewrite length_put_be|].
  rewrite get_put_be. apply Z.mod_small. by apply get_be_range.
Qed.

Lemma str_length_take n s : (String.length (str_take n s) ≤ n)%nat.
Proof.
  unfold str_take. revert n. induction s as [|c s IH]; intros [|n]; simpl; try lia.
  specialize (IH n). lia.
Qed.

Lemma strncpy_length n s : (String.length (strncpy n s) ≤ n)%nat.
Proof. apply str_length_take. Qed.

Lemma strncpy_short n s : (String.length s ≤ n)%nat → strncpy n s = s.
Proof.
  unfold strncpy. revert n. induction s as [|c s IH]; intros [|n] H; simpl in *; try done; [lia|].
  by rewrite IH by lia.
Qed.

Lemma length_str_bytes s : length (str_bytes s) = String.length s.
Proof. induction s; simpl; congruence. Qed.

Lemma length_bytes_str l : String.length (bytes_str l) = length l.
Proof. induction l; simpl; congruence. Qed.

Lemma chr_ord c : chr (ord c) = c.
Proof. unfold chr, ord. rewrite Nat2Z.id. apply ascii_nat_embedding. Qed.

Lemma ord_chr b : is_u8 b → ord (chr b) = b.
Proof.
  unfold is_u8, chr, ord. pow_consts. intros. rewrite nat_ascii_embedding; lia.
Qed.

Lemma bytes_str_bytes s : bytes_str (str_bytes s) = s.
Proof. induction s as [|c s IH]; simpl; [done|]. by rewrite chr_ord, IH. Qed.

Lemma str_bytes_u8 s : Forall is_u8 (str_bytes s).
Proof.
  induction s as [|c s IH]; constructor; [|done]. unfold is_u8, ord. pow_consts.
  pose proof (nat_ascii_bounded c). lia.
Qed.

Lemma str_bytes_str l : Forall is_u8 l → str_bytes (bytes_str l) = l.
Proof. induction 1 as [|b l Hb _ IH]; simpl; [done|]. by rewrite ord_chr, IH. Qed.

(** Disjoint bits add up. *)
Lemma lor_shiftl_add x y n : 0 <= n → 0 <= y < 2 ^ n → Z.lor (Z.shiftl x n) y = x * 2 ^ n + y.
Proof.
  intros Hn Hy. rewrite <- Z.shiftl_mul_pow2 by done.
  assert (Z.land (Z.shiftl x n) y = 0) as Hd.
  { apply Z.bits_inj'. intros m Hm. rewrite Z.land_spec, Z.bits_0.
    destruct (Z.lt_ge_cases m n); [by rewrite Z.shiftl_spec_low|].
    rewrite <- (Z.mod_small y (2 ^ n)) by done. rewrite (Z.mod_pow2_bits_high y) by lia.
    apply andb_false_r. }
  rewrite Z.add_nocarry_lxor by done. by rewrite Z.lxor_lor.
Qed.

(** A hexadecimal digit printed is read back. *)
Lemma hex_val_digit d : 0 <= d < 16 → hex_val (hex_digit d) = Some d.
Proof.
  intros H. rewrite <- (Z2Nat.id d) by lia.
  assert (Z.to_nat d < 16)%nat as Hn by lia. revert Hn. generalize (Z.to_nat d).
  intros n Hn. do 16 (destruct n as [|n]; [reflexivity|]). lia.
Qed.

Lemma hex_digit_no_space d : 0 <= d < 16 → is_space (hex_digit d) = false.
Proof.
  intros H. rewrite <- (Z2Nat.id d) by lia.
  assert (Z.to_nat d < 16)%nat as Hn by lia. revert Hn. generalize (Z.to_nat d).
  intros n Hn. do 16 (destruct n as [|n]; [reflexivity|]). lia.
Qed.

(** ** Decimal numbers printed and read back *)

Lemma dec_val_digit d : 0 <= d < 10 → dec_val (chr (48 + d)) = Some d.
Proof.
  intros Hd. unfold dec_val. rewrite ord_chr by (unfold is_u8; pow_consts; lia).
  rewrite (proj2 (Z.leb_le _ _)), (proj2 (Z.leb_le _ _)) by lia. simpl. f_equal. lia.
Qed.

Lemma read_dec_go fuel n acc :
  0 <= n < 10 ^ Z.of_nat fuel → fuel ≠ O →
  read_digits dec_val 10 0 (dec_go fuel n acc) = read_digits dec_val 10 n acc.
Proof.
  revert n acc. induction fuel as [|fuel IH]; intros n acc Hn Hf; [done|]. simpl.
  rewrite Nat2Z.inj_succ, Z.pow_succ_r in Hn by lia.
  assert (0 <= n mod 10 < 10) as Hm by (apply Z.mod_pos_bound; lia).
  pose proof (Z.div_mod n 10 ltac:(lia)) as Hdm.
  destruct (n / 10 =? 0) eqn:Hz; bool_hyps.
  - simpl. rewrite dec_val_digit by done. f_equal. lia.
  - assert (0 < n / 10) by (pose proof (Z.div_pos n 10); lia).
    assert (n / 10 < 10 ^ Z.of_nat fuel) by (apply Z.div_lt_upper_bound; lia).
    rewrite IH; [|lia|].
    + simpl. rewrite dec_val_digit by done. f_equal. lia.
    + intros ->. simpl in *. lia.
Qed.

Lemma str_append_cons x a b : (String x a +:+ b)%string = String x (a +:+ b)%string.
Proof. done. Qed.

Lemma str_append_nil a : ("" +:+ a)%string = a.
Proof. done. Qed.

Lemma scan_hex2_hex2 b s : is_u8 b → scan_hex2 (hex2 b +:+ s)%string = Some b.
Proof.
  unfold is_u8, hex2. intros Hb. rewrite !str_append_cons. unfold scan_hex2. cbn [skip_space].
  rewrite hex_digit_no_space, !hex_val_digit by (pow_consts; zlia). f_equal. zlia.
Qed.

Lemma hex_to_bytes_loop_hex l s :
  Forall is_u8 l → hex_to_bytes_loop (length l) (hex_bytes l +:+ s)%string = (l, true).
Proof.
  induction 1 as [|b l Hb Hl IH]; [done|]. cbn [length hex_bytes hex_to_bytes_loop].
  assert (((hex2 b +:+ hex_bytes l) +:+ s)%string = (hex2 b +:+ (hex_bytes l +:+ s))%string) as ->
    by (unfold hex2; by rewrite !str_append_cons, !str_append_nil).
  rewrite scan_hex2_hex2 by done. unfold hex2. rewrite !str_append_cons, str_append_nil. cbn [str_drop].
  by rewrite IH, u8_small.
Qed.

Lemma str_append_length a b :
  String.length (a +:+ b)%string = (String.length a + String.length b)%nat.
Proof.
  induction a as [|x a IH]; [done|]. rewrite str_append_cons. simpl. by rewrite IH.
Qed.

Lemma str_append_nil_r a : (a +:+ "")%string = a.
Proof. induction a as [|x a IH]; [done|]. by rewrite str_append_cons, IH. Qed.

Lemma str_append_assoc a b c : (a +:+ (b +:+ c))%string = ((a +:+ b) +:+ c)%string.
Proof. induction a as [|x a IH]; [done|]. by rewrite !str_append_cons, IH. Qed.

(** The printed digits: a non-empty prefix of digits before [acc]. *)
Definition is_digit (c : ascii) : Prop := ∃ d, 0 <= d < 10 ∧ c = chr (48 + d).

Lemma dec_go_digits fuel n acc :
  0 <= n → fuel ≠ O →
  ∃ c ds, dec_go fuel n acc = (String c ds +:+ acc)%string ∧
    (String.length ds < fuel)%nat ∧ is_digit c ∧ Forall is_digit (String.list_ascii_of_string ds).
Proof.
  revert n acc. induction fuel as [|fuel IH]; intros n acc Hn Hf; [done|]. simpl.
  assert (is_digit (chr (48 + n mod 10))) as Hd.
  { exists (n mod 10). split; [apply Z.mod_pos_bound; lia|done]. }
  destruct (n / 10 =? 0) eqn:Hz; bool_hyps.
  - exists (chr (48 + n mod 10)), ""%string. split_and!; [done|simpl; lia|done|constructor].
  - destruct fuel as [|fuel].
    { exists (chr (48 + n mod 10)), ""%string. split_and!; [done|simpl; lia|done|constructor]. }
    destruct (IH (n / 10) (String (chr (48 + n mod 10)) acc)) as (c & ds & -> & Hl & Hc & Hds);
      [apply Z.div_pos; lia|done|].
    exists c, (ds +:+ String (chr (48 + n mod 10)) "")%string. split_and!; [|  |done|].
    + by rewrite !str_append_cons, <- str_append_assoc.
    + rewrite str_append_length. simpl. lia.
    + clear -Hds Hd. induction ds as [|x ds IH]; [by constructor|].
      rewrite str_append_cons. simpl in *. apply Forall_cons in Hds as [Hx Hds]. constructor; [done|by apply IH].
Qed.

Lemma str_take_all n s : (String.length s ≤ n)%nat → str_take n s = s.
Proof. apply strncpy_short. Qed.

Lemma str_take_app a b : str_take (String.length a) (a +:+ b)%string = a.
Proof.
  unfold str_take. induction a as [|x a IH]; [by destruct b|]. rewrite str_append_cons. simpl. by rewrite IH.
Qed.

Lemma str_drop_app a b : str_drop (String.length a) (a +:+ b)%string = b.
Proof. induction a as [|x a IH]; [by destruct b|]. rewrite str_append_cons. done. Qed.

Lemma is_digit_ord c : is_digit c → 48 <= ord c <= 57.
Proof. intros (d & Hd & ->). rewrite ord_chr by (unfold is_u8; pow_consts; lia). lia. Qed.

(** What is printed starts with no space or sign. *)
Lemma read_int_digits c s :
  is_digit c → read_int dec_val 10 (String c s) = read_digits dec_val 10 0 (String c s).
Proof.
  intros Hc%is_digit_ord. unfold read_int.
  assert (skip_space (String c s) = String c s) as ->.
  { cbn [skip_space]. unfold is_space. cbv zeta.
    rewrite (proj2 (Z.eqb_neq _ _)) by lia. rewrite (proj2 (Z.leb_gt (ord c) 13)) by lia.
    by rewrite andb_false_r. }
  assert (read_sign (String c s) = (false, String c s)) as ->; [|done].
  unfold read_sign. destruct c as [[] [] [] [] [] [] [] []]; try done; by destruct Hc as [[] _].
Qed.

Lemma print_u_read n acc :
  is_u64 n → read_int dec_val 10 (dec_go 20 n acc) = read_digits dec_val 10 n acc.
Proof.
  unfold is_u64. intros Hn. destruct (dec_go_digits 20 n acc) as (c & ds & Heq & _ & Hc & _); [lia|done|].
  rewrite Heq, str_append_cons. rewrite read_int_digits by done.
  rewrite <- str_append_cons, <- Heq.
  apply read_dec_go; [|done]. change (10 ^ Z.of_nat 20) with 100000000000000000000.
  pow_consts. lia.
Qed.

Lemma atoll_print_u n : 0 <= n < 2 ^ 63 → atoll (print_u n) = n.
Proof.
  intros Hn. unfold atoll, print_u. rewrite print_u_read by (unfold is_u64; pow_consts; lia).
  simpl. unfold clamp. lia.
Qed.

Lemma atoi_print_u n : 0 <= n < 2 ^ 31 → atoi (print_u n) = n.
Proof.
  intros Hn. unfold atoi, print_u. rewrite print_u_read by (unfold is_u64; pow_consts; lia).
  simpl. unfold clamp. lia.
Qed.

(** A separator that is no digit is found right behind the number. *)
Lemma strchr_print_u c n s :
  0 <= n → ¬ (48 <= ord c <= 57) →
  strchr c (print_u n +:+ String c s)%string = Some (String.length (print_u n)).
Proof.
  intros Hn Hc. unfold print_u. destruct (dec_go_digits 20 n "") as (d & ds & -> & _ & Hd & Hds); [done..|].
  rewrite str_append_nil_r.
  assert (Forall is_digit (String.list_ascii_of_string (String d ds))) as Hall by (by constructor).
  revert Hall. generalize (String d ds). intros t. induction t as [|x t IH]; [|rewrite str_append_cons]; simpl.
  - intros _. by rewrite Ascii.eqb_refl.
  - intros [Hx Ht]%Forall_cons. rewrite (proj2 (Ascii.eqb_neq c x)).
    + by rewrite IH.
    + intros ->. apply is_digit_ord in Hx. lia.
Qed.

Lemma print_u_length n : 0 <= n → (1 ≤ String.length (print_u n) ≤ 20)%nat.
Proof.
  intros Hn. unfold print_u. destruct (dec_go_digits 20 n "") as (d & ds & -> & Hl & _ & _); [done..|].
  rewrite str_append_nil_r. simpl. lia.
Qed.

(** ** Texts without a NUL are C strings *)

Definition no_nul (s : string) : Prop := Forall (λ b, b ≠ 0) (str_bytes s).

Lemma cstr_str_bytes s : no_nul s → cstr (str_bytes s) = s.
Proof.
  unfold no_nul. induction s as [|c s IH]; [done|]. cbn [str_bytes cstr]. intros [Hc Hs]%Forall_cons.
  by rewrite (proj2 (Z.eqb_neq _ 0)), chr_ord, IH.
Qed.

Lemma str_bytes_app a b : str_bytes (a +:+ b)%string = str_bytes a ++ str_bytes b.
Proof.
  induction a as [|x a IH]; [done|]. rewrite str_append_cons. cbn [str_bytes]. by rewrite IH.
Qed.

Lemma bytes_str_app a b : bytes_str (a ++ b) = (bytes_str a +:+ bytes_str b)%string.
Proof. induction a as [|x a IH]; [done|]. cbn [app bytes_str]. by rewrite IH. Qed.

Lemma no_nul_app a b : no_nul a → no_nul b → no_nul (a +:+ b)%string.
Proof. unfold no_nul. rewrite str_bytes_app, Forall_app. done. Qed.

Lemma no_nul_print_u n : 0 <= n → no_nul (print_u n).
Proof.
  intros Hn. unfold print_u. destruct (dec_go_digits 20 n "") as (d & ds & -> & _ & Hd & Hds); [done..|].
  rewrite str_append_nil_r.
  assert (Forall is_digit (String.list_ascii_of_string (String d ds))) as Hall by (by constructor).
  revert Hall. generalize (String d ds). intros t. unfold no_nul.
  induction t as [|x t IH]; [constructor|]. intros [Hx%is_digit_ord Ht]%Forall_cons.
  constructor; [lia|by apply IH].
Qed.
#[export] Hint Resolve no_nul_app no_nul_print_u : tg_db.

(** ** Concatenations of strings of known length, and printed words *)

Lemma str_append_inj a b c d :
  String.length a = String.length b → (a +:+ c)%string = (b +:+ d)%string → a = b ∧ c = d.
Proof.
  revert b. induction a as [|x a IH]; intros [|y b] Hl; try done.
  rewrite !str_append_cons. intros [= -> Heq]. injection Hl as Hl.
  by destruct (IH b Hl Heq) as [-> ->].
Qed.

Lemma length_hex2 b : String.length (hex2 b) = 2%nat.
Proof. done. Qed.

Lemma length_hex_bytes l : String.length (hex_bytes l) = (2 * length l)%nat.
Proof.
  induction l as [|b l IH]; [done|]. cbn [hex_bytes]. rewrite str_append_length, IH, length_hex2.
  simpl length. lia.
Qed.

Lemma length_hex8 w : String.length (hex8 w) = 8%nat.
Proof. unfold hex8. by rewrite !str_append_length, !length_hex2. Qed.

Lemma hex2_inj a b : is_u8 a → is_u8 b → hex2 a = hex2 b → a = b.
Proof.
  unfold is_u8. intros Ha Hb Heq. injection Heq as H1 H2.
  apply (f_equal hex_val) in H1, H2.
  rewrite !hex_val_digit in H1 by (pow_consts; zlia).
  rewrite !hex_val_digit in H2 by (pow_consts; zlia).
  injection H1 as H1. injection H2 as H2.
  rewrite (Z.div_mod a 16), (Z.div_mod b 16) by lia. lia.
Qed.

Lemma hex8_inj v w : is_u32 v → is_u32 w → hex8 v = hex8 w → v = w.
Proof.
  intros Hv Hw Heq. unfold hex8 in Heq.
  apply str_append_inj in Heq as [H1 Heq]; [|done].
  apply str_append_inj in Heq as [H2 Heq]; [|done].
  apply str_append_inj in Heq as [H3 H4]; [|done].
  apply hex2_inj in H1, H2, H3, H4;
    try (unfold is_u8; change (2 ^ 8) with 256; apply Z.mod_pos_bound; lia).
  change (2 ^ 24) with (256 * 256 * 256) in *. change (2 ^ 16) with (256 * 256) in *.
  unfold is_u32 in *. pow_consts. clear -Hv Hw H1 H2 H3 H4.
  Z.to_euclidean_division_equations. lia.
Qed.

(** ** Texts without a character *)

(** No [c] in [s]. *)
Definition lacks (c : ascii) (s : string) : Prop := strchr c s = None.

Lemma strchr_app_stop c a b : lacks c a → strchr c (a +:+ String c b)%string = Some (String.length a).
Proof.
  unfold lacks. induction a as [|x a IH]; intros Ha.
  - rewrite str_append_nil. cbn [strchr]. by rewrite Ascii.eqb_refl.
  - rewrite str_append_cons. cbn [strchr] in *. destruct (Ascii.eqb c x); [done|].
    destruct (strchr c a) eqn:Hs; [done|]. by rewrite IH.
Qed.

Lemma lacks_app c a b : lacks c a → lacks c b → lacks c (a +:+ b)%string.
Proof.
  unfold lacks. induction a as [|x a IH]; intros Ha Hb; [done|]. rewrite str_append_cons. cbn [strchr] in *.
  destruct (Ascii.eqb c x); [done|]. destruct (strchr c a) eqn:Hs; [done|]. by rewrite IH.
Qed.

Lemma strchr_app_Some c a b i : strchr c a = Some i → strchr c (a +:+ b)%string = Some i ∧ (i < String.length a)%nat.
Proof.
  revert i. induction a as [|x a IH]; intros i Hi; [done|]. rewrite str_append_cons. cbn [strchr String.length] in *.
  destruct (Ascii.eqb c x); [injection Hi as <-; split; [done|lia]|].
  destruct (strchr c a) as [j|] eqn:Hs; [|done]. injection Hi as <-.
  destruct (IH j eq_refl) as [-> Hlt]. split; [done|lia].
Qed.

Lemma lacks_print_u c n : 0 <= n → ¬ (48 <= ord c <= 57) → lacks c (print_u n).
Proof.
  intros Hn Hc. unfold lacks. destruct (strchr c (print_u n)) as [i|] eqn:Hs; [|done].
  pose proof (strchr_print_u c n "" Hn Hc) as H. destruct (strchr_app_Some c _ (String c "") i Hs) as [Hi Hlt].
  rewrite H in Hi. injection Hi as Hi. lia.
Qed.
