(* ===== verification/F64.v ===== *)
(** IEEE 754 doubles as the sources compute with them (the Standard Library's
    [SpecFloat] at binary64, rounding to nearest even), the conversions to and
    from C integers, and the results of the operations that C leaves
    undefined, which stay a parameter. *)

From Stdlib Require Import SpecFloat.
From S2P Require Import Prelude.

Definition f64 : Type := spec_float.

Definition f64_of_Z (z : Z) : f64 := binary_normalize 53 1024 z 0 false.
Definition f64_zero : f64 := S754_zero false.
Definition f64_add (x y : f64) : f64 := SFadd 53 1024 x y.
Definition f64_mul (x y : f64) : f64 := SFmul 53 1024 x y.
Definition f64_div (x y : f64) : f64 := SFdiv 53 1024 x y.
Definition f64_le (x y : f64) : bool := SFleb x y.
Definition f64_lt (x y : f64) : bool := SFltb x y.
Definition f64_eq (x y : f64) : bool := SFeqb x y.

(** Truncation towards zero; [None] for infinities and NaN. *)
Definition f64_trunc (x : f64) : option Z :=
  match x with
  | S754_zero _ => Some 0
  | S754_finite s m e =>
      let a := if 0 <=? e then Z.pos m * 2 ^ e else Z.pos m / 2 ^ (- e) in
      Some (if s then - a else a)
  | _ => None
  end.

(** What the compiled program gives where C defines no result: a double
    converted to an integer type that cannot hold it, and a 64-bit shift by
    64 or more. *)
Class CUndef := {
  u64_of_f64_oob : f64 → Z;
  i32_of_f64_oob : f64 → Z;
  shl64_oob : Z → Z → Z
}.

Section conversions.
Context `{CUndef}.

(** [(uint64_t) x] *)
Definition u64_of_f64 (x : f64) : Z :=
  match f64_trunc x with
  | Some z => if (0 <=? z) && (z <? 2 ^ 64) then z else u64 (u64_of_f64_oob x)
  | None => u64 (u64_of_f64_oob x)
  end.

(** [(uint32_t) x] *)
Definition u32_of_f64 (x : f64) : Z :=
  match f64_trunc x with
  | Some z => if (0 <=? z) && (z <? 2 ^ 32) then z else u32 (u64_of_f64_oob x)
  | None => u32 (u64_of_f64_oob x)
  end.

(** [(int64_t) x] *)
Definition i64_of_f64 (x : f64) : Z :=
  match f64_trunc x with
  | Some z => if (- 2 ^ 63 <=? z) && (z <? 2 ^ 63) then z else i64 (u64_of_f64_oob x)
  | None => i64 (u64_of_f64_oob x)
  end.

(** [(int) x] *)
Definition i32_of_f64 (x : f64) : Z :=
  match f64_trunc x with
  | Some z => if (- 2 ^ 31 <=? z) && (z <? 2 ^ 31) then z else i32 (i32_of_f64_oob x)
  | None => i32 (i32_of_f64_oob x)
  end.

(** [x << n] on [uint64_t]. *)
Definition shl64 (x n : Z) : Z :=
  if n <? 64 then u64 (Z.shiftl x n) else u64 (shl64_oob x n).

Lemma u64_of_f64_range x : is_u64 (u64_of_f64 x).
Proof.
  unfold u64_of_f64. destruct (f64_trunc x) as [z|]; [|apply u64_range].
  case_if; [|apply u64_range]. bool_hyps. unfold is_u64. lia.
Qed.

Lemma shl64_range x n : is_u64 (shl64 x n).
Proof. unfold shl64. case_if; apply u64_range. Qed.
End conversions.

#[export] Hint Resolve u64_of_f64_range shl64_range : tg_db.

(** Some program: zero wherever C leaves the result open. *)
Definition cundef_zero : CUndef := Build_CUndef (λ _, 0) (λ _, 0) (λ _ _, 0).

(** * Integers as doubles *)

Lemma digits2_lower p : 2 ^ (Z.pos (digits2_pos p) - 1) <= Z.pos p.
Proof.
  induction p as [p IH|p IH|]; cbn [digits2_pos]; [| |done];
    rewrite Pos2Z.inj_succ; replace (Z.succ (Z.pos (digits2_pos p)) - 1)
      with (Z.succ (Z.pos (digits2_pos p) - 1)) by lia;
    rewrite Z.pow_succ_r by lia; lia.
Qed.

Lemma iter_xO_spec d p :
  Z.pos (Pos.iter xO p d) = Z.pos p * 2 ^ Z.pos d ∧
  Z.pos (digits2_pos (Pos.iter xO p d)) = Z.pos (digits2_pos p) + Z.pos d.
Proof.
  induction d as [|d [IH1 IH2]] using Pos.peano_ind; [split; cbn; lia|].
  rewrite Pos.iter_succ, Pos2Z.inj_succ, Z.pow_succ_r by lia. cbn [digits2_pos].
  rewrite Pos2Z.inj_succ. lia.
Qed.

(** A mantissa of 53 digits is not rounded. *)
Lemma round_53 m e :
  Zdigits2 (Z.pos m) = 53 → - 52 <= e <= 0 →
  binary_round_aux 53 1024 false (Z.pos m) e loc_Exact = S754_finite false m e.
Proof.
  intros Hd He. unfold binary_round_aux.
  assert (shr_fexp 53 1024 (Z.pos m) e loc_Exact = (Build_shr_record (Z.pos m) false false, e)) as Hs.
  { unfold shr_fexp, fexp, emin, shr. rewrite Hd.
    replace (Z.max (53 + e - 53) (3 - 1024 - 53) - e) with 0 by lia. done. }
  rewrite Hs. cbn [shr_m loc_of_shr_record round_nearest_even]. rewrite Hs. cbn [shr_m].
  by rewrite (proj2 (Z.leb_le e (1024 - 53))) by lia.
Qed.

Lemma f64_of_Z_exact z : 0 <= z < 2 ^ 53 → f64_trunc (f64_of_Z z) = Some z.
Proof.
  destruct z as [|p|p]; [done| |lia]. intros [_ Hp]. unfold f64_of_Z, binary_normalize, binary_round.
  set (D := Z.pos (digits2_pos p)).
  assert (D <= 53) as HD.
  { pose proof (digits2_lower p) as Hl. fold D in Hl.
    destruct (Z.le_gt_cases D 53) as [|Hg]; [done|].
    pose proof (Z.pow_le_mono_r 2 53 (D - 1)). lia. }
  assert (fexp 53 1024 (D + 0) = D - 53) as -> by (unfold fexp, emin; lia).
  unfold shl_align. destruct (D - 53 - 0) as [|d|d] eqn:Hd; [|lia|].
  - rewrite round_53 by (unfold Zdigits2; fold D; lia). cbn. f_equal. lia.
  - pose proof (iter_xO_spec d p) as [Hv Hdig]. fold D in Hdig.
    rewrite round_53 by (unfold Zdigits2; lia). unfold f64_trunc.
    rewrite (proj2 (Z.leb_gt 0 _)) by lia. replace (- (D - 53)) with (Z.pos d) by lia.
    by rewrite Hv, Z.div_mul by lia.
Qed.

Lemma u32_of_f64_of_Z `{CUndef} z : is_u32 z → u32_of_f64 (f64_of_Z z) = z.
Proof.
  unfold is_u32, u32_of_f64. intros Hz. rewrite f64_of_Z_exact by (pow_consts; lia).
  rewrite (proj2 (Z.leb_le 0 z)), (proj2 (Z.ltb_lt z _)) by lia. done.
Qed.
