(* ===== verification/Json.v ===== *)
(** The interface of the JSON library the sources call (cJSON), which is not
    part of the repository: the accessors as the operations of a class, the
    trees the sources build as data, the printer as an operation.  A concrete
    instance on the built trees serves the witnesses. *)

From S2P Require Import Prelude CStr F64.

(** What [cJSON_Create*] and [cJSON_Add*ToObject] build. *)
Inductive jval :=
| JNull
| JBool (b : bool)
| JNum (x : f64)
| JStr (s : string)
| JArr (l : list jval)
| JObj (l : list (string * jval)).

(** Parsed documents [J] with cJSON's accessors.  A query of the type and the
    access that it guards come as one operation: [cJSON_IsString(x)] with
    [x->valuestring] is [str_of x], and so on. *)
Class CJson (J : Type) := {
  cJSON_Parse : string → option J;
  cJSON_GetObjectItem : J → string → option J;
  cJSON_IsArray : J → bool;
  cJSON_IsObject : J → bool;
  cJSON_GetArraySize : J → nat;
  cJSON_GetArrayItem : J → nat → option J;
  str_of : J → option string;
  num_of : J → option f64;
  int_of : J → Z;
  bool_of : J → option bool;
  cJSON_IsNull : J → bool;
  cJSON_PrintUnformatted : jval → string
}.

(** [cJSON_GetObjectItem] with a check of the item's type. *)
Definition get_str `{CJson J} (j : J) (k : string) : option string :=
  cJSON_GetObjectItem j k ≫= str_of.
Definition get_num `{CJson J} (j : J) (k : string) : option f64 :=
  cJSON_GetObjectItem j k ≫= num_of.
Definition get_arr `{CJson J} (j : J) (k : string) : option J :=
  a ← cJSON_GetObjectItem j k; if cJSON_IsArray a then Some a else None.

(** [x->valuedouble], which is zero for an item that is no number. *)
Definition valuedouble `{CJson J} (j : J) : f64 := default f64_zero (num_of j).

(** The items of an array, in order. *)
Definition items `{CJson J} (j : J) : list J :=
  omap (cJSON_GetArrayItem j) (seq 0 (cJSON_GetArraySize j)).

(** [cJSON_CreateNumber] on an integer. *)
Definition JInt (z : Z) : jval := JNum (f64_of_Z z).

(** * A concrete instance *)

Section tree.
Variable parse : string → option jval.

Definition tree_items (j : jval) : list jval :=
  match j with JArr l => l | JObj l => snd <$> l | _ => [] end.

#[local] Instance tree_json : CJson jval := {
  cJSON_Parse := parse;
  cJSON_GetObjectItem j k :=
    match j with
    | JObj l => snd <$> (find_slot (λ p, bool_decide (fst p = k)) l ≫= λ i, l !! i)
    | _ => None
    end;
  cJSON_IsArray j := match j with JArr _ => true | _ => false end;
  cJSON_IsObject j := match j with JObj _ => true | _ => false end;
  cJSON_GetArraySize j := length (tree_items j);
  cJSON_GetArrayItem j i := tree_items j !! i;
  str_of j := match j with JStr s => Some s | _ => None end;
  num_of j := match j with JNum x => Some x | _ => None end;
  int_of j := match j with JNum x => default 0 (f64_trunc x) | JBool true => 1 | _ => 0 end;
  bool_of j := match j with JBool b => Some b | _ => None end;
  cJSON_IsNull j := match j with JNull => true | _ => false end;
  cJSON_PrintUnformatted _ := ""%string
}.

(** With a printer. *)
Definition printed_json (print : jval → string) : CJson jval := {|
  cJSON_Parse := parse;
  cJSON_GetObjectItem := @cJSON_GetObjectItem _ tree_json;
  cJSON_IsArray := @cJSON_IsArray _ tree_json;
  cJSON_IsObject := @cJSON_IsObject _ tree_json;
  cJSON_GetArraySize := @cJSON_GetArraySize _ tree_json;
  cJSON_GetArrayItem := @cJSON_GetArrayItem _ tree_json;
  str_of := @str_of _ tree_json;
  num_of := @num_of _ tree_json;
  int_of := @int_of _ tree_json;
  bool_of := @bool_of _ tree_json;
  cJSON_IsNull := @cJSON_IsNull _ tree_json;
  cJSON_PrintUnformatted := print
|}.

Lemma items_tree l : items (JArr l) = l.
Proof.
  unfold items. cbn [cJSON_GetArraySize cJSON_GetArrayItem tree_json tree_items].
  assert (∀ a (l0 l1 : list jval), length l0 = a →
            omap (λ i, (l0 ++ l1) !! i) (seq a (length l1)) = l1) as Hgen.
  { intros a l0 l1. revert a l0. induction l1 as [|x l1 IH]; intros a l0 Ha; [done|].
    cbn [length seq omap list_omap]. rewrite (list_lookup_middle l0 l1 x a) by done. f_equal.
    specialize (IH (S a) (l0 ++ [x])). rewrite <- app_assoc in IH. apply IH.
    rewrite length_app, Ha. simpl. lia. }
  exact (Hgen 0%nat [] l eq_refl).
Qed.
End tree.

(** Look up the items of a built tree that a goal asks for. *)
Ltac json_items :=
  repeat match goal with
  | |- context [@cJSON_GetObjectItem ?K ?i ?t ?k] =>
      let r := eval hnf in (@cJSON_GetObjectItem K i t k) in
      change (@cJSON_GetObjectItem K i t k) with r
  end.
