(* ===== verification/Dns.v ===== *)
(** The captive DNS server (tollgate_core_dns.c): the table of authenticated
    clients, the parsing of a query, the hijack and NXDOMAIN replies and the
    treatment of one received datagram, with the server's start and stop.
    Sockets and tasks are not modelled: a datagram is the receive buffer with
    its length, the upstream resolver a function from request to reply. *)

From S2P Require Import Prelude CStr.

Definition MAX_AUTH_IPS : nat := 10.
Definition DNS_BUF_SIZE : nat := 512.
Definition DNS_HEADER_SIZE : nat := 12.
Definition DNS_ANSWER_SIZE : nat := 16.
Definition HIJACK_TTL : Z := 10.

(** * State *)

Record dns_state := mk_dns_state {
  s_auth_list : list Z;
  s_auth_count : nat;
  s_dns_running : bool;
  s_dns_ap_ip : Z;
  s_upstream_dns : Z
}.

Definition dns_boot : dns_state :=
  mk_dns_state (replicate MAX_AUTH_IPS 0) 0 false 0 0.

Definition dns_with_auth (s : dns_state) (l : list Z) (n : nat) : dns_state :=
  mk_dns_state l n (s_dns_running s) (s_dns_ap_ip s) (s_upstream_dns s).

(** The authenticated addresses, in table order. *)
Definition auth_ips (s : dns_state) : list Z := dense_keys id (s_auth_count s) (s_auth_list s).

(** The table is dense, within its capacity and without duplicates. *)
Definition dns_wf (s : dns_state) : Prop :=
  length (s_auth_list s) = MAX_AUTH_IPS ∧ (s_auth_count s ≤ MAX_AUTH_IPS)%nat ∧
  NoDup (auth_ips s).

(** * Operations *)

Definition is_authenticated (s : dns_state) (ip : Z) : bool :=
  bool_decide (is_Some (dense_find id ip (s_auth_count s) (s_auth_list s))).

Definition tollgate_core_dns_set_authenticated (ip : Z) (authenticated : bool)
    (s : dns_state) : dns_state :=
  if authenticated then
    if is_authenticated s ip then s
    else if (s_auth_count s <? MAX_AUTH_IPS)%nat then
      dns_with_auth s (<[s_auth_count s := ip]> (s_auth_list s)) (S (s_auth_count s))
    else s
  else
    match dense_find id ip (s_auth_count s) (s_auth_list s) with
    | Some i => dns_with_auth s (swap_remove i (s_auth_count s) (s_auth_list s))
                                (s_auth_count s - 1)
    | None => s
    end.

Definition tollgate_core_dns_start_internal (ap_ip upstream : Z) (s : dns_state)
  : esp_err_t * dns_state :=
  if s_dns_running s then (ESP_OK, s)
  else (ESP_OK, mk_dns_state (s_auth_list s) (s_auth_count s) true ap_ip upstream).

Definition tollgate_core_dns_stop (s : dns_state) : dns_state :=
  mk_dns_state (s_auth_list s) (s_auth_count s) false (s_dns_ap_ip s) (s_upstream_dns s).

Definition tollgate_core_dns_is_running (s : dns_state) : bool := s_dns_running s.

(** * Queries *)

(** Why the parsing of a name stopped: the end of the name, a read past the
    receive buffer, or the loop still running when the fuel is spent. *)
Inductive name_result :=
| NameOk (name : list Z)
| NameOob
| NameRunning.

Definition QNAME_SIZE : nat := 256.

(** The loop of [parse_dns_name]: [pos] is the read position, [out] the bytes
    written so far.  One unit of fuel is one turn of the outer loop. *)
Fixpoint parse_dns_name (fuel : nat) (buf : list Z) (buf_len pos : nat) (out : list Z)
  : name_result :=
  if negb ((pos <? buf_len)%nat && (length out <? QNAME_SIZE - 1)%nat) then NameOk out else
  match fuel with
  | O => NameRunning
  | S fuel' =>
      match buf !! pos with
      | None => NameOob
      | Some len =>
          if len =? 0 then NameOk out
          else if Z.land len 0xC0 =? 0xC0 then
            match buf !! S pos with
            | None => NameOob
            | Some low =>
                parse_dns_name fuel' buf buf_len
                  (Z.to_nat (Z.lor (Z.shiftl (Z.land len 0x3F) 8) low)) out
            end
          else
            let out1 := if (0 <? length out)%nat then out ++ [46] else out in
            let pos1 := S pos in
            let k := Nat.min (Z.to_nat len)
                       (Nat.min (buf_len - pos1) (QNAME_SIZE - 1 - length out1)) in
            parse_dns_name fuel' buf buf_len (pos1 + k) (out1 ++ slice pos1 k buf)
      end
  end.

(** [while (q_offset < n && rx_buf[q_offset] != 0) q_offset += rx_buf[q_offset] + 1] *)
Fixpoint skip_qname (fuel : nat) (rx : list Z) (n q_offset : nat) : nat :=
  match fuel with
  | O => q_offset
  | S fuel' =>
      if (q_offset <? n)%nat then
        match rx !! q_offset with
        | Some len => if len =? 0 then q_offset
                      else skip_qname fuel' rx n (q_offset + Z.to_nat len + 1)
        | None => q_offset
        end
      else q_offset
  end.

(** Overwrite the bytes of [buf] from [off] with [l]. *)
Definition set_bytes (off : nat) (l buf : list Z) : list Z :=
  take off buf ++ l ++ drop (off + length l) buf.

Definition rd (buf : list Z) (i : nat) : Z := default 0 (buf !! i).

Definition build_nxdomain (response : list Z) (req_len : nat) : list Z * nat :=
  (set_bytes 6 [0; 0; 0; 0; 0; 0] (set_bytes 2 [0x84; 0x03] response), req_len).

(** The answer record: a pointer to the question, type A, class IN, the time
    to live, four bytes of address. *)
Definition dns_answer (ap_ip : Z) : list Z :=
  [0xC0; 0x0C] ++ [0; 1] ++ [0; 1] ++ put_be 4 HIJACK_TTL ++ [0; 4] ++ put_le32 ap_ip.

(** [None]: the answer does not fit behind the question in the receive
    buffer, so that the [memcpy] writes past its end. *)
Definition build_redirect_response (ap_ip : Z) (response : list Z) (req_len : nat)
  : option (list Z * nat) :=
  let hdr := set_bytes 6 [0; 1; 0; 0; 0; 0] (set_bytes 2 [0x81; 0x80] response) in
  if (req_len + DNS_ANSWER_SIZE <=? length response)%nat then
    Some (set_bytes req_len (dns_answer ap_ip) hdr, (req_len + DNS_ANSWER_SIZE)%nat)
  else None.

Inductive dns_outcome :=
| DnsIgnored                        (* the datagram is dropped *)
| DnsSent (reply : list Z)          (* a reply goes back to the client *)
| DnsNoReply                        (* the upstream resolver gave nothing *)
| DnsOverflow                       (* write past the end of [rx_buf] *)
| DnsOob                            (* read past the end of [rx_buf] *)
| DnsRunning.                       (* the name parser has not returned *)

Definition forward_dns (upstream : list Z → option (list Z)) (req : list Z) (id : list Z)
  : option (list Z) :=
  match upstream req with
  | None => None
  | Some resp =>
      if (length resp =? 0)%nat then None
      else if (DNS_HEADER_SIZE <=? length resp)%nat then Some (set_bytes 0 id resp)
      else Some resp
  end.

(** Copy the reply to [tx_buf] and restore the transaction identifier. *)
Definition finish_reply (id : list Z) (r : list Z * nat) : dns_outcome :=
  DnsSent (set_bytes 0 id (take (snd r) (fst r))).

(** One turn of the loop of [dns_server_task]: [rx] is the whole receive
    buffer and [n] the length of the datagram. *)
Definition dns_handle_datagram (fuel : nat) (upstream : list Z → option (list Z))
    (s : dns_state) (client_ip : Z) (rx : list Z) (n : nat) : dns_outcome :=
  if (n <? DNS_HEADER_SIZE)%nat then DnsIgnored else
  let id := slice 0 2 rx in
  let is_query := Z.land (get_be (slice 2 2 rx)) 0x8000 =? 0 in
  let qdcount := get_be (slice 4 2 rx) in
  if negb is_query || (qdcount =? 0) then DnsIgnored else
  let q_offset := skip_qname n rx n DNS_HEADER_SIZE in
  if (n <? q_offset + 5)%nat then DnsIgnored else
  let qtype := Z.lor (Z.shiftl (rd rx (q_offset + 1)) 8) (rd rx (q_offset + 2)) in
  let req_len := (q_offset + 5)%nat in
  if is_authenticated s client_ip then
    match forward_dns upstream (take req_len rx) id with
    | Some resp => DnsSent resp
    | None => DnsNoReply
    end
  else
    match parse_dns_name fuel rx n DNS_HEADER_SIZE [] with
    | NameRunning => DnsRunning
    | NameOob => DnsOob
    | NameOk _ =>
        if qtype =? 1 then
          match build_redirect_response (s_dns_ap_ip s) rx req_len with
          | Some r => finish_reply id r
          | None => DnsOverflow
          end
        else finish_reply id (build_nxdomain rx req_len)
    end.

#[global] Arguments tollgate_core_dns_set_authenticated : simpl never.
#[global] Arguments is_authenticated : simpl never.

(** * The table of authenticated clients *)

Lemma is_authenticated_spec s ip : is_authenticated s ip = true ↔ ip ∈ auth_ips s.
Proof. unfold is_authenticated. rewrite bool_decide_eq_true. apply dense_find_elem. Qed.

Lemma is_authenticated_false s ip : is_authenticated s ip = false ↔ ip ∉ auth_ips s.
Proof. rewrite <- is_authenticated_spec. by destruct (is_authenticated s ip). Qed.

Lemma auth_ips_length s : dns_wf s → length (auth_ips s) = s_auth_count s.
Proof. intros (Hl & Hc & _). apply dense_keys_length. lia. Qed.

Lemma set_authenticated_add s ip :
  dns_wf s → ip ∉ auth_ips s → (s_auth_count s < MAX_AUTH_IPS)%nat →
  auth_ips (tollgate_core_dns_set_authenticated ip true s) = auth_ips s ++ [ip].
Proof.
  intros (Hl & Hc & Hnd) Hin Hlt. unfold tollgate_core_dns_set_authenticated.
  rewrite (proj2 (is_authenticated_false s ip)) by done.
  rewrite (proj2 (Nat.ltb_lt _ _)) by done.
  unfold auth_ips. cbn. by rewrite dense_keys_add by lia.
Qed.

Lemma set_authenticated_same s ip :
  ip ∈ auth_ips s ∨ (MAX_AUTH_IPS ≤ s_auth_count s)%nat →
  tollgate_core_dns_set_authenticated ip true s = s.
Proof.
  intros H. unfold tollgate_core_dns_set_authenticated.
  destruct (is_authenticated s ip) eqn:Ha; [done|].
  apply is_authenticated_false in Ha. destruct H as [H|H]; [done|].
  by rewrite (proj2 (Nat.ltb_ge _ _)).
Qed.

Lemma set_authenticated_remove s ip :
  dns_wf s → ip ∈ auth_ips s →
  auth_ips s ≡ₚ ip :: auth_ips (tollgate_core_dns_set_authenticated ip false s).
Proof.
  intros (Hl & Hc & Hnd) Hin. unfold tollgate_core_dns_set_authenticated.
  apply dense_find_elem in Hin as [i Hi]. rewrite Hi.
  apply dense_find_Some in Hi as (x & Hlt & Hx & Hk). cbn in Hk. subst x.
  unfold auth_ips. cbn. apply (dense_keys_remove id _ _ i ip); [done|lia|done].
Qed.

Lemma set_authenticated_absent s ip :
  ip ∉ auth_ips s → tollgate_core_dns_set_authenticated ip false s = s.
Proof.
  intros Hin. unfold tollgate_core_dns_set_authenticated.
  by rewrite (proj2 (dense_find_None id ip _ _)).
Qed.

Lemma dns_wf_boot : dns_wf dns_boot.
Proof. repeat split; cbn; [lia|constructor]. Qed.

Lemma set_authenticated_wf s ip b :
  dns_wf s → dns_wf (tollgate_core_dns_set_authenticated ip b s).
Proof.
  intros Hwf. destruct (decide (ip ∈ auth_ips s)) as [Hin|Hin], b.
  - rewrite set_authenticated_same; auto.
  - pose proof (set_authenticated_remove s ip Hwf Hin) as Hp.
    destruct Hwf as (Hl & Hc & Hnd). rewrite Hp in Hnd.
    apply NoDup_cons in Hnd as [_ Hnd]. repeat split; [| |done].
    + unfold tollgate_core_dns_set_authenticated. case_match; cbn; by simpl_len.
    + unfold tollgate_core_dns_set_authenticated. case_match; cbn; lia.
  - destruct (decide (s_auth_count s < MAX_AUTH_IPS)%nat) as [Hlt|].
    + pose proof (set_authenticated_add s ip Hwf Hin Hlt) as Heq.
      destruct Hwf as (Hl & Hc & Hnd). repeat split.
      * unfold tollgate_core_dns_set_authenticated. repeat case_if; cbn; by simpl_len.
      * unfold tollgate_core_dns_set_authenticated. repeat case_if; cbn; bool_hyps; lia.
      * rewrite Heq. apply NoDup_app. split_and!; [done| |apply NoDup_singleton].
        intros x Hx Hx'%list_elem_of_singleton. by subst.
    + rewrite set_authenticated_same by (right; lia). done.
  - by rewrite set_authenticated_absent.
Qed.
#[export] Hint Resolve dns_wf_boot set_authenticated_wf : tg_db.

(** * The query parser *)

Lemma skip_qname_stops fuel rx n q :
  (n - q ≤ fuel)%nat → (n ≤ length rx)%nat →
  let q' := skip_qname fuel rx n q in
  (q ≤ q')%nat ∧ ((n ≤ q')%nat ∨ rx !! q' = Some 0).
Proof.
  revert q. induction fuel as [|fuel IH]; intros q Hf Hn; simpl; [split; [lia|left; lia]|].
  destruct (q <? n)%nat eqn:Hq; bool_hyps; [|split; [lia|left; lia]].
  destruct (lookup_lt_is_Some_2 rx q) as [len Hlen]; [lia|]. rewrite Hlen.
  destruct (len =? 0) eqn:Hz; bool_hyps.
  - subst. split; [lia|by right].
  - destruct (IH (q + Z.to_nat len + 1)%nat) as [H1 H2]; [lia|lia|].
    split; [lia|done].
Qed.

(** A name without compression pointers is parsed within [buf_len] turns of
    the loop. *)
Lemma parse_dns_name_no_pointer fuel buf buf_len pos out :
  (buf_len - pos ≤ fuel)%nat → (buf_len ≤ length buf)%nat →
  (∀ i b, (pos ≤ i)%nat → buf !! i = Some b → Z.land b 0xC0 ≠ 0xC0) →
  ∃ name, parse_dns_name fuel buf buf_len pos out = NameOk name.
Proof.
  revert pos out. induction fuel as [|fuel IH]; intros pos out Hf Hl Hnp.
  - cbn [parse_dns_name]. rewrite (proj2 (Nat.ltb_ge pos buf_len)) by lia.
    by eexists.
  - cbn [parse_dns_name]. destruct (_ && _)%bool eqn:Hc; cbn [negb]; [|by eexists].
    bool_hyps. destruct (lookup_lt_is_Some_2 buf pos) as [len Hlen]; [lia|]. rewrite Hlen.
    destruct (len =? 0); [by eexists|].
    rewrite (proj2 (Z.eqb_neq _ _)) by (by apply (Hnp pos)).
    apply IH; [lia|done|]. intros i b Hi. apply Hnp. lia.
Qed.

(** A pointer that leads to itself keeps the loop running for any fuel. *)
Lemma parse_dns_name_self_pointer fuel buf buf_len pos hi lo out :
  (pos < buf_len)%nat → (length out < QNAME_SIZE - 1)%nat →
  buf !! pos = Some hi → buf !! S pos = Some lo →
  Z.land hi 0xC0 = 0xC0 →
  Z.to_nat (Z.lor (Z.shiftl (Z.land hi 0x3F) 8) lo) = pos →
  parse_dns_name fuel buf buf_len pos out = NameRunning.
Proof.
  intros Hp Ho Hhi Hlo Hc Hself. induction fuel as [|fuel IH]; cbn [parse_dns_name];
    rewrite (proj2 (Nat.ltb_lt _ _) Hp), (proj2 (Nat.ltb_lt _ _) Ho); [done|].
  cbn [andb negb]. rewrite Hhi, Hlo.
  destruct (hi =? 0) eqn:Hz; bool_hyps; [subst; discriminate Hc|].
  by rewrite (proj2 (Z.eqb_eq _ _) Hc), Hself.
Qed.

(** * Replies *)

Lemma length_set_bytes off l buf :
  (off + length l ≤ length buf)%nat → length (set_bytes off l buf) = length buf.
Proof. intros. unfold set_bytes. simpl_len. lia. Qed.

Lemma lookup_set_bytes_out off l buf i :
  (off + length l ≤ length buf)%nat → (i < off ∨ off + length l ≤ i)%nat →
  set_bytes off l buf !! i = buf !! i.
Proof.
  intros Hl Hi. unfold set_bytes. destruct Hi as [Hi|Hi].
  - rewrite lookup_app_l by (simpl_len; lia). by rewrite lookup_take_lt.
  - rewrite lookup_app_r by (simpl_len; lia). rewrite lookup_app_r by (simpl_len; lia).
    rewrite lookup_drop. f_equal. simpl_len. lia.
Qed.

Lemma lookup_set_bytes_in off l buf i :
  (off + length l ≤ length buf)%nat → (off ≤ i < off + length l)%nat →
  set_bytes off l buf !! i = l !! (i - off)%nat.
Proof.
  intros Hl Hi. unfold set_bytes. rewrite lookup_app_r by (simpl_len; lia).
  simpl_len. rewrite lookup_app_l by lia. f_equal. lia.
Qed.

Lemma slice_lookup off n (l : list Z) i :
  (i < n)%nat → slice off n l !! i = l !! (off + i)%nat.
Proof. intros. unfold slice. rewrite lookup_take_lt by done. apply lookup_drop. Qed.

Lemma slice_eq off n (l r : list Z) :
  length r = n → (∀ i, (i < n)%nat → l !! (off + i)%nat = r !! i) → slice off n l = r.
Proof.
  intros Hr H. apply list_eq. intros i. destruct (decide (i < n)%nat) as [Hi|Hi].
  - by rewrite slice_lookup, H.
  - unfold slice. rewrite lookup_take_ge by lia. symmetry. apply lookup_ge_None. lia.
Qed.

(** Equal buffers have equal slices. *)
Lemma slice_ext off n (l r : list Z) :
  (∀ i, (off ≤ i < off + n)%nat → l !! i = r !! i) → slice off n l = slice off n r.
Proof.
  intros H. apply list_eq. intros i. destruct (decide (i < n)%nat) as [Hi|Hi].
  - rewrite !slice_lookup by done. apply H. lia.
  - unfold slice. by rewrite !lookup_take_ge by lia.
Qed.

Lemma slice_set_bytes_out off l buf o n :
  (off + length l ≤ length buf)%nat → (o + n ≤ off ∨ off + length l ≤ o)%nat →
  slice o n (set_bytes off l buf) = slice o n buf.
Proof.
  intros Hl Hd. apply slice_ext. intros i Hi. apply lookup_set_bytes_out; [done|lia].
Qed.

Lemma slice_set_bytes_in off l buf o n :
  (off + length l ≤ length buf)%nat → (off ≤ o)%nat → (o + n ≤ off + length l)%nat →
  slice o n (set_bytes off l buf) = slice (o - off) n l.
Proof.
  intros Hl H1 H2. apply list_eq. intros i. destruct (decide (i < n)%nat) as [Hi|Hi].
  - rewrite !slice_lookup by done. rewrite lookup_set_bytes_in by lia. f_equal. lia.
  - unfold slice. by rewrite !lookup_take_ge by lia.
Qed.

Lemma slice_take o n k (l : list Z) : (o + n ≤ k)%nat → slice o n (take k l) = slice o n l.
Proof. intros. apply slice_ext. intros i Hi. by rewrite lookup_take_lt by lia. Qed.

Lemma slice_all n (l : list Z) : length l = n → slice 0 n l = l.
Proof. intros <-. unfold slice. rewrite drop_0. by apply take_ge. Qed.

(** * Properties of the query handler *)

(** What the server requires of a datagram before it answers: a full header,
    the query bit, at least one question, and the first question complete. *)
Definition question_end (rx : list Z) (n : nat) : nat :=
  (skip_qname n rx n DNS_HEADER_SIZE + 5)%nat.

Definition accepted_query (rx : list Z) (n : nat) : bool :=
  (DNS_HEADER_SIZE <=? n)%nat && (Z.land (get_be (slice 2 2 rx)) 0x8000 =? 0) &&
  negb (get_be (slice 4 2 rx) =? 0) && (question_end rx n <=? n)%nat.

Definition question_type (rx : list Z) (n : nat) : Z :=
  Z.lor (Z.shiftl (rd rx (question_end rx n - 4)) 8) (rd rx (question_end rx n - 3)).

Lemma dns_handle_unauthenticated fuel up s ip rx n :
  accepted_query rx n = true → is_authenticated s ip = false →
  dns_handle_datagram fuel up s ip rx n =
    match parse_dns_name fuel rx n DNS_HEADER_SIZE [] with
    | NameRunning => DnsRunning
    | NameOob => DnsOob
    | NameOk _ =>
        if question_type rx n =? 1 then
          match build_redirect_response (s_dns_ap_ip s) rx (question_end rx n) with
          | Some r => finish_reply (slice 0 2 rx) r
          | None => DnsOverflow
          end
        else finish_reply (slice 0 2 rx) (build_nxdomain rx (question_end rx n))
    end.
Proof.
  unfold accepted_query, question_type, question_end. intros Hacc Hauth. bool_hyps.
  unfold dns_handle_datagram.
  rewrite (proj2 (Nat.ltb_ge _ _)) by done.
  rewrite (proj2 (Z.eqb_eq _ _)) by done. cbn [negb orb].
  rewrite (proj2 (Z.eqb_neq _ _)) by done.
  rewrite (proj2 (Nat.ltb_ge n _)) by done. rewrite Hauth.
  replace (skip_qname n rx n DNS_HEADER_SIZE + 5 - 4)%nat
    with (skip_qname n rx n DNS_HEADER_SIZE + 1)%nat by lia.
  replace (skip_qname n rx n DNS_HEADER_SIZE + 5 - 3)%nat
    with (skip_qname n rx n DNS_HEADER_SIZE + 2)%nat by lia. done.
Qed.

Lemma accepted_query_bounds rx n :
  length rx = DNS_BUF_SIZE → (n ≤ DNS_BUF_SIZE)%nat → accepted_query rx n = true →
  (17 ≤ question_end rx n ≤ n)%nat.
Proof.
  unfold accepted_query, question_end. intros Hl Hn H. bool_hyps.
  destruct (skip_qname_stops n rx n DNS_HEADER_SIZE) as [Hge _]; [lia|lia|].
  unfold DNS_HEADER_SIZE in *. lia.
Qed.

(** A hijack reply to the query [rx]: same transaction and question, response
    flags without error, one answer that maps the name to [ap_ip]. *)
Definition is_hijack_reply (ap_ip : Z) (rx : list Z) (req_len : nat) (reply : list Z) : Prop :=
  length reply = (req_len + DNS_ANSWER_SIZE)%nat ∧
  slice 0 2 reply = slice 0 2 rx ∧ slice 2 2 reply = [0x81; 0x80] ∧
  slice 4 2 reply = slice 4 2 rx ∧ slice 6 6 reply = [0; 1; 0; 0; 0; 0] ∧
  slice DNS_HEADER_SIZE (req_len - DNS_HEADER_SIZE) reply =
    slice DNS_HEADER_SIZE (req_len - DNS_HEADER_SIZE) rx ∧
  slice req_len DNS_ANSWER_SIZE reply = dns_answer ap_ip.

Lemma length_slice off n (l : list Z) : (off + n ≤ length l)%nat → length (slice off n l) = n.
Proof. intros. unfold slice. simpl_len. lia. Qed.

Lemma build_redirect_reply ap_ip rx req_len :
  (17 ≤ req_len)%nat → (req_len + DNS_ANSWER_SIZE ≤ length rx)%nat →
  ∃ r, build_redirect_response ap_ip rx req_len = Some r ∧
       is_hijack_reply ap_ip rx req_len (set_bytes 0 (slice 0 2 rx) (take (snd r) (fst r))).
Proof.
  unfold DNS_ANSWER_SIZE. intros Hr Hl. unfold build_redirect_response, DNS_ANSWER_SIZE.
  rewrite (proj2 (Nat.leb_le _ _)) by done.
  eexists. split; [done|]. cbn [fst snd].
  set (a := dns_answer ap_ip). assert (length a = 16)%nat as Ha by done.
  set (h := set_bytes 6 _ _).
  assert (length (set_bytes 2 [0x81; 0x80] rx) = length rx) as Hl1
    by (apply length_set_bytes; simpl; lia).
  assert (length h = length rx) as Hh
    by (unfold h; rewrite length_set_bytes; [done|simpl; lia]).
  assert (length (set_bytes req_len a h) = length rx) as Hs
    by (rewrite length_set_bytes; [done|lia]).
  set (t := take (req_len + 16) (set_bytes req_len a h)).
  assert (length t = (req_len + 16)%nat) as Ht by (unfold t; simpl_len; lia).
  assert (length (slice 0 2 rx) = 2%nat) as Hid by (apply length_slice; lia).
  unfold is_hijack_reply, DNS_HEADER_SIZE, DNS_ANSWER_SIZE.
  assert (∀ o k, (2 ≤ o)%nat → (o + k ≤ req_len)%nat →
    slice o k (set_bytes 0 (slice 0 2 rx) t) = slice o k h) as Hhdr.
  { intros. rewrite slice_set_bytes_out by lia. unfold t. rewrite slice_take by lia.
    by rewrite slice_set_bytes_out by lia. }
  split_and!.
  - rewrite length_set_bytes; [done|lia].
  - rewrite slice_set_bytes_in by lia. by apply slice_all.
  - rewrite Hhdr by lia. unfold h. rewrite slice_set_bytes_out by (simpl length; lia).
    by rewrite slice_set_bytes_in by (simpl length; lia).
  - rewrite Hhdr by lia. unfold h. by rewrite !slice_set_bytes_out by (simpl length; lia).
  - rewrite Hhdr by lia. unfold h. by rewrite slice_set_bytes_in by (simpl length; lia).
  - rewrite Hhdr by lia. unfold h. by rewrite !slice_set_bytes_out by (simpl length; lia).
  - rewrite slice_set_bytes_out by lia. unfold t.
    assert (slice req_len 16 (take (req_len + 16) (set_bytes req_len a h)) =
            slice req_len 16 (set_bytes req_len a h)) as -> by (apply slice_take; lia).
    rewrite slice_set_bytes_in by lia. rewrite Nat.sub_diag. by apply slice_all.
Qed.

(** C14: an address query of a client that has not paid, whose name the parser
    gets through, is answered with the access point's own address, under the
    query's transaction identifier and with its question; when question and
    answer do not fit in the 512-byte receive buffer the server writes past it. *)
Theorem hijack_answers_with_ap fuel up s ip rx n name :
  length rx = DNS_BUF_SIZE → (n ≤ DNS_BUF_SIZE)%nat →
  accepted_query rx n = true → question_type rx n = 1 → ip ∉ auth_ips s →
  parse_dns_name fuel rx n DNS_HEADER_SIZE [] = NameOk name →
  if (question_end rx n + DNS_ANSWER_SIZE <=? DNS_BUF_SIZE)%nat
  then ∃ reply, dns_handle_datagram fuel up s ip rx n = DnsSent reply ∧
                is_hijack_reply (s_dns_ap_ip s) rx (question_end rx n) reply
  else dns_handle_datagram fuel up s ip rx n = DnsOverflow.
Proof.
  intros Hl Hn Hacc Hq Hauth Hp.
  destruct (accepted_query_bounds rx n Hl Hn Hacc) as [Hlo _].
  apply is_authenticated_false in Hauth.
  rewrite (dns_handle_unauthenticated fuel up s ip rx n Hacc Hauth), Hp, Hq. cbn [Z.eqb Pos.eqb].
  destruct (_ <=? _)%nat eqn:Hfit; bool_hyps.
  - destruct (build_redirect_reply (s_dns_ap_ip s) rx _ Hlo) as (r & -> & Hr); [lia|].
    eexists. split; [reflexivity|done].
  - unfold build_redirect_response. by rewrite (proj2 (Nat.leb_gt _ _)) by lia.
Qed.


(** A datagram of 210 bytes: a query header, a pointer to itself at offset 12,
    and zeros up to the end of the question the server looks for. *)
Definition pointer_loop_query : list Z :=
  [0; 1; 1; 0; 0; 1; 0; 0; 0; 0; 0; 0; 0xC0; 0x0C] ++ replicate 498 0.

(** A client that has not paid can keep the DNS task in the name parser
    for ever with one datagram whose name points to itself. *)
Theorem dns_pointer_loop_hangs fuel up s ip :
  ip ∉ auth_ips s →
  dns_handle_datagram fuel up s ip pointer_loop_query 210 = DnsRunning.
Proof.
  intros Hauth%is_authenticated_false.
  rewrite dns_handle_unauthenticated by (vm_compute; done).
  rewrite (parse_dns_name_self_pointer _ _ _ _ 0xC0 0x0C []); try done.
  - unfold DNS_HEADER_SIZE. lia.
  - unfold QNAME_SIZE. simpl. lia.
Qed.

(** * Concrete datagrams *)

Definition query_header : list Z := [0xAB; 0x3D; 1; 0; 0; 1; 0; 0; 0; 0; 0; 0].

(** An A query for [a.io]. *)
Definition query_a_io : list Z :=
  query_header ++ [1; 97; 2; 105; 111; 0; 0; 1; 0; 1] ++ replicate 490 0.

Lemma hijack_answers_with_ap_witness :
  if (question_end query_a_io 22 + DNS_ANSWER_SIZE <=? DNS_BUF_SIZE)%nat
  then ∃ reply, dns_handle_datagram 22 (λ _, None) dns_boot 7 query_a_io 22 = DnsSent reply ∧
                is_hijack_reply (s_dns_ap_ip dns_boot) query_a_io
                  (question_end query_a_io 22) reply
  else dns_handle_datagram 22 (λ _, None) dns_boot 7 query_a_io 22 = DnsOverflow.
Proof.
  apply (hijack_answers_with_ap 22 (λ _, None) dns_boot 7 query_a_io 22 [97; 46; 105; 111]).
  - reflexivity.
  - unfold DNS_BUF_SIZE. lia.
  - vm_compute. reflexivity.
  - vm_compute. reflexivity.
  - apply is_authenticated_false. vm_compute. reflexivity.
  - vm_compute. reflexivity.
Defined.


Lemma dns_pointer_loop_hangs_witness :
  dns_handle_datagram 1000 (λ _, None) dns_boot 7 pointer_loop_query 210 = DnsRunning.
Proof.
  apply dns_pointer_loop_hangs. apply is_authenticated_false. vm_compute. reflexivity.
Defined.
