(* ===== verification/Firewall.v ===== *)
(** The per-client firewall (tollgate_core_firewall.c): the table of granted
    clients, the lookup of a client's MAC address, grant and revoke with their
    effect on the DNS server's table, and the forwarding filter on the bytes
    of an IP packet.  The Wi-Fi driver's station list and lwIP's ARP table are
    parameters. *)

From S2P Require Import Prelude CStr Dns.

Definition MAX_CLIENTS : nat := 10.
Definition IP_HLEN : nat := 20.
Definition TCP_HLEN : nat := 20.
Definition IP_PROTO_TCP : Z := 6.
Definition IP_PROTO_UDP : Z := 17.

(** * MAC addresses *)

(** [%02x:%02x:%02x:%02x:%02x:%02x] *)
Fixpoint mac_string (m : list Z) : string :=
  match m with
  | [] => EmptyString
  | [b] => hex2 b
  | b :: m' => (hex2 b +:+ ":" +:+ mac_string m')%string
  end.

Section mac_lookup.
(** The stations the Wi-Fi driver reports with their addresses ([None]: one
    of its two calls failed), and lwIP's [etharp_get_entry]: its return
    value and the address and MAC it stored, if it stored them. *)
Variable sta_list : option (list (Z * list Z)).
Variable etharp_get_entry : nat → Z * option (Z * list Z).

Inductive mac_result := MacOk (mac : string) | MacFail | MacRunning.

Definition ERR_OK : Z := 0.

(** [entry]: what the last successful call left in the out parameters. *)
Fixpoint arp_loop (fuel i : nat) (client_ip : Z) (entry : option (Z * list Z)) : mac_result :=
  let '(r, e) := etharp_get_entry i in
  let entry := match e with Some _ => e | None => entry end in
  if negb (r =? ERR_OK) then MacFail else
  match entry with
  | Some (ip, mac) =>
      if ip =? client_ip then MacOk (mac_string mac)
      else match fuel with
           | O => MacRunning
           | S fuel' => arp_loop fuel' (S i) client_ip entry
           end
  | None => match fuel with
            | O => MacRunning
            | S fuel' => arp_loop fuel' (S i) client_ip entry
            end
  end.

Definition tollgate_core_fw_get_mac_for_ip (fuel : nat) (client_ip : Z) : mac_result :=
  let from_wifi :=
    match sta_list with
    | Some l => (snd <$> (find_slot (λ e, fst e =? client_ip) l ≫= λ i, l !! i))
    | None => None
    end in
  match from_wifi with
  | Some mac => MacOk (mac_string mac)
  | None => arp_loop fuel 0 client_ip None
  end.

(** The documented result of [etharp_get_entry]: 1 with the entry of a
    stable slot, 0 without touching the out parameters otherwise. *)
Definition lwip_etharp_contract : Prop :=
  ∀ i, match etharp_get_entry i with
       | (r, Some _) => r = 1
       | (r, None) => r = 0
       end.

Lemma arp_loop_never_finds fuel i ip :
  lwip_etharp_contract →
  arp_loop fuel i ip None = MacFail ∨ arp_loop fuel i ip None = MacRunning.
Proof.
  intros Hc. revert i. induction fuel as [|fuel IH]; intros i; cbn [arp_loop];
    specialize (Hc i); destruct (etharp_get_entry i) as [r [e|]]; subst r; cbn; auto.
Qed.

Lemma arp_loop_empty fuel i ip :
  lwip_etharp_contract → (∀ j, snd (etharp_get_entry j) = None) →
  arp_loop fuel i ip None = MacRunning.
Proof.
  intros Hc He. revert i. induction fuel as [|fuel IH]; intros i; cbn [arp_loop];
    specialize (Hc i); specialize (He i);
    destruct (etharp_get_entry i) as [r [e|]]; try done; subst r; cbn; auto.
Qed.

(** The station list answers for a client it holds, whatever the ARP table. *)
Lemma get_mac_from_wifi fuel ip l i mac :
  sta_list = Some l → l !! i = Some (ip, mac) →
  (∀ j e, (j < i)%nat → l !! j = Some e → fst e ≠ ip) →
  tollgate_core_fw_get_mac_for_ip fuel ip = MacOk (mac_string mac).
Proof.
  intros Hl Hi Hmin. unfold tollgate_core_fw_get_mac_for_ip. rewrite Hl.
  destruct (find_slot_is_Some (λ e, fst e =? ip) l i _ Hi) as (j & Hj & Hle).
  { apply Z.eqb_refl. }
  rewrite Hj. destruct (find_slot_Some _ _ _ Hj) as ([ip' mac'] & Hjx & Hip & _).
  cbn in *. bool_hyps. subst ip'.
  destruct (decide (j = i)) as [->|Hne]; [rewrite Hi; done|].
  destruct (Hmin j (ip, mac')); [lia|done|done].
Qed.
End mac_lookup.

(** What the rest of the program relies on: the outcome of the lookup for
    each address, [None] for ESP_FAIL. *)
Class MacLookup := mac_for_ip : Z → option string.

(** * State *)

Record fw_client_t := mk_fw_client { fc_ip : Z; fc_mac : string }.

Record fw_state := mk_fw_state {
  s_ap_ip : Z;
  s_mining_port : Z;
  s_clients : list fw_client_t;
  s_client_count : nat;
  fw_dns : dns_state
}.

Definition fw_boot : fw_state :=
  mk_fw_state 0 3333 (replicate MAX_CLIENTS (mk_fw_client 0 "")) 0 dns_boot.

Definition fw_with (s : fw_state) (l : list fw_client_t) (n : nat) (d : dns_state) : fw_state :=
  mk_fw_state (s_ap_ip s) (s_mining_port s) l n d.

(** The addresses that have access, in table order. *)
Definition fw_ips (s : fw_state) : list Z := dense_keys fc_ip (s_client_count s) (s_clients s).

(** Both tables are well formed and hold the same addresses. *)
Definition fw_wf (s : fw_state) : Prop :=
  length (s_clients s) = MAX_CLIENTS ∧ (s_client_count s ≤ MAX_CLIENTS)%nat ∧
  NoDup (fw_ips s) ∧ dns_wf (fw_dns s) ∧ fw_ips s ≡ₚ auth_ips (fw_dns s).

(** * Operations *)

Definition tollgate_core_fw_init (ap_ip : Z) (s : fw_state) : esp_err_t * fw_state :=
  (ESP_OK, mk_fw_state ap_ip (s_mining_port s)
             (replicate MAX_CLIENTS (mk_fw_client 0 "")) 0 (fw_dns s)).

Definition tollgate_core_fw_set_sandbox_ports (mining_port : Z) (s : fw_state) : fw_state :=
  mk_fw_state (s_ap_ip s) mining_port (s_clients s) (s_client_count s) (fw_dns s).

Definition find_client_by_ip (client_ip : Z) (s : fw_state) : option nat :=
  dense_find fc_ip client_ip (s_client_count s) (s_clients s).

Definition find_client_by_mac (mac : string) (s : fw_state) : option nat :=
  find_slot (λ c, negb (str_empty (fc_mac c)) && bool_decide (fc_mac c = mac))
            (take (s_client_count s) (s_clients s)).

Definition tollgate_core_fw_grant `{MacLookup} (client_ip : Z) (s : fw_state) : fw_state :=
  match find_client_by_ip client_ip s with
  | Some _ => s
  | None =>
      if (MAX_CLIENTS <=? s_client_count s)%nat then s
      else
        let client := mk_fw_client client_ip (default ""%string (mac_for_ip client_ip)) in
        fw_with s (<[s_client_count s := client]> (s_clients s)) (S (s_client_count s))
          (tollgate_core_dns_set_authenticated client_ip true (fw_dns s))
  end.

Definition tollgate_core_fw_revoke (client_ip : Z) (s : fw_state) : fw_state :=
  match find_client_by_ip client_ip s with
  | Some i =>
      fw_with s (swap_remove i (s_client_count s) (s_clients s)) (s_client_count s - 1)
        (tollgate_core_dns_set_authenticated client_ip false (fw_dns s))
  | None => s
  end.

Definition tollgate_core_fw_revoke_all (s : fw_state) : fw_state :=
  fw_with s (s_clients s) 0
    (foldl (λ d ip, tollgate_core_dns_set_authenticated ip false d) (fw_dns s) (fw_ips s)).

Definition tollgate_core_fw_is_allowed (client_ip : Z) (s : fw_state) : bool :=
  bool_decide (is_Some (find_client_by_ip client_ip s)).

Definition tollgate_core_fw_is_mac_allowed (mac : string) (s : fw_state) : bool :=
  bool_decide (is_Some (find_client_by_mac mac s)).

Definition tollgate_core_fw_client_count (s : fw_state) : nat := s_client_count s.

(** * The forwarding filter *)

(** [lwip_ntohl] on a 32-bit word of the little-endian target. *)
Definition lwip_ntohl (w : Z) : Z := get_be (put_le32 w).

(** The word in memory at [off]: [iphdr->src.addr] and the like. *)
Definition ld32 (p : list Z) (off : nat) : Z := get_be (rev (slice off 4 p)).

Definition is_sandbox_allowed (s : fw_state) (p : list Z) : bool :=
  if (length p <? IP_HLEN)%nat then false else
  let dest_ip_h := lwip_ntohl (ld32 p 16) in
  let ap_ip_h := lwip_ntohl (s_ap_ip s) in
  let proto := rd p 9 in
  if dest_ip_h =? ap_ip_h then
    let dst_port :=
      if (IP_HLEN + TCP_HLEN <=? length p)%nat then get_be (slice (IP_HLEN + 2) 2 p) else 0 in
    ((proto =? IP_PROTO_TCP) &&
     ((dst_port =? 80) || (dst_port =? 2121) || (dst_port =? 4869)
      || (dst_port =? s_mining_port s)))
    || (proto =? IP_PROTO_UDP) || (proto =? 1)
  else false.

(** 1: forward, 0: drop, -1: let lwIP decide. *)
Definition tollgate_core_ip4_canforward_filter (s : fw_state) (p : list Z) : Z :=
  if (length p <? IP_HLEN)%nat then -1 else
  let src_ip_h := lwip_ntohl (ld32 p 12) in
  let ap_subnet := Z.land (lwip_ntohl (s_ap_ip s)) 0xFFFFFF00 in
  if negb (Z.land src_ip_h 0xFFFFFF00 =? ap_subnet) then 1
  else if tollgate_core_fw_is_allowed (ld32 p 12) s then 1
  else if is_sandbox_allowed s p then 1
  else 0.

#[global] Arguments tollgate_core_fw_grant : simpl never.
#[global] Arguments tollgate_core_fw_revoke : simpl never.
#[global] Arguments tollgate_core_fw_revoke_all : simpl never.
#[global] Arguments tollgate_core_fw_is_allowed : simpl never.

(** * The tables *)

Lemma fw_is_allowed_spec s ip : tollgate_core_fw_is_allowed ip s = true ↔ ip ∈ fw_ips s.
Proof. unfold tollgate_core_fw_is_allowed. rewrite bool_decide_eq_true. apply dense_find_elem. Qed.

Lemma fw_is_allowed_false s ip : tollgate_core_fw_is_allowed ip s = false ↔ ip ∉ fw_ips s.
Proof. rewrite <- fw_is_allowed_spec. by destruct (tollgate_core_fw_is_allowed ip s). Qed.

Lemma fw_ips_length s : fw_wf s → length (fw_ips s) = s_client_count s.
Proof. intros (Hl & Hc & _). apply dense_keys_length. lia. Qed.

Lemma fw_find_None s ip : ip ∉ fw_ips s → find_client_by_ip ip s = None.
Proof. apply dense_find_None. Qed.

Section grant.
Context `{MacLookup}.

Lemma fw_grant_known s ip : ip ∈ fw_ips s → tollgate_core_fw_grant ip s = s.
Proof.
  intros [i Hi]%dense_find_elem. unfold tollgate_core_fw_grant, find_client_by_ip. by rewrite Hi.
Qed.

Lemma fw_grant_full s ip :
  ip ∉ fw_ips s → s_client_count s = MAX_CLIENTS → tollgate_core_fw_grant ip s = s.
Proof.
  intros Hin Hc. unfold tollgate_core_fw_grant. rewrite fw_find_None, Hc by done. done.
Qed.

Lemma fw_grant_new s ip :
  ip ∉ fw_ips s → (s_client_count s < MAX_CLIENTS)%nat →
  tollgate_core_fw_grant ip s =
    fw_with s (<[s_client_count s := mk_fw_client ip (default ""%string (mac_for_ip ip))]>
               (s_clients s)) (S (s_client_count s))
      (tollgate_core_dns_set_authenticated ip true (fw_dns s)).
Proof.
  intros Hin Hc. unfold tollgate_core_fw_grant. rewrite fw_find_None by done.
  by rewrite (proj2 (Nat.leb_gt _ _)).
Qed.

Lemma fw_grant_new_ips s ip :
  fw_wf s → ip ∉ fw_ips s → (s_client_count s < MAX_CLIENTS)%nat →
  fw_ips (tollgate_core_fw_grant ip s) = fw_ips s ++ [ip].
Proof.
  intros Hwf Hin Hc. rewrite fw_grant_new by done. destruct Hwf as (Hl & _).
  unfold fw_ips. simpl. by rewrite dense_keys_add by lia.
Qed.

Lemma fw_grant_wf s ip : fw_wf s → fw_wf (tollgate_core_fw_grant ip s).
Proof.
  intros Hwf. destruct (decide (ip ∈ fw_ips s)) as [Hin|Hin]; [by rewrite fw_grant_known|].
  destruct (decide (s_client_count s = MAX_CLIENTS)) as [Hc|Hc]; [by rewrite fw_grant_full|].
  assert (s_client_count s < MAX_CLIENTS)%nat as Hlt by (destruct Hwf as (_ & ? & _); lia).
  pose proof (fw_grant_new_ips s ip Hwf Hin Hlt) as Hips.
  destruct Hwf as (Hl & Hle & Hnd & Hd & Hp).
  assert (ip ∉ auth_ips (fw_dns s)) as Hna by (by rewrite <- Hp).
  unfold fw_wf. rewrite Hips. rewrite fw_grant_new by done. cbn [s_clients s_client_count fw_dns fw_with].
  split_and!; [by simpl_len|lia| |auto with tg_db|].
  - apply NoDup_app. split_and!; [done| |apply NoDup_singleton].
    intros x Hx Hx'%list_elem_of_singleton. by subst.
  - rewrite set_authenticated_add; [by rewrite Hp|done|done|].
    pose proof (auth_ips_length _ Hd) as Ha. rewrite <- Hp in Ha.
    unfold fw_ips in Ha. rewrite dense_keys_length in Ha by lia.
    unfold MAX_AUTH_IPS, MAX_CLIENTS in *. lia.
Qed.

Lemma fw_grant_elem s ip x :
  fw_wf s →
  x ∈ fw_ips (tollgate_core_fw_grant ip s) ↔
  x ∈ fw_ips s ∨ (x = ip ∧ (s_client_count s < MAX_CLIENTS)%nat).
Proof.
  intros Hwf. destruct (decide (ip ∈ fw_ips s)) as [Hin|Hin].
  { rewrite fw_grant_known by done. split; [by left|]. intros [?|[-> _]]; done. }
  destruct (decide (s_client_count s < MAX_CLIENTS)%nat) as [Hc|Hc].
  - rewrite fw_grant_new_ips by done. rewrite elem_of_app, list_elem_of_singleton. tauto.
  - rewrite fw_grant_full; [|done|destruct Hwf as (_ & ? & _); lia].
    split; [by left|]. intros [?|[_ ?]]; done.
Qed.
End grant.

Lemma fw_revoke_absent s ip : ip ∉ fw_ips s → tollgate_core_fw_revoke ip s = s.
Proof. intros Hin. unfold tollgate_core_fw_revoke. by rewrite fw_find_None. Qed.

Lemma fw_revoke_perm s ip :
  fw_wf s → ip ∈ fw_ips s → fw_ips s ≡ₚ ip :: fw_ips (tollgate_core_fw_revoke ip s).
Proof.
  intros (Hl & Hc & _) [i Hi]%dense_find_elem.
  unfold tollgate_core_fw_revoke, find_client_by_ip. rewrite Hi.
  apply dense_find_Some in Hi as (x & Hlt & Hx & <-).
  unfold fw_ips. simpl. apply dense_keys_remove; [done|lia|done].
Qed.

Lemma fw_revoke_dns s ip :
  ip ∈ fw_ips s →
  fw_dns (tollgate_core_fw_revoke ip s) = tollgate_core_dns_set_authenticated ip false (fw_dns s).
Proof.
  intros [i Hi]%dense_find_elem. unfold tollgate_core_fw_revoke, find_client_by_ip. by rewrite Hi.
Qed.

Lemma fw_revoke_count s ip :
  (s_client_count (tollgate_core_fw_revoke ip s) ≤ s_client_count s)%nat.
Proof. unfold tollgate_core_fw_revoke. case_match; simpl; lia. Qed.

Lemma fw_revoke_wf s ip : fw_wf s → fw_wf (tollgate_core_fw_revoke ip s).
Proof.
  intros Hwf. destruct (decide (ip ∈ fw_ips s)) as [Hin|Hin]; [|by rewrite fw_revoke_absent].
  pose proof (fw_revoke_perm s ip Hwf Hin) as Hp. pose proof (fw_revoke_count s ip).
  pose proof (fw_revoke_dns s ip Hin) as Hdns.
  destruct Hwf as (Hl & Hc & Hnd & Hd & Hpp). rewrite Hp in Hnd.
  apply NoDup_cons in Hnd as [_ Hnd].
  split_and!; [|lia|done| |].
  - unfold tollgate_core_fw_revoke. case_match; simpl; by simpl_len.
  - rewrite Hdns. auto with tg_db.
  - rewrite Hdns. apply (Permutation_cons_inv (a:=ip)).
    rewrite <- Hp, Hpp. apply set_authenticated_remove; [done|by rewrite <- Hpp].
Qed.

Lemma fw_revoke_elem s ip x :
  fw_wf s → x ∈ fw_ips (tollgate_core_fw_revoke ip s) ↔ x ∈ fw_ips s ∧ x ≠ ip.
Proof.
  intros Hwf. destruct (decide (ip ∈ fw_ips s)) as [Hin|Hin].
  - pose proof (fw_revoke_perm s ip Hwf Hin) as Hp.
    destruct Hwf as (_ & _ & Hnd & _). rewrite Hp in Hnd.
    apply NoDup_cons in Hnd as [Hnot _]. rewrite Hp, elem_of_cons. split.
    + intros Hx. split; [by right|]. by intros ->.
    + intros [[->|?] ?]; done.
  - rewrite fw_revoke_absent by done. split; [|by intros []].
    intros Hx. split; [done|]. by intros ->.
Qed.

#[export] Hint Resolve fw_grant_wf fw_revoke_wf : tg_db.

Lemma fw_boot_wf : fw_wf fw_boot.
Proof. split_and!; [done|simpl; lia|constructor|apply dns_wf_boot|done]. Qed.

(** Removing every address of a list from the DNS table. *)
Lemma dns_remove_all l d :
  dns_wf d → NoDup l → auth_ips d ≡ₚ l →
  let d' := foldl (λ d ip, tollgate_core_dns_set_authenticated ip false d) d l in
  dns_wf d' ∧ auth_ips d' = [].
Proof.
  revert d. induction l as [|ip l IH]; intros d Hd Hnd Hp; simpl.
  - split; [done|]. by apply Permutation_nil_r in Hp.
  - apply NoDup_cons in Hnd as [_ Hnd].
    refine (IH _ (set_authenticated_wf _ _ _ Hd) Hnd _).
    apply (Permutation_cons_inv (a:=ip)). rewrite <- Hp. symmetry.
    apply set_authenticated_remove; [done|]. rewrite Hp. apply list_elem_of_here.
Qed.

Lemma fw_revoke_all_wf s :
  fw_wf s →
  fw_wf (tollgate_core_fw_revoke_all s) ∧ fw_ips (tollgate_core_fw_revoke_all s) = [].
Proof.
  intros (Hl & Hc & Hnd & Hd & Hp). unfold tollgate_core_fw_revoke_all.
  destruct (dns_remove_all (fw_ips s) (fw_dns s)) as [Hd' He]; [done|done|done|].
  split; [|done]. unfold fw_wf. simpl. split_and!; [done|lia|constructor|done|].
  by rewrite He.
Qed.

(** A client without access in the firewall has none with the DNS server and
    the other way round. *)
Lemma fw_allowed_authenticated s ip :
  fw_wf s → tollgate_core_fw_is_allowed ip s = is_authenticated (fw_dns s) ip.
Proof.
  intros (_ & _ & _ & _ & Hp). apply eq_bool_prop_intro.
  rewrite !Is_true_true, fw_is_allowed_spec, is_authenticated_spec, Hp. done.
Qed.

(** * The filter refines a policy on addresses *)

(** The services a client reaches before paying: UDP (DNS, DHCP), ICMP, and
    on TCP the portal, the API, the relay and the mining proxy. *)
Definition portal_service (mining_port : Z) (p : list Z) : bool :=
  (rd p 9 =? 17) || (rd p 9 =? 1)
  || ((rd p 9 =? 6) && (40 <=? length p)%nat &&
      bool_decide (get_be (slice 22 2 p) ∈ [80; 2121; 4869; mining_port])).

(** Forward what does not come from the access point's /24, what a granted
    address sends, and what goes to a service of the access point itself. *)
Definition forward_policy (ap : list Z) (granted : list Z) (mining_port : Z) (p : list Z) : bool :=
  negb (bool_decide (slice 12 3 p = take 3 ap))
  || bool_decide (ld32 p 12 ∈ granted)
  || (bool_decide (slice 16 4 p = ap) && portal_service mining_port p).

Lemma slice_bytes off n (p : list Z) : Forall is_u8 p → Forall is_u8 (slice off n p).
Proof. intros. unfold slice. by apply Forall_take, Forall_drop. Qed.
#[export] Hint Resolve slice_bytes : tg_db.

(** Reading a network-order word and swapping it gives the big-endian value. *)
Lemma ntohl_ld32 p off :
  Forall is_u8 p → (off + 4 ≤ length p)%nat → lwip_ntohl (ld32 p off) = get_be (slice off 4 p).
Proof.
  intros Hp Hl. unfold lwip_ntohl, ld32, put_le32.
  rewrite <- (rev_involutive (slice off 4 p)) at 2. do 2 f_equal.
  rewrite <- (put_get_be (rev (slice off 4 p))) at 2
    by (apply Forall_rev, slice_bytes; done).
  by rewrite length_rev, length_slice.
Qed.

(** The mask of a /24 keeps the three leading bytes. *)
Lemma land_mask24 x : 0 <= x < 2 ^ 32 → Z.land x 0xFFFFFF00 = x / 256 * 256.
Proof.
  intros Hx. replace 0xFFFFFF00 with (Z.shiftl (Z.ones 24) 8) by reflexivity.
  change 256 with (2 ^ 8). rewrite <- Z.shiftl_mul_pow2, <- Z.shiftr_div_pow2 by lia.
  apply Z.bits_inj'. intros i Hi. rewrite Z.land_spec, !Z.shiftl_spec by lia.
  destruct (decide (i < 8)) as [Hlt|Hge].
  { rewrite !(Z.testbit_neg_r _ (i - 8)) by lia. apply andb_false_r. }
  rewrite Z.shiftr_spec, Z.testbit_ones_nonneg by lia.
  replace (i - 8 + 8) with i by lia.
  destruct (decide (i < 32)) as [Hlt|Hge32].
  - rewrite (proj2 (Z.ltb_lt _ _)) by lia. apply andb_true_r.
  - rewrite <- (Z.mod_small x (2 ^ 32)) by done. rewrite Z.mod_pow2_bits_high by lia. done.
Qed.

Lemma get_be_div256 l b : is_u8 b → get_be (l ++ [b]) / 256 = get_be l.
Proof. unfold is_u8. pow_consts. intros. rewrite get_be_app. zlia. Qed.

Lemma slice_4_3 off (p : list Z) :
  (off + 4 ≤ length p)%nat → ∃ b, p !! (off + 3)%nat = Some b ∧ slice off 4 p = slice off 3 p ++ [b].
Proof.
  intros Hl. destruct (lookup_lt_is_Some_2 p (off + 3)) as [b Hb]; [lia|].
  exists b. split; [done|]. unfold slice. apply (take_S_r _ 3). by rewrite lookup_drop.
Qed.

Lemma same_subnet p ap off :
  Forall is_u8 p → Forall is_u8 ap → (off + 4 ≤ length p)%nat → length ap = 4%nat →
  (Z.land (get_be (slice off 4 p)) 0xFFFFFF00 =? Z.land (get_be ap) 0xFFFFFF00)
  = bool_decide (slice off 3 p = take 3 ap).
Proof.
  intros Hp Hap Hl Hla.
  assert (∀ l, Forall is_u8 l → length l = 4%nat → 0 <= get_be l < 2 ^ 32) as Hr.
  { intros l Hb Hlen. pose proof (get_be_range l Hb) as H. rewrite Hlen in H. done. }
  rewrite !land_mask24 by (apply Hr; [auto with tg_db|rewrite ?length_slice; lia]).
  destruct (slice_4_3 off p Hl) as (b & Hb & ->).
  destruct (slice_4_3 0 ap) as (a & Ha & Heq); [lia|].
  rewrite slice_all in Heq by done. rewrite Heq at 1.
  assert (is_u8 b) as Hbb by (exact (Forall_lookup_1 _ _ _ _ Hp Hb)).
  assert (is_u8 a) as Haa by (exact (Forall_lookup_1 _ _ _ _ Hap Ha)).
  rewrite !get_be_div256 by done.
  change (slice 0 3 ap) with (take 3 (drop 0 ap)). rewrite drop_0.
  apply eq_bool_prop_intro. rewrite Is_true_true, Z.eqb_eq, bool_decide_spec. split.
  - intros H. apply get_be_inj; [auto with tg_db|by apply Forall_take| |lia].
    rewrite length_slice by lia. rewrite length_take. lia.
  - intros ->. lia.
Qed.

Lemma same_address p ap off :
  Forall is_u8 p → Forall is_u8 ap → (off + 4 ≤ length p)%nat → length ap = 4%nat →
  (get_be (slice off 4 p) =? get_be ap) = bool_decide (slice off 4 p = ap).
Proof.
  intros Hp Hap Hl Hla. apply eq_bool_prop_intro. rewrite Is_true_true, Z.eqb_eq, bool_decide_spec.
  split; [|by intros ->]. intros H.
  apply get_be_inj; [auto with tg_db|done|by rewrite length_slice by lia|done].
Qed.

Lemma sandbox_refines s p ap :
  (IP_HLEN ≤ length p)%nat → Forall is_u8 p → length ap = 4%nat → Forall is_u8 ap →
  s_ap_ip s = ld32 ap 0 → s_mining_port s ≠ 0 →
  is_sandbox_allowed s p = bool_decide (slice 16 4 p = ap) && portal_service (s_mining_port s) p.
Proof.
  unfold IP_HLEN. intros Hl Hp Hla Hap Heq Hm. unfold is_sandbox_allowed, portal_service, IP_HLEN, TCP_HLEN.
  rewrite (proj2 (Nat.ltb_ge _ _)) by lia.
  rewrite Heq, !ntohl_ld32 by (done || lia). rewrite (slice_all 4 ap) by done.
  rewrite same_address by (done || lia).
  case_bool_decide; [|done]. cbn [andb]. change (20 + 20)%nat with 40%nat. change (20 + 2)%nat with 22%nat.
  unfold IP_PROTO_TCP, IP_PROTO_UDP.
  destruct (rd p 9 =? 6) eqn:H6; [|by rewrite !orb_false_l, !orb_false_r].
  bool_hyps. rewrite H6.
  change (6 =? 17) with false. change (6 =? 1) with false. change (6 =? 6) with true.
  destruct (40 <=? length p)%nat; cbn [andb orb].
  - rewrite !orb_false_r. apply eq_bool_prop_intro.
    rewrite bool_decide_spec, Is_true_true, !orb_true_iff, !Z.eqb_eq.
    rewrite !elem_of_cons, elem_of_nil. tauto.
  - by rewrite (proj2 (Z.eqb_neq 0 (s_mining_port s))) by done.
Qed.

(** C10: on every IP packet with a full header the filter decides as the
    policy does: a client of the access point's network that has not paid
    reaches nothing but the services of the access point itself. *)
Theorem filter_refines_policy s p ap :
  (IP_HLEN ≤ length p)%nat → Forall is_u8 p → length ap = 4%nat → Forall is_u8 ap →
  s_ap_ip s = ld32 ap 0 → s_mining_port s ≠ 0 →
  tollgate_core_ip4_canforward_filter s p =
    Z.b2z (forward_policy ap (fw_ips s) (s_mining_port s) p).
Proof.
  intros Hl Hp Hla Hap Heq Hm. unfold tollgate_core_ip4_canforward_filter, forward_policy.
  rewrite (sandbox_refines s p ap) by done. unfold IP_HLEN in *.
  rewrite (proj2 (Nat.ltb_ge _ _)) by lia.
  rewrite Heq, !ntohl_ld32 by (done || lia). rewrite (slice_all 4 ap) by done.
  rewrite same_subnet by (done || lia).
  assert (tollgate_core_fw_is_allowed (ld32 p 12) s = bool_decide (ld32 p 12 ∈ fw_ips s)) as ->.
  { apply eq_bool_prop_intro. rewrite Is_true_true, fw_is_allowed_spec, bool_decide_spec. done. }
  destruct (bool_decide (slice 12 3 p = take 3 ap)); [|done].
  destruct (bool_decide (ld32 p 12 ∈ fw_ips s)); [done|].
  by destruct (_ && _).
Qed.

(** LwIP's [etharp_get_entry] returns 1 for an entry and 0 for none, while
    the lookup takes 0 for success: the ARP fallback never finds a MAC
    address, and with an empty ARP table it never returns. *)
Theorem arp_fallback_never_finds fuel get ip :
  lwip_etharp_contract get →
  (∀ mac, tollgate_core_fw_get_mac_for_ip None get fuel ip ≠ MacOk mac) ∧
  ((∀ j, snd (get j) = None) → tollgate_core_fw_get_mac_for_ip None get fuel ip = MacRunning).
Proof.
  intros Hc. unfold tollgate_core_fw_get_mac_for_ip. split.
  - intros mac. by destruct (arp_loop_never_finds get fuel 0 ip Hc) as [->| ->].
  - intros He. by apply arp_loop_empty.
Qed.

(** * Concrete packets *)

(** TCP to 8.8.8.8:443 from 192.168.4.2, behind the access point 192.168.4.1. *)
Definition packet_out : list Z :=
  [0x45; 0; 0; 40; 0; 0; 0; 0; 64; 6; 0; 0; 192; 168; 4; 2; 8; 8; 8; 8;
   0xC0; 0; 1; 0xBB; 0; 0; 0; 0; 0; 0; 0; 0; 0x50; 2; 0; 0; 0; 0; 0; 0].

Definition fw_example : fw_state :=
  snd (tollgate_core_fw_init (ld32 [192; 168; 4; 1] 0) fw_boot).

Lemma filter_refines_policy_witness :
  tollgate_core_ip4_canforward_filter fw_example packet_out = 0 ∧
  forward_policy [192; 168; 4; 1] (fw_ips fw_example) 3333 packet_out = false ∧
  tollgate_core_ip4_canforward_filter fw_example packet_out =
    Z.b2z (forward_policy [192; 168; 4; 1] (fw_ips fw_example) (s_mining_port fw_example) packet_out).
Proof.
  split; [vm_compute; reflexivity|]. split; [vm_compute; reflexivity|].
  apply (filter_refines_policy fw_example packet_out [192; 168; 4; 1]).
  - vm_compute. lia.
  - apply (bool_decide_unpack _). vm_compute. exact I.
  - reflexivity.
  - apply (bool_decide_unpack _). vm_compute. exact I.
  - reflexivity.
  - discriminate.
Defined.

Lemma arp_fallback_never_finds_witness :
  let get := λ i : nat, if (i =? 2)%nat then (1, Some (7, [1; 2; 3; 4; 5; 6])) else (0, None) in
  (∀ mac, tollgate_core_fw_get_mac_for_ip None get 10 7 ≠ MacOk mac) ∧
  ((∀ j, snd (get j) = None) → tollgate_core_fw_get_mac_for_ip None get 10 7 = MacRunning).
Proof.
  apply arp_fallback_never_finds. intros i. by destruct (i =? 2)%nat.
Defined.
