(* ===== verification/Session.v ===== *)
(** Client sessions (tollgate_core_session.c) with the platform callbacks they
    consult (tollgate_platform.h): the ten session slots, creation in time and
    in bytes, extension, expiry, revocation and the periodic tick, on top of
    the firewall.  A session pointer is the index of its slot. *)

From S2P Require Import Prelude CStr Dns Firewall.

(** * The platform callbacks *)

(** What each callback of [tollgate_platform_t] returns at the moment of the
    call; [None] for a callback that is not installed. *)
Record tollgate_platform_t := mk_platform {
  get_price_sats : option Z;
  get_step_ms : option Z;
  get_mint_url : option string;      (* a NULL result is the empty string *)
  get_metric : option string;
  get_step_bytes : option Z;
  get_time_ms_cb : option Z;
  spend_proofs : option (string → bool);
  get_hashprice_sats_per_ghs_day : option Z
}.

(** * State *)

Definition TG_SESSION_MAX_CLIENTS : nat := 10.

Inductive tg_payment_method_t := TG_PAYMENT_CASHU | TG_PAYMENT_MINING | TG_PAYMENT_BYTES.

#[export] Instance payment_method_eq_dec : EqDecision tg_payment_method_t.
Proof. solve_decision. Defined.

Record tg_session_t := mk_session {
  client_ip : Z;
  mac : string;
  allotment_ms : Z;
  start_time_ms : Z;
  allotment_bytes : Z;
  bytes_consumed : Z;
  payment_method : tg_payment_method_t;
  active : bool
}.

Definition session_zero : tg_session_t :=
  mk_session 0 "" 0 0 0 0 TG_PAYMENT_CASHU false.

Record session_state := mk_session_state {
  s_sessions : list tg_session_t;
  s_session_count : Z;
  ss_fw : fw_state
}.

Definition session_boot : session_state :=
  mk_session_state (replicate TG_SESSION_MAX_CLIENTS session_zero) 0 fw_boot.

Definition with_ms (x : tg_session_t) (ms : Z) : tg_session_t :=
  mk_session (client_ip x) (mac x) ms (start_time_ms x) (allotment_bytes x)
    (bytes_consumed x) (payment_method x) (active x).
Definition with_bytes (x : tg_session_t) (bytes : Z) : tg_session_t :=
  mk_session (client_ip x) (mac x) INT64_MAX (start_time_ms x) bytes 0
    TG_PAYMENT_BYTES (active x).
Definition with_consumed (x : tg_session_t) (n : Z) : tg_session_t :=
  mk_session (client_ip x) (mac x) (allotment_ms x) (start_time_ms x)
    (allotment_bytes x) n (payment_method x) (active x).
Definition with_method (x : tg_session_t) (m : tg_payment_method_t) : tg_session_t :=
  mk_session (client_ip x) (mac x) (allotment_ms x) (start_time_ms x)
    (allotment_bytes x) (bytes_consumed x) m (active x).
Definition deactivate (x : tg_session_t) : tg_session_t :=
  mk_session (client_ip x) (mac x) (allotment_ms x) (start_time_ms x)
    (allotment_bytes x) (bytes_consumed x) (payment_method x) false.

Definition update_session (i : nat) (f : tg_session_t → tg_session_t) (s : session_state)
  : session_state :=
  mk_session_state (alter f i (s_sessions s)) (s_session_count s) (ss_fw s).

(** * Operations *)

Section ops.
Context `{MacLookup}.

(** [s_platform] and the FreeRTOS tick count (one tick per millisecond). *)
Variable s_platform : option tollgate_platform_t.
Variable ticks : Z.

Definition get_time_ms : Z :=
  match s_platform with
  | Some p => default ticks (get_time_ms_cb p)
  | None => ticks
  end.

Definition tollgate_core_session_init (s : session_state) : esp_err_t * session_state :=
  (ESP_OK, mk_session_state (replicate TG_SESSION_MAX_CLIENTS session_zero) 0 (ss_fw s)).

Definition tollgate_core_session_find_by_ip (ip : Z) (s : session_state) : option nat :=
  find_slot (λ x, active x && (client_ip x =? ip)) (s_sessions s).

Definition tollgate_core_session_find_by_mac (m : string) (s : session_state) : option nat :=
  find_slot (λ x, active x && negb (str_empty (mac x)) && bool_decide (mac x = m))
            (s_sessions s).

Definition tollgate_core_session_extend (i : nat) (additional_ms : Z) (s : session_state)
  : session_state :=
  update_session i
    (λ x, if active x then with_ms x (u64 (allotment_ms x + additional_ms)) else x) s.

Definition tollgate_core_session_is_expired (x : tg_session_t) : bool :=
  if negb (active x) then true else
  if bool_decide (payment_method x = TG_PAYMENT_BYTES)
  then allotment_bytes x <=? bytes_consumed x else
  if bool_decide ((s_platform ≫= get_metric) = Some "bytes"%string)
  then allotment_bytes x <=? bytes_consumed x else
  i64 (allotment_ms x) <=? i64 (get_time_ms - start_time_ms x).

Definition tollgate_core_session_revoke (i : nat) (s : session_state) : session_state :=
  match s_sessions s !! i with
  | Some x =>
      if active x then
        mk_session_state (<[i := deactivate x]> (s_sessions s)) (s_session_count s - 1)
          (tollgate_core_fw_revoke (client_ip x) (ss_fw s))
      else s
  | None => s
  end.

(** The slot as [session_create] fills it: the byte counters keep what the
    slot held before. *)
Definition fill_slot (x : tg_session_t) (ip allotment : Z) : tg_session_t :=
  mk_session ip (default ""%string (mac_for_ip ip)) allotment get_time_ms
    (allotment_bytes x) (bytes_consumed x) TG_PAYMENT_CASHU true.

(** With all slots in use, the first expired one is freed. *)
Definition reclaim_slot (s : session_state) : session_state :=
  if Z.of_nat TG_SESSION_MAX_CLIENTS <=? s_session_count s then
    match find_slot (λ x, negb (active x) || tollgate_core_session_is_expired x)
                    (s_sessions s) with
    | Some i => tollgate_core_session_revoke i s
    | None => s
    end
  else s.

Definition tollgate_core_session_create (ip allotment : Z) (s : session_state)
  : option nat * session_state :=
  match tollgate_core_session_find_by_ip ip s with
  | Some i => (Some i, tollgate_core_session_extend i allotment s)
  | None =>
      let s1 := reclaim_slot s in
      match find_slot (λ x, negb (active x)) (s_sessions s1) with
      | Some i =>
          (Some i, mk_session_state (alter (λ x, fill_slot x ip allotment) i (s_sessions s1))
                     (s_session_count s1 + 1)
                     (tollgate_core_fw_grant ip (ss_fw s1)))
      | None => (None, s1)
      end
  end.

Definition tollgate_core_session_create_bytes (ip allotment : Z) (s : session_state)
  : option nat * session_state :=
  match tollgate_core_session_create ip 0 s with
  | (Some i, s1) => (Some i, update_session i (λ x, with_bytes x allotment) s1)
  | (None, s1) => (None, s1)
  end.

Definition tollgate_core_session_add_bytes (ip bytes : Z) (s : session_state) : session_state :=
  match tollgate_core_session_find_by_ip ip s with
  | Some i =>
      update_session i
        (λ x, if active x then with_consumed x (u64 (bytes_consumed x + bytes)) else x) s
  | None => s
  end.

(** [for (i = 0; i < TG_SESSION_MAX_CLIENTS; i++) if (p(i)) revoke(i)] *)
Definition revoke_where (p : tg_session_t → bool) (s : session_state) : session_state :=
  foldl (λ s i,
    match s_sessions s !! i with
    | Some x => if p x then tollgate_core_session_revoke i s else s
    | None => s
    end) s (seq 0 TG_SESSION_MAX_CLIENTS).

Definition check_expiry (s : session_state) : session_state :=
  revoke_where (λ x, active x && tollgate_core_session_is_expired x) s.

Definition tollgate_core_session_tick (s : session_state) : session_state := check_expiry s.

Definition tollgate_core_session_revoke_all (s : session_state) : session_state :=
  revoke_where active s.

Definition tollgate_core_session_active_count (s : session_state) : nat :=
  count_slots active (s_sessions s).
End ops.

#[global] Arguments tollgate_core_session_find_by_ip : simpl never.
#[global] Arguments tollgate_core_session_is_expired : simpl never.
#[global] Arguments tollgate_core_session_revoke : simpl never.
#[global] Arguments tollgate_core_session_create : simpl never.
#[global] Arguments tollgate_core_session_create_bytes : simpl never.
#[global] Arguments reclaim_slot : simpl never.
#[global] Arguments revoke_where : simpl never.

(** * Invariants *)

(** Some active session belongs to [ip]. *)
Definition has_session (s : session_state) (ip : Z) : Prop :=
  ∃ i x, s_sessions s !! i = Some x ∧ active x = true ∧ client_ip x = ip.

(** The slot count is the number of active slots, no address has two active
    sessions, and the firewall's tables are well formed. *)
Definition session_wf (s : session_state) : Prop :=
  length (s_sessions s) = TG_SESSION_MAX_CLIENTS ∧
  s_session_count s = Z.of_nat (count_slots active (s_sessions s)) ∧
  uniq_keys active client_ip (s_sessions s) ∧
  fw_wf (ss_fw s).

(** Exactly the addresses with an active session have access. *)
Definition coupled (s : session_state) : Prop :=
  ∀ ip, ip ∈ fw_ips (ss_fw s) ↔ has_session s ip.

(** ** Lookup *)

Lemma find_by_ip_Some s ip i :
  tollgate_core_session_find_by_ip ip s = Some i →
  ∃ x, s_sessions s !! i = Some x ∧ active x = true ∧ client_ip x = ip.
Proof.
  intros (x & Hx & Hp & _)%find_slot_Some. bool_hyps. eauto.
Qed.

Lemma find_by_ip_None s ip :
  tollgate_core_session_find_by_ip ip s = None ↔ ¬ has_session s ip.
Proof.
  unfold tollgate_core_session_find_by_ip. rewrite find_slot_None. split.
  - intros Hn (i & x & Hx & Ha & Hip). specialize (Hn i x Hx). cbn in Hn.
    rewrite Ha, Hip, Z.eqb_refl in Hn. done.
  - intros Hn i x Hx. destruct (active x) eqn:Ha; [|done]. cbn. apply Z.eqb_neq.
    intros Hip. apply Hn. by exists i, x.
Qed.

Lemma find_by_ip_unique s i x :
  session_wf s → s_sessions s !! i = Some x → active x = true →
  tollgate_core_session_find_by_ip (client_ip x) s = Some i.
Proof.
  intros (_ & _ & Hu & _) Hi Ha. apply (find_slot_unique _ _ i x Hi).
  - by rewrite Ha, Z.eqb_refl.
  - intros j y Hj Hy. bool_hyps. by apply (Hu j i y x).
Qed.

Lemma has_session_dec s ip : Decision (has_session s ip).
Proof.
  destruct (tollgate_core_session_find_by_ip ip s) as [i|] eqn:Hf.
  - left. destruct (find_by_ip_Some _ _ _ Hf) as (x & ? & ? & ?). by exists i, x.
  - right. by apply find_by_ip_None.
Qed.
#[export] Existing Instance has_session_dec.

(** ** Changes of one slot *)

(** A slot keeps its owner and its state under [f]. *)
Definition keeps_owner (f : tg_session_t → tg_session_t) : Prop :=
  ∀ x, active (f x) = active x ∧ client_ip (f x) = client_ip x.

Lemma update_has_session s i f ip :
  keeps_owner f → has_session (update_session i f s) ip ↔ has_session s ip.
Proof.
  intros Hf. unfold has_session, update_session. simpl. split.
  - intros (j & y & Hj & Ha & Hip). apply lookup_alter_inv in Hj as (x & Hx & ->).
    exists j, x. destruct (Hf x) as [Ha' Hip']. case_decide; [|done].
    by rewrite <- Ha', <- Hip'.
  - intros (j & y & Hj & Ha & Hip). exists j, (if decide (i = j) then f y else y).
    rewrite list_lookup_alter, Hj. destruct (Hf y) as [Ha' Hip'].
    case_decide; [|done]. subst. by rewrite Hj, Ha', Hip'.
Qed.

Lemma update_session_wf s i f :
  keeps_owner f → session_wf s → session_wf (update_session i f s).
Proof.
  intros Hf (Hl & Hc & Hu & Hfw). unfold update_session. split_and!; simpl.
  - by simpl_len.
  - rewrite count_slots_alter_same; [done|]. intros x. by destruct (Hf x).
  - by apply uniq_keys_alter.
  - done.
Qed.

Lemma update_coupled s i f : keeps_owner f → coupled s → coupled (update_session i f s).
Proof. intros Hf Hc ip. etrans; [apply Hc|symmetry; by apply update_has_session]. Qed.

Lemma keeps_extend n :
  keeps_owner (λ x, if active x then with_ms x (u64 (allotment_ms x + n)) else x).
Proof. intros x. by destruct (active x) eqn:Ha. Qed.
Lemma keeps_with_bytes n : keeps_owner (λ x, with_bytes x n).
Proof. done. Qed.
Lemma keeps_with_method m : keeps_owner (λ x, with_method x m).
Proof. done. Qed.
Lemma keeps_add_bytes n :
  keeps_owner (λ x, if active x then with_consumed x (u64 (bytes_consumed x + n)) else x).
Proof. intros x. by destruct (active x) eqn:Ha. Qed.
#[export] Hint Resolve keeps_extend keeps_with_bytes keeps_with_method keeps_add_bytes
  update_session_wf update_coupled : tg_db.

(** ** Revocation *)

Lemma revoke_inactive s i :
  (∀ x, s_sessions s !! i = Some x → active x = false) → tollgate_core_session_revoke i s = s.
Proof.
  intros Hx. unfold tollgate_core_session_revoke.
  destruct (s_sessions s !! i) as [x|]; [|done]. by rewrite (Hx x).
Qed.

Lemma revoke_active s i x :
  s_sessions s !! i = Some x → active x = true →
  tollgate_core_session_revoke i s =
    mk_session_state (<[i := deactivate x]> (s_sessions s)) (s_session_count s - 1)
      (tollgate_core_fw_revoke (client_ip x) (ss_fw s)).
Proof. intros Hx Ha. unfold tollgate_core_session_revoke. by rewrite Hx, Ha. Qed.

Lemma revoke_lookup s i j :
  s_sessions (tollgate_core_session_revoke i s) !! j =
    if decide (i = j) then deactivate <$> s_sessions s !! j else s_sessions s !! j.
Proof.
  unfold tollgate_core_session_revoke. destruct (s_sessions s !! i) as [x|] eqn:Hi.
  - destruct (active x) eqn:Ha; simpl.
    + rewrite list_lookup_insert. apply lookup_lt_Some in Hi as Hlt.
      repeat case_decide; subst; try (rewrite Hi); try done; lia.
    + case_decide; [subst|done]. rewrite Hi. simpl. by destruct x; cbn in *; subst.
  - case_decide; [subst; by rewrite Hi|done].
Qed.

Lemma revoke_wf s i : session_wf s → session_wf (tollgate_core_session_revoke i s).
Proof.
  intros Hwf. destruct (s_sessions s !! i) as [x|] eqn:Hi.
  2: { rewrite revoke_inactive; [done|]. intros x. by rewrite Hi. }
  destruct (active x) eqn:Ha.
  2: { rewrite revoke_inactive; [done|]. intros y. by rewrite Hi; intros [= <-]. }
  rewrite (revoke_active s i x Hi Ha).
  destruct Hwf as (Hl & Hc & Hu & Hfw). split_and!; simpl in *.
  - by simpl_len.
  - pose proof (count_slots_insert active _ i x (deactivate x) Hi) as H.
    rewrite Ha in H. cbn in H. lia.
  - by apply uniq_keys_insert.
  - auto with tg_db.
Qed.
#[export] Hint Resolve revoke_wf : tg_db.

Lemma revoke_fw s i x ip :
  session_wf s → s_sessions s !! i = Some x → active x = true →
  ip ∈ fw_ips (ss_fw (tollgate_core_session_revoke i s)) ↔
  ip ∈ fw_ips (ss_fw s) ∧ ip ≠ client_ip x.
Proof.
  intros (_ & _ & _ & Hfw) Hi Ha. rewrite (revoke_active s i x Hi Ha). simpl.
  by apply fw_revoke_elem.
Qed.

Lemma revoke_has_session s i x ip :
  session_wf s → s_sessions s !! i = Some x → active x = true →
  has_session (tollgate_core_session_revoke i s) ip ↔ has_session s ip ∧ ip ≠ client_ip x.
Proof.
  intros (_ & _ & Hu & _) Hi Ha. unfold has_session. split.
  - intros (j & y & Hj & Hay & Hip). rewrite revoke_lookup in Hj. case_decide.
    + subst. rewrite Hi in Hj. injection Hj as <-. done.
    + split; [by exists j, y|]. intros ->. assert (i = j) by (by apply (Hu i j x y)). done.
  - intros [(j & y & Hj & Hay & Hip) Hne]. exists j, y. rewrite revoke_lookup.
    case_decide; [|done]. subst. rewrite Hi in Hj. injection Hj as <-. done.
Qed.

Lemma revoke_coupled s i :
  session_wf s → coupled s → coupled (tollgate_core_session_revoke i s).
Proof.
  intros Hwf Hc ip. destruct (s_sessions s !! i) as [x|] eqn:Hi.
  2: { rewrite revoke_inactive; [done|]. intros x. by rewrite Hi. }
  destruct (active x) eqn:Ha.
  2: { rewrite revoke_inactive; [done|]. intros y. by rewrite Hi; intros [= <-]. }
  rewrite (revoke_fw s i x), (revoke_has_session s i x) by done. specialize (Hc ip). tauto.
Qed.
#[export] Hint Resolve revoke_coupled : tg_db.

(** ** Revoking every slot that satisfies a test *)

Definition revoked_ip (p : tg_session_t → bool) (n : nat) (s : session_state) (ip : Z) : Prop :=
  ∃ j x, (j < n)%nat ∧ s_sessions s !! j = Some x ∧ p x = true ∧ client_ip x = ip.

Lemma revoke_where_prefix p s n :
  session_wf s → (∀ x, p x = true → active x = true) →
  let s' := foldl (λ s i,
      match s_sessions s !! i with
      | Some x => if p x then tollgate_core_session_revoke i s else s
      | None => s
      end) s (seq 0 n) in
  session_wf s' ∧
  (∀ j, s_sessions s' !! j =
     (λ x, if bool_decide (j < n)%nat && p x then deactivate x else x) <$> s_sessions s !! j) ∧
  (∀ ip, ip ∈ fw_ips (ss_fw s') ↔ ip ∈ fw_ips (ss_fw s) ∧ ¬ revoked_ip p n s ip).
Proof.
  intros Hwf Hp. induction n as [|n (Hwf' & Hs & Hf)]; cbv zeta.
  { simpl. split_and!; [done| |].
    - intros j. by destruct (s_sessions s !! j).
    - intros ip. split; [|by intros []]. intros. split; [done|]. intros (j & x & Hj & _). lia. }
  rewrite seq_S, foldl_app. simpl. set (s1 := foldl _ s (seq 0 n)) in *. cbv zeta in *.
  assert (s_sessions s1 !! n = s_sessions s !! n) as Hn.
  { rewrite Hs, bool_decide_eq_false_2 by lia. by destruct (_ !! n). }
  rewrite Hn. assert (∀ ip, revoked_ip p (S n) s ip ↔ revoked_ip p n s ip ∨
    ∃ x, s_sessions s !! n = Some x ∧ p x = true ∧ client_ip x = ip) as Hrev.
  { intros ip. split.
    - intros (j & x & Hj & Hr). destruct (decide (j = n)) as [->|]; [right; eauto|].
      left. exists j, x. split; [lia|done].
    - intros [(j & x & Hj & Hr)|(x & Hr)]; [exists j, x|exists n, x]; split; (lia || done). }
  destruct (s_sessions s !! n) as [x|] eqn:Hx.
  2: { split_and!; [done| |].
    - intros j. rewrite Hs. destruct (decide (j = n)) as [->|]; [by rewrite Hx|].
      f_equal. by rewrite (bool_decide_ext (j < S n)%nat (j < n)%nat) by lia.
    - intros ip. rewrite Hf, Hrev. firstorder congruence. }
  destruct (p x) eqn:Hpx.
  - pose proof (Hp x Hpx) as Hax. split_and!; [auto with tg_db| |].
    + intros j. rewrite revoke_lookup. case_decide.
      * subst j. rewrite Hn, Hx. simpl. rewrite bool_decide_eq_true_2 by lia. by rewrite Hpx.
      * rewrite Hs. by rewrite (bool_decide_ext (j < S n)%nat (j < n)%nat) by lia.
    + intros ip. rewrite (revoke_fw s1 n x ip Hwf' Hn Hax), Hf, Hrev. split.
      * intros [[H1 H2] H3]. split; [done|]. intros [?|(y & [= <-] & _ & ?)]; [done|congruence].
      * intros [H1 H2]. split; [split; [done|tauto]|]. intros ->. apply H2. right. eauto.
  - split_and!; [done| |].
    + intros j. rewrite Hs. destruct (decide (j = n)) as [->|].
      * rewrite Hx. simpl. rewrite Hpx. by rewrite !andb_false_r.
      * by rewrite (bool_decide_ext (j < S n)%nat (j < n)%nat) by lia.
    + intros ip. rewrite Hf, Hrev. split; [|tauto].
      intros [H1 H2]. split; [done|]. intros [?|(y & [= <-] & ? & _)]; [done|congruence].
Qed.

(** What [revoke_where] does to the whole table. *)
Lemma revoke_where_spec p s :
  session_wf s → (∀ x, p x = true → active x = true) →
  session_wf (revoke_where p s) ∧
  s_sessions (revoke_where p s) = (λ x, if p x then deactivate x else x) <$> s_sessions s ∧
  (∀ ip, ip ∈ fw_ips (ss_fw (revoke_where p s)) ↔
     ip ∈ fw_ips (ss_fw s) ∧
     ¬ ∃ j x, s_sessions s !! j = Some x ∧ p x = true ∧ client_ip x = ip).
Proof.
  intros Hwf Hp. destruct (revoke_where_prefix p s TG_SESSION_MAX_CLIENTS Hwf Hp) as (H1 & H2 & H3).
  assert (∀ j x, s_sessions s !! j = Some x → (j < TG_SESSION_MAX_CLIENTS)%nat) as Hlt.
  { intros j x Hj. apply lookup_lt_Some in Hj. destruct Hwf as [Hl _]. by rewrite Hl in Hj. }
  split_and!; [done| |].
  - apply list_eq. intros j. unfold revoke_where. rewrite H2, list_lookup_fmap.
    destruct (s_sessions s !! j) as [x|] eqn:Hj; [|done]. simpl.
    by rewrite bool_decide_eq_true_2 by eauto.
  - intros ip. unfold revoke_where. rewrite H3. unfold revoked_ip.
    split; (intros [? Hn]; split; [done|]).
    + intros (j & x & Hj & Hr). apply Hn. exists j, x. split; [by eapply Hlt|done].
    + intros (j & x & _ & Hr). apply Hn. by exists j, x.
Qed.

Lemma revoke_where_has_session p s ip :
  session_wf s → (∀ x, p x = true → active x = true) →
  has_session (revoke_where p s) ip ↔
  ∃ i x, s_sessions s !! i = Some x ∧ active x = true ∧ p x = false ∧ client_ip x = ip.
Proof.
  intros Hwf Hp. destruct (revoke_where_spec p s Hwf Hp) as (_ & Hs & _).
  unfold has_session. rewrite Hs. split.
  - intros (i & x & Hi & Ha & Hip). apply list_lookup_fmap_Some in Hi as (y & -> & Hi).
    exists i, y. destruct (p y) eqn:Hpy; [done|]. eauto.
  - intros (i & x & Hi & Ha & Hpx & Hip). exists i, x. rewrite list_lookup_fmap, Hi. simpl.
    by rewrite Hpx.
Qed.

Lemma revoke_where_coupled p s :
  session_wf s → (∀ x, p x = true → active x = true) → coupled s → coupled (revoke_where p s).
Proof.
  intros Hwf Hp Hc ip. destruct (revoke_where_spec p s Hwf Hp) as (_ & _ & Hf).
  rewrite Hf, revoke_where_has_session by done. rewrite (Hc ip).
  destruct Hwf as (_ & _ & Hu & _). split.
  - intros [(i & x & Hi & Ha & Hip) Hn]. exists i, x. split_and!; try done.
    destruct (p x) eqn:Hpx; [|done]. destruct Hn. eauto.
  - intros (i & x & Hi & Ha & Hpx & Hip). split; [by exists i, x|].
    intros (j & y & Hj & Hpy & Hip'). assert (i = j) by (apply (Hu i j x y); auto; congruence).
    subst j. congruence.
Qed.

(** ** Room in the tables *)

Definition active_ips (s : session_state) : list Z :=
  client_ip <$> List.filter active (s_sessions s).

Lemma active_ips_elem s ip : ip ∈ active_ips s ↔ has_session s ip.
Proof.
  unfold active_ips, has_session. rewrite list_elem_of_fmap. split.
  - intros (x & -> & Hx). apply list_elem_of_In, List.filter_In in Hx as [Hx Ha].
    apply list_elem_of_In, list_elem_of_lookup in Hx as [i Hi]. by exists i, x.
  - intros (i & x & Hi & Ha & <-). exists x. split; [done|].
    apply list_elem_of_In, List.filter_In. split; [|done].
    apply list_elem_of_In. by apply list_elem_of_lookup_2 with i.
Qed.

(** The firewall holds no more addresses than there are active sessions. *)
Lemma fw_count_le s :
  session_wf s → coupled s →
  (s_client_count (ss_fw s) ≤ count_slots active (s_sessions s))%nat.
Proof.
  intros (_ & _ & _ & Hfw) Hc. rewrite <- (fw_ips_length _ Hfw).
  replace (count_slots active (s_sessions s)) with (length (active_ips s))
    by (unfold active_ips, count_slots; by rewrite length_fmap).
  apply submseteq_length, NoDup_submseteq; [by destruct Hfw as (_ & _ & ? & _)|].
  intros ip Hip. apply active_ips_elem. by apply Hc.
Qed.

Lemma free_slot_count s i x :
  session_wf s → s_sessions s !! i = Some x → active x = false →
  (count_slots active (s_sessions s) < TG_SESSION_MAX_CLIENTS)%nat.
Proof.
  intros (Hl & _) Hi Ha. pose proof (count_slots_le active (s_sessions s)).
  destruct (decide (count_slots active (s_sessions s) = length (s_sessions s))) as [He|]; [|lia].
  rewrite (count_slots_full active _ He i x Hi) in Ha. done.
Qed.

(** ** Creation *)

Section create.
Context `{MacLookup} (pf : option tollgate_platform_t) (ticks : Z).
Notation expired := (tollgate_core_session_is_expired pf ticks).
Notation create := (tollgate_core_session_create pf ticks).
Notation reclaim := (reclaim_slot pf ticks).

Lemma reclaim_cases s :
  session_wf s →
  (∃ i x, reclaim s = tollgate_core_session_revoke i s ∧ s_sessions s !! i = Some x ∧
          active x = true ∧ expired x = true ∧
          (∀ j y, s_sessions s !! j = Some y → active y = true)) ∨
  (reclaim s = s ∧
   ((∃ i x, s_sessions s !! i = Some x ∧ active x = false) ∨
    (∀ i x, s_sessions s !! i = Some x → active x = true ∧ expired x = false))).
Proof.
  intros (Hl & Hc & _). unfold reclaim_slot. destruct (_ <=? _) eqn:Hfull; bool_hyps.
  - assert (count_slots active (s_sessions s) = length (s_sessions s)) as Hall.
    { pose proof (count_slots_le active (s_sessions s)). lia. }
    pose proof (count_slots_full _ _ Hall) as Hact.
    destruct (find_slot _ _) as [i|] eqn:Hf.
    + apply find_slot_Some in Hf as (x & Hx & Hp & _).
      left. exists i, x. pose proof (Hact i x Hx) as Ha. rewrite Ha in Hp. done.
    + right. split; [done|]. right. intros i x Hx.
      pose proof (proj1 (find_slot_None _ _) Hf i x Hx) as Hp. cbn in Hp. bool_hyps. done.
  - right. split; [done|]. left. apply count_slots_not_full. lia.
Qed.

Lemma reclaim_wf s : session_wf s → session_wf (reclaim s).
Proof.
  intros Hwf. destruct (reclaim_cases s Hwf) as [(i & x & -> & _)|[-> _]]; auto with tg_db.
Qed.

Lemma reclaim_coupled s : session_wf s → coupled s → coupled (reclaim s).
Proof.
  intros Hwf Hc. destruct (reclaim_cases s Hwf) as [(i & x & -> & _)|[-> _]]; auto with tg_db.
Qed.

Lemma reclaim_has_session s ip : session_wf s → has_session (reclaim s) ip → has_session s ip.
Proof.
  intros Hwf. destruct (reclaim_cases s Hwf) as [(i & x & -> & Hi & Ha & _)|[-> _]]; [|done].
  rewrite (revoke_has_session s i x ip Hwf Hi Ha). by intros [].
Qed.

Lemma create_existing s ip n i :
  tollgate_core_session_find_by_ip ip s = Some i →
  create ip n s = (Some i, tollgate_core_session_extend i n s).
Proof. intros Hf. unfold tollgate_core_session_create. by rewrite Hf. Qed.

(** The new session goes into the free slot [i] of the reclaimed table. *)
Lemma create_new s ip n :
  ¬ has_session s ip →
  create ip n s =
    match find_slot (λ x, negb (active x)) (s_sessions (reclaim s)) with
    | Some i =>
        (Some i, mk_session_state
           (alter (λ x, fill_slot pf ticks x ip n) i (s_sessions (reclaim s)))
           (s_session_count (reclaim s) + 1)
           (tollgate_core_fw_grant ip (ss_fw (reclaim s))))
    | None => (None, reclaim s)
    end.
Proof.
  intros Hn%find_by_ip_None. unfold tollgate_core_session_create. by rewrite Hn.
Qed.

Lemma create_new_wf s ip n i x :
  session_wf s → ¬ has_session s ip → s_sessions s !! i = Some x → active x = false →
  session_wf (mk_session_state (alter (λ x, fill_slot pf ticks x ip n) i (s_sessions s))
                (s_session_count s + 1) (tollgate_core_fw_grant ip (ss_fw s))).
Proof.
  intros (Hl & Hc & Hu & Hfw) Hnot Hi Ha. split_and!; simpl.
  - by simpl_len.
  - rewrite (alter_insert_Some _ _ _ _ Hi).
    pose proof (count_slots_insert active _ i x (fill_slot pf ticks x ip n) Hi) as Hcs.
    rewrite Ha in Hcs. cbn in Hcs. lia.
  - rewrite (alter_insert_Some _ _ _ _ Hi). apply uniq_keys_insert; [done|].
    intros j y Hj Hy _ Hip. destruct Hnot. by exists j, y.
  - auto with tg_db.
Qed.

Lemma create_new_has_session s ip n i x k c f :
  s_sessions s !! i = Some x → active x = false →
  has_session (mk_session_state (alter (λ x, fill_slot pf ticks x ip n) i (s_sessions s)) c f) k
  ↔ has_session s k ∨ k = ip.
Proof.
  intros Hi Ha. unfold has_session. simpl. split.
  - intros (j & y & Hj & Hay & Hip). apply lookup_alter_inv in Hj as (y' & Hj & ->).
    case_decide; [right; by rewrite <- Hip|left; by exists j, y'].
  - intros [(j & y & Hj & Hay & Hip)| ->].
    + exists j, y. split; [|done]. rewrite list_lookup_alter_ne; [done|]. intros ->. congruence.
    + exists i, (fill_slot pf ticks x ip n). rewrite list_lookup_alter_eq, Hi. done.
Qed.

Lemma create_new_allowed s ip i x :
  session_wf s → coupled s → s_sessions s !! i = Some x → active x = false →
  ∀ k, k ∈ fw_ips (tollgate_core_fw_grant ip (ss_fw s)) ↔ k ∈ fw_ips (ss_fw s) ∨ k = ip.
Proof.
  intros Hwf Hc Hi Ha k. pose proof (fw_count_le s Hwf Hc).
  pose proof (free_slot_count s i x Hwf Hi Ha).
  destruct Hwf as (_ & _ & _ & Hfw). rewrite (fw_grant_elem _ ip k Hfw).
  unfold TG_SESSION_MAX_CLIENTS, MAX_CLIENTS in *.
  split; (intros [?|?]; [by left|right]).
  - tauto.
  - split; [done|lia].
Qed.

Lemma session_create_wf s ip n : session_wf s → session_wf (snd (create ip n s)).
Proof.
  intros Hwf. destruct (has_session_dec s ip) as [Hin|Hnot].
  - destruct (tollgate_core_session_find_by_ip ip s) as [i|] eqn:Hf.
    + rewrite (create_existing s ip n i Hf). apply update_session_wf; auto with tg_db.
    + by apply find_by_ip_None in Hf.
  - rewrite create_new by done. pose proof (reclaim_wf s Hwf) as Hwf1.
    destruct (find_slot _ _) as [i|] eqn:Hf; [|done].
    apply find_slot_Some in Hf as (x & Hx & Hp & _). bool_hyps.
    simpl. apply (create_new_wf _ ip n i x); [done| |done|done].
    intros Hr. by apply Hnot, reclaim_has_session.
Qed.

Lemma session_create_coupled s ip n :
  session_wf s → coupled s → coupled (snd (create ip n s)).
Proof.
  intros Hwf Hc. destruct (has_session_dec s ip) as [Hin|Hnot].
  - destruct (tollgate_core_session_find_by_ip ip s) as [i|] eqn:Hf.
    + rewrite (create_existing s ip n i Hf). apply update_coupled; auto with tg_db.
    + by apply find_by_ip_None in Hf.
  - rewrite create_new by done.
    pose proof (reclaim_wf s Hwf) as Hwf1. pose proof (reclaim_coupled s Hwf Hc) as Hc1.
    destruct (find_slot _ _) as [i|] eqn:Hf; [|done].
    apply find_slot_Some in Hf as (x & Hx & Hp & _). bool_hyps.
    intros k. simpl. rewrite (create_new_has_session _ ip n i x k) by done.
    rewrite (create_new_allowed _ ip i x Hwf1 Hc1 Hx Hp k). specialize (Hc1 k). tauto.
Qed.

Lemma create_bytes_unfold s ip n :
  tollgate_core_session_create_bytes pf ticks ip n s =
    match fst (create ip 0 s) with
    | Some i => (Some i, update_session i (λ x, with_bytes x n) (snd (create ip 0 s)))
    | None => (None, snd (create ip 0 s))
    end.
Proof.
  unfold tollgate_core_session_create_bytes. by destruct (create ip 0 s) as [[i|] s1].
Qed.

Lemma session_create_bytes_wf s ip n :
  session_wf s → session_wf (snd (tollgate_core_session_create_bytes pf ticks ip n s)).
Proof.
  intros Hwf. rewrite create_bytes_unfold. pose proof (session_create_wf s ip 0 Hwf).
  destruct (fst _); simpl; auto with tg_db.
Qed.

Lemma session_create_bytes_coupled s ip n :
  session_wf s → coupled s →
  coupled (snd (tollgate_core_session_create_bytes pf ticks ip n s)).
Proof.
  intros Hwf Hc. rewrite create_bytes_unfold. pose proof (session_create_coupled s ip 0 Hwf Hc).
  destruct (fst _); simpl; [|done]. apply update_coupled; auto with tg_db.
Qed.

(** A session of the client when creation succeeds, no change otherwise. *)
Lemma session_create_result s ip n r s' :
  session_wf s → create ip n s = (r, s') →
  match r with
  | Some i => ∃ x, s_sessions s' !! i = Some x ∧ active x = true ∧ client_ip x = ip
  | None => s' = s
  end.
Proof.
  intros Hwf. destruct (has_session_dec s ip) as [Hin|Hnot].
  - destruct (tollgate_core_session_find_by_ip ip s) as [i|] eqn:Hf;
      [|by apply find_by_ip_None in Hf].
    rewrite (create_existing s ip n i Hf). intros [= <- <-].
    destruct (find_by_ip_Some _ _ _ Hf) as (x & Hx & Ha & Hip).
    exists (with_ms x (u64 (allotment_ms x + n))).
    unfold tollgate_core_session_extend, update_session. simpl.
    by rewrite list_lookup_alter_eq, Hx, <- Hip; simpl; rewrite Ha.
  - rewrite create_new by done. pose proof (reclaim_cases s Hwf) as Hcase.
    destruct (find_slot _ _) as [i|] eqn:Hf; intros [= <- <-].
    + apply find_slot_Some in Hf as (x & Hx & _). exists (fill_slot pf ticks x ip n). simpl.
      by rewrite list_lookup_alter_eq, Hx.
    + destruct Hcase as [(i0 & x0 & Heq & Hi0 & Ha0 & _)|[Heq _]]; [|done].
      pose proof (proj1 (find_slot_None _ _) Hf i0 (deactivate x0)) as Hd.
      rewrite Heq, revoke_lookup, decide_True, Hi0 in Hd by done. by specialize (Hd eq_refl).
Qed.

Lemma session_create_bytes_result s ip n r s' :
  session_wf s → tollgate_core_session_create_bytes pf ticks ip n s = (r, s') →
  match r with
  | Some i => ∃ x, s_sessions s' !! i = Some x ∧ active x = true ∧ client_ip x = ip
  | None => s' = s
  end.
Proof.
  intros Hwf. rewrite create_bytes_unfold.
  destruct (create ip 0 s) as [[i|] s1] eqn:Hcr; simpl; intros [= <- <-];
    pose proof (session_create_result s ip 0 _ _ Hwf Hcr) as Hr; [|done].
  destruct Hr as (x & Hx & Ha & Hip). exists (with_bytes x n).
  unfold update_session. simpl. by rewrite list_lookup_alter_eq, Hx.
Qed.
End create.

#[export] Hint Resolve session_create_wf session_create_coupled session_create_bytes_wf
  session_create_bytes_coupled : tg_db.

Lemma session_boot_wf : session_wf session_boot.
Proof.
  split_and!; [done|done|by apply uniq_keys_replicate|apply fw_boot_wf].
Qed.

Lemma session_boot_coupled : coupled session_boot.
Proof.
  intros ip. split; [by intros ?%elem_of_nil|]. intros (i & x & Hi & Ha & _).
  apply lookup_replicate_1 in Hi as [-> _]. done.
Qed.

(** * Properties *)

Section properties.
Context `{MacLookup} (pf : option tollgate_platform_t) (ticks : Z).
Notation expired := (tollgate_core_session_is_expired pf ticks).


(** Paying again with a running session adds to its time (modulo 2^64)
    and changes nothing else; in particular no access is granted anew. *)
Theorem session_create_again s i x n :
  session_wf s → s_sessions s !! i = Some x → active x = true →
  tollgate_core_session_create pf ticks (client_ip x) n s =
    (Some i, mk_session_state
               (<[i := with_ms x (u64 (allotment_ms x + n))]> (s_sessions s))
               (s_session_count s) (ss_fw s)).
Proof.
  intros Hwf Hi Ha. rewrite (create_existing _ _ _ _ _ i) by (by apply find_by_ip_unique).
  unfold tollgate_core_session_extend, update_session. rewrite (alter_insert_Some _ _ _ _ Hi).
  by rewrite Ha.
Qed.


(** A session bought in time ends when its allotment has passed, no
    earlier and no later, as long as the allotment is below 2^63 ms; from
    there on the signed comparison ends it at once. *)
Theorem session_time_expiry x :
  active x = true → payment_method x ≠ TG_PAYMENT_BYTES →
  (pf ≫= get_metric) ≠ Some "bytes"%string →
  0 <= start_time_ms x <= get_time_ms pf ticks → get_time_ms pf ticks < 2 ^ 63 →
  is_u64 (allotment_ms x) →
  expired x = if allotment_ms x <? 2 ^ 63
              then start_time_ms x + allotment_ms x <=? get_time_ms pf ticks else true.
Proof.
  intros Ha Hm Hmet Ht Hnow Hal. unfold tollgate_core_session_is_expired. rewrite Ha.
  rewrite !bool_decide_eq_false_2 by done. cbn [negb].
  rewrite (i64_small (get_time_ms pf ticks - _)) by (unfold is_i64; lia).
  unfold is_u64 in Hal. destruct (allotment_ms x <? 2 ^ 63) eqn:E; bool_hyps.
  - rewrite i64_small by (unfold is_i64; lia).
    apply eq_bool_prop_intro. rewrite !Is_true_true, !Z.leb_le. lia.
  - rewrite i64_high by lia. apply Z.leb_le. lia.
Qed.
End properties.

(** * Concrete states *)

Definition mac_none : MacLookup := λ _, None.
Definition platform_example : option tollgate_platform_t :=
  Some (mk_platform (Some 21) (Some 60000) (Some "https://mint"%string)
          (Some "milliseconds"%string) None (Some 1000) None None).

(** Address 5 has a session of one minute that began at time 1000. *)
Definition session_example : session_state :=
  snd (@tollgate_core_session_create mac_none platform_example 0 5 60000 session_boot).

Lemma session_example_wf : session_wf session_example.
Proof. apply session_create_wf, session_boot_wf. Qed.
Lemma session_example_coupled : coupled session_example.
Proof. apply session_create_coupled; [apply session_boot_wf|apply session_boot_coupled]. Qed.


Definition example_slot : tg_session_t := default session_zero (s_sessions session_example !! 0%nat).

Lemma session_create_again_witness :
  @tollgate_core_session_create mac_none platform_example 0 (client_ip example_slot) 1000
    session_example =
  (Some 0%nat, mk_session_state
     (<[0%nat := with_ms example_slot (u64 (allotment_ms example_slot + 1000))]>
        (s_sessions session_example))
     (s_session_count session_example) (ss_fw session_example)).
Proof.
  apply (session_create_again platform_example 0 session_example 0 example_slot 1000).
  - exact session_example_wf.
  - vm_compute. reflexivity.
  - vm_compute. reflexivity.
Defined.


Lemma session_time_expiry_witness :
  tollgate_core_session_is_expired platform_example 0 example_slot =
    if allotment_ms example_slot <? 2 ^ 63
    then start_time_ms example_slot + allotment_ms example_slot
         <=? get_time_ms platform_example 0
    else true.
Proof.
  apply (session_time_expiry platform_example 0 example_slot).
  - vm_compute. reflexivity.
  - vm_compute. discriminate.
  - vm_compute. discriminate.
  - vm_compute. split; discriminate.
  - vm_compute. reflexivity.
  - vm_compute. split; [discriminate|reflexivity].
Defined.
