(* ===== verification/Config.v ===== *)
(** The configuration (main/config.c): the structure, its defaults, the reader of
    config.json, the Wi-Fi networks in turn, and the file that is written back
    when a network is added.  The file system and the JSON library are
    parameters; a [None] of a whole operation is a read through NULL. *)

From S2P Require Import Prelude CStr F64 Json.
#[local] Open Scope Z_scope.

(** * The structure *)

Definition PAYOUT_MAX_RECIPIENTS : nat := 4.
Definition PAYOUT_MAX_MINTS : nat := 3.
Definition TOLLGATE_MAX_WIFI_NETWORKS : nat := 5.
Definition TOLLGATE_MAX_MINT_URLS : nat := 8.
Definition TOLLGATE_MAX_RELAYS : nat := 4.
Definition TOLLGATE_MAX_SEED_RELAYS : nat := 8.

Record payout_recipient_t := mk_recipient { pr_address : string; pr_factor : f64 }.
Record payout_mint_config_t := mk_payout_mint {
  pm_url : string; pm_min_balance : Z; pm_min_payout_amount : Z
}.
Record payout_config_t := mk_payout {
  po_enabled : bool;
  po_mints : list payout_mint_config_t;
  po_mint_count : Z;
  po_recipients : list payout_recipient_t;
  po_recipient_count : Z;
  po_fee_tolerance_pct : Z;
  po_check_interval_s : Z
}.

Inductive mining_payout_mode_t :=
| MINING_PAYOUT_AUTO | MINING_PAYOUT_POOL | MINING_PAYOUT_UPSTREAM | MINING_PAYOUT_PROXY_ONLY.

Record wifi_network_t := mk_network { nw_ssid : string; nw_password : string }.
Definition network_zero : wifi_network_t := mk_network "" "".

(** Field for field the structure of the source; arrays are lists of their
    length, strings are what is before the NUL. *)
Record tollgate_config_t := mk_config {
  cf_networks : list wifi_network_t;
  cf_network_count : Z;
  cf_current_network : Z;
  cf_max_retry : Z;
  cf_nsec : string;
  cf_npub : string;
  cf_ap_ssid : string;
  cf_ap_password : string;
  cf_ap_channel : Z;
  cf_ap_max_conn : Z;
  cf_sta_mac : list Z;
  cf_ap_mac : list Z;
  cf_ap_ip : Z;
  cf_ap_ip_str : string;
  cf_mint_url : string;
  cf_accepted_mints : list string;
  cf_accepted_mint_count : Z;
  cf_lnurl_url : string;
  cf_price_per_step : Z;
  cf_step_size_ms : Z;
  cf_step_size_bytes : Z;
  cf_metric : string;
  cf_persist_threshold_sats : Z;
  cf_nostr_geohash : string;
  cf_nostr_relays : list string;
  cf_nostr_relay_count : Z;
  cf_nostr_publish_interval_s : Z;
  cf_nostr_sync_interval_s : Z;
  cf_nostr_fallback_sync_interval_s : Z;
  cf_identity_initialized : bool;
  cf_client_enabled : bool;
  cf_client_steps_to_buy : Z;
  cf_client_renewal_threshold_pct : Z;
  cf_client_retry_interval_ms : Z;
  cf_payout : payout_config_t;
  cf_cvm_enabled : bool;
  cf_cvm_relays : string;
  cf_wifi_auth_mode : string;
  cf_display_enabled : bool;
  cf_nostr_seed_relays : list string;
  cf_nostr_seed_relay_count : Z;
  cf_market_enabled : bool;
  cf_market_scan_interval_s : Z;
  cf_client_auto_switch : bool;
  cf_sync_enabled : bool;
  cf_wifistr_enabled : bool;
  cf_local_relay_enabled : bool;
  cf_mint_health_enabled : bool;
  cf_mining_enabled : bool;
  cf_mining_payout_mode : mining_payout_mode_t;
  cf_stratum_host : string;
  cf_stratum_port : Z;
  cf_stratum_user : string;
  cf_stratum_pass : string;
  cf_stratum_fallback_host : string;
  cf_stratum_fallback_port : Z;
  cf_mining_port : Z;
  cf_hashprice_sats_per_ghs_day : Z;
  cf_mining_sandbox_mint_access : bool;
  cf_proxy_self_test : bool;
  cf_faucet_url : string;
  cf_faucet_poll_interval_s : Z
}.

(** [g_config] after the defaults, before the file. *)
Definition config_defaults : tollgate_config_t := {|
  cf_networks := replicate TOLLGATE_MAX_WIFI_NETWORKS network_zero;
  cf_network_count := 0; cf_current_network := 0;
  cf_max_retry := 5; cf_nsec := ""; cf_npub := ""; cf_ap_ssid := ""; cf_ap_password := "";
  cf_ap_channel := 1; cf_ap_max_conn := 4;
  cf_sta_mac := replicate 6 0; cf_ap_mac := replicate 6 0; cf_ap_ip := 0; cf_ap_ip_str := "";
  cf_mint_url := ""; cf_accepted_mints := replicate TOLLGATE_MAX_MINT_URLS ""%string;
  cf_accepted_mint_count := 0; cf_lnurl_url := "";
  cf_price_per_step := 21; cf_step_size_ms := 60000; cf_step_size_bytes := 22020096;
  cf_metric := "milliseconds"; cf_persist_threshold_sats := 1;
  cf_nostr_geohash := ""; cf_nostr_relays := replicate TOLLGATE_MAX_RELAYS ""%string;
  cf_nostr_relay_count := 0; cf_nostr_publish_interval_s := 21600;
  cf_nostr_sync_interval_s := 1800; cf_nostr_fallback_sync_interval_s := 21600;
  cf_identity_initialized := false;
  cf_client_enabled := false; cf_client_steps_to_buy := 1;
  cf_client_renewal_threshold_pct := 20; cf_client_retry_interval_ms := 30000;
  cf_payout := mk_payout true (replicate PAYOUT_MAX_MINTS (mk_payout_mint "" 0 0)) 0
                 (replicate PAYOUT_MAX_RECIPIENTS (mk_recipient "" f64_zero)) 0 10 60;
  cf_cvm_enabled := true; cf_cvm_relays := "wss://nos.lol"; cf_wifi_auth_mode := "WPA2";
  cf_display_enabled := true;
  cf_nostr_seed_relays := replicate TOLLGATE_MAX_SEED_RELAYS ""%string;
  cf_nostr_seed_relay_count := 0;
  cf_market_enabled := true; cf_market_scan_interval_s := 30; cf_client_auto_switch := false;
  cf_sync_enabled := true; cf_wifistr_enabled := true; cf_local_relay_enabled := true;
  cf_mint_health_enabled := true;
  cf_mining_enabled := false; cf_mining_payout_mode := MINING_PAYOUT_AUTO;
  cf_stratum_host := ""; cf_stratum_port := 3333; cf_stratum_user := ""; cf_stratum_pass := "";
  cf_stratum_fallback_host := ""; cf_stratum_fallback_port := 0; cf_mining_port := 3334;
  cf_hashprice_sats_per_ghs_day := 0; cf_mining_sandbox_mint_access := false;
  cf_proxy_self_test := true; cf_faucet_url := ""; cf_faucet_poll_interval_s := 120
|}.

(** * Changes *)

(** The networks and the one in turn. *)
Definition with_networks
    (networks' : list wifi_network_t) (network_count' : Z) (current_network' : Z)
    (c : tollgate_config_t) : tollgate_config_t :=
  let '(mk_config
      _ _ _ max_retry nsec npub ap_ssid ap_password ap_channel ap_max_conn sta_mac ap_mac ap_ip
      ap_ip_str mint_url accepted_mints accepted_mint_count lnurl_url price_per_step
      step_size_ms step_size_bytes metric persist_threshold_sats nostr_geohash nostr_relays
      nostr_relay_count nostr_publish_interval_s nostr_sync_interval_s
      nostr_fallback_sync_interval_s identity_initialized client_enabled client_steps_to_buy
      client_renewal_threshold_pct client_retry_interval_ms payout cvm_enabled cvm_relays
      wifi_auth_mode display_enabled nostr_seed_relays nostr_seed_relay_count market_enabled
      market_scan_interval_s client_auto_switch sync_enabled wifistr_enabled local_relay_enabled
      mint_health_enabled mining_enabled mining_payout_mode stratum_host stratum_port
      stratum_user stratum_pass stratum_fallback_host stratum_fallback_port mining_port
      hashprice_sats_per_ghs_day mining_sandbox_mint_access proxy_self_test faucet_url
      faucet_poll_interval_s) := c in
  mk_config
    networks' network_count' current_network' max_retry nsec npub ap_ssid ap_password ap_channel
    ap_max_conn sta_mac ap_mac ap_ip ap_ip_str mint_url accepted_mints accepted_mint_count
    lnurl_url price_per_step step_size_ms step_size_bytes metric persist_threshold_sats
    nostr_geohash nostr_relays nostr_relay_count nostr_publish_interval_s nostr_sync_interval_s
    nostr_fallback_sync_interval_s identity_initialized client_enabled client_steps_to_buy
    client_renewal_threshold_pct client_retry_interval_ms payout cvm_enabled cvm_relays
    wifi_auth_mode display_enabled nostr_seed_relays nostr_seed_relay_count market_enabled
    market_scan_interval_s client_auto_switch sync_enabled wifistr_enabled local_relay_enabled
    mint_health_enabled mining_enabled mining_payout_mode stratum_host stratum_port stratum_user
    stratum_pass stratum_fallback_host stratum_fallback_port mining_port
    hashprice_sats_per_ghs_day mining_sandbox_mint_access proxy_self_test faucet_url
    faucet_poll_interval_s.

(** What the identity gives. *)
Definition with_identity
    (npub' : string) (ap_ssid' : string) (sta_mac' : list Z) (ap_mac' : list Z) (ap_ip' : Z)
    (ap_ip_str' : string) (identity_initialized' : bool)
    (c : tollgate_config_t) : tollgate_config_t :=
  let '(mk_config
      networks network_count current_network max_retry nsec _ _ ap_password ap_channel
      ap_max_conn _ _ _ _ mint_url accepted_mints accepted_mint_count lnurl_url price_per_step
      step_size_ms step_size_bytes metric persist_threshold_sats nostr_geohash nostr_relays
      nostr_relay_count nostr_publish_interval_s nostr_sync_interval_s
      nostr_fallback_sync_interval_s _ client_enabled client_steps_to_buy
      client_renewal_threshold_pct client_retry_interval_ms payout cvm_enabled cvm_relays
      wifi_auth_mode display_enabled nostr_seed_relays nostr_seed_relay_count market_enabled
      market_scan_interval_s client_auto_switch sync_enabled wifistr_enabled local_relay_enabled
      mint_health_enabled mining_enabled mining_payout_mode stratum_host stratum_port
      stratum_user stratum_pass stratum_fallback_host stratum_fallback_port mining_port
      hashprice_sats_per_ghs_day mining_sandbox_mint_access proxy_self_test faucet_url
      faucet_poll_interval_s) := c in
  mk_config
    networks network_count current_network max_retry nsec npub' ap_ssid' ap_password ap_channel
    ap_max_conn sta_mac' ap_mac' ap_ip' ap_ip_str' mint_url accepted_mints accepted_mint_count
    lnurl_url price_per_step step_size_ms step_size_bytes metric persist_threshold_sats
    nostr_geohash nostr_relays nostr_relay_count nostr_publish_interval_s nostr_sync_interval_s
    nostr_fallback_sync_interval_s identity_initialized' client_enabled client_steps_to_buy
    client_renewal_threshold_pct client_retry_interval_ms payout cvm_enabled cvm_relays
    wifi_auth_mode display_enabled nostr_seed_relays nostr_seed_relay_count market_enabled
    market_scan_interval_s client_auto_switch sync_enabled wifistr_enabled local_relay_enabled
    mint_health_enabled mining_enabled mining_payout_mode stratum_host stratum_port stratum_user
    stratum_pass stratum_fallback_host stratum_fallback_port mining_port
    hashprice_sats_per_ghs_day mining_sandbox_mint_access proxy_self_test faucet_url
    faucet_poll_interval_s.

(** The terms of sale and the switches that can be set from afar. *)
Definition with_terms
    (price_per_step' : Z) (step_size_ms' : Z) (step_size_bytes' : Z) (metric' : string)
    (client_enabled' : bool) (payout' : payout_config_t)
    (c : tollgate_config_t) : tollgate_config_t :=
  let '(mk_config
      networks network_count current_network max_retry nsec npub ap_ssid ap_password ap_channel
      ap_max_conn sta_mac ap_mac ap_ip ap_ip_str mint_url accepted_mints accepted_mint_count
      lnurl_url _ _ _ _ persist_threshold_sats nostr_geohash nostr_relays nostr_relay_count
      nostr_publish_interval_s nostr_sync_interval_s nostr_fallback_sync_interval_s
      identity_initialized _ client_steps_to_buy client_renewal_threshold_pct
      client_retry_interval_ms _ cvm_enabled cvm_relays wifi_auth_mode display_enabled
      nostr_seed_relays nostr_seed_relay_count market_enabled market_scan_interval_s
      client_auto_switch sync_enabled wifistr_enabled local_relay_enabled mint_health_enabled
      mining_enabled mining_payout_mode stratum_host stratum_port stratum_user stratum_pass
      stratum_fallback_host stratum_fallback_port mining_port hashprice_sats_per_ghs_day
      mining_sandbox_mint_access proxy_self_test faucet_url faucet_poll_interval_s) := c in
  mk_config
    networks network_count current_network max_retry nsec npub ap_ssid ap_password ap_channel
    ap_max_conn sta_mac ap_mac ap_ip ap_ip_str mint_url accepted_mints accepted_mint_count
    lnurl_url price_per_step' step_size_ms' step_size_bytes' metric' persist_threshold_sats
    nostr_geohash nostr_relays nostr_relay_count nostr_publish_interval_s nostr_sync_interval_s
    nostr_fallback_sync_interval_s identity_initialized client_enabled' client_steps_to_buy
    client_renewal_threshold_pct client_retry_interval_ms payout' cvm_enabled cvm_relays
    wifi_auth_mode display_enabled nostr_seed_relays nostr_seed_relay_count market_enabled
    market_scan_interval_s client_auto_switch sync_enabled wifistr_enabled local_relay_enabled
    mint_health_enabled mining_enabled mining_payout_mode stratum_host stratum_port stratum_user
    stratum_pass stratum_fallback_host stratum_fallback_port mining_port
    hashprice_sats_per_ghs_day mining_sandbox_mint_access proxy_self_test faucet_url
    faucet_poll_interval_s.

(** * Reading the file *)

Section read.
Context `{CUndef} `{CJson J}.

(** [if (item) x = item->valueint], and so on; [d] is the value before. *)
Definition opt_int (root : J) (k : string) (d : Z) : Z :=
  match cJSON_GetObjectItem root k with Some j => int_of j | None => d end.
Definition opt_u16 (root : J) (k : string) (d : Z) : Z :=
  match cJSON_GetObjectItem root k with Some j => u16 (int_of j) | None => d end.
Definition opt_u64 (root : J) (k : string) (d : Z) : Z :=
  match cJSON_GetObjectItem root k with Some j => u64_of_f64 (valuedouble j) | None => d end.
(** With the check of the type. *)
Definition opt_bool (root : J) (k : string) (d : bool) : bool :=
  default d (cJSON_GetObjectItem root k ≫= bool_of).
Definition opt_str (n : nat) (root : J) (k d : string) : string :=
  match get_str root k with Some s => strncpy n s | None => d end.
(** Without the check: [None] if the item is no string. *)
Definition raw_str (n : nat) (root : J) (k d : string) : option string :=
  match cJSON_GetObjectItem root k with
  | Some j => strncpy n <$> str_of j
  | None => Some d
  end.

(** The strings of an array, each in the slot of its index; the number of
    strings, whatever their slots. *)
Definition string_slots (max n : nat) (root : J) (k : string) : list string * Z :=
  match get_arr root k with
  | Some arr =>
      let vals := str_of <$> take max (items arr) in
      ((λ v, match v with Some s => strncpy n s | None => ""%string end) <$> vals
         ++ replicate (max - length vals) None,
       Z.of_nat (length (omap id vals)))
  | None => (replicate max ""%string, 0)
  end.

(** One entry of [wifi_networks]; [None] at an entry that lacks a field, [None]
    of the whole if a field is no string. *)
Definition read_network (net : J) : option (option wifi_network_t) :=
  match cJSON_GetObjectItem net "ssid", cJSON_GetObjectItem net "password" with
  | Some ssid, Some pass =>
      s ← str_of ssid; p ← str_of pass; Some (Some (mk_network (strncpy 31 s) (strncpy 63 p)))
  | _, _ => Some None
  end.

Definition read_networks (root : J) : option (list wifi_network_t * Z) :=
  nets ← match get_arr root "wifi_networks" with
         | Some arr => mapM read_network (take TOLLGATE_MAX_WIFI_NETWORKS (items arr))
         | None => Some []
         end;
  let slots := default network_zero <$> nets
                 ++ replicate (TOLLGATE_MAX_WIFI_NETWORKS - length nets) None in
  let count := Z.of_nat (length (omap id nets)) in
  Some
    (if count =? 0 then
       match get_str root "wifi_ssid", get_str root "wifi_password" with
       | Some s, Some p => (<[0%nat := mk_network (strncpy 31 s) (strncpy 63 p)]> slots, 1)
       | _, _ => (slots, 0)
       end
     else (slots, count)).

Definition read_recipient (r : J) : payout_recipient_t :=
  mk_recipient (opt_str 127 r "lightning_address" "") (default f64_zero (get_num r "factor")).
Definition read_payout_mint (m : J) : payout_mint_config_t :=
  let u64_num k := match get_num m k with Some x => u64_of_f64 x | None => 0 end in
  mk_payout_mint (opt_str 255 m "url" "") (u64_num "min_balance"%string)
    (u64_num "min_payout_amount"%string).

(** The entries of an array of the section, with the number of entries. *)
Definition read_slots {A} (read : J → A) (zero : A) (max : nat) (root : J) (k : string)
  : list A * Z :=
  match get_arr root k with
  | Some arr =>
      let vals := read <$> take max (items arr) in
      (vals ++ replicate (max - length vals) zero, Z.of_nat (Nat.min max (cJSON_GetArraySize arr)))
  | None => (replicate max zero, 0)
  end.

Definition read_payout (root : J) (mint_url : string) (d : payout_config_t) : payout_config_t :=
  let p := match cJSON_GetObjectItem root "payout" with
           | Some payout =>
               if cJSON_IsObject payout then
                 let '(recipients, rcount) :=
                   read_slots read_recipient (mk_recipient "" f64_zero) PAYOUT_MAX_RECIPIENTS
                     payout "recipients" in
                 let '(mints, mcount) :=
                   read_slots read_payout_mint (mk_payout_mint "" 0 0) PAYOUT_MAX_MINTS
                     payout "mints" in
                 mk_payout (opt_bool payout "enabled" (po_enabled d)) mints mcount recipients rcount
                   (opt_u64 payout "fee_tolerance_pct" (po_fee_tolerance_pct d))
                   (opt_int payout "check_interval_s" (po_check_interval_s d))
               else d
           | None => d
           end in
  let '(mints, mcount) :=
    if (po_mint_count p =? 0) && negb (str_empty mint_url)
    then (<[0%nat := mk_payout_mint (strncpy 255 mint_url) 64 128]> (po_mints p), 1)
    else (po_mints p, po_mint_count p) in
  let '(recipients, rcount) :=
    if po_recipient_count p =? 0
    then (<[0%nat := mk_recipient "TollGate@coinos.io" (f64_of_Z 1)]> (po_recipients p), 1)
    else (po_recipients p, po_recipient_count p) in
  mk_payout (po_enabled p) mints mcount recipients rcount (po_fee_tolerance_pct p)
    (po_check_interval_s p).

Definition read_payout_mode (mining : J) (d : mining_payout_mode_t) : mining_payout_mode_t :=
  match get_str mining "payout_mode" with
  | Some "pool"%string => MINING_PAYOUT_POOL
  | Some "upstream"%string => MINING_PAYOUT_UPSTREAM
  | Some "proxy_only"%string => MINING_PAYOUT_PROXY_ONLY
  | _ => d
  end.

(** A section that is an object. *)
Definition section_of (root : J) (k : string) : option J :=
  j ← cJSON_GetObjectItem root k; if cJSON_IsObject j then Some j else None.

(** A list of addresses, or the built-in one when none is given. *)
Definition or_builtin (builtin : list string) (slots : list string * Z) : list string * Z :=
  if slots.2 =? 0 then (builtin ++ drop (length builtin) slots.1, Z.of_nat (length builtin)) else slots.

Definition builtin_relays : list string :=
  ["wss://relay.damus.io"; "wss://nos.lol"; "wss://relay.anzenkodo.workers.dev";
   "wss://nostr.koning-degraaf.nl"]%string.
Definition builtin_seeds : list string :=
  ["wss://relay.orangesync.tech"; "wss://relay.damus.io"; "wss://nos.lol"; "wss://relay.nostr.band";
   "wss://relay.anzenkodo.workers.dev"; "wss://nostr.koning-degraaf.nl"; "wss://knostr.neutrine.com";
   "wss://nostr.einundzwanzig.space"]%string.

Definition load_config (root : J) : option (esp_err_t * tollgate_config_t) :=
  let d := config_defaults in
  match get_str root "nsec" with
  | None => Some (ESP_FAIL, d)
  | Some nsec =>
      '(networks, network_count) ← read_networks root;
      ap_password ← raw_str 63 root "ap_password" (cf_ap_password d);
      mint_url ← raw_str 255 root "mint_url" (cf_mint_url d);
      let '(mints, mint_count) := string_slots TOLLGATE_MAX_MINT_URLS 255 root "accepted_mints" in
      lnurl_url ← raw_str 255 root "lnurl_url" (cf_lnurl_url d);
      geohash ← raw_str 15 root "nostr_geohash" "u281w0dfz";
      let '(relays, relay_count) :=
        or_builtin builtin_relays (string_slots TOLLGATE_MAX_RELAYS 127 root "nostr_relays") in
      let '(seeds, seed_count) :=
        or_builtin builtin_seeds (string_slots TOLLGATE_MAX_SEED_RELAYS 127 root "nostr_seed_relays") in
      let cvm {A} (f : J → A) (x : A) := match section_of root "cvm" with Some c => f c | None => x end in
      let mining {A} (f : J → A) (x : A) :=
        match section_of root "mining" with Some m => f m | None => x end in
      let '(mints, mint_count) :=
        if (mint_count =? 0) && negb (str_empty mint_url)
        then (<[0%nat := strncpy 255 mint_url]> mints, 1) else (mints, mint_count) in
      Some (ESP_OK, {|
        cf_networks := networks; cf_network_count := network_count;
        cf_current_network := cf_current_network d; cf_max_retry := cf_max_retry d;
        cf_nsec := strncpy 64 nsec; cf_npub := cf_npub d; cf_ap_ssid := cf_ap_ssid d;
        cf_ap_password := ap_password;
        cf_ap_channel := cf_ap_channel d; cf_ap_max_conn := cf_ap_max_conn d;
        cf_sta_mac := cf_sta_mac d; cf_ap_mac := cf_ap_mac d;
        cf_ap_ip := cf_ap_ip d; cf_ap_ip_str := cf_ap_ip_str d;
        cf_mint_url := mint_url; cf_accepted_mints := mints; cf_accepted_mint_count := mint_count;
        cf_lnurl_url := lnurl_url;
        cf_price_per_step := opt_int root "price_per_step" (cf_price_per_step d);
        cf_step_size_ms := opt_int root "step_size_ms" (cf_step_size_ms d);
        cf_step_size_bytes := opt_int root "step_size_bytes" (cf_step_size_bytes d);
        cf_metric := opt_str 15 root "metric" (cf_metric d);
        cf_persist_threshold_sats := opt_u64 root "persist_threshold_sats" (cf_persist_threshold_sats d);
        cf_nostr_geohash := geohash; cf_nostr_relays := relays; cf_nostr_relay_count := relay_count;
        cf_nostr_publish_interval_s :=
          opt_int root "nostr_publish_interval_s" (cf_nostr_publish_interval_s d);
        cf_nostr_sync_interval_s := opt_int root "nostr_sync_interval_s" (cf_nostr_sync_interval_s d);
        cf_nostr_fallback_sync_interval_s :=
          opt_int root "nostr_fallback_sync_interval_s" (cf_nostr_fallback_sync_interval_s d);
        cf_identity_initialized := cf_identity_initialized d;
        cf_client_enabled := opt_bool root "client_enabled" (cf_client_enabled d);
        cf_client_steps_to_buy := opt_int root "client_steps_to_buy" (cf_client_steps_to_buy d);
        cf_client_renewal_threshold_pct :=
          opt_int root "client_renewal_threshold_pct" (cf_client_renewal_threshold_pct d);
        cf_client_retry_interval_ms :=
          opt_int root "client_retry_interval_ms" (cf_client_retry_interval_ms d);
        cf_payout := read_payout root mint_url (cf_payout d);
        cf_cvm_enabled := opt_bool root "cvm_enabled"
          (cvm (λ c, opt_bool c "enabled" (cf_cvm_enabled d)) (cf_cvm_enabled d));
        cf_cvm_relays := cvm (λ c, opt_str 255 c "relays" (cf_cvm_relays d)) (cf_cvm_relays d);
        cf_wifi_auth_mode := opt_str 15 root "wifi_auth_mode" (cf_wifi_auth_mode d);
        cf_display_enabled := opt_bool root "display_enabled" (cf_display_enabled d);
        cf_nostr_seed_relays := seeds; cf_nostr_seed_relay_count := seed_count;
        cf_market_enabled := opt_bool root "market_enabled" (cf_market_enabled d);
        cf_market_scan_interval_s := opt_int root "market_scan_interval_s" (cf_market_scan_interval_s d);
        cf_client_auto_switch := opt_bool root "client_auto_switch" (cf_client_auto_switch d);
        cf_sync_enabled := opt_bool root "sync_enabled" (cf_sync_enabled d);
        cf_wifistr_enabled := opt_bool root "wifistr_enabled" (cf_wifistr_enabled d);
        cf_local_relay_enabled := opt_bool root "local_relay_enabled" (cf_local_relay_enabled d);
        cf_mint_health_enabled := opt_bool root "mint_health_enabled" (cf_mint_health_enabled d);
        cf_mining_enabled := mining (λ m, opt_bool m "enabled" (cf_mining_enabled d)) (cf_mining_enabled d);
        cf_mining_payout_mode :=
          mining (λ m, read_payout_mode m (cf_mining_payout_mode d)) (cf_mining_payout_mode d);
        cf_stratum_host := mining (λ m, opt_str 127 m "stratum_host" "") (cf_stratum_host d);
        cf_stratum_port := mining (λ m, opt_u16 m "stratum_port" (cf_stratum_port d)) (cf_stratum_port d);
        cf_stratum_user := mining (λ m, opt_str 127 m "stratum_user" "") (cf_stratum_user d);
        cf_stratum_pass := mining (λ m, opt_str 63 m "stratum_pass" "") (cf_stratum_pass d);
        cf_stratum_fallback_host :=
          mining (λ m, opt_str 127 m "stratum_fallback_host" "") (cf_stratum_fallback_host d);
        cf_stratum_fallback_port :=
          mining (λ m, opt_u16 m "stratum_fallback_port" 0) (cf_stratum_fallback_port d);
        cf_mining_port := mining (λ m, opt_u16 m "mining_port" (cf_mining_port d)) (cf_mining_port d);
        cf_hashprice_sats_per_ghs_day :=
          mining (λ m, opt_u64 m "hashprice_sats_per_ghs_day" 0) (cf_hashprice_sats_per_ghs_day d);
        cf_mining_sandbox_mint_access :=
          mining (λ m, opt_bool m "sandbox_mint_access" false) (cf_mining_sandbox_mint_access d);
        cf_proxy_self_test :=
          mining (λ m, opt_bool m "proxy_self_test" (cf_proxy_self_test d)) (cf_proxy_self_test d);
        cf_faucet_url := mining (λ m, opt_str 255 m "faucet_url" "") (cf_faucet_url d);
        cf_faucet_poll_interval_s :=
          mining (λ m, opt_int m "faucet_poll_interval_s" (cf_faucet_poll_interval_s d))
            (cf_faucet_poll_interval_s d)
      |})
  end.

(** The file written when there is none. *)
Definition default_json : string :=
  ("{" +:+ dq "nsec" +:+ ":" +:+ dq "a1b2c3d4e5f6a1b2c3d4e5f6a1b2c3d4e5f6a1b2c3d4e5f6a1b2c3d4e5f6a1b2" +:+ ","
   +:+ dq "wifi_networks" +:+ ":[{" +:+ dq "ssid" +:+ ":" +:+ dq "c03rad0r" +:+ ","
   +:+ dq "password" +:+ ":" +:+ dq "c03rad0r123" +:+ "}]," +:+ dq "ap_password" +:+ ":" +:+ dq "" +:+ ","
   +:+ dq "mint_url" +:+ ":" +:+ dq "https://testnut.cashu.exchange" +:+ ","
   +:+ dq "accepted_mints" +:+ ":[" +:+ dq "https://testnut.cashu.exchange" +:+ "],"
   +:+ dq "price_per_step" +:+ ":21," +:+ dq "step_size_ms" +:+ ":60000,"
   +:+ dq "nostr_geohash" +:+ ":" +:+ dq "u281w0dfz" +:+ ","
   +:+ dq "nostr_relays" +:+ ":[" +:+ dq "wss://relay.damus.io" +:+ "," +:+ dq "wss://nos.lol" +:+ "],"
   +:+ dq "nostr_publish_interval_s" +:+ ":21600," +:+ dq "nostr_sync_interval_s" +:+ ":1800,"
   +:+ dq "nostr_fallback_sync_interval_s" +:+ ":21600," +:+ dq "client_enabled" +:+ ":false,"
   +:+ dq "client_steps_to_buy" +:+ ":1," +:+ dq "client_renewal_threshold_pct" +:+ ":20,"
   +:+ dq "client_retry_interval_ms" +:+ ":30000}")%string.

(** [file]: what config.json holds, if it exists; [writable]: a new one can be
    written and read. *)
Definition tollgate_config_init (mounted : bool) (file : option string) (writable : bool)
  : option (esp_err_t * tollgate_config_t) :=
  if negb mounted then Some (ESP_FAIL, config_defaults) else
  match match file with Some t => Some t | None => if writable then Some default_json else None end with
  | None => Some (ESP_FAIL, config_defaults)
  | Some text =>
      match cJSON_Parse text with
      | None => Some (ESP_FAIL, config_defaults)
      | Some root => load_config root
      end
  end.
End read.

(** * Wi-Fi networks *)

Inductive wifi_auth_mode_t := WIFI_AUTH_OPEN | WIFI_AUTH_WPA2_PSK | WIFI_AUTH_WPA3_PSK.

(** The station's settings: network, password, threshold. *)
Record sta_config := mk_sta { st_ssid : string; st_password : string; st_authmode : wifi_auth_mode_t }.

Definition tollgate_config_get_wifi (c : tollgate_config_t) : option sta_config :=
  if cf_network_count c =? 0 then None else
  let idx := Z.rem (cf_current_network c) (cf_network_count c) in
  let net := default network_zero (cf_networks c !! Z.to_nat idx) in
  Some (mk_sta (strncpy 31 (nw_ssid net)) (strncpy 63 (nw_password net))
          (if str_empty (nw_password net) then WIFI_AUTH_OPEN
           else match strstr "WPA3" (cf_wifi_auth_mode c) with
                | Some _ => WIFI_AUTH_WPA3_PSK
                | None => WIFI_AUTH_WPA2_PSK
                end)).

Definition tollgate_config_get_next_wifi (c : tollgate_config_t)
  : option sta_config * tollgate_config_t :=
  if cf_network_count c =? 0 then (None, c) else
  let c1 := with_networks (cf_networks c) (cf_network_count c)
              (Z.rem (i32 (cf_current_network c + 1)) (cf_network_count c)) c in
  (tollgate_config_get_wifi c1, c1).

(** The file [tollgate_config_add_wifi] writes. *)
Definition saved_config (c : tollgate_config_t) : jval :=
  JObj ([("nsec"%string, JStr (cf_nsec c));
         ("wifi_networks"%string,
          JArr ((λ n, JObj [("ssid"%string, JStr (nw_ssid n)); ("password"%string, JStr (nw_password n))])
                  <$> take (Z.to_nat (cf_network_count c)) (cf_networks c)))]
        ++ (if str_empty (cf_ap_password c) then [] else [("ap_password"%string, JStr (cf_ap_password c))])
        ++ [("mint_url"%string, JStr (cf_mint_url c));
            ("price_per_step"%string, JInt (cf_price_per_step c));
            ("step_size_ms"%string, JInt (cf_step_size_ms c))]
        ++ (if str_empty (cf_metric c) then [] else [("metric"%string, JStr (cf_metric c))])
        ++ (if str_empty (cf_nostr_geohash c) then []
            else [("nostr_geohash"%string, JStr (cf_nostr_geohash c))])
        ++ [("nostr_relays"%string,
             JArr (JStr <$> take (Z.to_nat (cf_nostr_relay_count c)) (cf_nostr_relays c)))]).

(** The result, the configuration, and the tree written to config.json.  A
    missing argument is [None]. *)
Definition tollgate_config_add_wifi (ssid password : option string) (c : tollgate_config_t)
  : esp_err_t * tollgate_config_t * option jval :=
  match ssid, password with
  | Some s, Some p =>
      if Z.of_nat TOLLGATE_MAX_WIFI_NETWORKS <=? cf_network_count c then (ESP_ERR_NO_MEM, c, None) else
      let c1 := with_networks
                  (<[Z.to_nat (cf_network_count c) := mk_network (strncpy 31 s) (strncpy 63 p)]>
                     (cf_networks c))
                  (cf_network_count c + 1) (cf_current_network c) c in
      (ESP_OK, c1, Some (saved_config c1))
  | _, _ => (ESP_ERR_INVALID_ARG, c, None)
  end.

(** * The structure keeps its shape *)

Definition fits (n : nat) (s : string) : Prop := (String.length s ≤ n)%nat.
Definition network_fits (n : wifi_network_t) : Prop := fits 31 (nw_ssid n) ∧ fits 63 (nw_password n).

Definition payout_wf (p : payout_config_t) : Prop :=
  length (po_mints p) = PAYOUT_MAX_MINTS ∧ 0 <= po_mint_count p <= Z.of_nat PAYOUT_MAX_MINTS ∧
  Forall (λ m, fits 255 (pm_url m) ∧ is_u64 (pm_min_balance m) ∧ is_u64 (pm_min_payout_amount m)) (po_mints p) ∧
  length (po_recipients p) = PAYOUT_MAX_RECIPIENTS ∧
  0 <= po_recipient_count p <= Z.of_nat PAYOUT_MAX_RECIPIENTS ∧
  Forall (λ r, fits 127 (pr_address r)) (po_recipients p) ∧ is_u64 (po_fee_tolerance_pct p).

Definition slots_wf (max n : nat) (l : list string) (count : Z) : Prop :=
  length l = max ∧ Forall (fits n) l ∧ 0 <= count <= Z.of_nat max.

(** Every array has its length, every count is within its array, every string
    fits its buffer and every number its type. *)
Record config_wf (c : tollgate_config_t) : Prop := {
  wf_networks : length (cf_networks c) = TOLLGATE_MAX_WIFI_NETWORKS ∧
                Forall network_fits (cf_networks c);
  wf_network_count : 0 <= cf_network_count c <= Z.of_nat TOLLGATE_MAX_WIFI_NETWORKS;
  wf_current : 0 <= cf_current_network c < Z.max 1 (cf_network_count c);
  wf_nsec : fits 64 (cf_nsec c);
  wf_identity : fits 64 (cf_npub c) ∧ fits 31 (cf_ap_ssid c) ∧ fits 15 (cf_ap_ip_str c) ∧
                length (cf_sta_mac c) = 6%nat ∧ length (cf_ap_mac c) = 6%nat;
  wf_ap_password : fits 63 (cf_ap_password c);
  wf_mint_url : fits 255 (cf_mint_url c);
  wf_mints : slots_wf TOLLGATE_MAX_MINT_URLS 255 (cf_accepted_mints c) (cf_accepted_mint_count c);
  wf_lnurl : fits 255 (cf_lnurl_url c);
  wf_metric : fits 15 (cf_metric c);
  wf_persist : is_u64 (cf_persist_threshold_sats c);
  wf_geohash : fits 15 (cf_nostr_geohash c);
  wf_relays : slots_wf TOLLGATE_MAX_RELAYS 127 (cf_nostr_relays c) (cf_nostr_relay_count c) ∧
              1 <= cf_nostr_relay_count c;
  wf_seeds : slots_wf TOLLGATE_MAX_SEED_RELAYS 127 (cf_nostr_seed_relays c) (cf_nostr_seed_relay_count c);
  wf_payout : payout_wf (cf_payout c);
  wf_cvm : fits 255 (cf_cvm_relays c);
  wf_auth : fits 15 (cf_wifi_auth_mode c);
  wf_stratum : fits 127 (cf_stratum_host c) ∧ fits 127 (cf_stratum_user c) ∧
               fits 63 (cf_stratum_pass c) ∧ fits 127 (cf_stratum_fallback_host c);
  wf_ports : is_u16 (cf_stratum_port c) ∧ is_u16 (cf_stratum_fallback_port c) ∧ is_u16 (cf_mining_port c);
  wf_hashprice : is_u64 (cf_hashprice_sats_per_ghs_day c);
  wf_faucet : fits 255 (cf_faucet_url c)
}.

Lemma strncpy_fits n s : fits n (strncpy n s).
Proof. apply strncpy_length. Qed.
#[export] Hint Resolve strncpy_fits : tg_db.

Lemma Forall_slots {A} (P : A → Prop) (l : list A) z n :
  Forall P l → P z → Forall P (l ++ replicate n z).
Proof. intros. apply Forall_app. split; [done|by apply Forall_replicate]. Qed.

Lemma length_slots {A} (l : list A) z max :
  (length l ≤ max)%nat → length (l ++ replicate (max - length l) z) = max.
Proof. intros. rewrite length_app, length_replicate. lia. Qed.

Lemma omap_id_count {A} (l : list (option A)) max :
  (length l ≤ max)%nat → 0 <= Z.of_nat (length (omap id l)) <= Z.of_nat max.
Proof.
  intros Hl. assert (length (omap id l) ≤ length l)%nat; [|lia]. clear Hl.
  induction l as [|[x|] l IH]; cbn [omap list_omap id length]; lia.
Qed.

Lemma fits_closed n s : (String.length s <=? n)%nat = true → fits n s.
Proof. apply Nat.leb_le. Qed.

(** Fields that a section of the file may set. *)
Ltac section_cases := repeat match goal with |- context [section_of ?r ?k] => destruct (section_of r k) end.

Section wf.
Context `{CUndef} `{CJson J}.

Lemma opt_str_fits n root k d : fits n d → fits n (opt_str n root k d).
Proof. unfold opt_str. case_match; auto with tg_db. Qed.

Lemma raw_str_fits n root k d s : fits n d → raw_str n root k d = Some s → fits n s.
Proof.
  unfold raw_str. destruct (cJSON_GetObjectItem root k) as [j|]; [|by intros ? [= <-]].
  destruct (str_of j); [|done]. intros _ [= <-]. auto with tg_db.
Qed.

Lemma opt_u16_range root k d : is_u16 d → is_u16 (opt_u16 root k d).
Proof. unfold opt_u16. case_match; auto with tg_db. Qed.

Lemma opt_u64_range root k d : is_u64 d → is_u64 (opt_u64 root k d).
Proof. unfold opt_u64. case_match; auto with tg_db. Qed.

Lemma string_slots_wf max n root k :
  let '(l, c) := string_slots max n root k in slots_wf max n l c.
Proof.
  unfold string_slots. destruct (get_arr root k) as [arr|].
  2: { split_and!; [by rewrite length_replicate|apply Forall_replicate; unfold fits; cbn; lia|lia|lia]. }
  set (vals := str_of <$> _).
  assert (length vals ≤ max)%nat as Hl by (unfold vals; rewrite length_fmap, length_take; lia).
  pose proof (omap_id_count vals max Hl). split_and!; [|apply Forall_fmap|lia|lia].
  - by rewrite length_fmap, length_slots.
  - apply Forall_true. intros [s|]; cbn; [apply strncpy_fits|unfold fits; cbn; lia].
Qed.

Lemma or_builtin_wf max n builtin slots :
  slots_wf max n slots.1 slots.2 → (0 < length builtin ≤ max)%nat → Forall (fits n) builtin →
  slots_wf max n (or_builtin builtin slots).1 (or_builtin builtin slots).2 ∧
  1 <= (or_builtin builtin slots).2.
Proof.
  intros (Hl & Hf & Hc) Hb Hbf. unfold or_builtin, slots_wf. case_if; bool_hyps; cbn [fst snd].
  - rewrite length_app, length_drop, Hl. split_and!; try lia. apply Forall_app.
    split; [done|by apply Forall_drop].
  - split_and!; (done || lia).
Qed.

Lemma read_networks_wf root l c :
  read_networks root = Some (l, c) →
  length l = TOLLGATE_MAX_WIFI_NETWORKS ∧ Forall network_fits l ∧
  0 <= c <= Z.of_nat TOLLGATE_MAX_WIFI_NETWORKS.
Proof.
  unfold read_networks. intros Hr.
  assert (∀ net o, read_network net = Some o → network_fits (default network_zero o)) as Hnet.
  { intros net o. unfold read_network. destruct (cJSON_GetObjectItem net "ssid") as [a|].
    2: { intros [= <-]. unfold network_fits, fits. cbn. lia. }
    destruct (cJSON_GetObjectItem net "password") as [b|].
    2: { intros [= <-]. unfold network_fits, fits. cbn. lia. }
    destruct (str_of a), (str_of b); try done. intros [= <-]. split; apply strncpy_fits. }
  apply bind_Some in Hr as (nets & Hnets & Hr). cbv zeta in Hr.
  assert ((length nets ≤ TOLLGATE_MAX_WIFI_NETWORKS)%nat ∧
          Forall (λ o, network_fits (default network_zero o)) nets) as [Hl Hf].
  { destruct (get_arr root "wifi_networks") as [arr|]; [|injection Hnets as <-; split; [cbn; lia|constructor]].
    pose proof (length_mapM _ _ _ Hnets) as Hlen. rewrite length_take in Hlen. split; [lia|].
    apply mapM_Some in Hnets. clear -Hnets Hnet. induction Hnets; constructor; eauto. }
  pose proof (omap_id_count nets _ Hl) as Hcount.
  set (slots := default network_zero <$> _) in Hr.
  assert (length slots = TOLLGATE_MAX_WIFI_NETWORKS ∧ Forall network_fits slots) as [Hsl Hsf].
  { unfold slots. rewrite length_fmap, length_slots by done. split; [done|].
    apply Forall_fmap, Forall_slots; [done|]. unfold network_fits, fits. cbn. lia. }
  destruct (_ =? 0) in Hr.
  - destruct (get_str root "wifi_ssid"), (get_str root "wifi_password"); injection Hr as <- <-;
      rewrite ?length_insert; split_and!; try done; try (unfold TOLLGATE_MAX_WIFI_NETWORKS; lia).
    apply Forall_insert; [done|]. split; apply strncpy_fits.
  - injection Hr as <- <-. split_and!; (done || lia).
Qed.

Lemma read_slots_wf {A} (read : J → A) (P : A → Prop) zero max root k :
  (∀ j, P (read j)) → P zero →
  let '(l, c) := read_slots read zero max root k in
  length l = max ∧ Forall P l ∧ 0 <= c <= Z.of_nat max.
Proof.
  intros Hread Hz. unfold read_slots. destruct (get_arr root k) as [arr|].
  - set (vals := read <$> _).
    assert (length vals ≤ max)%nat by (unfold vals; rewrite length_fmap, length_take; lia).
    split_and!; [by apply length_slots| |lia|lia]. apply Forall_slots; [|done].
    apply Forall_fmap, Forall_true. done.
  - rewrite length_replicate. split_and!; [done|by apply Forall_replicate|lia|lia].
Qed.

Lemma read_payout_wf root url d :
  po_mints d = replicate PAYOUT_MAX_MINTS (mk_payout_mint "" 0 0) → po_mint_count d = 0 →
  po_recipients d = replicate PAYOUT_MAX_RECIPIENTS (mk_recipient "" f64_zero) →
  po_recipient_count d = 0 → is_u64 (po_fee_tolerance_pct d) →
  payout_wf (read_payout root url d).
Proof.
  intros Hm Hmc Hr Hrc Hfee. unfold read_payout.
  set (Pm := λ m, fits 255 (pm_url m) ∧ is_u64 (pm_min_balance m) ∧ is_u64 (pm_min_payout_amount m)).
  set (Pr := λ r, fits 127 (pr_address r)).
  assert (Pm (mk_payout_mint "" 0 0)) as Hmz by (unfold Pm, fits, is_u64; cbn; pow_consts; lia).
  assert (Pr (mk_recipient "" f64_zero)) as Hrz by (unfold Pr, fits; cbn; lia).
  set (p := match cJSON_GetObjectItem root "payout" with Some _ => _ | None => d end).
  assert (length (po_mints p) = PAYOUT_MAX_MINTS ∧ Forall Pm (po_mints p) ∧
          0 <= po_mint_count p <= Z.of_nat PAYOUT_MAX_MINTS ∧
          length (po_recipients p) = PAYOUT_MAX_RECIPIENTS ∧ Forall Pr (po_recipients p) ∧
          0 <= po_recipient_count p <= Z.of_nat PAYOUT_MAX_RECIPIENTS ∧
          is_u64 (po_fee_tolerance_pct p)) as (H1 & H2 & H3 & H4 & H5 & H6 & H7).
  { assert (length (po_mints d) = PAYOUT_MAX_MINTS ∧ Forall Pm (po_mints d) ∧
          0 <= po_mint_count d <= Z.of_nat PAYOUT_MAX_MINTS ∧
          length (po_recipients d) = PAYOUT_MAX_RECIPIENTS ∧ Forall Pr (po_recipients d) ∧
          0 <= po_recipient_count d <= Z.of_nat PAYOUT_MAX_RECIPIENTS ∧
          is_u64 (po_fee_tolerance_pct d)) as Hd.
    { rewrite Hm, Hmc, Hr, Hrc, !length_replicate.
      split_and!; try done; try lia; by apply Forall_replicate. }
    unfold p. destruct (cJSON_GetObjectItem root "payout") as [pay|]; [|done].
    destruct (cJSON_IsObject pay); [|done].
    pose proof (read_slots_wf read_recipient Pr (mk_recipient "" f64_zero) PAYOUT_MAX_RECIPIENTS
                  pay "recipients") as Hrs.
    pose proof (read_slots_wf read_payout_mint Pm (mk_payout_mint "" 0 0) PAYOUT_MAX_MINTS
                  pay "mints") as Hms.
    destruct (read_slots read_recipient _ _ _ _) as [rl rc], (read_slots read_payout_mint _ _ _ _) as [ml mc].
    cbn [po_mints po_mint_count po_recipients po_recipient_count po_fee_tolerance_pct].
    destruct Hrs as (? & ? & ?); [|done|].
    { intros j. unfold Pr, read_recipient. cbn. apply opt_str_fits. unfold fits. cbn. lia. }
    destruct Hms as (? & ? & ?); [|done|].
    { intros j. unfold Pm, read_payout_mint. cbn. split_and!; [apply opt_str_fits; unfold fits; cbn; lia|..];
        case_match; auto with tg_db; unfold is_u64; pow_consts; lia. }
    split_and!; try done; try lia. by apply opt_u64_range. }
  clearbody p. unfold payout_wf.
  destruct ((po_mint_count p =? 0) && _); destruct (po_recipient_count p =? 0) eqn:Hrc0; bool_hyps;
    cbn [po_mints po_mint_count po_recipients po_recipient_count po_fee_tolerance_pct];
    rewrite ?length_insert; split_and!; try done; try lia;
    try (unfold PAYOUT_MAX_MINTS, PAYOUT_MAX_RECIPIENTS; lia).
  all: apply Forall_insert; try done.
  all: try (unfold fits; cbn; lia).
  all: split_and!; [apply strncpy_fits|unfold is_u64; cbn; pow_consts; lia..].
Qed.

Lemma load_config_wf root c : load_config root = Some (ESP_OK, c) → config_wf c.
Proof.
  unfold load_config. cbv zeta. destruct (get_str root "nsec") as [nsec|]; [|done]. intros Hc.
  apply bind_Some in Hc as ([nets count] & Hnets & Hc).
  apply bind_Some in Hc as (ap & Hap & Hc). apply bind_Some in Hc as (url & Hurl & Hc).
  pose proof (string_slots_wf TOLLGATE_MAX_MINT_URLS 255 root "accepted_mints") as Hmints.
  destruct (string_slots TOLLGATE_MAX_MINT_URLS 255 root "accepted_mints") as [mints mcount].
  apply bind_Some in Hc as (lnurl & Hln & Hc). apply bind_Some in Hc as (geo & Hgeo & Hc).
  pose proof (or_builtin_wf TOLLGATE_MAX_RELAYS 127 builtin_relays
                (string_slots TOLLGATE_MAX_RELAYS 127 root "nostr_relays")) as Hrel.
  pose proof (string_slots_wf TOLLGATE_MAX_RELAYS 127 root "nostr_relays") as Hrs.
  pose proof (or_builtin_wf TOLLGATE_MAX_SEED_RELAYS 127 builtin_seeds
                (string_slots TOLLGATE_MAX_SEED_RELAYS 127 root "nostr_seed_relays")) as Hseed.
  pose proof (string_slots_wf TOLLGATE_MAX_SEED_RELAYS 127 root "nostr_seed_relays") as Hss.
  destruct (string_slots TOLLGATE_MAX_RELAYS _ _ _) as [rl rc], (string_slots TOLLGATE_MAX_SEED_RELAYS _ _ _) as [sl sc].
  destruct (or_builtin builtin_relays _) as [relays rcount], (or_builtin builtin_seeds _) as [seeds scount].
  specialize (Hrel Hrs ltac:(vm_compute; lia) ltac:(repeat constructor; unfold fits; vm_compute; lia)).
  specialize (Hseed Hss ltac:(vm_compute; lia) ltac:(repeat constructor; unfold fits; vm_compute; lia)).
  set (mm := if (mcount =? 0) && _ then _ else _) in Hc.
  assert (slots_wf TOLLGATE_MAX_MINT_URLS 255 mm.1 mm.2) as Hmm.
  { unfold mm. destruct Hmints as (Hl & Hf & Hn). case_if; [|done]. unfold slots_wf. cbn [fst snd].
    rewrite length_insert. split_and!; [done| |lia|unfold TOLLGATE_MAX_MINT_URLS; lia].
    apply Forall_insert; [done|apply strncpy_fits]. }
  clearbody mm. destruct mm as [ml mc]. apply Some_inj in Hc. injection Hc as <-.
  apply read_networks_wf in Hnets as (Hn1 & Hn2 & Hn3).
  apply raw_str_fits in Hap; [|unfold fits; cbn; lia]. apply raw_str_fits in Hurl; [|unfold fits; cbn; lia].
  apply raw_str_fits in Hln; [|unfold fits; cbn; lia]. apply raw_str_fits in Hgeo; [|unfold fits; cbn; lia].
  split; cbn -[fits config_defaults is_u16 is_u64]; try done.
  - lia.
  - apply strncpy_fits.
  - unfold fits; cbn; split_and!; (done || lia).
  - by apply opt_str_fits, fits_closed.
  - apply opt_u64_range. unfold is_u64. pow_consts. lia.
  - apply Hseed.
  - apply read_payout_wf; try done.
  - section_cases; try apply opt_str_fits; by apply fits_closed.
  - by apply opt_str_fits, fits_closed.
  - split_and!; section_cases; try apply opt_str_fits; by apply fits_closed.
  - split_and!; section_cases; try apply opt_u16_range; unfold is_u16; pow_consts; lia.
  - section_cases; try apply opt_u64_range; unfold is_u64; pow_consts; lia.
  - section_cases; try apply opt_str_fits; by apply fits_closed.
Qed.
End wf.

(** * What the operations keep *)

Lemma get_next_wifi_wf c : config_wf c → config_wf (tollgate_config_get_next_wifi c).2.
Proof.
  intros Hc. unfold tollgate_config_get_next_wifi. destruct (cf_network_count c =? 0) eqn:Hn; [done|].
  bool_hyps. pose proof (wf_network_count c Hc). pose proof (wf_current c Hc) as Hcur. cbn [snd].
  destruct c; destruct Hc; split; cbn in *; try done.
  rewrite i32_small by (unfold TOLLGATE_MAX_WIFI_NETWORKS in *; pow_consts; lia).
  pose proof (Z.rem_bound_pos (cf_current_network0 + 1) cf_network_count0). lia.
Qed.

Lemma add_wifi_wf ssid pass c : config_wf c → config_wf (tollgate_config_add_wifi ssid pass c).1.2.
Proof.
  intros Hc. unfold tollgate_config_add_wifi. destruct ssid as [s|], pass as [p|]; try done.
  case_if; [done|]. bool_hyps. cbn [fst snd]. destruct c; destruct Hc; split; cbn in *; try done; try lia.
  destruct wf_networks0 as [Hl Hf]. rewrite length_insert. split; [done|].
  apply Forall_insert; [done|]. split; apply strncpy_fits.
Qed.

(** Changes of the terms that respect the buffers. *)
Lemma with_terms_wf price ms bytes metric client payout c :
  config_wf c → fits 15 metric → payout_wf payout →
  config_wf (with_terms price ms bytes metric client payout c).
Proof. intros Hc Hm Hp. destruct c; destruct Hc; by split. Qed.

(** * Saving and loading *)

Lemma strncpy_id n s : fits n s → strncpy n s = s.
Proof. apply strncpy_short. Qed.

Section reload.
Context `{CUndef} (parse : string → option jval).
#[local] Instance J_saved : CJson jval := tree_json parse.

Lemma string_slots_saved (max n : nat) root k l :
  get_arr root k = Some (JArr (JStr <$> l)) → (length l ≤ max)%nat → Forall (fits n) l →
  string_slots max n root k = (l ++ replicate (max - length l) ""%string, Z.of_nat (length l)).
Proof.
  intros Hk Hl Hf. unfold string_slots. rewrite Hk, (items_tree parse).
  rewrite take_ge by (by rewrite length_fmap). cbv zeta.
  rewrite <- list_fmap_compose, !length_fmap.
  assert (∀ l0 : list string, str_of ∘ JStr <$> l0 = Some <$> l0) as Hs
    by (intros; by apply list_fmap_ext).
  rewrite Hs, fmap_app, <- list_fmap_compose, fmap_replicate. f_equal; [f_equal|f_equal].
  - rewrite <- (list_fmap_id l) at 2. apply list_fmap_ext. intros i s Hi. cbn.
    apply strncpy_id. by apply (Forall_lookup_1 _ _ _ _ Hf Hi).
  - clear. induction l as [|s l IH]; [done|]. cbn. by rewrite IH.
Qed.

Definition saved_network (n : wifi_network_t) : jval :=
  JObj [("ssid"%string, JStr (nw_ssid n)); ("password"%string, JStr (nw_password n))].

Lemma read_networks_saved root l :
  get_arr root "wifi_networks" = Some (JArr (saved_network <$> l)) →
  (0 < length l ≤ TOLLGATE_MAX_WIFI_NETWORKS)%nat → Forall network_fits l →
  read_networks root =
  Some (l ++ replicate (TOLLGATE_MAX_WIFI_NETWORKS - length l) network_zero, Z.of_nat (length l)).
Proof.
  intros Hk Hl Hf. unfold read_networks. rewrite Hk, (items_tree parse).
  rewrite take_ge by (rewrite length_fmap; lia).
  assert (mapM read_network (saved_network <$> l) = Some (Some <$> l)) as ->.
  { clear Hk Hl. induction Hf as [|n l [Hs Hp] _ IH]; [done|]. cbn [fmap list_fmap mapM].
    assert (read_network (saved_network n) = Some (Some n)) as ->.
    { unfold read_network, saved_network. json_items. cbn. by rewrite !strncpy_id by done; destruct n. }
    cbn [mbind option_bind]. by rewrite IH. }
  cbn [mbind option_bind]. cbv zeta. rewrite length_fmap.
  assert (length (omap id (Some <$> l)) = length l) as Hc.
  { clear. induction l as [|n l IH]; [done|]. cbn. by rewrite IH. }
  rewrite Hc. rewrite (proj2 (Z.eqb_neq _ 0)) by lia.
  rewrite fmap_app, <- list_fmap_compose, fmap_replicate. do 3 f_equal.
  rewrite <- (list_fmap_id l) at 2. by apply list_fmap_ext.
Qed.

Definition saved_keys : list string :=
  ["nsec"; "wifi_networks"; "ap_password"; "mint_url"; "price_per_step"; "step_size_ms"; "metric";
   "nostr_geohash"; "nostr_relays"]%string.

Lemma saved_config_absent c k : k ∉ saved_keys → cJSON_GetObjectItem (saved_config c) k = None.
Proof.
  unfold saved_keys. rewrite !not_elem_of_cons. intros (H1 & H2 & H3 & H4 & H5 & H6 & H7 & H8 & H9 & _).
  unfold saved_config. cbn [cJSON_GetObjectItem J_saved tree_json].
  destruct (str_empty (cf_ap_password c)), (str_empty (cf_metric c)), (str_empty (cf_nostr_geohash c));
    cbn [app find_slot fst]; by rewrite !bool_decide_eq_false_2 by done.
Qed.

(** What the reader finds in a saved file. *)
Lemma saved_config_fields c :
  config_wf c → str_empty (cf_metric c) = false → str_empty (cf_nostr_geohash c) = false →
  let root := saved_config c in
  get_str root "nsec" = Some (cf_nsec c) ∧
  get_arr root "wifi_networks" =
    Some (JArr (saved_network <$> take (Z.to_nat (cf_network_count c)) (cf_networks c))) ∧
  raw_str 63 root "ap_password" "" = Some (cf_ap_password c) ∧
  raw_str 255 root "mint_url" "" = Some (cf_mint_url c) ∧
  cJSON_GetObjectItem root "price_per_step" = Some (JInt (cf_price_per_step c)) ∧
  cJSON_GetObjectItem root "step_size_ms" = Some (JInt (cf_step_size_ms c)) ∧
  opt_str 15 root "metric" "milliseconds" = cf_metric c ∧
  raw_str 15 root "nostr_geohash" "u281w0dfz" = Some (cf_nostr_geohash c) ∧
  get_arr root "nostr_relays" =
    Some (JArr (JStr <$> take (Z.to_nat (cf_nostr_relay_count c)) (cf_nostr_relays c))).
Proof.
  intros Hwf Hm Hg root. unfold get_str, get_arr, raw_str, opt_str, get_str, root, saved_config.
  rewrite Hm, Hg. destruct (str_empty (cf_ap_password c)) eqn:He; json_items; cbn -[JInt saved_network].
  all: rewrite !strncpy_id by apply Hwf; split_and!; try done.
  by destruct (cf_ap_password c).
Qed.

(** The networks and relays in use fit their arrays. *)
Lemma networks_in_use c :
  config_wf c → 1 <= cf_network_count c →
  let nets := take (Z.to_nat (cf_network_count c)) (cf_networks c) in
  Z.of_nat (length nets) = cf_network_count c ∧ Forall network_fits nets ∧
  (0 < length nets ≤ TOLLGATE_MAX_WIFI_NETWORKS)%nat.
Proof.
  intros Hwf Hnc nets. pose proof (wf_network_count c Hwf). destruct (wf_networks c Hwf) as [Hl Hf].
  unfold nets. rewrite length_take, Hl. split; [lia|split; [by apply Forall_take|lia]].
Qed.

Lemma relays_in_use c :
  config_wf c →
  let rels := take (Z.to_nat (cf_nostr_relay_count c)) (cf_nostr_relays c) in
  Z.of_nat (length rels) = cf_nostr_relay_count c ∧ Forall (fits 127) rels ∧
  (1 ≤ length rels ≤ TOLLGATE_MAX_RELAYS)%nat.
Proof.
  intros Hwf rels. destruct (wf_relays c Hwf) as [(Hl & Hf & Hc) H1].
  unfold rels. rewrite length_take, Hl. split; [lia|]. split; [by apply Forall_take|lia].
Qed.

(** A key that is not among those of the saved file. *)
Ltac not_saved := apply (bool_decide_unpack (_ ∉ _)); vm_compute; exact I.

Lemma load_saved c :
  config_wf c → 1 <= cf_network_count c →
  0 <= cf_price_per_step c < 2 ^ 31 → 0 <= cf_step_size_ms c < 2 ^ 31 →
  str_empty (cf_metric c) = false → str_empty (cf_nostr_geohash c) = false →
  let nets := take (Z.to_nat (cf_network_count c)) (cf_networks c) in
  let rels := take (Z.to_nat (cf_nostr_relay_count c)) (cf_nostr_relays c) in
  ∃ r, load_config (saved_config c) = Some (ESP_OK, r) ∧
    cf_nsec r = cf_nsec c ∧ cf_network_count r = cf_network_count c ∧
    take (Z.to_nat (cf_network_count c)) (cf_networks r) = nets ∧
    cf_ap_password r = cf_ap_password c ∧ cf_mint_url r = cf_mint_url c ∧
    cf_price_per_step r = cf_price_per_step c ∧ cf_step_size_ms r = cf_step_size_ms c ∧
    cf_metric r = cf_metric c ∧ cf_nostr_geohash r = cf_nostr_geohash c ∧
    cf_nostr_relay_count r = cf_nostr_relay_count c ∧
    take (Z.to_nat (cf_nostr_relay_count c)) (cf_nostr_relays r) = rels ∧
    cf_step_size_bytes r = 22020096 ∧ cf_mining_enabled r = false ∧
    cf_accepted_mints r = cf_mint_url c :: replicate 7 ""%string.
Proof.
  intros Hwf Hnc Hp Hs Hm Hg nets rels. set (root := saved_config c).
  destruct (saved_config_fields c Hwf Hm Hg) as (F1 & F2 & F3 & F4 & F5 & F6 & F7 & F8 & F9).
  fold root nets rels in F1, F2, F3, F4, F5, F6, F7, F8, F9.
  destruct (networks_in_use c Hwf Hnc) as (Hln & Hfn & Hn5). destruct (relays_in_use c Hwf) as (Hlr & Hfr & Hr4).
  fold nets in Hln, Hfn, Hn5. fold rels in Hlr, Hfr, Hr4.
  pose proof (read_networks_saved root nets F2 Hn5 Hfn) as Hnets.
  pose proof (string_slots_saved TOLLGATE_MAX_RELAYS 127 root "nostr_relays" rels F9 ltac:(lia) Hfr) as Hrels.
  assert (∀ k, k ∉ saved_keys → cJSON_GetObjectItem root k = None) as Habs by apply saved_config_absent.
  clearbody root. unfold load_config. cbv zeta. rewrite F1, Hnets, Hrels.
  rewrite Hln, Hlr in *.
  assert (∀ max n k, k ∉ saved_keys → string_slots max n root k = (replicate max ""%string, 0)) as Hslots.
  { intros max n k Hk. unfold string_slots, get_arr. by rewrite Habs. }
  rewrite !Hslots by not_saved.
  assert (raw_str 255 root "lnurl_url" "" = Some ""%string) as Hln1.
  { unfold raw_str. by rewrite Habs by not_saved. }
  cbn [mbind option_bind cf_ap_password cf_mint_url cf_lnurl_url config_defaults].
  rewrite F3, F4. cbn [mbind option_bind]. rewrite Hln1. cbn [mbind option_bind].
  rewrite F8. cbn [mbind option_bind].
  assert (or_builtin builtin_relays (rels ++ replicate (TOLLGATE_MAX_RELAYS - length rels) ""%string,
            cf_nostr_relay_count c) = (rels ++ replicate (TOLLGATE_MAX_RELAYS - length rels) ""%string,
            cf_nostr_relay_count c)) as ->.
  { unfold or_builtin. cbn [snd]. by rewrite (proj2 (Z.eqb_neq _ 0)) by lia. }
  destruct (or_builtin builtin_seeds _) as [seeds scount].
  assert (section_of root "mining" = None) as ->.
  { unfold section_of. by rewrite Habs by not_saved. }
  set (mm := if (0 =? 0) && _ then _ else _).
  assert (mm.1 = cf_mint_url c :: replicate 7 ""%string) as Hmm.
  { unfold mm. destruct (cf_mint_url c) as [|a url] eqn:Hu; [done|]. cbn [str_empty negb andb Z.eqb].
    rewrite strncpy_id; [done|]. rewrite <- Hu. apply (wf_mint_url c Hwf). }
  clearbody mm. destruct mm as [ml mc]. cbn [fst] in Hmm.
  eexists. split; [reflexivity|].
  cbn [cf_nsec cf_network_count cf_networks cf_ap_password cf_mint_url cf_price_per_step cf_step_size_ms
    cf_metric cf_nostr_geohash cf_nostr_relay_count cf_nostr_relays cf_step_size_bytes
    cf_mining_enabled cf_accepted_mints config_defaults].
  unfold opt_int. rewrite F5, F6, F7, Habs by not_saved.
  cbn [int_of J_saved tree_json JInt]. rewrite !f64_of_Z_exact by (pow_consts; lia). cbn [default from_option id].
  split_and!; try done; try lia.
  - by apply strncpy_id, (wf_nsec c Hwf).
  - rewrite <- Hln, Nat2Z.id. apply take_app_length.
  - rewrite <- Hlr, Nat2Z.id. apply take_app_length.
Qed.

End reload.

(** * Behaviour worth knowing *)

Section examples.
#[local] Instance U_ex : CUndef := cundef_zero.
#[local] Instance J_ex : CJson jval := tree_json (λ _, None).

(** An entry that is no string leaves a hole that the count does not know of: the
    mint behind it is not reached. *)
Theorem mint_behind_hole :
  ∃ c, load_config (JObj [("nsec"%string, JStr "k");
                          ("accepted_mints"%string, JArr [JNull; JStr "https://m"])]) = Some (ESP_OK, c) ∧
    cf_accepted_mint_count c = 1 ∧
    take 2 (cf_accepted_mints c) = [""; "https://m"]%string.
Proof. eexists. split; [vm_compute; reflexivity|]. by split. Qed.

(** A field that is null instead of a text is copied from address zero. *)
Theorem null_field_is_read :
  load_config (JObj [("nsec"%string, JStr "k"); ("ap_password"%string, JNull)]) = None.
Proof. vm_compute. reflexivity. Qed.

(** A gate with no payout settings pays out to a built-in address. *)
Theorem payout_to_builtin_address :
  ∃ c, load_config (JObj [("nsec"%string, JStr "k")]) = Some (ESP_OK, c) ∧
    po_enabled (cf_payout c) = true ∧
    head (po_recipients (cf_payout c)) = Some (mk_recipient "TollGate@coinos.io" (f64_of_Z 1)).
Proof. eexists. split; [vm_compute; reflexivity|]. by split. Qed.

(** * A concrete file *)

Definition config_tree : jval :=
  JObj [("nsec"%string, JStr "k"); ("mint_url"%string, JStr "https://mint");
        ("wifi_networks"%string, JArr [saved_network (mk_network "home" "secret")]);
        ("accepted_mints"%string, JArr [JStr "https://other"; JStr "https://mint"]);
        ("price_per_step"%string, JInt 21); ("step_size_bytes"%string, JInt 0);
        ("mining"%string, JObj [("enabled"%string, JBool true)])].
Definition config_example : tollgate_config_t :=
  match load_config config_tree with Some (ESP_OK, c) => c | _ => config_defaults end.

Lemma config_example_loaded : load_config config_tree = Some (ESP_OK, config_example).
Proof. vm_compute. reflexivity. Qed.

End examples.
