(* ===== verification/Mining.v ===== *)
(** Mining payments (tollgate_core_mining.c): the difficulty and hash price of
    a compact target, the allotment a share earns, and the table of mining
    clients with their hash rates. *)

From S2P Require Import Prelude F64.

Definition MINING_SHARE_WINDOW_S : Z := 30.
Definition MINING_BLOCK_SUBSIDY_SATS : Z := 312500000.
Definition MINING_BLOCKS_PER_DAY : Z := 144.
Definition MINING_MAX_CLIENTS : nat := 10.

(** * State *)

Record tollgate_mining_client_stats_t := mk_mining_client {
  mc_ip : Z;
  shares_accepted : Z;
  shares_rejected : Z;
  first_share_time_ms : Z;
  last_share_time_ms : Z;
  hashrate_ghs : f64
}.

Definition mining_client_zero : tollgate_mining_client_stats_t :=
  mk_mining_client 0 0 0 0 0 f64_zero.

Record mining_state := mk_mining_state {
  mn_clients : list tollgate_mining_client_stats_t;
  mn_client_count : nat;
  s_current_hashprice : f64;
  s_current_nbits : Z;
  s_current_difficulty : Z
}.

Definition mining_boot : mining_state :=
  mk_mining_state (replicate MINING_MAX_CLIENTS mining_client_zero) 0 f64_zero 0 1.

Definition mining_ips (s : mining_state) : list Z :=
  dense_keys mc_ip (mn_client_count s) (mn_clients s).

Definition mining_wf (s : mining_state) : Prop :=
  length (mn_clients s) = MINING_MAX_CLIENTS ∧ (mn_client_count s ≤ MINING_MAX_CLIENTS)%nat ∧
  NoDup (mining_ips s).

(** * Difficulty and hash price *)

Definition PDIFF : Z := 0xFFFF0000.

Section mining.
Context `{CUndef}.

Definition tollgate_core_mining_nbits_to_difficulty (nbits : Z) : Z :=
  if nbits =? 0 then UINT64_MAX else
  let exponent := Z.land (Z.shiftr nbits 24) 0xFF in
  let mantissa := Z.land nbits 0x007FFFFF in
  if exponent <=? 3 then
    let mantissa := Z.shiftr mantissa (8 * (3 - exponent)) in
    if mantissa =? 0 then UINT64_MAX else PDIFF / mantissa
  else
    let target := shl64 mantissa (8 * (exponent - 3)) in
    if target =? 0 then UINT64_MAX else
    let diff := PDIFF / target in
    if diff =? 0 then 1 else diff.

Definition tollgate_core_mining_calc_hashprice (nbits : Z) : f64 :=
  let diff := tollgate_core_mining_nbits_to_difficulty nbits in
  if (diff =? 0) || (diff =? UINT64_MAX) then f64_zero else
  let network_hashrate_th :=
    f64_div (f64_mul (f64_of_Z diff) (f64_of_Z 4294967296)) (f64_of_Z (10 ^ 12)) in
  let daily_sats :=
    f64_mul (f64_of_Z MINING_BLOCK_SUBSIDY_SATS) (f64_of_Z MINING_BLOCKS_PER_DAY) in
  f64_div (f64_div daily_sats network_hashrate_th) (f64_of_Z 1000).

Definition tollgate_core_mining_calc_hashprice_override (sats_per_ghs_day : Z) : f64 :=
  f64_of_Z sats_per_ghs_day.

Definition tollgate_core_mining_validate_share (header80 : list Z) (nonce : Z)
    (target : list Z) (target_len : Z) : esp_err_t := ESP_OK.

(** * Allotments *)

Definition tollgate_core_mining_shares_to_allotment_ms (hashrate hashprice : f64)
    (price_per_step step_size_ms : Z) : Z :=
  if f64_le hashrate f64_zero || f64_le hashprice f64_zero || (price_per_step <=? 0) then 0 else
  let sats_per_ms := f64_div (f64_mul hashrate hashprice) (f64_of_Z 86400000) in
  let steps_earned :=
    f64_div (f64_mul sats_per_ms (f64_of_Z step_size_ms)) (f64_of_Z price_per_step) in
  let allotment := u64_of_f64 (f64_mul steps_earned (f64_of_Z step_size_ms)) in
  if 0 <? allotment then allotment else 1.

Definition tollgate_core_mining_shares_to_allotment_bytes (hashrate hashprice : f64)
    (price_per_step step_size_bytes : Z) : Z :=
  if f64_le hashrate f64_zero || f64_le hashprice f64_zero || (price_per_step <=? 0) then 0 else
  let sats_per_ms := f64_div (f64_mul hashrate hashprice) (f64_of_Z 86400000) in
  let steps_earned :=
    f64_div (f64_mul sats_per_ms (f64_of_Z 1000)) (f64_of_Z price_per_step) in
  let allotment := u64_of_f64 (f64_mul steps_earned (f64_of_Z step_size_bytes)) in
  if 0 <? allotment then allotment else 1.

(** * The client table *)

Definition fresh_client (ip now : Z) : tollgate_mining_client_stats_t :=
  mk_mining_client ip 0 0 now 0 f64_zero.

Definition with_clients (s : mining_state) (l : list tollgate_mining_client_stats_t) (n : nat)
  : mining_state :=
  mk_mining_state l n (s_current_hashprice s) (s_current_nbits s) (s_current_difficulty s).

(** The slot of the client, created when there is room or a stale slot. *)
Definition tollgate_core_mining_get_or_create_client (now ip : Z) (s : mining_state)
  : option nat * mining_state :=
  match dense_find mc_ip ip (mn_client_count s) (mn_clients s) with
  | Some i => (Some i, s)
  | None =>
      if (MINING_MAX_CLIENTS <=? mn_client_count s)%nat then
        match find_slot (λ c, MINING_SHARE_WINDOW_S * 2000 <? i64 (now - last_share_time_ms c))
                        (mn_clients s) with
        | Some i =>
            (Some i, with_clients s (<[i := fresh_client ip now]> (mn_clients s))
                       (mn_client_count s))
        | None => (None, s)
        end
      else
        (Some (mn_client_count s),
         with_clients s (<[mn_client_count s := fresh_client ip now]> (mn_clients s))
           (S (mn_client_count s)))
  end.

(** The statistics after one more share. *)
Definition share_update (now difficulty : Z) (accepted : bool)
    (c : tollgate_mining_client_stats_t) : tollgate_mining_client_stats_t :=
  let acc := if accepted then u64 (shares_accepted c + 1) else shares_accepted c in
  let rej := if accepted then shares_rejected c else u64 (shares_rejected c + 1) in
  let window_ms := Z.max 1000 (i64 (now - first_share_time_ms c)) in
  let window_s := f64_div (f64_of_Z window_ms) (f64_of_Z 1000) in
  let shares_per_s := f64_div (f64_of_Z acc) window_s in
  let diff := if 0 <? difficulty then f64_of_Z difficulty else f64_of_Z 1 in
  mk_mining_client (mc_ip c) acc rej (first_share_time_ms c) now
    (f64_div (f64_mul (f64_mul shares_per_s diff) (f64_of_Z 4294967296)) (f64_of_Z (10 ^ 9))).

Definition tollgate_core_mining_update_hashrate (now ip : Z) (accepted : bool)
    (s : mining_state) : mining_state :=
  match tollgate_core_mining_get_or_create_client now ip s with
  | (Some i, s1) =>
      with_clients s1 (alter (share_update now (s_current_difficulty s1) accepted) i
                         (mn_clients s1)) (mn_client_count s1)
  | (None, s1) => s1
  end.

Definition tollgate_core_mining_get_client_stats (ip : Z) (s : mining_state)
  : option tollgate_mining_client_stats_t :=
  dense_find mc_ip ip (mn_client_count s) (mn_clients s) ≫= λ i, mn_clients s !! i.

Definition tollgate_core_mining_get_current_hashprice (s : mining_state) : f64 :=
  s_current_hashprice s.

Definition tollgate_core_mining_set_current_nbits (nbits : Z) (s : mining_state) : mining_state :=
  mk_mining_state (mn_clients s) (mn_client_count s)
    (tollgate_core_mining_calc_hashprice nbits) nbits
    (tollgate_core_mining_nbits_to_difficulty nbits).

Definition tollgate_core_mining_init (s : mining_state) : mining_state := mining_boot.
End mining.

#[global] Arguments tollgate_core_mining_get_or_create_client : simpl never.

(** * Lemmas *)

Lemma mining_boot_wf : mining_wf mining_boot.
Proof. split_and!; [done|simpl; lia|constructor]. Qed.

Lemma find_mining_None s ip :
  dense_find mc_ip ip (mn_client_count s) (mn_clients s) = None ↔ ip ∉ mining_ips s.
Proof. apply dense_find_None. Qed.

(** Replacing the key of one slot by a key not in use keeps keys distinct. *)
Lemma dense_replace_NoDup {A} (key : A → Z) n l i x y :
  NoDup (dense_keys key n l) → (n ≤ length l)%nat → l !! i = Some x → (i < n)%nat →
  key y ∉ dense_keys key n l → NoDup (dense_keys key n (<[i := y]> l)).
Proof.
  unfold dense_keys. intros Hnd Hn Hi Hlt Hy.
  rewrite take_insert_lt by done. rewrite list_fmap_insert.
  assert ((key <$> take n l) !! i = Some (key x)) as Hk.
  { by rewrite list_lookup_fmap, lookup_take_lt, Hi. }
  pose proof (insert_swap_perm _ _ (key x) (key y) Hk) as Hp.
  assert (NoDup (key y :: (key <$> take n l))) as Hnd' by (by constructor).
  rewrite <- Hp in Hnd'. by apply NoDup_cons in Hnd' as [_ ?].
Qed.

Section lemmas.
Context (now : Z).

(** The four ways a slot is found. *)
Lemma get_or_create_cases ip s :
  mining_wf s →
  (∃ k c, tollgate_core_mining_get_or_create_client now ip s = (Some k, s) ∧
          mn_clients s !! k = Some c ∧ mc_ip c = ip ∧ (k < mn_client_count s)%nat) ∨
  (∃ k c, tollgate_core_mining_get_or_create_client now ip s =
            (Some k, with_clients s (<[k := fresh_client ip now]> (mn_clients s))
                       (mn_client_count s)) ∧
          mn_clients s !! k = Some c ∧ mn_client_count s = MINING_MAX_CLIENTS ∧
          60000 < i64 (now - last_share_time_ms c)) ∨
  (tollgate_core_mining_get_or_create_client now ip s =
     (Some (mn_client_count s),
      with_clients s (<[mn_client_count s := fresh_client ip now]> (mn_clients s))
        (S (mn_client_count s))) ∧ (mn_client_count s < MINING_MAX_CLIENTS)%nat) ∨
  (tollgate_core_mining_get_or_create_client now ip s = (None, s) ∧
   mn_client_count s = MINING_MAX_CLIENTS ∧
   ∀ i c, mn_clients s !! i = Some c → i64 (now - last_share_time_ms c) <= 60000).
Proof.
  intros (Hl & Hle & Hnd). unfold tollgate_core_mining_get_or_create_client.
  destruct (dense_find _ _ _ _) as [k|] eqn:Hf.
  { left. apply dense_find_Some in Hf as (c & Hk & Hc & Hip). by exists k, c. }
  right. destruct (MINING_MAX_CLIENTS <=? mn_client_count s)%nat eqn:Hfull; bool_hyps.
  2: { right. left. done. }
  assert (mn_client_count s = MINING_MAX_CLIENTS) as Hc by lia.
  destruct (find_slot _ _) as [k|] eqn:Hs.
  - left. apply find_slot_Some in Hs as (c & Hk & Hold & _). bool_hyps. by exists k, c.
  - right. right. split_and!; [done|done|]. intros i c Hi.
    pose proof (proj1 (find_slot_None _ _) Hs i c Hi) as Hp. cbn beta in Hp. by bool_hyps.
Qed.

Lemma get_or_create_wf ip s :
  mining_wf s →
  mining_wf (snd (tollgate_core_mining_get_or_create_client now ip s)) ∧
  match fst (tollgate_core_mining_get_or_create_client now ip s) with
  | Some i => ∃ c, mn_clients (snd (tollgate_core_mining_get_or_create_client now ip s)) !! i
                   = Some c ∧ mc_ip c = ip ∧
                   (i < mn_client_count
                          (snd (tollgate_core_mining_get_or_create_client now ip s)))%nat
  | None => True
  end.
Proof.
  intros Hwf.
  destruct (decide (ip ∈ mining_ips s)) as [Hin|Hnot].
  { apply dense_find_elem in Hin as [i Hf]. unfold tollgate_core_mining_get_or_create_client.
    rewrite Hf. apply dense_find_Some in Hf as (c & Hi & Hc & Hk). split; [done|].
    by exists c. }
  destruct (get_or_create_cases ip s Hwf)
    as [(k & c & -> & Hk & Hip & Hlt)|[(k & c & -> & Hk & Hfull & Hold)|[[-> Hlt]|(-> & _)]]];
    cbn [fst snd]; [split; [done|by exists c]| | |done];
    destruct Hwf as (Hl & Hle & Hnd); simpl.
  - apply lookup_lt_Some in Hk as Hlk. split.
    + split_and!; simpl; [by simpl_len|done|]. unfold mining_ips. simpl.
      apply dense_replace_NoDup with c; try done; lia.
    + eexists. rewrite list_lookup_insert_eq by done. split_and!; [done|done|lia].
  - split.
    + split_and!; simpl; [by simpl_len|lia|]. unfold mining_ips. simpl.
      rewrite dense_keys_add by lia. apply NoDup_app. split_and!; [done| |apply NoDup_singleton].
      intros x Hx Hx'%list_elem_of_singleton. by subst.
    + eexists. rewrite list_lookup_insert_eq by lia. split_and!; [done|done|lia].
Qed.

Lemma update_hashrate_wf ip b s :
  mining_wf s → mining_wf (tollgate_core_mining_update_hashrate now ip b s).
Proof.
  intros Hwf. unfold tollgate_core_mining_update_hashrate.
  destruct (get_or_create_wf ip s Hwf) as [Hwf1 Hc].
  destruct (tollgate_core_mining_get_or_create_client now ip s) as [[i|] s1]; simpl in *; [|done].
  destruct Hc as (c & Hi & Hip & Hlt). destruct Hwf1 as (Hl & Hle & Hnd).
  rewrite (alter_insert_Some _ _ _ _ Hi). split_and!; simpl; [by simpl_len|done|].
  unfold mining_ips. simpl. by rewrite (dense_keys_same mc_ip _ _ i c) by done.
Qed.

Lemma mining_ips_alter s k c d b :
  mn_clients s !! k = Some c → mc_ip c = d → (k < mn_client_count s)%nat →
  d ∈ mining_ips (with_clients s
        (alter (share_update now (s_current_difficulty s) b) k (mn_clients s))
        (mn_client_count s)).
Proof.
  intros Hk Hd Hlt. unfold mining_ips. simpl. rewrite (alter_insert_Some _ _ _ _ Hk).
  rewrite (dense_keys_same mc_ip _ _ k c) by done. unfold dense_keys.
  apply list_elem_of_fmap. exists c. split; [done|].
  apply list_elem_of_lookup. exists k. by apply lookup_take_Some.
Qed.
End lemmas.
#[export] Hint Resolve mining_boot_wf update_hashrate_wf : tg_db.

(** * Properties *)

(** Whatever compact target the upstream pool announces, the difficulty is
    at least 1, so the hash price never divides by a zero network hash rate. *)
Theorem nbits_difficulty_bounds `{CUndef} nbits :
  is_u32 nbits → 1 <= tollgate_core_mining_nbits_to_difficulty nbits <= UINT64_MAX.
Proof.
  unfold is_u32, tollgate_core_mining_nbits_to_difficulty, UINT64_MAX, PDIFF. intros Hn.
  destruct (nbits =? 0); [pow_consts; lia|].
  set (m := Z.land nbits 0x7FFFFF). set (e := Z.land (Z.shiftr nbits 24) 0xFF).
  assert (0 <= m < 2 ^ 23) as Hm.
  { unfold m. change 0x7FFFFF with (Z.ones 23). rewrite Z.land_ones by lia.
    apply Z.mod_pos_bound. lia. }
  assert (0 <= e < 2 ^ 8) as He.
  { unfold e. change 0xFF with (Z.ones 8). rewrite Z.land_ones by lia. apply Z.mod_pos_bound. lia. }
  destruct (e <=? 3) eqn:E3; bool_hyps.
  - rewrite Z.shiftr_div_pow2 by lia. set (k := 2 ^ (8 * (3 - e))).
    assert (0 < k) by (apply Z.pow_pos_nonneg; lia).
    assert (0 <= m / k <= m) by (split; [apply Z.div_pos|apply Z.div_le_upper_bound]; nia).
    destruct (m / k =? 0) eqn:Ez; bool_hyps; [pow_consts; lia|].
    change (2 ^ 23) with 8388608 in *. pow_consts. split.
    + apply Z.div_le_lower_bound; lia.
    + apply Z.div_le_upper_bound; nia.
  - pose proof (shl64_range m (8 * (e - 3))) as Hr. unfold is_u64 in Hr.
    set (t := shl64 _ _) in *. destruct (t =? 0) eqn:Et; bool_hyps; [pow_consts; lia|].
    destruct (_ / t =? 0) eqn:Ed; bool_hyps; [pow_consts; lia|].
    pose proof (Z.div_pos 4294901760 t ltac:(lia) ltac:(lia)).
    pose proof (Z.div_le_upper_bound 4294901760 t 4294901760 ltac:(lia) ltac:(nia)).
    pow_consts. lia.
Qed.

(** For the compact target of difficulty 1 the shift count (208) exceeds the
    width of the type: the result is whatever the compiler makes of it, here
    two different ones. *)
Theorem nbits_difficulty_undefined :
  ∃ U1 U2 : CUndef,
    @tollgate_core_mining_nbits_to_difficulty U1 0x1d00ffff = UINT64_MAX ∧
    @tollgate_core_mining_nbits_to_difficulty U2 0x1d00ffff = PDIFF / 0xffff.
Proof.
  exists (Build_CUndef (λ _, 0) (λ _, 0) (λ _ _, 0)), (Build_CUndef (λ _, 0) (λ _, 0) (λ x _, x)).
  split; vm_compute; reflexivity.
Qed.

(** A share earns no time exactly when the client's hash rate, the hash
    price or the price is not positive; any other share earns at least one
    unit, and never more than a 64-bit counter holds. *)
Theorem share_allotment_zero_iff `{CUndef} hashrate hashprice price step :
  let guard := f64_le hashrate f64_zero || f64_le hashprice f64_zero || (price <=? 0) in
  let ms := tollgate_core_mining_shares_to_allotment_ms hashrate hashprice price step in
  let bytes := tollgate_core_mining_shares_to_allotment_bytes hashrate hashprice price step in
  (ms = 0 ↔ guard = true) ∧ (bytes = 0 ↔ guard = true) ∧ is_u64 ms ∧ is_u64 bytes.
Proof.
  cbv zeta. unfold tollgate_core_mining_shares_to_allotment_ms,
    tollgate_core_mining_shares_to_allotment_bytes.
  destruct (f64_le hashrate f64_zero || f64_le hashprice f64_zero || (price <=? 0)).
  { unfold is_u64. pow_consts. split_and!; try done; lia. }
  match goal with |- context [f64_mul ?st (f64_of_Z step)] =>
    generalize (f64_mul st (f64_of_Z step)) end.
  intros x. match goal with |- context [u64_of_f64 (f64_mul ?st ?b)] =>
    generalize (f64_mul st b) end. intros y.
  pose proof (u64_of_f64_range x) as Hx. pose proof (u64_of_f64_range y) as Hy.
  unfold is_u64 in *. pow_consts.
  destruct (0 <? u64_of_f64 x) eqn:Ex, (0 <? u64_of_f64 y) eqn:Ey; bool_hyps;
    split_and!; try done; lia.
Qed.

(** Recording a share keeps one slot per client; a full table gives a slot
    up to a new client only if its owner has sent no share for a minute, and
    otherwise leaves the new client out. *)
Theorem update_hashrate_table now ip b s :
  mining_wf s →
  let s' := tollgate_core_mining_update_hashrate now ip b s in
  mining_wf s' ∧
  (∀ i c, mn_clients s !! i = Some c → (i < mn_client_count s)%nat → mc_ip c ≠ ip →
     mn_clients s' !! i = Some c ∨ 60000 < i64 (now - last_share_time_ms c)) ∧
  (ip ∈ mining_ips s' ∨
   (s' = s ∧ mn_client_count s = MINING_MAX_CLIENTS ∧
    ∀ i c, mn_clients s !! i = Some c → i64 (now - last_share_time_ms c) <= 60000)).
Proof.
  intros Hwf s'. split; [unfold s'; auto with tg_db|]. unfold s'.
  unfold tollgate_core_mining_update_hashrate.
  destruct (get_or_create_cases now ip s Hwf)
    as [(k & c & -> & Hk & Hip & Hlt)|[(k & c & -> & Hk & Hfull & Hold)|[[-> Hlt]|(-> & Hfull & Hall)]]];
    simpl.
  - split.
    + intros i d Hi _ Hne. left. rewrite list_lookup_alter_ne; [done|]. intros ->. congruence.
    + left. by apply (mining_ips_alter now s k c).
  - split.
    + intros i d Hi Hlt Hne. destruct (decide (k = i)) as [->|Hki].
      * right. assert (c = d) as -> by congruence. done.
      * left. by rewrite list_lookup_alter_ne, list_lookup_insert_ne by done.
    + left. apply lookup_lt_Some in Hk as Hl. destruct Hwf as (Hlen & _).
      apply (mining_ips_alter now (with_clients s (<[k:=fresh_client ip now]> (mn_clients s))
               (mn_client_count s)) k (fresh_client ip now)); simpl; [|done|lia].
      by rewrite list_lookup_insert_eq.
  - destruct Hwf as (Hlen & _). split.
    + intros i d Hi Hlti Hne. left.
      by rewrite list_lookup_alter_ne, list_lookup_insert_ne by lia.
    + left. apply (mining_ips_alter now (with_clients s
               (<[mn_client_count s:=fresh_client ip now]> (mn_clients s))
               (S (mn_client_count s))) (mn_client_count s) (fresh_client ip now));
        simpl; [|done|lia].
      by rewrite list_lookup_insert_eq by lia.
  - split; [by left|]. right. done.
Qed.

Lemma update_hashrate_table_witness :
  let s' := tollgate_core_mining_update_hashrate 5000 7 true mining_boot in
  mining_wf s' ∧
  (∀ i c, mn_clients mining_boot !! i = Some c → (i < mn_client_count mining_boot)%nat →
     mc_ip c ≠ 7 →
     mn_clients s' !! i = Some c ∨ 60000 < i64 (5000 - last_share_time_ms c)) ∧
  (7 ∈ mining_ips s' ∨
   (s' = mining_boot ∧ mn_client_count mining_boot = MINING_MAX_CLIENTS ∧
    ∀ i c, mn_clients mining_boot !! i = Some c → i64 (5000 - last_share_time_ms c) <= 60000)).
Proof. apply (update_hashrate_table 5000 7 true mining_boot mining_boot_wf). Defined.

Lemma nbits_difficulty_bounds_witness :
  1 <= @tollgate_core_mining_nbits_to_difficulty cundef_zero 0x0400ffff <= UINT64_MAX.
Proof. apply nbits_difficulty_bounds. vm_compute. split; [discriminate|reflexivity]. Defined.
