(* ===== verification/Cashu.v ===== *)
(** Cashu tokens (tollgate_core_cashu.c): decoding of a V3 token, the question
    to the mint whether its proofs are spent, and the allotment an amount
    buys.  base64, SHA-256, JSON and HTTP are parameters; [malloc] succeeds. *)

From S2P Require Import Prelude CStr F64 Json.

Definition TG_CASHU_MAX_PROOFS : nat := 10.
Definition TG_CASHU_MAX_SECRET_LEN : nat := 128.
Definition TG_CASHU_MAX_ID_LEN : nat := 68.
Definition TG_CASHU_MAX_C_LEN : nat := 128.
Definition V3_PREFIX : string := "cashuA".
Definition V3_PREFIX_LEN : nat := 6.

Record tg_cashu_proof_t := mk_proof {
  pf_amount : Z;
  pf_id : string;
  pf_secret : string;
  pf_c : string
}.

Record tg_cashu_token_t := mk_token {
  tk_proofs : list tg_cashu_proof_t;      (* the first [proof_count] entries *)
  tk_mint_url : string;
  tk_total_amount : Z
}.

Definition proof_count (t : tg_cashu_token_t) : nat := length (tk_proofs t).

Record tg_cashu_proof_state_t := mk_proof_state { y_hex : string; spent : bool }.

(** * Decoding *)

Definition b64url_char (c : ascii) : ascii :=
  if Ascii.eqb c "-" then "+"%char else if Ascii.eqb c "_" then "/"%char else c.

Fixpoint string_map (f : ascii → ascii) (s : string) : string :=
  match s with
  | EmptyString => EmptyString
  | String c s' => String (f c) (string_map f s')
  end.

(** Pad with [=] to a multiple of four characters. *)
Definition b64_pad (s : string) : string :=
  (s +:+ str_take ((4 - String.length s mod 4) mod 4) "===")%string.

Section cashu.
Context `{CUndef} `{CJson J}.
Variable mbedtls_base64_decode : nat → string → option (list Z).

Definition b64url_decode (input : string) (out_size : nat) : option (list Z) :=
  mbedtls_base64_decode out_size (b64_pad (string_map b64url_char input)).

(** One turn of the loop of [parse_proofs_array]. *)
Definition parse_proof (proof : J) : option tg_cashu_proof_t :=
  amt ← get_num proof "amount";
  Some (mk_proof (u64_of_f64 amt)
          (strncpy (TG_CASHU_MAX_ID_LEN - 1) (default ""%string (get_str proof "id")))
          (strncpy (TG_CASHU_MAX_SECRET_LEN - 1) (default ""%string (get_str proof "secret")))
          (strncpy (TG_CASHU_MAX_C_LEN - 1) (default ""%string (get_str proof "C")))).

(** The proofs and their total; [None] for ESP_FAIL. *)
Fixpoint parse_proofs (l : list J) (acc : list tg_cashu_proof_t) (total : Z)
  : option (list tg_cashu_proof_t * Z) :=
  match l with
  | [] => Some (acc, total)
  | j :: l' =>
      p ← parse_proof j;
      parse_proofs l' (acc ++ [p]) (u64 (total + pf_amount p))
  end.

Definition parse_proofs_array (arr : J) : option (list tg_cashu_proof_t * Z) :=
  if negb (cJSON_IsArray arr) then None else
  if (TG_CASHU_MAX_PROOFS <? cJSON_GetArraySize arr)%nat then None else
  parse_proofs (items arr) [] 0.

(** Mint and proofs of the object that holds them. *)
Definition decode_entry (j : J) : option tg_cashu_token_t :=
  let mint := strncpy 255 (default ""%string (get_str j "mint")) in
  match cJSON_GetObjectItem j "proofs" with
  | Some proofs =>
      '(l, total) ← parse_proofs_array proofs;
      Some (mk_token l mint total)
  | None => Some (mk_token [] mint 0)
  end.

(** The length up to the first line break. *)
Definition token_len (token_str : string) : nat :=
  let len := default (String.length token_str) (strchr (chr 10) token_str) in
  match strchr (chr 13) token_str with
  | Some cr => if (cr <? len)%nat then cr else len
  | None => len
  end.

Definition tollgate_core_cashu_decode_token (token_str : string) : option tg_cashu_token_t :=
  let len := token_len token_str in
  if (len <=? V3_PREFIX_LEN)%nat then None else
  if negb (has_prefix V3_PREFIX token_str) then None else
  let b64_len := (len - V3_PREFIX_LEN)%nat in
  let decoded_size := (b64_len * 3 / 4 + 4)%nat in
  json ← b64url_decode (str_take b64_len (str_drop V3_PREFIX_LEN token_str)) (decoded_size - 1);
  root ← cJSON_Parse (cstr json);
  token ← match get_arr root "token" with
          | Some token_arr => first ← cJSON_GetArrayItem token_arr 0; decode_entry first
          | None => decode_entry root
          end;
  if (proof_count token =? 0)%nat then None else Some token.

(** * The mint's view of the proofs *)

Variable mbedtls_sha256 : list Z → list Z.
(** An HTTP POST with a JSON body: [None] when no connection is made,
    otherwise the status code and what was read of the answer. *)
Variable http_post : string → string → option (Z * list Z).

Definition sha256_hex (data : string) : string := hex_bytes (mbedtls_sha256 (str_bytes data)).

Definition checkstate_body (token : tg_cashu_token_t) : string :=
  let ys := cJSON_PrintUnformatted (JArr ((λ p, JStr (sha256_hex (pf_secret p))) <$> tk_proofs token)) in
  str_take 4095 ("{" +:+ String (chr 34) "Ys" +:+ String (chr 34) ":" +:+ ys +:+ "}")%string.

(** [strcmp(state->valuestring, ''SPENT'') == 0] for the [i]-th answer. *)
Definition answer_spent (states_arr : J) (i : nat) : bool :=
  bool_decide ((s ← cJSON_GetArrayItem states_arr i; get_str s "state") = Some "SPENT"%string).

Definition tollgate_core_cashu_check_proof_states (mint_url : string) (token : tg_cashu_token_t)
  : option (list tg_cashu_proof_state_t) :=
  let url := str_take 511 (mint_url +:+ "/v1/checkstate") in
  '(status, resp) ← http_post url (checkstate_body token);
  let resp := take 8191 resp in
  if negb (status =? 200) || (length resp =? 0)%nat then None else
  root_resp ← cJSON_Parse (cstr resp);
  states_arr ← get_arr root_resp "states";
  let n := cJSON_GetArraySize states_arr in
  Some (imap (λ i p, mk_proof_state (sha256_hex (pf_secret p))
                       ((i <? n)%nat && answer_spent states_arr i)) (tk_proofs token)).
End cashu.

(** * Allotment and mint *)

Definition tollgate_core_cashu_calculate_allotment (token_amount price_per_step step_size : Z) : Z :=
  if price_per_step =? 0 then 0 else u64 (token_amount / price_per_step * step_size).

Definition tollgate_core_cashu_is_mint_accepted (mint_url accepted_mint_url : string) : bool :=
  if str_empty mint_url then false else
  if str_empty accepted_mint_url then false else
  bool_decide (mint_url = accepted_mint_url).

(** * Properties *)

(** The sum of the amounts of a list of proofs. *)
Definition sum_amounts (l : list tg_cashu_proof_t) : Z := foldr (λ p a, pf_amount p + a) 0 l.

Definition proof_ok (p : tg_cashu_proof_t) : Prop :=
  is_u64 (pf_amount p) ∧ (String.length (pf_id p) < TG_CASHU_MAX_ID_LEN)%nat ∧
  (String.length (pf_secret p) < TG_CASHU_MAX_SECRET_LEN)%nat ∧
  (String.length (pf_c p) < TG_CASHU_MAX_C_LEN)%nat.

Section decode_lemmas.
Context `{CUndef} `{CJson J}.

Lemma parse_proof_ok (j : J) p : parse_proof j = Some p → proof_ok p.
Proof.
  unfold parse_proof. destruct (get_num j "amount") as [x|]; [|done]. intros [= <-].
  unfold proof_ok. cbn [pf_amount pf_id pf_secret pf_c].
  split_and!; [auto with tg_db|..]; apply Nat.lt_succ_r, strncpy_length.
Qed.

Lemma u64_add_l a b : u64 (u64 a + b) = u64 (a + b).
Proof. unfold u64. by rewrite Zplus_mod_idemp_l. Qed.

Lemma parse_proofs_spec (l : list J) acc total r :
  parse_proofs l acc total = Some r →
  ∃ ps, fst r = acc ++ ps ∧ length ps = length l ∧ Forall proof_ok ps ∧
        u64 (snd r) = u64 (total + sum_amounts ps).
Proof.
  revert acc total. induction l as [|j l IH]; intros acc total; simpl.
  - intros [= <-]. exists []. rewrite app_nil_r. split_and!; try done. unfold sum_amounts; simpl; f_equal; lia.
  - destruct (parse_proof j) as [p|] eqn:Hp; [|done]. simpl. intros Hr.
    destruct (IH _ _ Hr) as (ps & Hf & Hl & Hok & Ht). exists (p :: ps).
    rewrite Hf, <- app_assoc. split_and!; [done|simpl; lia| |].
    + constructor; [by eapply parse_proof_ok|done].
    + rewrite Ht, u64_add_l. unfold sum_amounts; simpl; f_equal; lia.
Qed.

Lemma parse_proofs_total (l : list J) acc total r :
  parse_proofs l acc total = Some r → is_u64 total → is_u64 (snd r).
Proof.
  revert acc total. induction l as [|j l IH]; intros acc total; simpl; [by intros [= <-]|].
  destruct (parse_proof j); [|done]. simpl. intros Hr _. eapply IH; [done|auto with tg_db].
Qed.

Lemma omap_seq_length {A} (f : nat → option A) a n : (length (omap f (seq a n)) ≤ n)%nat.
Proof.
  revert a. induction n as [|n IH]; intros a; simpl; [lia|].
  specialize (IH (S a)). destruct (f a); simpl; [apply le_n_S, IH|apply le_S, IH].
Qed.

Lemma decode_entry_ok (j : J) t :
  decode_entry j = Some t →
  (proof_count t ≤ TG_CASHU_MAX_PROOFS)%nat ∧ Forall proof_ok (tk_proofs t) ∧
  (String.length (tk_mint_url t) ≤ 255)%nat ∧
  tk_total_amount t = u64 (sum_amounts (tk_proofs t)).
Proof.
  unfold decode_entry, proof_count.
  destruct (cJSON_GetObjectItem j "proofs") as [arr|]; [|intros [= <-]].
  - unfold parse_proofs_array. destruct (cJSON_IsArray arr); [|done]. cbn [negb].
    destruct (_ <? _)%nat eqn:Hn; [done|]. bool_hyps.
    destruct (parse_proofs _ _ _) as [[l total]|] eqn:Hp; [|done]. simpl. intros [= <-].
    pose proof (parse_proofs_total _ _ _ _ Hp) as Ht.
    destruct (parse_proofs_spec _ _ _ _ Hp) as (ps & Hf & Hlen & Hok & Hsum).
    simpl in *. subst l. split_and!; [|done|apply strncpy_length|].
    + rewrite Hlen. unfold items. pose proof (omap_seq_length (cJSON_GetArrayItem arr) 0
        (cJSON_GetArraySize arr)). lia.
    + change (0 + sum_amounts ps) with (sum_amounts ps) in Hsum. rewrite <- Hsum. symmetry. apply u64_small. apply Ht. unfold is_u64. pow_consts. lia.
  - simpl. split_and!; [lia|constructor|apply strncpy_length|done].
Qed.
End decode_lemmas.

Section properties.
Context `{CUndef} `{CJson J}.
Variable b64 : nat → string → option (list Z).

(** C11: a token that decodes carries the prefix and between one and ten
    proofs, every field within the buffer that receives it, and its total is
    the sum of the proofs' amounts modulo 2^64. *)
Theorem decode_token_sound s t :
  tollgate_core_cashu_decode_token b64 s = Some t →
  has_prefix V3_PREFIX s = true ∧ (1 ≤ proof_count t ≤ TG_CASHU_MAX_PROOFS)%nat ∧
  Forall proof_ok (tk_proofs t) ∧ (String.length (tk_mint_url t) ≤ 255)%nat ∧
  tk_total_amount t = u64 (sum_amounts (tk_proofs t)).
Proof.
  unfold tollgate_core_cashu_decode_token. destruct (_ <=? _)%nat; [done|].
  destruct (has_prefix V3_PREFIX s); [|done]. cbn [negb].
  destruct (b64url_decode _ _ _) as [json|]; [|done]. simpl.
  destruct (cJSON_Parse _) as [root|]; [|done]. simpl.
  intros Ht. match type of Ht with (?m ≫= _) = _ => destruct m as [t'|] eqn:Hd; [|done] end.
  simpl in Ht. destruct (proof_count t' =? 0)%nat eqn:Hz; [done|]. bool_hyps.
  injection Ht as <-.
  assert (∃ j, decode_entry j = Some t') as [j Hj].
  { destruct (get_arr root "token") as [arr|]; [|by exists root].
    destruct (cJSON_GetArrayItem arr 0) as [first|]; [|done]. by exists first. }
  destruct (decode_entry_ok j t' Hj) as (H1 & H2 & H3 & H4). split_and!; try done. lia.
Qed.
End properties.

(** An allotment that fits in 64 bits is never worth more than what was
    paid, and falls short of it by less than one step; it is zero exactly when
    the amount does not reach the price of one step. *)
Theorem allotment_fair amount price step :
  0 <= amount → 0 < price → 0 < step → amount / price * step < 2 ^ 64 →
  let a := tollgate_core_cashu_calculate_allotment amount price step in
  a * price <= amount * step < a * price + price * step ∧ (a = 0 ↔ amount < price).
Proof.
  intros Ha Hp Hs Hov a. unfold a, tollgate_core_cashu_calculate_allotment.
  rewrite (proj2 (Z.eqb_neq _ _)) by lia.
  pose proof (Z.div_pos amount price Ha Hp). rewrite u64_small by (unfold is_u64; nia).
  pose proof (Z.mul_div_le amount price Hp). pose proof (Z.mul_succ_div_gt amount price Hp).
  split; [nia|]. split.
  - intros Hz. assert (amount / price = 0) as Hq by nia. apply Z.div_small_iff in Hq; lia.
  - intros Hlt. rewrite Z.div_small by lia. lia.
Qed.

(** An allotment beyond 64 bits wraps around: a larger payment can buy
    less, down to nothing. *)
Theorem allotment_wraps :
  tollgate_core_cashu_calculate_allotment (2 ^ 58) 1 60000 = 0 + (2 ^ 58 * 60000) mod 2 ^ 64 ∧
  tollgate_core_cashu_calculate_allotment (2 ^ 59) 1 60000 = 0.
Proof. split; vm_compute; reflexivity. Qed.

Section states.
Context `{CJson J}.
Variable sha : list Z → list Z.
Variable http_post : string → string → option (Z * list Z).

(** States are reported only from an answer of the mint with status 200
    and an array of states: then each proof has one state, under the hash of
    its secret, spent exactly when the mint's answer at its position
    says SPENT: a proof the mint does not answer for counts as unspent. *)
Theorem check_states_spent mint token l :
  tollgate_core_cashu_check_proof_states sha http_post mint token = Some l →
  length l = proof_count token ∧
  ∃ resp root arr,
    http_post (str_take 511 (mint +:+ "/v1/checkstate")) (checkstate_body sha token)
      = Some (200, resp) ∧
    cJSON_Parse (cstr (take 8191 resp)) = Some root ∧ get_arr root "states" = Some arr ∧
    ∀ i st, l !! i = Some st →
    (∃ p, tk_proofs token !! i = Some p ∧ y_hex st = sha256_hex sha (pf_secret p)) ∧
    (spent st = true ↔ (i < cJSON_GetArraySize arr)%nat ∧ answer_spent arr i = true).
Proof.
  unfold tollgate_core_cashu_check_proof_states, proof_count.
  destruct (http_post _ _) as [[status resp]|]; [|done]. simpl.
  destruct (negb (status =? 200)) eqn:Hst; [done|]. cbn [orb]. bool_hyps. subst status.
  destruct (_ =? _)%nat; [done|].
  destruct (cJSON_Parse _) as [root|] eqn:Hroot; [|done]. simpl.
  destruct (get_arr root "states") as [arr|] eqn:Harr; [|done]. simpl. intros [= <-].
  split; [apply length_imap|]. exists resp, root, arr.
  split_and!; [done..|]. intros i st Hi.
  rewrite list_lookup_imap in Hi. destruct (tk_proofs token !! i) as [p|]; [|done].
  injection Hi as <-. split; [by exists p|]. cbn [spent].
  by rewrite andb_true_iff, Nat.ltb_lt.
Qed.
End states.

(** * Concrete tokens *)

Definition token_tree : jval :=
  JObj [("token", JArr [JObj [("mint", JStr "https://mint");
    ("proofs", JArr [JObj [("amount", JInt 40); ("id", JStr "00"); ("secret", JStr "s1"); ("C", JStr "c1")];
                     JObj [("amount", JInt 2); ("secret", JStr "s2")]])]])]%string.
Definition states_tree : jval :=
  JObj [("states", JArr [JObj [("state", JStr "UNSPENT")]; JObj [("state", JStr "SPENT")]])]%string.
Definition json_token : CJson jval := tree_json (λ _, Some token_tree).
Definition json_states : CJson jval := tree_json (λ _, Some states_tree).
Definition b64_const : nat → string → option (list Z) := λ _ _, Some [123; 125].
Definition token_42 : tg_cashu_token_t :=
  mk_token [mk_proof 40 "00" "s1" "c1"; mk_proof 2 "" "s2" ""] "https://mint" 42.

Lemma decode_token_sound_witness :
  has_prefix V3_PREFIX "cashuAe30" = true ∧
  (1 ≤ proof_count token_42 ≤ TG_CASHU_MAX_PROOFS)%nat ∧
  Forall proof_ok (tk_proofs token_42) ∧ (String.length (tk_mint_url token_42) ≤ 255)%nat ∧
  tk_total_amount token_42 = u64 (sum_amounts (tk_proofs token_42)).
Proof.
  apply (@decode_token_sound cundef_zero jval json_token b64_const "cashuAe30").
  vm_compute. reflexivity.
Defined.

Lemma allotment_fair_witness :
  let a := tollgate_core_cashu_calculate_allotment 50 21 60000 in
  a * 21 <= 50 * 60000 < a * 21 + 21 * 60000 ∧ (a = 0 ↔ 50 < 21).
Proof. apply allotment_fair; [lia|lia|lia|vm_compute; reflexivity]. Defined.

Definition states_42 : list tg_cashu_proof_state_t :=
  [mk_proof_state "07" false; mk_proof_state "07" true].

Lemma check_states_spent_witness :
  length states_42 = proof_count token_42 ∧
  ∃ resp (root arr : jval), Some (200, [123; 125]) = Some (200, resp) ∧
    @cJSON_Parse _ json_states (cstr (take 8191 resp)) = Some root ∧
    @get_arr _ json_states root "states" = Some arr ∧
    ∀ i st, states_42 !! i = Some st →
    (∃ p, tk_proofs token_42 !! i = Some p ∧ y_hex st = sha256_hex (λ _, [7]) (pf_secret p)) ∧
    (spent st = true ↔
       (i < @cJSON_GetArraySize _ json_states arr)%nat ∧ @answer_spent _ json_states arr i = true).
Proof.
  apply (@check_states_spent jval json_states (λ _, [7]) (λ _ _, Some (200, [123; 125]))
           "https://mint").
  vm_compute. reflexivity.
Defined.
