(* ===== verification/Core.v ===== *)
(** The core's entry points (tollgate_core.c): initialisation, payment with a
    Cashu token, rewards for mining shares, the owner of the gate and the
    periodic tick, with the requests of the captive portal and the stop of the
    services that reach into the same tables (captive_portal.c,
    tollgate_main.c). *)

From S2P Require Import Prelude CStr F64 Json Dns Firewall Session Mining Cashu.
From stdpp Require Import relations.
#[local] Open Scope Z_scope.

(** * State *)

Record core_state := mk_core_state {
  co_ap_ip : Z;
  s_owner_ip : Z;
  s_owner_mac : list Z;
  s_owner_connected : bool;
  co_sessions : session_state;
  co_mining : mining_state
}.

Definition core_boot : core_state :=
  mk_core_state 0 0 (replicate 6 0) false session_boot mining_boot.

Definition with_sessions (s : core_state) (ss : session_state) : core_state :=
  mk_core_state (co_ap_ip s) (s_owner_ip s) (s_owner_mac s) (s_owner_connected s) ss (co_mining s).
Definition with_mining (s : core_state) (m : mining_state) : core_state :=
  mk_core_state (co_ap_ip s) (s_owner_ip s) (s_owner_mac s) (s_owner_connected s)
    (co_sessions s) m.

Definition with_fw (ss : session_state) (f : fw_state → fw_state) : session_state :=
  mk_session_state (s_sessions ss) (s_session_count ss) (f (ss_fw ss)).

Definition core_fw (s : core_state) : fw_state := ss_fw (co_sessions s).

(** What an operation does outside the core: the wallet takes a token's
    proofs, the platform hears of a share. *)
Inductive core_event := EvSpendProofs (token : string) | EvShareAccepted (difficulty : f64).

(** * Operations *)

Section core.
Context `{MacLookup} `{CUndef} `{CJson J}.
Variable mbedtls_base64_decode : nat → string → option (list Z).
Variable mbedtls_sha256 : list Z → list Z.
Variable http_post : string → string → option (Z * list Z).
(** The platform's callbacks and the tick count at the time of the call. *)
Variable s_platform : option tollgate_platform_t.
Variable ticks : Z.

Definition tollgate_core_init (ap_ip : Z) (s : core_state) : esp_err_t * core_state :=
  match s_platform with
  | None => (ESP_FAIL, s)
  | Some _ =>
      let ss := snd (tollgate_core_session_init (co_sessions s)) in
      (ESP_OK, mk_core_state ap_ip (s_owner_ip s) (replicate 6 0) false
                 (with_fw ss (λ f, snd (tollgate_core_fw_init ap_ip f))) (co_mining s))
  end.

Definition tollgate_core_dns_start (upstream_dns : Z) (s : core_state) : esp_err_t * core_state :=
  let '(err, d) := tollgate_core_dns_start_internal (co_ap_ip s) upstream_dns (fw_dns (core_fw s)) in
  (err, with_sessions s (with_fw (co_sessions s)
          (λ f, fw_with f (s_clients f) (s_client_count f) d))).

Definition metric : string := default "milliseconds"%string (s_platform ≫= get_metric).
Definition metric_is_bytes : bool := bool_decide (metric = "bytes"%string).
Definition price_sats : Z := default 21 (s_platform ≫= get_price_sats).
Definition step_size : Z :=
  if metric_is_bytes then default 22020096 (s_platform ≫= get_step_bytes)
  else default 60000 (s_platform ≫= get_step_ms).

Definition create_session (ip allotment : Z) (ss : session_state) : option nat * session_state :=
  if metric_is_bytes
  then tollgate_core_session_create_bytes s_platform ticks ip allotment ss
  else tollgate_core_session_create s_platform ticks ip allotment ss.

(** The checks before the token is spent: the decoded token, if it passes. *)
Definition check_token (token_str : string) : option tg_cashu_token_t :=
  p ← s_platform;
  let accepted_mint := default ""%string (get_mint_url p) in
  if str_empty accepted_mint then None else
  token ← tollgate_core_cashu_decode_token mbedtls_base64_decode token_str;
  if negb (tollgate_core_cashu_is_mint_accepted (tk_mint_url token) accepted_mint) then None else
  states ← tollgate_core_cashu_check_proof_states mbedtls_sha256 http_post
             (tk_mint_url token) token;
  if existsb spent states then None else Some token.

Definition tollgate_core_process_payment (ip : Z) (token_str : string) (s : core_state)
  : esp_err_t * core_state * list core_event :=
  match check_token token_str with
  | None => (ESP_FAIL, s, [])
  | Some token =>
      let wallet := s_platform ≫= spend_proofs in
      if negb (default true ((λ f, f token_str) <$> wallet)) then (ESP_FAIL, s, []) else
      let ev := match wallet with Some _ => [EvSpendProofs token_str] | None => [] end in
      let allotment := tollgate_core_cashu_calculate_allotment
                         (tk_total_amount token) price_sats (u64 step_size) in
      if allotment =? 0 then (ESP_FAIL, s, ev) else
      match create_session ip allotment (co_sessions s) with
      | (None, ss) => (ESP_FAIL, with_sessions s ss, ev)
      | (Some _, ss) => (ESP_OK, with_sessions s ss, ev)
      end
  end.

(** ** Shares *)

Definition tollgate_core_calc_hashprice (s : core_state) : f64 :=
  match s_platform with
  | None => f64_zero
  | Some p =>
      let override := default 0 (get_hashprice_sats_per_ghs_day p) in
      if 0 <? override then tollgate_core_mining_calc_hashprice_override override
      else tollgate_core_mining_get_current_hashprice (co_mining s)
  end.

(** The allotment of one share at the client's hash rate. *)
Definition share_allotment (rate hashprice : f64) : Z :=
  if metric_is_bytes
  then tollgate_core_mining_shares_to_allotment_bytes rate hashprice price_sats step_size
  else tollgate_core_mining_shares_to_allotment_ms rate hashprice price_sats step_size.

(** Credit [allotment] to the session of [ip], created if there is none. *)
Definition credit_share (ip allotment : Z) (ss : session_state) : session_state :=
  match tollgate_core_session_find_by_ip ip ss with
  | Some i => tollgate_core_session_extend i allotment ss
  | None =>
      match create_session ip allotment ss with
      | (Some i, ss1) => update_session i (λ x, with_method x TG_PAYMENT_MINING) ss1
      | (None, ss1) => ss1
      end
  end.

Definition tollgate_core_on_share_accepted (ip : Z) (difficulty : f64) (s : core_state)
  : core_state * list core_event :=
  match s_platform with
  | None => (s, [])
  | Some _ =>
      let s1 := with_mining s
                  (tollgate_core_mining_update_hashrate ticks ip true (co_mining s)) in
      match tollgate_core_mining_get_client_stats ip (co_mining s1) with
      | None => (s1, [])
      | Some stats =>
          let hashprice := tollgate_core_calc_hashprice s1 in
          if f64_le hashprice f64_zero then (s1, []) else
          let allotment := share_allotment (hashrate_ghs stats) hashprice in
          if allotment =? 0 then (s1, []) else
          (with_sessions s1 (credit_share ip allotment (co_sessions s1)),
           [EvShareAccepted difficulty])
      end
  end.

(** ** The owner *)

Definition with_owner (s : core_state) (ip : Z) (m : list Z) (c : bool) : core_state :=
  mk_core_state (co_ap_ip s) ip m c (co_sessions s) (co_mining s).

Definition tollgate_core_client_connected (m : option (list Z)) (ip : Z) (s : core_state)
  : core_state :=
  if s_owner_connected s then s
  else with_owner s ip (default (s_owner_mac s) m) true.

(** The first six bytes of the text in [session.mac]. *)
Definition mac_head (x : tg_session_t) : list Z :=
  take 6 (str_bytes (mac x) ++ replicate 18 0).

Definition tollgate_core_client_disconnected (m : option (list Z)) (s : core_state) : core_state :=
  if negb (s_owner_connected s) then s else
  match m with
  | None => s
  | Some m =>
      if negb (bool_decide (s_owner_mac s = m)) then s else
      let s1 := with_owner s (s_owner_ip s) (replicate 6 0) false in
      if (0 <? tollgate_core_fw_client_count (core_fw s1))%nat then
        match find_slot (λ x, active x && negb (str_empty (mac x)) &&
                              negb (bool_decide (mac_head x = m)))
                (s_sessions (co_sessions s1)) ≫= λ i, s_sessions (co_sessions s1) !! i with
        | Some x => with_owner s1 (client_ip x) (s_owner_mac s1) true
        | None => s1
        end
      else s1
  end.

Definition tollgate_core_is_owner (ip : Z) (s : core_state) : bool :=
  s_owner_connected s && (s_owner_ip s =? ip).

Definition tollgate_core_is_owner_connected (s : core_state) : bool := s_owner_connected s.

(** ** Tick and queries *)

Definition tollgate_core_tick (s : core_state) : core_state :=
  with_sessions s (tollgate_core_session_tick s_platform ticks (co_sessions s)).

Definition tollgate_core_is_client_allowed (ip : Z) (s : core_state) : bool :=
  tollgate_core_fw_is_allowed ip (core_fw s).

Definition tollgate_core_is_dns_running (s : core_state) : bool :=
  tollgate_core_dns_is_running (fw_dns (core_fw s)).

Definition tollgate_core_active_session_count (s : core_state) : nat :=
  tollgate_core_session_active_count (co_sessions s).

Definition tollgate_core_allowed_client_count (s : core_state) : nat :=
  tollgate_core_fw_client_count (core_fw s).

Definition tollgate_core_get_status_json (s : core_state) : string :=
  cJSON_PrintUnformatted (JObj
    [("ownerConnected"%string, JBool (s_owner_connected s));
     ("activeSessions"%string, JInt (Z.of_nat (tollgate_core_active_session_count s)));
     ("allowedClients"%string, JInt (Z.of_nat (tollgate_core_allowed_client_count s)));
     ("dnsRunning"%string, JBool (tollgate_core_is_dns_running s))]).

Definition opt_field {A} (k : string) (f : A → jval) (o : option A) : list (string * jval) :=
  match o with Some x => [(k, f x)] | None => [] end.

Definition tollgate_core_get_config_json : string :=
  cJSON_PrintUnformatted (JObj
    (opt_field "priceSats" JInt (s_platform ≫= get_price_sats)
     ++ opt_field "stepMs" JInt (s_platform ≫= get_step_ms)
     ++ opt_field "mintUrl" JStr (s_platform ≫= get_mint_url)
     ++ opt_field "metric" JStr (s_platform ≫= get_metric)
     ++ opt_field "stepBytes" JInt (s_platform ≫= get_step_bytes))).

(** ** Requests of the portal, and the stop of the services *)

Definition grant_access_handler (ip : Z) (s : core_state) : core_state :=
  with_sessions s (with_fw (co_sessions s) (tollgate_core_fw_grant ip)).

Definition reset_auth_handler (s : core_state) : core_state :=
  let ss := tollgate_core_session_revoke_all (co_sessions s) in
  with_sessions s (with_fw ss tollgate_core_fw_revoke_all).

(** The part of [stop_services] that touches the core. *)
Definition stop_services (s : core_state) : core_state :=
  with_sessions s (with_fw (co_sessions s) (λ f,
    tollgate_core_fw_revoke_all
      (fw_with f (s_clients f) (s_client_count f) (tollgate_core_dns_stop (fw_dns f))))).
End core.

(** * Invariant of the core *)

Definition core_wf (s : core_state) : Prop :=
  session_wf (co_sessions s) ∧ mining_wf (co_mining s).

Lemma create_session_wf `{MacLookup} pf ticks ip n ss :
  session_wf ss → session_wf (snd (create_session pf ticks ip n ss)).
Proof. unfold create_session. case_if; auto with tg_db. Qed.

Lemma create_session_coupled `{MacLookup} pf ticks ip n ss :
  session_wf ss → coupled ss → coupled (snd (create_session pf ticks ip n ss)).
Proof. unfold create_session. case_if; auto with tg_db. Qed.

Lemma create_session_slot `{MacLookup} pf ticks ip n ss r ss' :
  session_wf ss → create_session pf ticks ip n ss = (r, ss') →
  match r with
  | Some i => ∃ x, s_sessions ss' !! i = Some x ∧ active x = true ∧ client_ip x = ip
  | None => ss' = ss
  end.
Proof.
  unfold create_session. intros Hwf Hcr. destruct (metric_is_bytes pf).
  - exact (session_create_bytes_result pf ticks ss ip n r ss' Hwf Hcr).
  - exact (session_create_result pf ticks ss ip n r ss' Hwf Hcr).
Qed.

Lemma create_session_result `{MacLookup} pf ticks ip n ss r ss' :
  session_wf ss → create_session pf ticks ip n ss = (r, ss') →
  match r with Some _ => has_session ss' ip | None => ss' = ss end.
Proof.
  intros Hwf Hcr. pose proof (create_session_slot pf ticks ip n ss r ss' Hwf Hcr) as Hs.
  destruct r as [i|]; [|done]. by exists i.
Qed.

#[export] Hint Resolve create_session_wf create_session_coupled : tg_db.

Lemma credit_share_inv `{MacLookup} pf ticks ip n ss :
  session_wf ss → coupled ss →
  session_wf (credit_share pf ticks ip n ss) ∧ coupled (credit_share pf ticks ip n ss).
Proof.
  intros Hwf Hc. unfold credit_share. destruct (tollgate_core_session_find_by_ip ip ss) as [i|].
  - split; [apply update_session_wf|apply update_coupled]; auto with tg_db.
  - pose proof (create_session_wf pf ticks ip n ss Hwf) as H1.
    pose proof (create_session_coupled pf ticks ip n ss Hwf Hc) as H2.
    destruct (create_session pf ticks ip n ss) as [[i|] ss1]; simpl in *; [|done].
    split; [apply update_session_wf|apply update_coupled]; auto with tg_db.
Qed.

(** Removing every session and every grant. *)
Lemma reset_inv ss :
  session_wf ss →
  let ss' := with_fw (tollgate_core_session_revoke_all ss) tollgate_core_fw_revoke_all in
  session_wf ss' ∧ coupled ss'.
Proof.
  intros Hwf. cbv zeta. unfold tollgate_core_session_revoke_all.
  destruct (revoke_where_spec active ss Hwf) as (Hwf1 & Hs & _); [done|].
  set (ss1 := revoke_where active ss) in *.
  assert (∀ i x, s_sessions ss1 !! i = Some x → active x = false) as Hno.
  { intros i x Hi. rewrite Hs in Hi. apply list_lookup_fmap_Some in Hi as (y & -> & _).
    by destruct (active y) eqn:Ha. }
  destruct Hwf1 as (Hl & Hc & Hu & Hfw). destruct (fw_revoke_all_wf (ss_fw ss1) Hfw) as [Hfw' Hips].
  split; [done|]. intros ip. unfold with_fw. simpl. rewrite Hips.
  split; [by intros ?%elem_of_nil|]. intros (i & x & Hi & Ha & _). simpl in Hi.
  by rewrite (Hno i x Hi) in Ha.
Qed.

(** Another DNS state with the same table leaves the firewall well formed. *)
Lemma with_dns_wf ss d :
  session_wf ss → s_auth_list d = s_auth_list (fw_dns (ss_fw ss)) →
  s_auth_count d = s_auth_count (fw_dns (ss_fw ss)) →
  session_wf (with_fw ss (λ f, fw_with f (s_clients f) (s_client_count f) d)).
Proof.
  intros (Hl & Hc & Hu & Hfw) Hd1 Hd2. split_and!; try done. cbn [with_fw ss_fw].
  unfold fw_wf, dns_wf, auth_ips in *. cbn [fw_dns fw_with s_clients s_client_count].
  rewrite Hd1, Hd2. exact Hfw.
Qed.

Lemma stop_services_spec s :
  session_wf (co_sessions s) →
  session_wf (co_sessions (stop_services s)) ∧ fw_ips (ss_fw (co_sessions (stop_services s))) = [].
Proof.
  intros Hwf. pose proof (with_dns_wf _ (tollgate_core_dns_stop (fw_dns (core_fw s))) Hwf eq_refl eq_refl)
    as (Hl & Hc & Hu & Hfw). destruct (fw_revoke_all_wf _ Hfw) as [H1 H2].
  split; [by split_and!|done].
Qed.

(** * The core as a transition system *)

(** One call of an entry point, in any environment (callback results, time,
    answers of mint and wallet). *)
Inductive core_step : core_state → core_state → Prop :=
| step_payment (M : MacLookup) (U : CUndef) (J : Type) (CJ : CJson J) b64 sha http pf ticks ip token s :
    core_step s (snd (fst (tollgate_core_process_payment b64 sha http pf ticks ip token s)))
| step_share (M : MacLookup) (U : CUndef) pf ticks ip d s :
    core_step s (fst (tollgate_core_on_share_accepted pf ticks ip d s))
| step_tick pf ticks s : core_step s (tollgate_core_tick pf ticks s)
| step_add_bytes ip n s :
    core_step s (with_sessions s (tollgate_core_session_add_bytes ip n (co_sessions s)))
| step_connected m ip s : core_step s (tollgate_core_client_connected m ip s)
| step_disconnected m s : core_step s (tollgate_core_client_disconnected m s)
| step_reset s : core_step s (reset_auth_handler s).

Definition core_inv (s : core_state) : Prop := core_wf s ∧ coupled (co_sessions s).

Lemma core_boot_inv : core_inv core_boot.
Proof. split; [split|]; [apply session_boot_wf|apply mining_boot_wf|apply session_boot_coupled]. Qed.

Lemma share_inv `{MacLookup, CUndef} pf ticks ip d s :
  core_inv s → core_inv (fst (tollgate_core_on_share_accepted pf ticks ip d s)).
Proof.
  intros ((Hwf & Hm) & Hc). unfold tollgate_core_on_share_accepted.
  destruct pf as [p|]; [|done]. set (s1 := with_mining s _).
  assert (core_inv s1) as Hi1 by (split; [split; [done|simpl; auto with tg_db]|done]).
  destruct (tollgate_core_mining_get_client_stats ip (co_mining s1)) as [st|]; [|done].
  case_if; [done|]. case_if; [done|].
  destruct (credit_share_inv (Some p) ticks ip
    (share_allotment (Some p) (hashrate_ghs st) (tollgate_core_calc_hashprice (Some p) s1))
    (co_sessions s1) Hwf Hc) as [H1 H2].
  by split; [split; [|by destruct Hi1 as [[_ ?] _]]|].
Qed.

Lemma core_step_inv s s' : core_step s s' → core_inv s → core_inv s'.
Proof.
  intros Hstep ((Hwf & Hm) & Hc). destruct Hstep.
  - unfold tollgate_core_process_payment. destruct (check_token _ _ _ _ _) as [t|]; [|done].
    case_if; [done|]. case_if; [done|].
    match goal with |- context [create_session ?p ?t ?i ?n ?ss] =>
      pose proof (create_session_wf p t i n ss Hwf);
      pose proof (create_session_coupled p t i n ss Hwf Hc);
      destruct (create_session p t i n ss) as [[k|] ss']
    end; done.
  - by apply share_inv.
  - split; [split; [|done]|]; simpl; unfold tollgate_core_session_tick, check_expiry.
    + apply revoke_where_spec; [done|]. intros x Hx. by bool_hyps.
    + apply revoke_where_coupled; [done| |done]. intros x Hx. by bool_hyps.
  - unfold tollgate_core_session_add_bytes.
    destruct (tollgate_core_session_find_by_ip ip (co_sessions s)); [|done].
    split; [split; [apply update_session_wf|done]|apply update_coupled]; auto with tg_db.
  - unfold tollgate_core_client_connected. by case_if.
  - unfold tollgate_core_client_disconnected. repeat (case_if || case_match); done.
  - destruct (reset_inv (co_sessions s) Hwf) as [H1 H2]. done.
Qed.

Lemma core_reachable_inv s : rtc core_step core_boot s → core_inv s.
Proof.
  intros Hr. remember core_boot as s0 eqn:E. assert (core_inv s0) as Hi by (subst; apply core_boot_inv).
  clear E. induction Hr as [|a b c Hab _ IH]; [done|]. eauto using core_step_inv.
Qed.
#[export] Hint Resolve core_boot_inv core_step_inv core_reachable_inv : tg_db.

(** * Properties *)

Section payment.
Context `{MacLookup} `{CUndef} `{CJson J} (b64 : nat → string → option (list Z))
  (sha : list Z → list Z) (http_post : string → string → option (Z * list Z))
  (pf : option tollgate_platform_t) (ticks : Z).
Notation pay := (tollgate_core_process_payment b64 sha http_post pf ticks).

(** What [check_token] has established about the token it returns. *)
Lemma check_token_sound token t :
  check_token b64 sha http_post pf token = Some t →
  ∃ p states,
    pf = Some p ∧ get_mint_url p = Some (tk_mint_url t) ∧
    tollgate_core_cashu_decode_token b64 token = Some t ∧
    tollgate_core_cashu_check_proof_states sha http_post (tk_mint_url t) t = Some states ∧
    Forall (λ st, spent st = false) states.
Proof.
  unfold check_token. destruct pf as [p|]; [|done]. simpl.
  destruct (str_empty _) eqn:He; [done|].
  destruct (tollgate_core_cashu_decode_token b64 token) as [t'|] eqn:Hd; [|done]. simpl.
  destruct (tollgate_core_cashu_is_mint_accepted _ _) eqn:Hm; [|done]. simpl.
  destruct (tollgate_core_cashu_check_proof_states _ _ _ _) as [st|] eqn:Hs; [|done]. simpl.
  destruct (existsb spent st) eqn:Hex; [done|]. intros [= <-].
  exists p, st. split_and!; try done.
  - unfold tollgate_core_cashu_is_mint_accepted in Hm. rewrite He in Hm.
    destruct (str_empty (tk_mint_url t')); [done|]. apply bool_decide_eq_true in Hm. rewrite Hm. destruct (get_mint_url p); done.
  - apply Forall_lookup. intros i x Hi. destruct (spent x) eqn:Hx; [|done].
    assert (existsb spent st = true) as Hc; [|congruence].
    apply existsb_exists. exists x. split; [|done].
    apply list_elem_of_In. by apply list_elem_of_lookup_2 with i.
Qed.

End payment.

Section shares.
Context `{MacLookup} `{CUndef} (pf : option tollgate_platform_t) (ticks : Z).

(** An accepted share of a client with a positive reward gives it access:
    its running session is extended by the share's allotment, or it gets a
    new session that counts as mined; only when no slot is free for it does
    nothing change. *)
Theorem share_credit_outcome ip n ss :
  session_wf ss → coupled ss →
  let ss' := credit_share pf ticks ip n ss in
  (∀ i x, s_sessions ss !! i = Some x → active x = true → client_ip x = ip →
     s_sessions ss' !! i = Some (with_ms x (u64 (allotment_ms x + n)))) ∧
  (¬ has_session ss ip → has_session ss' ip →
     ∃ i x, s_sessions ss' !! i = Some x ∧ client_ip x = ip ∧ active x = true ∧
            payment_method x = TG_PAYMENT_MINING) ∧
  (has_session ss' ip → tollgate_core_fw_is_allowed ip (ss_fw ss') = true) ∧
  (¬ has_session ss' ip → ss' = ss).
Proof.
  intros Hwf Hc ss'. destruct (credit_share_inv pf ticks ip n ss Hwf Hc) as [Hwf' Hc'].
  fold ss' in Hwf', Hc'. split_and!.
  - intros i x Hi Ha <-. unfold ss', credit_share.
    rewrite (find_by_ip_unique ss i x Hwf Hi Ha).
    unfold tollgate_core_session_extend, update_session. simpl.
    by rewrite list_lookup_alter_eq, Hi; simpl; rewrite Ha.
  - intros Hnot. clear Hwf' Hc'. unfold ss', credit_share.
    rewrite (proj2 (find_by_ip_None ss ip) Hnot). intros Hh.
    destruct (create_session pf ticks ip n ss) as [[i|] ss1] eqn:Hcr.
    + destruct (create_session_slot pf ticks ip n ss (Some i) ss1 Hwf Hcr) as (x & Hx & Ha & Hip).
      exists i, (with_method x TG_PAYMENT_MINING). unfold update_session. simpl.
      by rewrite list_lookup_alter_eq, Hx.
    + apply create_session_result in Hcr; [|done]. by rewrite Hcr in Hh.
  - intros Hh. apply fw_is_allowed_spec. by apply Hc'.
  - unfold ss', credit_share. destruct (tollgate_core_session_find_by_ip ip ss) as [i|] eqn:Hf.
    + intros Hn. destruct Hn. destruct (find_by_ip_Some _ _ _ Hf) as (x & Hx & Ha & Hip).
      apply update_has_session; [apply keeps_extend|]. by exists i, x.
    + destruct (create_session pf ticks ip n ss) as [[i|] ss1] eqn:Hcr.
      * intros Hn. destruct Hn.
        destruct (create_session_slot pf ticks ip n ss (Some i) ss1 Hwf Hcr) as (x & Hx & Ha & Hip).
        apply update_has_session; [done|]. by exists i, x.
      * intros _. by apply create_session_result in Hcr.
Qed.
End shares.

(** A share credited to a running session in bytes mode buys nothing: it is
    added to the time of the session, not to its bytes, so that the session
    ends as if there had been no share. *)
Theorem share_in_bytes_mode_buys_nothing pf ticks n x :
  (pf ≫= get_metric) = Some "bytes"%string → active x = true →
  tollgate_core_session_is_expired pf ticks (with_ms x (u64 (allotment_ms x + n))) =
  tollgate_core_session_is_expired pf ticks x.
Proof.
  intros Hm Ha. unfold tollgate_core_session_is_expired. rewrite Hm. simpl. rewrite Ha.
  by repeat case_if.
Qed.

(** When the services stop, all access is revoked but the sessions stay: a
    client that pays again while its session runs is charged, and stays
    without access. *)
Theorem paying_after_stop_gives_no_access `{MacLookup} pf ticks s ip n i x :
  core_wf s → s_sessions (co_sessions s) !! i = Some x → active x = true → client_ip x = ip →
  let ss := co_sessions (stop_services s) in
  fst (tollgate_core_session_create pf ticks ip n ss) = Some i ∧
  tollgate_core_fw_is_allowed ip
    (ss_fw (snd (tollgate_core_session_create pf ticks ip n ss))) = false.
Proof.
  intros [Hwf _] Hi Ha <- ss. destruct (stop_services_spec s Hwf) as [Hwf' Hips]. fold ss in Hwf', Hips.
  rewrite (create_existing _ _ _ _ _ i) by (by apply (find_by_ip_unique ss i x)).
  split; [done|]. apply fw_is_allowed_false.
  change (client_ip x ∉ fw_ips (ss_fw ss)). rewrite Hips. by intros ?%elem_of_nil.
Qed.

(** Initialising the core again empties the firewall's table but not the DNS
    server's: what was authenticated stays so, without access. *)
Theorem init_keeps_dns_authenticated p ap_ip s ip :
  is_authenticated (fw_dns (core_fw s)) ip = true →
  let s' := snd (tollgate_core_init (Some p) ap_ip s) in
  is_authenticated (fw_dns (core_fw s')) ip = true ∧ tollgate_core_is_client_allowed ip s' = false.
Proof.
  intros Ha. split; [done|]. apply fw_is_allowed_false. by intros ?%elem_of_nil.
Qed.

(** * A concrete environment *)

Definition states_unspent : jval :=
  JObj [("states", JArr [JObj [("state", JStr "UNSPENT")]; JObj [("state", JStr "UNSPENT")]])]%string.
Definition json_env : CJson jval :=
  tree_json (λ s, if bool_decide (s = "t") then Some token_tree else Some states_unspent)%string.
Definition b64_env : nat → string → option (list Z) := λ _ _, Some [116].
Definition http_env : string → string → option (Z * list Z) := λ _ _, Some (200, [115]).
Definition platform_pay (price : Z) : option tollgate_platform_t :=
  Some (mk_platform (Some price) (Some 60000) (Some "https://mint"%string)
          (Some "milliseconds"%string) None (Some 1000) (Some (λ _, true)) None).
Definition pay_env (price ip : Z) (s : core_state) : esp_err_t * core_state * list core_event :=
  @tollgate_core_process_payment mac_none cundef_zero jval json_env b64_env (λ _, [7]) http_env
    (platform_pay price) 0 ip "cashuAe30" s.

(** The wallet takes the proofs before the amount is compared with the price:
    a token of 42 sat at a price of 100 is spent and buys nothing. *)
Theorem payment_can_burn_token :
  pay_env 100 5 core_boot = (ESP_FAIL, core_boot, [EvSpendProofs "cashuAe30"]).
Proof. vm_compute. reflexivity. Qed.

(** Ten requests to the portal's [grant_access] fill the firewall's table: the
    client that pays then has a session and no access. *)
Theorem portal_grants_shut_out_payer :
  let s := foldl (λ s ip, @grant_access_handler mac_none ip s) core_boot
             [11; 12; 13; 14; 15; 16; 17; 18; 19; 20] in
  let '(err, s', _) := pay_env 21 5 s in
  err = ESP_OK ∧ tollgate_core_is_client_allowed 5 s' = false ∧
  tollgate_core_active_session_count s' = 1%nat ∧
  tollgate_core_is_client_allowed 11 s' = true.
Proof. vm_compute. done. Qed.

(** The owner that leaves is compared with the text of the sessions' MAC
    addresses: its own session makes it owner again. *)
Theorem departed_owner_reelected :
  let mac : MacLookup := λ _, Some "02:03:04:05:06:07"%string in
  let m := [2; 3; 4; 5; 6; 7] in
  let s := tollgate_core_client_connected (Some m) 5 core_boot in
  let ss := snd (tollgate_core_session_create (platform_pay 21) 0 5 60000 (co_sessions s)) in
  tollgate_core_is_owner 5 (tollgate_core_client_disconnected (Some m) (with_sessions s ss)) = true.
Proof. vm_compute. reflexivity. Qed.


Lemma share_credit_outcome_witness :
  let ss' := @credit_share mac_none platform_example 0 5 500 session_example in
  (∀ i x, s_sessions session_example !! i = Some x → active x = true → client_ip x = 5 →
     s_sessions ss' !! i = Some (with_ms x (u64 (allotment_ms x + 500)))) ∧
  (¬ has_session session_example 5 → has_session ss' 5 →
     ∃ i x, s_sessions ss' !! i = Some x ∧ client_ip x = 5 ∧ active x = true ∧
            payment_method x = TG_PAYMENT_MINING) ∧
  (has_session ss' 5 → tollgate_core_fw_is_allowed 5 (ss_fw ss') = true) ∧
  (¬ has_session ss' 5 → ss' = session_example).
Proof.
  apply (@share_credit_outcome mac_none platform_example 0 5 500 session_example).
  - exact session_example_wf.
  - exact session_example_coupled.
Defined.
