(* ===== verification/Beacon.v ===== *)
(** The price advertisement (tollgate_core_beacon.c): the vendor information
    element a gate puts in its beacons, as a record and as the packed bytes
    that go on the air. *)

From S2P Require Import Prelude CStr.

Definition TOLLGATE_OUI : list Z := [0xC0; 0xFF; 0xEE].
Definition TOLLGATE_IE_TYPE : Z := 0x01.
Definition TOLLGATE_IE_VERSION : Z := 1.
Definition TOLLGATE_IE_ELEMENT_ID : Z := 0xDD.
Definition TOLLGATE_IE_GEOHASH_MAX : nat := 9.
Definition TOLLGATE_IE_PAYLOAD_SIZE : nat := 26.

(** Little-endian integers, as the target lays them out. *)
Definition put_le (n : nat) (v : Z) : list Z := rev (put_be n v).
Definition get_le (l : list Z) : Z := get_be (rev l).

#[global] Arguments get_le : simpl never.
#[global] Arguments put_le : simpl never.

Lemma get_put_le n v : get_le (put_le n v) = v mod 256 ^ Z.of_nat n.
Proof. unfold get_le, put_le. rewrite rev_involutive. apply get_put_be. Qed.

Lemma length_put_le n v : length (put_le n v) = n.
Proof. unfold put_le. rewrite length_rev. apply length_put_be. Qed.
#[export] Hint Rewrite length_put_le : tg_rw.

(** * The payload *)

Record tollgate_price_payload_t := mk_payload {
  pp_version : Z;
  pp_metric : Z;
  pp_price_per_step : Z;
  pp_step_size : Z;
  pp_mint_hash : list Z;
  pp_geohash_len : Z;
  pp_geohash : list Z;
  pp_npub_hash : list Z
}.

(** The packed struct in memory, and a pointer to bytes taken as the struct. *)
Definition payload_bytes (p : tollgate_price_payload_t) : list Z :=
  [pp_version p; pp_metric p] ++ put_le 2 (pp_price_per_step p) ++ put_le 4 (pp_step_size p)
  ++ pp_mint_hash p ++ [pp_geohash_len p] ++ pp_geohash p ++ pp_npub_hash p.

Definition payload_at (b : list Z) : tollgate_price_payload_t :=
  mk_payload (default 0 (b !! 0%nat)) (default 0 (b !! 1%nat))
    (get_le (slice 2 2 b)) (get_le (slice 4 4 b)) (slice 8 4 b)
    (default 0 (b !! 12%nat)) (slice 13 9 b) (slice 22 4 b).

Definition payload_ok (p : tollgate_price_payload_t) : Prop :=
  is_u16 (pp_price_per_step p) ∧ is_u32 (pp_step_size p) ∧ length (pp_mint_hash p) = 4%nat ∧
  length (pp_geohash p) = TOLLGATE_IE_GEOHASH_MAX ∧ length (pp_npub_hash p) = 4%nat.

Record tollgate_price_ie_t := mk_ie {
  ie_element_id : Z;
  ie_length : Z;
  ie_vendor_oui : list Z;
  ie_vendor_oui_type : Z;
  ie_payload : tollgate_price_payload_t
}.

Record tollgate_beacon_config_t := mk_beacon_config {
  bc_mint_url : string;
  bc_metric : string;
  bc_price_per_step : Z;
  bc_step_size_ms : Z;
  bc_step_size_bytes : Z;
  bc_geohash : string;
  bc_npub_hex : option string;
  bc_identity_initialized : bool
}.

Section beacon.
Variable mbedtls_sha256 : list Z → list Z.

Definition tollgate_core_beacon_hash_mint (mint_url : string) : list Z :=
  take 4 (mbedtls_sha256 (str_bytes mint_url)).

Definition tollgate_core_beacon_hash_npub (npub_hex : string) : list Z :=
  take 4 (mbedtls_sha256 (str_bytes npub_hex)).

Definition tollgate_core_beacon_build_ie (cfg : tollgate_beacon_config_t) : tollgate_price_ie_t :=
  let is_bytes := bool_decide (bc_metric cfg = "bytes"%string) in
  let gh := take TOLLGATE_IE_GEOHASH_MAX (str_bytes (bc_geohash cfg)) in
  let npub_hash :=
    match bc_identity_initialized cfg, bc_npub_hex cfg with
    | true, Some npub => tollgate_core_beacon_hash_npub npub
    | _, _ => replicate 4 0
    end in
  mk_ie TOLLGATE_IE_ELEMENT_ID (4 + Z.of_nat TOLLGATE_IE_PAYLOAD_SIZE) TOLLGATE_OUI
    TOLLGATE_IE_TYPE
    (mk_payload TOLLGATE_IE_VERSION (if is_bytes then 1 else 0)
       (u16 (bc_price_per_step cfg))
       (u32 (if is_bytes then bc_step_size_bytes cfg else bc_step_size_ms cfg))
       (tollgate_core_beacon_hash_mint (bc_mint_url cfg))
       (Z.of_nat (length gh))
       (gh ++ replicate (TOLLGATE_IE_GEOHASH_MAX - length gh) 0)
       npub_hash).

(** The hash function gives 32 bytes. *)
Definition sha256_contract : Prop := ∀ l, length (mbedtls_sha256 l) = 32%nat.

Lemma build_ie_payload_ok cfg :
  sha256_contract → payload_ok (ie_payload (tollgate_core_beacon_build_ie cfg)).
Proof.
  intros Hsha. unfold payload_ok, tollgate_core_beacon_build_ie. cbn [ie_payload pp_price_per_step
    pp_step_size pp_mint_hash pp_geohash pp_npub_hash].
  split_and!; [apply u16_range|apply u32_range| | |].
  - unfold tollgate_core_beacon_hash_mint. by rewrite length_take, Hsha.
  - rewrite length_app, length_replicate, length_take. unfold TOLLGATE_IE_GEOHASH_MAX. lia.
  - destruct (bc_identity_initialized cfg), (bc_npub_hex cfg); try done.
    unfold tollgate_core_beacon_hash_npub. by rewrite length_take, Hsha.
Qed.
End beacon.

(** Reading the packed bytes gives the struct back. *)
Lemma payload_roundtrip p rest : payload_ok p → payload_at (payload_bytes p ++ rest) = p.
Proof.
  intros (Hp & Hs & Hm & Hg & Hn). destruct p as [v m pr st mh gl gh nh].
  cbn [pp_version pp_metric pp_price_per_step pp_step_size pp_mint_hash pp_geohash_len
       pp_geohash pp_npub_hash] in *.
  unfold TOLLGATE_IE_GEOHASH_MAX in *. unfold payload_at, payload_bytes.
  cbn [pp_version pp_metric pp_price_per_step pp_step_size pp_mint_hash pp_geohash_len
       pp_geohash pp_npub_hash].
  pose proof (get_put_le 2 pr) as Hpr. pose proof (get_put_le 4 st) as Hst.
  pose proof (length_put_le 2 pr) as Hl2. pose proof (length_put_le 4 st) as Hl4.
  unfold is_u16, is_u32 in *. pow_consts.
  change (256 ^ Z.of_nat 2) with 65536 in Hpr. change (256 ^ Z.of_nat 4) with 4294967296 in Hst.
  rewrite Z.mod_small in Hpr, Hst by lia.
  destruct (put_le 2 pr) as [|p0 [|p1 [|]]]; try done.
  destruct (put_le 4 st) as [|s0 [|s1 [|s2 [|s3 [|]]]]]; try done.
  destruct mh as [|m0 [|m1 [|m2 [|m3 [|]]]]]; try done.
  destruct nh as [|n0 [|n1 [|n2 [|n3 [|]]]]]; try done.
  do 9 (destruct gh as [|? gh]; [done|]). destruct gh; [|done].
  unfold slice. simpl.  by rewrite Hpr, Hst, take_0.
Qed.

Lemma length_payload_bytes p :
  payload_ok p → length (payload_bytes p) = TOLLGATE_IE_PAYLOAD_SIZE.
Proof.
  intros (_ & _ & Hm & Hg & Hn). unfold payload_bytes, TOLLGATE_IE_GEOHASH_MAX in *.
  rewrite !length_app, Hm, Hg, Hn, !length_put_le. done.
Qed.
