(* ===== verification/Market.v ===== *)
(** The market of neighbouring gates: the table of advertisements heard
    (tollgate_core_market.c) and the scanner that fills it (main/market.c).
    The Wi-Fi driver's scan is a parameter. *)

From S2P Require Import Prelude CStr Beacon.

Definition TG_MARKET_MAX_ENTRIES : nat := 10.

Record tollgate_market_entry_t := mk_market_entry {
  me_bssid : list Z;
  me_ssid : list Z;              (* the bytes before the terminating NUL *)
  me_rssi : Z;
  me_price_per_step : Z;
  me_step_size : Z;
  me_metric : Z;
  me_mint_hash : list Z;
  me_npub_hash : list Z;
  me_geohash : list Z;
  me_discovered_ms : Z;
  me_valid : bool
}.

Definition market_entry_zero : tollgate_market_entry_t :=
  mk_market_entry (replicate 6 0) [] 0 0 0 0 (replicate 4 0) (replicate 4 0) [] 0 false.

Record tollgate_market_t := mk_market {
  mk_entries : list tollgate_market_entry_t;
  mk_count : nat;
  last_scan_ms : Z;
  scanning : bool;
  consecutive_failures : Z
}.

(** An information element as the Wi-Fi driver hands it over: [payload] is
    what lies in memory, [payload_len] the length it announces. *)
Record tollgate_vendor_ie_t := mk_vendor_ie {
  vi_oui : list Z;
  vi_oui_type : Z;
  vi_payload : list Z;
  vi_payload_len : Z
}.

(** * Operations *)

Definition tollgate_core_market_init : tollgate_market_t :=
  mk_market (replicate TG_MARKET_MAX_ENTRIES market_entry_zero) 0 0 false 0.

Definition find_entry_by_bssid (bssid : list Z) (m : tollgate_market_t) : option nat :=
  find_slot (λ e, me_valid e && bool_decide (me_bssid e = bssid)) (mk_entries m).

(** The loop over the entries from [i] that keeps the oldest one. *)
Fixpoint oldest_from (l : list tollgate_market_entry_t) (i oldest : nat) (oldest_time : Z) : nat :=
  match l with
  | [] => oldest
  | e :: l' =>
      if me_discovered_ms e <? oldest_time then oldest_from l' (S i) i (me_discovered_ms e)
      else oldest_from l' (S i) oldest oldest_time
  end.

Definition find_free_slot (m : tollgate_market_t) : nat :=
  match find_slot (λ e, negb (me_valid e)) (mk_entries m) with
  | Some i => i
  | None =>
      match mk_entries m with
      | e :: l => oldest_from l 1 0 (me_discovered_ms e)
      | [] => 0%nat
      end
  end.

(** The table after the element; [None] when the bytes taken for the payload
    reach past the memory behind the element. *)
Definition tollgate_core_market_parse_ie (now : Z) (sa : list Z) (ie : tollgate_vendor_ie_t)
    (rssi : Z) (self_npub_hash : option (list Z)) (m : tollgate_market_t)
  : option tollgate_market_t :=
  if vi_payload_len ie <? Z.of_nat TOLLGATE_IE_PAYLOAD_SIZE then Some m else
  if negb (bool_decide (vi_oui ie = TOLLGATE_OUI)) then Some m else
  if negb (vi_oui_type ie =? TOLLGATE_IE_TYPE) then Some m else
  if (length (vi_payload ie) <? TOLLGATE_IE_PAYLOAD_SIZE)%nat then None else
  let payload := payload_at (vi_payload ie) in
  if negb (pp_version payload =? TOLLGATE_IE_VERSION) then Some m else
  if bool_decide (self_npub_hash = Some (pp_npub_hash payload)) then Some m else
  let '(idx, count) :=
    match find_entry_by_bssid sa m with
    | Some i => (i, mk_count m)
    | None =>
        (find_free_slot m,
         if (mk_count m <? TG_MARKET_MAX_ENTRIES)%nat then S (mk_count m) else mk_count m)
    end in
  let gh_len := Nat.min (Z.to_nat (pp_geohash_len payload)) TOLLGATE_IE_GEOHASH_MAX in
  let entry :=
    mk_market_entry sa [] (i8 rssi) (pp_price_per_step payload) (pp_step_size payload)
      (pp_metric payload) (pp_mint_hash payload) (pp_npub_hash payload)
      (take gh_len (pp_geohash payload)) now true in
  Some (mk_market (<[idx := entry]> (mk_entries m)) count (last_scan_ms m) (scanning m)
          (consecutive_failures m)).

(** An entry the search considers, and the price it compares. *)
Definition comparable (e : tollgate_market_entry_t) : bool :=
  me_valid e && negb (bool_decide (me_ssid e = [])) && negb (me_step_size e =? 0).

Definition eff_price (e : tollgate_market_entry_t) : Z :=
  if me_metric e =? 0 then u32 (me_price_per_step e * 60000) / me_step_size e
  else u32 (me_price_per_step e * 1048576) / me_step_size e.

Fixpoint cheapest_from (l : list tollgate_market_entry_t) (i : nat) (cheapest : option nat)
    (best_eff_price : Z) : option nat :=
  match l with
  | [] => cheapest
  | e :: l' =>
      if comparable e && (eff_price e <? best_eff_price)
      then cheapest_from l' (S i) (Some i) (eff_price e)
      else cheapest_from l' (S i) cheapest best_eff_price
  end.

Definition tollgate_core_market_find_cheapest (m : tollgate_market_t) : option nat :=
  cheapest_from (mk_entries m) 0 None UINT32_MAX.

(** The bytes of a NUL-terminated buffer. *)
Definition until_nul (l : list Z) : list Z :=
  match find_slot (λ b, b =? 0) l with Some i => take i l | None => l end.

Definition tollgate_core_market_update_ssid (bssid ssid : list Z) (rssi : Z)
    (m : tollgate_market_t) : tollgate_market_t :=
  match find_entry_by_bssid bssid m with
  | Some i =>
      mk_market
        (alter (λ e, mk_market_entry (me_bssid e) (until_nul (take 32 ssid)) rssi
                       (me_price_per_step e) (me_step_size e) (me_metric e) (me_mint_hash e)
                       (me_npub_hash e) (me_geohash e) (me_discovered_ms e) (me_valid e))
               i (mk_entries m))
        (mk_count m) (last_scan_ms m) (scanning m) (consecutive_failures m)
  | None => m
  end.

(** * The scanner *)

Definition with_scan (m : tollgate_market_t) (last : Z) (scan : bool) (fails : Z) : tollgate_market_t :=
  mk_market (mk_entries m) (mk_count m) last scan fails.

(** [scan_done_cb]: the access points of the finished scan, at most twenty. *)
Definition scan_done_cb (now : Z) (aps : list (list Z * list Z * Z)) (m : tollgate_market_t)
  : tollgate_market_t :=
  let m1 := with_scan m (last_scan_ms m) false (consecutive_failures m) in
  if (length aps =? 0)%nat then m1 else
  let m2 := foldl (λ m '(bssid, ssid, rssi), tollgate_core_market_update_ssid bssid ssid rssi m)
              m1 (take 20 aps) in
  with_scan m2 now (scanning m2) (consecutive_failures m2).

(** [market_tick]: [scan_start] is the driver's answer to the request. *)
Definition market_tick (initialized enabled : bool) (now interval_s : Z)
    (scan_start : esp_err_t) (m : tollgate_market_t) : tollgate_market_t :=
  if negb initialized then m else
  if negb enabled then m else
  if scanning m then m else
  if i64 (now - last_scan_ms m) <? interval_s * 1000 then m else
  if bool_decide (scan_start = ESP_OK) then with_scan m now true 0
  else with_scan m now false (i32 (consecutive_failures m + 1)).

(** [vendor_ie_cb]: the announced length less four, as a [size_t]. *)
Definition vendor_ie_cb (now : Z) (sa : list Z) (oui : list Z) (oui_type : Z) (payload : list Z)
    (ie_len rssi : Z) (self : option (list Z)) (m : tollgate_market_t) : option tollgate_market_t :=
  tollgate_core_market_parse_ie now sa (mk_vendor_ie oui oui_type payload (u32 (ie_len - 4)))
    rssi self m.

Definition market_parse_vendor_ie (now : Z) (sa : list Z) (oui : list Z) (oui_type : Z)
    (payload : list Z) (ie_len rssi : Z) (self : option (list Z)) (m : tollgate_market_t)
  : option tollgate_market_t :=
  if ie_len <? 4 + Z.of_nat TOLLGATE_IE_PAYLOAD_SIZE then Some m
  else tollgate_core_market_parse_ie now sa (mk_vendor_ie oui oui_type payload (u32 (ie_len - 4)))
         rssi self m.

(** * Invariant *)

(** Ten entries, the count being that of the valid ones, no access point
    twice. *)
Definition market_wf (m : tollgate_market_t) : Prop :=
  length (mk_entries m) = TG_MARKET_MAX_ENTRIES ∧
  mk_count m = count_slots me_valid (mk_entries m) ∧
  uniq_keys me_valid me_bssid (mk_entries m).

Lemma oldest_from_lt l i oldest t :
  (oldest < i)%nat → (oldest_from l i oldest t < i + length l)%nat.
Proof.
  revert i oldest t. induction l as [|e l IH]; intros i oldest t Hlt; simpl; [lia|].
  case_if; (eapply Nat.lt_le_trans; [apply IH; lia|lia]).
Qed.

Lemma find_free_slot_lt m :
  length (mk_entries m) = TG_MARKET_MAX_ENTRIES → (find_free_slot m < TG_MARKET_MAX_ENTRIES)%nat.
Proof.
  intros Hl. unfold find_free_slot. destruct (find_slot _ _) as [i|] eqn:Hf.
  - apply find_slot_Some in Hf as (x & Hx & _). apply lookup_lt_Some in Hx. lia.
  - destruct (mk_entries m) as [|e l]; simpl in *; [unfold TG_MARKET_MAX_ENTRIES; lia|].
    rewrite <- Hl. apply (oldest_from_lt l 1 0). lia.
Qed.

Lemma market_init_wf : market_wf tollgate_core_market_init.
Proof.
  split_and!; [done|done|by apply uniq_keys_replicate].
Qed.

Lemma find_entry_Some bssid m i :
  find_entry_by_bssid bssid m = Some i →
  ∃ x, mk_entries m !! i = Some x ∧ me_valid x = true ∧ me_bssid x = bssid.
Proof.
  intros (x & Hx & Hp & _)%find_slot_Some. apply andb_true_iff in Hp as [Hv Hb].
  apply bool_decide_eq_true in Hb. by exists x.
Qed.

Lemma find_entry_None bssid m i x :
  find_entry_by_bssid bssid m = None → mk_entries m !! i = Some x → me_valid x = true →
  me_bssid x ≠ bssid.
Proof.
  intros Hf Hi Hv. pose proof (proj1 (find_slot_None _ _) Hf i x Hi) as Hp. cbn beta in Hp.
  rewrite Hv in Hp. by apply bool_decide_eq_false in Hp.
Qed.

(** The slot that [parse_ie] writes, and the count afterwards. *)
Definition target_slot (sa : list Z) (m : tollgate_market_t) : nat * nat :=
  match find_entry_by_bssid sa m with
  | Some i => (i, mk_count m)
  | None =>
      (find_free_slot m,
       if (mk_count m <? TG_MARKET_MAX_ENTRIES)%nat then S (mk_count m) else mk_count m)
  end.

Lemma target_slot_wf m sa (e : tollgate_market_entry_t) l sc f :
  market_wf m → me_valid e = true → me_bssid e = sa →
  let '(idx, count) := target_slot sa m in
  (idx < length (mk_entries m))%nat ∧ market_wf (mk_market (<[idx := e]> (mk_entries m)) count l sc f).
Proof.
  intros (Hl & Hc & Hu) Hv Hb. unfold target_slot.
  destruct (find_entry_by_bssid sa m) as [i|] eqn:Hf.
  - apply find_entry_Some in Hf as (x & Hx & Hvx & Hbx).
    pose proof (lookup_lt_Some _ _ _ Hx) as Hlt. split; [done|]. split_and!; simpl.
    + by simpl_len.
    + pose proof (count_slots_insert me_valid _ i x e Hx) as Hcs. rewrite Hv, Hvx in Hcs. lia.
    + apply uniq_keys_insert; [done|]. intros j y Hj Hy _ Hk. apply (Hu j i y x); congruence.
  - pose proof (find_free_slot_lt m Hl) as Hlt. split; [by rewrite Hl|].
    destruct (lookup_lt_is_Some_2 (mk_entries m) (find_free_slot m)) as [x Hx]; [by rewrite Hl|].
    pose proof (count_slots_insert me_valid _ _ x e Hx) as Hcs. rewrite Hv in Hcs.
    pose proof (count_slots_le me_valid (mk_entries m)) as Hle. split_and!; simpl.
    + by simpl_len.
    + unfold find_free_slot in *. destruct (find_slot _ _) as [k|] eqn:Hk.
      * apply find_slot_Some in Hk as (y & Hy & Hn & _). assert (x = y) as -> by congruence.
        bool_hyps. rewrite Hn in Hcs. simpl in Hcs.
        destruct (decide (count_slots me_valid (mk_entries m) = length (mk_entries m))) as [Hfull|].
        { by rewrite (count_slots_full _ _ Hfull k y Hy) in Hn. }
        rewrite (proj2 (Nat.ltb_lt _ _)) by lia. lia.
      * assert (me_valid x = true) as Hvx.
        { pose proof (proj1 (find_slot_None _ _) Hk _ x Hx) as Hn. cbn beta in Hn. by bool_hyps. }
        rewrite Hvx in Hcs. assert (count_slots me_valid (mk_entries m) = TG_MARKET_MAX_ENTRIES) as Hfull.
        { rewrite <- Hl. apply count_slots_all. intros j y Hy.
          pose proof (proj1 (find_slot_None _ _) Hk _ y Hy) as Hn. cbn beta in Hn. by bool_hyps. }
        rewrite (proj2 (Nat.ltb_ge _ _)) by lia. lia.
    + apply uniq_keys_insert; [done|]. intros j y Hj Hy _ Hk.
      by apply (find_entry_None sa m j y Hf Hj) in Hy; rewrite Hk, Hb in Hy.
Qed.

Lemma cheapest_from_spec l i c best :
  (cheapest_from l i c best = c ∧
   ∀ j e, l !! j = Some e → comparable e = true → best <= eff_price e) ∨
  (∃ k e, cheapest_from l i c best = Some (i + k)%nat ∧ l !! k = Some e ∧
     comparable e = true ∧ eff_price e < best ∧
     ∀ j e', l !! j = Some e' → comparable e' = true →
       eff_price e <= eff_price e' ∧ ((j < k)%nat → eff_price e < eff_price e')).
Proof.
  revert i c best. induction l as [|x l IH]; intros i c best; simpl; [by left|].
  destruct (comparable x && (eff_price x <? best)) eqn:Hx; bool_hyps.
  - right. destruct (IH (S i) (Some i) (eff_price x)) as [[-> Hall]|(k & e & -> & Hk & Hc & Hlt & Hall)].
    + exists 0%nat, x. rewrite Nat.add_0_r. split_and!; try done.
      intros [|j] e' Hj Hc; simpl in Hj.
      * injection Hj as <-. split; [lia|lia].
      * split; [by apply (Hall j)|lia].
    + exists (S k), e. split_and!; [f_equal; lia|done|done|lia|].
      intros [|j] e' Hj Hc'; simpl in Hj.
      * injection Hj as <-. split; [lia|done].
      * destruct (Hall j e' Hj Hc') as [H1 H2]. split; [done|]. intros. apply H2. lia.
  - assert (comparable x = true → best <= eff_price x) as Hbx.
    { intros Hc. destruct Hx as [Hx|Hx]; [congruence|]. by bool_hyps. }
    destruct (IH (S i) c best) as [[-> Hall]|(k & e & -> & Hk & Hc & Hlt & Hall)].
    + left. split; [done|]. intros [|j] e Hj Hce; simpl in Hj; [|by apply (Hall j)].
      injection Hj as <-. auto.
    + right. exists (S k), e. split_and!; [f_equal; lia|done|done|done|].
      intros [|j] e' Hj Hc'; simpl in Hj.
      * injection Hj as <-. specialize (Hbx Hc'). split; [lia|lia].
      * destruct (Hall j e' Hj Hc') as [H1 H2]. split; [done|]. intros. apply H2. lia.
Qed.

Lemma eff_price_lt e :
  is_u32 (me_step_size e) → comparable e = true → eff_price e < UINT32_MAX.
Proof.
  unfold comparable, eff_price, is_u32, UINT32_MAX, u32. intros Hs Hc. bool_hyps.
  assert (∀ k, 0 <= k mod 2 ^ 32) as Hpos by (intros; apply Z.mod_pos_bound; lia).
  assert (∀ k, (k * 2) mod 2 ^ 32 < 2 ^ 32 - 1) as Heven by (intros k; zlia).
  destruct (me_metric e =? 0).
  - specialize (Heven (me_price_per_step e * 30000)).
    replace (me_price_per_step e * 30000 * 2) with (me_price_per_step e * 60000) in Heven by lia.
    specialize (Hpos (me_price_per_step e * 60000)).
    eapply Z.le_lt_trans; [apply Z.div_le_upper_bound with (q := (me_price_per_step e * 60000) mod 2 ^ 32)|done]; nia.
  - specialize (Heven (me_price_per_step e * 524288)).
    replace (me_price_per_step e * 524288 * 2) with (me_price_per_step e * 1048576) in Heven by lia.
    specialize (Hpos (me_price_per_step e * 1048576)).
    eapply Z.le_lt_trans; [apply Z.div_le_upper_bound with (q := (me_price_per_step e * 1048576) mod 2 ^ 32)|done]; nia.
Qed.

Lemma find_entry_unfold now sa ie rssi self m :
  (TOLLGATE_IE_PAYLOAD_SIZE ≤ length (vi_payload ie))%nat →
  tollgate_core_market_parse_ie now sa ie rssi self m =
    if (Z.of_nat TOLLGATE_IE_PAYLOAD_SIZE <=? vi_payload_len ie) &&
       bool_decide (vi_oui ie = TOLLGATE_OUI) && (vi_oui_type ie =? TOLLGATE_IE_TYPE) &&
       (pp_version (payload_at (vi_payload ie)) =? TOLLGATE_IE_VERSION) &&
       negb (bool_decide (self = Some (pp_npub_hash (payload_at (vi_payload ie)))))
    then
      let p := payload_at (vi_payload ie) in
      let '(idx, count) := target_slot sa m in
      Some (mk_market
        (<[idx := mk_market_entry sa [] (i8 rssi) (pp_price_per_step p) (pp_step_size p)
             (pp_metric p) (pp_mint_hash p) (pp_npub_hash p)
             (take (Nat.min (Z.to_nat (pp_geohash_len p)) TOLLGATE_IE_GEOHASH_MAX) (pp_geohash p))
             now true]> (mk_entries m)) count (last_scan_ms m) (scanning m) (consecutive_failures m))
    else Some m.
Proof.
  intros Hl. unfold tollgate_core_market_parse_ie, target_slot.
  rewrite Z.leb_antisym. destruct (_ <? _); [done|]. cbn [negb andb].
  destruct (bool_decide (vi_oui ie = _)); [|done]. destruct (vi_oui_type ie =? _); [|done].
  rewrite (proj2 (Nat.ltb_ge _ _)) by done. cbn [negb andb].
  destruct (pp_version _ =? _); [|done]. by destruct (bool_decide (self = _)).
Qed.

(** * Properties *)

(** What a gate advertises is what a neighbour records: the information
    element built from its configuration, sent as packed bytes and heard from
    [sa], yields a valid entry for [sa] with the gate's price, step, metric,
    mint hash and geohash, in a table without duplicates. *)
Theorem advert_roundtrip sha cfg now sa rssi self rest m :
  sha256_contract sha → market_wf m →
  let p := ie_payload (tollgate_core_beacon_build_ie sha cfg) in
  let ie := mk_vendor_ie TOLLGATE_OUI TOLLGATE_IE_TYPE (payload_bytes p ++ rest)
              (Z.of_nat TOLLGATE_IE_PAYLOAD_SIZE) in
  self ≠ Some (pp_npub_hash p) →
  ∃ m' i e, tollgate_core_market_parse_ie now sa ie rssi self m = Some m' ∧ market_wf m' ∧
    mk_entries m' !! i = Some e ∧ me_valid e = true ∧ me_bssid e = sa ∧
    me_price_per_step e = u16 (bc_price_per_step cfg) ∧
    me_step_size e = u32 (if bool_decide (bc_metric cfg = "bytes"%string)
                          then bc_step_size_bytes cfg else bc_step_size_ms cfg) ∧
    me_metric e = (if bool_decide (bc_metric cfg = "bytes"%string) then 1 else 0) ∧
    me_mint_hash e = tollgate_core_beacon_hash_mint sha (bc_mint_url cfg) ∧
    me_geohash e = take 9 (str_bytes (bc_geohash cfg)).
Proof.
  intros Hsha Hwf p ie Hself.
  pose proof (build_ie_payload_ok sha cfg Hsha) as Hok. fold p in Hok.
  assert (payload_at (vi_payload ie) = p) as Hp by (by apply payload_roundtrip).
  rewrite find_entry_unfold
    by (unfold ie; cbn [vi_payload]; rewrite length_app, length_payload_bytes by done; lia).
  rewrite Hp. rewrite (bool_decide_eq_false_2 (self = _)) by done.
  match goal with |- context [if ?b then _ else _] => replace b with true by reflexivity end.
  cbv zeta.
  set (e := mk_market_entry _ _ _ _ _ _ _ _ _ _ _).
  pose proof (target_slot_wf m sa e (last_scan_ms m) (scanning m) (consecutive_failures m)
                Hwf eq_refl eq_refl) as Ht.
  destruct (target_slot sa m) as [idx count]. destruct Ht as [Hlt Hwf'].
  eexists _, idx, e. split; [reflexivity|]. split; [done|]. cbn [mk_entries].
  rewrite list_lookup_insert_eq by done. split_and!; try done.
  unfold e. cbn [me_geohash].
  set (gh := take 9 (str_bytes (bc_geohash cfg))).
  assert (length gh ≤ 9)%nat as Hgh by (unfold gh; rewrite length_take; lia).
  change (pp_geohash p) with (gh ++ replicate (TOLLGATE_IE_GEOHASH_MAX - length gh) 0).
  change (pp_geohash_len p) with (Z.of_nat (length gh)).
  rewrite Nat2Z.id, Nat.min_l by done. rewrite take_app_le by lia. by rewrite take_ge.
Qed.

(** The search returns the first of the cheapest entries that have a name
    and a step, and nothing only when there is none. *)
Theorem find_cheapest_minimal m :
  Forall (λ e, is_u32 (me_step_size e)) (mk_entries m) →
  match tollgate_core_market_find_cheapest m with
  | Some i => ∃ e, mk_entries m !! i = Some e ∧ comparable e = true ∧
      ∀ j e', mk_entries m !! j = Some e' → comparable e' = true →
        eff_price e <= eff_price e' ∧ ((j < i)%nat → eff_price e < eff_price e')
  | None => ∀ j e, mk_entries m !! j = Some e → comparable e = false
  end.
Proof.
  intros Hs. unfold tollgate_core_market_find_cheapest.
  destruct (cheapest_from_spec (mk_entries m) 0 None UINT32_MAX)
    as [[-> Hall]|(k & e & -> & Hk & Hc & _ & Hall)].
  - intros j e Hj. destruct (comparable e) eqn:Hc; [|done].
    pose proof (Hall j e Hj Hc). pose proof (Forall_lookup_1 _ _ _ _ Hs Hj) as Hse.
    pose proof (eff_price_lt e Hse Hc). lia.
  - by exists e.
Qed.

(** The unsigned product of a price in bytes mode wraps from 4096 on: an
    offer 4096 times as expensive as another compares as free. *)
Theorem eff_price_wraps :
  let offer price := mk_market_entry [] [65] 0 price 1048576 1 [] [] [] 0 true in
  eff_price (offer 1) = 1 ∧ eff_price (offer 4096) = 0.
Proof. split; vm_compute; reflexivity. Qed.

(** The scan callback takes the announced length less four as unsigned: an
    element that announces less than four bytes passes the length check, and
    its payload is read wherever it lies. *)
Theorem short_element_read_out_of_bounds now sa rssi self m :
  vendor_ie_cb now sa TOLLGATE_OUI TOLLGATE_IE_TYPE [] 3 rssi self m = None.
Proof. reflexivity. Qed.

Definition beacon_config_example : tollgate_beacon_config_t :=
  mk_beacon_config "https://mint" "milliseconds" 21 60000 0 "u33dc" None false.

Lemma advert_roundtrip_witness :
  let sha := λ _ : list Z, replicate 32 7 in
  let p := ie_payload (tollgate_core_beacon_build_ie sha beacon_config_example) in
  let ie := mk_vendor_ie TOLLGATE_OUI TOLLGATE_IE_TYPE (payload_bytes p ++ [1; 2])
              (Z.of_nat TOLLGATE_IE_PAYLOAD_SIZE) in
  ∃ m' i e,
    tollgate_core_market_parse_ie 5 [1; 2; 3; 4; 5; 6] ie (-40) None tollgate_core_market_init
      = Some m' ∧ market_wf m' ∧
    mk_entries m' !! i = Some e ∧ me_valid e = true ∧ me_bssid e = [1; 2; 3; 4; 5; 6] ∧
    me_price_per_step e = u16 (bc_price_per_step beacon_config_example) ∧
    me_step_size e = u32 (if bool_decide (bc_metric beacon_config_example = "bytes"%string)
                          then bc_step_size_bytes beacon_config_example
                          else bc_step_size_ms beacon_config_example) ∧
    me_metric e = (if bool_decide (bc_metric beacon_config_example = "bytes"%string) then 1 else 0) ∧
    me_mint_hash e = tollgate_core_beacon_hash_mint sha (bc_mint_url beacon_config_example) ∧
    me_geohash e = take 9 (str_bytes (bc_geohash beacon_config_example)).
Proof.
  apply (advert_roundtrip (λ _, replicate 32 7) beacon_config_example).
  - done.
  - apply market_init_wf.
  - discriminate.
Defined.

Definition market_example : tollgate_market_t :=
  mk_market
    [mk_market_entry [1] [65] 0 30 60000 0 [] [] [] 0 true;
     mk_market_entry [2] [66] 0 20 60000 0 [] [] [] 0 true;
     mk_market_entry [3] [67] 0 20 60000 0 [] [] [] 0 true] 3 0 false 0.

Lemma find_cheapest_minimal_witness :
  tollgate_core_market_find_cheapest market_example = Some 1%nat ∧
  match tollgate_core_market_find_cheapest market_example with
  | Some i => ∃ e, mk_entries market_example !! i = Some e ∧ comparable e = true ∧
      ∀ j e', mk_entries market_example !! j = Some e' → comparable e' = true →
        eff_price e <= eff_price e' ∧ ((j < i)%nat → eff_price e < eff_price e')
  | None => ∀ j e, mk_entries market_example !! j = Some e → comparable e = false
  end.
Proof.
  split; [vm_compute; reflexivity|]. apply (find_cheapest_minimal market_example).
  repeat constructor; vm_compute; discriminate.
Defined.
