(* ===== verification/MintHealth.v ===== *)
(** The health of the accepted mints (tollgate_core_mint_health.c and
    main/mint_health.c): the status of each mint, its update after a probe,
    the rounds of probes, and the queries.  The HTTP probe itself and the task
    that schedules the rounds are not modelled. *)

From S2P Require Import Prelude CStr.

Definition TG_MINT_HEALTH_MAX : nat := 8.
Definition TG_MINT_HEALTH_RECOVERY_THRESHOLD : Z := 3.

Record tollgate_mint_status_t := mk_mint_status {
  ms_url : string;
  ms_reachable : bool;
  ms_consecutive_successes : Z;       (* uint8_t *)
  ms_last_probe_ms : Z;
  ms_last_http_status : Z;
  ms_last_err : Z
}.

(** The first [count] mints. *)
Notation tollgate_mint_health_t := (list tollgate_mint_status_t).

(** What a probe reports: success, HTTP status, error code. *)
Record probe_result := mk_probe { pr_ok : bool; pr_status : Z; pr_err : Z; pr_time : Z }.

Definition mint_update (p : probe_result) (m : tollgate_mint_status_t) : tollgate_mint_status_t :=
  let status := if pr_ok p then pr_status p else 0 in
  let err := if pr_ok p then 0 else pr_err p in
  if pr_ok p then
    let n := u8 (ms_consecutive_successes m + 1) in
    mk_mint_status (ms_url m)
      (if TG_MINT_HEALTH_RECOVERY_THRESHOLD <=? n then true else ms_reachable m)
      n (pr_time p) status err
  else mk_mint_status (ms_url m) false 0 (pr_time p) status err.

Definition mint_update_initial (p : probe_result) (m : tollgate_mint_status_t)
  : tollgate_mint_status_t :=
  let status := if pr_ok p then pr_status p else 0 in
  let err := if pr_ok p then 0 else pr_err p in
  if pr_ok p
  then mk_mint_status (ms_url m) true TG_MINT_HEALTH_RECOVERY_THRESHOLD (pr_time p) status err
  else mk_mint_status (ms_url m) false 0 (pr_time p) status err.

Definition tollgate_core_mint_health_update (i : nat) (p : probe_result)
    (s : tollgate_mint_health_t) : tollgate_mint_health_t := alter (mint_update p) i s.

Definition tollgate_core_mint_health_update_initial (i : nat) (p : probe_result)
    (s : tollgate_mint_health_t) : tollgate_mint_health_t := alter (mint_update_initial p) i s.

(** [strcmp(m.url, url) == 0 || strstr(url, m.url) != NULL] *)
Definition mint_matches (url : string) (m : tollgate_mint_status_t) : bool :=
  bool_decide (ms_url m = url) || bool_decide (is_Some (strstr (ms_url m) url)).

Definition tollgate_core_mint_health_is_reachable (s : tollgate_mint_health_t) (url : string) : bool :=
  match find_slot (mint_matches url) s ≫= λ i, s !! i with
  | Some m => ms_reachable m
  | None => false
  end.

Definition tollgate_core_mint_health_mark_unreachable (s : tollgate_mint_health_t) (url : string)
  : tollgate_mint_health_t :=
  match find_slot (mint_matches url) s with
  | Some i =>
      alter (λ m, if ms_reachable m
                  then mk_mint_status (ms_url m) false 0 (ms_last_probe_ms m)
                         (ms_last_http_status m) (ms_last_err m)
                  else m) i s
  | None => s
  end.

Definition tollgate_core_mint_health_count_reachable (s : tollgate_mint_health_t) : nat :=
  count_slots ms_reachable s.

(** * The rounds of probes of main/mint_health.c *)

Definition mint_health_init (urls : list string) : tollgate_mint_health_t :=
  (λ u, mk_mint_status (strncpy 255 u) false 0 0 0 0) <$> take TG_MINT_HEALTH_MAX urls.

(** One probe per mint, in order; the callbacks fire when the number of
    reachable mints has changed. *)
Definition run_probes (probes : list probe_result) (s : tollgate_mint_health_t)
  : tollgate_mint_health_t * bool :=
  let s' := zip_with mint_update probes s in
  (s', negb (tollgate_core_mint_health_count_reachable s =?
             tollgate_core_mint_health_count_reachable s')%nat).

Definition run_initial_probes (probes : list probe_result) (s : tollgate_mint_health_t)
  : tollgate_mint_health_t := zip_with mint_update_initial probes s.

(** * Properties *)

(** The number of successes since the last failure in a history of probes,
    oldest first. *)
Fixpoint trailing (l : list bool) (acc : Z) : Z :=
  match l with
  | [] => acc
  | b :: l' => trailing l' (if b then acc + 1 else 0)
  end.

Lemma trailing_app l b acc : trailing (l ++ [b]) acc = if b then trailing l acc + 1 else 0.
Proof. revert acc. induction l as [|x l IH]; intros acc; simpl; [done|]. apply IH. Qed.

Lemma trailing_nonneg l acc : 0 <= acc → 0 <= trailing l acc.
Proof. revert acc. induction l as [|x l IH]; intros acc Ha; simpl; [done|]. apply IH. case_if; lia. Qed.

(** A mint that starts unreachable counts as reachable exactly while its
    last three probes (at least) have all succeeded, however long the history:
    the 8-bit counter's wrap-around does not show. *)
Theorem reachable_iff_three_successes url probes :
  let m0 := mk_mint_status url false 0 0 0 0 in
  let m := foldl (λ m p, mint_update p m) m0 probes in
  ms_reachable m = (3 <=? trailing (pr_ok <$> probes) 0) ∧
  ms_consecutive_successes m = trailing (pr_ok <$> probes) 0 mod 256.
Proof.
  cbv zeta. induction probes as [|p probes IH] using rev_ind; [done|].
  rewrite foldl_app, fmap_app. simpl. rewrite trailing_app. destruct IH as [IHr IHc].
  set (m := foldl _ _ probes) in *. unfold mint_update.
  pose proof (trailing_nonneg (pr_ok <$> probes) 0 ltac:(lia)) as Hn.
  set (t := trailing _ 0) in *. destruct (pr_ok p); [|done]. simpl. rewrite IHc, IHr.
  unfold TG_MINT_HEALTH_RECOVERY_THRESHOLD.
  assert (u8 (t mod 256 + 1) = (t + 1) mod 256) as Hu by (unfold u8; pow_consts; zlia).
  rewrite Hu. split; [|done].
  destruct (3 <=? (t + 1) mod 256) eqn:E1, (3 <=? t) eqn:E2, (3 <=? t + 1) eqn:E3; bool_hyps;
    try done; zlia.
Qed.

Lemma count_zip_le (f : probe_result → tollgate_mint_status_t → tollgate_mint_status_t) ps s :
  (length (zip_with f ps s) ≤ length s)%nat.
Proof. rewrite length_zip_with. lia. Qed.

(** Marking a mint unreachable takes effect for every query of the same
    URL, whichever entry matches it, and from then on three successes in a row
    are needed again. *)
Theorem mark_unreachable_effect s url :
  let s' := tollgate_core_mint_health_mark_unreachable s url in
  tollgate_core_mint_health_is_reachable s' url = false ∧
  (tollgate_core_mint_health_count_reachable s' ≤ tollgate_core_mint_health_count_reachable s)%nat ∧
  (∀ i m, s !! i = Some m → mint_matches url m = false → s' !! i = Some m).
Proof.
  cbv zeta. unfold tollgate_core_mint_health_mark_unreachable,
    tollgate_core_mint_health_is_reachable, tollgate_core_mint_health_count_reachable.
  destruct (find_slot (mint_matches url) s) as [i|] eqn:Hf; [|rewrite Hf; done].
  destruct (find_slot_Some _ _ _ Hf) as (m & Hm & Hp & Hmin).
  set (g := λ m, if ms_reachable m then _ else m).
  assert (∀ x, mint_matches url (g x) = mint_matches url x) as Hg
    by (intros x; unfold g; by destruct (ms_reachable x)).
  assert (ms_reachable (g m) = false) as Hgm by (unfold g; by destruct (ms_reachable m) eqn:?).
  split_and!.
  - destruct (find_slot_is_Some (mint_matches url) (alter g i s) i (g m)) as (k & Hk & Hle).
    { by rewrite list_lookup_alter_eq, Hm. } { by rewrite Hg. }
    rewrite Hk. destruct (find_slot_Some _ _ _ Hk) as (y & Hy & Hpy & _). simpl. rewrite Hy.
    apply lookup_alter_inv in Hy as (x & Hx & ->). case_decide; [subst; congruence|].
    rewrite (Hmin k x) in Hpy by (done || lia). done.
  - rewrite (alter_insert_Some _ _ _ _ Hm).
    pose proof (count_slots_insert ms_reachable s i m (g m) Hm) as Hc. rewrite Hgm in Hc. simpl in Hc. lia.
  - intros j x Hj Hx. rewrite list_lookup_alter_ne; [done|]. intros ->. congruence.
Qed.
