(* ===== verification/Portal.v ===== *)
(** The portal's helpers (tollgate_core_portal.c): the template engine, the
    usage report of a session and the captive-detection addresses. *)

From S2P Require Import Prelude CStr Dns Firewall Session.

Definition CAPTIVE_URIS : list string :=
  ["/generate_204"; "/hotspot-detect.html"; "/canonical.html"; "/success.txt"; "/ncsi.txt";
   "/connecttest.txt"; "/wpad.dat"]%string.

Definition tollgate_core_portal_is_captive_uri (uri : string) : bool :=
  existsb (λ u, bool_decide (uri = u)) CAPTIVE_URIS.

(** * Templates *)

(** [while ((p = strstr(p, key)) != NULL) { ...; p += klen; }]: how often the
    loop runs. *)
Fixpoint count_occ (fuel : nat) (key p : string) : nat :=
  match fuel with
  | O => O
  | S fuel' =>
      match strstr key p with
      | Some off => S (count_occ fuel' key (str_drop (off + String.length key) p))
      | None => O
      end
  end.

(** The copying loop of [tollgate_core_portal_template_replace]. *)
Fixpoint replace_loop (fuel : nat) (key val p : string) : string :=
  match fuel with
  | O => EmptyString
  | S fuel' =>
      if str_empty p then EmptyString else
      match strstr key p with
      | Some off =>
          (str_take off p +:+ val +:+
           replace_loop fuel' key val (str_drop (off + String.length key) p))%string
      | None => p
      end
  end.

(** The size allocated, and the text written into it.  One unit of fuel per
    turn; each turn but the last consumes at least one character. *)
Definition tollgate_core_portal_template_replace (tpl key val : string) : Z * string :=
  let n := count_occ (S (String.length tpl)) key tpl in
  (Z.of_nat (String.length tpl)
   + Z.of_nat n * (Z.of_nat (String.length val) - Z.of_nat (String.length key)) + 1,
   replace_loop (S (String.length tpl)) key val tpl).

(** The substitution whose key comes first in [src], with its offset; on a tie
    the one listed first. *)
Fixpoint earliest_sub (src : string) (subs : list (string * string))
    (best : option (nat * (string * string))) : option (nat * (string * string)) :=
  match subs with
  | [] => best
  | kv :: subs' =>
      earliest_sub src subs'
        match strstr (fst kv) src, best with
        | Some off, None => Some (off, kv)
        | Some off, Some (b, _) => if (off <? b)%nat then Some (off, kv) else best
        | None, _ => best
        end
  end.

Fixpoint render_loop (fuel : nat) (subs : list (string * string)) (src : string) : string :=
  match fuel with
  | O => EmptyString
  | S fuel' =>
      if str_empty src then EmptyString else
      match earliest_sub src subs None with
      | Some (off, (key, val)) =>
          (str_take off src +:+ val +:+
           render_loop fuel' subs (str_drop (off + String.length key) src))%string
      | None => src
      end
  end.

Definition tollgate_core_portal_render (tpl : string) (subs : list (string * string)) : string :=
  render_loop (S (String.length tpl)) subs tpl.

(** * Usage *)

Definition tollgate_core_portal_calc_usage (x : tg_session_t) (metric : string) (now_ms : Z)
  : option (Z * Z) :=
  if negb (active x) then None else
  if bool_decide (metric = "bytes"%string) then
    Some (Z.max 0 (i64 (i64 (allotment_bytes x) - i64 (bytes_consumed x))), i64 (allotment_bytes x))
  else
    let elapsed := i64 (now_ms - start_time_ms x) in
    Some (Z.max 0 (i64 (i64 (allotment_ms x) - elapsed)), i64 (allotment_ms x)).

(** [%lld/%llu] *)
Definition tollgate_core_portal_format_usage (x : tg_session_t) (metric : string) (now_ms : Z)
  : string :=
  match tollgate_core_portal_calc_usage x metric now_ms with
  | Some (remaining, total) => (print_d remaining +:+ "/" +:+ print_u (u64 total))%string
  | None => "-1/-1"%string
  end.

(** [usage_handler] of captive_portal.c: the report for the client's address. *)
Definition usage_handler (ip : option Z) (metric : string) (now_ms : Z) (ss : session_state) : string :=
  match ip ≫= λ ip, tollgate_core_session_find_by_ip ip ss ≫= λ i, s_sessions ss !! i with
  | Some x => if active x then tollgate_core_portal_format_usage x metric now_ms else "-1/-1"%string
  | None => "-1/-1"%string
  end.

(** * Lemmas *)

Lemma has_prefix_length p s : has_prefix p s = true → (String.length p ≤ String.length s)%nat.
Proof.
  revert s. induction p as [|a p IH]; intros s; simpl; [lia|].
  destruct s as [|b s]; simpl; [done|]. intros H. apply andb_true_iff in H as [_ H].
  apply IH in H. lia.
Qed.

Lemma strstr_bound key p off :
  strstr key p = Some off → (off + String.length key ≤ String.length p)%nat.
Proof.
  revert off. induction p as [|c p IH]; intros off; simpl.
  - destruct (has_prefix key "") eqn:Hp; [|done]. intros [= <-]. by apply has_prefix_length in Hp.
  - destruct (has_prefix key (String c p)) eqn:Hp.
    + intros [= <-]. apply has_prefix_length in Hp. simpl in *. lia.
    + destruct (strstr key p) as [k|]; simpl; [|done]. intros [= <-]. specialize (IH k eq_refl). lia.
Qed.

Lemma length_str_drop n p : String.length (str_drop n p) = (String.length p - n)%nat.
Proof.
  revert p. induction n as [|n IH]; intros [|c p]; simpl; auto.
Qed.

Lemma length_str_take n p : (n ≤ String.length p)%nat → String.length (str_take n p) = n.
Proof.
  unfold str_take. revert p. induction n as [|n IH]; intros p H; [by destruct p|].
  destruct p as [|c p]; simpl in *; [lia|]. by rewrite IH by lia.
Qed.

(** With a non-empty key, replacing terminates with all of the template
    processed, and what is written, with its terminator, is exactly as long as
    the buffer allocated for it. *)
Theorem template_replace_fits tpl key val :
  key ≠ ""%string →
  let '(size, out) := tollgate_core_portal_template_replace tpl key val in
  Z.of_nat (String.length out) + 1 = size ∧
  (∀ extra, replace_loop (extra + S (String.length tpl)) key val tpl = out).
Proof.
  intros Hkey. unfold tollgate_core_portal_template_replace.
  assert (1 ≤ String.length key)%nat as Hk by (destruct key; simpl; [done|lia]).
  assert (∀ fuel p, (String.length p < fuel)%nat →
    Z.of_nat (String.length (replace_loop fuel key val p)) =
      Z.of_nat (String.length p)
      + Z.of_nat (count_occ fuel key p) * (Z.of_nat (String.length val) - Z.of_nat (String.length key)))
    as Hlen.
  { induction fuel as [|fuel IH]; intros p Hp; [lia|]. simpl.
    destruct (strstr key p) as [off|] eqn:Hs.
    - apply strstr_bound in Hs. destruct p as [|c p']; [simpl in *; lia|]. cbn [str_empty].
      set (p := String c p') in *. rewrite !str_append_length, !Nat2Z.inj_add.
      rewrite IH by (rewrite length_str_drop; lia).
      rewrite length_str_drop, length_str_take by lia. lia.
    - destruct p; simpl; lia. }
  split.
  - rewrite Hlen by lia. lia.
  - intros extra.
    assert (∀ fuel p k, (String.length p < fuel)%nat →
      replace_loop (k + fuel) key val p = replace_loop fuel key val p) as Hmore.
    { induction fuel as [|fuel IH]; intros p k Hp; [lia|].
      replace (k + S fuel)%nat with (S (k + fuel)) by lia. simpl.
      destruct (str_empty p); [done|]. destruct (strstr key p) as [off|] eqn:Hs; [|done].
      apply strstr_bound in Hs. rewrite IH by (rewrite length_str_drop; lia). done. }
    apply Hmore. lia.
Qed.

(** The report never shows less than nothing left, nor more left than was
    bought, for a session within the range of the signed counters. *)
Theorem usage_bounds x metric now :
  active x = true → 0 <= start_time_ms x <= now → now < 2 ^ 63 →
  0 <= allotment_ms x < 2 ^ 63 → 0 <= allotment_bytes x < 2 ^ 63 → 0 <= bytes_consumed x < 2 ^ 63 →
  ∃ remaining total, tollgate_core_portal_calc_usage x metric now = Some (remaining, total) ∧
    0 <= remaining <= total ∧
    (metric ≠ "bytes"%string → total = allotment_ms x ∧
       remaining = Z.max 0 (start_time_ms x + allotment_ms x - now)).
Proof.
  intros Ha Ht Hn Hm Hb Hc. unfold tollgate_core_portal_calc_usage. rewrite Ha. cbn [negb].
  case_bool_decide as Hmet.
  - rewrite (i64_small (allotment_bytes x)), (i64_small (bytes_consumed x)) by (unfold is_i64; lia).
    rewrite i64_small by (unfold is_i64; lia).
    eexists _, _. split; [done|]. split; [lia|done].
  - rewrite (i64_small (now - _)), (i64_small (allotment_ms x)) by (unfold is_i64; lia).
    rewrite i64_small by (unfold is_i64; lia).
    eexists _, _. split; [done|]. split; [lia|]. intros _. split; [done|]. lia.
Qed.

Lemma template_replace_fits_witness :
  let '(size, out) := tollgate_core_portal_template_replace "a __K__ b __K__" "__K__" "xyz" in
  Z.of_nat (String.length out) + 1 = size ∧
  (∀ extra, replace_loop (extra + S (String.length "a __K__ b __K__")) "__K__" "xyz"
              "a __K__ b __K__" = out).
Proof. apply template_replace_fits. discriminate. Defined.

Example render_example :
  tollgate_core_portal_render "http://__IP__/?p=__P__&i=__IP__"
    [("__P__", "21"); ("__IP__", "10.0.0.1")]%string = "http://10.0.0.1/?p=21&i=10.0.0.1"%string.
Proof. vm_compute. reflexivity. Qed.

Lemma usage_bounds_witness :
  ∃ remaining total,
    tollgate_core_portal_calc_usage example_slot "milliseconds" 2000 = Some (remaining, total) ∧
    0 <= remaining <= total ∧
    ("milliseconds"%string ≠ "bytes"%string → total = allotment_ms example_slot ∧
       remaining = Z.max 0 (start_time_ms example_slot + allotment_ms example_slot - 2000)).
Proof.
  apply (usage_bounds example_slot "milliseconds" 2000);
    [vm_compute; reflexivity|vm_compute; split; discriminate|vm_compute; reflexivity|..];
    vm_compute; split; (discriminate || reflexivity).
Defined.
