(* ===== verification/Client.v ===== *)
(** The gate as a client of another gate: the parsers and decisions of
    tollgate_core_client.c and the state machine of main/tollgate_client.c
    that detects an upstream gate, pays it from the wallet and renews.  The
    wallet, HTTP and JSON are parameters; [malloc] succeeds. *)

From S2P Require Import Prelude CStr F64 Json Dns Firewall Session Portal.

Inductive tollgate_client_state_t :=
| TG_CLIENT_IDLE | TG_CLIENT_DETECTING | TG_CLIENT_NO_TOLLGATE | TG_CLIENT_NEEDS_PAY
| TG_CLIENT_PAYING | TG_CLIENT_PAID | TG_CLIENT_RENEWING | TG_CLIENT_MINING | TG_CLIENT_ERROR.

#[export] Instance client_state_eq_dec : EqDecision tollgate_client_state_t.
Proof. solve_decision. Defined.

Record tollgate_discovery_t := mk_discovery {
  is_tollgate : bool;
  d_price_per_step : Z;
  d_step_size_ms : Z;
  d_mint_url : string;
  d_metric : string;
  d_unit : string;
  mining_available : bool;
  d_mining_port : Z
}.

Definition discovery_zero : tollgate_discovery_t := mk_discovery false 0 0 "" "" "" false 0.

(** * Parsers *)

Section parsers.
Context `{CJson J}.

Definition item_str (tag : J) (i : nat) : option string := cJSON_GetArrayItem tag i ≫= str_of.

(** One tag of a discovery event. *)
Definition discovery_tag (out : tollgate_discovery_t) (tag : J) : tollgate_discovery_t :=
  if negb (cJSON_IsArray tag) then out else
  let tag_len := cJSON_GetArraySize tag in
  if (tag_len <? 2)%nat then out else
  match item_str tag 0 with
  | None => out
  | Some name =>
      if bool_decide (name = "metric"%string) then
        match item_str tag 1 with
        | Some v => mk_discovery (is_tollgate out) (d_price_per_step out) (d_step_size_ms out)
                      (d_mint_url out) (strncpy 31 v) (d_unit out) (mining_available out)
                      (d_mining_port out)
        | None => out
        end
      else if bool_decide (name = "step_size"%string) then
        match item_str tag 1 with
        | Some v => mk_discovery (is_tollgate out) (d_price_per_step out) (atoi v)
                      (d_mint_url out) (d_metric out) (d_unit out) (mining_available out)
                      (d_mining_port out)
        | None => out
        end
      else if bool_decide (name = "price_per_step"%string) && (3 <=? tag_len)%nat then
        let payment_type := item_str tag 1 in
        if bool_decide (payment_type = Some "mining"%string) then
          mk_discovery (is_tollgate out) (d_price_per_step out) (d_step_size_ms out)
            (d_mint_url out) (d_metric out) (d_unit out) true
            (match item_str tag 2 with Some v => u16 (atoi v) | None => d_mining_port out end)
        else if bool_decide (payment_type = Some "cashu"%string) && (6 <=? tag_len)%nat then
          mk_discovery (is_tollgate out)
            (match item_str tag 2 with Some v => atoi v | None => d_price_per_step out end)
            (d_step_size_ms out)
            (match item_str tag 4 with Some v => strncpy 255 v | None => d_mint_url out end)
            (d_metric out)
            (match item_str tag 3 with Some v => strncpy 15 v | None => d_unit out end)
            (mining_available out) (d_mining_port out)
        else out
      else out
  end.

Definition kind_is (root : J) (kind : Z) : bool :=
  match cJSON_GetObjectItem root "kind" with
  | Some k => bool_decide (is_Some (num_of k)) && (int_of k =? kind)
  | None => false
  end.

Definition tollgate_core_client_parse_discovery (json_str : string)
  : option tollgate_discovery_t :=
  root ← cJSON_Parse json_str;
  if negb (kind_is root 10021) then None else
  let out := mk_discovery true 0 0 "" "" "sat" false 0 in
  Some match get_arr root "tags" with
       | Some tags => foldl discovery_tag out (items tags)
       | None => out
       end.

(** [allotment]: what the output parameter holds before the call. *)
Definition tollgate_core_client_parse_session (json_str : string) (allotment : Z) : option Z :=
  root ← cJSON_Parse json_str;
  if negb (kind_is root 1022) then None else
  Some match get_arr root "tags" with
       | Some tags =>
           foldl (λ acc tag,
             if negb (cJSON_IsArray tag) then acc
             else if bool_decide (item_str tag 0 = Some "allotment"%string) then
               match item_str tag 1 with Some v => atoll v | None => acc end
             else acc) allotment (items tags)
       | None => allotment
       end.
End parsers.

Definition tollgate_core_client_parse_usage (resp : string) : option (Z * Z) :=
  match strchr "/" resp with
  | None => None
  | Some rlen =>
      if (32 <=? rlen)%nat then None
      else Some (atoll (str_take rlen resp), atoll (strncpy 31 (str_drop (S rlen) resp)))
  end.

Definition tollgate_core_client_should_renew (remaining_ms allotment_ms threshold_pct : Z) : bool :=
  let threshold_pct := if threshold_pct <=? 0 then 20 else threshold_pct in
  if (allotment_ms <=? 0) || (remaining_ms <? 0) then false else
  i32 (Z.quot (i64 (remaining_ms * 100)) allotment_ms) <=? threshold_pct.

Definition tollgate_core_client_calc_price_per_min (price_per_step step_size_ms : Z) : Z :=
  let step := if step_size_ms <=? 0 then 1 else step_size_ms in
  Z.quot (i32 (price_per_step * 60000)) step.

Definition tollgate_core_client_calc_steps (steps_to_buy price_per_step discovery_price : Z) : Z :=
  let steps := if steps_to_buy <=? 0 then 1 else steps_to_buy in
  i32 (steps * discovery_price).

(** * The state machine *)

Record client_config := mk_client_config {
  client_enabled : bool;
  client_steps_to_buy : Z;
  client_retry_interval_ms : Z;
  client_renewal_threshold_pct : Z
}.

Record client_state := mk_client_state {
  s_state : tollgate_client_state_t;
  s_discovery : tollgate_discovery_t;
  s_gw_ip : string;
  s_allotment_ms : Z;
  s_remaining_ms : Z;
  s_last_pay_time_ms : Z;
  s_retry_count : Z
}.

(** What the client does to the outside: a token of so many sat leaves the
    wallet for a gateway; the remote miner starts and stops. *)
Inductive client_event :=
| EvTokenSent (gw : string) (sats : Z)
| EvMinerStart (gw : string)
| EvMinerStop.

Definition tollgate_client_init : client_state :=
  mk_client_state TG_CLIENT_IDLE discovery_zero "" 0 (-1) 0 0.

Definition with_state (s : client_state) (st : tollgate_client_state_t) : client_state :=
  mk_client_state st (s_discovery s) (s_gw_ip s) (s_allotment_ms s) (s_remaining_ms s)
    (s_last_pay_time_ms s) (s_retry_count s).

Section machine.
Context `{CJson J}.
(** HTTP: [None] when the exchange fails, otherwise status and body. *)
Variable http_get : string → option (Z * string).
Variable http_post_text : string → string → option (Z * string).
(** The wallet: its balance, and a token of the given amount. *)
Variable nucula_wallet_balance : Z.
Variable nucula_wallet_send : Z → esp_err_t * string.
Variable cfg : client_config.

Definition client_url (gw_ip path : string) : string :=
  str_take 127 ("http://" +:+ gw_ip +:+ ":2121/" +:+ path)%string.

Definition tollgate_client_detect (gw_ip : string) : option tollgate_discovery_t :=
  match http_get (client_url gw_ip "") with
  | Some (status, body) =>
      if negb (status =? 200) then None else
      d ← tollgate_core_client_parse_discovery (str_take 4095 body);
      if is_tollgate d then Some d else None
  | None => None
  end.

(** The result, the allotment granted, and the tokens that left the wallet. *)
Definition tollgate_client_pay (gw_ip : string) (amount_sats : Z)
  : esp_err_t * Z * list client_event :=
  if nucula_wallet_balance <? u64 amount_sats then (ESP_ERR_INVALID_STATE, 0, []) else
  match nucula_wallet_send (u64 amount_sats) with
  | (ESP_OK, token) =>
      let ev := [EvTokenSent gw_ip (u64 amount_sats)] in
      match http_post_text (client_url gw_ip "") token with
      | None => (ESP_FAIL, 0, ev)
      | Some (status, body) =>
          if status =? 200 then
            match tollgate_core_client_parse_session (str_take 8191 body) 0 with
            | Some allotment => (ESP_OK, allotment, ev)
            | None => (ESP_FAIL, 0, ev)
            end
          else (ESP_FAIL, 0, ev)
      end
  | (err, _) => (err, 0, [])
  end.

Definition tollgate_client_query_usage (gw_ip : string) : option (Z * Z) :=
  match http_get (client_url gw_ip "usage") with
  | Some (status, body) =>
      if negb (status =? 200) then None
      else tollgate_core_client_parse_usage (str_take 255 body)
  | None => None
  end.

Definition amount_to_pay (s : client_state) : Z :=
  let steps := if client_steps_to_buy cfg <=? 0 then 1 else client_steps_to_buy cfg in
  i32 (steps * d_price_per_step (s_discovery s)).

(** [now]: the time when the payment has returned. *)
Definition tollgate_client_on_sta_connected (now : Z) (gw_ip_str : string) (s : client_state)
  : esp_err_t * client_state * list client_event :=
  if negb (client_enabled cfg) then (ESP_OK, s, []) else
  let gw := strncpy 15 gw_ip_str in
  let s1 := mk_client_state TG_CLIENT_DETECTING (s_discovery s) gw (s_allotment_ms s)
              (s_remaining_ms s) (s_last_pay_time_ms s) 0 in
  match tollgate_client_detect gw_ip_str with
  | None => (ESP_OK, with_state s1 TG_CLIENT_NO_TOLLGATE, [])
  | Some d =>
      let s2 := mk_client_state TG_CLIENT_PAYING d gw (s_allotment_ms s1) (s_remaining_ms s1)
                  (s_last_pay_time_ms s1) 0 in
      match tollgate_client_pay gw_ip_str (amount_to_pay s2) with
      | (ESP_OK, allotment, ev) =>
          (ESP_OK, mk_client_state TG_CLIENT_PAID d gw allotment allotment now 0,
           EvMinerStart gw_ip_str :: ev)
      | (err, _, ev) => (err, with_state s2 TG_CLIENT_ERROR, EvMinerStart gw_ip_str :: ev)
      end
  end.

Definition tollgate_client_on_sta_disconnected (s : client_state)
  : client_state * list client_event := (tollgate_client_init, [EvMinerStop]).

(** The retry of a failed payment. *)
Definition tick_error (now now_after : Z) (s : client_state) : client_state * list client_event :=
  if i64 (now - s_last_pay_time_ms s) <? client_retry_interval_ms cfg then (s, []) else
  if str_empty (s_gw_ip s) then (s, []) else
  match tollgate_client_pay (s_gw_ip s) (amount_to_pay s) with
  | (ESP_OK, allotment, ev) =>
      (mk_client_state TG_CLIENT_PAID (s_discovery s) (s_gw_ip s) allotment allotment now_after 0, ev)
  | (_, _, ev) =>
      (mk_client_state TG_CLIENT_ERROR (s_discovery s) (s_gw_ip s) (s_allotment_ms s)
         (s_remaining_ms s) now_after (i32 (s_retry_count s + 1)), ev)
  end.

(** The state after the upstream gate has been asked for the usage. *)
Definition refresh_usage (s : client_state) : client_state :=
  match tollgate_client_query_usage (s_gw_ip s) with
  | Some (remaining, total) =>
      mk_client_state (s_state s) (s_discovery s) (s_gw_ip s) total remaining
        (s_last_pay_time_ms s) (s_retry_count s)
  | None => s
  end.

Definition tick_paid (now_after : Z) (s : client_state) : client_state * list client_event :=
  if str_empty (s_gw_ip s) then (s, []) else
  let s1 := refresh_usage s in
  if tollgate_core_client_should_renew (s_remaining_ms s1) (s_allotment_ms s1)
       (client_renewal_threshold_pct cfg) then
    match tollgate_client_pay (s_gw_ip s1) (amount_to_pay s1) with
    | (ESP_OK, allotment, ev) =>
        (mk_client_state TG_CLIENT_PAID (s_discovery s1) (s_gw_ip s1) allotment allotment
           now_after (s_retry_count s1), ev)
    | (_, _, ev) =>
        (mk_client_state TG_CLIENT_ERROR (s_discovery s1) (s_gw_ip s1) (s_allotment_ms s1)
           (s_remaining_ms s1) now_after (s_retry_count s1), ev)
    end
  else (s1, []).

Definition tollgate_client_tick (now now_after : Z) (s : client_state)
  : client_state * list client_event :=
  match s_state s with
  | TG_CLIENT_ERROR => tick_error now now_after s
  | TG_CLIENT_PAID | TG_CLIENT_RENEWING => tick_paid now_after s
  | _ => (s, [])
  end.
End machine.

(** * Lemmas *)

Section lemmas.
Context `{CJson J} (http_get : string → option (Z * string))
  (http_post : string → string → option (Z * string)) (balance : Z)
  (send : Z → esp_err_t * string) (cfg : client_config).

(** At most one token per payment, and no more than the wallet holds. *)
Lemma pay_events gw amount :
  let '(err, _, ev) := tollgate_client_pay http_post balance send gw amount in
  (ev = [] ∧ err ≠ ESP_OK) ∨ (ev = [EvTokenSent gw (u64 amount)] ∧ u64 amount <= balance).
Proof.
  unfold tollgate_client_pay. destruct (_ <? _) eqn:Hb; bool_hyps; [simpl; by left|].
  destruct (send (u64 amount)) as [[] token]; simpl; try (by left).
   destruct (http_post _ _) as [[status body]|]; [|by right].
  destruct (status =? 200); [|by right].
  destruct (tollgate_core_client_parse_session _ _); by right.
Qed.

Lemma refresh_usage_keeps s :
  s_gw_ip (refresh_usage http_get s) = s_gw_ip s ∧
  s_discovery (refresh_usage http_get s) = s_discovery s ∧
  s_state (refresh_usage http_get s) = s_state s.
Proof. unfold refresh_usage. by destruct (tollgate_client_query_usage _ _) as [[]|]. Qed.

(** A tick in a paid state: a payment when renewal is due, none otherwise. *)
Lemma paid_tick now_after s :
  let due := negb (str_empty (s_gw_ip s)) &&
    tollgate_core_client_should_renew (s_remaining_ms (refresh_usage http_get s))
      (s_allotment_ms (refresh_usage http_get s)) (client_renewal_threshold_pct cfg) in
  (due = false → ∃ s', tick_paid http_get http_post balance send cfg now_after s = (s', []) ∧
                       s_state s' = s_state s) ∧
  (due = true → ∃ err al ev,
     tollgate_client_pay http_post balance send (s_gw_ip s) (amount_to_pay cfg s) = (err, al, ev) ∧
     ∃ s', tick_paid http_get http_post balance send cfg now_after s = (s', ev) ∧
           (s_state s' = TG_CLIENT_PAID ∨ s_state s' = TG_CLIENT_ERROR) ∧
           s_last_pay_time_ms s' = now_after).
Proof.
  cbv zeta. unfold tick_paid. destruct (refresh_usage_keeps s) as (Hgw & Hdi & Hst).
  destruct (str_empty (s_gw_ip s)); cbn [negb andb]; [split; [by eexists|done]|].
  destruct (tollgate_core_client_should_renew _ _ _); [split; [done|intros _]|split; [by eexists|done]].
  assert (amount_to_pay cfg (refresh_usage http_get s) = amount_to_pay cfg s) as ->
    by (unfold amount_to_pay; by rewrite Hdi).
  rewrite Hgw. destruct (tollgate_client_pay _ _ _ _ _) as [[err al] ev].
  exists err, al, ev. split; [done|]. destruct err; eexists; (split; [done|]); simpl; auto.
Qed.
End lemmas.

(** * Properties *)

(** Renewal is due exactly when the whole percentage that remains is at
    most the threshold (20 when none is set), in exact integer terms, as long
    as the product by 100 fits. *)
Theorem should_renew_exact remaining allotment threshold :
  0 <= remaining → 0 < allotment → remaining * 100 < 2 ^ 63 →
  remaining * 100 / allotment < 2 ^ 31 →
  let t := if threshold <=? 0 then 20 else threshold in
  tollgate_core_client_should_renew remaining allotment threshold = true ↔
  remaining * 100 < (t + 1) * allotment.
Proof.
  intros Hr Ha Hov Hq t. unfold tollgate_core_client_should_renew. fold t.
  rewrite (proj2 (Z.leb_gt allotment 0)), (proj2 (Z.ltb_ge remaining 0)) by lia. cbn [orb].
  rewrite i64_small by (unfold is_i64; lia). rewrite Z.quot_div_nonneg by lia.
  assert (0 <= remaining * 100 / allotment) by (apply Z.div_pos; lia).
  assert (i32 (remaining * 100 / allotment) = remaining * 100 / allotment) as ->.
  { unfold i32, swrap. change (32 - 1) with 31. zlia. }
  rewrite Z.leb_le. split; intros H1.
  - pose proof (Z.mul_succ_div_gt (remaining * 100) allotment Ha). nia.
  - pose proof (Z.mul_div_le (remaining * 100) allotment Ha). nia.
Qed.

(** One tick sends at most one token, of the configured number of steps at
    the upstream price, only towards the gateway it is connected to, only from
    the states that owe a payment (paid and due for renewal, or failed with
    the retry interval elapsed), and never more than the wallet holds; a tick
    never stops in the middle of a payment. *)
Theorem tick_payments `{CJson J} http_get http_post balance send cfg now now_after s :
  let '(s', ev) := tollgate_client_tick http_get http_post balance send cfg now now_after s in
  (ev = [] ∨
   ev = [EvTokenSent (s_gw_ip s) (u64 (amount_to_pay cfg s))] ∧
   u64 (amount_to_pay cfg s) <= balance ∧ s_gw_ip s ≠ ""%string ∧
   (s_state s = TG_CLIENT_ERROR ∧
      client_retry_interval_ms cfg <= i64 (now - s_last_pay_time_ms s) ∨
    (s_state s = TG_CLIENT_PAID ∨ s_state s = TG_CLIENT_RENEWING) ∧
      tollgate_core_client_should_renew (s_remaining_ms (refresh_usage http_get s))
        (s_allotment_ms (refresh_usage http_get s)) (client_renewal_threshold_pct cfg) = true) ∧
   (s_state s' = TG_CLIENT_PAID ∨ s_state s' = TG_CLIENT_ERROR) ∧
   s_last_pay_time_ms s' = now_after) ∧
  (s_state s' = s_state s ∨ s_state s' = TG_CLIENT_PAID ∨ s_state s' = TG_CLIENT_ERROR).
Proof.
  unfold tollgate_client_tick.
  assert (str_empty (s_gw_ip s) = false → s_gw_ip s ≠ ""%string) as Hne
    by (intros He Hg; by rewrite Hg in He).
  pose proof (pay_events http_post balance send (s_gw_ip s) (amount_to_pay cfg s)) as Hev.
  destruct (s_state s) eqn:Hst; try (split; [by left|by rewrite Hst; left]).
  - destruct (paid_tick http_get http_post balance send cfg now_after s) as [Hnone Hsome].
    destruct (negb (str_empty (s_gw_ip s)) && _) eqn:Hdue in Hnone, Hsome.
    + bool_hyps. destruct (Hsome eq_refl) as (err & al & ev & Hpay & s' & -> & Hs' & Hlast).
      rewrite Hpay in Hev. split; [|by right].
      destruct Hev as [[-> _]|[-> Hbal]]; [by left|right]. split_and!; auto.
    + destruct (Hnone eq_refl) as (s' & -> & Hs'). split; [by left|]. left. congruence.
  - destruct (paid_tick http_get http_post balance send cfg now_after s) as [Hnone Hsome].
    destruct (negb (str_empty (s_gw_ip s)) && _) eqn:Hdue in Hnone, Hsome.
    + bool_hyps. destruct (Hsome eq_refl) as (err & al & ev & Hpay & s' & -> & Hs' & Hlast).
      rewrite Hpay in Hev. split; [|by right].
      destruct Hev as [[-> _]|[-> Hbal]]; [by left|right]. split_and!; auto.
    + destruct (Hnone eq_refl) as (s' & -> & Hs'). split; [by left|]. left. congruence.
  - unfold tick_error. destruct (_ <? _) eqn:Hint; bool_hyps; [split; [by left|by left]|].
    destruct (str_empty _) eqn:He; [split; [by left|by left]|].
    destruct (tollgate_client_pay _ _ _ _ _) as [[[] al] ev]; cbn [s_state s_last_pay_time_ms];
      (split; [|by auto]); destruct Hev as [[-> ?]|[-> Hbal]]; try (by left); right;
      split_and!; auto.
Qed.

(** The usage a gate reports for a session is what a client of the gate
    reads: both numbers survive the text format. *)
Theorem usage_roundtrip x metric now remaining total :
  tollgate_core_portal_calc_usage x metric now = Some (remaining, total) → 0 <= total →
  tollgate_core_client_parse_usage (tollgate_core_portal_format_usage x metric now)
    = Some (remaining, total).
Proof.
  intros Hc Ht. assert (0 <= remaining < 2 ^ 63 ∧ total < 2 ^ 63) as [Hr Ht'].
  { revert Hc. unfold tollgate_core_portal_calc_usage.
    destruct (active x); [cbn [negb]|done].
    assert (∀ z, i64 z < 2 ^ 63) as Hi.
    { intros z. unfold i64, swrap. change (64 - 1) with 63. zlia. }
    case_bool_decide; intros [= <- <-]; pose proof Hi; split; try apply Hi;
      (split; [lia|apply Z.max_lub_lt; [lia|apply Hi]]). }
  unfold tollgate_core_portal_format_usage. rewrite Hc.
  rewrite u64_small by (unfold is_u64; pow_consts; lia).
  unfold print_d. rewrite (proj2 (Z.ltb_ge remaining 0)) by lia.
  pose proof (print_u_length remaining ltac:(lia)) as Hl1.
  pose proof (print_u_length total Ht) as Hl2.
  rewrite str_append_cons, str_append_nil.
  unfold tollgate_core_client_parse_usage.
  rewrite strchr_print_u by (try lia; vm_compute; intros []; congruence).
  rewrite (proj2 (Nat.leb_gt _ _)) by lia. rewrite str_take_app.
  assert (str_drop (S (String.length (print_u remaining)))
            (print_u remaining +:+ String "/" (print_u total)) = print_u total)%string as ->.
  { replace (S (String.length (print_u remaining)))
      with (String.length (print_u remaining +:+ "/")%string)
      by (rewrite str_append_length; simpl; lia).
    replace (print_u remaining +:+ String "/" (print_u total))%string
      with ((print_u remaining +:+ "/") +:+ print_u total)%string
      by (by rewrite <- str_append_assoc). apply str_drop_app. }
  rewrite strncpy_short by lia. by rewrite !atoll_print_u by lia.
Qed.

Lemma should_renew_exact_witness :
  let t := if 20 <=? 0 then 20 else 20 in
  tollgate_core_client_should_renew 12000 60000 20 = true ↔ 12000 * 100 < (t + 1) * 60000.
Proof. apply (should_renew_exact 12000 60000 20); vm_compute; congruence. Defined.

Lemma usage_roundtrip_witness :
  tollgate_core_client_parse_usage
    (tollgate_core_portal_format_usage example_slot "milliseconds" 2000) = Some (59000, 60000).
Proof. apply usage_roundtrip; [vm_compute; reflexivity|lia]. Defined.
