(* ===== verification/Ehash.v ===== *)
(** The E-Hash relay protocol (ehash_relay.c): the CRC-16, packing and
    unpacking of packets and the forwarding of a packet by one hop. *)

From S2P Require Import Prelude CStr.

Definition EHASH_HEADER_SIZE : nat := 9.
Definition EHASH_CRC_SIZE : nat := 2.
Definition EHASH_MIN_PACKET_SIZE : nat := EHASH_HEADER_SIZE + EHASH_CRC_SIZE.
Definition EHASH_MSG_TEMPLATE : Z := 1.
Definition EHASH_MSG_MAX : Z := 4.

Inductive ehash_err :=
| EHASH_ERR_INVALID_ARG | EHASH_ERR_BUFFER_TOO_SMALL | EHASH_ERR_INVALID_PACKET
| EHASH_ERR_CRC_MISMATCH | EHASH_ERR_MAX_HOPS | EHASH_ERR_BAD_MSG_TYPE.

(** Result of a call: a value or an error code. *)
Inductive ehash_result (A : Type) := EOk (x : A) | EErr (e : ehash_err).
Arguments EOk {A} x.
Arguments EErr {A} e.

(** [payload] is what the pointer leads to, [None] for NULL. *)
Record ehash_packet_t := mk_ehash_packet {
  eh_msg_type : Z;
  eh_hop_count : Z;
  eh_max_hops : Z;
  eh_sender_id : Z;
  eh_payload_len : Z;
  eh_payload : option (list Z)
}.

(** * CRC16-CCITT *)

Definition crc_bit (crc : Z) : Z :=
  if Z.land crc 0x8000 =? 0 then u16 (Z.shiftl crc 1)
  else u16 (Z.lxor (Z.shiftl crc 1) 0x1021).

Definition crc_byte (crc b : Z) : Z := Nat.iter 8 crc_bit (Z.lxor crc (u16 (Z.shiftl b 8))).

Definition ehash_packet_calc_crc (buf : list Z) : Z := foldl crc_byte 0xFFFF buf.

(** * Pack, unpack, forward *)

Definition ehash_msg_type_is_valid (msg_type : Z) : bool :=
  (EHASH_MSG_TEMPLATE <=? msg_type) && (msg_type <? EHASH_MSG_MAX).

(** The bytes written to [out_buf]; their number is the value returned. *)
Definition ehash_packet_pack (msg_type hop_count max_hops sender_id : Z)
    (payload : option (list Z)) (payload_len : Z) (buf_size : nat) : ehash_result (list Z) :=
  match payload, 0 <? payload_len with
  | None, true => EErr EHASH_ERR_INVALID_ARG
  | _, _ =>
      if negb (ehash_msg_type_is_valid msg_type) then EErr EHASH_ERR_BAD_MSG_TYPE else
      let needed := (EHASH_HEADER_SIZE + Z.to_nat payload_len + EHASH_CRC_SIZE)%nat in
      if (buf_size <? needed)%nat then EErr EHASH_ERR_BUFFER_TOO_SMALL else
      let region :=
        [msg_type; hop_count; max_hops] ++ put_be 4 sender_id ++ put_be 2 payload_len
        ++ take (Z.to_nat payload_len) (default [] payload) in
      EOk (region ++ put_be 2 (ehash_packet_calc_crc region))
  end.

Definition ehash_packet_validate_crc (buf : list Z) : bool :=
  if (length buf <? EHASH_MIN_PACKET_SIZE)%nat then false else
  let payload_len := Z.to_nat (get_be (slice 7 2 buf)) in
  if (length buf <? EHASH_HEADER_SIZE + payload_len + EHASH_CRC_SIZE)%nat then false else
  let crc_region_len := (EHASH_HEADER_SIZE + payload_len)%nat in
  ehash_packet_calc_crc (take crc_region_len buf) =? get_be (slice crc_region_len 2 buf).

Definition ehash_packet_unpack (buf : list Z) : ehash_result ehash_packet_t :=
  if (length buf <? EHASH_HEADER_SIZE)%nat then EErr EHASH_ERR_INVALID_PACKET else
  let byte i := default 0 (buf !! i) in
  let sender_id := get_be (slice 3 4 buf) in
  let payload_len := get_be (slice 7 2 buf) in
  if negb (ehash_msg_type_is_valid (byte 0%nat)) then EErr EHASH_ERR_BAD_MSG_TYPE else
  let total := (EHASH_HEADER_SIZE + Z.to_nat payload_len + EHASH_CRC_SIZE)%nat in
  if (length buf <? total)%nat then EErr EHASH_ERR_INVALID_PACKET else
  if negb (ehash_packet_validate_crc (take total buf)) then EErr EHASH_ERR_CRC_MISMATCH else
  EOk (mk_ehash_packet (byte 0%nat) (byte 1%nat) (byte 2%nat) sender_id payload_len
         (if 0 <? payload_len then Some (slice EHASH_HEADER_SIZE (Z.to_nat payload_len) buf)
          else None)).

(** The packet is modified in place, also when it is dropped. *)
Definition ehash_relay_forward (next_hop_id : Z) (p : ehash_packet_t)
  : ehash_result unit * ehash_packet_t :=
  let p' := mk_ehash_packet (eh_msg_type p) (u8 (eh_hop_count p + 1)) (eh_max_hops p) next_hop_id
              (eh_payload_len p) (eh_payload p) in
  (if eh_max_hops p' <? eh_hop_count p' then EErr EHASH_ERR_MAX_HOPS else EOk tt, p').

(** * The CRC step is a bijection *)

Definition crc_bit_inv (d : Z) : Z :=
  if Z.odd d then Z.lor (Z.shiftr (Z.lxor d 0x1021) 1) 0x8000 else Z.shiftr d 1.

Fixpoint all_below (n : nat) (p : Z → bool) : bool :=
  match n with
  | O => true
  | S n' => p (Z.of_nat n') && all_below n' p
  end.

Lemma all_below_spec n p : all_below n p = true → ∀ z, 0 <= z < Z.of_nat n → p z = true.
Proof.
  induction n as [|n IH]; intros H z Hz; [lia|]. simpl in H. apply andb_true_iff in H as [H1 H2].
  destruct (decide (z = Z.of_nat n)) as [->|]; [done|]. apply IH; [done|lia].
Qed.

Lemma crc_bit_inverse_all :
  all_below 256 (λ h, all_below 256 (λ l, crc_bit_inv (crc_bit (h * 256 + l)) =? h * 256 + l)) = true.
Proof. vm_compute. reflexivity. Qed.

Lemma crc_bit_inverse c : is_u16 c → crc_bit_inv (crc_bit c) = c.
Proof.
  unfold is_u16. intros Hc. pow_consts.
  pose proof (all_below_spec _ _ crc_bit_inverse_all (c / 256)) as Hh.
  assert (0 <= c / 256 < Z.of_nat 256) as Hr by (split; [apply Z.div_pos|apply Z.div_lt_upper_bound]; lia).
  specialize (Hh Hr). cbv beta in Hh.
  pose proof (all_below_spec _ _ Hh (c mod 256)) as Hl. cbv beta in Hl.
  specialize (Hl (Z.mod_pos_bound c 256 ltac:(lia))). apply Z.eqb_eq in Hl.
  replace (c / 256 * 256 + c mod 256) with c in Hl; [done|].
  rewrite (Z.div_mod c 256) at 1 by lia. lia.
Qed.

Lemma crc_bit_range c : is_u16 (crc_bit c).
Proof. unfold crc_bit. case_if; apply u16_range. Qed.

Lemma crc_bit_inj a b : is_u16 a → is_u16 b → crc_bit a = crc_bit b → a = b.
Proof. intros Ha Hb H. rewrite <- (crc_bit_inverse a), <- (crc_bit_inverse b), H by done. done. Qed.

Lemma crc_iter_inj n a b :
  is_u16 a → is_u16 b → Nat.iter n crc_bit a = Nat.iter n crc_bit b → a = b.
Proof.
  intros Ha Hb. assert (∀ k c, is_u16 c → is_u16 (Nat.iter k crc_bit c)) as Hr.
  { intros [|k] c Hc; simpl; [done|apply crc_bit_range]. }
  induction n as [|n IH]; simpl; [done|]. intros H%crc_bit_inj; auto.
Qed.

Lemma lxor_u16 a b : is_u16 a → is_u16 b → is_u16 (Z.lxor a b).
Proof.
  unfold is_u16. intros Ha Hb. assert (Z.lxor a b = Z.lxor a b mod 2 ^ 16) as ->.
  { apply Z.bits_inj'. intros i Hi. rewrite Z.lxor_spec.
    destruct (decide (i < 16)) as [Hlt|Hge].
    - by rewrite Z.mod_pow2_bits_low, Z.lxor_spec by lia.
    - rewrite Z.mod_pow2_bits_high by lia.
      rewrite <- (Z.mod_small a (2 ^ 16)), <- (Z.mod_small b (2 ^ 16)) by done.
      by rewrite !Z.mod_pow2_bits_high by lia. }
  apply Z.mod_pos_bound. lia.
Qed.

Lemma shl8_inj b b' : is_u8 b → is_u8 b' → u16 (Z.shiftl b 8) = u16 (Z.shiftl b' 8) → b = b'.
Proof.
  unfold is_u8, u16. rewrite !Z.shiftl_mul_pow2 by lia. pow_consts. intros ??.
  rewrite !Z.mod_small by lia. lia.
Qed.

Lemma crc_byte_range c b : is_u16 c → is_u8 b → is_u16 (crc_byte c b).
Proof.
  intros Hc Hb. unfold crc_byte. simpl. apply crc_bit_range.
Qed.

Lemma crc_byte_inj_state a b x :
  is_u16 a → is_u16 b → is_u8 x → crc_byte a x = crc_byte b x → a = b.
Proof.
  unfold crc_byte. intros Ha Hb Hx H%crc_iter_inj; [|apply lxor_u16; [done|apply u16_range]..].
  rewrite <- (Z.lxor_0_r a), <- (Z.lxor_0_r b), <- (Z.lxor_nilpotent (u16 (Z.shiftl x 8))).
  by rewrite <- !Z.lxor_assoc, H.
Qed.

Lemma crc_byte_inj_byte a x y :
  is_u16 a → is_u8 x → is_u8 y → crc_byte a x = crc_byte a y → x = y.
Proof.
  unfold crc_byte. intros Ha Hx Hy H%crc_iter_inj; [|apply lxor_u16; [done|apply u16_range]..].
  apply shl8_inj; [done..|].
  rewrite <- (Z.lxor_0_l (u16 (Z.shiftl x 8))), <- (Z.lxor_0_l (u16 (Z.shiftl y 8))).
  rewrite <- (Z.lxor_nilpotent a). by rewrite !Z.lxor_assoc, H.
Qed.

Lemma crc_fold_range l c : is_u16 c → Forall is_u8 l → is_u16 (foldl crc_byte c l).
Proof.
  intros Hc Hl. revert c Hc. induction Hl as [|b l Hb _ IH]; intros c Hc; [done|].
  simpl. apply IH. by apply crc_byte_range.
Qed.

Lemma crc_fold_inj l a b :
  is_u16 a → is_u16 b → Forall is_u8 l → foldl crc_byte a l = foldl crc_byte b l → a = b.
Proof.
  intros Ha Hb Hl. revert a b Ha Hb. induction Hl as [|x l Hx _ IH]; intros a b Ha Hb; [done|].
  simpl. intros H. apply IH in H; [|by apply crc_byte_range..]. by apply crc_byte_inj_state in H.
Qed.

(** Changing one byte changes the CRC. *)
Lemma crc_one_byte l i x y :
  Forall is_u8 l → l !! i = Some x → is_u8 y → x ≠ y →
  ehash_packet_calc_crc (<[i := y]> l) ≠ ehash_packet_calc_crc l.
Proof.
  intros Hl Hi Hy Hxy. unfold ehash_packet_calc_crc.
  assert (l = take i l ++ x :: drop (S i) l) as Hsplit by (symmetry; by apply take_drop_middle).
  apply lookup_lt_Some in Hi as Hlt.
  assert (<[i := y]> l = take i l ++ y :: drop (S i) l) as ->.
  { rewrite Hsplit at 1. rewrite insert_app_r_alt by (rewrite length_take; lia).
    rewrite length_take, Nat.min_l, Nat.sub_diag by lia. done. }
  rewrite Hsplit at 3. rewrite !foldl_app. simpl.
  assert (Forall is_u8 (take i l)) by (by apply Forall_take).
  assert (Forall is_u8 (drop (S i) l)) by (by apply Forall_drop).
  assert (is_u8 x) by (exact (Forall_lookup_1 _ _ _ _ Hl Hi)).
  assert (is_u16 0xFFFF) as Hinit by (vm_compute; split; [discriminate|reflexivity]).
  pose proof (crc_fold_range (take i l) 0xFFFF Hinit ltac:(done)) as Hc.
  intros H'%crc_fold_inj; [|by apply crc_byte_range..|done].
  apply crc_byte_inj_byte in H'; [by subst|done..].
Qed.

(** * Packets *)

(** A well-typed packet whose payload is as long as announced. *)
Definition packet_ok (p : ehash_packet_t) : Prop :=
  ehash_msg_type_is_valid (eh_msg_type p) = true ∧
  is_u8 (eh_hop_count p) ∧ is_u8 (eh_max_hops p) ∧ is_u32 (eh_sender_id p) ∧
  is_u16 (eh_payload_len p) ∧
  match eh_payload p with
  | Some l => Z.of_nat (length l) = eh_payload_len p ∧ 0 < eh_payload_len p ∧ Forall is_u8 l
  | None => eh_payload_len p = 0
  end.

Definition pack (p : ehash_packet_t) (buf_size : nat) : ehash_result (list Z) :=
  ehash_packet_pack (eh_msg_type p) (eh_hop_count p) (eh_max_hops p) (eh_sender_id p)
    (eh_payload p) (eh_payload_len p) buf_size.

(** The bytes the CRC covers. *)
Definition packet_region (p : ehash_packet_t) : list Z :=
  [eh_msg_type p; eh_hop_count p; eh_max_hops p] ++ put_be 4 (eh_sender_id p)
  ++ put_be 2 (eh_payload_len p) ++ default [] (eh_payload p).

Definition packet_size (p : ehash_packet_t) : nat :=
  (EHASH_HEADER_SIZE + Z.to_nat (eh_payload_len p) + EHASH_CRC_SIZE)%nat.

Lemma packet_payload_len p :
  packet_ok p → length (default [] (eh_payload p)) = Z.to_nat (eh_payload_len p).
Proof.
  intros (_ & _ & _ & _ & _ & Hp). destruct (eh_payload p) as [l|]; simpl; [lia|]. by rewrite Hp.
Qed.

Lemma packet_region_length p :
  packet_ok p → length (packet_region p) = (9 + Z.to_nat (eh_payload_len p))%nat.
Proof.
  intros Hok. unfold packet_region. rewrite !length_app, !length_put_be, packet_payload_len by done.
  done.
Qed.

Lemma pack_ok p size :
  packet_ok p → (packet_size p ≤ size)%nat →
  pack p size = EOk (packet_region p ++ put_be 2 (ehash_packet_calc_crc (packet_region p))).
Proof.
  intros Hok Hs. pose proof (packet_payload_len p Hok) as Hlen.
  unfold pack, ehash_packet_pack, packet_region, packet_size in *.
  destruct Hok as (Hm & _ & _ & _ & _ & Hp). rewrite Hm. cbn [negb].
  rewrite (proj2 (Nat.ltb_ge _ _)) by done.
  rewrite take_ge by lia. destruct (eh_payload p); [done|]. rewrite Hp. done.
Qed.

Lemma packet_region_bytes p : packet_ok p → Forall is_u8 (packet_region p).
Proof.
  intros (Hm & Hh & Hx & Hs & Hl & Hp). unfold packet_region.
  unfold ehash_msg_type_is_valid, EHASH_MSG_TEMPLATE, EHASH_MSG_MAX in Hm. bool_hyps.
  assert (is_u8 (eh_msg_type p)) by (unfold is_u8; pow_consts; lia).
  rewrite !Forall_app. split_and!;
    [by repeat (constructor; [done|])|apply put_be_bytes|apply put_be_bytes|].
  destruct (eh_payload p) as [l|]; [|constructor]. by destruct Hp as (_ & _ & ?).
Qed.

(** The header fields of a buffer that begins with the region. *)
Lemma region_header p rest :
  packet_ok p →
  let buf := packet_region p ++ rest in
  buf !! 0%nat = Some (eh_msg_type p) ∧ buf !! 1%nat = Some (eh_hop_count p) ∧
  buf !! 2%nat = Some (eh_max_hops p) ∧ get_be (slice 3 4 buf) = eh_sender_id p ∧
  get_be (slice 7 2 buf) = eh_payload_len p ∧
  drop 9 buf = default [] (eh_payload p) ++ rest.
Proof.
  intros Hok. cbv zeta. unfold packet_region.
  pose proof (get_put_be 4 (eh_sender_id p)) as Hs. pose proof (get_put_be 2 (eh_payload_len p)) as Hl.
  pose proof (length_put_be 4 (eh_sender_id p)) as Hls.
  pose proof (length_put_be 2 (eh_payload_len p)) as Hll.
  destruct Hok as (_ & _ & _ & Hu & Hv & _). unfold is_u32, is_u16 in *. pow_consts.
  change (256 ^ Z.of_nat 4) with 4294967296 in Hs. change (256 ^ Z.of_nat 2) with 65536 in Hl.
  rewrite Z.mod_small in Hs, Hl by lia.
  destruct (put_be 4 (eh_sender_id p)) as [|s0 [|s1 [|s2 [|s3 [|]]]]]; try done.
Qed.

Lemma validate_crc_region r c :
  (9 ≤ length r)%nat → length r = (9 + Z.to_nat (get_be (slice 7 2 r)))%nat → length c = 2%nat →
  ehash_packet_validate_crc (r ++ c) = (ehash_packet_calc_crc r =? get_be c).
Proof.
  intros H9 Hr Hc. unfold ehash_packet_validate_crc, EHASH_MIN_PACKET_SIZE, EHASH_HEADER_SIZE,
    EHASH_CRC_SIZE. rewrite length_app, Hc.
  rewrite (proj2 (Nat.ltb_ge _ _)) by lia.
  assert (slice 7 2 (r ++ c) = slice 7 2 r) as ->.
  { unfold slice. rewrite drop_app_le by lia. rewrite take_app_le; [done|]. rewrite length_drop. lia. }
  rewrite (proj2 (Nat.ltb_ge _ _)) by lia. rewrite <- Hr.
  rewrite take_app_length. unfold slice. rewrite drop_app_length. by rewrite take_ge by lia.
Qed.

(** Unpacking a buffer whose first [total] bytes are [r ++ c]. *)
Lemma unpack_region r c rest :
  (9 ≤ length r)%nat → length r = (9 + Z.to_nat (get_be (slice 7 2 r)))%nat → length c = 2%nat →
  ehash_packet_unpack ((r ++ c) ++ rest) =
    if negb (ehash_msg_type_is_valid (default 0 (r !! 0%nat))) then EErr EHASH_ERR_BAD_MSG_TYPE else
    if negb (ehash_packet_calc_crc r =? get_be c) then EErr EHASH_ERR_CRC_MISMATCH else
    EOk (mk_ehash_packet (default 0 (r !! 0%nat)) (default 0 (r !! 1%nat)) (default 0 (r !! 2%nat))
           (get_be (slice 3 4 r)) (get_be (slice 7 2 r))
           (if 0 <? get_be (slice 7 2 r) then Some (drop 9 r) else None)).
Proof.
  intros H9 Hr Hc. unfold ehash_packet_unpack, EHASH_HEADER_SIZE, EHASH_CRC_SIZE.
  rewrite !length_app, Hc, (proj2 (Nat.ltb_ge _ _)) by lia. rewrite <- !(app_assoc r).
  assert (∀ o n, (o + n ≤ length r)%nat → slice o n (r ++ c ++ rest) = slice o n r) as Hsl.
  { intros o n Ho. unfold slice. rewrite drop_app_le by lia. rewrite take_app_le; [done|].
    rewrite length_drop. lia. }
  rewrite !Hsl by lia. rewrite !lookup_app_l by lia.
  destruct (ehash_msg_type_is_valid _); [|done]. cbn [negb].
  rewrite (proj2 (Nat.ltb_ge _ _)) by lia.
  assert (take (9 + Z.to_nat (get_be (slice 7 2 r)) + 2) (r ++ c ++ rest) = r ++ c) as ->.
  { rewrite app_assoc. rewrite take_app_le by (rewrite length_app; lia).
    rewrite take_ge; [done|]. rewrite length_app. lia. }
  rewrite validate_crc_region by done. destruct (_ =? _); [|done]. cbn [negb].
  by replace (slice 9 (Z.to_nat (get_be (slice 7 2 r))) r) with (drop 9 r)
    by (unfold slice at 1; rewrite take_ge; [done|rewrite length_drop; lia]).
Qed.

Lemma region_fields p :
  packet_ok p →
  (9 ≤ length (packet_region p))%nat ∧
  length (packet_region p) = (9 + Z.to_nat (get_be (slice 7 2 (packet_region p))))%nat.
Proof.
  intros Hok. pose proof (packet_region_length p Hok) as Hl.
  destruct (region_header p [] Hok) as (_ & _ & _ & _ & Hlen & _). rewrite app_nil_r in Hlen.
  rewrite Hlen, Hl. split; [lia|done].
Qed.

(** * Properties *)

(** What is packed is unpacked unchanged, also from a longer buffer, and
    takes exactly header, payload and CRC. *)
Theorem pack_unpack_roundtrip p size rest :
  packet_ok p → (packet_size p ≤ size)%nat →
  ∃ buf, pack p size = EOk buf ∧ length buf = packet_size p ∧
         ehash_packet_unpack (buf ++ rest) = EOk p.
Proof.
  intros Hok Hs. eexists. split; [by apply pack_ok|].
  destruct (region_fields p Hok) as [H9 Hr]. split.
  { rewrite length_app, length_put_be, packet_region_length by done. done. }
  rewrite unpack_region by (done || apply length_put_be).
  destruct (region_header p [] Hok) as (H0 & H1 & H2 & Hsid & Hlen & Hd).
  rewrite app_nil_r in H0, H1, H2, Hsid, Hlen, Hd. rewrite H0, H1, H2, Hsid, Hlen, Hd, app_nil_r.
  rewrite get_put_be. change (256 ^ Z.of_nat 2) with (2 ^ 16).
  rewrite Z.mod_small; [|apply crc_fold_range; [vm_compute; by split|by apply packet_region_bytes]].
  rewrite Z.eqb_refl. destruct Hok as (Hm & _ & _ & _ & _ & Hp). simpl. rewrite Hm. simpl.
  destruct p as [t h mx sid len [l|]]; simpl in *.
  - destruct Hp as (_ & Hp & _). by rewrite (proj2 (Z.ltb_lt _ _)) by lia.
  - subst len. done.
Qed.

(** A packet in which one byte outside the length field has been altered
    on the way is never accepted. *)
Theorem corrupted_byte_rejected p size buf i x y rest :
  packet_ok p → pack p size = EOk buf → (packet_size p ≤ size)%nat →
  buf !! i = Some x → is_u8 y → x ≠ y → i ≠ 7%nat → i ≠ 8%nat →
  ¬ ∃ q, ehash_packet_unpack (<[i := y]> buf ++ rest) = EOk q.
Proof.
  intros Hok Hpk Hs Hi Hy Hxy H7 H8 [q Hq]. revert Hq. rewrite pack_ok in Hpk by done.
  assert (buf = packet_region p ++ put_be 2 (ehash_packet_calc_crc (packet_region p))) as ->
    by congruence.
  destruct (region_fields p Hok) as [H9 Hr]. pose proof (packet_region_bytes p Hok) as Hb.
  set (r := packet_region p) in *. set (c := put_be 2 (ehash_packet_calc_crc r)) in *.
  assert (length c = 2%nat) as Hc by apply length_put_be.
  assert (get_be c = ehash_packet_calc_crc r) as Hcv.
  { unfold c. rewrite get_put_be. apply Z.mod_small. apply crc_fold_range; [vm_compute; by split|done]. }
  destruct (decide (i < length r)%nat) as [Hlt|Hge].
  - rewrite lookup_app_l in Hi by done. rewrite insert_app_l by done.
    assert (slice 7 2 (<[i:=y]> r) = slice 7 2 r) as Hsl.
    { apply list_eq. intros k. unfold slice.
      destruct (decide (k < 2)%nat); [|by rewrite !lookup_take_ge by lia].
      rewrite !lookup_take_lt, !lookup_drop by done. apply list_lookup_insert_ne. lia. }
    rewrite unpack_region; [|by rewrite length_insert|by rewrite length_insert, Hsl|done].
    case_if; [done|]. rewrite Hcv.
    rewrite (proj2 (Z.eqb_neq _ _)) by (by eapply crc_one_byte). done.
  - rewrite lookup_app_r in Hi by lia. rewrite insert_app_r_alt by lia.
    rewrite unpack_region; [|done|done|by rewrite length_insert].
    case_if; [done|]. rewrite <- Hcv. rewrite (proj2 (Z.eqb_neq _ _)); [done|].
    intros Heq%get_be_inj; [|apply put_be_bytes| |by rewrite length_insert].
    + assert (<[(i - length r)%nat:=y]> c !! (i - length r)%nat = Some x) as Hx by (by rewrite <- Heq).
      rewrite list_lookup_insert_eq in Hx by (by apply lookup_lt_Some in Hi). congruence.
    + apply Forall_insert; [apply put_be_bytes|done].
Qed.

(** One packet through a chain of relays, each of which forwards it only when
    the call says so: the number of hops made. *)
Fixpoint relay_chain (ids : list Z) (p : ehash_packet_t) : nat :=
  match ids with
  | [] => O
  | id :: ids' =>
      match ehash_relay_forward id p with
      | (EOk _, p') => S (relay_chain ids' p')
      | (EErr _, _) => O
      end
  end.

(** Below the largest hop limit a fresh packet makes exactly as many hops
    as its limit allows, however long the chain of relays. *)
Theorem forward_respects_max_hops ids p :
  0 <= eh_hop_count p <= eh_max_hops p → eh_max_hops p < 255 →
  relay_chain ids p = Nat.min (length ids) (Z.to_nat (eh_max_hops p - eh_hop_count p)).
Proof.
  revert p. induction ids as [|id ids IH]; intros p Hh Hm; [done|]. simpl.
  rewrite u8_small by (unfold is_u8; pow_consts; lia).
  destruct (eh_max_hops p <? eh_hop_count p + 1) eqn:Hlt; bool_hyps.
  - replace (eh_max_hops p - eh_hop_count p) with 0 by lia. done.
  - rewrite IH by (simpl; lia). simpl.
    replace (Z.to_nat (eh_max_hops p - eh_hop_count p))
      with (S (Z.to_nat (eh_max_hops p - (eh_hop_count p + 1)))) by lia. done.
Qed.

(** With a limit of 255 the 8-bit hop count wraps around before it exceeds the
    limit: the packet is never dropped. *)
Theorem max_hops_255_never_dropped id p :
  eh_max_hops p = 255 → fst (ehash_relay_forward id p) = EOk tt.
Proof.
  intros Hm. unfold ehash_relay_forward. simpl. rewrite Hm.
  rewrite (proj2 (Z.ltb_ge _ _)); [done|].
  pose proof (u8_range (eh_hop_count p + 1)). unfold is_u8 in *. pow_consts. lia.
Qed.

Definition packet_example : ehash_packet_t := mk_ehash_packet 2 0 4 7 3 (Some [1; 2; 3]).

Lemma packet_example_ok : packet_ok packet_example.
Proof.
  split_and!; try done; try (vm_compute; split; (discriminate || reflexivity)).
  simpl. split_and!; [done|done|]. apply (bool_decide_unpack _). vm_compute. exact I.
Qed.

Lemma pack_unpack_roundtrip_witness :
  ∃ buf, pack packet_example 64 = EOk buf ∧ length buf = packet_size packet_example ∧
         ehash_packet_unpack (buf ++ [9; 9]) = EOk packet_example.
Proof.
  apply pack_unpack_roundtrip; [exact packet_example_ok|]. vm_compute. lia.
Defined.

Definition packet_example_bytes : list Z :=
  match pack packet_example 64 with EOk b => b | EErr _ => [] end.

Lemma corrupted_byte_rejected_witness :
  ¬ ∃ q, ehash_packet_unpack (<[9%nat := 5]> packet_example_bytes ++ []) = EOk q.
Proof.
  apply (corrupted_byte_rejected packet_example 64 packet_example_bytes 9 1 5 []).
  - exact packet_example_ok.
  - vm_compute. reflexivity.
  - vm_compute. lia.
  - vm_compute. reflexivity.
  - vm_compute. split; [discriminate|reflexivity].
  - discriminate.
  - discriminate.
  - discriminate.
Defined.

Lemma forward_respects_max_hops_witness :
  relay_chain [11; 12; 13; 14; 15; 16] packet_example =
    Nat.min 6 (Z.to_nat (eh_max_hops packet_example - eh_hop_count packet_example)).
Proof. apply (forward_respects_max_hops [11; 12; 13; 14; 15; 16] packet_example); vm_compute; try split; congruence. Defined.
