(* ===== verification/RateLimiter.v ===== *)
(** The relay's rate limiter (wisp_relay/rate_limiter.c): sixteen buckets, one
    per connection, that count events and requests in windows of a minute.
    The mutex makes each call one step.  Clock readings are the seconds
    [esp_timer_get_time() / 1000000]; a check reads the clock once when it
    creates a bucket ([t0]) and once more for the check itself ([t]). *)

From S2P Require Import Prelude.

Definition RATE_LIMITER_MAX_BUCKETS : nat := 16.

Inductive rate_type_t := RATE_TYPE_EVENT | RATE_TYPE_REQ.

#[export] Instance rate_type_eq_dec : EqDecision rate_type_t.
Proof. solve_decision. Defined.

Record rate_config_t := mk_rate_config { events_per_minute : Z; reqs_per_minute : Z }.

Record rate_bucket_t := mk_rate_bucket {
  rb_fd : Z;
  event_count : Z;
  req_count : Z;
  window_start : Z;
  rb_active : bool
}.

Record rate_limiter_t := mk_rate_limiter {
  rl_config : rate_config_t;
  buckets : list rate_bucket_t
}.

Definition bucket_zero : rate_bucket_t := mk_rate_bucket 0 0 0 0 false.

Definition rate_limiter_init (config : option rate_config_t) : rate_limiter_t :=
  mk_rate_limiter (default (mk_rate_config 30 60) config)
    (replicate RATE_LIMITER_MAX_BUCKETS bucket_zero).

Definition is_bucket (fd : Z) (b : rate_bucket_t) : bool := rb_active b && (rb_fd b =? fd).

(** The index of the bucket for [fd], created if there is none. *)
Definition get_bucket (t0 fd : Z) (bs : list rate_bucket_t) : option (nat * list rate_bucket_t) :=
  match find_slot (is_bucket fd) bs with
  | Some i => Some (i, bs)
  | None =>
      match find_slot (λ b, negb (rb_active b)) bs with
      | Some i => Some (i, <[i := mk_rate_bucket fd 0 0 (u32 t0) true]> bs)
      | None => None
      end
  end.

(** The part of [rate_limiter_check] that works on the bucket found. *)
Definition bucket_check (cfg : rate_config_t) (now : Z) (type : rate_type_t) (b : rate_bucket_t)
  : bool * rate_bucket_t :=
  let b1 := if 60 <=? u32 (now - window_start b)
            then mk_rate_bucket (rb_fd b) 0 0 now (rb_active b) else b in
  match type with
  | RATE_TYPE_EVENT =>
      if events_per_minute cfg <=? event_count b1 then (false, b1)
      else (true, mk_rate_bucket (rb_fd b1) (u16 (event_count b1 + 1)) (req_count b1)
                    (window_start b1) (rb_active b1))
  | RATE_TYPE_REQ =>
      if reqs_per_minute cfg <=? req_count b1 then (false, b1)
      else (true, mk_rate_bucket (rb_fd b1) (event_count b1) (u16 (req_count b1 + 1))
                    (window_start b1) (rb_active b1))
  end.

Definition rate_limiter_check (t0 t fd : Z) (type : rate_type_t) (rl : rate_limiter_t)
  : bool * rate_limiter_t :=
  match get_bucket t0 fd (buckets rl) with
  | None => (false, rl)
  | Some (i, bs) =>
      match bs !! i with
      | None => (false, rl)
      | Some b =>
          let '(allowed, b') := bucket_check (rl_config rl) (u32 t) type b in
          (allowed, mk_rate_limiter (rl_config rl) (<[i := b']> bs))
      end
  end.

Definition rate_limiter_reset (fd : Z) (rl : rate_limiter_t) : rate_limiter_t :=
  match find_slot (is_bucket fd) (buckets rl) with
  | Some i => mk_rate_limiter (rl_config rl)
                (alter (λ b, mk_rate_bucket (rb_fd b) (event_count b) (req_count b)
                               (window_start b) false) i (buckets rl))
  | None => rl
  end.

(** * One connection's bucket *)

Definition bucket_of (fd : Z) (rl : rate_limiter_t) : option rate_bucket_t :=
  find_slot (is_bucket fd) (buckets rl) ≫= λ i, buckets rl !! i.

Definition type_count (type : rate_type_t) (b : rate_bucket_t) : Z :=
  match type with RATE_TYPE_EVENT => event_count b | RATE_TYPE_REQ => req_count b end.
Definition type_limit (type : rate_type_t) (cfg : rate_config_t) : Z :=
  match type with
  | RATE_TYPE_EVENT => events_per_minute cfg
  | RATE_TYPE_REQ => reqs_per_minute cfg
  end.

Lemma bucket_check_active cfg now type b :
  rb_active (bucket_check cfg now type b).2 = rb_active b ∧
  rb_fd (bucket_check cfg now type b).2 = rb_fd b.
Proof. unfold bucket_check. destruct type; repeat case_if; done. Qed.

Lemma get_bucket_spec t0 fd bs i bs' :
  get_bucket t0 fd bs = Some (i, bs') →
  ∃ x b, bs !! i = Some x ∧ bs' = <[i := b]> bs ∧ rb_active b = true ∧ rb_fd b = fd ∧
    find_slot (is_bucket fd) bs' = Some i ∧
    (∀ fd', fd' ≠ fd → is_bucket fd' x = false) ∧
    (find_slot (is_bucket fd) bs = Some i ∧ b = x ∨
     find_slot (is_bucket fd) bs = None ∧ b = mk_rate_bucket fd 0 0 (u32 t0) true).
Proof.
  unfold get_bucket. destruct (find_slot (is_bucket fd) bs) as [k|] eqn:Hf.
  - intros [= <- <-]. destruct (find_slot_Some _ _ _ Hf) as (x & Hx & Hp & _).
    unfold is_bucket in Hp. bool_hyps. exists x, x. rewrite list_insert_id by done.
    split_and!; try done; [|by left].
    intros fd' Hne. unfold is_bucket. rewrite (proj2 (Z.eqb_neq _ _)) by congruence.
    apply andb_false_r.
  - destruct (find_slot (λ b, negb (rb_active b)) bs) as [k|] eqn:Hg; [|done].
    intros [= <- <-]. destruct (find_slot_Some _ _ _ Hg) as (x & Hx & Hp & _).
    exists x. eexists. split_and!; try done; [..|by right].
    + pose proof (lookup_lt_Some _ _ _ Hx) as Hlt.
      apply (find_slot_unique _ _ k (mk_rate_bucket fd 0 0 (u32 t0) true));
        [by apply list_lookup_insert_eq|unfold is_bucket; simpl; by rewrite Z.eqb_refl|].
      intros j y Hj Hy. destruct (decide (k = j)) as [->|Hne]; [done|].
      rewrite list_lookup_insert_ne in Hj by done.
      by rewrite (proj1 (find_slot_None _ _) Hf j y Hj) in Hy.
    + intros fd' _. unfold is_bucket. destruct (rb_active x); [discriminate Hp|done].
Qed.

(** A check of another connection leaves a bucket alone. *)
Lemma check_other t0 t fd fd' type rl :
  fd ≠ fd' → bucket_of fd (rate_limiter_check t0 t fd' type rl).2 = bucket_of fd rl.
Proof.
  intros Hne. unfold rate_limiter_check.
  destruct (get_bucket t0 fd' (buckets rl)) as [[i bs]|] eqn:Hg; [|done].
  destruct (get_bucket_spec _ _ _ _ _ Hg) as (x & b & Hx & -> & Ha & Hfd & _ & Hother & _).
  pose proof (lookup_lt_Some _ _ _ Hx) as Hlt. rewrite list_lookup_insert_eq by done.
  pose proof (bucket_check_active (rl_config rl) (u32 t) type b) as [Ha' Hfd'].
  destruct (bucket_check _ _ _ _) as [al b']. cbn [snd] in Ha', Hfd' |- *.
  rewrite list_insert_insert_eq. unfold bucket_of. cbn [buckets].
  assert (is_bucket fd b' = false) as Hb'.
  { unfold is_bucket. rewrite Hfd', Hfd. rewrite (proj2 (Z.eqb_neq _ _)) by congruence.
    apply andb_false_r. }
  rewrite (find_slot_insert_same _ _ _ x) by (done || by rewrite Hb', Hother).
  destruct (find_slot (is_bucket fd) (buckets rl)) as [k|] eqn:Hf; [|done]. simpl.
  destruct (find_slot_Some _ _ _ Hf) as (z & Hz & Hpz & _).
  destruct (decide (i = k)) as [->|]; [|by apply list_lookup_insert_ne].
  exfalso. rewrite Hx in Hz. injection Hz as ->. by rewrite Hother in Hpz.
Qed.

(** A check of the connection itself is a check of its bucket, or of a new one. *)
Lemma check_self t0 t fd type rl :
  let '(al, rl') := rate_limiter_check t0 t fd type rl in
  rl_config rl' = rl_config rl ∧
  (al = false ∧ rl' = rl ∧ bucket_of fd rl = None ∨
   ∃ b, (bucket_of fd rl = Some b ∨
         bucket_of fd rl = None ∧ b = mk_rate_bucket fd 0 0 (u32 t0) true) ∧
        bucket_check (rl_config rl) (u32 t) type b = (al, default b (bucket_of fd rl')) ∧
        is_Some (bucket_of fd rl')).
Proof.
  unfold rate_limiter_check.
  destruct (get_bucket t0 fd (buckets rl)) as [[i bs]|] eqn:Hg.
  - destruct (get_bucket_spec _ _ _ _ _ Hg) as (x & b & Hx & -> & Ha & Hfd & Hf & _ & Hcase).
    pose proof (lookup_lt_Some _ _ _ Hx) as Hlt. rewrite list_lookup_insert_eq by done.
    pose proof (bucket_check_active (rl_config rl) (u32 t) type b) as [Ha' Hfd'].
    destruct (bucket_check _ _ _ b) as [al b'] eqn:Hc. cbn [snd] in Ha', Hfd'.
    split; [done|]. right. exists b. rewrite list_insert_insert_eq.
    assert (is_bucket fd b' = is_bucket fd b) as Hsame
      by (unfold is_bucket; by rewrite Ha', Hfd').
    assert (bucket_of fd (mk_rate_limiter (rl_config rl) (<[i:=b']> (buckets rl))) = Some b') as Hb'.
    { pose proof (find_slot_insert_same (is_bucket fd) _ i b b'
                    (list_lookup_insert_eq (buckets rl) i b Hlt) Hsame) as Hs.
      rewrite list_insert_insert_eq, Hf in Hs. unfold bucket_of. cbn [buckets].
      rewrite Hs. simpl. by apply list_lookup_insert_eq. }
    rewrite Hb'. split_and!; [|done|by eexists]. unfold bucket_of.
    destruct Hcase as [[-> ->]|[-> ->]]; [left; by simpl|right; by simpl].
  - split; [done|]. left. split_and!; try done. unfold get_bucket in Hg. unfold bucket_of.
    by destruct (find_slot (is_bucket fd) (buckets rl)).
Qed.

(** * A connection over time *)

Inductive rl_op := RlCheck (t0 t fd : Z) (type : rate_type_t) | RlReset (fd : Z).

(** The times never go back from [lo], stay below [hi], and [fd] is not reset. *)
Fixpoint trace_within (lo hi fd : Z) (ops : list rl_op) : Prop :=
  match ops with
  | [] => True
  | RlCheck t0 t _ _ :: ops' => lo <= t0 ∧ t0 <= t ∧ t < hi ∧ trace_within t hi fd ops'
  | RlReset fd' :: ops' => fd' ≠ fd ∧ trace_within lo hi fd ops'
  end.

(** The number of checks of [fd] for [type] that were allowed. *)
Fixpoint allowed_count (fd : Z) (type : rate_type_t) (rl : rate_limiter_t) (ops : list rl_op) : Z :=
  match ops with
  | [] => 0
  | RlCheck t0 t fd' type' :: ops' =>
      let '(al, rl') := rate_limiter_check t0 t fd' type' rl in
      Z.b2z (al && (fd' =? fd) && bool_decide (type' = type)) + allowed_count fd type rl' ops'
  | RlReset fd' :: ops' => allowed_count fd type (rate_limiter_reset fd' rl) ops'
  end.

Lemma reset_other fd fd' rl :
  fd' ≠ fd → bucket_of fd (rate_limiter_reset fd' rl) = bucket_of fd rl ∧
             rl_config (rate_limiter_reset fd' rl) = rl_config rl.
Proof.
  intros Hne. unfold rate_limiter_reset.
  destruct (find_slot (is_bucket fd') (buckets rl)) as [i|] eqn:Hf; [|done].
  destruct (find_slot_Some _ _ _ Hf) as (x & Hx & Hp & _). unfold is_bucket in Hp. bool_hyps.
  split; [|done]. rewrite (alter_insert_Some _ _ _ _ Hx). unfold bucket_of. cbn [buckets].
  assert (is_bucket fd x = false) as Hn.
  { unfold is_bucket. rewrite (proj2 (Z.eqb_neq _ _)) by congruence. apply andb_false_r. }
  rewrite (find_slot_insert_same _ _ _ x) by (done || by rewrite Hn).
  destruct (find_slot (is_bucket fd) (buckets rl)) as [k|] eqn:Hk; [|done]. simpl.
  destruct (find_slot_Some _ _ _ Hk) as (z & Hz & Hpz & _).
  destruct (decide (i = k)) as [->|]; [congruence|by apply list_lookup_insert_ne].
Qed.

(** How many more checks a bucket can allow before [T + 60], seen from [T]. *)
Definition budget (cfg : rate_config_t) (type : rate_type_t) (T : Z) (o : option rate_bucket_t) : Z :=
  let full := Z.max 0 (type_limit type cfg) in
  match o with
  | None => full
  | Some b => Z.max 0 (type_limit type cfg - type_count type b)
              + if window_start b <? T then full else 0
  end.

(** One check of a bucket spends at least what it allows. *)
Lemma bucket_check_budget cfg type type' T now b :
  T <= now < T + 60 → 0 <= T → T + 60 < 2 ^ 32 → 0 <= window_start b <= now →
  0 <= type_count type b → type_limit type cfg < 2 ^ 16 →
  let '(al, b') := bucket_check cfg now type' b in
  Z.b2z (al && bool_decide (type' = type)) + budget cfg type T (Some b')
    <= budget cfg type T (Some b) ∧
  0 <= window_start b' <= now ∧ 0 <= type_count type b'.
Proof.
  intros Hnow HT Hw Hs Hc Hlim. unfold bucket_check, budget.
  rewrite (u32_small (now - window_start b)) by (unfold is_u32; lia).
  assert (∀ x, 0 <= x → x < type_limit type cfg → u16 (x + 1) = x + 1) as Hu
    by (intros; apply u16_small; unfold is_u16; lia).
  destruct (60 <=? now - window_start b) eqn:E; bool_hyps;
    destruct type', type; cbn [event_count req_count window_start type_count type_limit] in *;
    repeat case_if; rewrite ?bool_decide_true, ?bool_decide_false by done;
    cbn [andb Z.b2z event_count req_count window_start type_count type_limit] in *; bool_hyps;
    rewrite ?Hu in * by lia; repeat case_if; bool_hyps; lia.
Qed.

(** The bucket of [fd], if there is one, has a window that began by [lo]. *)
Definition bucket_ok (fd : Z) (type : rate_type_t) (lo : Z) (rl : rate_limiter_t) : Prop :=
  ∀ b, bucket_of fd rl = Some b → 0 <= window_start b <= lo ∧ 0 <= type_count type b.

Lemma allowed_count_budget fd type T ops rl lo :
  T <= lo → 0 <= T → T + 60 < 2 ^ 32 → type_limit type (rl_config rl) < 2 ^ 16 →
  trace_within lo (T + 60) fd ops → bucket_ok fd type lo rl →
  allowed_count fd type rl ops <= budget (rl_config rl) type T (bucket_of fd rl).
Proof.
  intros HT H0 Hw. revert lo rl HT.
  induction ops as [|[t0 t fd' type'|fd'] ops IH]; intros lo rl HT Hlim Htr Hok.
  - simpl. unfold budget. destruct (bucket_of fd rl); repeat case_if; lia.
  - destruct Htr as (H1 & H2 & H3 & Htr). cbn [allowed_count].
    destruct (decide (fd' = fd)) as [->|Hne].
    + pose proof (check_self t0 t fd type' rl) as Hself.
      destruct (rate_limiter_check t0 t fd type' rl) as [al rl'].
      rewrite Z.eqb_refl, andb_true_r.
      destruct Hself as [Hcfg [(-> & -> & Hnone)|(b & Hb & Hc & [b' Hb'])]].
      * cbn [andb Z.b2z]. apply (IH t); [lia|done|done|].
        intros b Hb. by rewrite Hnone in Hb.
      * rewrite (u32_small t) in Hc by (unfold is_u32; lia).
        rewrite Hb' in Hc. change (default b (Some b')) with b' in Hc.
        assert (budget (rl_config rl) type T (Some b) <= budget (rl_config rl) type T (bucket_of fd rl)
                ∧ 0 <= window_start b <= t ∧ 0 <= type_count type b) as (Hbud & Hws & Hcnt).
        { destruct Hb as [Hb|[Hb ->]]; rewrite Hb.
          - destruct (Hok b Hb). split_and!; lia.
          - rewrite u32_small by (unfold is_u32; lia). unfold budget.
            destruct type; cbn [window_start type_count event_count req_count];
              rewrite (proj2 (Z.ltb_ge t0 T)) by lia; split_and!; lia. }
        pose proof (bucket_check_budget (rl_config rl) type type' T t b ltac:(lia) H0 Hw Hws Hcnt Hlim)
          as Hstep.
        rewrite Hc in Hstep. destruct Hstep as (Hstep & Hws' & Hcnt').
        assert (allowed_count fd type rl' ops
                <= budget (rl_config rl') type T (bucket_of fd rl')) as Hrest.
        { apply (IH t); [lia|by rewrite Hcfg|done|]. intros b0 Hb0. rewrite Hb' in Hb0.
          by injection Hb0 as <-. }
        rewrite Hcfg, Hb' in Hrest. lia.
    + pose proof (check_other t0 t fd fd' type' rl ltac:(congruence)) as Hoth.
      assert (rl_config (rate_limiter_check t0 t fd' type' rl).2 = rl_config rl) as Hcfg.
      { pose proof (check_self t0 t fd' type' rl) as Hs.
        destruct (rate_limiter_check t0 t fd' type' rl). by destruct Hs as [? _]. }
      destruct (rate_limiter_check t0 t fd' type' rl) as [al rl']. cbn [snd] in *.
      rewrite (proj2 (Z.eqb_neq _ _)), andb_false_r by done. cbn [andb Z.b2z].
      rewrite <- Hoth, <- Hcfg. apply (IH t); [lia|by rewrite Hcfg|done|].
      intros b Hb. rewrite Hoth in Hb. destruct (Hok b Hb). split; lia.
  - destruct Htr as [Hne Htr]. cbn [allowed_count].
    destruct (reset_other fd fd' rl Hne) as [Hoth Hcfg].
    rewrite <- Hoth, <- Hcfg. apply (IH lo); [done|by rewrite Hcfg|done|].
    intros b Hb. rewrite Hoth in Hb. by apply Hok.
Qed.

(** * Properties *)

(** C37: In any sixty consecutive seconds a connection gets at most twice its
    limit of events (or requests) through, whatever the other connections do;
    a connection without a bucket at the start gets at most the limit through. *)
Theorem rate_limit_bound fd type T ops rl :
  0 <= T → T + 60 < 2 ^ 32 → 0 <= type_limit type (rl_config rl) < 2 ^ 16 →
  trace_within T (T + 60) fd ops → bucket_ok fd type T rl →
  allowed_count fd type rl ops <= 2 * type_limit type (rl_config rl) ∧
  (bucket_of fd rl = None → allowed_count fd type rl ops <= type_limit type (rl_config rl)).
Proof.
  intros H0 Hw Hlim Htr Hok.
  pose proof (allowed_count_budget fd type T ops rl T ltac:(lia) H0 Hw ltac:(lia) Htr Hok) as Hle.
  unfold budget in Hle. unfold bucket_ok in Hok. split.
  - destruct (bucket_of fd rl) as [b|]; [|lia].
    destruct (Hok b eq_refl). destruct (window_start b <? T); lia.
  - intros Hn. rewrite Hn in Hle. lia.
Qed.

(** With every bucket in use a further connection is refused everything: a
    bucket is given back by [rate_limiter_reset] alone, which no code calls. *)
Theorem full_limiter_refuses t0 t fd type rl :
  Forall (λ b, rb_active b = true ∧ rb_fd b ≠ fd) (buckets rl) →
  rate_limiter_check t0 t fd type rl = (false, rl).
Proof.
  intros Hall. unfold rate_limiter_check, get_bucket.
  assert (find_slot (is_bucket fd) (buckets rl) = None) as ->.
  { apply find_slot_None. intros j b Hj. destruct (Forall_lookup_1 _ _ _ _ Hall Hj) as [_ Hne].
    unfold is_bucket. rewrite (proj2 (Z.eqb_neq _ _)) by done. apply andb_false_r. }
  assert (find_slot (λ b, negb (rb_active b)) (buckets rl) = None) as ->; [|done].
  apply find_slot_None. intros j b Hj. destruct (Forall_lookup_1 _ _ _ _ Hall Hj) as [-> _]. done.
Qed.

(** Two events at the end of a window and two at the start of the next: with a
    limit of two all four pass within a minute. *)
Definition limiter_example : rate_limiter_t :=
  mk_rate_limiter (mk_rate_config 2 5)
    (mk_rate_bucket 54 0 0 41 true :: replicate 15 bucket_zero).
Definition limiter_ops : list rl_op :=
  [RlCheck 100 100 54 RATE_TYPE_EVENT; RlCheck 100 100 54 RATE_TYPE_EVENT;
   RlCheck 100 100 54 RATE_TYPE_EVENT; RlCheck 101 101 55 RATE_TYPE_REQ; RlReset 55;
   RlCheck 101 101 54 RATE_TYPE_EVENT; RlCheck 102 102 54 RATE_TYPE_EVENT;
   RlCheck 103 103 54 RATE_TYPE_EVENT].

Example limiter_twice : allowed_count 54 RATE_TYPE_EVENT limiter_example limiter_ops = 4.
Proof. vm_compute. reflexivity. Qed.

Lemma rate_limit_bound_witness :
  allowed_count 54 RATE_TYPE_EVENT limiter_example limiter_ops
    <= 2 * type_limit RATE_TYPE_EVENT (rl_config limiter_example) ∧
  (bucket_of 54 limiter_example = None →
   allowed_count 54 RATE_TYPE_EVENT limiter_example limiter_ops
     <= type_limit RATE_TYPE_EVENT (rl_config limiter_example)).
Proof.
  apply (rate_limit_bound 54 RATE_TYPE_EVENT 100); [lia|lia|simpl; lia|simpl; lia|].
  intros b Hb. vm_compute in Hb. injection Hb as <-. simpl. lia.
Defined.
