(* ===== verification/SubManager.v ===== *)
(** The relay's table of subscriptions (wisp_relay/sub_manager.c): 64 slots, at
    most eight per connection, each with up to four filters, and the matching
    of an event against them.  The mutex makes each call one step. *)

From S2P Require Import Prelude CStr.

Definition SUB_MAX_TOTAL : nat := 64.
Definition SUB_MAX_PER_CONN : nat := 8.
Definition SUB_MAX_FILTERS : nat := 4.
Definition SUB_MAX_ID_LEN : nat := 64.
(** The limits of the five lists of a filter are the same. *)
Definition SUB_MAX_FILTER_IDS : nat := 20.

Inductive sub_error_t :=
| SUB_OK | SUB_ERR_INVALID | SUB_ERR_TOO_MANY_FILTERS | SUB_ERR_MEMORY | SUB_ERR_NOT_FOUND.

(** The lists hold the entries below each count. *)
Record sub_filter_t := mk_sub_filter {
  sf_ids : list string;
  sf_authors : list string;
  sf_kinds : list Z;
  sf_e_tags : list string;
  sf_p_tags : list string;
  sf_since : Z;
  sf_until : Z;
  sf_limit : Z
}.

Record subscription_t := mk_subscription {
  sb_id : string;
  sb_conn_fd : Z;
  sb_filters : list sub_filter_t;
  sb_events_sent : Z;
  sb_active : bool
}.

Record sub_manager_t := mk_sub_manager {
  sm_subs : list subscription_t;
  sm_active_count : Z
}.

Definition subscription_zero : subscription_t := mk_subscription "" 0 [] 0 false.

Definition sub_manager_init : sub_manager_t :=
  mk_sub_manager (replicate SUB_MAX_TOTAL subscription_zero) 0.

(** * Operations *)

Definition is_sub (conn_fd : Z) (sub_id : string) (s : subscription_t) : bool :=
  sb_active s && (sb_conn_fd s =? conn_fd) && bool_decide (sb_id s = sub_id).

Definition find_sub (mgr : sub_manager_t) (conn_fd : Z) (sub_id : string) : option nat :=
  find_slot (is_sub conn_fd sub_id) (sm_subs mgr).

Definition is_conn (conn_fd : Z) (s : subscription_t) : bool :=
  sb_active s && (sb_conn_fd s =? conn_fd).

Definition sub_manager_count (conn_fd : Z) (mgr : sub_manager_t) : Z :=
  u8 (Z.of_nat (count_slots (is_conn conn_fd) (sm_subs mgr))).

Section add.
(** [strdup]: a copy of the string, or no memory. *)
Variable strdup : string → option string.

Definition filter_copy (src : sub_filter_t) : option sub_filter_t :=
  ids ← mapM strdup (take SUB_MAX_FILTER_IDS (sf_ids src));
  authors ← mapM strdup (take SUB_MAX_FILTER_IDS (sf_authors src));
  e_tags ← mapM strdup (take SUB_MAX_FILTER_IDS (sf_e_tags src));
  p_tags ← mapM strdup (take SUB_MAX_FILTER_IDS (sf_p_tags src));
  Some (mk_sub_filter ids authors (take SUB_MAX_FILTER_IDS (sf_kinds src)) e_tags p_tags
          (sf_since src) (sf_until src) (sf_limit src)).

(** Copy filter after filter: the copies made, and whether all were. *)
Fixpoint copy_filters (fs : list sub_filter_t) : list sub_filter_t * bool :=
  match fs with
  | [] => ([], true)
  | f :: fs' =>
      match filter_copy f with
      | None => ([], false)
      | Some c => let '(cs, ok) := copy_filters fs' in (c :: cs, ok)
      end
  end.

Definition sub_manager_add (conn_fd : Z) (sub_id : string) (filters : list sub_filter_t)
    (mgr : sub_manager_t) : sub_error_t * sub_manager_t :=
  let '(copies, ok) := copy_filters (take SUB_MAX_FILTERS filters) in
  match find_sub mgr conn_fd sub_id with
  | Some i =>
      (if ok then SUB_OK else SUB_ERR_MEMORY,
       mk_sub_manager
         (alter (λ s, mk_subscription (sb_id s) (sb_conn_fd s) copies 0 (sb_active s)) i
            (sm_subs mgr)) (sm_active_count mgr))
  | None =>
      if (Z.of_nat SUB_MAX_PER_CONN <=? sub_manager_count conn_fd mgr)
      then (SUB_ERR_TOO_MANY_FILTERS, mgr) else
      match find_slot (λ s, negb (sb_active s)) (sm_subs mgr) with
      | None => (SUB_ERR_MEMORY, mgr)
      | Some i =>
          if ok then
            (SUB_OK, mk_sub_manager
               (<[i := mk_subscription (strncpy SUB_MAX_ID_LEN sub_id) conn_fd copies 0 true]>
                  (sm_subs mgr)) (u16 (sm_active_count mgr + 1)))
          else
            (SUB_ERR_MEMORY, mk_sub_manager (<[i := subscription_zero]> (sm_subs mgr))
                               (sm_active_count mgr))
      end
  end.
End add.

Definition sub_manager_remove (conn_fd : Z) (sub_id : string) (mgr : sub_manager_t)
  : sub_error_t * sub_manager_t :=
  match find_sub mgr conn_fd sub_id with
  | None => (SUB_ERR_NOT_FOUND, mgr)
  | Some i => (SUB_OK, mk_sub_manager (<[i := subscription_zero]> (sm_subs mgr))
                         (u16 (sm_active_count mgr - 1)))
  end.

Definition sub_manager_remove_all (conn_fd : Z) (mgr : sub_manager_t) : sub_manager_t :=
  mk_sub_manager
    ((λ s, if is_conn conn_fd s then subscription_zero else s) <$> sm_subs mgr)
    (u16 (sm_active_count mgr - Z.of_nat (count_slots (is_conn conn_fd) (sm_subs mgr)))).

(** ** Matching *)

(** [hex_prefix_match] with the lengths of the two strings. *)
Definition hex_prefix_match (prefix full : string) : bool := has_prefix prefix full.

Definition filter_matches_event (event_kind : Z) (pubkey_hex : string) (created_at : Z)
    (f : sub_filter_t) : bool :=
  ((length (sf_kinds f) =? 0)%nat || existsb (Z.eqb event_kind) (sf_kinds f)) &&
  ((length (sf_authors f) =? 0)%nat ||
     existsb (λ a, hex_prefix_match a pubkey_hex) (sf_authors f)) &&
  negb ((0 <? sf_since f) && (i64 created_at <? sf_since f)) &&
  negb ((0 <? sf_until f) && (sf_until f <? i64 created_at)).

Definition sub_matches (event_kind : Z) (pubkey_hex : string) (created_at : Z)
    (s : subscription_t) : bool :=
  sb_active s && existsb (filter_matches_event event_kind pubkey_hex created_at) (sb_filters s).

(** The connections and identifiers the event goes to, in slot order. *)
Definition sub_manager_match_json (mgr : sub_manager_t) (event_kind : Z) (pubkey_hex : string)
    (created_at : Z) : list (Z * string) :=
  (λ s, (sb_conn_fd s, sb_id s)) <$>
    List.filter (sub_matches event_kind pubkey_hex created_at) (sm_subs mgr).

(** * Invariant *)

Definition filter_ok (f : sub_filter_t) : Prop :=
  (length (sf_ids f) ≤ SUB_MAX_FILTER_IDS ∧ length (sf_authors f) ≤ SUB_MAX_FILTER_IDS ∧
   length (sf_kinds f) ≤ SUB_MAX_FILTER_IDS ∧ length (sf_e_tags f) ≤ SUB_MAX_FILTER_IDS ∧
   length (sf_p_tags f) ≤ SUB_MAX_FILTER_IDS)%nat.

Definition sub_ok (s : subscription_t) : Prop :=
  (length (sb_filters s) ≤ SUB_MAX_FILTERS)%nat ∧ Forall filter_ok (sb_filters s) ∧
  (String.length (sb_id s) ≤ SUB_MAX_ID_LEN)%nat.

Definition sub_wf (m : sub_manager_t) : Prop :=
  length (sm_subs m) = SUB_MAX_TOTAL ∧
  sm_active_count m = Z.of_nat (count_slots sb_active (sm_subs m)) ∧
  (∀ fd, (count_slots (is_conn fd) (sm_subs m) ≤ SUB_MAX_PER_CONN)%nat) ∧
  Forall sub_ok (sm_subs m).

(** No two active slots with the same connection and identifier. *)
Definition sub_uniq (m : sub_manager_t) : Prop :=
  uniq_keys sb_active (λ s, (sb_conn_fd s, sb_id s)) (sm_subs m).

Lemma is_conn_spec fd s : is_conn fd s = true ↔ sb_active s = true ∧ sb_conn_fd s = fd.
Proof. unfold is_conn. by rewrite andb_true_iff, Z.eqb_eq. Qed.

Lemma is_sub_spec fd id s :
  is_sub fd id s = true ↔ sb_active s = true ∧ (sb_conn_fd s, sb_id s) = (fd, id).
Proof.
  unfold is_sub. rewrite !andb_true_iff, Z.eqb_eq, bool_decide_eq_true.
  split; [by intros [[? ->] ->]|by intros [? [= -> ->]]].
Qed.

Lemma count_slots_conn_le fd l : (count_slots (is_conn fd) l ≤ count_slots sb_active l)%nat.
Proof.
  unfold count_slots, is_conn. induction l as [|s l IH]; simpl; [lia|].
  destruct (sb_active s), (sb_conn_fd s =? fd); simpl; lia.
Qed.

Lemma sub_count_exact fd m :
  sub_wf m → sub_manager_count fd m = Z.of_nat (count_slots (is_conn fd) (sm_subs m)).
Proof.
  intros (_ & _ & Hc & _). unfold sub_manager_count. apply u8_small. unfold is_u8.
  pose proof (Hc fd). unfold SUB_MAX_PER_CONN in *. lia.
Qed.

Lemma active_count_u16 l :
  length l = SUB_MAX_TOTAL →
  u16 (Z.of_nat (count_slots sb_active l)) = Z.of_nat (count_slots sb_active l).
Proof.
  intros Hl. apply u16_small. pose proof (count_slots_le sb_active l).
  unfold is_u16, SUB_MAX_TOTAL in *. lia.
Qed.

Lemma mapM_length {A B} (f : A → option B) l k : mapM f l = Some k → length k = length l.
Proof. intros Hm%mapM_Some_1. symmetry. by apply Forall2_length in Hm. Qed.

Section lemmas.
Context (strdup : string → option string).

Lemma filter_copy_ok f c : filter_copy strdup f = Some c → filter_ok c.
Proof.
  unfold filter_copy. intros Hc. repeat (apply bind_Some in Hc as (? & ?%mapM_length & Hc)).
  injection Hc as <-. unfold filter_ok. cbn [sf_ids sf_authors sf_kinds sf_e_tags sf_p_tags].
  simpl_len. split_and!; lia.
Qed.

Lemma copy_filters_ok fs cs ok :
  copy_filters strdup fs = (cs, ok) →
  Forall filter_ok cs ∧ (length cs ≤ length fs)%nat.
Proof.
  revert cs ok. induction fs as [|f fs IH]; intros cs ok; simpl.
  - intros [= <- <-]. by split; [constructor|].
  - destruct (filter_copy strdup f) as [c|] eqn:Hc.
    + destruct (copy_filters strdup fs) as [cs' ok'] eqn:Hcs. intros [= <- <-].
      destruct (IH cs' ok' eq_refl) as [Hall Hle]. split; [|simpl; lia].
      constructor; [by eapply filter_copy_ok|done].
    + intros [= <- <-]. split; [constructor|simpl; lia].
Qed.

(** Filling a free slot, or freeing one. *)
Lemma sub_wf_insert m i x y n :
  sub_wf m → sm_subs m !! i = Some x → sub_ok y →
  (∀ fd, is_conn fd y = true → (count_slots (is_conn fd) (sm_subs m) < SUB_MAX_PER_CONN)%nat) →
  n = u16 (sm_active_count m + Z.b2z (sb_active y) - Z.b2z (sb_active x)) →
  sub_wf (mk_sub_manager (<[i := y]> (sm_subs m)) n).
Proof.
  intros (Hl & Ha & Hc & Hok) Hx Hy Hroom ->. unfold sub_wf. cbn [sm_subs sm_active_count].
  split_and!.
  - by rewrite length_insert.
  - pose proof (count_slots_insert sb_active _ i x y Hx) as Hcount.
    rewrite <- active_count_u16 by (by rewrite length_insert). f_equal. rewrite Ha.
    destruct (sb_active x), (sb_active y); cbn [Z.b2z Nat.b2n] in *; lia.
  - intros fd. pose proof (count_slots_insert (is_conn fd) _ i x y Hx) as Hcount.
    specialize (Hc fd). specialize (Hroom fd).
    destruct (is_conn fd x), (is_conn fd y); cbn [Nat.b2n] in *;
      try specialize (Hroom eq_refl); lia.
  - by apply Forall_insert.
Qed.

Lemma subscription_zero_ok : sub_ok subscription_zero.
Proof. split_and!; simpl; [lia|constructor|lia]. Qed.

Lemma sub_remove_wf fd id m : sub_wf m → sub_wf (sub_manager_remove fd id m).2.
Proof.
  intros Hwf. unfold sub_manager_remove. destruct (find_sub m fd id) as [i|] eqn:Hf; [|done].
  apply find_slot_Some in Hf as (x & Hx & [Ha _]%is_sub_spec & _). cbn [snd].
  apply (sub_wf_insert m i x); [done|done|apply subscription_zero_ok|done|].
  rewrite Ha. cbn [Z.b2z subscription_zero sb_active]. f_equal. lia.
Qed.

Lemma count_active_remove fd l :
  (count_slots sb_active ((λ s, if is_conn fd s then subscription_zero else s) <$> l)
   + count_slots (is_conn fd) l = count_slots sb_active l)%nat.
Proof.
  unfold count_slots. induction l as [|s l IH]; [done|]. rewrite fmap_cons. cbn [List.filter].
  destruct (is_conn fd s) eqn:Hc.
  - apply is_conn_spec in Hc as [-> _]. cbn [subscription_zero sb_active length]. lia.
  - destruct (sb_active s); cbn [length]; lia.
Qed.

Lemma count_conn_remove fd fd' l :
  (count_slots (is_conn fd') ((λ s, if is_conn fd s then subscription_zero else s) <$> l)
   ≤ count_slots (is_conn fd') l)%nat.
Proof.
  unfold count_slots. induction l as [|s l IH]; [done|]. rewrite fmap_cons. cbn [List.filter].
  destruct (is_conn fd s); [replace (is_conn fd' subscription_zero) with false by done|];
    destruct (is_conn fd' s); cbn [length]; lia.
Qed.

Lemma sub_remove_all_wf fd m : sub_wf m → sub_wf (sub_manager_remove_all fd m).
Proof.
  intros (Hl & Ha & Hc & Hok). unfold sub_wf, sub_manager_remove_all.
  cbn [sm_subs sm_active_count]. split_and!.
  - by rewrite length_fmap.
  - rewrite <- active_count_u16 by (by rewrite length_fmap). f_equal.
    pose proof (count_active_remove fd (sm_subs m)). lia.
  - intros fd'. etrans; [apply count_conn_remove|done].
  - apply Forall_fmap. eapply Forall_impl; [exact Hok|]. intros s Hs. simpl.
    destruct (is_conn fd s); [apply subscription_zero_ok|done].
Qed.

Lemma sub_add_wf fd id fs m : sub_wf m → sub_wf (sub_manager_add strdup fd id fs m).2.
Proof.
  intros Hwf. unfold sub_manager_add.
  destruct (copy_filters strdup (take SUB_MAX_FILTERS fs)) as [cs ok] eqn:Hcs.
  apply copy_filters_ok in Hcs as [Hcs Hlen]. rewrite length_take in Hlen.
  destruct (find_sub m fd id) as [i|] eqn:Hf.
  - cbn [snd]. apply find_slot_Some in Hf as (x & Hx & [Ha _]%is_sub_spec & _).
    destruct Hwf as (Hl & Hac & Hc & Hok). unfold sub_wf. cbn [sm_subs sm_active_count].
    split_and!.
    + by rewrite length_alter.
    + by rewrite count_slots_alter_same.
    + intros fd'. by rewrite count_slots_alter_same.
    + rewrite (alter_insert_Some _ _ _ _ Hx). apply Forall_insert; [done|].
      destruct (Forall_lookup_1 _ _ _ _ Hok Hx) as (_ & _ & Hid).
      split_and!; cbn; [lia|done|done].
  - destruct (_ <=? _) eqn:Hroom; bool_hyps; [done|].
    destruct (find_slot _ (sm_subs m)) as [i|] eqn:Hfree; [|done].
    apply find_slot_Some in Hfree as (x & Hx & Ha & _). bool_hyps.
    rewrite sub_count_exact in Hroom by done.
    destruct ok; cbn [snd].
    + apply (sub_wf_insert m i x); [done|done| | |].
      * split_and!; cbn; [lia|done|apply strncpy_length].
      * intros fd' [_ <-]%is_conn_spec. cbn. lia.
      * rewrite Ha. cbn [Z.b2z sb_active]. f_equal. lia.
    + apply (sub_wf_insert m i x); [done|done|apply subscription_zero_ok|done|].
      rewrite Ha. cbn [Z.b2z subscription_zero sb_active].
      destruct Hwf as (Hl & Hac & _). rewrite Hac, Z.add_0_r, Z.sub_0_r.
      by rewrite active_count_u16.
Qed.
End lemmas.

(** * Matching after a change *)

Section matching.
Context (kind : Z) (pk : string) (ca : Z).

Lemma match_elem m k :
  k ∈ sub_manager_match_json m kind pk ca ↔
  ∃ i s, sm_subs m !! i = Some s ∧ sub_matches kind pk ca s = true ∧ (sb_conn_fd s, sb_id s) = k.
Proof.
  unfold sub_manager_match_json. rewrite list_elem_of_fmap. split.
  - intros (s & -> & Hs%list_elem_of_In%filter_In). destruct Hs as [Hs Hm].
    apply list_elem_of_In, list_elem_of_lookup in Hs as [i Hi]. by exists i, s.
  - intros (i & s & Hi & Hm & <-). exists s. split; [done|].
    apply list_elem_of_In, filter_In. split; [|done].
    apply list_elem_of_In. by eapply list_elem_of_lookup_2.
Qed.

(** A slot that is free, or already holds the subscription [k], gets [y]. *)
Lemma match_insert m i x y n k :
  sub_uniq m → sm_subs m !! i = Some x →
  (sb_active x = true → (sb_conn_fd x, sb_id x) = k) →
  (sb_active x = false → ∀ j z, sm_subs m !! j = Some z → sb_active z = true →
     (sb_conn_fd z, sb_id z) ≠ k) →
  (sb_conn_fd y, sb_id y) = k ∨ sb_active y = false →
  let m' := mk_sub_manager (<[i := y]> (sm_subs m)) n in
  sub_uniq m' ∧
  ∀ k', k' ∈ sub_manager_match_json m' kind pk ca ↔
        if decide (k' = k) then sub_matches kind pk ca y = true
        else k' ∈ sub_manager_match_json m kind pk ca.
Proof.
  intros Hu Hx Hxk Hfree Hy m'. pose proof (lookup_lt_Some _ _ _ Hx) as Hlt.
  assert (∀ j z, sm_subs m !! j = Some z → sb_active z = true →
                 (sb_conn_fd z, sb_id z) = k → j = i) as Honly.
  { intros j z Hj Hz Hk. destruct (sb_active x) eqn:Ha.
    - apply (Hu j i z x); try done. rewrite Hk. by rewrite Hxk.
    - by destruct (Hfree eq_refl j z Hj Hz). }
  assert (∀ z, sub_matches kind pk ca z = true → sb_active z = true) as Hact
    by (intros z Hz; unfold sub_matches in Hz; by bool_hyps).
  split.
  - apply uniq_keys_insert; [done|]. intros j z Hj Hz Ha Hk.
    destruct Hy as [Hy|Hy]; [|congruence]. apply (Honly j z); congruence.
  - intros k'. rewrite match_elem. cbn [m' sm_subs]. case_decide as Hd.
    + subst k'. split.
      * intros (j & z & Hj & Hm & Hk).
        apply list_lookup_insert_Some in Hj as [(<- & <- & _)|[Hne Hj]]; [done|].
        destruct Hne. symmetry. apply (Honly j z); auto.
      * intros Hm. exists i, y. rewrite list_lookup_insert_eq by done. split_and!; try done.
        destruct Hy as [Hy|Hy]; [done|]. rewrite (Hact y Hm) in Hy. done.
    + rewrite match_elem. split; intros (j & z & Hj & Hm & Hk).
      * apply list_lookup_insert_Some in Hj as [(<- & <- & _)|[Hne Hj]].
        -- destruct Hy as [Hy|Hy]; [congruence|]. by rewrite (Hact y Hm) in Hy.
        -- by exists j, z.
      * exists j, z. rewrite list_lookup_insert_ne; [done|]. intros <-.
        rewrite Hx in Hj. injection Hj as <-. rewrite (Hxk (Hact _ Hm)) in Hk. congruence.
Qed.
End matching.

Lemma copy_filters_total strdup fs :
  (∀ s, strdup s = Some s) → Forall filter_ok fs → copy_filters strdup fs = (fs, true).
Proof.
  intros Hd Hall. assert (∀ l, (length l ≤ SUB_MAX_FILTER_IDS)%nat →
                               mapM strdup (take SUB_MAX_FILTER_IDS l) = Some l) as Hm.
  { intros l Hl. rewrite take_ge by done. apply mapM_Some_2.
    induction l as [|s l IH]; constructor; [apply Hd|]. apply IH. simpl in Hl. lia. }
  induction Hall as [|f fs (H1 & H2 & H3 & H4 & H5) Hall IH]; [done|].
  cbn [copy_filters]. unfold filter_copy. rewrite !Hm by done. cbn [mbind option_bind].
  rewrite take_ge by done. rewrite IH. by destruct f.
Qed.

Lemma find_sub_None m fd id :
  find_sub m fd id = None → ∀ j z, sm_subs m !! j = Some z → sb_active z = true →
  (sb_conn_fd z, sb_id z) ≠ (fd, id).
Proof.
  intros Hf j z Hj Hz Hk. pose proof (proj1 (find_slot_None _ _) Hf j z Hj) as Hn.
  by rewrite (proj2 (is_sub_spec fd id z)) in Hn.
Qed.

(** * Properties *)

Inductive sub_op :=
| SubAdd (fd : Z) (id : string) (fs : list sub_filter_t)
| SubRemove (fd : Z) (id : string)
| SubRemoveAll (fd : Z).

Definition sub_exec (strdup : string → option string) (m : sub_manager_t) (op : sub_op)
  : sub_manager_t :=
  match op with
  | SubAdd fd id fs => (sub_manager_add strdup fd id fs m).2
  | SubRemove fd id => (sub_manager_remove fd id m).2
  | SubRemoveAll fd => sub_manager_remove_all fd m
  end.

(** After any sequence of requests, memory failures included, the count of
    active subscriptions is exact, no connection has more than eight, and each
    keeps within four filters of twenty entries per list. *)
Theorem sub_table_invariant strdup ops :
  let m := foldl (sub_exec strdup) sub_manager_init ops in
  length (sm_subs m) = SUB_MAX_TOTAL ∧
  sm_active_count m = Z.of_nat (count_slots sb_active (sm_subs m)) ∧
  (∀ fd, sub_manager_count fd m = Z.of_nat (count_slots (is_conn fd) (sm_subs m)) ∧
         sub_manager_count fd m <= Z.of_nat SUB_MAX_PER_CONN) ∧
  Forall sub_ok (sm_subs m).
Proof.
  cbv zeta. assert (sub_wf (foldl (sub_exec strdup) sub_manager_init ops)) as Hwf.
  { induction ops as [|op ops IH] using rev_ind.
    - split_and!; [done|done| |].
      + intros fd. replace (count_slots _ _) with 0%nat by done. lia.
      + apply Forall_replicate, subscription_zero_ok.
    - rewrite foldl_app. cbn [foldl]. destruct op; cbn [sub_exec];
        auto using sub_add_wf, sub_remove_wf, sub_remove_all_wf. }
  set (m := foldl _ _ _) in *. pose proof Hwf as (Hl & Ha & Hc & Hok). split_and!; try done.
  intros fd. rewrite sub_count_exact by done. split; [done|]. specialize (Hc fd). lia.
Qed.

(** When memory lasts, a subscription with an identifier of at most 64
    characters is added or replaced, so that from then on exactly the events
    that match one of its first four filters go to it, and every other
    subscription gets what it got before; it is refused, and nothing changes,
    only when the connection has eight or all 64 slots are taken. *)
Theorem sub_add_outcome strdup fd id fs m :
  (∀ s, strdup s = Some s) → sub_wf m → sub_uniq m →
  (String.length id ≤ SUB_MAX_ID_LEN)%nat → Forall filter_ok fs →
  match sub_manager_add strdup fd id fs m with
  | (SUB_OK, m') =>
      sub_uniq m' ∧ ∀ kind pk ca k,
        k ∈ sub_manager_match_json m' kind pk ca ↔
        if decide (k = (fd, id))
        then existsb (filter_matches_event kind pk ca) (take SUB_MAX_FILTERS fs) = true
        else k ∈ sub_manager_match_json m kind pk ca
  | (err, m') =>
      m' = m ∧ find_sub m fd id = None ∧
      (err = SUB_ERR_TOO_MANY_FILTERS ∧ sub_manager_count fd m = Z.of_nat SUB_MAX_PER_CONN ∨
       err = SUB_ERR_MEMORY ∧ sm_active_count m = Z.of_nat SUB_MAX_TOTAL)
  end.
Proof.
  intros Hd Hwf Hu Hid Hfs. unfold sub_manager_add.
  rewrite copy_filters_total by (done || by apply Forall_take).
  destruct (find_sub m fd id) as [i|] eqn:Hf.
  - destruct (find_slot_Some _ _ _ Hf) as (x & Hx & [Ha Hk]%is_sub_spec & _).
    rewrite (alter_insert_Some _ _ _ _ Hx).
    set (y := mk_subscription _ _ _ _ _).
    pose proof (λ kind pk ca, match_insert kind pk ca m i x y (sm_active_count m) (fd, id) Hu Hx
      (λ _, Hk) ltac:(congruence) (or_introl Hk)) as Hins.
    split; [apply (Hins 0 ""%string 0)|]. intros kind pk ca k. rewrite (proj2 (Hins _ _ _)).
    case_decide; [|done]. unfold y, sub_matches. cbn. by rewrite Ha.
  - destruct (_ <=? _) eqn:Hroom; bool_hyps.
    + split_and!; [done|done|]. left. split; [done|]. rewrite sub_count_exact in * by done.
      destruct Hwf as (_ & _ & Hc & _). specialize (Hc fd). lia.
    + destruct (find_slot _ (sm_subs m)) as [i|] eqn:Hfree.
      * apply find_slot_Some in Hfree as (x & Hx & Ha & _). bool_hyps.
        rewrite strncpy_short by done. set (y := mk_subscription _ _ _ _ _).
        pose proof (λ kind pk ca, match_insert kind pk ca m i x y (u16 (sm_active_count m + 1))
          (fd, id) Hu Hx ltac:(congruence) (λ _, find_sub_None m fd id Hf)
          (or_introl eq_refl)) as Hins.
        split; [apply (Hins 0 ""%string 0)|]. intros kind pk ca k.
        by rewrite (proj2 (Hins _ _ _)).
      * split_and!; [done|done|]. right. split; [done|]. destruct Hwf as (Hl & -> & _).
        rewrite count_slots_all; [by rewrite Hl|]. intros j z Hj.
        pose proof (proj1 (find_slot_None _ _) Hfree j z Hj) as Hz. by apply negb_false_iff in Hz.
Qed.

(** An identifier of more than 64 characters is stored cut off and so never
    found again: asking anew takes a second slot, closing finds nothing. *)
Definition id_65 : string := Eval vm_compute in Nat.iter 65 (String "a"%char) ""%string.
Theorem long_subscription_id_duplicates :
  let m1 := (sub_manager_add Some 54 id_65 [] sub_manager_init).2 in
  let m2 := (sub_manager_add Some 54 id_65 [] m1).2 in
  sub_manager_count 54 m2 = 2 ∧ sub_manager_remove 54 id_65 m2 = (SUB_ERR_NOT_FOUND, m2).
Proof. vm_compute. split; reflexivity. Qed.

(** A filter by identifiers alone matches every event. *)
Theorem ids_filter_matches_all ids e p limit kind pk ca :
  filter_matches_event kind pk ca (mk_sub_filter ids [] [] e p 0 0 limit) = true.
Proof. reflexivity. Qed.

Definition filter_kind_1 : sub_filter_t := mk_sub_filter [] [] [1] [] [] 0 0 0.

Lemma sub_add_outcome_witness :
  sub_manager_add Some 54 "s" [filter_kind_1] sub_manager_init =
    (SUB_OK, (sub_manager_add Some 54 "s" [filter_kind_1] sub_manager_init).2) ∧
  sub_uniq (sub_manager_add Some 54 "s" [filter_kind_1] sub_manager_init).2 ∧
  ((54, "s"%string) ∈
     sub_manager_match_json (sub_manager_add Some 54 "s" [filter_kind_1] sub_manager_init).2 1 "" 7 ↔
   existsb (filter_matches_event 1 "" 7) (take SUB_MAX_FILTERS [filter_kind_1]) = true).
Proof.
  split; [reflexivity|].
  assert (sub_wf sub_manager_init) as Hwf.
  { split_and!; [reflexivity|reflexivity| |apply Forall_replicate, subscription_zero_ok].
    intros fd. replace (count_slots _ _) with 0%nat by reflexivity. lia. }
  assert (sub_uniq sub_manager_init) as Hu by (by apply uniq_keys_replicate).
  assert (Forall filter_ok [filter_kind_1]) as Hfs.
  { constructor; [|constructor]. unfold filter_ok, SUB_MAX_FILTER_IDS. simpl. lia. }
  pose proof (sub_add_outcome Some 54 "s" [filter_kind_1] sub_manager_init
                (λ _, eq_refl) Hwf Hu ltac:(unfold SUB_MAX_ID_LEN; simpl; lia) Hfs) as [Hu' Hm].
  split; [exact Hu'|]. exact (Hm 1 ""%string 7 (54, "s"%string)).
Defined.
