(* ===== verification/Storage.v ===== *)
(** The relay's event store (wisp_relay/storage_engine.c with the hexadecimal
    helpers of relay_types.c): the index of events in memory, their files, the
    copy of the index in flash, queries, deletion, expiry and compaction.
    The mutex makes each call one step; [now] is [time(NULL)] as a [uint32_t]. *)

From S2P Require Import Prelude CStr.
From stdpp Require Import gmap.
#[local] Open Scope Z_scope.

(** * Hexadecimal *)

(** The contents of [out] afterwards, and whether 0 is returned. *)
Definition relay_hex_to_bytes (hex : string) (hex_len : nat) (out : list Z) : list Z * bool :=
  if negb (hex_len =? length out * 2)%nat then (out, false) else
  let '(l, ok) := hex_to_bytes_loop (length out) hex in
  (l ++ drop (length l) out, ok).

Definition relay_bytes_to_hex (bytes : list Z) : string := hex_bytes bytes.

(** * State *)

Definition STORAGE_MAX_EVENT_SIZE : nat := Z.to_nat 8192.
Definition STORAGE_INDEX_ENTRIES : nat := Z.to_nat 5000.
Definition STORAGE_FLAG_DELETED : Z := 1.

Inductive storage_error_t :=
| STORAGE_OK | STORAGE_ERR_NOT_INITIALIZED | STORAGE_ERR_FULL | STORAGE_ERR_DUPLICATE
| STORAGE_ERR_NOT_FOUND | STORAGE_ERR_IO.

Record storage_index_entry_t := mk_index_entry {
  ie_event_id : list Z;
  ie_created_at : Z;
  ie_expires_at : Z;
  ie_file_index : Z;
  ie_kind : Z;
  ie_pubkey_prefix : list Z;
  ie_flags : Z
}.

Definition index_entry_zero : storage_index_entry_t :=
  mk_index_entry (replicate 32 0) 0 0 0 0 (replicate 4 0) 0.

(** The flash copy: the two counters and the chunks [idx_<n>] of the index. *)
Record nvs_index := mk_nvs_index {
  nv_count : option nat;
  nv_next_idx : option Z;
  nv_chunks : gmap nat (list storage_index_entry_t)
}.

Record storage_engine_t := mk_storage {
  st_index : list storage_index_entry_t;
  st_count : nat;
  st_next_file_index : Z;
  st_initialized : bool;
  st_ttl : Z;
  st_files : gmap string string;
  st_nvs : nvs_index
}.

Definition with_index (e : storage_engine_t) (l : list storage_index_entry_t) (n : nat)
  : storage_engine_t :=
  mk_storage l n (st_next_file_index e) (st_initialized e) (st_ttl e) (st_files e) (st_nvs e).
Definition with_files (e : storage_engine_t) (f : gmap string string) : storage_engine_t :=
  mk_storage (st_index e) (st_count e) (st_next_file_index e) (st_initialized e) (st_ttl e) f
    (st_nvs e).
Definition with_nvs (e : storage_engine_t) (n : nvs_index) : storage_engine_t :=
  mk_storage (st_index e) (st_count e) (st_next_file_index e) (st_initialized e) (st_ttl e)
    (st_files e) n.

Definition deleted (x : storage_index_entry_t) : bool :=
  negb (Z.land (ie_flags x) STORAGE_FLAG_DELETED =? 0).

Definition set_deleted (x : storage_index_entry_t) : storage_index_entry_t :=
  mk_index_entry (ie_event_id x) (ie_created_at x) (ie_expires_at x) (ie_file_index x) (ie_kind x)
    (ie_pubkey_prefix x) (Z.lor (ie_flags x) STORAGE_FLAG_DELETED).

Definition expired (now : Z) (x : storage_index_entry_t) : bool :=
  (0 <? ie_expires_at x) && (ie_expires_at x <? now).

(** * The index in flash *)

Definition chunk_size : nat := 50.

(** The chunks [i = 0, chunk_size, ...] below [n], by number. *)
Definition chunk_numbers (n : nat) : list nat := seq 0 ((n + chunk_size - 1) / chunk_size).

Definition chunk (n : nat) (l : list storage_index_entry_t) (k : nat)
  : list storage_index_entry_t :=
  take (Nat.min chunk_size (n - chunk_size * k)) (drop (chunk_size * k) l).

Definition get_event_path (event_id : list Z) (file_index : Z) : string :=
  ("/littlefs/events/" +:+ hex2 (default 0 (event_id !! 0%nat)) +:+ "/"
   +:+ hex_bytes (take 16 event_id) +:+ "_" +:+ hex8 file_index +:+ ".json")%string.

Section storage.
(** Whether flash and the file system accept a write. *)
Variable nvs_open_ok : bool.
Variable fopen_ok : string → bool.

Definition save_index_to_nvs (e : storage_engine_t) : storage_engine_t :=
  if nvs_open_ok then
    with_nvs e (mk_nvs_index (Some (st_count e)) (Some (st_next_file_index e))
      (foldl (λ m k, <[k := chunk (st_count e) (st_index e) k]> m) (nv_chunks (st_nvs e))
         (chunk_numbers (st_count e))))
  else e.

(** [nvs_get_blob] of one chunk: a longer blob than asked for is an error. *)
Definition load_chunk (nvs : nvs_index) (n : nat) (l : list storage_index_entry_t) (k : nat)
  : list storage_index_entry_t :=
  match nv_chunks nvs !! k with
  | Some blob =>
      if (length blob <=? Nat.min chunk_size (n - chunk_size * k))%nat
      then take (chunk_size * k) l ++ blob ++ drop (chunk_size * k + length blob) l
      else l
  | None => l
  end.

(** [None]: an error; a namespace that does not exist yet is none. *)
Definition load_index_from_nvs (e : storage_engine_t) : option storage_engine_t :=
  let nvs := st_nvs e in
  if negb nvs_open_ok then None else
  if bool_decide (nv_count nvs = None) then Some e else
  c ← nv_count nvs;
  let n := Nat.min c (length (st_index e)) in
  next ← nv_next_idx nvs;
  Some (mk_storage (foldl (load_chunk nvs n) (st_index e) (chunk_numbers n)) n next
          (st_initialized e) (st_ttl e) (st_files e) nvs).

(** Start-up with [max_index_entries] allocated; files and flash are as before. *)
Definition storage_init (max_index_entries : nat) (ttl : Z) (files : gmap string string)
    (nvs : nvs_index) : storage_engine_t :=
  let e := mk_storage (replicate max_index_entries index_entry_zero) 0 0 false ttl files nvs in
  let e1 := match load_index_from_nvs e with
            | Some e' => e'
            | None => e
            end in
  mk_storage (st_index e1) (st_count e1) (st_next_file_index e1) true ttl files nvs.

Definition storage_destroy (e : storage_engine_t) : storage_engine_t :=
  if negb (st_initialized e) then e else
  let e1 := save_index_to_nvs e in
  mk_storage [] (st_count e1) (st_next_file_index e1) false (st_ttl e1) (st_files e1) (st_nvs e1).

(** * Events *)

(** What follows the first occurrence of [key] in the text. *)
Definition after_key (key json : string) : option string :=
  (λ i, str_drop (i + String.length key) json) <$> strstr key json.

Definition q (s : string) : string := String (chr 34) (s +:+ String (chr 34) "").
Definition key_id : string := (q "id" +:+ ":" +:+ String (chr 34) "")%string.
Definition key_pubkey : string := (q "pubkey" +:+ ":" +:+ String (chr 34) "")%string.
Definition key_created_at : string := (q "created_at" +:+ ":")%string.
Definition key_kind : string := (q "kind" +:+ ":")%string.

(** Identifier, public key, time and kind, from zeroed buffers. *)
Definition parse_event_meta (json : string) : list Z * list Z * Z * Z :=
  let zero := replicate 32 0 in
  (match after_key key_id json with
   | Some p => (relay_hex_to_bytes p 64 zero).1 | None => zero end,
   match after_key key_pubkey json with
   | Some p => (relay_hex_to_bytes p 64 zero).1 | None => zero end,
   match after_key key_created_at json with Some p => strtoull10 p | None => 0 end,
   match after_key key_kind json with Some p => atoi p | None => 0 end).

(** The index of the undeleted entry for [event_id]. *)
Definition is_entry (event_id : list Z) (x : storage_index_entry_t) : bool :=
  bool_decide (ie_event_id x = event_id) && negb (deleted x).

Definition find_index_entry (e : storage_engine_t) (event_id : list Z) : option nat :=
  find_slot (is_entry event_id) (take (st_count e) (st_index e)).

Definition storage_save_event_json (now : Z) (event_json : string) (e : storage_engine_t)
  : storage_error_t * storage_engine_t :=
  if negb (st_initialized e) then (STORAGE_ERR_NOT_INITIALIZED, e) else
  let '(id, pubkey, created_at, kind) := parse_event_meta event_json in
  if bool_decide (is_Some (find_index_entry e id)) then (STORAGE_ERR_DUPLICATE, e) else
  if (length (st_index e) <=? st_count e)%nat then (STORAGE_ERR_FULL, e) else
  let path := get_event_path id (st_next_file_index e) in
  if negb (fopen_ok path) then (STORAGE_ERR_IO, e) else
  let entry := mk_index_entry id (u32 created_at) (u32 (now + st_ttl e)) (st_next_file_index e)
                 (u16 kind) (take 4 pubkey) 0 in
  let e1 := mk_storage (<[st_count e := entry]> (st_index e)) (S (st_count e))
              (u32 (st_next_file_index e + 1)) (st_initialized e) (st_ttl e)
              (<[path := event_json]> (st_files e)) (st_nvs e) in
  (STORAGE_OK, if (st_count e1 mod 10 =? 0)%nat then save_index_to_nvs e1 else e1).

Definition storage_event_exists (event_id : list Z) (e : storage_engine_t) : bool :=
  st_initialized e && bool_decide (is_Some (find_index_entry e event_id)).

(** ** Queries *)

(** The four bytes of the author compared, if the query names one. *)
Definition author_prefix (author_hex : option string) : option (list Z) :=
  match author_hex with
  | Some a =>
      if (8 <=? String.length a)%nat then Some (relay_hex_to_bytes a 8 (replicate 4 0)).1
      else None
  | None => None
  end.

(** The checks of one entry against the query. *)
Definition entry_selected (now kind : Z) (author : option (list Z)) (x : storage_index_entry_t)
  : bool :=
  negb (deleted x) && negb (expired now x)
  && negb ((0 <? kind) && negb (ie_kind x =? kind))
  && match author with Some a => bool_decide (ie_pubkey_prefix x = a) | None => true end.

(** The text of a selected entry; [None] when its file cannot be used. *)
Definition read_event (e : storage_engine_t) (x : storage_index_entry_t) : option string :=
  buf ← st_files e !! get_event_path (ie_event_id x) (ie_file_index x);
  if ((String.length buf =? 0) || (STORAGE_MAX_EVENT_SIZE <? String.length buf))%nat
  then None else Some buf.

(** The loop over the entries from the last to the first. *)
Fixpoint query_loop (e : storage_engine_t) (now kind : Z) (author : option (list Z)) (limit : nat)
    (l : list storage_index_entry_t) : list string :=
  match limit, l with
  | O, _ | _, [] => []
  | S limit', x :: l' =>
      if entry_selected now kind author x then
        match read_event e x with
        | Some buf => buf :: query_loop e now kind author limit' l'
        | None => query_loop e now kind author limit l'
        end
      else query_loop e now kind author limit l'
  end.

Definition query_limit (limit : Z) : nat :=
  Z.to_nat (let limit := if 500 <? limit then 500 else limit in
            if limit <=? 0 then 100 else limit).

Definition storage_query_events_json (now kind : Z) (author_hex : option string) (limit : Z)
    (e : storage_engine_t) : option (list string) :=
  if negb (st_initialized e) then None
  else Some (query_loop e now kind (author_prefix author_hex) (query_limit limit)
               (rev (take (st_count e) (st_index e)))).

(** ** Deletion, expiry, compaction *)

(** Remove an entry's file and mark it deleted. *)
Definition drop_entry (i : nat) (x : storage_index_entry_t) (e : storage_engine_t)
  : storage_engine_t :=
  with_index
    (with_files e (delete (get_event_path (ie_event_id x) (ie_file_index x)) (st_files e)))
    (<[i := set_deleted x]> (st_index e)) (st_count e).

Definition storage_delete_event (event_id : list Z) (e : storage_engine_t)
  : storage_error_t * storage_engine_t :=
  if negb (st_initialized e) then (STORAGE_ERR_NOT_INITIALIZED, e) else
  match find_index_entry e event_id ≫= λ i, (λ x, (i, x)) <$> st_index e !! i with
  | None => (STORAGE_ERR_NOT_FOUND, e)
  | Some (i, x) => (STORAGE_OK, save_index_to_nvs (drop_entry i x e))
  end.

(** The loop of [storage_purge_expired]: [todo] entries from [i] on. *)
Fixpoint purge_loop (now : Z) (todo i : nat) (e : storage_engine_t) : nat * storage_engine_t :=
  match todo with
  | O => (O, e)
  | S todo' =>
      match st_index e !! i with
      | None => (O, e)
      | Some x =>
          if negb (deleted x) && expired now x then
            let '(n, e') := purge_loop now todo' (S i) (drop_entry i x e) in (S n, e')
          else purge_loop now todo' (S i) e
      end
  end.

Definition storage_purge_expired (now : Z) (e : storage_engine_t) : nat * storage_engine_t :=
  if negb (st_initialized e) then (O, e) else
  let '(purged, e1) := purge_loop now (st_count e) 0 e in
  (purged, if (0 <? purged)%nat then save_index_to_nvs e1 else e1).

(** The loop of [storage_compact_index], in place: the index and [write_idx]. *)
Fixpoint compact_loop (todo read_idx write_idx : nat) (l : list storage_index_entry_t)
  : list storage_index_entry_t * nat :=
  match todo with
  | O => (l, write_idx)
  | S todo' =>
      match l !! read_idx with
      | None => (l, write_idx)
      | Some x =>
          if negb (deleted x) then
            compact_loop todo' (S read_idx) (S write_idx)
              (if (write_idx =? read_idx)%nat then l else <[write_idx := x]> l)
          else compact_loop todo' (S read_idx) write_idx l
      end
  end.

Definition storage_compact_index (e : storage_engine_t) : nat * storage_engine_t :=
  if negb (st_initialized e) then (O, e) else
  let '(l, w) := compact_loop (st_count e) 0 0 (st_index e) in
  let compacted := (st_count e - w)%nat in
  (compacted, if (0 <? compacted)%nat then save_index_to_nvs (with_index e l w)
              else with_index e l (st_count e)).

Definition storage_total_events (now : Z) (e : storage_engine_t) : nat :=
  if negb (st_initialized e) then O
  else count_slots (λ x, negb (deleted x) && negb (expired now x)) (take (st_count e) (st_index e)).

End storage.

#[global] Arguments save_index_to_nvs : simpl never.

(** * The undeleted entries *)

Definition live (e : storage_engine_t) : list storage_index_entry_t :=
  List.filter (λ x, negb (deleted x)) (take (st_count e) (st_index e)).

(** The file of an entry. *)
Definition entry_path (x : storage_index_entry_t) : string :=
  get_event_path (ie_event_id x) (ie_file_index x).

(** What the store holds: identifiers with the texts, oldest first. *)
Definition events (e : storage_engine_t) : list (list Z * option string) :=
  (λ x, (ie_event_id x, st_files e !! entry_path x)) <$> live e.

Record storage_inv (e : storage_engine_t) : Prop := {
  inv_initialized : st_initialized e = true;
  inv_count : (st_count e ≤ length (st_index e))%nat;
  inv_next : is_u32 (st_next_file_index e);
  inv_entries : Forall (λ x, length (ie_event_id x) = 32%nat ∧
                             0 <= ie_file_index x < st_next_file_index e) (live e);
  inv_ids : NoDup (ie_event_id <$> live e);
  inv_files : NoDup (ie_file_index <$> live e)
}.

Lemma deleted_set x : deleted (set_deleted x) = true.
Proof.
  unfold deleted, set_deleted, STORAGE_FLAG_DELETED. cbn [ie_flags].
  apply negb_true_iff, Z.eqb_neq. intros Hz. apply (f_equal (λ z, Z.testbit z 0)) in Hz.
  rewrite Z.land_spec, Z.lor_spec in Hz. cbn in Hz. by rewrite orb_true_r in Hz.
Qed.

Lemma filter_app_list {A} (p : A → bool) l k :
  List.filter p (l ++ k) = List.filter p l ++ List.filter p k.
Proof. apply List.filter_app. Qed.

(** The live entries around slot [i]. *)
Lemma live_split e i x :
  (i < st_count e)%nat → st_index e !! i = Some x →
  live e = List.filter (λ x, negb (deleted x)) (take i (st_index e))
           ++ List.filter (λ x, negb (deleted x)) [x]
           ++ List.filter (λ x, negb (deleted x)) (take (st_count e - S i) (drop (S i) (st_index e))).
Proof.
  intros Hi Hx. unfold live.
  rewrite <- (take_drop i (take (st_count e) (st_index e))) at 1.
  rewrite take_take, Nat.min_l by lia.
  rewrite (drop_S _ x) by (by rewrite lookup_take_lt).
  rewrite skipn_firstn_comm. rewrite !filter_app_list. f_equal.
  change (x :: ?l) with ([x] ++ l). by rewrite filter_app_list.
Qed.

Lemma live_elem e x :
  x ∈ live e ↔ ∃ i, (i < st_count e)%nat ∧ st_index e !! i = Some x ∧ deleted x = false.
Proof.
  unfold live. rewrite list_elem_of_In, filter_In, <- list_elem_of_In, list_elem_of_lookup,
    negb_true_iff.
  split.
  - intros [[i Hi] Hd]. apply lookup_take_Some in Hi as [Hi Hlt]. eauto.
  - intros (i & Hlt & Hi & Hd). split; [|done]. exists i. by apply lookup_take_Some.
Qed.

Lemma find_index_entry_Some e id i :
  find_index_entry e id = Some i →
  ∃ x, (i < st_count e)%nat ∧ st_index e !! i = Some x ∧ ie_event_id x = id ∧ deleted x = false.
Proof.
  intros (x & Hlt & Hx & Hp)%find_slot_take_Some. exists x. unfold is_entry in Hp. bool_hyps.
  split_and!; try done. by apply bool_decide_eq_true in H.
Qed.

Lemma find_entry_spec e id :
  is_Some (find_index_entry e id) ↔ id ∈ ie_event_id <$> live e.
Proof.
  rewrite list_elem_of_fmap. split.
  - intros [i (x & Hlt & Hx & <- & Hd)%find_index_entry_Some]. exists x. split; [done|].
    apply live_elem. eauto.
  - intros (x & -> & (i & Hlt & Hx & Hd)%live_elem).
    destruct (find_slot_is_Some (is_entry (ie_event_id x)) (take (st_count e) (st_index e)) i x)
      as (j & Hj & _); [by apply lookup_take_Some| |by exists j].
    unfold is_entry. by rewrite bool_decide_true, Hd.
Qed.

(** Saving the index to flash changes neither entries nor files. *)
Lemma save_index_same ok e :
  let e' := save_index_to_nvs ok e in
  live e' = live e ∧ events e' = events e ∧ st_files e' = st_files e ∧
  st_index e' = st_index e ∧ st_count e' = st_count e ∧
  st_initialized e' = st_initialized e ∧ st_next_file_index e' = st_next_file_index e.
Proof. unfold save_index_to_nvs. by destruct ok. Qed.

Lemma save_index_inv ok e : storage_inv e → storage_inv (save_index_to_nvs ok e).
Proof. intros []. unfold save_index_to_nvs. destruct ok; by constructor. Qed.

(** Files of different numbers have different paths. *)
Lemma event_path_inj id1 f1 id2 f2 :
  length id1 = 32%nat → length id2 = 32%nat → is_u32 f1 → is_u32 f2 →
  get_event_path id1 f1 = get_event_path id2 f2 → f1 = f2.
Proof.
  intros Hl1 Hl2 Hf1 Hf2 Heq. unfold get_event_path in Heq.
  apply str_append_inj in Heq as [_ Heq]; [|done].
  apply str_append_inj in Heq as [_ Heq]; [|done].
  apply str_append_inj in Heq as [_ Heq]; [|done].
  apply str_append_inj in Heq as [_ Heq];
    [|rewrite !length_hex_bytes, !length_take, Hl1, Hl2; done].
  apply str_append_inj in Heq as [_ Heq]; [|done].
  apply str_append_inj in Heq as [Heq _]; [|by rewrite !length_hex8].
  by apply hex8_inj.
Qed.

(** ** Adding and dropping entries *)

Definition other_id (id : list Z) (x : storage_index_entry_t) : bool :=
  negb (bool_decide (ie_event_id x = id)).

Lemma filter_other_id id l :
  id ∉ ie_event_id <$> l → List.filter (other_id id) l = l.
Proof.
  induction l as [|x l IH]; [done|]. rewrite fmap_cons. intros [Hx Hl]%not_elem_of_cons.
  cbn [List.filter]. unfold other_id at 1. rewrite bool_decide_false by congruence.
  cbn [negb]. by rewrite IH.
Qed.

Lemma filter_drop_one {A} (p : A → bool) l i x y :
  l !! i = Some x → p y = false →
  List.filter p (<[i := y]> l) = List.filter p (take i l) ++ List.filter p (drop (S i) l).
Proof.
  intros Hi Hp. rewrite insert_take_drop by (by eapply lookup_lt_Some).
  rewrite filter_app_list. cbn [List.filter]. by rewrite Hp.
Qed.

Lemma live_drop_entry e i x :
  storage_inv e → (i < st_count e)%nat → st_index e !! i = Some x → deleted x = false →
  live (drop_entry i x e) = List.filter (other_id (ie_event_id x)) (live e).
Proof.
  intros [_ _ _ _ Hids _] Hi Hx Hd. rewrite (live_split e i x Hi Hx) in Hids |- *.
  unfold live, drop_entry. cbn [with_index with_files st_index st_count].
  rewrite take_insert, decide_True by done.
  rewrite (filter_drop_one _ _ _ x); [|by rewrite lookup_take_lt|by rewrite deleted_set].
  rewrite take_take, Nat.min_l, skipn_firstn_comm by lia.
  cbn [List.filter] in Hids |- *. rewrite Hd in Hids |- *. cbn [negb] in Hids |- *.
  rewrite fmap_app in Hids. change ([x] ++ ?l) with (x :: l) in *.
  rewrite fmap_cons in Hids. apply NoDup_app in Hids as (_ & Hdis & Hnd).
  apply NoDup_cons in Hnd as [Hnin _].
  rewrite filter_app_list. cbn [List.filter]. unfold other_id at 2.
  rewrite bool_decide_true by done. cbn [negb].
  rewrite !filter_other_id; [done|done|].
  intros Hin. apply (Hdis _ Hin). by apply list_elem_of_here.
Qed.

Lemma entries_path_ne e x y :
  storage_inv e → x ∈ live e → y ∈ live e → ie_event_id y ≠ ie_event_id x →
  entry_path y ≠ entry_path x.
Proof.
  intros [_ _ Hn Hall _ Hf] Hx Hy Hne Hp.
  destruct (proj1 (Forall_forall _ _) Hall x Hx) as [Hlx Hfx].
  destruct (proj1 (Forall_forall _ _) Hall y Hy) as [Hly Hfy].
  unfold is_u32 in Hn.
  apply event_path_inj in Hp; [|done|done|unfold is_u32; lia|unfold is_u32; lia].
  apply list_elem_of_lookup in Hx as [i Hi]. apply list_elem_of_lookup in Hy as [j Hj].
  assert (i = j) as ->; [|congruence].
  eapply NoDup_lookup; [exact Hf| |]; rewrite list_lookup_fmap; [by rewrite Hi|rewrite Hj].
  simpl. by rewrite Hp.
Qed.

Lemma sublist_NoDup_filter {A B} (f : A → B) (p : A → bool) l :
  NoDup (f <$> l) → NoDup (f <$> List.filter p l).
Proof.
  induction l as [|x l IH]; [done|]. rewrite fmap_cons. intros [Hx Hl]%NoDup_cons.
  cbn [List.filter]. destruct (p x); [|by apply IH]. rewrite fmap_cons.
  apply NoDup_cons. split; [|by apply IH]. intros Hin. apply Hx.
  apply list_elem_of_fmap in Hin as (y & -> & Hy%list_elem_of_In%filter_In).
  apply list_elem_of_fmap. exists y. split; [done|]. apply list_elem_of_In, Hy.
Qed.

Lemma drop_entry_inv e i x :
  storage_inv e → (i < st_count e)%nat → st_index e !! i = Some x → deleted x = false →
  storage_inv (drop_entry i x e).
Proof.
  intros Hinv Hi Hx Hd. pose proof (live_drop_entry e i x Hinv Hi Hx Hd) as Hl.
  destruct Hinv as [H1 H2 H3 H4 H5 H6]. constructor; rewrite ?Hl; try done.
  - simpl. by rewrite length_insert.
  - apply Forall_forall. intros y [Hy _]%list_elem_of_In%filter_In.
    apply list_elem_of_In in Hy. by apply (proj1 (Forall_forall _ _) H4).
  - by apply sublist_NoDup_filter.
  - by apply sublist_NoDup_filter.
Qed.

Lemma filter_fmap_list {A B} (f : A → B) (p : B → bool) l :
  List.filter p (f <$> l) = f <$> List.filter (λ x, p (f x)) l.
Proof.
  induction l as [|x l IH]; [done|]. rewrite fmap_cons. cbn [List.filter].
  destruct (p (f x)); [by rewrite fmap_cons, IH|done].
Qed.

Lemma filter_ext_list {A} (p q : A → bool) l :
  (∀ x, x ∈ l → p x = q x) → List.filter p l = List.filter q l.
Proof.
  intros Hpq. apply filter_ext_in. intros x Hx. apply Hpq. by apply list_elem_of_In.
Qed.

Lemma events_drop_entry e i x :
  storage_inv e → (i < st_count e)%nat → st_index e !! i = Some x → deleted x = false →
  events (drop_entry i x e) =
    List.filter (λ p, negb (bool_decide (p.1 = ie_event_id x))) (events e).
Proof.
  intros Hinv Hi Hx Hd. unfold events. rewrite live_drop_entry, filter_fmap_list by done.
  cbn [drop_entry with_index with_files st_files fst].
  apply list_fmap_ext. intros k y Hk. f_equal.
  apply list_elem_of_lookup_2, list_elem_of_In, filter_In in Hk as [Hk Hne].
  apply list_elem_of_In in Hk. unfold other_id in Hne. bool_hyps.
  apply lookup_delete_ne. change (entry_path x ≠ entry_path y).
  assert (ie_event_id y ≠ ie_event_id x) as Hne'
    by (intros Heq; by rewrite bool_decide_true in Hne).
  intros Heq. eapply (entries_path_ne e x y); [done| |done|done|done].
  apply live_elem. eauto.
Qed.

(** A new entry at the end. *)
Lemma save_entry_live e entry next init ttl files nvs :
  (st_count e < length (st_index e))%nat → deleted entry = false →
  live (mk_storage (<[st_count e := entry]> (st_index e)) (S (st_count e)) next
          init ttl files nvs) = live e ++ [entry].
Proof.
  intros Hlt Hd. unfold live. cbn [st_index st_count].
  rewrite take_app_insert, filter_app_list by done. cbn [List.filter]. by rewrite Hd.
Qed.

(** ** Hexadecimal, compaction, queries *)

Lemma hex_loop_length n hex : (length (hex_to_bytes_loop n hex).1 ≤ n)%nat.
Proof.
  revert hex. induction n as [|n IH]; intros hex; cbn [hex_to_bytes_loop]; [simpl; lia|].
  destruct (scan_hex2 hex) as [b|]; [|simpl; lia].
  specialize (IH (str_drop 2 hex)). destruct (hex_to_bytes_loop n (str_drop 2 hex)) as [l ok].
  cbn [fst length] in *. lia.
Qed.

Lemma relay_hex_length hex n out : length (relay_hex_to_bytes hex n out).1 = length out.
Proof.
  unfold relay_hex_to_bytes. destruct (negb _); [done|].
  pose proof (hex_loop_length (length out) hex) as Hl.
  destruct (hex_to_bytes_loop (length out) hex) as [l ok]. cbn [fst] in *.
  rewrite length_app, length_drop. lia.
Qed.

Definition event_id_of (json : string) : list Z := (parse_event_meta json).1.1.1.

Lemma event_id_length json : length (event_id_of json) = 32%nat.
Proof.
  unfold event_id_of, parse_event_meta. cbn [fst]. destruct (after_key _ _); [|done].
  by rewrite relay_hex_length.
Qed.

(** The loop moves the undeleted entries up, in order. *)
Lemma compact_loop_spec todo r w l :
  (w ≤ r)%nat → (r + todo ≤ length l)%nat →
  let '(l', w') := compact_loop todo r w l in
  length l' = length l ∧ (w ≤ w' ≤ w + todo)%nat ∧
  take w' l' = take w l ++ List.filter (λ x, negb (deleted x)) (take todo (drop r l)).
Proof.
  revert r w l. induction todo as [|todo IH]; intros r w l Hw Hr; cbn [compact_loop].
  { split_and!; [done|lia|lia|]. by rewrite app_nil_r. }
  destruct (lookup_lt_is_Some_2 l r) as [x Hx]; [lia|]. rewrite Hx.
  rewrite (drop_S l x r) by done. cbn [take List.filter].
  destruct (negb (deleted x)).
  - assert (∀ l1, length l1 = length l → l1 !! w = Some x → take w l1 = take w l →
                  drop (S r) l1 = drop (S r) l →
      let '(l', w') := compact_loop todo (S r) (S w) l1 in
      length l' = length l ∧ (w ≤ w' ≤ w + S todo)%nat ∧
      take w' l' = take w l ++ x :: List.filter (λ x, negb (deleted x)) (take todo (drop (S r) l)))
      as Hstep.
    { intros l1 Hl1 Hx1 Ht Hd. specialize (IH (S r) (S w) l1 ltac:(lia) ltac:(lia)).
      destruct (compact_loop todo (S r) (S w) l1) as [l' w']. destruct IH as (-> & ? & ->).
      split_and!; [done|lia|lia|]. rewrite (take_S_last l1 w x Hx1), Ht, Hd.
      by rewrite <- app_assoc. }
    destruct (w =? r)%nat eqn:Hwr; bool_hyps.
    + subst. by apply Hstep.
    + apply Hstep; [by rewrite length_insert|apply list_lookup_insert_eq; lia|
                    by rewrite take_insert_ge|by rewrite drop_insert_lt by lia].
  - specialize (IH (S r) w l ltac:(lia) ltac:(lia)).
    destruct (compact_loop todo (S r) w l) as [l' w']. destruct IH as (? & ? & ->).
    split_and!; [done|lia|lia|done].
Qed.

Lemma query_loop_live e now kind author limit l :
  query_loop e now kind author limit l =
  take limit (omap (read_event e)
    (List.filter (entry_selected now kind author) (List.filter (λ x, negb (deleted x)) l))).
Proof.
  revert limit. induction l as [|x l IH]; intros [|limit]; try done.
  cbn [query_loop List.filter].
  destruct (entry_selected now kind author x) eqn:Hs.
  - assert (negb (deleted x) = true) as -> 
      by (unfold entry_selected in Hs; rewrite !andb_true_iff in Hs; by destruct Hs as [[[? _] _] _]).
    cbn [List.filter]. rewrite Hs. cbn [omap list_omap].
    destruct (read_event e x) as [buf|]; [cbn [take]; by rewrite IH|apply IH].
  - destruct (negb (deleted x)); [cbn [List.filter]; rewrite Hs|]; apply IH.
Qed.

Lemma filter_rev_list {A} (p : A → bool) l : List.filter p (rev l) = rev (List.filter p l).
Proof. apply List.filter_rev. Qed.

(** ** The flash copy *)

Lemma saved_chunks (f : nat → list storage_index_entry_t)
    (m0 : gmap nat (list storage_index_entry_t)) n k :
  (k < n)%nat → foldl (λ m i, <[i := f i]> m) m0 (seq 0 n) !! k = Some (f k).
Proof.
  induction n as [|n IH]; intros Hk; [lia|]. rewrite seq_S, foldl_app. cbn [foldl Nat.add].
  destruct (decide (k = n)) as [->|Hne]; [apply lookup_insert_eq|].
  rewrite lookup_insert_ne by done. apply IH. lia.
Qed.

Lemma chunk_length n l k : (n ≤ length l)%nat → length (chunk n l k) = Nat.min 50 (n - 50 * k).
Proof. intros. unfold chunk, chunk_size. rewrite length_take, length_drop. lia. Qed.

(** Chunk after chunk the index is put together again. *)
Lemma load_chunks nvs n l l0 m :
  (n ≤ length l)%nat → length l0 = length l →
  (∀ k, (k < m)%nat → nv_chunks nvs !! k = Some (chunk n l k)) →
  let l1 := foldl (load_chunk nvs n) l0 (seq 0 m) in
  length l1 = length l ∧ take (Nat.min n (50 * m)) l1 = take (Nat.min n (50 * m)) l.
Proof.
  intros Hn Hl0. cbv zeta. induction m as [|m IH]; intros Hk.
  { rewrite Nat.mul_0_r, Nat.min_0_r. done. }
  rewrite seq_S, foldl_app. cbn [foldl Nat.add].
  destruct IH as [Hlen Ht]; [intros; apply Hk; lia|]. set (l1 := foldl _ _ _) in *.
  unfold load_chunk. rewrite Hk by lia. pose proof (chunk_length n l m Hn) as Hc.
  unfold chunk_size. rewrite Hc, (proj2 (Nat.leb_le _ _)) by lia.
  set (c := Nat.min 50 (n - 50 * m)) in *. split.
  - rewrite !length_app, length_take, length_drop, Hc. lia.
  - destruct (decide (50 * m < n)%nat) as [Hlt|Hge].
    + replace (Nat.min n (50 * S m)) with (50 * m + c)%nat by lia.
      rewrite Nat.min_r in Ht by lia. rewrite Ht, app_assoc.
      rewrite take_app_le by (rewrite length_app, length_take, Hc; lia).
      rewrite take_ge by (rewrite length_app, length_take, Hc; lia).
      unfold chunk, chunk_size. fold c. by rewrite take_take_drop.
    + assert (c = 0)%nat as Hc0 by lia.
      replace (Nat.min n (50 * S m)) with (Nat.min n (50 * m)) by lia.
      rewrite Hc0, Nat.add_0_r. apply nil_length_inv in Hc || rewrite (nil_length_inv (chunk n l m)) by lia.
      by rewrite app_nil_l, take_drop.
Qed.

Lemma filter_live e : List.filter (λ x, negb (deleted x)) (live e) = live e.
Proof.
  unfold live. generalize (take (st_count e) (st_index e)). intros l.
  induction l as [|x l IH]; [done|]. cbn [List.filter].
  destruct (negb (deleted x)) eqn:Hd; [cbn [List.filter]; by rewrite Hd, IH|done].
Qed.

(** * Properties *)

Section properties.
Variable nvs_ok : bool.
Variable fopen_ok : string → bool.


(** Deleting an event removes it, and it alone, from what the store holds. *)
Theorem storage_delete_outcome id e :
  storage_inv e →
  match storage_delete_event nvs_ok id e with
  | (STORAGE_OK, e') =>
      storage_inv e' ∧ id ∈ (events e).*1 ∧
      events e' = List.filter (λ p, negb (bool_decide (p.1 = id))) (events e) ∧
      storage_event_exists id e' = false
  | (err, e') => err = STORAGE_ERR_NOT_FOUND ∧ e' = e ∧ id ∉ (events e).*1
  end.
Proof.
  intros Hinv.
  assert (∀ e, (events e).*1 = ie_event_id <$> live e) as Hfst
    by (intros; unfold events; by rewrite <- list_fmap_compose).
  unfold storage_delete_event. rewrite (inv_initialized e Hinv). cbn [negb].
  destruct (find_index_entry e id) as [i|] eqn:Hf.
  - destruct (find_index_entry_Some e id i Hf) as (x & Hi & Hx & Hid & Hd).
    cbn [mbind option_bind]. rewrite Hx. cbn [fmap option_fmap option_map].
    pose proof (drop_entry_inv e i x Hinv Hi Hx Hd) as Hinv'.
    destruct (save_index_same nvs_ok (drop_entry i x e)) as (Hsl & Hse & _ & _ & _ & Hsi & _).
    rewrite Hse, (events_drop_entry e i x), Hid by done.
    split_and!; [by apply save_index_inv|rewrite Hfst; by apply find_entry_spec; eexists|done|].
    unfold storage_event_exists. rewrite Hsi. apply andb_false_iff. right.
    apply bool_decide_eq_false. rewrite find_entry_spec, Hsl, (live_drop_entry e i x) by done.
    intros (y & Hy & Hin%list_elem_of_In%filter_In)%list_elem_of_fmap. destruct Hin as [_ Hin].
    unfold other_id in Hin. rewrite bool_decide_true in Hin by congruence. done.
  - split_and!; [done|done|]. rewrite Hfst, <- find_entry_spec, Hf. by intros [].
Qed.

(** A query gives the texts of the undeleted, unexpired events that match
    it, the latest first, as many as the limit (100 by default, at most 500)
    allows; events whose file is missing, empty or too large are passed over. *)
Theorem query_latest_first now kind author limit e :
  st_initialized e = true →
  storage_query_events_json now kind author limit e =
  Some (take (query_limit limit) (omap (read_event e)
          (List.filter (entry_selected now kind (author_prefix author)) (rev (live e))))) ∧
  (query_limit limit ≤ Z.to_nat 500)%nat.
Proof.
  intros Hi. unfold storage_query_events_json. rewrite Hi. cbn [negb]. split.
  - rewrite query_loop_live, filter_rev_list. done.
  - unfold query_limit. repeat case_if; bool_hyps; lia.
Qed.

(** Compaction drops exactly the deleted entries: the index holds the
    others in their order, and no event, no file and no answer to a query
    changes. *)
Theorem compact_preserves e :
  storage_inv e →
  let '(n, e') := storage_compact_index nvs_ok e in
  storage_inv e' ∧ take (st_count e') (st_index e') = live e ∧
  n = (st_count e - length (live e))%nat ∧ events e' = events e ∧ st_files e' = st_files e ∧
  ∀ now kind author limit,
    storage_query_events_json now kind author limit e' =
    storage_query_events_json now kind author limit e.
Proof.
  intros Hinv. unfold storage_compact_index. rewrite (inv_initialized e Hinv). cbn [negb].
  pose proof (compact_loop_spec (st_count e) 0 0 (st_index e) ltac:(lia) (inv_count e Hinv)) as Hsp.
  destruct (compact_loop (st_count e) 0 0 (st_index e)) as [l w].
  destruct Hsp as (Hlen & Hw & Ht). change (take 0 ?l ++ ?k) with k in Ht.
  rewrite drop_0 in Ht. change (take w l = live e) in Ht.
  assert (w = length (live e)) as Hwl.
  { rewrite <- Ht, length_take. pose proof (inv_count e Hinv). lia. }
  assert (∀ m, take m l = live e → (m ≤ length l)%nat →
    storage_inv (with_index e l m) ∧ live (with_index e l m) = live e) as Hm.
  { intros m Hm Hml. assert (live (with_index e l m) = live e) as Hl.
    { unfold live at 1. cbn [with_index st_index st_count]. rewrite Hm. apply filter_live. }
    split; [|done]. destruct Hinv. constructor; rewrite ?Hl; done. }
  pose proof (inv_count e Hinv) as Hcnt.
  set (e' := if _ : bool then _ else _).
  assert (storage_inv e' ∧ live e' = live e ∧ take (st_count e') (st_index e') = live e ∧
          st_files e' = st_files e ∧ st_initialized e' = true) as (Hi' & Hl' & Ht' & Hf' & Hin').
  { unfold e'. destruct (0 <? st_count e - w)%nat eqn:Hc; bool_hyps.
    - destruct (save_index_same nvs_ok (with_index e l w)) as (-> & _ & -> & -> & -> & -> & _).
      destruct (Hm w Ht ltac:(lia)) as [Hi Hl]. split_and!; try done; [by apply save_index_inv|].
      by destruct Hi.
    - assert (st_count e = w) as Hcw by lia. rewrite Hcw.
      destruct (Hm w Ht ltac:(lia)) as [Hi Hl]. split_and!; try done. by destruct Hi. }
  split_and!; [done|done|lia| |done|].
  - unfold events. by rewrite Hl', Hf'.
  - intros now kind author limit. unfold storage_query_events_json.
    rewrite Hin', (inv_initialized e Hinv). cbn [negb]. f_equal.
    rewrite !query_loop_live, !filter_rev_list. fold (live e') (live e). rewrite Hl'.
    f_equal. unfold read_event. by rewrite Hf'.
Qed.

(** An orderly stop and the next start give back the same index: every
    event, its place and the next file number, however many chunks it takes. *)
Theorem restart_keeps_events ttl e :
  storage_inv e →
  let e1 := storage_destroy true e in
  let e2 := storage_init true (length (st_index e)) ttl (st_files e1) (st_nvs e1) in
  storage_inv e2 ∧ take (st_count e2) (st_index e2) = take (st_count e) (st_index e) ∧
  st_next_file_index e2 = st_next_file_index e ∧ events e2 = events e ∧
  st_count e2 = st_count e.
Proof.
  intros Hinv. pose proof Hinv as [H1 H2 H3 H4 H5 H6]. cbv zeta.
  unfold storage_destroy. rewrite H1. cbn [negb]. unfold save_index_to_nvs.
  cbn [st_files st_nvs with_nvs]. unfold storage_init, load_index_from_nvs.
  set (nvs := mk_nvs_index _ _ _).
  cbn [st_nvs st_index negb nv_count nv_next_idx nvs mbind option_bind].
  rewrite bool_decide_false by done. rewrite length_replicate, Nat.min_l by done.
  pose proof (load_chunks nvs (st_count e) (st_index e)
    (replicate (length (st_index e)) index_entry_zero)
    ((st_count e + chunk_size - 1) / chunk_size) H2 (length_replicate _ _)
    (λ k, saved_chunks (chunk (st_count e) (st_index e)) _ _ k)) as [Hlen Ht].
  fold (chunk_numbers (st_count e)) in Hlen, Ht.
  set (l2 := foldl _ _ _) in *.
  assert (st_count e ≤ 50 * ((st_count e + chunk_size - 1) / chunk_size))%nat as Hk.
  { unfold chunk_size. pose proof (Nat.div_mod (st_count e + 50 - 1) 50 ltac:(lia)).
    pose proof (Nat.mod_upper_bound (st_count e + 50 - 1) 50 ltac:(lia)). lia. }
  rewrite Nat.min_l in Ht by done.
  cbn [st_count st_index st_next_file_index].
  set (e2 := mk_storage _ _ _ _ _ _ _).
  assert (live e2 = live e) as Hl by (unfold live; cbn [e2 st_count st_index]; by rewrite Ht).
  split_and!; [|done|done| |done].
  - constructor; rewrite ?Hl; try done. cbn [e2 st_count st_index]. by rewrite Hlen.
  - unfold events. rewrite Hl. done.
Qed.
End properties.

(** * Concrete events *)

Definition hex_id (c : ascii) : string := Nat.iter 64 (String c) ""%string.
Definition event_json (c : ascii) (kind : string) : string :=
  ("{" +:+ key_id +:+ hex_id c +:+ String (chr 34) ","
   +:+ key_pubkey +:+ hex_id "c" +:+ String (chr 34) ","
   +:+ key_created_at +:+ "1700000000," +:+ key_kind +:+ kind +:+ "}")%string.

Definition store_empty (max : nat) : storage_engine_t :=
  storage_init true max 86400 ∅ (mk_nvs_index None None ∅).
Definition store_one : storage_engine_t :=
  (storage_save_event_json true (λ _, true) 1000 (event_json "a" "1") (store_empty 20)).2.

Lemma store_empty_inv max : storage_inv (store_empty max).
Proof.
  assert (live (store_empty max) = []) as Hl by done.
  constructor; rewrite ?Hl; try done; try constructor. simpl. lia.
Qed.

(** The identifier is searched in the text: a tag that holds an object with an
    [id] lends the event its identifier. *)
Definition nested_id_json : string :=
  ("{" +:+ q "tags" +:+ ":[[{" +:+ key_id +:+ hex_id "b" +:+ String (chr 34) "}]],"
   +:+ key_id +:+ hex_id "a" +:+ String (chr 34) "}")%string.
Theorem nested_object_lends_id : event_id_of nested_id_json = replicate 32 0xBB.
Proof. vm_compute. reflexivity. Qed.

(** Nine events in ten are only in memory: a restart without an orderly stop
    forgets them, and their files stay. *)
Theorem power_loss_forgets_event :
  events store_one = [(replicate 32 0xAA, Some (event_json "a" "1"))] ∧
  events (storage_init true 20 86400 (st_files store_one) (st_nvs store_one)) = [] ∧
  st_files store_one !! get_event_path (replicate 32 0xAA) 0 = Some (event_json "a" "1").
Proof. split_and!; vm_compute; reflexivity. Qed.

(** Kind 0 is no filter: a query for it gives events of every kind. *)
Theorem query_kind_zero_matches_all :
  storage_query_events_json 1000 0 None 10 store_one = Some [event_json "a" "1"].
Proof. vm_compute. reflexivity. Qed.

Lemma store_one_inv : storage_inv store_one.
Proof.
  constructor; try (vm_compute; done).
  - vm_compute. lia.
  - vm_compute. repeat constructor; discriminate.
  - vm_compute. apply NoDup_singleton.
  - vm_compute. apply NoDup_singleton.
Qed.

(** Two events, the first of them deleted. *)
Definition store_two : storage_engine_t :=
  (storage_delete_event true (replicate 32 0xAA)
     (storage_save_event_json true (λ _, true) 1001 (event_json "b" "1") store_one).2).2.

Lemma store_two_inv : storage_inv store_two.
Proof.
  constructor; try (vm_compute; done).
  - vm_compute. lia.
  - vm_compute. repeat constructor; discriminate.
  - vm_compute. apply NoDup_singleton.
  - vm_compute. apply NoDup_singleton.
Qed.


Lemma storage_delete_outcome_witness :
  events (storage_delete_event true (replicate 32 0xAA) store_one).2 =
    List.filter (λ p, negb (bool_decide (p.1 = replicate 32 0xAA))) (events store_one).
Proof.
  pose proof (storage_delete_outcome true (replicate 32 0xAA) store_one store_one_inv) as Ho.
  replace (storage_delete_event true (replicate 32 0xAA) store_one)
    with (STORAGE_OK, (storage_delete_event true (replicate 32 0xAA) store_one).2) in Ho
    by (vm_compute; reflexivity).
  apply Ho.
Defined.

Lemma query_latest_first_witness :
  storage_query_events_json 1000 1 None 10 store_one =
  Some (take (query_limit 10) (omap (read_event store_one)
          (List.filter (entry_selected 1000 1 (author_prefix None)) (rev (live store_one))))).
Proof. apply (query_latest_first 1000 1 None 10 store_one). reflexivity. Defined.

Lemma compact_preserves_witness :
  (storage_compact_index true store_two).1 = 1%nat ∧
  take 1 (st_index (storage_compact_index true store_two).2) = live store_two ∧
  events (storage_compact_index true store_two).2 = [(replicate 32 0xBB, Some (event_json "b" "1"))].
Proof.
  pose proof (compact_preserves true store_two store_two_inv) as Hc.
  assert (events store_two = [(replicate 32 0xBB, Some (event_json "b" "1"))]) as He
    by (vm_compute; reflexivity).
  assert (st_count (storage_compact_index true store_two).2 = 1%nat) as Hn
    by (vm_compute; reflexivity).
  assert ((st_count store_two - length (live store_two))%nat = 1%nat) as Hk
    by (vm_compute; reflexivity).
  destruct (storage_compact_index true store_two) as [n e']. cbn [fst snd] in *.
  destruct Hc as (_ & Ht & -> & -> & _). rewrite Hn in Ht.
  split; [exact Hk|]. split; [exact Ht|exact He].
Defined.

Lemma restart_keeps_events_witness :
  events (storage_init true (length (st_index store_two)) 86400
            (st_files (storage_destroy true store_two))
            (st_nvs (storage_destroy true store_two))) = events store_two.
Proof. apply (restart_keeps_events 86400 store_two store_two_inv). Defined.
