(* ===== verification/Relay.v ===== *)
(** The relay's handling of Nostr messages: the check of an event's identifier
    and signature (wisp_relay/relay_validator.c), EVENT, REQ and CLOSE
    (handlers.c, router.c), the delivery to subscribers (broadcaster.c), the
    deletion events (deletion.c) and the table of connections (ws_server.c,
    local_relay.c).  JSON, SHA-256 and the Schnorr verification are parameters.

    A handler gives [None] where the code reads through a NULL pointer: a
    [valuestring] that is no string, or a missing item whose value is used. *)

From S2P Require Import Prelude CStr F64 Json RateLimiter SubManager Storage.
From stdpp Require Import relations.
#[local] Open Scope Z_scope.

Definition NOSTR_KIND_DELETION : Z := 5.
Definition WS_MAX_CONNECTIONS : nat := 8.

(** * State *)

Record ws_connection_t := mk_ws_connection {
  wc_fd : Z;
  wc_active : bool;
  wc_connected_at : Z;
  wc_last_activity : Z;
  wc_remote_ip : string
}.

Definition ws_connection_zero : ws_connection_t := mk_ws_connection 0 false 0 0 "".

Record ws_server_t := mk_ws_server {
  ws_connections : list ws_connection_t;
  ws_connection_count : Z
}.

Record relay_ctx_t := mk_relay_ctx {
  rc_ws_server : ws_server_t;
  rc_sub_manager : sub_manager_t;
  rc_storage : storage_engine_t;
  rc_rate_limiter : rate_limiter_t;
  rc_max_future_sec : Z
}.

Definition with_subs (c : relay_ctx_t) (m : sub_manager_t) : relay_ctx_t :=
  mk_relay_ctx (rc_ws_server c) m (rc_storage c) (rc_rate_limiter c) (rc_max_future_sec c).
Definition with_storage (c : relay_ctx_t) (s : storage_engine_t) : relay_ctx_t :=
  mk_relay_ctx (rc_ws_server c) (rc_sub_manager c) s (rc_rate_limiter c) (rc_max_future_sec c).
Definition with_limiter (c : relay_ctx_t) (l : rate_limiter_t) : relay_ctx_t :=
  mk_relay_ctx (rc_ws_server c) (rc_sub_manager c) (rc_storage c) l (rc_max_future_sec c).
Definition with_ws (c : relay_ctx_t) (w : ws_server_t) : relay_ctx_t :=
  mk_relay_ctx w (rc_sub_manager c) (rc_storage c) (rc_rate_limiter c) (rc_max_future_sec c).

(** The clocks a call reads: seconds since start-up (for the limiter twice),
    and the time of day. *)
Record clocks := mk_clocks { ck_bucket : Z; ck_uptime : Z; ck_time : Z }.

(** A text sent on a connection. *)
Definition sent : Type := Z * string.

(** * Connections *)

Definition is_connection (fd : Z) (c : ws_connection_t) : bool := wc_active c && (wc_fd c =? fd).

Definition find_connection_by_fd (fd : Z) (s : ws_server_t) : option nat :=
  find_slot (is_connection fd) (ws_connections s).

Definition update_connection_activity (now fd : Z) (s : ws_server_t) : ws_server_t :=
  match find_connection_by_fd fd s with
  | Some i => mk_ws_server
      (alter (λ c, mk_ws_connection (wc_fd c) (wc_active c) (wc_connected_at c) (u32 now)
                     (wc_remote_ip c)) i (ws_connections s)) (ws_connection_count s)
  | None => s
  end.

(** [remote_ip]: the peer's address as text, None when it is not known. *)
Definition on_open (now : Z) (remote_ip : option string) (sockfd : Z) (s : ws_server_t)
  : esp_err_t * ws_server_t :=
  if Z.of_nat WS_MAX_CONNECTIONS <=? ws_connection_count s then (ESP_FAIL, s) else
  match find_slot (λ c, negb (wc_active c)) (ws_connections s) with
  | None => (ESP_FAIL, s)
  | Some i =>
      (ESP_OK, mk_ws_server
         (<[i := mk_ws_connection sockfd true (u32 now) (u32 now) (default "unknown"%string remote_ip)]>
            (ws_connections s)) (u8 (ws_connection_count s + 1)))
  end.

(** [on_close] with the disconnect callback of local_relay.c. *)
Definition on_close (sockfd : Z) (c : relay_ctx_t) : relay_ctx_t :=
  let c1 := with_subs c (sub_manager_remove_all sockfd (rc_sub_manager c)) in
  let s := rc_ws_server c1 in
  match find_connection_by_fd sockfd s with
  | Some i => with_ws c1 (mk_ws_server (<[i := ws_connection_zero]> (ws_connections s))
                            (u8 (ws_connection_count s - 1)))
  | None => c1
  end.

Section relay.
Context `{CUndef} `{CJson J}.
(** [cJSON_Duplicate] as the tree that can be printed. *)
Variable cJSON_Duplicate : J → jval.
Variable mbedtls_sha256 : list Z → list Z.
(** Public key, message and signature: [secp256k1_schnorrsig_verify] with the
    parsing of the key. *)
Variable verify_schnorr_sig : list Z → list Z → list Z → bool.
Variable strdup : string → option string.
Variable nvs_open_ok : bool.
Variable fopen_ok : string → bool.

(** * Validation *)

Definition opt_item (o : option jval) : list jval := match o with Some v => [v] | None => [] end.

Definition serialize_event_for_id (obj : J) : option string :=
  pubkey ← cJSON_GetObjectItem obj "pubkey";
  created_at ← cJSON_GetObjectItem obj "created_at";
  kind ← cJSON_GetObjectItem obj "kind";
  content ← cJSON_GetObjectItem obj "content";
  Some (cJSON_PrintUnformatted (JArr (
    [JInt 0] ++ opt_item (JStr <$> str_of pubkey)
    ++ [JNum (valuedouble created_at); JInt (int_of kind)]
    ++ opt_item (cJSON_Duplicate <$> cJSON_GetObjectItem obj "tags")
    ++ opt_item (JStr <$> str_of content)))).

Definition relay_validator_verify_event (event_json : string) : option bool :=
  match cJSON_Parse event_json with
  | None => Some false
  | Some obj =>
      match cJSON_GetObjectItem obj "id", cJSON_GetObjectItem obj "pubkey",
            cJSON_GetObjectItem obj "sig" with
      | Some id_item, Some pk_item, Some sig_item =>
          id_hex ← str_of id_item;
          pk_hex ← str_of pk_item;
          sig_hex ← str_of sig_item;
          if negb ((String.length id_hex =? 64) && (String.length pk_hex =? 64)
                   && (String.length sig_hex =? 128))%nat then Some false else
          let '(event_id, ok1) := relay_hex_to_bytes id_hex 64 (replicate 32 0) in
          let '(pubkey, ok2) := relay_hex_to_bytes pk_hex 64 (replicate 32 0) in
          let '(sig, ok3) := relay_hex_to_bytes sig_hex 128 (replicate 64 0) in
          if negb (ok1 && ok2 && ok3) then Some false else
          serialized ← serialize_event_for_id obj;
          Some (bool_decide (mbedtls_sha256 (str_bytes serialized) = event_id)
                && verify_schnorr_sig pubkey event_id sig)
      | _, _, _ => Some false
      end
  end.

(** * Replies *)

Definition router_send_notice (fd : Z) (message : string) : sent :=
  (fd, cJSON_PrintUnformatted (JArr [JStr "NOTICE"; JStr message])).
Definition router_send_ok (fd : Z) (event_id_hex : string) (accepted : bool) (message : string)
  : sent :=
  (fd, cJSON_PrintUnformatted (JArr [JStr "OK"; JStr event_id_hex; JBool accepted; JStr message])).
Definition router_send_eose (fd : Z) (sub_id : string) : sent :=
  (fd, cJSON_PrintUnformatted (JArr [JStr "EOSE"; JStr sub_id])).
Definition router_send_closed (fd : Z) (sub_id message : string) : sent :=
  (fd, cJSON_PrintUnformatted (JArr [JStr "CLOSED"; JStr sub_id; JStr message])).
Definition router_send_event (fd : Z) (sub_id event_json : string) : sent :=
  (fd, "[" +:+ q "EVENT" +:+ "," +:+ q sub_id +:+ "," +:+ event_json +:+ "]")%string.

Definition broadcaster_fanout_json (c : relay_ctx_t) (event_json : string) (kind : Z)
    (pubkey_hex : string) (created_at : Z) : list sent :=
  (λ e, router_send_event e.1 e.2 event_json) <$>
    sub_manager_match_json (rc_sub_manager c) kind pubkey_hex created_at.

(** * Deletion events *)

Definition tags_of (obj : J) : list J :=
  match get_arr obj "tags" with Some tags => items tags | None => [] end.

(** The second item of a tag with the given name, where both are strings. *)
Definition tag_value (name : string) (tag : J) : option string :=
  if cJSON_IsArray tag then
    n ← cJSON_GetArrayItem tag 0 ≫= str_of;
    if bool_decide (n = name) then cJSON_GetArrayItem tag 1 ≫= str_of else None
  else None.

(** The storage after the deletions, with the number counted. *)
Definition del_state : Type := nat * storage_engine_t.

Definition delete_id (st : del_state) (id : list Z) : del_state :=
  match storage_delete_event nvs_open_ok id st.2 with
  | (STORAGE_OK, s') => (S st.1, s')
  | (_, s') => (st.1, s')
  end.

Definition delete_e_tag (st : del_state) (tag : J) : del_state :=
  match tag_value "e" tag with
  | Some v =>
      match relay_hex_to_bytes v 64 (replicate 32 0) with
      | (id, true) => delete_id st id
      | (_, false) => st
      end
  | None => st
  end.

(** [sscanf(s, ''%d:%64[^:]:%255s'', &kind, pubkey, d_tag)] with two or more
    conversions: the kind and the key. *)
Definition scan_a_tag (s : string) : option (Z * string) :=
  let r := skip_space s in
  let '(_, digits) := read_sign r in
  match digits with
  | String d _ =>
      if bool_decide (is_Some (dec_val d)) then
        i ← strchr ":" digits;
        if forallb (λ c, bool_decide (is_Some (dec_val c)))
             (String.list_ascii_of_string (str_take i digits)) then
          let rest := str_drop (S i) digits in
          let key := str_take 64 (match strchr ":" rest with
                                  | Some j => str_take j rest | None => rest end) in
          if str_empty key then None
          else Some (clamp (- 2 ^ 31) (2 ^ 31 - 1) (read_int dec_val 10 s), key)
        else None
      else None
  | EmptyString => None
  end.

Definition query_texts (now kind : Z) (author : string) (limit : Z) (s : storage_engine_t)
  : list string := default [] (storage_query_events_json now kind (Some author) limit s).

(** The text of each event found is taken for its identifier. *)
Definition delete_a_tag (now : Z) (deleter : string) (st : del_state) (tag : J) : del_state :=
  match tag_value "a" tag ≫= scan_a_tag with
  | Some (kind, pubkey) =>
      if bool_decide (pubkey = deleter) then
        foldl (λ st text, delete_id st (take 32 (str_bytes text)))
          st (query_texts now kind pubkey 100 st.2)
      else st
  | None => st
  end.

Definition extract_event_id_field (event_json : string) : option (list Z) :=
  obj ← cJSON_Parse event_json;
  id ← get_str obj "id";
  if negb (String.length id =? 64)%nat then None else
  match relay_hex_to_bytes id 64 (replicate 32 0) with
  | (l, true) => Some l
  | (_, false) => None
  end.

Definition delete_k_tag (now : Z) (deleter : string) (st : del_state) (tag : J) : del_state :=
  match tag_value "k" tag with
  | Some v =>
      foldl (λ st text, match extract_event_id_field text with
                        | Some id => (S st.1, (storage_delete_event nvs_open_ok id st.2).2)
                        | None => st
                        end)
        st (query_texts now (atoi v) deleter 500 st.2)
  | None => st
  end.

Definition deletion_process_json (now : Z) (event_json : string) (s : storage_engine_t)
  : option del_state :=
  match cJSON_Parse event_json with
  | None => Some (O, s)
  | Some obj =>
      if negb (match cJSON_GetObjectItem obj "kind" with Some k => int_of k | None => 0 end
               =? NOSTR_KIND_DELETION) then Some (O, s) else
      deleter ← match cJSON_GetObjectItem obj "pubkey" with
                | Some pk => str_of pk | None => Some ""%string end;
      Some (foldl (delete_k_tag now deleter)
              (foldl (delete_a_tag now deleter)
                 (foldl delete_e_tag (O, s) (tags_of obj)) (tags_of obj)) (tags_of obj))
  end.

(** * EVENT *)

(** The result, the relay afterwards and what was sent.  [id_hex] and
    [pubkey_hex] are read after the parsed event has been freed; here they
    still have their values. *)
Definition handle_event (ck : clocks) (conn_fd : Z) (event_json : string) (c : relay_ctx_t)
  : option (Z * relay_ctx_t * list sent) :=
  let '(allowed, rl) := rate_limiter_check (ck_bucket ck) (ck_uptime ck) conn_fd RATE_TYPE_EVENT
                          (rc_rate_limiter c) in
  let c := with_limiter c rl in
  if negb allowed then Some (-1, c, [router_send_ok conn_fd "" false "rate limited"]) else
  match cJSON_Parse event_json with
  | None => Some (-1, c, [router_send_ok conn_fd "" false "invalid JSON"])
  | Some obj =>
      match cJSON_GetObjectItem obj "id", cJSON_GetObjectItem obj "pubkey",
            cJSON_GetObjectItem obj "kind", cJSON_GetObjectItem obj "created_at" with
      | Some id_item, Some pubkey_item, Some kind_item, Some ca_item =>
          let kind := int_of kind_item in
          let created_at := u64_of_f64 (valuedouble ca_item) in
          id_hex ← str_of id_item;
          if (0 <? rc_max_future_sec c)
             && (ck_uptime ck + rc_max_future_sec c <? i64 created_at) then
            Some (-1, c, [router_send_ok conn_fd id_hex false "created_at too far in future"])
          else
          let '(event_id, ok) := relay_hex_to_bytes id_hex 64 (replicate 32 0) in
          if negb ok then Some (-1, c, [router_send_ok conn_fd "" false "invalid event id"]) else
          if storage_event_exists event_id (rc_storage c) then
            Some (0, c, [router_send_ok conn_fd id_hex true "duplicate"])
          else
          valid ← relay_validator_verify_event event_json;
          if negb valid then Some (-1, c, [router_send_ok conn_fd id_hex false "invalid signature"])
          else
          match storage_save_event_json nvs_open_ok fopen_ok (ck_time ck) event_json (rc_storage c) with
          | (STORAGE_OK, s1) =>
              pubkey_hex ← str_of pubkey_item;
              s2 ← (if kind =? NOSTR_KIND_DELETION
                    then snd <$> deletion_process_json (ck_time ck) event_json s1
                    else Some s1);
              Some (0, with_storage c s2,
                    router_send_ok conn_fd id_hex true ""
                    :: broadcaster_fanout_json c event_json kind pubkey_hex created_at)
          | (err, s1) =>
              Some (-1, with_storage c s1,
                    [router_send_ok conn_fd id_hex false
                       (match err with
                        | STORAGE_ERR_FULL => "relay full"
                        | STORAGE_ERR_DUPLICATE => "duplicate"
                        | _ => "storage error"
                        end)%string])
          end
      | _, _, _, _ => Some (-1, c, [router_send_ok conn_fd "" false "missing required fields"])
      end
  end.

(** * REQ and CLOSE *)

Definition filter_zero : sub_filter_t := mk_sub_filter [] [] [] [] [] 0 0 0.

(** The strings of an array of the filter; [strdup] of a NULL pointer fails. *)
Definition filter_strings (obj : J) (key : string) : option (list string) :=
  match get_arr obj key with
  | Some arr => mapM str_of (take SUB_MAX_FILTER_IDS (items arr))
  | None => Some []
  end.

Definition parse_filter_json (json : string) : option sub_filter_t :=
  match cJSON_Parse json with
  | None => Some filter_zero
  | Some obj =>
      ids ← filter_strings obj "ids";
      authors ← filter_strings obj "authors";
      e_tags ← filter_strings obj "#e";
      p_tags ← filter_strings obj "#p";
      let kinds := match get_arr obj "kinds" with
                   | Some arr => int_of <$> take SUB_MAX_FILTER_IDS (items arr)
                   | None => []
                   end in
      let number key := match cJSON_GetObjectItem obj key with
                        | Some j => i64_of_f64 (valuedouble j) | None => 0 end in
      Some (mk_sub_filter ids authors kinds e_tags p_tags (number "since") (number "until")
              (match cJSON_GetObjectItem obj "limit" with Some j => int_of j | None => 0 end))
  end.

Definition handle_req (ck : clocks) (conn_fd : Z) (sub_id filters_json : string) (c : relay_ctx_t)
  : option (relay_ctx_t * list sent) :=
  let '(allowed, rl) := rate_limiter_check (ck_bucket ck) (ck_uptime ck) conn_fd RATE_TYPE_REQ
                          (rc_rate_limiter c) in
  let c := with_limiter c rl in
  if negb allowed then Some (c, [router_send_closed conn_fd sub_id "rate limited"]) else
  filter ← parse_filter_json filters_json;
  let query_kind := match sf_kinds filter with k :: _ => k | [] => -1 end in
  let query_limit := if 0 <? sf_limit filter then sf_limit filter else 100 in
  let results := default [] (storage_query_events_json (ck_time ck) query_kind
                               (head (sf_authors filter)) query_limit (rc_storage c)) in
  Some (with_subs c (sub_manager_add strdup conn_fd sub_id [filter] (rc_sub_manager c)).2,
        (router_send_event conn_fd sub_id <$> results) ++ [router_send_eose conn_fd sub_id]).

Definition handle_close (conn_fd : Z) (sub_id : string) (c : relay_ctx_t) : relay_ctx_t :=
  with_subs c (sub_manager_remove conn_fd sub_id (rc_sub_manager c)).2.

(** * Dispatch *)

Definition print_item (j : J) : string := cJSON_PrintUnformatted (cJSON_Duplicate j).

Definition router_dispatch (ck : clocks) (conn_fd : Z) (data : string) (c : relay_ctx_t)
  : option (relay_ctx_t * list sent) :=
  let notice m := Some (c, [router_send_notice conn_fd m]) in
  match cJSON_Parse data with
  | None => notice "invalid JSON"%string
  | Some arr =>
      if negb (cJSON_IsArray arr) then notice "invalid JSON"%string else
      let array_size := cJSON_GetArraySize arr in
      if (array_size <? 2)%nat then notice "array too short"%string else
      match cJSON_GetArrayItem arr 0 ≫= str_of with
      | None => notice "invalid command"%string
      | Some cmd =>
          if bool_decide (cmd = "EVENT"%string) then
            match cJSON_GetArrayItem arr 1 with
            | Some event_obj =>
                '(_, c', out) ← handle_event ck conn_fd (print_item event_obj) c;
                Some (c', out)
            | None => Some (c, [])
            end
          else if bool_decide (cmd = "REQ"%string) && (3 <=? array_size)%nat then
            match cJSON_GetArrayItem arr 1 ≫= str_of with
            | Some sub_id =>
                handle_req ck conn_fd sub_id
                  (match cJSON_GetArrayItem arr 2 with
                   | Some f => print_item f | None => "{}"%string end) c
            | None => Some (c, [])
            end
          else if bool_decide (cmd = "CLOSE"%string) then
            match cJSON_GetArrayItem arr 1 ≫= str_of with
            | Some sub_id => Some (handle_close conn_fd sub_id c, [])
            | None => Some (c, [])
            end
          else notice "unknown command"%string
      end
  end.

(** A text frame on an open connection: [ws_handler] with the callback. *)
Definition on_ws_message (ck : clocks) (fd : Z) (data : string) (c : relay_ctx_t)
  : option (relay_ctx_t * list sent) :=
  router_dispatch ck fd data (with_ws c (update_connection_activity (ck_uptime ck) fd (rc_ws_server c))).

(** ** The gate's own events *)

Definition local_relay_publish (now : Z) (event_json : string) (c : relay_ctx_t)
  : option (esp_err_t * relay_ctx_t * list sent) :=
  match storage_save_event_json nvs_open_ok fopen_ok now event_json (rc_storage c) with
  | (STORAGE_ERR_DUPLICATE, _) => Some (ESP_OK, c, [])
  | (STORAGE_OK, s1) =>
      let c1 := with_storage c s1 in
      match cJSON_Parse event_json with
      | None => Some (ESP_OK, c1, [])
      | Some obj =>
          match cJSON_GetObjectItem obj "pubkey", cJSON_GetObjectItem obj "kind",
                cJSON_GetObjectItem obj "created_at" with
          | Some pk, Some kind, Some ca =>
              pubkey ← str_of pk;
              Some (ESP_OK, c1, broadcaster_fanout_json c1 event_json (int_of kind) pubkey
                                  (u64_of_f64 (valuedouble ca)))
          | _, _, _ => Some (ESP_OK, c1, [])
          end
      end
  | (_, s1) => Some (ESP_FAIL, with_storage c s1, [])
  end.
End relay.

(** [local_relay_init] with the storage found at start-up. *)
Definition local_relay_init (s : storage_engine_t) : relay_ctx_t :=
  mk_relay_ctx (mk_ws_server (replicate WS_MAX_CONNECTIONS ws_connection_zero) 0)
    sub_manager_init s (rate_limiter_init (Some (mk_rate_config 60 30))) 600.

(** * Lemmas *)

Section lemmas.
Context `{CUndef} `{CJson J} (dup : J → jval) (sha : list Z → list Z)
  (schnorr : list Z → list Z → list Z → bool) (strdup : string → option string)
  (nvs_ok : bool) (fopen_ok : string → bool).

Let handle_event' := handle_event dup sha schnorr nvs_ok fopen_ok.
Let verify' := relay_validator_verify_event dup sha schnorr.

(** Identifier, key and signature of an event fit together. *)
Definition signed_event (json : string) : Prop :=
  ∃ obj serialized id_hex pk_hex sig_hex id pk sig,
    cJSON_Parse json = Some obj ∧ serialize_event_for_id dup obj = Some serialized ∧
    get_str obj "id" = Some id_hex ∧ get_str obj "pubkey" = Some pk_hex ∧
    get_str obj "sig" = Some sig_hex ∧
    relay_hex_to_bytes id_hex 64 (replicate 32 0) = (id, true) ∧
    relay_hex_to_bytes pk_hex 64 (replicate 32 0) = (pk, true) ∧
    relay_hex_to_bytes sig_hex 128 (replicate 64 0) = (sig, true) ∧
    id = sha (str_bytes serialized) ∧ schnorr pk id sig = true.

Lemma verify_signed json : verify' json = Some true → signed_event json.
Proof.
  unfold verify', relay_validator_verify_event.
  destruct (cJSON_Parse json) as [obj|] eqn:Hp; [|done].
  destruct (cJSON_GetObjectItem obj "id") as [ji|] eqn:Hi; [|done].
  destruct (cJSON_GetObjectItem obj "pubkey") as [jp|] eqn:Hk; [|done].
  destruct (cJSON_GetObjectItem obj "sig") as [js|] eqn:Hs; [|done].
  destruct (str_of ji) as [id_hex|] eqn:Hi'; [|done].
  destruct (str_of jp) as [pk_hex|] eqn:Hk'; [|done].
  destruct (str_of js) as [sig_hex|] eqn:Hs'; [|done]. cbn [mbind option_bind].
  destruct (negb _); [done|].
  destruct (relay_hex_to_bytes id_hex 64 _) as [id ok1] eqn:H1.
  destruct (relay_hex_to_bytes pk_hex 64 _) as [pk ok2] eqn:H2.
  destruct (relay_hex_to_bytes sig_hex 128 _) as [sg ok3] eqn:H3.
  destruct (negb (ok1 && ok2 && ok3)) eqn:Hok; [done|]. bool_hyps. subst.
  destruct (serialize_event_for_id dup obj) as [ser|] eqn:Hser; [|done]. simpl.
  intros [= Hv]. bool_hyps. exists obj, ser, id_hex, pk_hex, sig_hex, id, pk, sg.
  unfold get_str. rewrite Hi, Hk, Hs. split_and!; try done.
  match goal with Hd : bool_decide _ = true |- _ => by apply bool_decide_eq_true in Hd end.
Qed.

(** A return with one reply and the storage as it was. *)
Ltac early_reply acc :=
  intros [= <- <- <-]; split_and!; try done; left; by eexists _, acc, _.

(** The three ways [handle_event] returns. *)
Lemma handle_event_cases ck fd json c ret c' out :
  handle_event' ck fd json c = Some (ret, c', out) →
  rc_sub_manager c' = rc_sub_manager c ∧ rc_ws_server c' = rc_ws_server c ∧
  rc_max_future_sec c' = rc_max_future_sec c ∧
  ((∃ id acc msg, rc_storage c' = rc_storage c ∧ out = [router_send_ok fd id acc msg] ∧
      (acc = true → ret = 0 ∧ msg = "duplicate"%string)) ∨
   ∃ err s1 kind pk ca id, signed_event json ∧
     storage_save_event_json nvs_ok fopen_ok (ck_time ck) json (rc_storage c) = (err, s1) ∧
     (err ≠ STORAGE_OK ∧ ret = -1 ∧ rc_storage c' = s1 ∧
      (∃ msg, out = [router_send_ok fd id false msg]) ∨
      err = STORAGE_OK ∧ ret = 0 ∧ (kind ≠ NOSTR_KIND_DELETION → rc_storage c' = s1) ∧
      out = router_send_ok fd id true "" :: broadcaster_fanout_json c json kind pk ca)).
Proof.
  unfold handle_event', handle_event.
  destruct (rate_limiter_check _ _ _ _ _) as [allowed rl].
  destruct allowed; cbn [negb]; [|early_reply false].
  destruct (cJSON_Parse json) as [obj|]; [|early_reply false].
  destruct (cJSON_GetObjectItem obj "id") as [ji|]; [|early_reply false].
  destruct (cJSON_GetObjectItem obj "pubkey") as [jp|]; [|early_reply false].
  destruct (cJSON_GetObjectItem obj "kind") as [jk|]; [|early_reply false].
  destruct (cJSON_GetObjectItem obj "created_at") as [jc|]; [|early_reply false].
  destruct (str_of ji) as [id_hex|]; [|done]. cbn [mbind option_bind].
  case_if; [early_reply false|].
  destruct (relay_hex_to_bytes id_hex 64 _) as [event_id ok].
  destruct (negb ok); [early_reply false|].
  case_if; [early_reply true|].
  destruct (relay_validator_verify_event dup sha schnorr json) as [valid|] eqn:Hv; [|done].
  simpl. destruct valid; cbn [negb]; [|early_reply false].
  apply verify_signed in Hv.
  cbn [with_limiter rc_storage].
  destruct (storage_save_event_json _ _ _ _ _) as [err s1] eqn:Hsave.
  destruct err; try (intros [= <- <- <-]; split_and!; try done; right;
    eexists _, s1, 0, ""%string, 0, id_hex; split_and!; [done|done|]; left; split_and!; try done;
    by eexists).
  destruct (str_of jp) as [pk|]; [|done]. simpl.
  match goal with |- ?m ≫= _ = _ → _ => destruct m as [s2|] eqn:Hd; [|done] end.
  simpl. intros [= <- <- <-]. split_and!; try done. right.
  eexists STORAGE_OK, s1, (int_of jk), pk, _, id_hex.
  split_and!; [done|done|]. right. split_and!; try done. simpl.
  intros Hne. rewrite (proj2 (Z.eqb_neq _ _)) in Hd by done. by injection Hd as <-.
Qed.
End lemmas.

(** * The relay as a whole *)

Section steps.
Context `{CUndef} `{CJson J} (dup : J → jval) (sha : list Z → list Z)
  (schnorr : list Z → list Z → list Z → bool) (strdup : string → option string)
  (nvs_ok : bool) (fopen_ok : string → bool).

(** The server hands out a connection's number only once at a time, and a
    message only of an open connection. *)
Inductive relay_step : relay_ctx_t → relay_ctx_t → Prop :=
| step_open c now ip fd ws :
    find_connection_by_fd fd (rc_ws_server c) = None →
    on_open now ip fd (rc_ws_server c) = (ESP_OK, ws) →
    relay_step c (with_ws c ws)
| step_message c c' ck fd data out :
    is_Some (find_connection_by_fd fd (rc_ws_server c)) →
    on_ws_message dup sha schnorr strdup nvs_ok fopen_ok ck fd data c = Some (c', out) →
    relay_step c c'
| step_activity c now fd :
    relay_step c (with_ws c (update_connection_activity now fd (rc_ws_server c)))
| step_close c fd : relay_step c (on_close fd c)
| step_publish c c' now json err out :
    local_relay_publish nvs_ok fopen_ok now json c = Some (err, c', out) →
    relay_step c c'
| step_cleanup c now : relay_step c
    (with_storage c (storage_compact_index nvs_ok
       (storage_purge_expired nvs_ok now (rc_storage c)).2).2).

Definition connected (ws : ws_server_t) (fd : Z) : Prop :=
  ∃ i x, ws_connections ws !! i = Some x ∧ is_connection fd x = true.

Definition ws_wf (ws : ws_server_t) : Prop :=
  length (ws_connections ws) = WS_MAX_CONNECTIONS ∧
  ws_connection_count ws = Z.of_nat (count_slots wc_active (ws_connections ws)) ∧
  uniq_keys wc_active wc_fd (ws_connections ws).

Definition subs_connected (ws : ws_server_t) (m : sub_manager_t) : Prop :=
  ∀ i s, sm_subs m !! i = Some s → sb_active s = true → connected ws (sb_conn_fd s).

Definition relay_inv (c : relay_ctx_t) : Prop :=
  ws_wf (rc_ws_server c) ∧ sub_wf (rc_sub_manager c) ∧
  subs_connected (rc_ws_server c) (rc_sub_manager c).

Lemma is_connection_spec fd x : is_connection fd x = true ↔ wc_active x = true ∧ wc_fd x = fd.
Proof. unfold is_connection. by rewrite andb_true_iff, Z.eqb_eq. Qed.

Lemma connected_find ws fd : connected ws fd ↔ is_Some (find_connection_by_fd fd ws).
Proof.
  split.
  - intros (i & x & Hi & Hx). destruct (find_slot_is_Some _ _ _ _ Hi Hx) as (j & Hj & _). by exists j.
  - intros [i (x & Hx & Hp & _)%find_slot_Some]. by exists i, x.
Qed.

(** Subscriptions come only from the connection that asks. *)
Lemma sub_add_fds fd id fs m i s :
  sm_subs (sub_manager_add strdup fd id fs m).2 !! i = Some s → sb_active s = true →
  sb_conn_fd s = fd ∨ ∃ j s0, sm_subs m !! j = Some s0 ∧ sb_active s0 = true ∧
                              sb_conn_fd s0 = sb_conn_fd s.
Proof.
  unfold sub_manager_add. destruct (copy_filters strdup _) as [cs ok].
  destruct (find_sub m fd id) as [k|].
  - cbn [snd sm_subs]. intros (x & Hx & ->)%lookup_alter_inv Ha. right. exists i, x.
    case_decide; done.
  - destruct (_ <=? _); [cbn [snd]; intros; right; by exists i, s|].
    destruct (find_slot _ (sm_subs m)) as [k|]; [|cbn [snd]; intros; right; by exists i, s].
    destruct ok; cbn [snd sm_subs]; intros [(_ & <- & _)|[_ Hi]]%list_lookup_insert_Some Ha;
      try (right; by exists i, s); [by left|done].
Qed.

Lemma sub_remove_fds fd id m i s :
  sm_subs (sub_manager_remove fd id m).2 !! i = Some s → sb_active s = true →
  sm_subs m !! i = Some s.
Proof.
  unfold sub_manager_remove. destruct (find_sub m fd id); [|done]. cbn [snd sm_subs].
  by intros [(_ & <- & _)|[_ Hi]]%list_lookup_insert_Some Ha.
Qed.

Lemma subs_connected_fds ws m m' :
  subs_connected ws m →
  (∀ i s, sm_subs m' !! i = Some s → sb_active s = true →
     connected ws (sb_conn_fd s) ∨
     ∃ j s0, sm_subs m !! j = Some s0 ∧ sb_active s0 = true ∧ sb_conn_fd s0 = sb_conn_fd s) →
  subs_connected ws m'.
Proof.
  intros Hc Hm i s Hi Ha. destruct (Hm i s Hi Ha) as [?|(j & s0 & Hj & Ha0 & <-)]; [done|].
  by apply (Hc j s0).
Qed.

(** What a message may change: the subscriptions, in these ways. *)
Lemma dispatch_cases ck fd data c c' out :
  router_dispatch dup sha schnorr strdup nvs_ok fopen_ok ck fd data c = Some (c', out) →
  rc_ws_server c' = rc_ws_server c ∧
  (rc_sub_manager c' = rc_sub_manager c ∨
   (∃ id fs, rc_sub_manager c' = (sub_manager_add strdup fd id fs (rc_sub_manager c)).2) ∨
   (∃ id, rc_sub_manager c' = (sub_manager_remove fd id (rc_sub_manager c)).2)).
Proof.
  unfold router_dispatch. destruct (cJSON_Parse data) as [arr|]; [|intros [= <- <-]; auto].
  destruct (negb _); [intros [= <- <-]; auto|].
  destruct (_ <? _)%nat; [intros [= <- <-]; auto|].
  destruct (cJSON_GetArrayItem arr 0 ≫= str_of) as [cmd|]; [|intros [= <- <-]; auto].
  case_bool_decide.
  - destruct (cJSON_GetArrayItem arr 1) as [ev|]; [|intros [= <- <-]; auto].
    destruct (handle_event _ _ _ _ _ _ _ _ _) as [[[ret c1] out1]|] eqn:He; [|done].
    simpl. intros [= <- <-]. apply handle_event_cases in He as (-> & -> & _). auto.
  - destruct (_ && _).
    + destruct (cJSON_GetArrayItem arr 1 ≫= str_of) as [id|]; [|intros [= <- <-]; auto].
      unfold handle_req. destruct (rate_limiter_check _ _ _ _ _) as [al rl].
      destruct al; cbn [negb]; [|intros [= <- <-]; auto].
      destruct (parse_filter_json _) as [f|]; [|done]. simpl. intros [= <- <-].
      split; [done|]. right. left. by eexists _, _.
    + case_bool_decide; [|intros [= <- <-]; auto].
      destruct (cJSON_GetArrayItem arr 1 ≫= str_of) as [id|]; intros [= <- <-]; [|auto].
      split; [done|]. right. right. by eexists.
Qed.

Lemma connected_elem ws fd :
  connected ws fd ↔ ∃ i x, ws_connections ws !! i = Some x ∧ wc_active x = true ∧ wc_fd x = fd.
Proof.
  unfold connected. split; intros (i & x & Hi & Hx); exists i, x; (split; [done|]);
    by apply is_connection_spec.
Qed.

Lemma ws_count_u8 (l : list ws_connection_t) :
  length l = WS_MAX_CONNECTIONS → u8 (Z.of_nat (count_slots wc_active l)) =
                                  Z.of_nat (count_slots wc_active l).
Proof.
  intros Hl. apply u8_small. pose proof (count_slots_le wc_active l).
  unfold is_u8, WS_MAX_CONNECTIONS in *. lia.
Qed.

Lemma activity_inv now fd ws :
  ws_wf ws → ws_wf (update_connection_activity now fd ws) ∧
             ∀ fd', connected ws fd' → connected (update_connection_activity now fd ws) fd'.
Proof.
  intros (Hl & Hc & Hu). unfold update_connection_activity.
  destruct (find_connection_by_fd fd ws) as [i|]; [|done].
  set (g := λ c : ws_connection_t, mk_ws_connection _ _ _ _ _). split.
  - split_and!; cbn [ws_connections ws_connection_count].
    + by rewrite length_alter.
    + by rewrite count_slots_alter_same.
    + by apply uniq_keys_alter.
  - intros fd' (j & x & Hj & Hx). exists j, (if decide (i = j) then g x else x).
    cbn [ws_connections]. rewrite list_lookup_alter.
    destruct (decide (i = j)) as [->|]; by rewrite Hj.
Qed.

(** One slot freed or filled. *)
Lemma ws_insert_wf ws i x y n :
  ws_wf ws → ws_connections ws !! i = Some x →
  n = u8 (ws_connection_count ws + Z.b2z (wc_active y) - Z.b2z (wc_active x)) →
  (wc_active y = true → ¬ connected ws (wc_fd y)) →
  ws_wf (mk_ws_server (<[i := y]> (ws_connections ws)) n).
Proof.
  intros (Hl & Hc & Hu) Hx -> Hy. split_and!; cbn [ws_connections ws_connection_count].
  - by rewrite length_insert.
  - pose proof (count_slots_insert wc_active _ i x y Hx) as Hcount.
    rewrite <- ws_count_u8 by (by rewrite length_insert). f_equal. rewrite Hc.
    destruct (wc_active x), (wc_active y); cbn [Z.b2z Nat.b2n] in *; lia.
  - apply uniq_keys_insert; [done|]. intros j z Hj Hz Ha Hk. destruct (Hy Ha).
    apply connected_elem. exists j, z. done.
Qed.

Lemma open_inv now ip fd ws ws' :
  ws_wf ws → find_connection_by_fd fd ws = None → on_open now ip fd ws = (ESP_OK, ws') →
  ws_wf ws' ∧ ∀ fd', connected ws fd' → connected ws' fd'.
Proof.
  intros Hwf Hf. unfold on_open. destruct (_ <=? _); [done|].
  destruct (find_slot _ (ws_connections ws)) as [i|] eqn:Hs; [|done]. intros [= <-].
  apply find_slot_Some in Hs as (x & Hx & Ha & _). apply negb_true_iff in Ha. split.
  - apply (ws_insert_wf ws i x); [done|done|rewrite Ha; cbn [wc_active Z.b2z]; f_equal; lia|].
    intros _ Hc%connected_find. cbn [wc_fd] in Hc. rewrite Hf in Hc. by destruct Hc.
  - intros fd' (j & z & Hj & Hz). exists j, z. cbn [ws_connections].
    rewrite list_lookup_insert_ne; [done|]. intros <-. rewrite Hx in Hj. injection Hj as <-.
    apply is_connection_spec in Hz as [Hz _]. congruence.
Qed.

Lemma remove_all_fds fd m i s :
  sm_subs (sub_manager_remove_all fd m) !! i = Some s → sb_active s = true →
  sm_subs m !! i = Some s ∧ sb_conn_fd s ≠ fd.
Proof.
  unfold sub_manager_remove_all. cbn [sm_subs]. rewrite list_lookup_fmap.
  destruct (sm_subs m !! i) as [s0|]; [|done]. simpl. intros [= <-].
  destruct (is_conn fd s0) eqn:Hc; [done|]. intros Ha. split; [done|]. intros Heq.
  by rewrite (proj2 (is_conn_spec fd s0)) in Hc.
Qed.

Lemma close_inv fd c : relay_inv c → relay_inv (on_close fd c).
Proof.
  intros (Hws & Hsub & Hconn). unfold on_close. cbn [rc_ws_server with_subs].
  set (m' := sub_manager_remove_all fd (rc_sub_manager c)).
  assert (sub_wf m') as Hsub' by (by apply sub_remove_all_wf).
  destruct (find_connection_by_fd fd (rc_ws_server c)) as [i|] eqn:Hf.
  - destruct (find_slot_Some _ _ _ Hf) as (x & Hx & [Ha Hfd]%is_connection_spec & _).
    split_and!; cbn [rc_ws_server rc_sub_manager with_ws with_subs]; [|done|].
    + apply (ws_insert_wf _ i x); [done|done| |done]. rewrite Ha.
      cbn [ws_connection_zero wc_active Z.b2z]. f_equal. lia.
    + intros j s Hj Hs. destruct (remove_all_fds fd _ j s Hj Hs) as [Hj0 Hne].
      destruct (Hconn j s Hj0 Hs) as (k & z & Hk & Hz). exists k, z. cbn [ws_connections].
      rewrite list_lookup_insert_ne; [done|]. intros <-. rewrite Hx in Hk. injection Hk as <-.
      apply is_connection_spec in Hz as [_ Hz]. congruence.
  - split_and!; [done|done|]. intros j s Hj Hs.
    destruct (remove_all_fds fd _ j s Hj Hs) as [Hj0 _]. by apply (Hconn j s).
Qed.

Lemma relay_step_inv c c' : relay_inv c → relay_step c c' → relay_inv c'.
Proof.
  intros Hinv Hstep. destruct Hstep as [c now ip fd ws Hf Ho|c c' ck fd data out Hfd Hm|c now fd|c fd
    |c c' now json err out Hp|c now].
  - destruct Hinv as (Hws & Hsub & Hconn). destruct (open_inv _ _ _ _ _ Hws Hf Ho) as [Hws' Hc].
    split_and!; [done|done|]. intros i s Hi Ha. apply Hc. by apply (Hconn i s).
  - destruct Hinv as (Hws & Hsub & Hconn). unfold on_ws_message in Hm.
    destruct (dispatch_cases _ _ _ _ _ _ Hm) as [Hw Hs]. cbn [rc_ws_server rc_sub_manager with_ws] in *.
    destruct (activity_inv (ck_uptime ck) fd _ Hws) as [Hws' Hc].
    assert (subs_connected (rc_ws_server c') (rc_sub_manager c)) as Hconn'.
    { rewrite Hw. intros i s Hi Ha. apply Hc. by apply (Hconn i s). }
    apply connected_find in Hfd. apply Hc in Hfd. rewrite <- Hw in Hfd.
    split; [by rewrite Hw|]. destruct Hs as [->|[(id & fs & ->)|[id ->]]].
    + done.
    + split; [by apply sub_add_wf|]. apply (subs_connected_fds _ _ _ Hconn').
      intros i s Hi Ha. destruct (sub_add_fds _ _ _ _ _ _ Hi Ha) as [->|?]; auto.
    + split; [by apply sub_remove_wf|]. intros i s Hi Ha.
      apply (Hconn' i s); [by eapply sub_remove_fds|done].
  - destruct Hinv as (Hws & Hsub & Hconn). destruct (activity_inv now fd _ Hws) as [Hws' Hc].
    split_and!; [done|done|]. intros i s Hi Ha. apply Hc. by apply (Hconn i s).
  - by apply close_inv.
  - assert (rc_ws_server c' = rc_ws_server c ∧ rc_sub_manager c' = rc_sub_manager c) as [Hw Hs].
    { unfold local_relay_publish in Hp.
      destruct (storage_save_event_json _ _ _ _ _) as [[] s1]; simplify_eq; try done.
      destruct (cJSON_Parse json) as [obj|]; simplify_eq; [|done].
      destruct (cJSON_GetObjectItem obj "pubkey") as [pk|]; simplify_eq; [|done].
      destruct (cJSON_GetObjectItem obj "kind"); simplify_eq; [|done].
      destruct (cJSON_GetObjectItem obj "created_at"); simplify_eq; [|done].
      destruct (str_of pk); [|done]. simpl in Hp. by simplify_eq. }
    unfold relay_inv. by rewrite Hw, Hs.
  - exact Hinv.
Qed.

Lemma relay_init_inv st : relay_inv (local_relay_init st).
Proof.
  unfold relay_inv, ws_wf, sub_wf. split_and!; try done.
  - by apply uniq_keys_replicate.
  - intros fd. replace (count_slots _ _) with 0%nat by done. lia.
  - apply Forall_replicate, subscription_zero_ok.
  - intros i s [-> _]%lookup_replicate_1 Ha. done.
Qed.

(** * Properties *)

(** A return with one refusal and the storage as it was. *)
Ltac refused := intros [= <- <- <-]; split_and!; try done; by eexists _, _.



(** The relay compares the time of an event with the seconds since its own
    start: with the limit of 600 seconds it is set up with, an event dated by
    the calendar is refused until the relay has run for as long as the
    calendar counts. *)
Theorem dated_events_refused ck fd json obj ca t c ret c' out :
  rc_max_future_sec c = 600 → cJSON_Parse json = Some obj →
  cJSON_GetObjectItem obj "created_at" = Some ca → f64_trunc (valuedouble ca) = Some t →
  0 <= t < 2 ^ 63 → ck_uptime ck + 600 < t →
  handle_event dup sha schnorr nvs_ok fopen_ok ck fd json c = Some (ret, c', out) →
  ret = -1 ∧ rc_storage c' = rc_storage c ∧ ∃ id msg, out = [router_send_ok fd id false msg].
Proof.
  intros Hmax Hp Hca Ht Htr Hlate. unfold handle_event.
  destruct (rate_limiter_check _ _ _ _ _) as [allowed rl].
  destruct allowed; cbn [negb]; [|refused]. rewrite Hp.
  destruct (cJSON_GetObjectItem obj "id") as [ji|]; [|refused].
  destruct (cJSON_GetObjectItem obj "pubkey") as [jp|]; [|refused].
  destruct (cJSON_GetObjectItem obj "kind") as [jk|]; [|refused]. rewrite Hca.
  destruct (str_of ji) as [id_hex|]; [|done]. cbn [mbind option_bind with_limiter rc_max_future_sec].
  unfold u64_of_f64. rewrite Ht, (proj2 (Z.leb_le 0 t)), (proj2 (Z.ltb_lt t (2 ^ 64))) by lia.
  cbn [andb]. rewrite i64_small by (unfold is_i64; lia).
  rewrite Hmax, (proj2 (Z.ltb_lt (ck_uptime ck + 600) t)) by lia. cbn [andb Z.ltb]. refused.
Qed.
End steps.

(** * A concrete event *)

Section example.
#[local] Open Scope string_scope.

Definition event_tree (created_at : Z) : jval :=
  JObj [("id", JStr (hex_id "0")); ("pubkey", JStr (hex_id "c"));
        ("kind", JInt 1); ("created_at", JInt created_at);
        ("content", JStr "hello"); ("sig", JStr (hex_id "d" +:+ hex_id "d"))].

(** Any text but a [REQ] message parses to the event. *)
Definition req_tree : jval := JArr [JStr "REQ"; JStr "sub"; JObj []].
Definition json_event (created_at : Z) : CJson jval :=
  tree_json (λ s, Some (if bool_decide (s = "[REQ]") then req_tree else event_tree created_at)).
End example.

Definition relay_example : relay_ctx_t := local_relay_init (store_empty 20).
Definition clocks_example : clocks := mk_clocks 5 5 1700000000.
(** The hash of everything is zero, every signature verifies. *)
Definition sha_zero : list Z → list Z := λ _, replicate 32 0.
Definition schnorr_true : list Z → list Z → list Z → bool := λ _ _ _, true.

Definition event_run (created_at : Z) : option (Z * relay_ctx_t * list sent) :=
  @handle_event cundef_zero jval (json_event created_at) id sha_zero schnorr_true true (λ _, true)
    clocks_example 54 (event_json "0" "1") relay_example.

(** An event of the first minutes after start-up is taken. *)
Example early_event_accepted :
  (λ r, (r.1.1, events (rc_storage r.1.2))) <$> event_run 300 =
  Some (0, [(replicate 32 0, Some (event_json "0" "1"))]).
Proof. vm_compute. reflexivity. Qed.


(** One of today is refused. *)
Lemma dated_events_refused_witness :
  ∃ c' out, event_run 1700000000 = Some (-1, c', out) ∧
    rc_storage c' = rc_storage relay_example.
Proof.
  destruct (event_run 1700000000) as [[[ret c'] out]|] eqn:He;
    [|exfalso; revert He; vm_compute; discriminate].
  pose proof (@dated_events_refused cundef_zero jval (json_event 1700000000) id sha_zero schnorr_true
                true (λ _, true) clocks_example 54 (event_json "0" "1")
                (event_tree 1700000000) (JInt 1700000000) 1700000000 relay_example ret c' out
                eq_refl eq_refl eq_refl ltac:(vm_compute; reflexivity) ltac:(lia)
                ltac:(simpl; lia) He) as (-> & Hs & _).
  exists c', out. split; [reflexivity|exact Hs].
Defined.

(** A connection opens and subscribes. *)
Definition relay_after_open : relay_ctx_t :=
  with_ws relay_example (on_open 5 None 54 (rc_ws_server relay_example)).2.
Definition relay_after_req : option (relay_ctx_t * list sent) :=
  @on_ws_message cundef_zero jval (json_event 300) id sha_zero schnorr_true Some true (λ _, true)
    clocks_example 54 "[REQ]" relay_after_open.

Example req_subscribes :
  (λ r, sub_manager_count 54 (rc_sub_manager r.1)) <$> relay_after_req = Some 1.
Proof. vm_compute. reflexivity. Qed.


(** An event whose [id] is a number makes the relay read through NULL. *)
Theorem numeric_id_crashes :
  @handle_event cundef_zero jval
    (tree_json (λ _, Some (JObj [("id", JInt 1); ("pubkey", JInt 1); ("kind", JInt 1);
                                 ("created_at", JInt 1)]%string)))
    id sha_zero schnorr_true true (λ _, true) clocks_example 54 "" relay_example = None.
Proof. vm_compute. reflexivity. Qed.

(** An [e] tag deletes an event whatever key the deleter has. *)
Theorem e_tag_ignores_author (nvs_ok : bool) (st : del_state) :
  @delete_e_tag jval (tree_json (λ _, None)) nvs_ok st
    (JArr [JStr "e"; JStr (hex_id "a")]%string) = delete_id nvs_ok st (replicate 32 0xAA).
Proof. reflexivity. Qed.
