(* ===== verification/Validator.v ===== *)
(** The parts of the relay's validation that rest on libsecp256k1
    (components/wisp_relay/relay_validator.c): the check of the identifier and of the
    signature, the check of an event's fields and the texts of its results.  The library's
    context, keys and verification are parameters; [Relay] takes the check of a signature
    as a function, which is [verify_schnorr_sig] here. *)

From S2P Require Import Prelude CStr Json Storage Relay.
#[local] Open Scope Z_scope.

Inductive validation_result_t :=
| VALIDATION_OK | VALIDATION_ERR_SCHEMA | VALIDATION_ERR_ID | VALIDATION_ERR_SIG | VALIDATION_ERR_EXPIRED
| VALIDATION_ERR_FUTURE | VALIDATION_ERR_DUPLICATE | VALIDATION_ERR_POW | VALIDATION_ERR_BLOCKED | VALIDATION_ERR_TOO_OLD.

(** [validator_config_t], of which only the bound on future times is looked at. *)
Record validator_config_t := mk_validator_config {
  vc_max_event_age_sec : Z; vc_max_future_sec : Z; vc_min_pow_difficulty : Z; vc_check_duplicates : bool
}.

Definition relay_validator_result_string (result : validation_result_t) : string :=
  match result with
  | VALIDATION_OK => "ok"
  | VALIDATION_ERR_SCHEMA => "invalid: schema"
  | VALIDATION_ERR_ID => "invalid: event id"
  | VALIDATION_ERR_SIG => "invalid: signature"
  | VALIDATION_ERR_EXPIRED => "invalid: expired"
  | VALIDATION_ERR_FUTURE => "invalid: future"
  | VALIDATION_ERR_DUPLICATE => "duplicate"
  | VALIDATION_ERR_POW => "pow: insufficient"
  | VALIDATION_ERR_BLOCKED => "blocked"
  | VALIDATION_ERR_TOO_OLD => "invalid: too old"
  end.

Section validator.
Context `{CUndef} `{CJson J} (cJSON_Duplicate : J → jval) (mbedtls_sha256 : list Z → list Z).
(** Whether there is memory for a context; the keys of the library. *)
Context {xonly : Type} (context_ok : bool) (xonly_pubkey_parse : list Z → option xonly)
  (schnorrsig_verify : list Z → list Z → xonly → bool).

(** [None]: a missing field is read through NULL. *)
Definition verify_event_id (event_json : string) (expected_id : list Z) : option bool :=
  match cJSON_Parse event_json with
  | None => Some false
  | Some obj =>
      serialized ← serialize_event_for_id cJSON_Duplicate obj;
      Some (bool_decide (mbedtls_sha256 (str_bytes serialized) = expected_id))
  end.

Definition verify_schnorr_sig (pubkey msg sig : list Z) : bool :=
  context_ok && match xonly_pubkey_parse pubkey with
                | Some xonly_pub => schnorrsig_verify sig msg xonly_pub
                | None => false
                end.

(** [now]: the seconds since the start. *)
Definition relay_validator_check (now : Z) (id pubkey : list Z) (created_at : Z) (sig : list Z)
    (config : option validator_config_t) : validation_result_t :=
  let future := match config with
                | Some c => (0 <? vc_max_future_sec c) && (now + vc_max_future_sec c <? i64 created_at)
                | None => false
                end in
  if future then VALIDATION_ERR_FUTURE else
  if negb (verify_schnorr_sig pubkey id sig) then VALIDATION_ERR_SIG else VALIDATION_OK.

(** An event that the relay takes has the identifier of its text, a public key that is a
    point of the curve, and a signature of the identifier by that key; so it also passes
    the check of its fields unless it is dated too far ahead. *)
Theorem valid_event_checks now created_at config event_json :
  relay_validator_verify_event cJSON_Duplicate mbedtls_sha256 verify_schnorr_sig event_json = Some true →
  ∃ id pubkey sig key, verify_event_id event_json id = Some true ∧ xonly_pubkey_parse pubkey = Some key ∧
    schnorrsig_verify sig id key = true ∧
    (relay_validator_check now id pubkey created_at sig config = VALIDATION_OK ∨
     ∃ c, config = Some c ∧ 0 < vc_max_future_sec c < i64 created_at - now).
Proof.
  intros Hv. apply verify_signed in Hv as (obj & ser & ? & ? & ? & id & pk & sg & Hp & Hs & _ & _ & _ & _ & _ & _ & Hid & Hok).
  unfold verify_schnorr_sig in Hok. apply andb_true_iff in Hok as [Hc Hok].
  destruct (xonly_pubkey_parse pk) as [key|] eqn:Hk; [|done]. exists id, pk, sg, key. split_and!; [|done|done|].
  - unfold verify_event_id. rewrite Hp, Hs. cbn. by rewrite bool_decide_true.
  - unfold relay_validator_check, verify_schnorr_sig. rewrite Hc, Hk, Hok. cbn [andb negb].
    destruct config as [c|]; [|by left]. destruct (_ && _) eqn:E; [|by left]. right. exists c. split; [done|]. bool_hyps. lia.
Qed.
End validator.
