(* ===== verification/StratumProxy.v ===== *)
(** The Stratum proxy for the gate's own miners (tollgate_core_stratum_proxy.c):
    the table of miners, the messages of a miner, the check of a share's proof
    of work and the reports.  Sockets, tasks and the mutex are not modelled: a
    function gives the texts it sends and the shares it reports; [malloc]
    succeeds.  Every text is shorter than its buffer. *)

From S2P Require Import Prelude CStr F64 Dns Firewall Session Mining.
From stdpp Require Import relations.
#[local] Open Scope Z_scope.

Definition TOLLGATE_PROXY_MAX_MINERS : nat := 8.
Definition RECV_BUF_SIZE : nat := 1024.

(** * State *)

Record tollgate_stratum_job_t := mk_stratum_job {
  jb_job_id : Z;
  jb_prevhash : list Z;
  jb_merkle_root : list Z;
  jb_ntime : Z;
  jb_nbits : Z;
  jb_version : Z;
  jb_target : list Z;
  jb_target_len : Z;
  jb_valid : bool;
  jb_clean : bool
}.

Definition stratum_job_zero : tollgate_stratum_job_t :=
  mk_stratum_job 0 (replicate 32 0) (replicate 32 0) 0 0 0 (replicate 32 0) 0 false false.

Record tollgate_stratum_proxy_stats_t := mk_proxy_stats {
  px_hashrate_ghs : f64;
  px_nbits : Z;
  px_total_shares : Z;
  px_total_accepted : Z;
  px_total_rejected : Z;
  px_current_hashprice : f64;
  px_active_miners : Z
}.

Definition proxy_stats_zero : tollgate_stratum_proxy_stats_t :=
  mk_proxy_stats f64_zero 0 0 0 0 f64_zero 0.

(** A slot with a negative descriptor is free. *)
Record miner_client_t := mk_miner {
  mr_fd : Z;
  mr_ip : Z;
  mr_worker : string;
  mr_authorized : bool;
  mr_req_id : Z
}.

Definition miner_free : miner_client_t := mk_miner (-1) 0 "" false 0.

Record proxy_state := mk_proxy_state {
  sp_current_job : tollgate_stratum_job_t;
  sp_stats : tollgate_stratum_proxy_stats_t;
  sp_difficulty : f64;
  sp_share_cb : bool;
  sp_miners : list miner_client_t;
  sp_mining : mining_state
}.

Definition with_stats (s : proxy_state) (st : tollgate_stratum_proxy_stats_t) : proxy_state :=
  mk_proxy_state (sp_current_job s) st (sp_difficulty s) (sp_share_cb s) (sp_miners s) (sp_mining s).
Definition with_miners (s : proxy_state) (m : list miner_client_t) : proxy_state :=
  mk_proxy_state (sp_current_job s) (sp_stats s) (sp_difficulty s) (sp_share_cb s) m (sp_mining s).
Definition with_mining (s : proxy_state) (m : mining_state) : proxy_state :=
  mk_proxy_state (sp_current_job s) (sp_stats s) (sp_difficulty s) (sp_share_cb s) (sp_miners s) m.

Definition count_share (st : tollgate_stratum_proxy_stats_t) (shares accepted rejected active : Z)
  : tollgate_stratum_proxy_stats_t :=
  mk_proxy_stats (px_hashrate_ghs st) (px_nbits st) (u64 (px_total_shares st + shares))
    (u64 (px_total_accepted st + accepted)) (u64 (px_total_rejected st + rejected))
    (px_current_hashprice st) (px_active_miners st + active).

(** What the proxy does to the outside. *)
Inductive proxy_event :=
| EvSend (fd : Z) (text : string)
| EvShare (ip job_id nonce ntime version : Z).

(** * The table of miners *)

Definition broadcast_to_miners (msg : string) (s : proxy_state) : list proxy_event :=
  (λ m, EvSend (mr_fd m) msg) <$>
    List.filter (λ m, (0 <=? mr_fd m) && mr_authorized m) (sp_miners s).

Definition register_miner (fd ip : Z) (s : proxy_state) : option (nat * proxy_state) :=
  match find_slot (λ m, mr_fd m <? 0) (sp_miners s) with
  | Some i => Some (i, with_miners s (<[i := mk_miner fd ip "" false 0]> (sp_miners s)))
  | None => None
  end.

Definition find_miner (fd : Z) (s : proxy_state) : option nat :=
  find_slot (λ m, mr_fd m =? fd) (sp_miners s).

Definition unregister_miner (fd : Z) (s : proxy_state) : proxy_state :=
  match find_miner fd s with
  | Some i =>
      with_stats
        (with_miners s (alter (λ m, mk_miner (-1) (mr_ip m) (mr_worker m) false (mr_req_id m)) i
                          (sp_miners s)))
        (count_share (sp_stats s) 0 0 0 (-1))
  | None => s
  end.

Section proxy.
Context `{CUndef}.
Variable mbedtls_sha256 : list Z → list Z.
(** [%.1f] *)
Variable print_f1 : f64 → string.

(** * Proof of work *)

Definition pdiff_max : f64 := f64_of_Z 0xFFFF0000.

(** The eight low bytes of [target_val], most significant first. *)
Definition target_of_val (target_val : Z) : list Z := put_be 8 target_val ++ replicate 24 0.

Definition build_target_from_difficulty (diff : f64) : list Z :=
  if f64_le diff f64_zero || f64_lt (f64_of_Z 1000000000000000) diff then replicate 32 0xFF else
  if f64_le pdiff_max diff then replicate 7 0 ++ [0xFF] ++ replicate 24 0 else
  let target_val := u64_of_f64 (f64_div pdiff_max diff) in
  target_of_val (if target_val =? 0 then 1 else target_val).

(** Compare byte after byte: the loop of [check_pow]. *)
Fixpoint compare_bytes (hash_be target : list Z) : bool :=
  match hash_be, target with
  | h :: hs, t :: ts =>
      if h <? t then true else if t <? h then false else compare_bytes hs ts
  | _, _ => true
  end.

Definition sha256d (data : list Z) : list Z := mbedtls_sha256 (mbedtls_sha256 data).

Definition check_pow (header target : list Z) : bool :=
  compare_bytes (rev (sha256d header)) target.

Definition build_header (job : tollgate_stratum_job_t) (nonce ntime version : Z) : list Z :=
  put_be 4 version ++ jb_prevhash job ++ jb_merkle_root job
  ++ put_be 4 ntime ++ put_be 4 (jb_nbits job) ++ put_be 4 nonce.

(** * Messages to a miner *)

Definition nl : string := String (chr 10) "".

Definition send_response (fd id : Z) (result : string) (error : bool) : proxy_event :=
  EvSend fd
    (if error
     then "{" +:+ dq "id" +:+ ":" +:+ print_u id +:+ "," +:+ dq "result" +:+ ":null,"
          +:+ dq "error" +:+ ":[20," +:+ dq result +:+ "]}" +:+ nl
     else "{" +:+ dq "id" +:+ ":" +:+ print_u id +:+ "," +:+ dq "result" +:+ ":" +:+ result
          +:+ "," +:+ dq "error" +:+ ":null}" +:+ nl)%string.

Definition notify_text (job : tollgate_stratum_job_t) : string :=
  ("{" +:+ dq "id" +:+ ":null," +:+ dq "method" +:+ ":" +:+ dq "mining.notify" +:+ ","
   +:+ dq "params" +:+ ":[" +:+ dq (print_u (jb_job_id job)) +:+ ","
   +:+ dq (hex_bytes (jb_prevhash job)) +:+ "," +:+ dq "" +:+ "," +:+ dq "" +:+ "," +:+ dq ""
   +:+ "," +:+ dq (hex8 (jb_version job)) +:+ "," +:+ dq (hex8 (jb_nbits job)) +:+ ","
   +:+ dq (hex8 (jb_ntime job)) +:+ "," +:+ (if jb_clean job then "true" else "false") +:+ "]}"
   +:+ nl)%string.

Definition difficulty_text (difficulty : f64) : string :=
  ("{" +:+ dq "id" +:+ ":null," +:+ dq "method" +:+ ":" +:+ dq "mining.set_difficulty" +:+ ","
   +:+ dq "params" +:+ ":[" +:+ print_f1 difficulty +:+ "]}" +:+ nl)%string.

Definition handle_subscribe (fd : Z) (miner : miner_client_t) (id : Z) (s : proxy_state)
  : list proxy_event :=
  EvSend fd ("{" +:+ dq "id" +:+ ":" +:+ print_u id +:+ "," +:+ dq "result" +:+ ":[[["
             +:+ dq "mining.notify" +:+ "," +:+ dq (hex8 (mr_ip miner)) +:+ "]],"
             +:+ dq (hex8 (Z.lxor (mr_ip miner) 0x5a5a5a5a)) +:+ ",8]," +:+ dq "error"
             +:+ ":null}" +:+ nl)%string
  :: (if jb_valid (sp_current_job s) then [EvSend fd (notify_text (sp_current_job s))] else []).

Definition handle_set_difficulty (fd : Z) (s : proxy_state) : list proxy_event :=
  [EvSend fd (difficulty_text (sp_difficulty s))].

(** * Messages of a miner *)

(** What follows the first occurrence of [key] in [s], and from it on. *)
Definition from_key (key s : string) : option string := (λ i, str_drop i s) <$> strstr key s.
Definition after (key s : string) : option string :=
  (λ i, str_drop (i + String.length key) s) <$> strstr key s.

(** Characters up to a quote or the end, at most 63. *)
Definition until_quote (s : string) : string :=
  str_take 63 (match strchr (chr 34) s with Some i => str_take i s | None => s end).

Fixpoint skip_while (p : ascii → bool) (s : string) : string :=
  match s with
  | String c s' => if p c then skip_while p s' else s
  | EmptyString => s
  end.

Definition is_blank (c : ascii) : bool := Ascii.eqb c " ".
Definition is_quote (c : ascii) : bool := Ascii.eqb c (chr 34).

Definition line_method (line : string) : option string :=
  method_start ← from_key (dq "method") line;
  until_quote <$> after (String (chr 34) (":" +:+ String (chr 34) "")) method_start.

Definition line_id (line : string) : Z :=
  match from_key (dq "id") line ≫= after ":" with
  | Some id_val => u32 (strtoul10 (skip_while is_blank id_val))
  | None => 0
  end.

(** What follows the bracket that opens the parameters. *)
Definition line_params (line : string) : option string :=
  from_key (dq "params") line ≫= after "[".

Definition line_worker (line : string) (old : string) : string :=
  match line_params line with
  | Some p => until_quote (skip_while (λ c, is_blank c || is_quote c) p)
  | None => old
  end.

(** [strtok] at commas: the non-empty pieces. *)
Fixpoint split_commas (s cur : string) : list string :=
  let piece := if str_empty cur then [] else [cur] in
  match s with
  | EmptyString => piece
  | String c s' =>
      if Ascii.eqb c "," then piece ++ split_commas s' ""
      else split_commas s' (cur +:+ String c "")
  end.

(** One piece without leading blanks and quotes and, except for its first
    character, without trailing blanks, quotes and brackets. *)
Fixpoint trim_end (s : string) : string :=
  match s with
  | EmptyString => ""
  | String c s' =>
      match trim_end s' with
      | EmptyString =>
          if is_quote c || is_blank c || Ascii.eqb c "]" then "" else String c ""
      | t => String c t
      end
  end.
Definition trim_token (tok : string) : string :=
  match skip_while (λ c, is_blank c || is_quote c) tok with
  | String c s' => String c (trim_end s')
  | EmptyString => ""
  end.

Record submit_params := mk_submit { sm_job_id : Z; sm_ntime : Z; sm_nonce : Z; sm_version : Z }.

Definition submit_token (version : Z) (toks : list string) : submit_params :=
  let num i f d := match toks !! i with Some t => u32 (f t) | None => d end in
  mk_submit (num 1%nat strtoul10 0) (num 2%nat strtoul16 0) (num 3%nat strtoul16 0)
    (num 4%nat strtoul16 version).

Definition parse_submit (version : Z) (line : string) : submit_params :=
  match line_params line with
  | Some p => submit_token version (trim_token <$> take 5 (split_commas p ""))
  | None => mk_submit 0 0 0 version
  end.

(** The share check of [mining.submit]: the reason for a rejection, or none. *)
Definition share_verdict (s : proxy_state) (p : submit_params) : option string :=
  if negb (sm_job_id p =? jb_job_id (sp_current_job s)) then Some "stale job"%string
  else if check_pow (build_header (sp_current_job s) (sm_nonce p) (sm_ntime p) (sm_version p))
            (build_target_from_difficulty (sp_difficulty s))
       then None else Some "low difficulty"%string.

Definition handle_submit (now fd : Z) (miner : miner_client_t) (id : Z) (line : string)
    (s : proxy_state) : proxy_state * list proxy_event :=
  if negb (jb_valid (sp_current_job s)) then
    (with_stats s (count_share (sp_stats s) 1 0 1 0), [send_response fd id "no current job" true])
  else
  let p := parse_submit (jb_version (sp_current_job s)) line in
  match share_verdict s p with
  | None =>
      let s1 := with_stats s (count_share (sp_stats s) 1 1 0 0) in
      (with_mining s1 (tollgate_core_mining_update_hashrate now (mr_ip miner) true (sp_mining s1)),
       send_response fd id "true" false
       :: (if sp_share_cb s
           then [EvShare (mr_ip miner) (sm_job_id p) (sm_nonce p) (sm_ntime p) (sm_version p)]
           else []))
  | Some reason =>
      let s1 := with_stats s (count_share (sp_stats s) 1 0 1 0) in
      (if bool_decide (reason = "low difficulty"%string)
       then with_mining s1
              (tollgate_core_mining_update_hashrate now (mr_ip miner) false (sp_mining s1))
       else s1,
       [send_response fd id reason true])
  end.

(** One line of the miner in slot [i]. *)
Definition handle_line (now fd : Z) (i : nat) (line : string) (s : proxy_state)
  : proxy_state * list proxy_event :=
  match sp_miners s !! i, line_method line with
  | Some miner, Some method =>
      let id := line_id line in
      if bool_decide (method = "mining.subscribe"%string) then
        (s, handle_subscribe fd miner id s ++ handle_set_difficulty fd s)
      else if bool_decide (method = "mining.authorize"%string) then
        (with_miners s (<[i := mk_miner (mr_fd miner) (mr_ip miner)
                                 (line_worker line (mr_worker miner)) true (mr_req_id miner)]>
                          (sp_miners s)),
         [send_response fd id "true" false])
      else if bool_decide (method = "mining.submit"%string) then
        handle_submit now fd miner id line s
      else if bool_decide (method = "mining.extranonce.subscribe"%string)
              || bool_decide (method = "mining.suggest_difficulty"%string) then
        (s, [send_response fd id "true" false])
      else (s, [send_response fd id "unknown method" true])
  | _, _ => (s, [])
  end.

(** The pieces of what one [recv] gave, ended by a line feed, a carriage return
    or the end of what was received. *)
Fixpoint split_lines (s cur : string) : list string :=
  let piece := if str_empty cur then [] else [cur] in
  match s with
  | EmptyString => piece
  | String c s' =>
      if Ascii.eqb c (chr 10) || Ascii.eqb c (chr 13) then piece ++ split_lines s' ""
      else split_lines s' (cur +:+ String c "")
  end.

Definition handle_received (now fd : Z) (i : nat) (data : string) (s : proxy_state)
  : proxy_state * list proxy_event :=
  foldl (λ st line, let '(s', ev) := handle_line now fd i line st.1 in (s', st.2 ++ ev))
    (s, []) (split_lines (str_take (RECV_BUF_SIZE - 1) data) "").

(** * Connections, jobs and reports *)

(** A connection accepted: a slot, or the connection is closed. *)
Definition accept_miner (fd ip : Z) (s : proxy_state) : proxy_state :=
  match register_miner fd ip s with
  | Some (_, s1) => with_stats s1 (count_share (sp_stats s1) 0 0 0 1)
  | None => s
  end.

(** The state part of the initialisation, when the server was not running. *)
Definition tollgate_core_stratum_proxy_init (share_cb : bool) (m : mining_state) : proxy_state :=
  mk_proxy_state stratum_job_zero proxy_stats_zero (f64_of_Z 1) share_cb
    (replicate TOLLGATE_PROXY_MAX_MINERS miner_free) m.

Definition tollgate_core_stratum_proxy_set_job (job : tollgate_stratum_job_t) (s : proxy_state)
  : proxy_state * list proxy_event :=
  let st := sp_stats s in
  let s1 := mk_proxy_state job
    (mk_proxy_stats (px_hashrate_ghs st) (jb_nbits job) (px_total_shares st)
       (px_total_accepted st) (px_total_rejected st)
       (tollgate_core_mining_get_current_hashprice (sp_mining s)) (px_active_miners st))
    (sp_difficulty s) (sp_share_cb s) (sp_miners s) (sp_mining s) in
  (s1, if jb_valid job then broadcast_to_miners (notify_text job) s1 else []).

Definition tollgate_core_stratum_proxy_set_difficulty (difficulty : f64) (s : proxy_state)
  : proxy_state * list proxy_event :=
  let s1 := mk_proxy_state (sp_current_job s) (sp_stats s) difficulty (sp_share_cb s)
              (sp_miners s) (sp_mining s) in
  (s1, broadcast_to_miners (difficulty_text difficulty) s1).

Definition tollgate_core_stratum_proxy_get_stats (s : proxy_state) : tollgate_stratum_proxy_stats_t :=
  let st := sp_stats s in
  mk_proxy_stats (px_hashrate_ghs st) (px_nbits st) (px_total_shares st) (px_total_accepted st)
    (px_total_rejected st) (tollgate_core_mining_get_current_hashprice (sp_mining s))
    (px_active_miners st).
End proxy.

(** * Proof of work *)

(** The loop compares the two as big-endian numbers. *)
Lemma compare_bytes_spec h t :
  Forall is_u8 h → Forall is_u8 t → length h = length t →
  compare_bytes h t = (get_be h <=? get_be t).
Proof.
  intros Hh. revert t. induction Hh as [|a h Ha Hh IH]; intros [|b t] Ht Hl; try done.
  apply Forall_cons in Ht as [Hb Ht]. injection Hl as Hl. cbn [compare_bytes].
  rewrite !get_be_cons, Hl. pose proof (get_be_range h Hh) as Hrh. pose proof (get_be_range t Ht) as Hrt.
  rewrite Hl in Hrh. set (w := 256 ^ Z.of_nat (length t)) in *.
  destruct (a <? b) eqn:Hab; bool_hyps; [symmetry; apply Z.leb_le; nia|].
  destruct (b <? a) eqn:Hba; bool_hyps; [symmetry; apply Z.leb_gt; nia|].
  assert (a = b) as -> by lia. rewrite (IH t Ht Hl).
  destruct (get_be h <=? get_be t) eqn:Hle; bool_hyps; symmetry;
    [apply Z.leb_le|apply Z.leb_gt]; lia.
Qed.

Lemma get_be_app_zeros l n :
  get_be (l ++ replicate n 0) = get_be l * 256 ^ Z.of_nat n.
Proof.
  induction n as [|n IH]; [rewrite app_nil_r; simpl; lia|].
  rewrite replicate_S_end, app_assoc, get_be_app, IH, Nat2Z.inj_succ, Z.pow_succ_r by lia. lia.
Qed.

Definition sha256_bytes (sha : list Z → list Z) : Prop :=
  ∀ data, length (sha data) = 32%nat ∧ Forall is_u8 (sha data).

(** The number a hash may not exceed at a difficulty. *)
Definition target_number `{CUndef} (diff : f64) : Z :=
  if f64_le diff f64_zero || f64_lt (f64_of_Z 1000000000000000) diff then 2 ^ 256 - 1
  else if f64_le pdiff_max diff then 255 * 2 ^ 192
  else Z.max 1 (u64_of_f64 (f64_div pdiff_max diff)) * 2 ^ 192.

Lemma build_target_bytes `{CUndef} diff :
  length (build_target_from_difficulty diff) = 32%nat ∧
  Forall is_u8 (build_target_from_difficulty diff) ∧
  get_be (build_target_from_difficulty diff) = target_number diff.
Proof.
  unfold build_target_from_difficulty, target_number.
  destruct (_ || _); [split_and!; [done|by repeat constructor|done]|].
  destruct (f64_le pdiff_max diff); [split_and!; [done|by repeat constructor|done]|].
  pose proof (u64_of_f64_range (f64_div pdiff_max diff)) as Hr. unfold is_u64 in Hr.
  set (v := u64_of_f64 _) in *. unfold target_of_val. split_and!.
  - by rewrite length_app, length_put_be, length_replicate.
  - apply Forall_app. split; [apply put_be_bytes|apply Forall_replicate; unfold is_u8; lia].
  - rewrite get_be_app_zeros, get_put_be. change (256 ^ Z.of_nat 24) with (2 ^ 192).
    change (256 ^ Z.of_nat 8) with (2 ^ 64).
    destruct (v =? 0) eqn:Hz; bool_hyps; rewrite Z.mod_small by lia; f_equal; lia.
Qed.

(** * The proxy over time *)

Section steps.
Context `{CUndef} (sha : list Z → list Z) (print_f1 : f64 → string).

Definition occupied (m : miner_client_t) : bool := 0 <=? mr_fd m.

Definition proxy_inv (s : proxy_state) : Prop :=
  length (sp_miners s) = TOLLGATE_PROXY_MAX_MINERS ∧
  px_total_shares (sp_stats s) = u64 (px_total_accepted (sp_stats s) + px_total_rejected (sp_stats s)) ∧
  px_active_miners (sp_stats s) = Z.of_nat (count_slots occupied (sp_miners s)) ∧
  mining_wf (sp_mining s).

(** One task serves one miner after the other: a connection is accepted, its
    data handled, and it is closed; a new job comes from another task. *)
Inductive proxy_step : proxy_state → proxy_state → Prop :=
| step_accept s fd ip : 0 <= fd → proxy_step s (accept_miner fd ip s)
| step_received s now fd i data :
    proxy_step s (handle_received sha print_f1 now fd i data s).1
| step_disconnect s fd : 0 <= fd → proxy_step s (unregister_miner fd s)
| step_set_job s job : proxy_step s (tollgate_core_stratum_proxy_set_job job s).1
| step_set_difficulty s d :
    proxy_step s (tollgate_core_stratum_proxy_set_difficulty print_f1 d s).1.

Lemma count_total st a b :
  px_total_shares st = u64 (px_total_accepted st + px_total_rejected st) →
  let st' := count_share st (a + b) a b 0 in
  px_total_shares st' = u64 (px_total_accepted st' + px_total_rejected st').
Proof. cbn. intros ->. unfold u64. zlia. Qed.

Lemma count_active st n :
  px_total_shares st = u64 (px_total_accepted st + px_total_rejected st) →
  px_total_shares (count_share st 0 0 0 n) =
    u64 (px_total_accepted (count_share st 0 0 0 n) + px_total_rejected (count_share st 0 0 0 n)).
Proof. cbn. intros ->. unfold u64. zlia. Qed.

Lemma active_after st a b c n :
  px_active_miners (count_share st a b c n) = px_active_miners st + n.
Proof. done. Qed.

(** A line changes the counters, a worker's name and the hash rates only. *)
Lemma handle_line_inv now fd i line s :
  proxy_inv s → proxy_inv (handle_line sha print_f1 now fd i line s).1.
Proof.
  intros (Hl & Ht & Ha & Hm). unfold handle_line.
  destruct (sp_miners s !! i) as [miner|] eqn:Hi; [|done].
  destruct (line_method line) as [method|]; [|done].
  case_bool_decide; [done|]. case_bool_decide.
  { split_and!; cbn [fst with_miners sp_miners sp_stats sp_mining]; try done.
    - by rewrite length_insert.
    - rewrite Ha. f_equal.
      pose proof (count_slots_insert occupied _ i miner
        (mk_miner (mr_fd miner) (mr_ip miner) (line_worker line (mr_worker miner)) true (mr_req_id miner))
        Hi) as Hc.
      change (occupied (mk_miner (mr_fd miner) _ _ _ _)) with (occupied miner) in Hc. lia. }
  case_bool_decide; [|destruct (_ || _); done].
  unfold handle_submit. destruct (negb (jb_valid _)).
  { split_and!; cbn [fst with_stats sp_stats sp_miners];
      [done|by apply (count_total _ 0 1)|by rewrite active_after, Z.add_0_r|done]. }
  destruct (share_verdict sha s _) as [reason|].
  - case_bool_decide; (split_and!; cbn [fst with_stats with_mining sp_stats sp_miners];
      [done|by apply (count_total _ 0 1)|by rewrite active_after, Z.add_0_r|]);
      [by apply update_hashrate_wf|done].
  - split_and!; cbn [fst with_stats with_mining sp_stats sp_miners];
      [done|by apply (count_total _ 1 0)|by rewrite active_after, Z.add_0_r|
       by apply update_hashrate_wf].
Qed.

Lemma handle_received_inv now fd i data s :
  proxy_inv s → proxy_inv (handle_received sha print_f1 now fd i data s).1.
Proof.
  intros Hs. unfold handle_received. generalize (split_lines (str_take (RECV_BUF_SIZE - 1) data) "").
  intros lines. assert (∀ ev, proxy_inv (foldl (λ st line,
      let '(s', ev') := handle_line sha print_f1 now fd i line st.1 in (s', st.2 ++ ev'))
      (s, ev) lines).1) as Hall; [|apply Hall].
  revert s Hs. induction lines as [|line lines IH]; intros s Hs ev; [done|]. cbn [foldl fst snd].
  pose proof (handle_line_inv now fd i line s Hs) as Hs'.
  destruct (handle_line sha print_f1 now fd i line s) as [s' ev']. by apply IH.
Qed.

Lemma proxy_step_inv s s' : proxy_inv s → proxy_step s s' → proxy_inv s'.
Proof.
  intros Hinv Hstep. destruct Hstep as [s fd ip Hfd|s now fd i data|s fd Hfd|s job|s d].
  - pose proof Hinv as (Hl & Ht & Ha & Hm). unfold accept_miner, register_miner.
    destruct (find_slot _ (sp_miners s)) as [i|] eqn:Hf; [|done].
    apply find_slot_Some in Hf as (x & Hx & Hneg & _). bool_hyps.
    split_and!; cbn [with_stats with_miners sp_miners sp_stats sp_mining]; try done.
    + by rewrite length_insert.
    + by apply count_active.
    + pose proof (count_slots_insert occupied _ i x (mk_miner fd ip "" false 0) Hx) as Hc.
      unfold occupied in Hc at 2 4. cbn [mr_fd] in Hc.
      rewrite (proj2 (Z.leb_gt 0 (mr_fd x))), (proj2 (Z.leb_le 0 fd)) in Hc by lia.
      cbn [Nat.b2n] in Hc. rewrite active_after. lia.
  - by apply handle_received_inv.
  - pose proof Hinv as (Hl & Ht & Ha & Hm). unfold unregister_miner, find_miner.
    destruct (find_slot _ (sp_miners s)) as [i|] eqn:Hf; [|done].
    apply find_slot_Some in Hf as (x & Hx & Heq & _). bool_hyps. subst fd.
    split_and!; cbn [with_stats with_miners sp_miners sp_stats sp_mining]; try done.
    + by rewrite length_alter.
    + by apply count_active.
    + rewrite (alter_insert_Some _ _ _ _ Hx).
      pose proof (count_slots_insert occupied _ i x
                    (mk_miner (-1) (mr_ip x) (mr_worker x) false (mr_req_id x)) Hx) as Hc.
      unfold occupied in Hc at 2 4. cbn [mr_fd] in Hc.
      rewrite (proj2 (Z.leb_le 0 (mr_fd x))) in Hc by lia. cbn [Z.leb Z.compare Nat.b2n] in Hc.
      rewrite active_after. lia.
  - done.
  - done.
Qed.
End steps.

(** * Properties *)

Section properties.
Context `{CUndef} (sha : list Z → list Z) (print_f1 : f64 → string).

Lemma pow_check_number header diff :
  sha256_bytes sha →
  check_pow sha header (build_target_from_difficulty diff) =
    (get_be (rev (sha256d sha header)) <=? target_number diff).
Proof.
  intros Hsha. destruct (build_target_bytes diff) as (Hl & Hb & <-).
  destruct (Hsha (sha header)) as [Hsl Hsb]. unfold check_pow, sha256d.
  apply compare_bytes_spec; [by apply Forall_rev|done|by rewrite length_rev, Hl].
Qed.


Lemma share_event_inv now fd i line s e :
  e ∈ (handle_line sha print_f1 now fd i line s).2 → (∀ d t, e ≠ EvSend d t) →
  ∃ miner, sp_miners s !! i = Some miner ∧ line_method line = Some "mining.submit"%string ∧
    sp_share_cb s = true ∧ jb_valid (sp_current_job s) = true ∧
    let p := parse_submit (jb_version (sp_current_job s)) line in
    share_verdict sha s p = None ∧
    e = EvShare (mr_ip miner) (sm_job_id p) (sm_nonce p) (sm_ntime p) (sm_version p).
Proof.
  unfold handle_line. destruct (sp_miners s !! i) as [miner|] eqn:Hm; [|by intros ?%elem_of_nil].
  destruct (line_method line) as [method|] eqn:Hl; [|by intros ?%elem_of_nil].
  intros Hin Hne. exists miner. split; [done|]. revert Hin.
  assert (∀ d t, e ∈ [EvSend d t] → False) as Hsend.
  { intros d t He%list_elem_of_singleton. by apply (Hne d t). }
  case_bool_decide.
  { cbn [snd]. unfold handle_subscribe, handle_set_difficulty. intros Hin. exfalso.
    rewrite elem_of_app, elem_of_cons in Hin. destruct Hin as [[He|Hin]|Hin].
    - by eapply Hne.
    - destruct (jb_valid _); [by eapply Hsend|by apply elem_of_nil in Hin].
    - by eapply Hsend. }
  case_bool_decide; [cbn [snd]; unfold send_response; intros Hin; exfalso; by eapply Hsend|].
  case_bool_decide as Hmeth;
    [|destruct (_ || _); cbn [snd]; unfold send_response; intros Hin; exfalso; by eapply Hsend].
  subst method. unfold handle_submit.
  destruct (jb_valid (sp_current_job s)); cbn [negb];
    [|cbn [snd]; unfold send_response; intros Hin; exfalso; by eapply Hsend].
  cbv zeta. destruct (share_verdict sha s _) as [reason|] eqn:Hv;
    cbn [snd]; unfold send_response; intros Hin; [exfalso; by eapply Hsend|].
  apply elem_of_cons in Hin as [He|Hin]; [exfalso; by eapply Hne|].
  destruct (sp_share_cb s); [|by apply elem_of_nil in Hin].
  apply list_elem_of_singleton in Hin. done.
Qed.

(** C38: A share is reported for reward only when it names the current job and
    its header hashes to at most the target; the report bears the address of
    the miner that sent it. *)
Theorem share_reported_only_with_pow now fd i line s ip job nonce ntime version :
  sha256_bytes sha →
  EvShare ip job nonce ntime version ∈ (handle_line sha print_f1 now fd i line s).2 →
  (mr_ip <$> sp_miners s !! i) = Some ip ∧ jb_valid (sp_current_job s) = true ∧
  job = jb_job_id (sp_current_job s) ∧
  get_be (rev (sha256d sha (build_header (sp_current_job s) nonce ntime version)))
    <= target_number (sp_difficulty s).
Proof.
  intros Hsha Hin. apply share_event_inv in Hin as (miner & -> & _ & _ & Hv & Hp); [|done].
  cbv zeta in Hp. destruct Hp as [Hverd [= -> -> -> -> ->]].
  set (p := parse_submit _ line) in *. unfold share_verdict in Hverd.
  destruct (negb _) eqn:Hj; [done|]. destruct (check_pow _ _ _) eqn:Hc; [|done]. bool_hyps.
  rewrite pow_check_number in Hc by done. bool_hyps. done.
Qed.

(** In every state the proxy reaches, the shares counted are those accepted
    and those rejected together (modulo 2^64), and the miners counted are the
    occupied slots, at most eight. *)
Theorem proxy_counters_consistent cb m s :
  mining_wf m →
  rtc (proxy_step sha print_f1) (tollgate_core_stratum_proxy_init cb m) s →
  px_total_shares (sp_stats s) =
    u64 (px_total_accepted (sp_stats s) + px_total_rejected (sp_stats s)) ∧
  px_active_miners (sp_stats s) = Z.of_nat (count_slots occupied (sp_miners s)) ∧
  0 <= px_active_miners (sp_stats s) <= Z.of_nat TOLLGATE_PROXY_MAX_MINERS.
Proof.
  intros Hm Hr. assert (proxy_inv s) as (Hl & Ht & Ha & _).
  { assert (proxy_inv (tollgate_core_stratum_proxy_init cb m)) as Hi by done.
    revert Hi. induction Hr as [|x y z Hxy _ IH]; [done|]. intros Hi.
    apply IH. by eapply proxy_step_inv. }
  split_and!; [done|done|lia|]. rewrite Ha, <- Hl.
  pose proof (count_slots_le occupied (sp_miners s)). lia.
Qed.

(** A share that was reported is reported again when it is sent again. *)
Theorem share_can_be_replayed now now' fd i line s ip job nonce ntime version :
  EvShare ip job nonce ntime version ∈ (handle_line sha print_f1 now fd i line s).2 →
  EvShare ip job nonce ntime version ∈
    (handle_line sha print_f1 now' fd i line (handle_line sha print_f1 now fd i line s).1).2.
Proof.
  intros Hin. apply share_event_inv in Hin as (miner & Hm & Hl & Hcb & Hv & Hp); [|done].
  cbv zeta in Hp. destruct Hp as [Hverd Heq]. unfold handle_line at 2.
  rewrite Hm, Hl. repeat (rewrite bool_decide_false by done). rewrite bool_decide_true by done.
  unfold handle_submit. rewrite Hv. cbn [negb fst]. rewrite Hverd. cbn [fst].
  set (s1 := with_mining _ _).
  assert (sp_miners s1 = sp_miners s ∧ sp_current_job s1 = sp_current_job s ∧
          sp_share_cb s1 = sp_share_cb s) as (Hm1 & Hj1 & Hcb1) by done.
  unfold handle_line. rewrite Hm1, Hm, Hl. repeat (rewrite bool_decide_false by done).
  rewrite bool_decide_true by done. unfold handle_submit. rewrite Hj1, Hv. cbn [negb].
  change (share_verdict sha s1) with (share_verdict sha s). rewrite Hverd. cbn [snd].
  rewrite Hcb1, Hcb, <- Heq. apply elem_of_cons. right. by apply list_elem_of_singleton.
Qed.
End properties.

(** At a difficulty from 0xFFFF0000 on the target is 255 times as easy as just
    below. *)
Theorem target_not_monotone :
  @target_number cundef_zero (f64_of_Z 0xFFFEFFFF) = 2 ^ 192 ∧
  @target_number cundef_zero (f64_of_Z 0xFFFF0000) = 255 * 2 ^ 192.
Proof. split; vm_compute; reflexivity. Qed.

(** * A concrete share *)

Definition sha_small : list Z → list Z := λ _, 1 :: replicate 31 0.
Lemma sha_small_bytes : sha256_bytes sha_small.
Proof. intros data. split; [done|]. by repeat constructor. Qed.

Definition job_example : tollgate_stratum_job_t :=
  mk_stratum_job 7 (replicate 32 0) (replicate 32 0) 0 0x1d00ffff 0x20000000
    (replicate 32 0xFF) 32 true false.
Definition proxy_example : proxy_state :=
  (tollgate_core_stratum_proxy_set_job job_example
     (accept_miner 50 0x0204A8C0 (tollgate_core_stratum_proxy_init true mining_boot))).1.
Definition submit_line : string :=
  ("{" +:+ dq "id" +:+ ":4," +:+ dq "method" +:+ ":" +:+ dq "mining.submit" +:+ ","
   +:+ dq "params" +:+ ":[" +:+ dq "w" +:+ "," +:+ dq "7" +:+ "," +:+ dq "0000000a" +:+ ","
   +:+ dq "0000000b" +:+ "," +:+ dq "20000000" +:+ "]}")%string.
Definition print_none : f64 → string := λ _, ""%string.


Lemma share_reported_only_with_pow_witness :
  EvShare 0x0204A8C0 7 11 10 0x20000000 ∈
    (@handle_line cundef_zero sha_small print_none 1000 50 0 submit_line proxy_example).2 ∧
  get_be (rev (sha256d sha_small (build_header job_example 11 10 0x20000000)))
    <= @target_number cundef_zero (f64_of_Z 1).
Proof.
  assert (EvShare 0x0204A8C0 7 11 10 0x20000000 ∈
    (@handle_line cundef_zero sha_small print_none 1000 50 0 submit_line proxy_example).2) as Hin
    by (vm_compute; right; left).
  split; [exact Hin|].
  apply (@share_reported_only_with_pow cundef_zero sha_small print_none 1000 50 0 submit_line
           proxy_example 0x0204A8C0 7 11 10 0x20000000 sha_small_bytes Hin).
Defined.

Lemma proxy_counters_consistent_witness :
  px_total_shares (sp_stats proxy_example) =
    u64 (px_total_accepted (sp_stats proxy_example) + px_total_rejected (sp_stats proxy_example)) ∧
  px_active_miners (sp_stats proxy_example) = 1.
Proof.
  pose proof (@proxy_counters_consistent cundef_zero sha_small print_none true mining_boot proxy_example
                mining_boot_wf
                (rtc_l _ _ _ _ (@step_accept cundef_zero sha_small print_none _ 50 0x0204A8C0 ltac:(lia))
                   (rtc_once _ _ (@step_set_job cundef_zero sha_small print_none _ job_example))))
    as (Ht & Ha & _).
  split; [exact Ht|]. rewrite Ha. vm_compute. reflexivity.
Defined.
