(* ===== verification/StratumClient.v ===== *)
(** The client of the upstream mining pool: the parsers and builders of
    tollgate_core_stratum_client.c and the message loop of
    main/stratum_client.c.  The transport is the stream of bytes received and
    the texts sent; a [None] result is a read through a NULL pointer or a write
    past a buffer, as noted. *)

From S2P Require Import Prelude CStr F64 Json Dns Firewall Session Mining StratumProxy.

Definition TG_STRATUM_MAX_TOKEN_LEN : nat := Z.to_nat 2048.

(** * Parsers *)

(** [out]: what the buffer holds before; the bytes it holds after. *)
Fixpoint tollgate_core_stratum_hex_to_bytes (hex : string) (out : list Z) : list Z :=
  match out, hex with
  | _ :: out', String a (String b hex') =>
      u8 (strtoul16 (String a (String b ""))) :: tollgate_core_stratum_hex_to_bytes hex' out'
  | _, _ => out
  end.

Section parsers.
Context `{CUndef} `{CJson J}.

Definition hex_word (o : option J) (d : Z) : Z :=
  match o ≫= str_of with Some s => u32 (strtoul16 s) | None => d end.

(** The outer option: a string is read through NULL; the inner one: the result
    [false].  The job with the difficulty bits, if they are set. *)
Definition tollgate_core_stratum_parse_notify (params : option J)
  : option (option (tollgate_stratum_job_t * option Z)) :=
  match params with
  | None => Some None
  | Some params =>
      if negb (cJSON_IsArray params) || (cJSON_GetArraySize params <? 6)%nat then Some None else
      match cJSON_GetArrayItem params 0, cJSON_GetArrayItem params 1, cJSON_GetArrayItem params 6 with
      | Some p_job_id, Some p_prevhash, Some p_nbits =>
          job_id ← str_of p_job_id;
          prevhash ← str_of p_prevhash;
          let nbits := (λ s, u32 (strtoul16 s)) <$> str_of p_nbits in
          Some (Some (mk_stratum_job (u32 (atoi job_id))
                        (tollgate_core_stratum_hex_to_bytes prevhash (replicate 32 0))
                        (replicate 32 0)
                        (hex_word (cJSON_GetArrayItem params 7) 0)
                        (default 0 nbits)
                        (hex_word (cJSON_GetArrayItem params 5) 0)
                        (replicate 32 0xFF) 32 true false, nbits))
      | _, _, _ => Some None
      end
  end.

Definition tollgate_core_stratum_parse_difficulty (params : option J) : option Z :=
  p ← params;
  if negb (cJSON_IsArray p) || (cJSON_GetArraySize p <? 1)%nat then None else
  u64_of_f64 <$> (cJSON_GetArrayItem p 0 ≫= num_of).

Definition tollgate_core_stratum_parse_token (params : option J) (token_out_size : nat)
  : option string :=
  p ← params;
  if negb (cJSON_IsArray p) || (cJSON_GetArraySize p <? 1)%nat then None else
  token ← cJSON_GetArrayItem p 0 ≫= str_of;
  if ((String.length token =? 0) || (token_out_size <=? String.length token))%nat then None
  else Some token.
End parsers.

(** * Builders *)

Definition tollgate_core_stratum_build_subscribe (req_id : Z) : string :=
  ("{" +:+ dq "id" +:+ ":" +:+ print_u req_id +:+ "," +:+ dq "method" +:+ ":"
   +:+ dq "mining.subscribe" +:+ "," +:+ dq "params" +:+ ":[" +:+ dq "TollGate/1.0" +:+ "]}"
   +:+ nl)%string.

Definition tollgate_core_stratum_build_authorize (req_id : Z) (user pass : string) : string :=
  ("{" +:+ dq "id" +:+ ":" +:+ print_u req_id +:+ "," +:+ dq "method" +:+ ":"
   +:+ dq "mining.authorize" +:+ "," +:+ dq "params" +:+ ":[" +:+ dq user +:+ "," +:+ dq pass
   +:+ "]}" +:+ nl)%string.

Definition tollgate_core_stratum_build_submit (req_id : Z) (user : string) (job_id : Z)
    (extranonce2_hex : string) (ntime nonce : Z) : string :=
  ("{" +:+ dq "id" +:+ ":" +:+ print_u req_id +:+ "," +:+ dq "method" +:+ ":"
   +:+ dq "mining.submit" +:+ "," +:+ dq "params" +:+ ":[" +:+ dq user +:+ ","
   +:+ dq (print_u job_id) +:+ "," +:+ dq extranonce2_hex +:+ "," +:+ dq (hex8 ntime) +:+ ","
   +:+ dq (hex8 nonce) +:+ "]}" +:+ nl)%string.

(** * The client *)

Record stratum_client_state_t := mk_stratum_client {
  cl_connected : bool;
  cl_pool_host : string;
  cl_pool_port : Z;
  cl_nbits : Z;
  cl_difficulty : Z;
  cl_shares_accepted : Z;
  cl_shares_rejected : Z;
  cl_extranonce2_size : Z;
  cl_subscribe_req_id : Z;
  cl_req_id : Z
}.

Record pool_config := mk_pool_config {
  stratum_host : string;
  stratum_port : Z;
  stratum_user : string;
  stratum_pass : string;
  (** The locking key of the identity, when it is initialised and not empty. *)
  locking_pubkey_hex : option string
}.

Inductive pool_event :=
| EvWrite (text : string)
| EvJob (job : tollgate_stratum_job_t)
| EvToken (token : string).

Definition stratum_client_init : stratum_client_state_t :=
  mk_stratum_client false "" 0 0 0 0 0 0 0 1.

(** [read_line]: bytes up to and with a line feed, at most [max_len - 1]; [None]
    when the stream ends before. *)
Fixpoint read_line (room : nat) (stream line : list Z) : option (list Z * list Z) :=
  match room with
  | O => Some (line, stream)
  | S room' =>
      match stream with
      | [] => None
      | b :: stream' =>
          if b =? 10 then Some (line ++ [b], stream') else read_line room' stream' (line ++ [b])
      end
  end.

Definition send_subscribe (s : stratum_client_state_t) : stratum_client_state_t * list pool_event :=
  (mk_stratum_client (cl_connected s) (cl_pool_host s) (cl_pool_port s) (cl_nbits s)
     (cl_difficulty s) (cl_shares_accepted s) (cl_shares_rejected s) (cl_extranonce2_size s)
     (cl_req_id s) (u32 (cl_req_id s + 1)),
   [EvWrite (tollgate_core_stratum_build_subscribe (cl_req_id s))]).

Definition next_req (s : stratum_client_state_t) : stratum_client_state_t :=
  mk_stratum_client (cl_connected s) (cl_pool_host s) (cl_pool_port s) (cl_nbits s)
    (cl_difficulty s) (cl_shares_accepted s) (cl_shares_rejected s) (cl_extranonce2_size s)
    (cl_subscribe_req_id s) (u32 (cl_req_id s + 1)).

Definition send_authorize (cfg : pool_config) (s : stratum_client_state_t)
  : stratum_client_state_t * list pool_event :=
  let password := str_take 255 (match locking_pubkey_hex cfg with
                                | Some k => stratum_pass cfg +:+ "." +:+ k
                                | None => stratum_pass cfg end)%string in
  (next_req s,
   [EvWrite (str_take 511 (tollgate_core_stratum_build_authorize (cl_req_id s)
                             (stratum_user cfg) password))]).

Definition with_connected (s : stratum_client_state_t) (c : bool) (host : string) (port : Z)
  : stratum_client_state_t :=
  mk_stratum_client c host port (cl_nbits s) (cl_difficulty s) (cl_shares_accepted s)
    (cl_shares_rejected s) (cl_extranonce2_size s) (cl_subscribe_req_id s) (cl_req_id s).

(** A connection made: the part of the task before the first read. *)
Definition stratum_connect (cfg : pool_config) (s : stratum_client_state_t)
  : stratum_client_state_t * list pool_event :=
  let s1 := with_connected s true (strncpy 127 (stratum_host cfg)) (stratum_port cfg) in
  let '(s2, e1) := send_subscribe s1 in
  let '(s3, e2) := send_authorize cfg s2 in
  (s3, e1 ++ e2).

Section client.
Context `{CUndef} `{CJson J}.

Definition handle_mining_notify (params : option J) (s : stratum_client_state_t)
  : option (stratum_client_state_t * list pool_event) :=
  r ← tollgate_core_stratum_parse_notify params;
  Some match r with
       | None => (s, [])
       | Some (job, nbits) =>
           let n := default 0 nbits in
           (mk_stratum_client (cl_connected s) (cl_pool_host s) (cl_pool_port s)
              (if n =? 0 then cl_nbits s else n) (cl_difficulty s) (cl_shares_accepted s)
              (cl_shares_rejected s) (cl_extranonce2_size s) (cl_subscribe_req_id s) (cl_req_id s),
            [EvJob job])
       end.

Definition handle_mining_set_difficulty (params : option J) (s : stratum_client_state_t)
  : stratum_client_state_t :=
  match tollgate_core_stratum_parse_difficulty params with
  | Some d =>
      mk_stratum_client (cl_connected s) (cl_pool_host s) (cl_pool_port s) (cl_nbits s) d
        (cl_shares_accepted s) (cl_shares_rejected s) (cl_extranonce2_size s)
        (cl_subscribe_req_id s) (cl_req_id s)
  | None => s
  end.

Definition handle_mining_token (params : option J) : list pool_event :=
  match tollgate_core_stratum_parse_token params TG_STRATUM_MAX_TOKEN_LEN with
  | Some token => [EvToken token]
  | None => []
  end.

Definition handle_subscribe_response (result : J) (req_id : Z) (s : stratum_client_state_t)
  : stratum_client_state_t :=
  if negb (req_id =? cl_subscribe_req_id s) then s else
  if negb (cJSON_IsArray result) || (cJSON_GetArraySize result <? 3)%nat then s else
  match cJSON_GetArrayItem result 2 with
  | Some item =>
      if bool_decide (is_Some (num_of item)) then
        mk_stratum_client (cl_connected s) (cl_pool_host s) (cl_pool_port s) (cl_nbits s)
          (cl_difficulty s) (cl_shares_accepted s) (cl_shares_rejected s) (int_of item)
          (cl_subscribe_req_id s) (cl_req_id s)
      else s
  | None => s
  end.

(** One line of the pool; [None]: a string is read through NULL. *)
Definition handle_pool_line (line : string) (s : stratum_client_state_t)
  : option (stratum_client_state_t * list pool_event) :=
  match cJSON_Parse line with
  | None => Some (s, [])
  | Some root =>
      let params := cJSON_GetObjectItem root "params" in
      '(s1, ev) ← match get_str root "method" with
                  | Some method =>
                      if bool_decide (method = "mining.notify"%string) then
                        handle_mining_notify params s
                      else if bool_decide (method = "mining.set_difficulty"%string) then
                        Some (handle_mining_set_difficulty params s, [])
                      else if bool_decide (method = "mining.token"%string) then
                        Some (s, handle_mining_token params)
                      else Some (s, [])
                  | None => Some (s, [])
                  end;
      Some (match cJSON_GetObjectItem root "id", cJSON_GetObjectItem root "result" with
            | Some id, Some result =>
                let failed := bool_decide (bool_of result = Some false)
                  || match cJSON_GetObjectItem root "error" with
                     | Some e => negb (cJSON_IsNull e) | None => false end in
                if failed then s1
                else if cJSON_IsArray result
                then handle_subscribe_response result (u32 (int_of id)) s1 else s1
            | _, _ => s1
            end, ev)
  end.
End client.

(** [None]: the extranonce does not fit its buffer of 65 bytes.  [written]:
    whether the transport takes the text. *)
Definition stratum_client_submit_share (cfg : pool_config) (written : bool)
    (job_id nonce ntime : Z) (s : stratum_client_state_t)
  : option (esp_err_t * stratum_client_state_t * list pool_event) :=
  if negb (cl_connected s) then Some (ESP_FAIL, s, []) else
  let en2_size := if 0 <? cl_extranonce2_size s then cl_extranonce2_size s else 8 in
  if 65 <=? en2_size * 2 then None else
  let extranonce2_hex := bytes_str (replicate (Z.to_nat (en2_size * 2)) 48) in
  let submit := tollgate_core_stratum_build_submit (cl_req_id s) (stratum_user cfg) job_id
                  extranonce2_hex ntime nonce in
  let s1 := next_req s in
  let count a r :=
    mk_stratum_client (cl_connected s1) (cl_pool_host s1) (cl_pool_port s1) (cl_nbits s1)
      (cl_difficulty s1) (u64 (cl_shares_accepted s1 + a)) (u64 (cl_shares_rejected s1 + r))
      (cl_extranonce2_size s1) (cl_subscribe_req_id s1) (cl_req_id s1) in
  Some (if written then (ESP_OK, count 1 0, [EvWrite submit]) else (ESP_FAIL, count 0 1, [])).

(** * Hexadecimal read back *)

Fixpoint hex_string (ds : list Z) : string :=
  match ds with [] => "" | d :: ds' => String (hex_digit d) (hex_string ds') end.

Definition is_hex (d : Z) : Prop := 0 <= d < 16.

Lemma is_hex_cases (P : Z → Prop) d :
  is_hex d → P 0 → P 1 → P 2 → P 3 → P 4 → P 5 → P 6 → P 7 → P 8 → P 9 → P 10 → P 11 → P 12 →
  P 13 → P 14 → P 15 → P d.
Proof.
  intros Hd. intros. rewrite <- (Z2Nat.id d) by (unfold is_hex in Hd; lia).
  assert (Z.to_nat d < 16)%nat as Hn by (unfold is_hex in Hd; lia). revert Hn.
  generalize (Z.to_nat d). intros n Hn. do 16 (destruct n as [|n]; [done|]). lia.
Qed.

Ltac hex_cases d Hd := pattern d; apply (is_hex_cases _ d Hd).

Lemma skip_space_hex d s : is_hex d → skip_space (String (hex_digit d) s) = String (hex_digit d) s.
Proof. intros Hd. hex_cases d Hd; reflexivity. Qed.

Lemma read_sign_hex d s : is_hex d → read_sign (String (hex_digit d) s) = (false, String (hex_digit d) s).
Proof. intros Hd. hex_cases d Hd; reflexivity. Qed.

Lemma skip_0x_hex d e s :
  is_hex d → is_hex e →
  skip_0x (String (hex_digit d) (String (hex_digit e) s)) = String (hex_digit d) (String (hex_digit e) s).
Proof.
  intros Hd He. destruct s as [|c s]; hex_cases e He; hex_cases d Hd; reflexivity.
Qed.

Ltac hex_list := repeat (apply Forall_cons_2; [done|]); (done || apply Forall_nil_2).

Lemma read_digits_hex ds acc :
  Forall is_hex ds → read_digits hex_val 16 acc (hex_string ds) = foldl (λ a d, a * 16 + d) acc ds.
Proof.
  intros Hds. revert acc. induction Hds as [|d ds Hd Hds IH]; intros acc; [done|].
  cbn [hex_string read_digits foldl]. rewrite hex_val_digit by done. apply IH.
Qed.

Lemma strtoul16_hex d e ds :
  is_hex d → is_hex e → Forall is_hex ds →
  let v := foldl (λ a d, a * 16 + d) 0 (d :: e :: ds) in
  v <= UINT32_MAX → strtoul16 (hex_string (d :: e :: ds)) = v.
Proof.
  intros Hd He Hds v Hv. unfold strtoul16, strtoul_digits. cbn [hex_string].
  rewrite skip_space_hex, read_sign_hex, skip_0x_hex by done.
  change (String (hex_digit d) (String (hex_digit e) (hex_string ds)))
    with (hex_string (d :: e :: ds)).
  rewrite read_digits_hex by hex_list. fold v.
  by rewrite (proj2 (Z.ltb_ge UINT32_MAX v)).
Qed.

Lemma strtoul16_hex2 b : is_u8 b → strtoul16 (hex2 b) = b.
Proof.
  unfold is_u8. pow_consts. intros Hb.
  change (hex2 b) with (hex_string [b / 16; b mod 16]).
  rewrite strtoul16_hex; [cbn [foldl]; zlia|unfold is_hex; zlia|unfold is_hex; zlia|constructor|].
  cbn [foldl]. unfold UINT32_MAX. zlia.
Qed.

Lemma strtoul16_hex8 w : is_u32 w → strtoul16 (hex8 w) = w.
Proof.
  unfold is_u32. intros Hw.
  set (b3 := w / 2 ^ 24 mod 256). set (b2 := w / 2 ^ 16 mod 256).
  set (b1 := w / 2 ^ 8 mod 256). set (b0 := w mod 256).
  assert (∀ b, 0 <= b < 256 → is_hex (b / 16) ∧ is_hex (b mod 16)) as Hhex
    by (intros; unfold is_hex; split; zlia).
  assert (0 <= b3 < 256 ∧ 0 <= b2 < 256 ∧ 0 <= b1 < 256 ∧ 0 <= b0 < 256) as (H3 & H2 & H1 & H0)
    by (unfold b3, b2, b1, b0; split_and!; apply Z.mod_pos_bound; lia).
  assert (w = ((b3 * 256 + b2) * 256 + b1) * 256 + b0) as Hwb.
  { unfold b3, b2, b1, b0. change (2 ^ 24) with (256 * 256 * 256). change (2 ^ 16) with (256 * 256).
    change (2 ^ 8) with 256. pow_consts. clear -Hw. Z.to_euclidean_division_equations. lia. }
  change (hex8 w) with (hex_string [b3 / 16; b3 mod 16; b2 / 16; b2 mod 16; b1 / 16; b1 mod 16;
                                    b0 / 16; b0 mod 16]).
  destruct (Hhex b3 H3), (Hhex b2 H2), (Hhex b1 H1), (Hhex b0 H0).
  assert (foldl (λ a d, a * 16 + d) 0 [b3 / 16; b3 mod 16; b2 / 16; b2 mod 16; b1 / 16; b1 mod 16;
                                       b0 / 16; b0 mod 16] = w) as Hv.
  { cbn [foldl]. rewrite Hwb. pose proof (Z.div_mod b3 16). pose proof (Z.div_mod b2 16).
    pose proof (Z.div_mod b1 16). pose proof (Z.div_mod b0 16). lia. }
  rewrite strtoul16_hex; [done|done|done|hex_list|].
  rewrite Hv. unfold UINT32_MAX. lia.
Qed.

Lemma hex_to_bytes_hex l out :
  Forall is_u8 l → length out = length l → tollgate_core_stratum_hex_to_bytes (hex_bytes l) out = l.
Proof.
  intros Hl. revert out. induction Hl as [|b l Hb Hl IH]; intros [|o out] Hlen; try done.
  cbn [hex_bytes]. unfold hex2 at 1. rewrite !str_append_cons, str_append_nil.
  cbn [tollgate_core_stratum_hex_to_bytes]. fold (hex2 b).
  rewrite strtoul16_hex2, u8_small by done. f_equal. apply IH. by injection Hlen.
Qed.

(** * Properties *)

(** The compact text of a tree whose strings need no escape; [print_num] writes
    the numbers. *)
Definition commas (l : list string) : string :=
  match l with
  | [] => ""
  | x :: l' => (x +:+ foldr (λ y r, "," +:+ y +:+ r) "" l')%string
  end.
Fixpoint json_text (print_num : f64 → string) (v : jval) : string :=
  match v with
  | JNull => "null"
  | JBool b => if b then "true" else "false"
  | JNum x => print_num x
  | JStr s => dq s
  | JArr l => ("[" +:+ commas (json_text print_num <$> l) +:+ "]")%string
  | JObj l => ("{" +:+ commas ((λ p, dq p.1 +:+ ":" +:+ json_text print_num p.2)%string <$> l)
                   +:+ "}")%string
  end.

(** The message [mining.notify] for a job, as a tree. *)
Definition notify_params (job : tollgate_stratum_job_t) : jval :=
  JArr [JStr (print_u (jb_job_id job)); JStr (hex_bytes (jb_prevhash job)); JStr ""; JStr "";
        JStr ""; JStr (hex8 (jb_version job)); JStr (hex8 (jb_nbits job));
        JStr (hex8 (jb_ntime job)); JBool (jb_clean job)].
Definition announcement (job : tollgate_stratum_job_t) : jval :=
  JObj [("id"%string, JNull); ("method"%string, JStr "mining.notify");
        ("params"%string, notify_params job)].

Lemma parse_notify_announced parse job :
  0 <= jb_job_id job < 2 ^ 31 → length (jb_prevhash job) = 32%nat → Forall is_u8 (jb_prevhash job) →
  is_u32 (jb_version job) → is_u32 (jb_nbits job) → is_u32 (jb_ntime job) →
  @tollgate_core_stratum_parse_notify jval (tree_json parse) (Some (notify_params job)) =
  Some (Some (mk_stratum_job (jb_job_id job) (jb_prevhash job) (replicate 32 0) (jb_ntime job)
                (jb_nbits job) (jb_version job) (replicate 32 0xFF) 32 true false,
              Some (jb_nbits job))).
Proof.
  intros Hid Hl Hb Hv Hn Ht. unfold tollgate_core_stratum_parse_notify, notify_params, hex_word.
  cbn -[strtoul16 hex8 hex_bytes print_u atoi replicate tollgate_core_stratum_hex_to_bytes].
  rewrite !strtoul16_hex8, atoi_print_u, hex_to_bytes_hex by done.
  rewrite !u32_small by (done || unfold is_u32; lia). done.
Qed.

Lemma notify_text_json print_num job :
  notify_text job = (json_text print_num (announcement job) +:+ nl)%string.
Proof.
  unfold notify_text, announcement, notify_params.
  cbn -[String.append dq nl print_u hex8 hex_bytes].
  rewrite <- !str_append_assoc. by destruct (jb_clean job).
Qed.

(** The job that a proxy announces is the job that a client which connects
    to it takes over, with its number, previous block, version, difficulty bits
    and time; the Merkle root is not announced and becomes zero.  The JSON
    reader is assumed to give back the tree of the announcement's text. *)
Theorem job_announcement_roundtrip `{U : CUndef} parse print_num job s :
  let text := (json_text print_num (announcement job) +:+ nl)%string in
  parse text = Some (announcement job) →
  0 <= jb_job_id job < 2 ^ 31 → length (jb_prevhash job) = 32%nat → Forall is_u8 (jb_prevhash job) →
  is_u32 (jb_version job) → is_u32 (jb_nbits job) → is_u32 (jb_ntime job) →
  ∃ s', @handle_pool_line U jval (tree_json parse) (notify_text job) s =
    Some (s', [EvJob (mk_stratum_job (jb_job_id job) (jb_prevhash job) (replicate 32 0)
                        (jb_ntime job) (jb_nbits job) (jb_version job) (replicate 32 0xFF) 32
                        true false)]) ∧
  cl_nbits s' = (if jb_nbits job =? 0 then cl_nbits s else jb_nbits job).
Proof.
  intros text Hp Hid Hl Hb Hv Hn Ht. rewrite (notify_text_json print_num).
  unfold handle_pool_line. fold text. change (@cJSON_Parse jval (tree_json parse) text) with (parse text).
  rewrite Hp. cbv zeta beta iota. set (a := announcement job).
  assert (get_str a "method" = Some "mining.notify"%string) as -> by reflexivity.
  assert (cJSON_GetObjectItem a "result" = None) as -> by reflexivity.
  assert (cJSON_GetObjectItem a "params" = Some (notify_params job)) as -> by reflexivity.
  rewrite bool_decide_eq_true_2 by done. unfold handle_mining_notify.
  rewrite parse_notify_announced by done.
  cbn [mbind option_bind]. destruct (cJSON_GetObjectItem a "id"); by eexists.
Qed.

(** A line read from the pool is the next part of the stream, up to and
    with a line feed, or as much as fits the buffer; nothing is lost or
    repeated. *)
Theorem read_line_splits room stream line rest :
  read_line room stream [] = Some (line, rest) →
  line ++ rest = stream ∧ (length line ≤ room)%nat ∧
  (last line = Some 10 ∨ length line = room) ∧
  ∀ i b, line !! i = Some b → (S i < length line)%nat → b ≠ 10.
Proof.
  assert (∀ line0, (∀ i b, line0 !! i = Some b → b ≠ 10) →
    read_line room stream line0 = Some (line, rest) →
    line ++ rest = line0 ++ stream ∧ (length line ≤ length line0 + room)%nat ∧
    (last line = Some 10%Z ∨ length line = length line0 + room)%nat ∧
    ∀ i b, line !! i = Some b → (S i < length line)%nat → b ≠ 10) as Hgen.
  { revert stream. induction room as [|room IH]; intros stream line0 H0; cbn [read_line].
    - intros [= <- <-]. split_and!; [done|lia|right; lia|]. intros i b Hi _. by apply (H0 i).
    - destruct stream as [|b stream]; [done|]. destruct (b =? 10) eqn:Hb; bool_hyps.
      + intros [= <- <-]. subst b. split_and!.
        * by rewrite <- app_assoc.
        * rewrite length_app. simpl. lia.
        * left. by rewrite last_snoc.
        * rewrite length_app. cbn [length]. intros i b Hi Hlt.
          rewrite lookup_app_l in Hi by lia. by apply (H0 i).
      + intros Hr. apply IH in Hr as (H1 & H2 & H3 & H4).
        * rewrite length_app in *. cbn [length] in *. rewrite <- app_assoc in H1.
          split_and!; [done|lia|destruct H3; [by left|right; lia]|done].
        * intros i c Hi. apply lookup_app_Some in Hi as [Hi|[_ Hi]]; [by apply (H0 i)|].
          apply list_lookup_singleton_Some in Hi as [_ ->]. done. }
  intros Hr. destruct (Hgen [] ltac:(done) Hr) as (H1 & H2 & H3 & H4). done.
Qed.

(** The client announces the pool's fields in the order worker, job, extranonce,
    time, nonce; the proxy reads worker, job, time, nonce, version. *)
Theorem submit_fields_shifted :
  parse_submit 0x20000000 (tollgate_core_stratum_build_submit 9 "miner" 7 "00000000000000aa"
                             0x65000000 0x11223344)
  = mk_submit 7 0xaa 0x65000000 0x11223344.
Proof. vm_compute. reflexivity. Qed.

(** A pool that asks for an extranonce of more than 32 bytes makes the client
    write past its buffer. *)
Theorem extranonce_overflow cfg w job nonce ntime s :
  cl_connected s = true → 32 < cl_extranonce2_size s →
  stratum_client_submit_share cfg w job nonce ntime s = None.
Proof.
  intros Hc Hs. unfold stratum_client_submit_share. rewrite Hc. cbn [negb].
  rewrite (proj2 (Z.ltb_lt 0 _)) by lia. by rewrite (proj2 (Z.leb_le 65 _)) by lia.
Qed.

Lemma job_announcement_roundtrip_witness :
  let text := (json_text (λ _, ""%string) (announcement job_example) +:+ nl)%string in
  let parse := (λ t, if bool_decide (t = text) then Some (announcement job_example) else None) in
  ∃ s', @handle_pool_line cundef_zero jval (tree_json parse) (notify_text job_example) stratum_client_init =
    Some (s', [EvJob (mk_stratum_job 7 (replicate 32 0) (replicate 32 0) 0 0x1d00ffff 0x20000000
                        (replicate 32 0xFF) 32 true false)]) ∧
  cl_nbits s' = 0x1d00ffff.
Proof.
  intros text parse.
  apply (@job_announcement_roundtrip cundef_zero parse (λ _, ""%string) job_example stratum_client_init);
    [by unfold parse; rewrite bool_decide_eq_true_2|simpl; lia|reflexivity|by repeat constructor|
     unfold is_u32; simpl; lia|unfold is_u32; simpl; lia|unfold is_u32; simpl; lia].
Defined.

Lemma read_line_splits_witness :
  [123; 125; 10] ++ [123] = [123; 125; 10; 123] ∧ last [123; 125; 10] = Some 10.
Proof.
  destruct (read_line_splits 2047 [123; 125; 10; 123] [123; 125; 10] [123] eq_refl)
    as (H1 & _ & [H3|H3] & _); [split; [exact H1|exact H3]|].
  split; [exact H1|reflexivity].
Defined.
