(* ===== verification/Api.v ===== *)
(** The gate's HTTP interface on port 2121 (main/tollgate_api.c): discovery,
    payment, usage, mining jobs and shares, and the wallet, as functions from a
    request to a reply and the changed state.  The server delivers the peer's
    address, the announced length and the bytes that arrive; [malloc] succeeds;
    a [None] result is a write past a buffer or a read through NULL, as noted. *)

From S2P Require Import Prelude CStr F64 Json Dns Firewall Session Config Mining Cashu Core.
From S2P Require Import Market MintHealth Portal Client StratumProxy StratumClient.
From stdpp Require Import relations.
#[local] Open Scope Z_scope.

(** * Requests and replies *)

(** [rq_peer]: the address [getpeername] finds.  [rq_body]: the bytes of the
    body, [None] if the connection ends before all have come. *)
Record httpd_req_t := mk_req {
  rq_peer : option Z;
  rq_content_len : Z;
  rq_body : option (list Z)
}.

(** The status and what is sent: a printed tree, or a text. *)
Inductive reply :=
| ReplyJson (status : Z) (tree : jval)
| ReplyText (status : Z) (text : string).

Definition reply_status (r : reply) : Z :=
  match r with ReplyJson st _ | ReplyText st _ => st end.

(** [get_client_ip] leaves zero when it fails. *)
Definition get_client_ip (rq : httpd_req_t) : Z := default 0 (rq_peer rq).

(** [%x] *)
Fixpoint skip_zeros (s : string) : string :=
  match s with
  | String c (String _ _ as s') => if Ascii.eqb c "0" then skip_zeros s' else s
  | _ => s
  end.
Definition print_x (w : Z) : string := skip_zeros (hex8 w).

(** [httpd_resp_send(req, text, n)]. *)
Definition error_reply (status : Z) (text : string) (n : nat) : reply :=
  ReplyText status (str_take n ("{" +:+ dq "error" +:+ ":" +:+ dq text +:+ "}")%string).

Section api.
Context `{MacLookup} `{CUndef} `{CJson J}.
Variable mbedtls_base64_decode : nat → string → option (list Z).
Variable mbedtls_sha256 : list Z → list Z.
Variable http_post : string → string → option (Z * list Z).
Variable s_platform : option tollgate_platform_t.
Variable ticks : Z.
Variable cfg : tollgate_config_t.
(** [identity_get()->npub_hex], [nucula_wallet_unit()]. *)
Variable npub_hex : string.
Variable wallet_unit : string.

Definition is_bytes : bool := bool_decide (cf_metric cfg = "bytes"%string).
Definition metric_name : string :=
  if str_empty (cf_metric cfg) then "milliseconds"%string else cf_metric cfg.

(** * Events *)

Definition str_tag (l : list string) : jval := JArr (JStr <$> l).

Definition create_notice (level code content : string) : jval :=
  JObj [("kind"%string, JInt 21023); ("pubkey"%string, JStr npub_hex);
        ("tags"%string, JArr [str_tag ["level"%string; level]; str_tag ["code"%string; code]]);
        ("content"%string, JStr content)].

Definition create_session_event (ip allotment : Z) : jval :=
  JObj [("kind"%string, JInt 1022); ("pubkey"%string, JStr npub_hex);
        ("tags"%string, JArr [
           str_tag ["p"; "unknown"]%string;
           str_tag ["device-identifier"; "mac"; ip_str ip]%string;
           str_tag ["allotment"%string; print_u allotment];
           str_tag ["metric"%string; metric_name]]);
        ("content"%string, JStr "")].

(** * Discovery *)

Definition price_tag (url : string) : jval :=
  str_tag ["price_per_step"; "cashu"; print_d (cf_price_per_step cfg); wallet_unit; url; "1"]%string.

Definition api_get_discovery (mints : tollgate_mint_health_t) : reply :=
  let reachable := filter (λ m, ms_reachable m = true) mints in
  ReplyJson 200 (JObj [
    ("kind"%string, JInt 10021); ("pubkey"%string, JStr npub_hex);
    ("tags"%string, JArr (
       [str_tag ["metric"%string; metric_name];
        str_tag ["step_size"%string;
                 print_d (if is_bytes then cf_step_size_bytes cfg else cf_step_size_ms cfg)]]
       ++ (if bool_decide (reachable = []) then [price_tag (cf_mint_url cfg)]
           else (λ m, price_tag (ms_url m)) <$> reachable)
       ++ [str_tag ["tips"; "1"; "2"; "5"]%string]
       ++ (if cf_mining_enabled cfg
           then [str_tag ["price_per_step"; "mining"; print_d (cf_mining_port cfg); "GH/s"; "sv1"]%string]
           else [])));
    ("content"%string, JStr "")]).

(** * Payment *)

(** Any accepted mint equals the URL. *)
Definition mint_accepted (mint_url : string) : bool :=
  existsb (tollgate_core_cashu_is_mint_accepted mint_url)
    (take (Z.to_nat (cf_accepted_mint_count cfg)) (cf_accepted_mints cfg)).

(** The token's own mint, or the configured one. *)
Definition payment_mint (token : tg_cashu_token_t) : string :=
  if str_empty (tk_mint_url token) then cf_mint_url cfg else tk_mint_url token.

(** A failed check counts as no known state. *)
Definition known_states (mint_url : string) (token : tg_cashu_token_t)
  : list tg_cashu_proof_state_t :=
  default [] (tollgate_core_cashu_check_proof_states mbedtls_sha256 http_post mint_url token).

Definition api_allotment (token : tg_cashu_token_t) : Z :=
  tollgate_core_cashu_calculate_allotment (tk_total_amount token) (u64 (cf_price_per_step cfg))
    (u64 (if is_bytes then cf_step_size_bytes cfg else cf_step_size_ms cfg)).

Definition api_create_session (ip allotment : Z) (ss : session_state)
  : option nat * session_state :=
  if is_bytes then tollgate_core_session_create_bytes s_platform ticks ip allotment ss
  else tollgate_core_session_create s_platform ticks ip allotment ss.

(** The checks before a session is created: a refusal, or the body and its
    token. *)
Definition check_payment (rq : httpd_req_t) : reply + (string * tg_cashu_token_t) :=
  let fail status code content := inl (ReplyJson status (create_notice "error" code content)) in
  if (rq_content_len rq <=? 0) || (16384 <? rq_content_len rq)
  then fail 400 "payment-error-invalid"%string "Invalid request body"%string else
  match rq_body rq with
  | None => inl (ReplyText 400 "bad request")
  | Some bytes =>
      match tollgate_core_cashu_decode_token mbedtls_base64_decode (cstr bytes) with
      | None => fail 400 "payment-error-invalid"%string "Failed to decode Cashu token"%string
      | Some token =>
          if negb (mint_accepted (payment_mint token))
          then fail 402 "payment-error-mint-not-accepted"%string "Mint not accepted"%string else
          if existsb spent (known_states (payment_mint token) token)
          then fail 402 "payment-error-token-spent"%string "Token already spent"%string else
          if api_allotment token =? 0
          then fail 402 "payment-error-insufficient"%string "Token value too low"%string else
          inr (cstr bytes, token)
      end
  end.

(** The reply, the sessions, and the token given to the wallet's worker. *)
Definition api_post_payment (rq : httpd_req_t) (ss : session_state)
  : reply * session_state * option string :=
  match check_payment rq with
  | inl r => (r, ss, None)
  | inr (body, token) =>
      match api_create_session (get_client_ip rq) (api_allotment token) ss with
      | (None, ss1) =>
          (ReplyJson 503 (create_notice "error" "session-error" "Failed to create session"), ss1, None)
      | (Some _, ss1) =>
          (ReplyJson 200 (create_session_event (get_client_ip rq) (api_allotment token)), ss1,
           Some body)
      end
  end.

(** * Reports *)

Definition api_get_usage (rq : httpd_req_t) (ss : session_state) : reply :=
  match tollgate_core_session_find_by_ip (get_client_ip rq) ss ≫= λ i, s_sessions ss !! i with
  | None => ReplyText 200 "-1/-1"
  | Some x =>
      if negb (active x) then ReplyText 200 "-1/-1" else
      let '(remaining, total) :=
        if is_bytes
        then (i64 (i64 (allotment_bytes x) - i64 (bytes_consumed x)), allotment_bytes x)
        else (i64 (allotment_ms x - i64 (ticks - start_time_ms x)), allotment_ms x) in
      let remaining := if remaining <? 0 then 0 else remaining in
      ReplyText 200 (str_take 63 (print_d remaining +:+ "/" +:+ print_u total)%string)
  end.

Definition api_get_whoami (rq : httpd_req_t) : reply :=
  ReplyText 200
    match rq_peer rq with
    | Some ip => ("ip=" +:+ ip_str ip +:+ " mac=" +:+ default "unknown" (mac_for_ip ip))%string
    | None => "ip=unknown mac=unknown"%string
    end.

Definition mint_report (m : tollgate_mint_status_t) : jval :=
  JObj ([("url"%string, JStr (ms_url m)); ("reachable"%string, JBool (ms_reachable m));
         ("status"%string, JInt (ms_last_http_status m))]
        ++ (if ms_last_err m =? 0 then []
            else [("last_err"%string, JStr (str_take 15 ("0x" +:+ print_x (u32 (ms_last_err m)))))])).

Definition api_get_mints (mints : tollgate_mint_health_t) : reply :=
  ReplyJson 200 (JArr (mint_report <$> mints)).

(** * Mining *)

Definition api_get_mining_job (job : tollgate_stratum_job_t) (m : mining_state) : reply :=
  if negb (jb_valid job) then error_reply 503 "no job" 15 else
  ReplyJson 200 (JObj [
    ("job_id"%string, JInt (jb_job_id job));
    ("prevhash"%string, JStr (hex_bytes (jb_prevhash job)));
    ("merkle_root"%string, JStr (hex_bytes (jb_merkle_root job)));
    ("version"%string, JInt (jb_version job)); ("nbits"%string, JInt (jb_nbits job));
    ("ntime"%string, JInt (jb_ntime job));
    ("hashprice"%string, JNum (tollgate_core_mining_get_current_hashprice m))]).

(** A session that runs is extended by [session_create]. *)
Definition create_mining (ip allotment : Z) (ss : session_state) : session_state :=
  match tollgate_core_session_create s_platform ticks ip allotment ss with
  | (Some j, ss1) => update_session j (λ x, with_method x TG_PAYMENT_MINING) ss1
  | (None, ss1) => ss1
  end.

Definition is_mining (x : tg_session_t) : bool :=
  active x && bool_decide (payment_method x = TG_PAYMENT_MINING).

Definition credit_mining (ip allotment : Z) (ss : session_state) : session_state :=
  match tollgate_core_session_find_by_ip ip ss with
  | Some i =>
      if default false (is_mining <$> s_sessions ss !! i)
      then tollgate_core_session_extend i allotment ss
      else create_mining ip allotment ss
  | None => create_mining ip allotment ss
  end.

(** The numbers of a share: job, nonce, time. *)
Definition share_fields (root : J) : option (Z * Z * Z) :=
  j_job_id ← cJSON_GetObjectItem root "job_id";
  j_nonce ← cJSON_GetObjectItem root "nonce";
  j_ntime ← cJSON_GetObjectItem root "ntime";
  _ ← cJSON_GetObjectItem root "version";
  Some (u32_of_f64 (valuedouble j_job_id), u32_of_f64 (valuedouble j_nonce),
        u32_of_f64 (valuedouble j_ntime)).

(** [None]: [body] is one byte short for 512 bytes, the client's statistics are
    read through NULL when the table is full, or the pool's extranonce does not
    fit. *)
Definition api_post_mining_share (pcfg : pool_config) (written : bool)
    (job : tollgate_stratum_job_t) (rq : httpd_req_t) (pool : stratum_client_state_t)
    (s : core_state)
  : option (reply * core_state * stratum_client_state_t * list pool_event) :=
  let fail r := Some (r, s, pool, []) in
  if (rq_content_len rq <=? 0) || (512 <? rq_content_len rq)
  then fail (error_reply 400 "invalid body" 21) else
  match rq_body rq with
  | None => fail (ReplyText 400 "bad request")
  | Some bytes =>
      if rq_content_len rq =? 512 then None else
      match cJSON_Parse (cstr bytes) with
      | None => fail (error_reply 400 "invalid json" 21)
      | Some root =>
          match share_fields root with
          | None => fail (error_reply 400 "missing fields" 22)
          | Some (job_id, nonce, ntime) =>
              if negb (jb_valid job) || negb (jb_job_id job =? job_id)
              then fail (error_reply 400 "stale job" 19) else
              let ip := get_client_ip rq in
              '(err, pool1, ev) ← stratum_client_submit_share pcfg written job_id nonce ntime pool;
              let accepted := bool_decide (err = ESP_OK) in
              let m1 := tollgate_core_mining_update_hashrate ticks ip accepted (co_mining s) in
              let '(slot, m2) := tollgate_core_mining_get_or_create_client ticks ip m1 in
              let stats := slot ≫= λ i, mn_clients m2 !! i in
              let s1 := Core.with_mining s m2 in
              s2 ← (if accepted then
                      st ← stats;
                      let allotment := tollgate_core_mining_shares_to_allotment_ms (hashrate_ghs st)
                        (tollgate_core_mining_get_current_hashprice m2)
                        (cf_price_per_step cfg) (cf_step_size_ms cfg) in
                      Some (with_sessions s1 (credit_mining ip allotment (co_sessions s1)))
                    else Some s1);
              Some (ReplyJson 200 (JObj [
                      ("accepted"%string, JBool accepted);
                      ("hashrate_ghs"%string, JNum (default f64_zero (hashrate_ghs <$> stats)))]),
                    s2, pool1, ev)
          end
      end
  end.

(** * Wallet *)

(** [wallet_send]: [nucula_wallet_send] with a buffer of 4096 bytes.  The reply
    depends on the body alone.  [None]: [body] is one byte short for 32. *)
Definition api_post_wallet_send (wallet_send : Z → option string) (rq : httpd_req_t)
  : option reply :=
  if (rq_content_len rq <=? 0) || (32 <? rq_content_len rq)
  then Some (ReplyText 400 "invalid amount") else
  match rq_body rq with
  | None => Some (ReplyText 500 "")
  | Some bytes =>
      if rq_content_len rq =? 32 then None else
      let amount := strtoull10 (cstr bytes) in
      if amount =? 0 then Some (ReplyText 400 "invalid amount") else
      match wallet_send amount with
      | Some token => Some (ReplyText 200 token)
      | None => Some (ReplyText 402 "insufficient balance")
      end
  end.
End api.

(** * Payments *)

Section payment.
Context `{MacLookup} `{CUndef} `{CJson J} (b64 : nat → string → option (list Z))
  (sha : list Z → list Z) (http_post : string → string → option (Z * list Z))
  (pf : option tollgate_platform_t) (ticks : Z) (cfg : tollgate_config_t) (npub : string).
Notation pay := (api_post_payment b64 sha http_post pf ticks cfg npub).
Notation create := (api_create_session pf ticks cfg).

Lemma api_create_wf ip n ss : session_wf ss → session_wf (create ip n ss).2.
Proof. unfold api_create_session. case_if; auto with tg_db. Qed.

Lemma api_create_coupled ip n ss : session_wf ss → coupled ss → coupled (create ip n ss).2.
Proof. unfold api_create_session. case_if; auto with tg_db. Qed.

Lemma api_create_result ip n ss r ss' :
  session_wf ss → create ip n ss = (r, ss') →
  match r with Some _ => has_session ss' ip | None => ss' = ss end.
Proof.
  unfold api_create_session. intros Hwf. case_if; intros Hcr.
  - apply session_create_bytes_result in Hcr; [|done]. destruct r as [i|]; [|done]. by exists i.
  - apply session_create_result in Hcr; [|done]. destruct r as [i|]; [|done]. by exists i.
Qed.

(** A token the gate sells a session for, and a request with such a body. *)
Definition sellable (t : tg_cashu_token_t) : Prop :=
  mint_accepted cfg (payment_mint cfg t) = true ∧
  Forall (λ st, spent st = false) (known_states sha http_post (payment_mint cfg t) t) ∧
  api_allotment cfg t ≠ 0.
Definition payable (rq : httpd_req_t) (text : string) (t : tg_cashu_token_t) : Prop :=
  0 < rq_content_len rq <= 16384 ∧ cstr <$> rq_body rq = Some text ∧
  tollgate_core_cashu_decode_token b64 text = Some t ∧ sellable t.

Lemma existsb_spent_false l : existsb spent l = false ↔ Forall (λ st, spent st = false) l.
Proof.
  induction l as [|x l IH]; [split; [constructor|done]|]. cbn [existsb].
  rewrite orb_false_iff, Forall_cons. tauto.
Qed.

Lemma check_payment_spec rq :
  match check_payment b64 sha http_post cfg npub rq with
  | inl r => (reply_status r = 400 ∨ reply_status r = 402) ∧ ∀ text t, ¬ payable rq text t
  | inr (text, t) => payable rq text t
  end.
Proof.
  unfold check_payment, payable. cbv zeta. destruct (_ || _) eqn:Hlen.
  { split; [by left|]. intros text t [Hl _]. bool_hyps. destruct Hlen; bool_hyps; lia. }
  bool_hyps. destruct (rq_body rq) as [bytes|]; [|split; [by left|]; intros text t (_ & [=] & _)].
  destruct (tollgate_core_cashu_decode_token b64 (cstr bytes)) as [t|] eqn:Hd.
  2: { split; [by left|]. intros text t (_ & [= <-] & Hd' & _). congruence. }
  assert (¬ sellable t → ∀ text t',
    ¬ (0 < rq_content_len rq <= 16384 ∧ cstr <$> Some bytes = Some text ∧
       tollgate_core_cashu_decode_token b64 text = Some t' ∧ sellable t')) as Hno.
  { intros HP text t' (_ & [= <-] & Hd' & HP'). rewrite Hd in Hd'. injection Hd' as <-. done. }
  unfold sellable at 1 in Hno. destruct (mint_accepted _ _) eqn:Hm; cbn [negb].
  2: { split; [by right|]. apply Hno. by intros []. }
  destruct (existsb spent _) eqn:Hs.
  { split; [by right|]. apply Hno. rewrite <- existsb_spent_false, Hs. by intros (_ & ? & _). }
  apply existsb_spent_false in Hs. destruct (_ =? 0) eqn:Ha; bool_hyps.
  - split; [by right|]. apply Hno. tauto.
  - split_and!; (lia || done).
Qed.

End payment.

(** * What a client of the gate reads *)

Section tree.
Variable parse : string → option jval.
#[local] Instance J0 : CJson jval := tree_json parse.

Lemma item_str_tag l i : item_str (str_tag l) i = l !! i.
Proof.
  unfold item_str, str_tag. cbn [cJSON_GetArrayItem J0 tree_json tree_items].
  rewrite list_lookup_fmap. by destruct (l !! i).
Qed.

Lemma atoi_print_d n : 0 <= n < 2 ^ 31 → atoi (print_d n) = n.
Proof.
  intros Hn. unfold print_d. rewrite (proj2 (Z.ltb_ge n 0)) by lia. by apply atoi_print_u.
Qed.

(** The tags a discovery event is made of. *)
Lemma discovery_metric out v :
  (String.length v ≤ 31)%nat →
  discovery_tag out (str_tag ["metric"%string; v]) =
  mk_discovery (is_tollgate out) (d_price_per_step out) (d_step_size_ms out) (d_mint_url out) v
    (d_unit out) (mining_available out) (d_mining_port out).
Proof.
  intros Hv. unfold discovery_tag. rewrite !item_str_tag. cbn -[strncpy].
  by rewrite strncpy_short.
Qed.

Lemma discovery_step out n :
  0 <= n < 2 ^ 31 →
  discovery_tag out (str_tag ["step_size"%string; print_d n]) =
  mk_discovery (is_tollgate out) (d_price_per_step out) n (d_mint_url out) (d_metric out)
    (d_unit out) (mining_available out) (d_mining_port out).
Proof.
  intros Hn. unfold discovery_tag. rewrite !item_str_tag. cbn -[atoi print_d].
  by rewrite atoi_print_d.
Qed.

Lemma discovery_price cfg unit url out :
  0 <= cf_price_per_step cfg < 2 ^ 31 → (String.length unit ≤ 15)%nat →
  (String.length url ≤ 255)%nat →
  discovery_tag out (price_tag cfg unit url) =
  mk_discovery (is_tollgate out) (cf_price_per_step cfg) (d_step_size_ms out) url (d_metric out)
    unit (mining_available out) (d_mining_port out).
Proof.
  intros Hp Hu Hl. unfold discovery_tag, price_tag. rewrite !item_str_tag.
  cbn -[atoi print_d strncpy]. by rewrite atoi_print_d, (strncpy_short 255 url), (strncpy_short 15 unit).
Qed.

Lemma discovery_mining out port :
  is_u16 port →
  discovery_tag out (str_tag ["price_per_step"; "mining"; print_d port; "GH/s"; "sv1"]%string) =
  mk_discovery (is_tollgate out) (d_price_per_step out) (d_step_size_ms out) (d_mint_url out)
    (d_metric out) (d_unit out) true port.
Proof.
  intros Hp. unfold discovery_tag. rewrite !item_str_tag. cbn -[atoi print_d u16].
  rewrite atoi_print_d by (unfold is_u16 in Hp; lia). by rewrite u16_small.
Qed.
(** Of several prices the last is kept. *)
Lemma discovery_prices cfg unit urls out :
  0 <= cf_price_per_step cfg < 2 ^ 31 → (String.length unit ≤ 15)%nat →
  Forall (λ u, (String.length u ≤ 255)%nat) urls → urls ≠ [] →
  foldl discovery_tag out (price_tag cfg unit <$> urls) =
  mk_discovery (is_tollgate out) (cf_price_per_step cfg) (d_step_size_ms out)
    (default ""%string (last urls)) (d_metric out) unit (mining_available out) (d_mining_port out).
Proof.
  intros Hp Hu. revert out. induction urls as [|u urls IH]; intros out Hl Hne; [done|].
  apply Forall_cons in Hl as [H1 H2]. cbn [fmap list_fmap foldl].
  rewrite discovery_price by done. destruct urls as [|u' urls]; [done|].
  by rewrite IH.
Qed.

(** The mint a client is told to pay at: the last reachable one, or the
    configured one when none is reachable. *)
Definition advertised_mint (cfg : tollgate_config_t) (mints : tollgate_mint_health_t) : string :=
  default (cf_mint_url cfg) (ms_url <$> last (filter (λ m, ms_reachable m = true) mints)).

(** What the gate answers to a discovery request is read by a client of the
    gate as its price, step, metric and unit, the last of the reachable mints or
    else the configured one, and its mining port if mining is on. *)
Theorem discovery_roundtrip cfg npub unit mints text tree :
  api_get_discovery cfg npub unit mints = ReplyJson 200 tree → parse text = Some tree →
  let step := if is_bytes cfg then cf_step_size_bytes cfg else cf_step_size_ms cfg in
  0 <= cf_price_per_step cfg < 2 ^ 31 → 0 <= step < 2 ^ 31 → is_u16 (cf_mining_port cfg) →
  (String.length (cf_metric cfg) ≤ 15)%nat → (String.length unit ≤ 15)%nat →
  (String.length (cf_mint_url cfg) ≤ 255)%nat →
  Forall (λ m, (String.length (ms_url m) ≤ 255)%nat) mints →
  tollgate_core_client_parse_discovery text =
  Some (mk_discovery true (cf_price_per_step cfg) step (advertised_mint cfg mints) (metric_name cfg)
          unit (cf_mining_enabled cfg)
          (if cf_mining_enabled cfg then cf_mining_port cfg else 0)).
Proof.
  unfold api_get_discovery. cbv zeta. intros [= <-] Hp Hpr Hst Hport Hm Hu Hmint Hmints.
  set (step := if is_bytes cfg then _ else _) in *. set (reach := filter (λ m, ms_reachable m = true) mints) in *.
  assert (∃ urls, (if bool_decide (reach = []) then [price_tag cfg unit (cf_mint_url cfg)]
                   else (λ m, price_tag cfg unit (ms_url m)) <$> reach) = price_tag cfg unit <$> urls ∧
                  urls ≠ [] ∧ default ""%string (last urls) = advertised_mint cfg mints ∧
                  Forall (λ u, (String.length u ≤ 255)%nat) urls) as (urls & Heq & Hne & Hlast & Hl).
  { unfold advertised_mint. fold reach. case_bool_decide as Hr.
    - exists [cf_mint_url cfg]. rewrite Hr. split_and!; [done..|by apply Forall_singleton].
    - exists (ms_url <$> reach). split_and!.
      + by rewrite <- list_fmap_compose.
      + intros He%fmap_nil_inv. done.
      + rewrite fmap_last. destruct (last reach) eqn:Hla; [done|]. by apply last_None in Hla.
      + apply Forall_fmap, Forall_forall. intros m [_ Hin]%list_elem_of_filter.
        by apply (proj1 (Forall_forall _ _) Hmints). }
  unfold tollgate_core_client_parse_discovery. cbn [cJSON_Parse J0 tree_json]. rewrite Hp, Heq.
  cbn [mbind option_bind].
  match goal with |- context [kind_is ?r 10021] => set (root := r) end.
  assert (kind_is root 10021 = true) as -> by (vm_compute; reflexivity).
  assert (get_arr root "tags" = cJSON_GetObjectItem root "tags") as -> by reflexivity.
  match goal with root := JObj (_ :: _ :: (_, JArr ?l) :: _) |- _ =>
    assert (cJSON_GetObjectItem root "tags" = Some (JArr l)) as -> by reflexivity end.
  rewrite (items_tree parse). cbn [negb foldl]. rewrite foldl_app. cbn [foldl].
  rewrite discovery_metric, discovery_step, discovery_prices by
    (done || by unfold metric_name; case_if; [simpl; lia|lia]).
  cbn [is_tollgate d_price_per_step d_step_size_ms d_mint_url d_metric d_unit mining_available
       d_mining_port].
  assert (∀ out, discovery_tag out (str_tag ["tips"; "1"; "2"; "5"]%string) = out) as -> by reflexivity.
  rewrite Hlast. destruct (cf_mining_enabled cfg); [|done]. cbn [foldl]. by rewrite discovery_mining.
Qed.

(** The receipt of a payment tells a client of the gate the allotment. *)
Theorem receipt_roundtrip cfg npub ip allotment text :
  parse text = Some (create_session_event cfg npub ip allotment) → 0 <= allotment < 2 ^ 63 →
  tollgate_core_client_parse_session text 0 = Some allotment.
Proof.
  intros Hp Ha. unfold tollgate_core_client_parse_session. cbn [cJSON_Parse J0 tree_json].
  rewrite Hp. cbn [mbind option_bind]. set (root := create_session_event cfg npub ip allotment).
  assert (kind_is root 1022 = true) as -> by (vm_compute; reflexivity). cbn [negb].
  assert (get_arr root "tags" = cJSON_GetObjectItem root "tags") as -> by reflexivity.
  match eval unfold root, create_session_event in root with
  | JObj (_ :: _ :: (_, JArr ?l) :: _) =>
      assert (cJSON_GetObjectItem root "tags" = Some (JArr l)) as -> by reflexivity
  end.
  rewrite (items_tree parse). cbn [foldl]. rewrite !item_str_tag. cbn -[atoll print_u].
  by rewrite atoll_print_u.
Qed.
End tree.

Lemma i64_sub_l a b : i64 (i64 a - b) = i64 (a - b).
Proof. unfold i64, swrap. change (64 - 1) with 63. zlia. Qed.

Lemma u64_i64 a : is_u64 a → u64 (i64 a) = a.
Proof. unfold is_u64, u64, i64, swrap. pow_consts. intros Ha. zlia. Qed.

Lemma i64_lt a : i64 a < 2 ^ 63.
Proof. unfold i64, swrap. change (64 - 1) with 63. zlia. Qed.

Lemma usage_text_fits a b :
  0 <= a → 0 <= b → str_take 63 (print_d a +:+ "/" +:+ print_u b)%string = (print_d a +:+ "/" +:+ print_u b)%string.
Proof.
  intros Ha Hb. apply str_take_all. unfold print_d. rewrite (proj2 (Z.ltb_ge a 0)) by lia.
  rewrite !str_append_length. pose proof (print_u_length a Ha). pose proof (print_u_length b Hb).
  cbn [String.length]. lia.
Qed.

(** The usage report on port 2121 is the one of the captive portal. *)
Theorem usage_reports_agree cfg rq ss ticks :
  Forall (λ x, is_u64 (allotment_ms x) ∧ is_u64 (allotment_bytes x)) (s_sessions ss) →
  api_get_usage ticks cfg rq ss =
  ReplyText 200 (usage_handler (Some (get_client_ip rq)) (cf_metric cfg) ticks ss).
Proof.
  intros Hss. unfold api_get_usage, usage_handler. cbn [mbind option_bind].
  destruct (tollgate_core_session_find_by_ip _ ss) as [i|]; [|done]. cbn [mbind option_bind].
  destruct (s_sessions ss !! i) as [x|] eqn:Hx; [|done].
  destruct (proj1 (Forall_lookup _ _) Hss i x Hx) as [Hm Hb].
  destruct (active x) eqn:Ha; [|done]. cbn [negb].
  unfold tollgate_core_portal_format_usage, tollgate_core_portal_calc_usage, is_bytes.
  rewrite Ha. cbn [negb].
  assert (∀ z, (if z <? 0 then 0 else z) = Z.max 0 z) as Hmax.
  { intros z. destruct (z <? 0) eqn:Hz; bool_hyps; lia. }
  case_bool_decide; rewrite Hmax, u64_i64, ?i64_sub_l by done; f_equal; apply usage_text_fits;
    unfold is_u64 in *; lia.
Qed.

(** * Shares *)

Section shares.
Context `{MacLookup} `{CUndef} `{CJson J} (pf : option tollgate_platform_t) (ticks : Z)
  (cfg : tollgate_config_t).
Notation credit := (credit_mining pf ticks).

(** A share that is no reply to the current job, or cannot be read, leaves
    everything as it is; otherwise it is submitted to the pool under the peer's
    numbers, and the tables of the gate change with the pool's answer. *)
Lemma mining_share_cases pcfg written job rq pool s r s' pool' ev :
  api_post_mining_share pf ticks cfg pcfg written job rq pool s = Some (r, s', pool', ev) →
  (reply_status r = 400 ∧ s' = s ∧ pool' = pool ∧ ev = []) ∨
  ∃ root nonce ntime err m2,
    reply_status r = 200 ∧ 0 < rq_content_len rq < 512 ∧
    (cJSON_Parse ∘ cstr) <$> rq_body rq = Some (Some root) ∧
    share_fields root = Some (jb_job_id job, nonce, ntime) ∧ jb_valid job = true ∧
    stratum_client_submit_share pcfg written (jb_job_id job) nonce ntime pool = Some (err, pool', ev) ∧
    m2 = (tollgate_core_mining_get_or_create_client ticks (get_client_ip rq)
            (tollgate_core_mining_update_hashrate ticks (get_client_ip rq)
               (bool_decide (err = ESP_OK)) (co_mining s))).2 ∧
    co_mining s' = m2 ∧
    (err ≠ ESP_OK → co_sessions s' = co_sessions s) ∧
    (err = ESP_OK → ∃ rate, co_sessions s' = credit (get_client_ip rq)
       (tollgate_core_mining_shares_to_allotment_ms rate
          (tollgate_core_mining_get_current_hashprice m2) (cf_price_per_step cfg)
          (cf_step_size_ms cfg)) (co_sessions s)).
Proof.
  unfold api_post_mining_share. cbv zeta. destruct (_ || _) eqn:Hlen; [intros [= <- <- <- <-]; by left|].
  bool_hyps. destruct (rq_body rq) as [bytes|]; [|intros [= <- <- <- <-]; by left].
  case_if; [done|]. bool_hyps. destruct (cJSON_Parse (cstr bytes)) as [root|] eqn:Hroot;
    [|intros [= <- <- <- <-]; by left].
  destruct (share_fields root) as [[[job_id nonce] ntime]|] eqn:Hf; [|intros [= <- <- <- <-]; by left].
  destruct (_ || _) eqn:Hjob; [intros [= <- <- <- <-]; by left|]. bool_hyps. subst job_id.
  destruct (stratum_client_submit_share _ _ _ _ _ _) as [[[err pool1] ev1]|] eqn:Hsub; [|done].
  cbn [mbind option_bind]. set (m1 := tollgate_core_mining_update_hashrate _ _ _ _).
  destruct (tollgate_core_mining_get_or_create_client ticks (get_client_ip rq) m1) as [slot m2] eqn:Hg.
  intros Hr. right. case_bool_decide as Herr.
  - destruct (slot ≫= _) as [st|]; [|done]. cbn [mbind option_bind] in Hr. injection Hr as <- <- <- <-.
    exists root, nonce, ntime, err, m2. split_and!; try done; try lia.
    + cbn. by rewrite Hroot.
    + rewrite bool_decide_eq_true_2 by done. fold m1. by rewrite Hg.
    + intros _. by exists (hashrate_ghs st).
  - cbn [mbind option_bind] in Hr. injection Hr as <- <- <- <-.
    exists root, nonce, ntime, err, m2. split_and!; try done; try lia.
    + cbn. by rewrite Hroot.
    + rewrite bool_decide_eq_false_2 by done. fold m1. by rewrite Hg.
Qed.
End shares.

(** * Behaviour worth knowing *)

(** A mint that does not answer is no obstacle: any token that decodes, names an
    accepted mint and claims enough passes, and the client gets its session
    before the wallet has seen the token. *)
Theorem unreachable_mint_accepts_any `{CUndef} `{CJson J} b64 sha cfg npub rq text t :
  0 < rq_content_len rq <= 16384 → cstr <$> rq_body rq = Some text →
  tollgate_core_cashu_decode_token b64 text = Some t → mint_accepted cfg (payment_mint cfg t) = true →
  api_allotment cfg t ≠ 0 →
  check_payment b64 sha (λ _ _, None) cfg npub rq = inr (text, t).
Proof.
  intros Hl Hb Hd Hm Ha. pose proof (check_payment_spec b64 sha (λ _ _, None) cfg npub rq) as Hck.
  assert (payable b64 sha (λ _ _, None) cfg rq text t) as Hp.
  { split_and!; (done || lia || constructor). }
  destruct (check_payment _ _ _ _ _ rq) as [r|[text' t']].
  - destruct Hck as [_ Hno]. by destruct (Hno text t).
  - destruct Hck as (_ & Hb' & Hd' & _). congruence.
Qed.

(** The lengths given for the error replies cut them short. *)
Theorem error_replies_cut_short :
  error_reply 503 "no job" 15 = ReplyText 503 ("{" +:+ dq "error" +:+ ":" +:+ String (chr 34) "no jo") ∧
  error_reply 400 "stale job" 19 = ReplyText 400 ("{" +:+ dq "error" +:+ ":" +:+ String (chr 34) "stale job").
Proof. split; vm_compute; reflexivity. Qed.

(** Where access is sold by the byte, the session a share opens has no bytes and
    ends with the next tick. *)
Theorem mined_session_has_no_bytes :
  let pf := Some (mk_platform (Some 21) None None (Some "bytes"%string) (Some 1000) (Some 0) None None) in
  let ss := @credit_mining mac_none pf 0 5 60000 session_boot in
  tollgate_core_fw_is_allowed 5 (ss_fw ss) = true ∧
  tollgate_core_fw_is_allowed 5 (ss_fw (tollgate_core_session_tick pf 0 ss)) = false.
Proof. split; vm_compute; reflexivity. Qed.

(** Anyone may withdraw from the gate's wallet: the reply depends on the body
    alone, and a client without access reaches port 2121. *)
Theorem wallet_open_to_all wallet_send peer body amount token :
  strtoull10 (cstr body) = amount → amount ≠ 0 → (0 < length body < 32)%nat →
  wallet_send amount = Some token →
  api_post_wallet_send wallet_send (mk_req peer (Z.of_nat (length body)) (Some body)) =
  Some (ReplyText 200 token).
Proof.
  intros Ham Hnz Hl Hs. unfold api_post_wallet_send. cbn [rq_content_len rq_body].
  rewrite (proj2 (Z.leb_gt _ 0)), (proj2 (Z.ltb_ge 32 _)) by lia. cbn [orb].
  rewrite (proj2 (Z.eqb_neq _ 32)) by lia. by rewrite Ham, (proj2 (Z.eqb_neq _ 0)), Hs.
Qed.

(** * Concrete requests *)

Definition pay_request : httpd_req_t := mk_req (Some 5) 9 (Some (str_bytes "cashuAe30")).
Definition pay_reply : reply * session_state * option string :=
  @api_post_payment mac_none cundef_zero jval json_env b64_env (λ _, [7]) http_env platform_example
    1000 config_example "npub" pay_request session_boot.


(** The request of the example is answered with 200. *)
Example pay_request_accepted :
  reply_status pay_reply.1.1 = 200 ∧ pay_reply.2 = Some "cashuAe30"%string.
Proof. split; vm_compute; reflexivity. Qed.

Definition mints_example : tollgate_mint_health_t :=
  [mk_mint_status "https://a" true 3 0 200 0; mk_mint_status "https://b" false 0 0 0 1;
   mk_mint_status "https://c" true 3 0 200 0].

Lemma discovery_roundtrip_witness :
  let tree := match api_get_discovery config_example "npub" "sat" mints_example with
              | ReplyJson _ t => t | _ => JNull end in
  @tollgate_core_client_parse_discovery jval (tree_json (λ _, Some tree)) "text" =
  Some (mk_discovery true 21 60000 "https://c" "milliseconds" "sat" true 3334).
Proof.
  intros tree.
  apply (discovery_roundtrip (λ _, Some tree) config_example "npub" "sat" mints_example "text" tree);
    [reflexivity|reflexivity|vm_compute; split; (discriminate || reflexivity)
    |vm_compute; split; (discriminate || reflexivity)|vm_compute; split; (discriminate || reflexivity)
    |vm_compute; lia|vm_compute; lia|vm_compute; lia|].
  repeat (apply Forall_cons; split; [vm_compute; lia|]). apply Forall_nil_2.
Defined.

Lemma receipt_roundtrip_witness :
  @tollgate_core_client_parse_session jval
    (tree_json (λ _, Some (create_session_event config_example "npub" 5 120000))) "text" 0
  = Some 120000.
Proof. apply (receipt_roundtrip _ config_example "npub" 5); [reflexivity|lia]. Defined.

Lemma usage_reports_agree_witness :
  api_get_usage 31000 config_example pay_request session_example =
  ReplyText 200 (usage_handler (Some 5) "milliseconds" 31000 session_example).
Proof.
  apply (usage_reports_agree config_example pay_request session_example 31000).
  apply Forall_forall. intros x Hx. apply list_elem_of_In in Hx.
  assert (forallb (λ x, (0 <=? allotment_ms x) && (allotment_ms x <? 2 ^ 64) &&
                        ((0 <=? allotment_bytes x) && (allotment_bytes x <? 2 ^ 64)))
            (s_sessions session_example) = true) as Hall by (vm_compute; reflexivity).
  rewrite forallb_forall in Hall. specialize (Hall x Hx). unfold is_u64. bool_hyps. lia.
Defined.
