(* ===== verification/Gate.v ===== *)
(** The gate as a whole: every request that changes who may pass - payments and
    shares through the core or over HTTP, the portal's requests, the tick, the
    stop of the services - as one transition system, and the invariants of
    access over its runs.  The interface [SessionInvariant] states what a
    property of the session table must satisfy to hold in every run; the
    properties proved are its instances. *)

From S2P Require Import Prelude CStr F64 Json Dns Firewall Session Config Mining Cashu Core.
From S2P Require Import StratumProxy StratumClient Api.
From stdpp Require Import relations.
#[local] Open Scope Z_scope.

(** * The transition system *)

Inductive gate_step : core_state → core_state → Prop :=
| gate_core s s' : core_step s s' → gate_step s s'
| gate_payment (M : MacLookup) (U : CUndef) (J : Type) (CJ : CJson J) b64 sha http pf ticks cfg npub
    rq s :
    gate_step s (with_sessions s
      (api_post_payment b64 sha http pf ticks cfg npub rq (co_sessions s)).1.2)
| gate_share (M : MacLookup) (U : CUndef) (J : Type) (CJ : CJson J) pf ticks cfg pcfg written job rq
    pool s r s' pool' ev :
    api_post_mining_share pf ticks cfg pcfg written job rq pool s = Some (r, s', pool', ev) →
    gate_step s s'.

(** With the portal's [grant_access], whose callers are recorded, and the stop
    and start of the services. *)
Inductive portal_step : core_state * list Z → core_state * list Z → Prop :=
| portal_gate s s' granted : gate_step s s' → portal_step (s, granted) (s', granted)
| portal_grant (M : MacLookup) ip s granted :
    portal_step (s, granted) (grant_access_handler ip s, ip :: granted)
| portal_stop s granted : portal_step (s, granted) (stop_services s, granted)
| portal_dns upstream s granted :
    portal_step (s, granted) ((tollgate_core_dns_start upstream s).2, granted).

(** * Invariants of the session table *)

Class SessionInvariant (P : session_state → Prop) := {
  inv_create : ∀ (M : MacLookup) pf ticks ip n ss,
    P ss → P (tollgate_core_session_create pf ticks ip n ss).2;
  inv_update : ∀ i f ss, keeps_owner f → P ss → P (update_session i f ss);
  inv_revoke : ∀ p ss, (∀ x, p x = true → active x = true) → P ss → P (revoke_where p ss);
  inv_reset : ∀ ss,
    P ss → P (with_fw (tollgate_core_session_revoke_all ss) tollgate_core_fw_revoke_all)
}.

(** Apply the laws of the interface as far as they go. *)
Ltac by_laws :=
  repeat first [ assumption | apply inv_create | apply inv_update | apply inv_reset
               | apply keeps_extend | apply keeps_with_bytes | apply keeps_with_method
               | apply keeps_add_bytes ].

Section steps.
Context `{SessionInvariant P}.

Lemma inv_create_bytes `{MacLookup} pf ticks ip n ss :
  P ss → P (tollgate_core_session_create_bytes pf ticks ip n ss).2.
Proof.
  intros Hp. pose proof (inv_create _ pf ticks ip 0 ss Hp) as Hc.
  unfold tollgate_core_session_create_bytes.
  destruct (tollgate_core_session_create _ _ _ _ _) as [[i|] s1]; [|done]. cbn [snd] in *. by_laws.
Qed.

Lemma inv_core_create `{MacLookup} pf ticks ip n ss : P ss → P (create_session pf ticks ip n ss).2.
Proof. intros Hp. unfold create_session. case_if; [by apply inv_create_bytes|by_laws]. Qed.

Lemma inv_api_create `{MacLookup} pf ticks cfg ip n ss :
  P ss → P (api_create_session pf ticks cfg ip n ss).2.
Proof. intros Hp. unfold api_create_session. case_if; [by apply inv_create_bytes|by_laws]. Qed.

Lemma inv_credit_share `{MacLookup} pf ticks ip n ss : P ss → P (credit_share pf ticks ip n ss).
Proof.
  intros Hp. unfold credit_share, tollgate_core_session_extend. case_match; [by_laws|].
  pose proof (inv_core_create pf ticks ip n ss Hp) as Hc.
  destruct (create_session _ _ _ _ _) as [[i|] s1]; cbn [snd] in *; by_laws.
Qed.

Lemma inv_create_mining `{MacLookup} pf ticks ip n ss : P ss → P (create_mining pf ticks ip n ss).
Proof.
  intros Hp. unfold create_mining. pose proof (inv_create _ pf ticks ip n ss Hp) as Hc.
  destruct (tollgate_core_session_create _ _ _ _ _) as [[i|] s1]; cbn [snd] in *; by_laws.
Qed.

Lemma inv_credit_mining `{MacLookup} pf ticks ip n ss : P ss → P (credit_mining pf ticks ip n ss).
Proof.
  intros Hp. unfold credit_mining, tollgate_core_session_extend.
  case_match; [case_match|]; try by apply inv_create_mining. by_laws.
Qed.

Lemma inv_core_step s s' : core_step s s' → P (co_sessions s) → P (co_sessions s').
Proof.
  intros Hs Hp. destruct Hs.
  - unfold tollgate_core_process_payment. case_match; [|done]. cbv zeta. case_if; [done|].
    case_if; [done|]. match goal with |- context [create_session ?p ?t ?i ?n ?ss] =>
      pose proof (inv_core_create p t i n ss Hp); by destruct (create_session p t i n ss) as [[k|] s1] end.
  - unfold tollgate_core_on_share_accepted. cbv zeta.
    repeat (case_match || case_if); try done. by apply inv_credit_share.
  - apply inv_revoke; [|done]. intros x Hx. by bool_hyps.
  - cbn [co_sessions with_sessions]. unfold tollgate_core_session_add_bytes.
    case_match; by_laws.
  - unfold tollgate_core_client_connected. by case_if.
  - unfold tollgate_core_client_disconnected. by repeat (case_match || case_if).
  - by apply inv_reset.
Qed.

(** A property with the interface's laws is preserved by every step. *)
Lemma inv_gate_step s s' : gate_step s s' → P (co_sessions s) → P (co_sessions s').
Proof.
  intros Hs Hp. destruct Hs as [s s' Hs|M U J CJ b64 sha http pf ticks cfg npub rq s|
    M U J CJ pf ticks cfg pcfg written job rq pool s r s' pool' ev Hs].
  - by apply (inv_core_step s).
  - cbn [co_sessions with_sessions]. unfold api_post_payment. case_match; [done|]. case_match.
    match goal with |- context [api_create_session ?p ?t ?c ?i ?n ?ss] =>
      pose proof (inv_api_create p t c i n ss Hp); by destruct (api_create_session p t c i n ss) as [[k|] s1] end.
  - apply mining_share_cases in Hs as [(_ & -> & _)|
      (root & nonce & ntime & err & m2 & _ & _ & _ & _ & _ & _ & _ & _ & Hno & Hok)]; [done|].
    destruct (decide (err = ESP_OK)) as [He|He]; [|by rewrite Hno].
    destruct (Hok He) as [rate ->]. by apply inv_credit_mining.
Qed.

Lemma inv_gate_run s s' : rtc gate_step s s' → P (co_sessions s) → P (co_sessions s').
Proof. induction 1; eauto using inv_gate_step. Qed.
End steps.

(** * The instances *)

(** Exactly the addresses with an active session pass. *)
Definition settled (ss : session_state) : Prop := session_wf ss ∧ coupled ss.

#[export] Instance settled_invariant : SessionInvariant settled.
Proof.
  split.
  - intros M pf ticks ip n ss [Hwf Hc]. split; auto with tg_db.
  - intros i f ss Hf [Hwf Hc]. split; [by apply update_session_wf|by apply update_coupled].
  - intros p ss Hp [Hwf Hc]. split; [by apply revoke_where_spec|by apply revoke_where_coupled].
  - intros ss [Hwf _]. exact (reset_inv ss Hwf).
Qed.

(** Whoever passes has an active session or is one of [granted]. *)
Definition guarded (granted : list Z) (ss : session_state) : Prop :=
  session_wf ss ∧ ∀ ip, ip ∈ fw_ips (ss_fw ss) → has_session ss ip ∨ ip ∈ granted.

Section guarded.
Variable granted : list Z.

Lemma revoke_guarded i x ss :
  s_sessions ss !! i = Some x → active x = true → guarded granted ss →
  guarded granted (tollgate_core_session_revoke i ss).
Proof.
  intros Hi Ha [Hwf Hg]. split; [auto with tg_db|]. intros ip.
  rewrite (revoke_fw ss i x), (revoke_has_session ss i x) by done. intros [Hin Hne].
  destruct (Hg ip Hin); tauto.
Qed.

Lemma reclaim_guarded `{MacLookup} pf ticks ss :
  guarded granted ss → guarded granted (reclaim_slot pf ticks ss).
Proof.
  intros Hg. pose proof Hg as [Hwf _].
  destruct (reclaim_cases pf ticks ss Hwf) as [(i & x & -> & Hi & Ha & _)|[-> _]]; [|done].
  by apply (revoke_guarded i x).
Qed.

Lemma create_guarded `{MacLookup} pf ticks ip n ss :
  guarded granted ss → guarded granted (tollgate_core_session_create pf ticks ip n ss).2.
Proof.
  intros Hg. pose proof Hg as [Hwf Hin]. split; [auto with tg_db|].
  destruct (has_session_dec ss ip) as [Hh|Hno].
  - destruct (tollgate_core_session_find_by_ip ip ss) as [i|] eqn:Hf; [|by apply find_by_ip_None in Hf].
    rewrite (create_existing pf ticks ss ip n i Hf). intros k Hk.
    unfold tollgate_core_session_extend. cbn [snd]. rewrite update_has_session by apply keeps_extend.
    by apply Hin.
  - rewrite (create_new pf ticks ss ip n Hno).
    pose proof (reclaim_guarded pf ticks ss Hg) as [Hwf1 Hin1].
    destruct (find_slot _ _) as [i|] eqn:Hf; [|exact Hin1].
    apply find_slot_Some in Hf as (x & Hx & Hp & _). bool_hyps. intros k. cbn [snd ss_fw].
    rewrite (create_new_has_session pf ticks _ ip n i x k) by done.
    rewrite (fw_grant_elem _ ip k) by apply Hwf1. intros [Hk|[-> _]]; [|tauto].
    destruct (Hin1 k Hk); tauto.
Qed.

#[export] Instance guarded_invariant : SessionInvariant (guarded granted).
Proof.
  split.
  - intros. by apply create_guarded.
  - intros i f ss Hf [Hwf Hg]. split; [by apply update_session_wf|]. intros ip Hin.
    rewrite update_has_session by done. by apply Hg.
  - intros p ss Hp [Hwf Hg]. destruct (revoke_where_spec p ss Hwf Hp) as (Hwf' & _ & Hf).
    split; [done|]. intros ip. rewrite Hf, revoke_where_has_session by done. intros [Hin Hno].
    destruct (Hg ip Hin) as [(i & x & Hi & Ha & Hip)|]; [left|by right]. exists i, x.
    split_and!; try done. destruct (p x) eqn:Hpx; [|done]. destruct Hno. by exists i, x.
  - intros ss [Hwf _]. destruct (reset_inv ss Hwf) as [Hwf' Hc]. split; [done|].
    intros ip Hin. left. by apply Hc.
Qed.
End guarded.

Lemma settled_boot : settled session_boot.
Proof. split; [apply session_boot_wf|apply session_boot_coupled]. Qed.

(** * Properties *)

(** C1: In every state the gate reaches from its start by payments and shares,
    over HTTP or through the core, ticks, owners coming and going and resets: an
    address passes the firewall if and only if the DNS server treats it as
    authenticated, if and only if it has an active session; no address has two
    sessions and at most ten have one. *)
Theorem gate_access_iff_session s ip :
  rtc gate_step core_boot s →
  (tollgate_core_is_client_allowed ip s = true ↔ has_session (co_sessions s) ip) ∧
  (is_authenticated (fw_dns (core_fw s)) ip = true ↔ has_session (co_sessions s) ip) ∧
  (tollgate_core_active_session_count s ≤ TG_SESSION_MAX_CLIENTS)%nat ∧
  s_session_count (co_sessions s) = Z.of_nat (tollgate_core_active_session_count s) ∧
  (∀ i j x y, s_sessions (co_sessions s) !! i = Some x → s_sessions (co_sessions s) !! j = Some y →
     active x = true → active y = true → client_ip x = client_ip y → i = j).
Proof.
  intros Hr. destruct (inv_gate_run _ _ Hr settled_boot) as [(Hl & Hcnt & Hu & Hfw) Hc].
  unfold tollgate_core_is_client_allowed, core_fw.
  rewrite <- fw_allowed_authenticated, !fw_is_allowed_spec by done. split_and!; try done; try apply Hc.
  unfold tollgate_core_active_session_count, tollgate_core_session_active_count.
  rewrite <- Hl. apply count_slots_le.
Qed.

(** What the portal's steps keep: well-formed tables, and access only for
    sessions and for callers of [grant_access]. *)
Lemma portal_step_guarded s g s' g' :
  portal_step (s, g) (s', g') → guarded g (co_sessions s) → guarded g' (co_sessions s').
Proof.
  intros Hs Hg. inversion Hs as [? ? ? Hs'|M ip ? ?| |upstream]; subst.
  - by eapply inv_gate_step.
  - destruct Hg as [(Hl & Hc & Hu & Hfw) Hg]. split; [split_and!; try done; cbn; auto with tg_db|].
    intros k. cbn. rewrite (fw_grant_elem _ ip k Hfw). rewrite elem_of_cons.
    intros [Hk|[-> _]]; [|by right; left]. destruct (Hg k Hk) as [Hh|]; [by left|by right; right].
  - destruct (stop_services_spec s (proj1 Hg)) as [Hwf Hips]. split; [done|]. intros ip.
    rewrite Hips. by intros ?%elem_of_nil.
  - destruct Hg as [Hwf Hg]. unfold tollgate_core_dns_start.
    destruct (tollgate_core_dns_start_internal _ _ _) as [err d] eqn:Hd. cbn [snd co_sessions with_sessions].
    split; [|exact Hg]. unfold tollgate_core_dns_start_internal in Hd.
    apply with_dns_wf; [done|..]; destruct (s_dns_running _); by injection Hd as <- <-.
Qed.

Lemma portal_run_guarded a b :
  rtc portal_step a b → guarded a.2 (co_sessions a.1) → guarded b.2 (co_sessions b.1).
Proof. induction 1 as [|[] [] []]; eauto using portal_step_guarded. Qed.


(** * Concrete runs *)

Lemma gate_access_iff_session_witness :
  let s := with_sessions core_boot pay_reply.1.2 in
  (tollgate_core_is_client_allowed 5 s = true ↔ has_session (co_sessions s) 5) ∧
  (is_authenticated (fw_dns (core_fw s)) 5 = true ↔ has_session (co_sessions s) 5) ∧
  (tollgate_core_active_session_count s ≤ TG_SESSION_MAX_CLIENTS)%nat ∧
  s_session_count (co_sessions s) = Z.of_nat (tollgate_core_active_session_count s) ∧
  (∀ i j x y, s_sessions (co_sessions s) !! i = Some x → s_sessions (co_sessions s) !! j = Some y →
     active x = true → active y = true → client_ip x = client_ip y → i = j).
Proof.
  apply gate_access_iff_session. eapply rtc_l; [|apply rtc_refl].
  exact (@gate_payment mac_none cundef_zero jval json_env b64_env (λ _, [7]) http_env platform_example
           1000 config_example "npub" pay_request core_boot).
Defined.

