(* ===== verification/Services.v ===== *)
(** The gate as a whole (main/tollgate_main.c): the events of the Wi-Fi driver,
    the services that they start and stop, the networks that are tried in turn,
    and the callbacks the core gets from the configuration
    (components/tollgate_esp).  Servers, tasks and the driver are outside: what
    they are told is a list of events, whether a server starts is a parameter.
    The other parts appear as their own models: configuration and core. *)

From S2P Require Import Prelude CStr F64 Json Dns Firewall Session Config Mining Cashu Core.
From S2P Require Import Api Gate.
From stdpp Require Import relations.
#[local] Open Scope Z_scope.

Definition MAX_STA_RETRY : Z := 5.

(** * The platform's callbacks *)

(** [esp_get_price_sats] and the others, at a time [now].  The wallet's callback
    takes every token. *)
Definition tollgate_esp_get_platform (c : tollgate_config_t) (now : Z) : tollgate_platform_t :=
  mk_platform (Some (u16 (cf_price_per_step c))) (Some (cf_step_size_ms c)) (Some (cf_mint_url c))
    (Some (cf_metric c)) (Some (cf_step_size_bytes c)) (Some now) (Some (λ _, true))
    (Some (cf_hashprice_sats_per_ghs_day c)).

(** * The resolver for the clients *)

(** [dns0], [dns1]: the resolvers of the IP stack; [sta_dns]: the station's, if
    it can be read.  The resolver chosen and the one then in the first place. *)
Definition choose_upstream (ap_ip dns0 dns1 : Z) (sta_dns : option Z) : Z * Z :=
  if negb (dns0 =? ap_ip) then (dns0, dns0)
  else if negb (dns1 =? 0) && negb (dns1 =? ap_ip) then (dns1, dns1)
  else match sta_dns with
       | Some d => if negb (d =? 0) && negb (d =? ap_ip) then (d, d) else (dns0, dns0)
       | None => (dns0, dns0)
       end.

(** * State *)

Record main_state := mk_main {
  ma_config : tollgate_config_t;
  ma_core : core_state;
  ma_retry_count : Z;
  ma_services_running : bool;
  ma_ap_services_running : bool;
  ma_sta_connecting : bool;
  (** [s_svc_task] is set, and the tasks that have still to run [start_services]. *)
  ma_svc_task : bool;
  ma_pending : nat;
  (** The servers that are up. *)
  ma_portal : bool;
  ma_api : bool;
  ma_beacon : bool;
  ma_sta_got_ip : bool
}.

(** What is told to the driver and the other parts. *)
Inductive main_event :=
| EvSetSta (sta : sta_config)
| EvConnect
| EvClientUp (gw : Z)
| EvClientDown
| EvStart (service : string)
| EvStop (service : string).

Definition with_link (s : main_state) (c : tollgate_config_t) (retry : Z) (connecting : bool) : main_state :=
  mk_main c (ma_core s) retry (ma_services_running s) (ma_ap_services_running s) connecting
    (ma_svc_task s) (ma_pending s) (ma_portal s) (ma_api s) (ma_beacon s) (ma_sta_got_ip s).
Definition with_servers (s : main_state) (portal api beacon : bool) : main_state :=
  mk_main (ma_config s) (ma_core s) (ma_retry_count s) (ma_services_running s)
    (ma_ap_services_running s) (ma_sta_connecting s) (ma_svc_task s) (ma_pending s) portal api beacon
    (ma_sta_got_ip s).
Definition with_running (s : main_state) (core : core_state) (services ap : bool) : main_state :=
  mk_main (ma_config s) core (ma_retry_count s) services ap (ma_sta_connecting s) (ma_svc_task s)
    (ma_pending s) (ma_portal s) (ma_api s) (ma_beacon s) (ma_sta_got_ip s).
Definition with_task (s : main_state) (task : bool) (pending : nat) (got_ip : bool) : main_state :=
  mk_main (ma_config s) (ma_core s) (ma_retry_count s) (ma_services_running s)
    (ma_ap_services_running s) (ma_sta_connecting s) task pending (ma_portal s) (ma_api s)
    (ma_beacon s) got_ip.

Section services.
(** Whether the servers and the price beacon start, when they are not up. *)
Variable portal_ok api_ok beacon_ok : bool.

(** A server that is up is left as it is. *)
Definition start_server (ok up : bool) : bool := up || ok.

(** [tollgate_core_fw_set_sandbox_ports], when mining is enabled. *)
Definition set_sandbox (s : main_state) : main_state :=
  if cf_mining_enabled (ma_config s) then
    with_running s
      (with_sessions (ma_core s) (with_fw (co_sessions (ma_core s))
         (tollgate_core_fw_set_sandbox_ports (cf_mining_port (ma_config s)))))
      (ma_services_running s) (ma_ap_services_running s)
  else s.

Definition start_ap_services (s : main_state) : main_state :=
  if ma_ap_services_running s then s else
  let s1 := set_sandbox (with_servers s (start_server portal_ok (ma_portal s))
              (start_server api_ok (ma_api s)) (start_server beacon_ok (ma_beacon s))) in
  with_running s1 (ma_core s1) (ma_services_running s1) true.

(** The services of other components that are only told to start. *)
Definition started_services (c : tollgate_config_t) (asic_present : bool) : list main_event :=
  (if cf_cvm_enabled c then [EvStart "cvm_server"] else [])
  ++ (if cf_mint_health_enabled c then [EvStart "mint_health"] else [])
  ++ [EvStart "nucula_wallet"; EvStart "lightning_payout"]
  ++ (if cf_sync_enabled c || cf_wifistr_enabled c then [EvStart "relay_selector"] else [])
  ++ (if cf_sync_enabled c then [EvStart "sync_manager"] else [])
  ++ (if cf_wifistr_enabled c then [EvStart "wifistr"] else [])
  ++ (if cf_mining_enabled c then
        [EvStart "stratum_proxy"]
        ++ match cf_mining_payout_mode c with MINING_PAYOUT_UPSTREAM => [] | _ => [EvStart "stratum_client"] end
        ++ [EvStart (if asic_present then "asic_miner" else "sw_miner")%string]
      else [])
  ++ (if str_empty (cf_faucet_url c) then [] else [EvStart "faucet_client"]).

(** [net]: the access point's address, the two resolvers of the IP stack and the
    station's. *)
Definition start_services (net : Z * Z * Z * option Z) (asic_present : bool) (now : Z) (s : main_state)
  : main_state * list main_event :=
  if ma_services_running s then (s, []) else
  let '(ap_ip, dns0, dns1, sta_dns) := net in
  let upstream := (choose_upstream ap_ip dns0 dns1 sta_dns).1 in
  let c := ma_config s in
  let core1 := (tollgate_core_init (Some (tollgate_esp_get_platform c now)) ap_ip (ma_core s)).2 in
  let s1 := set_sandbox (with_running s core1 (ma_services_running s) (ma_ap_services_running s)) in
  let core2 := (tollgate_core_dns_start upstream (ma_core s1)).2 in
  let s2 := with_servers s1 (start_server portal_ok (ma_portal s1))
              (if ma_ap_services_running s1 then ma_api s1 else start_server api_ok (ma_api s1))
              (if ma_ap_services_running s1 then ma_beacon s1
               else start_server beacon_ok (ma_beacon s1)) in
  (with_running s2 core2 true (ma_ap_services_running s2), started_services c asic_present).

Definition stopped_services (c : tollgate_config_t) : list main_event :=
  [EvStop "cvm_server"%string]
  ++ (if cf_sync_enabled c then [EvStop "sync_manager"] else [])
  ++ (if cf_local_relay_enabled c then [EvStop "local_relay"] else [])
  ++ (if cf_sync_enabled c || cf_wifistr_enabled c then [EvStop "relay_selector"] else []).

Definition stop_services (s : main_state) : main_state * list main_event :=
  if negb (ma_services_running s) then (s, []) else
  let s1 := with_servers s false (ma_ap_services_running s && ma_api s)
              (ma_ap_services_running s && ma_beacon s) in
  (with_running s1 (Core.stop_services (ma_core s1)) false (ma_ap_services_running s1),
   stopped_services (ma_config s)).

(** * Events *)

Inductive wifi_event_t :=
| WIFI_EVENT_STA_START | WIFI_EVENT_STA_DISCONNECTED | WIFI_EVENT_AP_STACONNECTED
| WIFI_EVENT_AP_STADISCONNECTED | WIFI_EVENT_AP_START.

Definition wifi_event_handler (event : wifi_event_t) (s : main_state)
  : main_state * list main_event :=
  match event with
  | WIFI_EVENT_STA_START =>
      if ma_sta_connecting s then (s, []) else
      (with_link s (ma_config s) (ma_retry_count s) true,
       match tollgate_config_get_wifi (ma_config s) with Some w => [EvSetSta w] | None => [] end
         ++ [EvConnect])
  | WIFI_EVENT_STA_DISCONNECTED =>
      let s1 := with_link s (ma_config s) (i32 (ma_retry_count s + 1)) false in
      let '(s2, ev) := stop_services s1 in
      if ma_retry_count s2 <? MAX_STA_RETRY then
        (with_link s2 (ma_config s2) (ma_retry_count s2) true, EvClientDown :: ev ++ [EvConnect])
      else
        match tollgate_config_get_next_wifi (ma_config s2) with
        | (Some w, c) => (with_link s2 c 0 true, EvClientDown :: ev ++ [EvSetSta w; EvConnect])
        | (None, c) => (with_link s2 c (ma_retry_count s2) (ma_sta_connecting s2), EvClientDown :: ev)
        end
  | WIFI_EVENT_AP_START => (start_ap_services s, [])
  | WIFI_EVENT_AP_STACONNECTED | WIFI_EVENT_AP_STADISCONNECTED => (s, [])
  end.

Inductive ip_event_t := IP_EVENT_STA_GOT_IP (gw : Z) | IP_EVENT_STA_LOST_IP.

Definition ip_event_handler (event : ip_event_t) (s : main_state) : main_state * list main_event :=
  match event with
  | IP_EVENT_STA_GOT_IP gw =>
      let s1 := with_link s (ma_config s) 0 (ma_sta_connecting s) in
      (with_task s1 true (if ma_svc_task s1 then ma_pending s1 else S (ma_pending s1)) true,
       [EvClientUp gw])
  | IP_EVENT_STA_LOST_IP => stop_services s
  end.

(** A created task runs: [services_start_task]. *)
Definition services_start_task (net : Z * Z * Z * option Z) (asic_present : bool) (now : Z)
    (s : main_state) : main_state * list main_event :=
  let '(s1, ev) := start_services net asic_present now s in
  (with_task s1 (ma_svc_task s1) (pred (ma_pending s1)) (ma_sta_got_ip s1), ev).

(** [app_main], up to its loop: without a network to join, a task of its own
    starts the services. *)
Definition app_main (c : tollgate_config_t) : main_state :=
  mk_main c core_boot 0 false false false false
    (match tollgate_config_get_wifi c with Some _ => 0%nat | None => 1%nat end)
    false false false false.

(** An event, the task's run, or a request that changes who may pass. *)
Inductive main_step (s : main_state) : main_state → Prop :=
| step_request core :
    gate_step (ma_core s) core →
    main_step s (with_running s core (ma_services_running s) (ma_ap_services_running s))
| step_wifi e : main_step s (wifi_event_handler e s).1
| step_ip e : main_step s (ip_event_handler e s).1
| step_task net asic now : (0 < ma_pending s)%nat → main_step s (services_start_task net asic now s).1.
End services.

(** * The DNS server runs until it is stopped *)

Definition dns_running (ss : session_state) : bool := tollgate_core_dns_is_running (fw_dns (ss_fw ss)).
Definition dns_up (s : main_state) : bool := tollgate_core_is_dns_running (ma_core s).

Lemma set_authenticated_running ip a d :
  s_dns_running (tollgate_core_dns_set_authenticated ip a d) = s_dns_running d.
Proof. unfold tollgate_core_dns_set_authenticated. by repeat (case_if || case_match). Qed.

Lemma fw_grant_running `{MacLookup} ip f :
  s_dns_running (fw_dns (tollgate_core_fw_grant ip f)) = s_dns_running (fw_dns f).
Proof.
  unfold tollgate_core_fw_grant. repeat (case_if || case_match); try done; cbn;
    by rewrite set_authenticated_running.
Qed.

Lemma fw_revoke_all_running f :
  s_dns_running (fw_dns (tollgate_core_fw_revoke_all f)) = s_dns_running (fw_dns f).
Proof.
  unfold tollgate_core_fw_revoke_all. cbn. generalize (fw_dns f).
  induction (fw_ips f) as [|ip l IH]; intros d; [done|]. cbn. by rewrite IH, set_authenticated_running.
Qed.

Lemma session_revoke_running i ss : dns_running (tollgate_core_session_revoke i ss) = dns_running ss.
Proof.
  unfold dns_running, tollgate_core_session_revoke, tollgate_core_dns_is_running. case_match; [|done].
  case_if; [|done]. cbn. unfold tollgate_core_fw_revoke. case_match; [|done]. cbn.
  apply set_authenticated_running.
Qed.

Lemma revoke_where_running p ss : dns_running (revoke_where p ss) = dns_running ss.
Proof.
  unfold revoke_where. generalize (seq 0 TG_SESSION_MAX_CLIENTS). intros l. revert ss.
  induction l as [|i l IH]; intros ss; [done|]. cbn. rewrite IH. case_match; [|done].
  case_if; [apply session_revoke_running|done].
Qed.

(** No request starts or stops it. *)
#[export] Instance dns_running_invariant b : SessionInvariant (λ ss, dns_running ss = b).
Proof.
  split.
  - intros M pf ticks ip n ss <-. unfold tollgate_core_session_create. case_match; [done|].
    cbv zeta. assert (dns_running (reclaim_slot pf ticks ss) = dns_running ss) as <-.
    { unfold reclaim_slot. case_if; [|done]. case_match; [apply session_revoke_running|done]. }
    case_match; [|done]. apply fw_grant_running.
  - by intros.
  - intros p ss _ <-. apply revoke_where_running.
  - intros ss <-. unfold dns_running, with_fw. cbn. unfold tollgate_core_dns_is_running.
    rewrite fw_revoke_all_running. apply (revoke_where_running active).
Qed.

Lemma gate_step_running c c' :
  gate_step c c' → tollgate_core_is_dns_running c' = tollgate_core_is_dns_running c.
Proof. intros Hs. by apply (inv_gate_step (P := λ ss, dns_running ss = dns_running (co_sessions c)) c c'). Qed.

Lemma stop_services_dns c : tollgate_core_is_dns_running (Core.stop_services c) = false.
Proof.
  unfold tollgate_core_is_dns_running, tollgate_core_dns_is_running, core_fw. cbn.
  by rewrite fw_revoke_all_running.
Qed.

(** * What an event leaves as it is *)

Lemma set_sandbox_parts s :
  dns_up (set_sandbox s) = dns_up s ∧
  set_sandbox s = with_running s (ma_core (set_sandbox s)) (ma_services_running s) (ma_ap_services_running s).
Proof. unfold set_sandbox. by destruct (cf_mining_enabled _), s. Qed.

(** The services start unless they run already: the DNS server and the portal
    with them, the interface and the beacon where they are not up for the access
    point. *)
Lemma start_services_spec portal_ok api_ok beacon_ok net asic now s :
  ma_services_running s = false →
  let s' := (start_services portal_ok api_ok beacon_ok net asic now s).1 in
  ma_services_running s' = true ∧ dns_up s' = true ∧
  ma_portal s' = ma_portal s || portal_ok ∧
  ma_api s' = ma_api s || (negb (ma_ap_services_running s) && api_ok) ∧
  ma_beacon s' = ma_beacon s || (negb (ma_ap_services_running s) && beacon_ok) ∧
  ma_ap_services_running s' = ma_ap_services_running s ∧
  ma_svc_task s' = ma_svc_task s ∧ ma_pending s' = ma_pending s ∧ ma_sta_got_ip s' = ma_sta_got_ip s ∧
  ma_config s' = ma_config s ∧ ma_retry_count s' = ma_retry_count s.
Proof.
  intros Hrun. cbv zeta. unfold start_services. rewrite Hrun. destruct net as [[[ap d0] d1] sta]. cbn [fst].
  set (core1 := (tollgate_core_init _ ap (ma_core s)).2).
  pose proof (set_sandbox_parts (with_running s core1 false (ma_ap_services_running s))) as [_ Hs].
  rewrite Hs. generalize (ma_core (set_sandbox (with_running s core1 false (ma_ap_services_running s)))).
  intros core. unfold tollgate_core_dns_start, tollgate_core_dns_start_internal, dns_up.
  destruct s. cbn in *. subst. destruct (s_dns_running _) eqn:Hd; cbn; rewrite ?Hd;
    split_and!; try done; destruct ma_ap_services_running0; cbn; by rewrite ?orb_false_r.
Qed.

Lemma stop_services_parts s :
  ma_services_running s = true →
  let s' := (stop_services s).1 in
  ma_services_running s' = false ∧ dns_up s' = false ∧ ma_portal s' = false ∧
  ma_api s' = ma_ap_services_running s && ma_api s ∧
  ma_beacon s' = ma_ap_services_running s && ma_beacon s ∧
  ma_ap_services_running s' = ma_ap_services_running s ∧
  ma_svc_task s' = ma_svc_task s ∧ ma_pending s' = ma_pending s ∧
  ma_config s' = ma_config s ∧ ma_retry_count s' = ma_retry_count s.
Proof. intros Hrun. cbv zeta. unfold stop_services. rewrite Hrun. unfold dns_up.
  destruct s. cbn [with_running with_servers ma_core negb fst]. rewrite stop_services_dns. by split_and!.
Qed.

(** The parts of the state that say which services are up. *)
Definition ups (s : main_state) : bool * bool * bool * bool * bool * bool :=
  (ma_services_running s, ma_ap_services_running s, ma_portal s, ma_api s, ma_beacon s, dns_up s).

(** What a Wi-Fi event does to the services: nothing, or their stop, or the start
    of those of the access point. *)
Lemma wifi_event_ups portal_ok api_ok beacon_ok e s :
  let s' := (wifi_event_handler portal_ok api_ok beacon_ok e s).1 in
  ma_svc_task s' = ma_svc_task s ∧ ma_pending s' = ma_pending s ∧
  (ups s' = ups s ∨ ups s' = ups (stop_services s).1 ∨
   ups s' = ups (start_ap_services portal_ok api_ok beacon_ok s)).
Proof.
  destruct e; cbn [wifi_event_handler fst]; try by eauto.
  - case_if; eauto.
  - assert (∀ c r b, ups (stop_services (with_link s c r b)).1 = ups (stop_services s).1) as Hups.
    { intros. unfold stop_services. destruct s. cbn. by destruct (negb ma_services_running0). }
    assert (∀ s0, ma_svc_task (stop_services s0).1 = ma_svc_task s0 ∧
                  ma_pending (stop_services s0).1 = ma_pending s0) as Hkeep.
    { intros s0. unfold stop_services. by destruct (negb _). }
    specialize (Hups (ma_config s) (i32 (ma_retry_count s + 1)) false).
    destruct (Hkeep (with_link s (ma_config s) (i32 (ma_retry_count s + 1)) false)) as [Ht Hp].
    destruct (stop_services (with_link s _ _ _)) as [s2 ev]. cbn [fst] in Hups, Ht, Hp.
    destruct (_ <? _); [|destruct (tollgate_config_get_next_wifi _) as [[w|] c]]; cbn [fst];
      split_and!; try done; right; left; exact Hups.
  - split_and!; [| |by right; right]; unfold start_ap_services; case_if; try done;
      destruct (set_sandbox_parts (with_servers s (start_server portal_ok (ma_portal s))
              (start_server api_ok (ma_api s)) (start_server beacon_ok (ma_beacon s)))) as [_ ->]; done.
Qed.

Lemma start_ap_services_ups portal_ok api_ok beacon_ok s :
  ups (start_ap_services portal_ok api_ok beacon_ok s) =
  if ma_ap_services_running s then ups s else
  (ma_services_running s, true, ma_portal s || portal_ok, ma_api s || api_ok, ma_beacon s || beacon_ok, dns_up s).
Proof.
  unfold start_ap_services. case_if; [done|].
  destruct (set_sandbox_parts (with_servers s (start_server portal_ok (ma_portal s))
              (start_server api_ok (ma_api s)) (start_server beacon_ok (ma_beacon s)))) as [Hd Hs].
  unfold ups, dns_up in *. cbn. rewrite Hd, Hs. by destruct s.
Qed.

Lemma stop_services_ups s :
  ups (stop_services s).1 =
  if ma_services_running s then
    (false, ma_ap_services_running s, false, ma_ap_services_running s && ma_api s,
     ma_ap_services_running s && ma_beacon s, false)
  else ups s.
Proof.
  unfold stop_services. destruct (ma_services_running s) eqn:E; [|done]. unfold ups, dns_up. destruct s.
  cbn [with_running with_servers ma_core negb fst]. by rewrite stop_services_dns.
Qed.

(** * Invariants of the events *)

Section runs.
Variable portal_ok api_ok beacon_ok : bool.
Notation step := (main_step portal_ok api_ok beacon_ok).

(** What the services promise each other, where each server starts. *)
Definition services_inv (s : main_state) : Prop :=
  dns_up s = ma_services_running s ∧
  (ma_services_running s = true → portal_ok = true → ma_portal s = true) ∧
  (ma_services_running s = true ∨ ma_ap_services_running s = true →
   (api_ok = true → ma_api s = true) ∧ (beacon_ok = true → ma_beacon s = true)).

Lemma services_inv_ups s s' : ups s' = ups s → services_inv s → services_inv s'.
Proof. unfold services_inv. by intros [= -> -> -> -> -> ->]. Qed.

Lemma services_inv_stop s : services_inv s → services_inv (stop_services s).1.
Proof.
  intros Hi. pose proof (stop_services_ups s) as Hu.
  destruct (ma_services_running s) eqn:Hr; [|by eapply services_inv_ups]. destruct Hi as (Hd & Hp & Ha).
  injection Hu as H1 H2 H3 H4 H5 H6. unfold services_inv. rewrite H1, H2, H3, H4, H5, H6.
  split_and!; try done. intros [|Hap]; [done|]. rewrite Hap. apply Ha. by left.
Qed.

Lemma services_inv_ap s : services_inv s → services_inv (start_ap_services portal_ok api_ok beacon_ok s).
Proof.
  intros Hi. pose proof (start_ap_services_ups portal_ok api_ok beacon_ok s) as Hu.
  destruct (ma_ap_services_running s) eqn:Hr; [by eapply services_inv_ups|]. destruct Hi as (Hd & Hp & Ha).
  injection Hu as H1 H2 H3 H4 H5 H6. unfold services_inv. rewrite H1, H2, H3, H4, H5, H6.
  split_and!; try done.
  - intros ? ->. by rewrite orb_true_r.
  - intros _. by split; intros ->; rewrite orb_true_r.
Qed.

Lemma services_inv_task net asic now s :
  services_inv s → services_inv (services_start_task portal_ok api_ok beacon_ok net asic now s).1.
Proof.
  intros Hi. unfold services_start_task. destruct (ma_services_running s) eqn:Hr.
  { unfold start_services. rewrite Hr. destruct Hi as (Hd & Hp & Ha). destruct s. by split_and!. }
  pose proof (start_services_spec portal_ok api_ok beacon_ok net asic now s Hr)
    as (H1 & H2 & H3 & H4 & H5 & H6 & _). destruct Hi as (_ & _ & Ha).
  destruct (start_services _ _ _ _ _ _ s) as [s1 ev]. unfold services_inv, dns_up in *.
  cbn [fst with_task ma_core ma_services_running ma_portal ma_api ma_beacon ma_ap_services_running] in *.
  rewrite H1, H2, H3, H4, H5, H6. split_and!; try done.
  - intros _ ->. by rewrite orb_true_r.
  - intros _. destruct (ma_ap_services_running s); cbn; rewrite ?orb_false_r; [by apply Ha; right|].
    by split; intros ->; rewrite orb_true_r.
Qed.

Lemma services_inv_step s s' : step s s' → services_inv s → services_inv s'.
Proof.
  intros [core Hc|e|e|net asic now Hp] Hi.
  - destruct Hi as (Hd & Hp & Ha). destruct s. unfold services_inv, dns_up in *. cbn in *.
    by rewrite (gate_step_running _ _ Hc).
  - destruct (wifi_event_ups portal_ok api_ok beacon_ok e s) as (_ & _ & [Hu|[Hu|Hu]]);
      (eapply services_inv_ups; [exact Hu|]); auto using services_inv_stop, services_inv_ap.
  - destruct e; [|by apply services_inv_stop]. by destruct s.
  - by apply services_inv_task.
Qed.

(** One task at most is created, and it runs [start_services] once. *)
Definition task_inv (s : main_state) : Prop :=
  (ma_pending s + Nat.b2n (ma_services_running s) ≤ Nat.b2n (ma_svc_task s))%nat.

(** The task has run and the services are stopped. *)
Definition services_gone (s : main_state) : Prop :=
  ma_svc_task s = true ∧ ma_pending s = 0%nat ∧ ma_services_running s = false.

Lemma stop_services_counts s :
  ma_svc_task (stop_services s).1 = ma_svc_task s ∧ ma_pending (stop_services s).1 = ma_pending s ∧
  ma_services_running (stop_services s).1 = false.
Proof. unfold stop_services. destruct (ma_services_running s) eqn:E; by destruct s. Qed.

(** A step keeps the counts, stops the services, or is the task's. *)
Lemma step_counts s s' :
  step s s' →
  (ma_svc_task s' = ma_svc_task s ∧ ma_pending s' = ma_pending s ∧
   (ma_services_running s' = ma_services_running s ∨ ma_services_running s' = false)) ∨
  (ma_svc_task s' = true ∧ ma_services_running s' = ma_services_running s ∧
   ma_pending s' = if ma_svc_task s then ma_pending s else S (ma_pending s)) ∨
  ((0 < ma_pending s)%nat ∧ ma_svc_task s' = ma_svc_task s ∧ ma_pending s' = pred (ma_pending s) ∧
   ma_services_running s' = true).
Proof.
  intros [core Hc|e|e|net asic now Hp].
  - left. destruct s. cbn. auto.
  - left. destruct (wifi_event_ups portal_ok api_ok beacon_ok e s) as (Ht & Hp & Hu).
    split_and!; [done|done|]. destruct (stop_services_counts s) as (_ & _ & Hs).
    destruct Hu as [Hu|[Hu|Hu]]; [injection Hu as ->; by left|injection Hu as ->; by right|].
    rewrite start_ap_services_ups in Hu. destruct (ma_ap_services_running s); injection Hu as ->; by left.
  - destruct e; [right; left; by destruct s|left]. destruct (stop_services_counts s) as (? & ? & ?).
    cbn. auto.
  - right; right. unfold services_start_task. destruct (ma_services_running s) eqn:Hr.
    { unfold start_services. rewrite Hr. by destruct s. }
    pose proof (start_services_spec portal_ok api_ok beacon_ok net asic now s Hr)
      as (H1 & _ & _ & _ & _ & _ & H7 & H8 & _).
    destruct (start_services _ _ _ _ _ _ s) as [s1 ev]. cbn in *. by rewrite H8.
Qed.

Lemma task_inv_step s s' : step s s' → task_inv s → task_inv s'.
Proof.
  intros Hs. unfold task_inv.
  destruct (step_counts s s' Hs) as [(-> & -> & [-> | ->])|[(-> & -> & ->)|(Hp & -> & -> & ->)]];
    destruct (ma_svc_task s), (ma_services_running s); cbn; lia.
Qed.

Lemma services_gone_step s s' : step s s' → services_gone s → services_gone s'.
Proof.
  intros Hs (Ht & Hp & Hr). unfold services_gone.
  destruct (step_counts s s' Hs) as [(-> & -> & [-> | ->])|[(-> & -> & ->)|(? & _)]]; rewrite ?Ht, ?Hp, ?Hr;
    try done. lia.
Qed.

(** The portal that is down stays down, once the access point's services run. *)
Lemma portal_gone_step s s' :
  step s s' → services_gone s → ma_ap_services_running s = true ∧ ma_portal s = false →
  ma_ap_services_running s' = true ∧ ma_portal s' = false.
Proof.
  intros [core Hc|e|e|net asic now Hp] (Ht & Hpe & Hr) [Ha Hpo]; [by destruct s| | |lia].
  - destruct (wifi_event_ups portal_ok api_ok beacon_ok e s) as (_ & _ & Hu).
    rewrite stop_services_ups, start_ap_services_ups, Hr, Ha in Hu.
    destruct Hu as [Hu|[Hu|Hu]]; injection Hu as _ -> -> _ _ _; done.
  - destruct e; [by destruct s|]. cbn. unfold stop_services. by rewrite Hr.
Qed.

(** The invariants hold from the start. *)
Lemma app_main_inv c : services_inv (app_main c) ∧ (is_Some (tollgate_config_get_wifi c) → task_inv (app_main c)).
Proof.
  split; [by split_and!; intros; destruct_or?|]. intros [w Hw]. unfold task_inv, app_main. rewrite Hw.
  cbn. lia.
Qed.

Lemma reachable_services_inv c s : rtc step (app_main c) s → services_inv s.
Proof.
  intros Hr. destruct (app_main_inv c) as [Hi _].
  induction Hr as [|a b d Hab _ IH]; [done|]. eauto using services_inv_step.
Qed.

Lemma reachable_task_inv c s :
  is_Some (tollgate_config_get_wifi c) → rtc step (app_main c) s → task_inv s.
Proof.
  intros Hw Hr. destruct (app_main_inv c) as [_ Hi]. specialize (Hi Hw).
  induction Hr as [|a b d Hab _ IH]; [done|]. eauto using task_inv_step.
Qed.
End runs.

(** * The networks in turn *)

Section networks.
Variable portal_ok api_ok beacon_ok : bool.

(** The station loses its network, or fails to join it. *)
Definition disconnected (s : main_state) : main_state * list main_event :=
  wifi_event_handler portal_ok api_ok beacon_ok WIFI_EVENT_STA_DISCONNECTED s.

Fixpoint after_failures (k : nat) (s : main_state) : main_state :=
  match k with O => s | S k => (disconnected (after_failures k s)).1 end.

Lemma after_failures_add j k s : after_failures (j + k) s = after_failures j (after_failures k s).
Proof. induction j as [|j IH]; [done|]. cbn [after_failures Nat.add]. by rewrite IH. Qed.

Definition next_network (c : tollgate_config_t) : tollgate_config_t := (tollgate_config_get_next_wifi c).2.

Lemma stop_services_link s c r b :
  ma_config (stop_services (with_link s c r b)).1 = c ∧
  ma_retry_count (stop_services (with_link s c r b)).1 = r.
Proof. unfold stop_services. by destruct (negb _). Qed.

Lemma disconnected_retry s :
  0 <= ma_retry_count s < 4 →
  ma_config (disconnected s).1 = ma_config s ∧ ma_retry_count (disconnected s).1 = ma_retry_count s + 1.
Proof.
  intros Hr. unfold disconnected, wifi_event_handler. rewrite i32_small by (pow_consts; lia).
  destruct (stop_services_link s (ma_config s) (ma_retry_count s + 1) false) as [Hc Hn].
  destruct (stop_services _) as [s2 ev]. cbn [fst] in *. rewrite Hn.
  by rewrite (proj2 (Z.ltb_lt _ _)) by (unfold MAX_STA_RETRY; lia).
Qed.

Lemma with_networks_fields l n k c :
  cf_networks (with_networks l n k c) = l ∧ cf_network_count (with_networks l n k c) = n ∧
  cf_current_network (with_networks l n k c) = k.
Proof. by destruct c. Qed.

(** The next network, if there is any, is the one joined. *)
Lemma next_network_joins c :
  0 < cf_network_count c →
  ∃ w, tollgate_config_get_next_wifi c = (Some w, next_network c) ∧
       tollgate_config_get_wifi (next_network c) = Some w.
Proof.
  intros Hn. assert ((cf_network_count c =? 0) = false) as Hz by (apply Z.eqb_neq; lia).
  unfold next_network, tollgate_config_get_next_wifi. rewrite Hz. cbn [snd].
  unfold tollgate_config_get_wifi.
  destruct (with_networks_fields (cf_networks c) (cf_network_count c)
    (Z.rem (i32 (cf_current_network c + 1)) (cf_network_count c)) c) as (_ & -> & _). rewrite Hz. eauto.
Qed.

Lemma disconnected_switch s :
  ma_retry_count s = 4 → 0 < cf_network_count (ma_config s) →
  ma_config (disconnected s).1 = next_network (ma_config s) ∧ ma_retry_count (disconnected s).1 = 0 ∧
  ∃ w ev, tollgate_config_get_wifi (next_network (ma_config s)) = Some w ∧
          (disconnected s).2 = ev ++ [EvSetSta w; EvConnect].
Proof.
  intros Hr Hn. unfold disconnected, wifi_event_handler. rewrite Hr. change (i32 (4 + 1)) with 5.
  destruct (stop_services_link s (ma_config s) 5 false) as [Hc Hm].
  destruct (stop_services _) as [s2 ev]. cbn [fst] in *. rewrite Hm, Hc. change (5 <? MAX_STA_RETRY) with false.
  destruct (next_network_joins (ma_config s) Hn) as (w & Hw & Hg). rewrite Hw. split_and!; [done|done|].
  exists w, (EvClientDown :: ev). by split.
Qed.

(** Four failures more, and the one after them switches. *)
Lemma after_failures_retry j s :
  0 <= ma_retry_count s → ma_retry_count s + Z.of_nat j <= 4 →
  ma_config (after_failures j s) = ma_config s ∧
  ma_retry_count (after_failures j s) = ma_retry_count s + Z.of_nat j.
Proof.
  intros H0 H4. induction j as [|j IH]; [cbn; split; [done|lia]|].
  destruct IH as [Hc Hr]; [lia|]. cbn [after_failures].
  destruct (disconnected_retry (after_failures j s)) as [-> ->]; [lia|]. rewrite Hc, Hr. split; [done|lia].
Qed.

Lemma next_network_count c : cf_network_count (next_network c) = cf_network_count c.
Proof. unfold next_network, tollgate_config_get_next_wifi. case_if; [done|]. by destruct c. Qed.

Lemma iter_next_network m c :
  config_wf c → 0 < cf_network_count c →
  let c' := Nat.iter m next_network c in
  config_wf c' ∧ cf_network_count c' = cf_network_count c ∧ cf_networks c' = cf_networks c ∧
  cf_current_network c' = (cf_current_network c + Z.of_nat m) mod cf_network_count c.
Proof.
  intros Hc Hn. cbv zeta. induction m as [|m (Hw & Hk & Hl & Hm)]; [|rewrite Nat.iter_succ].
  { change (Nat.iter 0 next_network c) with c. pose proof (wf_current c Hc). split_and!; try done. rewrite Z.mod_small; lia. }
  split_and!; [by apply get_next_wifi_wf|by rewrite next_network_count| |];
    set (c' := Nat.iter m next_network c) in *; unfold next_network, tollgate_config_get_next_wifi;
    (rewrite (proj2 (Z.eqb_neq (cf_network_count c') 0)) by lia); cbn [snd];
    (destruct (with_networks_fields (cf_networks c') (cf_network_count c')
      (Z.rem (i32 (cf_current_network c' + 1)) (cf_network_count c')) c') as (Hf & _ & Hg)); rewrite ?Hf, ?Hg; [done|].
  pose proof (wf_network_count c' Hw) as Hb.
  pose proof (wf_current c' Hw). unfold TOLLGATE_MAX_WIFI_NETWORKS in *.
  rewrite i32_small by (pow_consts; lia). rewrite Z.rem_mod_nonneg by lia.
  rewrite Hm, Hk, Z.add_mod_idemp_l by lia. f_equal. lia.
Qed.

Lemma after_failures_rounds m s :
  config_wf (ma_config s) → 0 < cf_network_count (ma_config s) → 0 <= ma_retry_count s <= 4 →
  let s' := after_failures (Z.to_nat (4 - ma_retry_count s) + 5 * m) s in
  ma_config s' = Nat.iter m next_network (ma_config s) ∧ ma_retry_count s' = 4.
Proof.
  intros Hc Hn Hr. cbv zeta. induction m as [|m [IHc IHr]].
  { rewrite Nat.mul_0_r, Nat.add_0_r.
    destruct (after_failures_retry (Z.to_nat (4 - ma_retry_count s)) s) as [-> ->]; [lia|lia|]. split; [done|lia]. }
  replace (Z.to_nat (4 - ma_retry_count s) + 5 * S m)%nat
    with (4 + S (Z.to_nat (4 - ma_retry_count s) + 5 * m))%nat by lia.
  rewrite after_failures_add.
  change (after_failures (S ?k) s) with (disconnected (after_failures k s)).1.
  set (t := after_failures (Z.to_nat (4 - ma_retry_count s) + 5 * m) s) in *.
  destruct (disconnected_switch t) as (Hc1 & Hr1 & _).
  { done. }
  { rewrite IHc. destruct (iter_next_network m (ma_config s) Hc Hn) as (_ & -> & _). lia. }
  destruct (after_failures_retry 4 (disconnected t).1) as [Hc2 Hr2]; [lia|lia|].
  rewrite Hc2, Hr2, Hc1, IHc, Nat.iter_succ. split; [done|lia].
Qed.

(** Some number of steps below [n] leads round a ring of [n] from any place to
    any other. *)
Lemma ring_reached n cur i :
  0 <= cur < n → 0 <= i < n → ∃ m : nat, Z.of_nat m < n ∧ (cur + Z.of_nat (S m)) mod n = i.
Proof.
  intros Hc Hi. destruct (decide (cur < i)).
  - exists (Z.to_nat (i - cur - 1)). split; [lia|].
    replace (cur + _) with i by lia. apply Z.mod_small. lia.
  - exists (Z.to_nat (i - cur - 1 + n)). split; [lia|].
    replace (cur + _) with (i + 1 * n) by lia. rewrite Z.mod_add by lia. apply Z.mod_small. lia.
Qed.
End networks.

(** * The services after a stop *)

Section stopped.
Variable portal_ok api_ok beacon_ok : bool.

Lemma disconnected_ups s :
  ups (disconnected portal_ok api_ok beacon_ok s).1 = ups (stop_services s).1 ∧
  ma_svc_task (disconnected portal_ok api_ok beacon_ok s).1 = ma_svc_task s ∧
  ma_pending (disconnected portal_ok api_ok beacon_ok s).1 = ma_pending s.
Proof.
  unfold disconnected, wifi_event_handler.
  assert (∀ c r b, ups (stop_services (with_link s c r b)).1 = ups (stop_services s).1 ∧
                   ma_svc_task (stop_services (with_link s c r b)).1 = ma_svc_task s ∧
                   ma_pending (stop_services (with_link s c r b)).1 = ma_pending s) as Hk.
  { intros. unfold stop_services. destruct s. cbn. by destruct (negb ma_services_running0). }
  destruct (Hk (ma_config s) (i32 (ma_retry_count s + 1)) false) as (H1 & H2 & H3).
  destruct (stop_services (with_link s _ _ _)) as [s2 ev]. cbn [fst] in *.
  destruct (_ <? _); [|destruct (tollgate_config_get_next_wifi _) as [[w|] c]]; by cbn [fst].
Qed.

Lemma stopped_gone s s1 :
  task_inv s → ma_services_running s = true →
  s1 = (disconnected portal_ok api_ok beacon_ok s).1 ∨ s1 = (ip_event_handler IP_EVENT_STA_LOST_IP s).1 →
  services_gone s1 ∧ dns_up s1 = false ∧
  (ma_ap_services_running s = true → ma_ap_services_running s1 = true ∧ ma_portal s1 = false).
Proof.
  intros Ht Hr Hs1. unfold task_inv in Ht. rewrite Hr in Ht.
  assert (ma_svc_task s = true ∧ ma_pending s = 0%nat) as [Htask Hpend]
    by (destruct (ma_svc_task s); cbn in Ht; [split; [done|lia]|lia]).
  assert (ups s1 = ups (stop_services s).1 ∧ ma_svc_task s1 = ma_svc_task s ∧ ma_pending s1 = ma_pending s)
    as (Hu & Hu1 & Hu2).
  { destruct Hs1 as [-> | ->]; [apply disconnected_ups|]. cbn [ip_event_handler].
    destruct (stop_services_counts s) as (? & ? & _). by split_and!. }
  rewrite stop_services_ups, Hr in Hu. injection Hu as H1 H2 H3 _ _ H6. unfold services_gone.
  rewrite H1, H2, H3, H6, Hu1, Hu2. by split_and!.
Qed.

Lemma gone_run s s' (P : Prop) :
  services_inv portal_ok api_ok beacon_ok s → services_gone s →
  (P → ma_ap_services_running s = true ∧ ma_portal s = false) →
  rtc (main_step portal_ok api_ok beacon_ok) s s' →
  services_gone s' ∧ dns_up s' = false ∧ (P → ma_ap_services_running s' = true ∧ ma_portal s' = false).
Proof.
  intros Hi Hg Hp Hr. induction Hr as [s|a b d Hab _ IH].
  - split_and!; [done| |done]. destruct Hi as (-> & _). by destruct Hg as (_ & _ & ?).
  - apply IH; eauto using services_inv_step, services_gone_step, portal_gone_step.
Qed.
End stopped.

(** * Properties *)

(** At every moment of a run of the gate, requests in between included: the
    DNS server runs exactly while the services run; the portal is up while they
    run; the payment interface and the price beacon are up while they or the
    access point's services run, for every server that starts when it is told to. *)
Theorem services_up_together portal_ok api_ok beacon_ok c s :
  rtc (main_step portal_ok api_ok beacon_ok) (app_main c) s →
  tollgate_core_is_dns_running (ma_core s) = ma_services_running s ∧
  (ma_services_running s = true → portal_ok = true → ma_portal s = true) ∧
  (ma_services_running s = true ∨ ma_ap_services_running s = true →
   (api_ok = true → ma_api s = true) ∧ (beacon_ok = true → ma_beacon s = true)).
Proof. exact (reachable_services_inv portal_ok api_ok beacon_ok c s). Qed.

(** C17: The services start once.  In a run with a network configured, when the
    first address has been got, the task it creates starts the services, DNS
    included.  When the station then loses its network or its address they stop,
    and whatever comes after - a new address too - never starts them again: no
    DNS server, and no portal if the access point's services were running. *)
Theorem services_start_once portal_ok api_ok beacon_ok c s :
  is_Some (tollgate_config_get_wifi c) →
  rtc (main_step portal_ok api_ok beacon_ok) (app_main c) s →
  (ma_svc_task s = false → ∀ gw net asic now,
   let s1 := (services_start_task portal_ok api_ok beacon_ok net asic now
                (ip_event_handler (IP_EVENT_STA_GOT_IP gw) s).1).1 in
   ma_services_running s1 = true ∧ tollgate_core_is_dns_running (ma_core s1) = true) ∧
  (ma_services_running s = true → ∀ s1 s2,
   s1 = (disconnected portal_ok api_ok beacon_ok s).1 ∨ s1 = (ip_event_handler IP_EVENT_STA_LOST_IP s).1 →
   rtc (main_step portal_ok api_ok beacon_ok) s1 s2 →
   ma_services_running s2 = false ∧ tollgate_core_is_dns_running (ma_core s2) = false ∧
   (ma_ap_services_running s = true → ma_portal s2 = false)).
Proof.
  intros Hw Hr. pose proof (reachable_task_inv _ _ _ c s Hw Hr) as Ht.
  pose proof (reachable_services_inv _ _ _ c s Hr) as Hs. split.
  - intros Hn gw net asic now. cbv zeta.
    assert (ma_services_running s = false) as Hf.
    { unfold task_inv in Ht. rewrite Hn in Ht. destruct (ma_services_running s); [cbn in Ht; lia|done]. }
    set (s0 := (ip_event_handler _ s).1). assert (ma_services_running s0 = false) as Hf0 by exact Hf.
    destruct (start_services_spec portal_ok api_ok beacon_ok net asic now s0 Hf0) as (H1 & H2 & _).
    unfold services_start_task. by destruct (start_services _ _ _ _ _ _ s0).
  - intros Hrun s1 s2 Hs1 H12.
    assert (services_gone s1 ∧ dns_up s1 = false ∧
            (ma_ap_services_running s = true → ma_ap_services_running s1 = true ∧ ma_portal s1 = false))
      as (Hg & Hd & Hp) by by apply (stopped_gone portal_ok api_ok beacon_ok s).
    assert (services_gone s2 ∧ dns_up s2 = false ∧
            (ma_ap_services_running s = true → ma_ap_services_running s2 = true ∧ ma_portal s2 = false))
      as ((_ & _ & ?) & ? & Hp2) by (apply (gone_run portal_ok api_ok beacon_ok s1); [|done..]; destruct Hs1 as [-> | ->];
          [apply (services_inv_step _ _ _ s); [apply step_wifi|done]
          |apply (services_inv_step _ _ _ s); [apply step_ip|done]]).
    split_and!; [done|done|]. intros Ha. by destruct (Hp2 Ha).
Qed.

(** C18: Every network is tried.  While the station fails to join, however it got
    there, each configured network [i] has its turn within five failures per
    network: the driver is given that network's name and told to connect. *)
Theorem every_network_is_tried portal_ok api_ok beacon_ok s i :
  config_wf (ma_config s) → 0 <= ma_retry_count s < MAX_STA_RETRY →
  0 <= i < cf_network_count (ma_config s) →
  ∃ (k : nat) w ev,
    Z.of_nat k < 5 * cf_network_count (ma_config s) ∧
    let t := disconnected portal_ok api_ok beacon_ok (after_failures portal_ok api_ok beacon_ok k s) in
    t.2 = ev ++ [EvSetSta w; EvConnect] ∧
    cf_current_network (ma_config t.1) = i ∧ tollgate_config_get_wifi (ma_config t.1) = Some w ∧
    st_ssid w = strncpy 31 (nw_ssid (default network_zero (cf_networks (ma_config s) !! Z.to_nat i))).
Proof.
  intros Hc Hr Hi. unfold MAX_STA_RETRY in Hr. pose proof (wf_current _ Hc) as Hcur.
  destruct (ring_reached (cf_network_count (ma_config s)) (cf_current_network (ma_config s)) i)
    as (m & Hm & Hcm); [lia|lia|].
  destruct (after_failures_rounds portal_ok api_ok beacon_ok m s Hc) as [Hmc Hmr]; [lia|lia|].
  destruct (iter_next_network m _ Hc ltac:(lia)) as (_ & Hk & _).
  destruct (iter_next_network (S m) _ Hc ltac:(lia)) as (_ & HSk & HSl & HSm).
  destruct (disconnected_switch portal_ok api_ok beacon_ok _ Hmr) as (Hn & _ & w & ev & Hw & Hev).
  { rewrite Hmc, Hk. lia. }
  rewrite Hmc, <- Nat.iter_succ in Hn, Hw. set (c' := Nat.iter (S m) next_network (ma_config s)) in *.
  exists (Z.to_nat (4 - ma_retry_count s) + 5 * m)%nat, w, ev. split; [lia|]. cbv zeta.
  rewrite Hn. split_and!; [done|by rewrite HSm|done|].
  unfold tollgate_config_get_wifi in Hw. rewrite (proj2 (Z.eqb_neq (cf_network_count c') 0)) in Hw by lia.
  apply Some_inj in Hw as <-. cbn [st_ssid]. rewrite HSl, HSm, Hcm, HSk, Z.rem_small by lia. done.
Qed.

(** The core, with the platform's callbacks, sells as the payment interface
    does: the same allotment for a token, in the same unit, at every price below
    65536.  A higher price loses its upper bits in the core only: the core sells
    at 1 what the interface sells at 65537. *)
Theorem platform_sells_like_api c now token :
  (is_u16 (cf_price_per_step c) →
   let p := Some (tollgate_esp_get_platform c now) in
   metric_is_bytes p = is_bytes c ∧
   tollgate_core_cashu_calculate_allotment (tk_total_amount token) (price_sats p) (u64 (step_size p)) =
   api_allotment c token) ∧
  (cf_price_per_step c = 65537 → price_sats (Some (tollgate_esp_get_platform c now)) = 1).
Proof.
  split.
  - intros Hp. cbv zeta. unfold metric_is_bytes, is_bytes, api_allotment, price_sats, step_size.
    unfold metric_is_bytes, metric. cbn [tollgate_esp_get_platform mbind option_bind default get_metric
      get_price_sats get_step_ms get_step_bytes]. split; [done|]. rewrite (u16_small _ Hp).
    unfold is_bytes, u64. rewrite (Z.mod_small (cf_price_per_step c)) by (destruct Hp; pow_consts; lia).
    done.
  - intros Hp. cbn. by rewrite Hp.
Qed.

(** * Concrete runs *)

Definition net_example : Z * Z * Z * option Z := (167772161, 16843009, 0, None).

(** An address is got and the task runs. *)
Definition main_joined : main_state :=
  (services_start_task true true true net_example false 0
     (ip_event_handler (IP_EVENT_STA_GOT_IP 1) (app_main config_example)).1).1.

Lemma main_joined_run : rtc (main_step true true true) (app_main config_example) main_joined.
Proof.
  eapply rtc_l; [apply (step_ip true true true _ (IP_EVENT_STA_GOT_IP 1))|].
  eapply rtc_l; [|apply rtc_refl]. apply step_task. vm_compute. lia.
Defined.

Lemma services_up_together_witness :
  ma_services_running main_joined = true ∧
  tollgate_core_is_dns_running (ma_core main_joined) = ma_services_running main_joined ∧
  ma_portal main_joined = true.
Proof.
  destruct (services_up_together true true true config_example main_joined main_joined_run) as (H1 & H2 & _).
  split_and!; [vm_compute; reflexivity|exact H1|apply H2; [vm_compute; reflexivity|reflexivity]].
Defined.

Lemma services_start_once_witness :
  let s := main_joined in
  let s1 := (ip_event_handler IP_EVENT_STA_LOST_IP s).1 in
  let s2 := (ip_event_handler (IP_EVENT_STA_GOT_IP 1) s1).1 in
  ma_services_running s2 = false ∧ tollgate_core_is_dns_running (ma_core s2) = false.
Proof.
  cbv zeta.
  destruct (services_start_once true true true config_example main_joined) as [_ H].
  - vm_compute. eexists. reflexivity.
  - exact main_joined_run.
  - destruct (H ltac:(vm_compute; reflexivity) _ (ip_event_handler (IP_EVENT_STA_GOT_IP 1)
      (ip_event_handler IP_EVENT_STA_LOST_IP main_joined).1).1 (or_intror eq_refl)) as (H1 & H2 & _).
    + eapply rtc_l; [apply (step_ip true true true _ (IP_EVENT_STA_GOT_IP 1))|apply rtc_refl].
    + split; [exact H1|exact H2].
Defined.

Lemma every_network_is_tried_witness :
  0 < cf_network_count config_example ∧
  ∃ (k : nat) w ev,
    Z.of_nat k < 5 * cf_network_count config_example ∧
    let t := disconnected true true true (after_failures true true true k (app_main config_example)) in
    t.2 = ev ++ [EvSetSta w; EvConnect] ∧
    cf_current_network (ma_config t.1) = 0 ∧ tollgate_config_get_wifi (ma_config t.1) = Some w ∧
    st_ssid w = strncpy 31 (nw_ssid (default network_zero (cf_networks config_example !! Z.to_nat 0))).
Proof.
  split; [vm_compute; reflexivity|].
  apply (every_network_is_tried true true true (app_main config_example) 0).
  - exact (load_config_wf _ _ config_example_loaded).
  - vm_compute. split; [discriminate|reflexivity].
  - vm_compute. split; [discriminate|reflexivity].
Defined.

Lemma platform_sells_like_api_witness :
  metric_is_bytes (Some (tollgate_esp_get_platform config_example 0)) = is_bytes config_example.
Proof.
  destruct (platform_sells_like_api config_example 0 (mk_token [] "" 0)) as [H _].
  apply H. vm_compute. split; [discriminate|reflexivity].
Defined.
