(* ===== verification/RemoteMiner.v ===== *)
(** The miner that works for an upstream gate (main/remote_miner.c): it fetches
    the gate's job, tries a thousand nonces and submits the first that meets the
    target.  HTTP, SHA-256 and the random start are parameters; a [None] of a
    whole operation is a read through NULL.  Start and stop are in [MinerTasks]. *)

From S2P Require Import Prelude CStr F64 Json Dns Firewall Session Config Mining Cashu Core.
From S2P Require Import StratumProxy StratumClient Api.
#[local] Open Scope Z_scope.

Record remote_job_t := mk_remote_job {
  rj_job_id : Z;
  rj_prevhash : list Z;
  rj_merkle_root : list Z;
  rj_version : Z;
  rj_nbits : Z;
  rj_ntime : Z;
  rj_target : list Z
}.

Definition remote_job_zero : remote_job_t :=
  mk_remote_job 0 (replicate 32 0) (replicate 32 0) 0 0 0 (replicate 32 0).

(** Three bytes of the mantissa at the place the exponent gives. *)
Definition nbits_to_target (nbits : Z) : list Z :=
  let exp := Z.land (Z.shiftr nbits 24) 0xFF in
  let mantissa := Z.land nbits 0x007FFFFF in
  let pos := Z.to_nat (Z.max 0 (32 - exp)) in
  foldl (λ target i,
    if (pos + i <? 32)%nat
    then <[(pos + i)%nat := Z.land (Z.shiftr mantissa (8 * (2 - Z.of_nat i))) 0xFF]> target
    else target) (replicate 32 0) [0; 1; 2]%nat.

Definition build_header (job : remote_job_t) (nonce : Z) : list Z :=
  put_le32 (rj_version job) ++ rj_prevhash job ++ rj_merkle_root job
  ++ put_le32 (rj_ntime job) ++ put_le32 (rj_nbits job) ++ put_le32 nonce.

(** Stops at the end of the text or at the first pair that is no number. *)
Fixpoint hex_to_bytes (hex : string) (out : list Z) : list Z :=
  match out, hex with
  | _ :: out', String _ (String _ hex') =>
      match scan_hex2 hex with
      | Some b => u8 b :: hex_to_bytes hex' out'
      | None => out
      end
  | _, _ => out
  end.

Section miner.
Context `{CUndef} `{CJson J}.
Variable mbedtls_sha256 : list Z → list Z.
(** Status and bytes read. *)
Variable http_get : string → option (Z * list Z).
Variable http_post : string → string → option Z.
Variable s_gw_ip : string.

Definition check_pow (header target : list Z) : bool :=
  compare_bytes (rev (sha256d mbedtls_sha256 header)) target.

(** The outer option: a string item is read through NULL; the inner one: no
    job. *)
Definition job_of (root : J) : option (option remote_job_t) :=
  match cJSON_GetObjectItem root "job_id", cJSON_GetObjectItem root "prevhash",
        cJSON_GetObjectItem root "merkle_root", cJSON_GetObjectItem root "version",
        cJSON_GetObjectItem root "nbits", cJSON_GetObjectItem root "ntime" with
  | Some j_job_id, Some j_prevhash, Some j_merkle, Some j_version, Some j_nbits, Some j_ntime =>
      prevhash ← str_of j_prevhash;
      merkle ← str_of j_merkle;
      let nbits := u32_of_f64 (valuedouble j_nbits) in
      Some (Some (mk_remote_job (u32_of_f64 (valuedouble j_job_id))
                    (hex_to_bytes prevhash (replicate 32 0)) (hex_to_bytes merkle (replicate 32 0))
                    (u32_of_f64 (valuedouble j_version)) nbits (u32_of_f64 (valuedouble j_ntime))
                    (nbits_to_target nbits)))
  | _, _, _, _, _, _ => Some None
  end.

Definition fetch_job : option (option remote_job_t) :=
  match http_get (str_take 63 ("http://" +:+ s_gw_ip +:+ ":2121/mining/job")%string) with
  | Some (status, resp) =>
      if negb (status =? 200) then Some None else
      match cJSON_Parse (cstr (take 2047 resp)) with
      | Some root => job_of root
      | None => Some None
      end
  | None => Some None
  end.

Definition submit_body (job_id nonce ntime version : Z) : string :=
  ("{" +:+ dq "job_id" +:+ ":" +:+ print_u job_id +:+ "," +:+ dq "nonce" +:+ ":" +:+ print_u nonce
   +:+ "," +:+ dq "ntime" +:+ ":" +:+ print_u ntime +:+ "," +:+ dq "version" +:+ ":"
   +:+ print_u version +:+ "}")%string.

Definition submit_share (job_id nonce ntime version : Z) : esp_err_t :=
  match http_post (str_take 63 ("http://" +:+ s_gw_ip +:+ ":2121/mining/share")%string)
          (submit_body job_id nonce ntime version) with
  | Some status => if status =? 200 then ESP_OK else ESP_FAIL
  | None => ESP_FAIL
  end.

(** The loop over the nonces; [todo] bounds it by the thousand turns it has. *)
Definition find_nonce (todo : nat) (job : remote_job_t) (nonce end_nonce : Z) : option Z :=
  u32_search (λ n, check_pow (build_header job n) (rj_target job)) todo nonce end_nonce.

(** One turn of the task: the nonce and the answer of the submission, if a nonce
    is found. *)
Definition mine_round (job : remote_job_t) (start_nonce : Z) : option (Z * esp_err_t) :=
  let end_nonce := u32 (start_nonce + 1000) in
  (λ nonce, (nonce, submit_share (rj_job_id job) nonce (rj_ntime job) (rj_version job)))
  <$> find_nonce 1001 job start_nonce end_nonce.
End miner.

(** * The job as the gate serves it *)

Lemma hex_to_bytes_hex_bytes l out :
  Forall is_u8 l → length out = length l → hex_to_bytes (hex_bytes l) out = l.
Proof.
  intros Hl. revert out. induction Hl as [|b l Hb Hl IH]; intros [|o out] Hlen; try done.
  cbn [hex_bytes]. pose proof (scan_hex2_hex2 b (hex_bytes l) Hb) as Hs.
  unfold hex2 in *. rewrite !str_append_cons, str_append_nil in *.
  cbn [hex_to_bytes]. rewrite Hs, u8_small by done. f_equal. apply IH. by injection Hlen.
Qed.

(** The miner reads from the gate's answer to [GET /mining/job] the job the
    gate holds: its number, both hashes and the three words of the header, with
    the target that [nbits] stands for. *)
Theorem mining_job_roundtrip `{CUndef} parse job m tree :
  api_get_mining_job job m = ReplyJson 200 tree →
  is_u32 (jb_job_id job) → is_u32 (jb_version job) → is_u32 (jb_nbits job) → is_u32 (jb_ntime job) →
  length (jb_prevhash job) = 32%nat → Forall is_u8 (jb_prevhash job) →
  length (jb_merkle_root job) = 32%nat → Forall is_u8 (jb_merkle_root job) →
  @job_of _ jval (tree_json parse) tree =
  Some (Some (mk_remote_job (jb_job_id job) (jb_prevhash job) (jb_merkle_root job) (jb_version job)
                (jb_nbits job) (jb_ntime job) (nbits_to_target (jb_nbits job)))).
Proof.
  intros Hr Hid Hv Hn Ht Hlp Hbp Hlm Hbm. unfold api_get_mining_job in Hr.
  destruct (negb _); [done|]. injection Hr as <-. unfold job_of, valuedouble, JInt.
  json_items.
  cbn -[u32_of_f64 f64_of_Z hex_to_bytes hex_bytes nbits_to_target replicate].
  rewrite !u32_of_f64_of_Z, !hex_to_bytes_hex_bytes by (done || by rewrite length_replicate). done.
Qed.

(** * The target *)

(** Three bytes at position [pos]. *)
Lemma place_target pos a b c :
  (pos ≤ 29)%nat →
  get_be (foldl (λ t i, if (pos + i <? 32)%nat then <[(pos + i)%nat := nth i [a; b; c] 0]> t else t)
            (replicate 32 0) [0; 1; 2]%nat) =
  (a * 65536 + b * 256 + c) * 256 ^ Z.of_nat (29 - pos).
Proof.
  intros Hp. do 30 (destruct pos as [|pos]; [cbn; lia|]). lia.
Qed.

Lemma mantissa_bytes m :
  0 <= m < 2 ^ 24 →
  Z.land (Z.shiftr m 16) 255 * 65536 + Z.land (Z.shiftr m 8) 255 * 256 + Z.land (Z.shiftr m 0) 255 = m.
Proof.
  intros Hm. change 255 with (Z.ones 8). rewrite !Z.land_ones, !Z.shiftr_div_pow2 by lia.
  change (2 ^ 24) with 16777216 in Hm. change (2 ^ 16) with 65536. change (2 ^ 0) with 1. zlia.
Qed.

Lemma nbits_to_target_value nbits :
  let exp := Z.land (Z.shiftr nbits 24) 0xFF in
  3 <= exp <= 32 →
  get_be (nbits_to_target nbits) = Z.land nbits 0x007FFFFF * 256 ^ (exp - 3).
Proof.
  intros exp He. pose proof (place_target (Z.to_nat (Z.max 0 (32 - exp)))) as Hp.
  set (m := Z.land nbits 0x007FFFFF). assert (0 <= m < 2 ^ 24) as Hm.
  { unfold m. change 0x007FFFFF with (Z.ones 23). rewrite Z.land_ones by lia.
    change (2 ^ 23) with 8388608. change (2 ^ 24) with 16777216. zlia. }
  specialize (Hp (Z.land (Z.shiftr m 16) 255) (Z.land (Z.shiftr m 8) 255) (Z.land (Z.shiftr m 0) 255)).
  rewrite mantissa_bytes in Hp by done. replace (exp - 3) with (Z.of_nat (29 - Z.to_nat (Z.max 0 (32 - exp)))) by lia.
  rewrite <- Hp by lia. done.
Qed.

Lemma nbits_to_target_shape nbits :
  length (nbits_to_target nbits) = 32%nat ∧ Forall is_u8 (nbits_to_target nbits).
Proof.
  unfold nbits_to_target. set (pos := Z.to_nat _). set (m := Z.land nbits _).
  assert (∀ i, is_u8 (Z.land (Z.shiftr m i) 0xFF)) as Hb.
  { intros i. change 0xFF with (Z.ones 8). rewrite Z.land_ones by lia.
    unfold is_u8. apply Z.mod_pos_bound. lia. }
  generalize [0; 1; 2]%nat as idx. intros idx.
  assert (length (replicate 32 0) = 32%nat ∧ Forall is_u8 (replicate 32 0)) as Ht.
  { split; [done|]. by apply Forall_replicate. }
  revert Ht. generalize (replicate 32 0). induction idx as [|i idx IH]; intros t [Hl Ht]; [done|].
  cbn [foldl]. apply IH. case_if; [|done]. rewrite length_insert. split; [done|].
  by apply Forall_insert.
Qed.

(** For an exponent from 3 to 32 the target is the number the compact form
    stands for, mantissa times 256 to the power of the exponent less three, and
    a header passes the check exactly when its double hash, read as the network
    reads it, does not exceed that number. *)
Theorem remote_pow_exact sha nbits header :
  let exp := Z.land (Z.shiftr nbits 24) 0xFF in
  sha256_bytes sha →
  3 <= exp <= 32 →
  check_pow sha header (nbits_to_target nbits) =
  (get_be (rev (sha256d sha header)) <=? Z.land nbits 0x007FFFFF * 256 ^ (exp - 3)).
Proof.
  intros exp Hsha He. destruct (nbits_to_target_shape nbits) as [Hl Hb].
  destruct (Hsha (sha header)) as [Hsl Hsb]. unfold check_pow, sha256d.
  rewrite compare_bytes_spec; [|by apply Forall_rev|done|by rewrite length_rev, Hl].
  by rewrite nbits_to_target_value.
Qed.

(** * The search *)

Section search.
Context (sha : list Z → list Z).

(** A round tries the thousand nonces from the start in order and stops at
    the first whose header meets the target, or finds none; a round whose last
    nonce would pass 2^32 tries nothing. *)
Theorem mine_round_first_nonce http_post gw job start :
  is_u32 start →
  fst <$> mine_round sha http_post gw job start =
  if start + 1000 <? 2 ^ 32
  then List.find (λ n, check_pow sha (build_header job n) (rj_target job)) (seqZ start 1000)
  else None.
Proof.
  intros Hs. unfold mine_round. rewrite <- option_fmap_compose.
  transitivity (id <$> find_nonce sha 1001 job start (u32 (start + 1000))); [by apply option_fmap_ext|].
  rewrite option_fmap_id. by apply (u32_search_window _ 1000).
Qed.
End search.

(** * Shares *)

Section share.
Context `{CUndef} (parse : string → option jval).
#[local] Instance J0 : CJson jval := tree_json parse.

(** The tree the text of a share stands for. *)
Definition share_tree (job_id nonce ntime version : Z) : jval :=
  JObj [("job_id"%string, JInt job_id); ("nonce"%string, JInt nonce);
        ("ntime"%string, JInt ntime); ("version"%string, JInt version)].

Lemma share_tree_fields job_id nonce ntime version :
  is_u32 job_id → is_u32 nonce → is_u32 ntime →
  share_fields (share_tree job_id nonce ntime version) = Some (job_id, nonce, ntime).
Proof.
  intros Hj Hn Ht. unfold share_fields, share_tree, valuedouble, JInt. json_items.
  cbn -[u32_of_f64 f64_of_Z]. by rewrite !u32_of_f64_of_Z.
Qed.

Lemma submit_body_fits job_id nonce ntime version :
  0 <= job_id → 0 <= nonce → 0 <= ntime → 0 <= version →
  no_nul (submit_body job_id nonce ntime version) ∧
  (0 < length (str_bytes (submit_body job_id nonce ntime version)) < 512)%nat.
Proof.
  intros. unfold submit_body. split.
  - repeat (apply no_nul_app); auto with tg_db; repeat constructor; done.
  - rewrite length_str_bytes, !str_append_length.
    pose proof (print_u_length job_id). pose proof (print_u_length nonce).
    pose proof (print_u_length ntime). pose proof (print_u_length version).
    change (String.length (dq "job_id")) with 8%nat. change (String.length (dq "nonce")) with 7%nat.
    change (String.length (dq "ntime")) with 7%nat. change (String.length (dq "version")) with 9%nat.
    cbn [String.length]. lia.
Qed.

(** A share of the miner, sent while the gate still holds the job it was
    mined for, is never refused: the gate hands the pool client the job, nonce
    and time the miner found and answers 200 with the pool's verdict. *)
Theorem submitted_share_reaches_pool `{MacLookup} pf ticks cfg pcfg written job nonce ntime version
    peer pool s r s' pool' ev :
  let text := submit_body (jb_job_id job) nonce ntime version in
  parse text = Some (share_tree (jb_job_id job) nonce ntime version) →
  jb_valid job = true → is_u32 (jb_job_id job) → is_u32 nonce → is_u32 ntime → is_u32 version →
  api_post_mining_share pf ticks cfg pcfg written job
    (mk_req peer (Z.of_nat (String.length text)) (Some (str_bytes text))) pool s =
    Some (r, s', pool', ev) →
  reply_status r = 200 ∧
  ∃ err, stratum_client_submit_share pcfg written (jb_job_id job) nonce ntime pool =
    Some (err, pool', ev).
Proof.
  intros text Hp Hv Hj Hn Ht Hver. unfold is_u32 in *.
  destruct (submit_body_fits (jb_job_id job) nonce ntime version) as [Hnul Hl]; [lia..|].
  fold text in Hnul, Hl. rewrite length_str_bytes in Hl. unfold api_post_mining_share.
  cbn [rq_content_len rq_body]. cbv zeta.
  rewrite (proj2 (Z.leb_gt _ 0)), (proj2 (Z.ltb_ge 512 _)), (proj2 (Z.eqb_neq _ 512)) by lia.
  cbn [orb]. rewrite cstr_str_bytes by done.
  change (@cJSON_Parse jval J0 text) with (parse text). rewrite Hp, share_tree_fields by done.
  rewrite Hv, Z.eqb_refl. cbn [negb orb].
  destruct (stratum_client_submit_share _ _ _ _ _ _) as [[[err pool1] ev1]|]; [|done].
  cbn [mbind option_bind]. destruct (tollgate_core_mining_get_or_create_client _ _ _) as [slot m2].
  intros Hr. assert (reply_status r = 200 ∧ pool1 = pool' ∧ ev1 = ev) as (Hst & -> & ->); [|by eauto].
  case_bool_decide; [destruct (slot ≫= _); [|done]|]; cbn [mbind option_bind] in Hr; by injection Hr as <- _ <- <-.
Qed.
End share.

(** * Behaviour worth knowing *)

(** The miner writes the words of the header with the low byte first, the gate's
    own proxy with the high byte first, so for the version in use the two hash
    different headers for one job and nonce. *)
Theorem headers_disagree job rj nonce ntime :
  jb_version job = 0x20000000 → rj_version rj = jb_version job →
  RemoteMiner.build_header rj nonce ≠ StratumProxy.build_header job nonce ntime (jb_version job).
Proof.
  intros Hv Hr. unfold build_header, StratumProxy.build_header. rewrite Hr, Hv. done.
Qed.

(** * Concrete rounds *)

Lemma mining_job_roundtrip_witness :
  @job_of cundef_zero jval (tree_json (λ _, None))
    match api_get_mining_job job_example mining_boot with ReplyJson _ t => t | _ => JNull end =
  Some (Some (mk_remote_job 7 (replicate 32 0) (replicate 32 0) 0x20000000 0x1d00ffff 0
                (nbits_to_target 0x1d00ffff))).
Proof.
  apply (@mining_job_roundtrip cundef_zero (λ _, None) job_example mining_boot);
    [reflexivity|vm_compute; split; (discriminate || reflexivity)..|reflexivity|by repeat constructor
    |reflexivity|by repeat constructor].
Defined.

Lemma remote_pow_exact_witness :
  check_pow sha_small (replicate 80 0) (nbits_to_target 0x1d00ffff) =
  (get_be (rev (sha256d sha_small (replicate 80 0))) <=? 0xffff * 256 ^ 26).
Proof.
  apply (remote_pow_exact sha_small 0x1d00ffff (replicate 80 0) sha_small_bytes).
  vm_compute. split; discriminate.
Defined.

(** A hash that is small for the nonces ending in 42. *)
Definition sha_42 (data : list Z) : list Z :=
  match data !! 76%nat with
  | Some b => if b =? 42 then replicate 32 0 else replicate 32 0xFF
  | None => data
  end.
Definition remote_example : remote_job_t :=
  mk_remote_job 7 (replicate 32 0) (replicate 32 0) 0x20000000 0x1d00ffff 0 (nbits_to_target 0x1d00ffff).

Lemma mine_round_first_nonce_witness :
  fst <$> mine_round sha_42 (λ _ _, Some 200) "10.0.0.1" remote_example 0 = Some 42.
Proof.
  rewrite (mine_round_first_nonce sha_42); [vm_compute; reflexivity|].
  vm_compute. split; (discriminate || reflexivity).
Defined.

Definition share_text : string := submit_body 7 42 0 0x20000000.
Definition share_parse (t : string) : option jval :=
  if bool_decide (t = share_text) then Some (share_tree 7 42 0 0x20000000) else None.
Definition pool_example : stratum_client_state_t :=
  mk_stratum_client true "pool" 3333 0 0 0 0 4 0 5.
Definition pool_config_example : pool_config := mk_pool_config "pool" 3333 "user" "x" None.
Definition share_result :=
  @api_post_mining_share mac_none cundef_zero jval (tree_json share_parse) platform_example 1000
    config_example pool_config_example true job_example
    (mk_req (Some 5) (Z.of_nat (String.length share_text)) (Some (str_bytes share_text)))
    pool_example core_boot.

Lemma submitted_share_reaches_pool_witness :
  match share_result with
  | Some (r, _, pool', ev) =>
      reply_status r = 200 ∧
      ∃ err, stratum_client_submit_share pool_config_example true 7 42 0 pool_example =
        Some (err, pool', ev)
  | None => False
  end.
Proof.
  assert (is_Some share_result) as [[[[r s'] pool'] ev] Hr] by (vm_compute; eauto). rewrite Hr.
  apply (@submitted_share_reaches_pool cundef_zero share_parse mac_none platform_example 1000
    config_example pool_config_example true job_example 42 0 0x20000000 (Some 5) pool_example core_boot
    r s' pool' ev); [reflexivity|reflexivity|unfold is_u32; cbn; lia..|exact Hr].
Defined.
