(* ===== verification/Nip04.v ===== *)
(** The encryption of direct messages (main/nip04.c): base64, PKCS#7 padding and
    the framing of initialisation vector and ciphertext.  AES, the curve and the
    random bytes come from libraries and are parameters.  A [None] of a whole
    operation is a write past one of its buffers. *)

From S2P Require Import Prelude CStr.
#[local] Open Scope Z_scope.

(** * Base64 *)

Definition base64_table : list Z :=
  str_bytes "ABCDEFGHIJKLMNOPQRSTUVWXYZabcdefghijklmnopqrstuvwxyz0123456789+/".

Definition base64_char (six : Z) : Z := nth (Z.to_nat six) base64_table 0.

(** [=] *)
Definition pad_char : Z := 61.

(** One turn of the loop: three bytes, of which the last ones may be missing. *)
Definition encode_triple (a : Z) (b c : option Z) : list Z :=
  let triple := Z.lor (Z.lor (Z.shiftl a 16) (Z.shiftl (default 0 b) 8)) (default 0 c) in
  [base64_char (Z.land (Z.shiftr triple 18) 0x3F); base64_char (Z.land (Z.shiftr triple 12) 0x3F);
   match b with Some _ => base64_char (Z.land (Z.shiftr triple 6) 0x3F) | None => pad_char end;
   match c with Some _ => base64_char (Z.land triple 0x3F) | None => pad_char end].

Fixpoint base64_encode (src : list Z) : list Z :=
  match src with
  | a :: b :: c :: src' => encode_triple a (Some b) (Some c) ++ base64_encode src'
  | [a; b] => encode_triple a (Some b) None
  | [a] => encode_triple a None None
  | [] => []
  end.

Definition base64_val (c : Z) : Z :=
  if (65 <=? c) && (c <=? 90) then c - 65
  else if (97 <=? c) && (c <=? 122) then c - 97 + 26
  else if (48 <=? c) && (c <=? 57) then c - 48 + 52
  else if c =? 43 then 62
  else if c =? 47 then 63
  else -1.

(** The value of a character as [uint32_t]; padding is zero in the last two. *)
Definition six_bits (c : Z) : Z := u32 (base64_val c).
Definition six_bits_or_pad (c : Z) : Z := if c =? pad_char then 0 else six_bits c.

Definition decode_quad (a b c d : Z) : list Z :=
  let triple := Z.lor (Z.lor (Z.lor (u32 (Z.shiftl (six_bits a) 18)) (u32 (Z.shiftl (six_bits b) 12)))
                        (u32 (Z.shiftl (six_bits_or_pad c) 6))) (six_bits_or_pad d) in
  [Z.land (Z.shiftr triple 16) 0xFF; Z.land (Z.shiftr triple 8) 0xFF; Z.land triple 0xFF].

(** The loop, without the bound on what is stored. *)
Fixpoint decode_quads (src : list Z) : list Z :=
  match src with
  | a :: b :: c :: d :: src' => decode_quad a b c d ++ decode_quads src'
  | _ => []
  end.

Definition ends_with_pad (n : nat) (src : list Z) : Z :=
  if bool_decide (rev src !! n = Some pad_char) then 1 else 0.

Definition base64_decode (src : list Z) : list Z :=
  let padding := ends_with_pad 0 src + ends_with_pad 1 src in
  let expected := u32 (Z.of_nat (length src) / 4 * 3 - padding) in
  take (Z.to_nat expected) (decode_quads src).

(** * Padding *)

Definition pkcs7_pad (data : list Z) : list Z :=
  let pad := (16 - length data mod 16)%nat in
  data ++ replicate pad (Z.of_nat pad).

(** The length without the padding, zero when it is wrong.  The buffer is never
    shorter than the padding it announces, as the caller passes at least 16
    bytes. *)
Definition pkcs7_unpad (buf : list Z) : Z :=
  match last buf with
  | None => 0
  | Some pad =>
      if (pad =? 0) || (16 <? pad) then 0 else
      let keep := Z.of_nat (length buf) - pad in
      if forallb (λ b, b =? pad) (drop (Z.to_nat keep) buf) then keep else 0
  end.

(** * Messages *)

Section nip04.
(** [secp256k1_ec_pubkey_parse], [secp256k1_ecdh] with the hash that copies the
    x coordinate, and AES-256-CBC on a buffer. *)
Context {P : Type}.
Variable secp256k1_ec_pubkey_parse : list Z → option P.
Variable secp256k1_ecdh_x : P → list Z → list Z.
Variable aes_cbc_encrypt : list Z → list Z → list Z → list Z.
Variable aes_cbc_decrypt : list Z → list Z → list Z → list Z.

Definition compute_shared_secret (privkey pubkey32 : option (list Z)) : list Z :=
  match privkey, pubkey32 with
  | Some priv, Some pub =>
      match secp256k1_ec_pubkey_parse (2 :: pub) with
      | Some pk => secp256k1_ecdh_x pk priv
      | None => replicate 32 0
      end
  | _, _ => replicate 32 0
  end.

Definition nip04_encrypt (iv : list Z) (sender_privkey recipient_pubkey : option (list Z))
    (plaintext : string) : option (list Z) :=
  let shared_secret := compute_shared_secret sender_privkey recipient_pubkey in
  let padded := pkcs7_pad (str_bytes plaintext) in
  if (4096 <? length padded)%nat then None else
  Some (base64_encode (iv ++ aes_cbc_encrypt shared_secret iv padded)).

(** The result and, unless it is -1, the text. *)
Definition nip04_decrypt (plaintext_max : Z) (recipient_privkey sender_pubkey : option (list Z))
    (ciphertext_base64 : list Z) : option (Z * list Z) :=
  let shared_secret := compute_shared_secret recipient_privkey sender_pubkey in
  let combined := base64_decode ciphertext_base64 in
  if (4112 <? length combined)%nat then None else
  if (length combined <? 32)%nat then Some (-1, []) else
  let iv := take 16 combined in
  let ct := aes_cbc_decrypt shared_secret iv (drop 16 combined) in
  let pt_len := pkcs7_unpad ct in
  if (pt_len =? 0) || (plaintext_max <=? pt_len) then Some (-1, []) else
  Some (pt_len, take (Z.to_nat pt_len) ct).
End nip04.

(** * Base64 read back *)

Lemma base64_char_val i : 0 <= i < 64 → base64_val (base64_char i) = i ∧ base64_char i ≠ pad_char.
Proof.
  intros Hi. assert (Forall (λ n, base64_val (nth n base64_table 0) = Z.of_nat n ∧
    nth n base64_table 0 ≠ pad_char) (seq 0 64)) as Hall.
  { repeat (apply Forall_cons; split; [split; [reflexivity|discriminate]|]). apply Forall_nil_2. }
  pose proof (proj1 (List.Forall_forall _ _) Hall (Z.to_nat i)) as Hn. cbv beta in Hn. rewrite Z2Nat.id in Hn by lia.
  apply Hn. apply in_seq. lia.
Qed.

Lemma six_bits_char i : 0 <= i < 64 → six_bits (base64_char i) = i ∧ six_bits_or_pad (base64_char i) = i.
Proof.
  intros Hi. destruct (base64_char_val i Hi) as [Hv Hp]. unfold six_bits_or_pad.
  rewrite (proj2 (Z.eqb_neq _ _) Hp). unfold six_bits. rewrite Hv, u32_small by (unfold is_u32; lia). done.
Qed.

(** The four groups of six bits of three bytes, and the bytes back from them. *)
Lemma decode_groups a b c :
  is_u8 a → is_u8 b → is_u8 c →
  let t := Z.lor (Z.lor (Z.shiftl a 16) (Z.shiftl b 8)) c in
  ∃ s0 s1 s2 s3, 0 <= s0 < 64 ∧ 0 <= s1 < 64 ∧ 0 <= s2 < 64 ∧ 0 <= s3 < 64 ∧
    s0 = Z.land (Z.shiftr t 18) 0x3F ∧ s1 = Z.land (Z.shiftr t 12) 0x3F ∧
    s2 = Z.land (Z.shiftr t 6) 0x3F ∧ s3 = Z.land t 0x3F ∧
    Z.lor (Z.lor (Z.lor (u32 (Z.shiftl s0 18)) (u32 (Z.shiftl s1 12))) (u32 (Z.shiftl s2 6))) s3 = t ∧
    Z.land (Z.shiftr t 16) 0xFF = a ∧ Z.land (Z.shiftr t 8) 0xFF = b ∧ Z.land t 0xFF = c ∧
    (c = 0 → s3 = 0) ∧ (b = 0 → c = 0 → s2 = 0).
Proof.
  intros Ha Hb Hc t. unfold is_u8 in *. change (2 ^ 8) with 256 in *.
  assert (t = a * 65536 + b * 256 + c) as Ht.
  { unfold t. rewrite <- Z.lor_assoc, (lor_shiftl_add b c 8) by lia.
    rewrite lor_shiftl_add by (change (2 ^ 8) with 256; change (2 ^ 16) with 65536; lia).
    change (2 ^ 8) with 256. change (2 ^ 16) with 65536. lia. }
  clearbody t. change 0x3F with (Z.ones 6). change 0xFF with (Z.ones 8).
  rewrite !Z.land_ones, !Z.shiftr_div_pow2 by lia.
  change (2 ^ 6) with 64. change (2 ^ 8) with 256. change (2 ^ 12) with 4096.
  change (2 ^ 16) with 65536. change (2 ^ 18) with 262144.
  exists (t / 262144 mod 64), (t / 4096 mod 64), (t / 64 mod 64), (t mod 64).
  split_and!; try reflexivity; try zlia.
  rewrite !u32_small by (unfold is_u32; rewrite Z.shiftl_mul_pow2 by lia;
    change (2 ^ 18) with 262144; change (2 ^ 12) with 4096; change (2 ^ 6) with 64; zlia).
  rewrite <- !Z.lor_assoc.
  rewrite (lor_shiftl_add _ (_ mod 64) 6) by zlia. change (2 ^ 6) with 64.
  rewrite (lor_shiftl_add _ _ 12) by (change (2 ^ 12) with 4096; zlia). change (2 ^ 12) with 4096.
  rewrite (lor_shiftl_add _ _ 18) by (change (2 ^ 18) with 262144; zlia). change (2 ^ 18) with 262144.
  zlia.
Qed.

(** What the encoder writes for one group, read back. *)
Lemma decode_triple a b c rest :
  is_u8 a → is_u8 (default 0 b) → is_u8 (default 0 c) → (b = None → c = None) →
  decode_quads (encode_triple a b c ++ rest) = [a; default 0 b; default 0 c] ++ decode_quads rest.
Proof.
  intros Ha Hb Hc Hbc.
  destruct (decode_groups a (default 0 b) (default 0 c) Ha Hb Hc)
    as (s0 & s1 & s2 & s3 & H0 & H1 & H2 & H3 & E0 & E1 & E2 & E3 & Et & Ea & Eb & Ec & Hz3 & Hz2).
  unfold encode_triple. cbv zeta. rewrite <- E0, <- E1, <- E2, <- E3.
  cbn [app decode_quads]. unfold decode_quad. cbv zeta.
  rewrite (proj1 (six_bits_char s0 H0)), (proj1 (six_bits_char s1 H1)).
  assert (six_bits_or_pad match b with Some _ => base64_char s2 | None => pad_char end = s2) as ->
    by (destruct b; [by apply six_bits_char|]; rewrite Hbc in * by done; by rewrite Hz2).
  assert (six_bits_or_pad match c with Some _ => base64_char s3 | None => pad_char end = s3) as ->
    by (destruct c; [by apply six_bits_char|]; by rewrite Hz3).
  by rewrite Et, Ea, Eb, Ec.
Qed.

Lemma ends_with_pad_app n l1 l2 : (n < length l2)%nat → ends_with_pad n (l1 ++ l2) = ends_with_pad n l2.
Proof. intros Hn. unfold ends_with_pad. rewrite rev_app_distr, lookup_app_l; [done|]. by rewrite length_rev. Qed.

Lemma encode_shape l :
  Forall is_u8 l →
  ∃ p, decode_quads (base64_encode l) = l ++ replicate p 0 ∧
    ends_with_pad 0 (base64_encode l) + ends_with_pad 1 (base64_encode l) = Z.of_nat p ∧
    (length (base64_encode l) = 4 * (length (base64_encode l) / 4))%nat ∧
    (length (base64_encode l) / 4 * 3 = length l + p)%nat.
Proof.
  remember (length l) as n eqn:Hn. revert l Hn.
  induction n as [n IH] using lt_wf_ind. intros l -> Hl.
  assert (∀ i, Z.land i 0x3F = i mod 64) as H64 by (intros; by apply (Z.land_ones i 6)).
  assert (∀ i, base64_char (Z.land i 0x3F) ≠ pad_char) as Hnp
    by (intros i; apply base64_char_val; rewrite H64; apply Z.mod_pos_bound; lia).
  destruct l as [|a [|b [|c l]]].
  - by exists O.
  - apply Forall_cons in Hl as [Ha _]. exists 2%nat. cbn [base64_encode].
    rewrite <- (app_nil_r (encode_triple a None None)), decode_triple by (done || unfold is_u8; cbn; lia).
    done.
  - apply Forall_cons in Hl as [Ha [Hb _]%Forall_cons]. exists 1%nat. cbn [base64_encode].
    rewrite <- (app_nil_r (encode_triple a _ None)), decode_triple by (done || unfold is_u8; cbn; lia).
    split_and!; try done. unfold ends_with_pad. cbn -[base64_char Z.land Z.lor].
    rewrite (bool_decide_eq_false_2 (Some (base64_char _) = _)); [done|]. intros [= Hx]. by apply Hnp in Hx.
  - apply Forall_cons in Hl as [Ha [Hb [Hc Hl]%Forall_cons]%Forall_cons].
    destruct (IH (length l) ltac:(cbn; lia) l eq_refl Hl) as (p & Hd & Hp & H4 & Hlen).
    exists p. cbn [base64_encode]. rewrite decode_triple, Hd by done. split; [done|].
    rewrite length_app. change (length (encode_triple a (Some b) (Some c))) with 4%nat.
    replace (4 + length (base64_encode l))%nat with (length (base64_encode l) + 1 * 4)%nat by lia.
    rewrite Nat.div_add by lia. split; [|cbn [length]; lia].
    destruct (length (base64_encode l) / 4)%nat eqn:Hq.
    + apply length_zero_iff_nil in H4. rewrite H4 in *. rewrite app_nil_r, <- Hp.
      unfold ends_with_pad. cbn -[base64_char Z.land Z.lor].
      rewrite !(bool_decide_eq_false_2 (Some (base64_char _) = _)); [done|..]; intros [= Hx]; by apply Hnp in Hx.
    + rewrite !ends_with_pad_app by lia. done.
Qed.

(** What the base64 encoder writes, the decoder reads back byte for byte. *)
Theorem base64_roundtrip l :
  Forall is_u8 l → Z.of_nat (length l) < 2 ^ 31 → base64_decode (base64_encode l) = l.
Proof.
  intros Hl Hn. destruct (encode_shape l Hl) as (p & Hd & Hp & H4 & Hlen).
  unfold base64_decode. rewrite Hp, Hd.
  assert (0 <= Z.of_nat p <= 2) as Hp2 by (rewrite <- Hp; unfold ends_with_pad; repeat case_if; lia).
  replace (Z.of_nat (length (base64_encode l)) / 4 * 3) with (Z.of_nat (length l + p)) by zlia.
  rewrite u32_small by (unfold is_u32; pow_consts; lia).
  replace (Z.to_nat _) with (length l) by lia. by rewrite take_app_length.
Qed.

(** * Padding removed *)

Definition padded (buf data : list Z) (p : nat) : Prop :=
  buf = data ++ replicate p (Z.of_nat p) ∧ (1 ≤ p ≤ 16)%nat.

Lemma pkcs7_pad_padded data :
  padded (pkcs7_pad data) data (16 - length data mod 16) ∧ (length (pkcs7_pad data) mod 16 = 0)%nat.
Proof.
  pose proof (Nat.mod_upper_bound (length data) 16 ltac:(lia)). unfold padded, pkcs7_pad.
  split; [split; [done|lia]|]. rewrite length_app, length_replicate.
  rewrite (Nat.div_mod_eq (length data) 16) at 1.
  replace (_ + _)%nat with ((length data / 16 + 1) * 16)%nat by lia. by apply Nat.Div0.mod_mul.
Qed.

Lemma pkcs7_unpad_padded buf data p : padded buf data p → pkcs7_unpad buf = Z.of_nat (length data).
Proof.
  intros [-> Hp]. unfold pkcs7_unpad.
  assert (last (data ++ replicate p (Z.of_nat p)) = Some (Z.of_nat p)) as ->.
  { destruct p as [|p]; [lia|]. by rewrite replicate_S_end, app_assoc, last_snoc. }
  rewrite (proj2 (Z.eqb_neq _ 0)), (proj2 (Z.ltb_ge 16 _)) by lia. cbn [orb]. cbv zeta.
  rewrite length_app, length_replicate.
  replace (Z.of_nat (length data + p) - Z.of_nat p) with (Z.of_nat (length data)) by lia.
  rewrite Nat2Z.id, drop_app_length.
  assert (forallb (λ b, b =? Z.of_nat p) (replicate p (Z.of_nat p)) = true) as ->; [|done].
  apply forallb_forall. intros x Hx. apply list_elem_of_In, elem_of_replicate in Hx as [-> _]. apply Z.eqb_refl.
Qed.

Lemma pkcs7_unpad_inv buf :
  Forall is_u8 buf → (16 ≤ length buf)%nat → 0 < pkcs7_unpad buf →
  ∃ p, padded buf (take (Z.to_nat (pkcs7_unpad buf)) buf) p.
Proof.
  intros Hb Hl. unfold pkcs7_unpad. destruct (last buf) as [pad|] eqn:Hlast; [|done].
  assert (is_u8 pad) as Hpad.
  { apply last_Some in Hlast as [l' ->]. by apply Forall_app in Hb as [_ [? _]%Forall_cons]. }
  unfold is_u8 in Hpad. destruct (_ || _) eqn:Hr; [done|]. bool_hyps. cbv zeta.
  destruct (forallb _ _) eqn:Hall; [|done]. intros Hpos. exists (Z.to_nat pad). split; [|lia].
  rewrite <- (take_drop (Z.to_nat (Z.of_nat (length buf) - pad)) buf) at 1. f_equal.
  symmetry. apply replicate_as_Forall. rewrite Z2Nat.id, length_drop by lia. split; [lia|].
  rewrite forallb_forall in Hall. apply Forall_forall. intros x Hx%list_elem_of_In.
  symmetry. apply Z.eqb_eq. by apply Hall.
Qed.

(** * Messages *)

(** What the messages rely on of AES in CBC mode. *)
Class AesCbc (enc dec : list Z → list Z → list Z → list Z) : Prop := {
  aes_length k iv l : (length l mod 16 = 0)%nat → length (enc k iv l) = length l;
  aes_bytes k iv l : Forall is_u8 l → Forall is_u8 (enc k iv l);
  aes_inverse k iv l : (length l mod 16 = 0)%nat → length iv = 16%nat → dec k iv (enc k iv l) = l
}.

Section messages.
Context {P : Type} (parse : list Z → option P) (ecdh : P → list Z → list Z)
  (enc dec : list Z → list Z → list Z → list Z).
Notation encrypt := (nip04_encrypt parse ecdh enc).
Notation decrypt := (nip04_decrypt parse ecdh dec).
Notation secret := (compute_shared_secret parse ecdh).

(** A message is decrypted exactly when what AES gives back is a text of at
    least one byte that fits the caller's buffer, followed by one to sixteen
    bytes that each say how many they are.  The result is then that text and its
    length, and -1 in every other case. *)
Theorem nip04_decrypt_outcome max priv pub msg r text :
  let combined := base64_decode msg in
  let ct := dec (secret priv pub) (take 16 combined) (drop 16 combined) in
  (32 ≤ length combined)%nat → Forall is_u8 ct → (16 ≤ length ct)%nat →
  decrypt max priv pub msg = Some (r, text) →
  (r = -1 ∧ ∀ data p, padded ct data p → length data = 0%nat ∨ max <= Z.of_nat (length data)) ∨
  (∃ p, padded ct text p ∧ r = Z.of_nat (length text) ∧ 0 < r < max).
Proof.
  intros combined ct Hl Hb Hct. unfold nip04_decrypt. cbv zeta. fold combined. fold ct.
  destruct (4112 <? _)%nat; [done|]. rewrite (proj2 (Nat.ltb_ge _ 32)) by done.
  destruct (_ || _) eqn:Hr; intros [= <- <-].
  - left. split; [done|]. intros data p Hp. rewrite (pkcs7_unpad_padded _ _ _ Hp) in Hr.
    bool_hyps. destruct Hr; bool_hyps; lia.
  - bool_hyps. right.
    assert (0 <= pkcs7_unpad ct) as Hnn.
    { unfold pkcs7_unpad. destruct (last ct); [|done]. destruct (_ || _) eqn:Hpd; [done|].
      bool_hyps. case_if; lia. }
    destruct (pkcs7_unpad_inv ct Hb Hct ltac:(lia)) as [p Hp]. exists p. split; [done|].
    pose proof (pkcs7_unpad_padded _ _ _ Hp) as Hlen. lia.
Qed.

(** What one party encrypts for another, the other decrypts, when the curve
    gives both the same secret: every text of 1 to 4095 bytes that fits the
    receiver's buffer comes back.  The empty text is encrypted but does not come
    back, and a longer one does not fit the buffers. *)
Theorem nip04_roundtrip `{AesCbc enc dec} iv a A b B text max :
  length iv = 16%nat → Forall is_u8 iv → secret a B = secret b A →
  let n := Z.of_nat (String.length text) in
  match encrypt iv a B text with
  | Some msg => n < 4096 ∧
      decrypt max b A msg = Some (if (0 <? n) && (n <? max) then (n, str_bytes text) else (-1, []))
  | None => 4096 <= n
  end.
Proof.
  intros Hiv Hivb Hsec n. unfold nip04_encrypt. cbv zeta. rewrite Hsec.
  pose proof (pkcs7_pad_padded (str_bytes text)) as [Hp Hmod].
  set (data := pkcs7_pad (str_bytes text)) in *.
  assert (length data = length (str_bytes text) + (16 - length (str_bytes text) mod 16))%nat as Hld
    by (rewrite (proj1 Hp), length_app, length_replicate; done).
  pose proof (Nat.mod_upper_bound (length (str_bytes text)) 16 ltac:(lia)).
  pose proof (Nat.div_mod_eq (length (str_bytes text)) 16). rewrite length_str_bytes in *.
  assert (Forall is_u8 data) as Hdb.
  { rewrite (proj1 Hp). apply Forall_app. split; [apply str_bytes_u8|].
    apply Forall_replicate. unfold is_u8. pow_consts. lia. }
  destruct (4096 <? length data)%nat eqn:Hfit; bool_hyps; [lia|]. split; [lia|].
  unfold nip04_decrypt. cbv zeta.
  pose proof (aes_length (secret b A) iv data Hmod) as Hle.
  rewrite base64_roundtrip.
  2: { apply Forall_app. split; [done|]. by apply aes_bytes. }
  2: { rewrite length_app, Hiv, Hle. pow_consts. lia. }
  rewrite length_app, Hiv, Hle. rewrite (proj2 (Nat.ltb_ge 4112 _)), (proj2 (Nat.ltb_ge _ 32)) by lia.
  rewrite take_app_length', drop_app_length', aes_inverse by done.
  rewrite (pkcs7_unpad_padded _ _ _ Hp), length_str_bytes. fold n.
  destruct (n =? 0) eqn:Hn0; bool_hyps; cbn [orb].
  { by rewrite (proj2 (Z.ltb_ge 0 n)) by lia. }
  rewrite (proj2 (Z.ltb_lt 0 n)) by lia. cbn [andb].
  destruct (max <=? n) eqn:Hm; bool_hyps.
  - by rewrite (proj2 (Z.ltb_ge n max)) by lia.
  - rewrite (proj2 (Z.ltb_lt n max)) by lia. unfold n. rewrite Nat2Z.id, (proj1 Hp).
    rewrite <- length_str_bytes, take_app_length. done.
Qed.
End messages.

(** * Behaviour worth knowing *)

(** The decoder does not refuse characters outside of its alphabet. *)
Theorem base64_decodes_anything :
  base64_decode (str_bytes "!!!!") = [0xFF; 0xFF; 0xFF].
Proof. vm_compute. reflexivity. Qed.

(** * A concrete message *)

Definition cipher_example : list Z → list Z → list Z → list Z := λ _ _ l, rev l.
#[export] Instance cipher_example_laws : AesCbc cipher_example cipher_example.
Proof.
  split; intros; unfold cipher_example; [by rewrite length_rev|by apply Forall_rev|apply rev_involutive].
Qed.
Definition ecdh_example (p priv : list Z) : list Z := zip_with Z.lxor (drop 1 p) priv.

Lemma base64_roundtrip_witness :
  base64_decode (base64_encode [1; 2; 255; 0]) = [1; 2; 255; 0].
Proof.
  apply base64_roundtrip; [|vm_compute; reflexivity].
  repeat (apply Forall_cons; split; [vm_compute; split; (discriminate || reflexivity)|]). apply Forall_nil_2.
Defined.

Lemma nip04_roundtrip_witness :
  match nip04_encrypt Some ecdh_example cipher_example (replicate 16 9) (Some [1; 2]) (Some [3; 4]) "hello" with
  | Some msg => 5 < 4096 ∧
      nip04_decrypt Some ecdh_example cipher_example 512 (Some [3; 4]) (Some [1; 2]) msg =
      Some (5, str_bytes "hello")
  | None => 4096 <= 5
  end.
Proof.
  apply (nip04_roundtrip Some ecdh_example cipher_example cipher_example (replicate 16 9) (Some [1; 2])
           (Some [1; 2]) (Some [3; 4]) (Some [3; 4]) "hello" 512);
    [reflexivity|by repeat constructor|reflexivity].
Defined.

Definition message_example : list Z :=
  base64_encode (replicate 16 9 ++ rev (str_bytes "hello" ++ replicate 11 11)).

Lemma nip04_decrypt_outcome_witness :
  (5 = -1 ∧ ∀ data p, padded (str_bytes "hello" ++ replicate 11 11) data p →
     length data = 0%nat ∨ 512 <= Z.of_nat (length data)) ∨
  (∃ p, padded (str_bytes "hello" ++ replicate 11 11) (str_bytes "hello") p ∧
     5 = Z.of_nat (length (str_bytes "hello")) ∧ 0 < 5 < 512).
Proof.
  apply (nip04_decrypt_outcome Some ecdh_example cipher_example 512 (Some [3; 4]) (Some [1; 2])
           message_example 5 (str_bytes "hello")); [vm_compute; lia|by repeat constructor|vm_compute; lia|].
  vm_compute. reflexivity.
Defined.
