(* ===== verification/Geohash.v ===== *)
(** The geohash of a place (main/geohash.c): the bits of alternating halvings of
    longitude and latitude, packed into bytes and written five at a time.  The
    cell that the text stands for, read back, contains the place. *)

From S2P Require Import Prelude CStr F64.
#[local] Open Scope Z_scope.

Definition BASE32 : string := "0123456789bcdefghjkmnpqrstuvwxyz".

(** A range of degrees. *)
Definition range : Type := f64 * f64.
Definition mid (r : range) : f64 := f64_div (f64_add (fst r) (snd r)) (f64_of_Z 2).

(** [hash_bytes[byte_idx] |= (1 << bit_idx)] *)
Definition set_bit (i : nat) (hash_bytes : list Z) : list Z :=
  let byte_idx := (i / 8)%nat in
  let bit_idx := 7 - Z.of_nat (i mod 8) in
  alter (λ b, Z.lor b (Z.shiftl 1 bit_idx)) byte_idx hash_bytes.

(** The first loop, from bit [i] on, with [todo] turns left. *)
Fixpoint geo_loop (todo i : nat) (lat lon : f64) (lat_range lon_range : range)
    (hash_bytes : list Z) : list Z :=
  match todo with
  | O => hash_bytes
  | S todo' =>
      if (i mod 2 =? 0)%nat then
        let m := mid lon_range in
        if f64_le m lon
        then geo_loop todo' (S i) lat lon lat_range (m, snd lon_range) (set_bit i hash_bytes)
        else geo_loop todo' (S i) lat lon lat_range (fst lon_range, m) hash_bytes
      else
        let m := mid lat_range in
        if f64_le m lat
        then geo_loop todo' (S i) lat lon (m, snd lat_range) lon_range (set_bit i hash_bytes)
        else geo_loop todo' (S i) lat lon (fst lat_range, m) lon_range hash_bytes
  end.

(** One turn of the second loop: the five bits of character [i]. *)
Definition geo_val (hash_bytes : list Z) (i : nat) : Z :=
  let byte_idx := (i * 5 / 8)%nat in
  let bit_offset := Z.of_nat ((i * 5) mod 8) in
  let val := Z.shiftl (nth byte_idx hash_bytes 0) 16 in
  let val := if (byte_idx + 1 <? 16)%nat
             then Z.lor val (Z.shiftl (nth (byte_idx + 1) hash_bytes 0) 8) else val in
  let val := if (byte_idx + 2 <? 16)%nat then Z.lor val (nth (byte_idx + 2) hash_bytes 0) else val in
  Z.land (Z.shiftr val (24 - 5 - bit_offset)) 0x1F.

Definition base32_char (v : Z) : Z := nth (Z.to_nat v) (str_bytes BASE32) 0.

Definition lat_range0 : range := (f64_of_Z (-90), f64_of_Z 90).
Definition lon_range0 : range := (f64_of_Z (-180), f64_of_Z 180).

(** [None]: [hash_bytes] has room for 25 characters. *)
Definition geohash_encode (lat lon : f64) (precision : Z) : option string :=
  if (precision <? 0) || (25 <? precision) then None else
  let hash_bytes := geo_loop (Z.to_nat (precision * 5)) 0 lat lon lat_range0 lon_range0
                      (replicate 16 0) in
  Some (bytes_str ((λ i, base32_char (geo_val hash_bytes i)) <$> seq 0 (Z.to_nat precision))).

(** * The bits, without the packing *)

Definition narrow (bit : bool) (r : range) : range :=
  if bit then (mid r, snd r) else (fst r, mid r).

Fixpoint geo_bits (todo i : nat) (lat lon : f64) (lat_range lon_range : range) : list bool :=
  match todo with
  | O => []
  | S todo' =>
      if (i mod 2 =? 0)%nat then
        let bit := f64_le (mid lon_range) lon in
        bit :: geo_bits todo' (S i) lat lon lat_range (narrow bit lon_range)
      else
        let bit := f64_le (mid lat_range) lat in
        bit :: geo_bits todo' (S i) lat lon (narrow bit lat_range) lon_range
  end.

(** Bit [m] of the packed bytes, the first bit in the high place. *)
Definition bit_at (bytes : list Z) (m : nat) : bool :=
  Z.testbit (nth (m / 8) bytes 0) (7 - Z.of_nat (m mod 8)).

Lemma length_geo_bits todo i lat lon rl rL : length (geo_bits todo i lat lon rl rL) = todo.
Proof.
  revert i rl rL. induction todo as [|todo IH]; intros; [done|]. cbn [geo_bits].
  case_if; cbv zeta; cbn [length]; by rewrite IH.
Qed.

Lemma bit_at_set i bytes m :
  (i / 8 < length bytes)%nat → bit_at (set_bit i bytes) m = (m =? i)%nat || bit_at bytes m.
Proof.
  intros Hi. unfold bit_at, set_bit. cbv zeta.
  pose proof (Nat.mod_upper_bound i 8 ltac:(lia)). pose proof (Nat.mod_upper_bound m 8 ltac:(lia)).
  pose proof (Nat.div_mod_eq i 8). pose proof (Nat.div_mod_eq m 8).
  rewrite !nth_lookup, list_lookup_alter. case_decide as Hd.
  - rewrite <- Hd. destruct (lookup_lt_is_Some_2 bytes (i / 8) Hi) as [b Hb]. rewrite Hb.
    cbn [fmap option_fmap option_map from_option id].
    rewrite Z.lor_spec, Z.shiftl_spec by lia. rewrite orb_comm. f_equal.
    destruct (m =? i)%nat eqn:Hm; bool_hyps.
    + subst m. by rewrite Z.sub_diag.
    + destruct (Z.lt_ge_cases (7 - Z.of_nat (m mod 8) - (7 - Z.of_nat (i mod 8))) 0).
      * by apply Z.testbit_neg_r.
      * apply Z.bits_above_log2; [lia|]. change (Z.log2 1) with 0. lia.
  - rewrite (proj2 (Nat.eqb_neq m i)); [done|]. by intros ->.
Qed.

Lemma length_set_bit i bytes : length (set_bit i bytes) = length bytes.
Proof. apply length_alter. Qed.

Lemma log2_u8 a : is_u8 a → Z.log2 a < 8.
Proof.
  unfold is_u8. intros Ha. destruct (Z.eq_dec a 0) as [->|]; [done|]. apply Z.log2_lt_pow2; lia.
Qed.

Lemma lor_u8 a b : is_u8 a → is_u8 b → is_u8 (Z.lor a b).
Proof.
  unfold is_u8. intros Ha Hb. split; [apply Z.lor_nonneg; lia|].
  destruct (Z.eq_dec (Z.lor a b) 0) as [->|Hn]; [done|].
  apply Z.log2_lt_pow2; [pose proof (proj2 (Z.lor_nonneg a b)); lia|].
  rewrite Z.log2_lor by lia. apply Z.max_lub_lt; apply log2_u8; done.
Qed.

(** The loop stores the bits. *)
Lemma geo_loop_bits todo : ∀ i lat lon rl rL bytes m,
  (i + todo ≤ 8 * length bytes)%nat →
  bit_at (geo_loop todo i lat lon rl rL bytes) m =
  (default false ((geo_bits todo i lat lon rl rL) !! (m - i)%nat) && (i <=? m)%nat) || bit_at bytes m.
Proof.
  induction todo as [|todo IH]; intros i lat lon rl rL bytes m Hi; [by cbn|].
  assert (i / 8 < length bytes)%nat as Hb by (apply Nat.Div0.div_lt_upper_bound; lia).
  cbn [geo_loop geo_bits]. cbv zeta. unfold narrow.
  do 2 case_if; rewrite IH by (rewrite ?length_set_bit; lia); rewrite ?bit_at_set by done.
  all: destruct (m =? i)%nat eqn:Hm; bool_hyps;
    [subst m; rewrite Nat.sub_diag, (proj2 (Nat.leb_gt (S i) i)), (proj2 (Nat.leb_le i i)) by lia;
     cbn [lookup list_lookup default]; by rewrite ?andb_false_r|].
  all: cbn [orb]; destruct (decide (i < m)%nat);
    [replace (m - i)%nat with (S (m - S i)) by lia;
     rewrite (proj2 (Nat.leb_le i m)), (proj2 (Nat.leb_le (S i) m)) by lia; done
    |rewrite (proj2 (Nat.leb_gt i m)), (proj2 (Nat.leb_gt (S i) m)) by lia; by rewrite !andb_false_r].
Qed.

Lemma geo_loop_wf todo : ∀ i lat lon rl rL bytes,
  Forall is_u8 bytes →
  length (geo_loop todo i lat lon rl rL bytes) = length bytes ∧
  Forall is_u8 (geo_loop todo i lat lon rl rL bytes).
Proof.
  induction todo as [|todo IH]; intros i lat lon rl rL bytes Hb; [done|].
  assert (Forall is_u8 (set_bit i bytes)) as Hs.
  { unfold set_bit. apply Forall_alter; [done|]. intros b Hbi Hbu. apply lor_u8; [done|].
    pose proof (Nat.mod_upper_bound i 8 ltac:(lia)). unfold is_u8. rewrite Z.shiftl_1_l.
    split; [lia|]. apply Z.pow_lt_mono_r; lia. }
  cbn [geo_loop]. cbv zeta. do 2 case_if.
  all: first [by apply IH | rewrite <- (length_set_bit i bytes); by apply IH].
Qed.

(** Five bits as a number, and back. *)
Definition five_bits (b0 b1 b2 b3 b4 : bool) : Z :=
  16 * Z.b2z b0 + 8 * Z.b2z b1 + 4 * Z.b2z b2 + 2 * Z.b2z b3 + Z.b2z b4.

Lemma five_bits_spec v :
  0 <= v < 32 →
  v = five_bits (Z.testbit v (Z.of_nat 4)) (Z.testbit v (Z.of_nat 3)) (Z.testbit v (Z.of_nat 2))
        (Z.testbit v (Z.of_nat 1)) (Z.testbit v (Z.of_nat 0)).
Proof.
  intros Hv. rewrite <- (Z2Nat.id v) by lia.
  assert (Z.to_nat v < 32)%nat as Hn by lia. revert Hn. generalize (Z.to_nat v).
  intros n Hn. do 32 (destruct n as [|n]; [reflexivity|]). lia.
Qed.

Lemma u8_testbit_high b q : is_u8 b → 8 <= q → Z.testbit b q = false.
Proof.
  intros Hb Hq. apply Z.bits_above_log2; [unfold is_u8 in Hb; lia|]. pose proof (log2_u8 b Hb). lia.
Qed.

Lemma nth_u8 bytes i : Forall is_u8 bytes → is_u8 (nth i bytes 0).
Proof.
  intros Hb. rewrite nth_lookup. destruct (bytes !! i) as [b|] eqn:Hi; [|done].
  by apply (Forall_lookup_1 _ _ _ _ Hb Hi).
Qed.

(** The three bytes a character is cut from, as one number. *)
Lemma geo_val_word bytes i :
  length bytes = 16%nat →
  geo_val bytes i =
  Z.land (Z.shiftr (Z.lor (Z.lor (Z.shiftl (nth (i * 5 / 8) bytes 0) 16)
                             (Z.shiftl (nth (i * 5 / 8 + 1) bytes 0) 8))
                      (nth (i * 5 / 8 + 2) bytes 0))
            (19 - Z.of_nat ((i * 5) mod 8))) (Z.ones 5).
Proof.
  intros Hl. unfold geo_val. cbv zeta. change (24 - 5) with 19. change 0x1F with (Z.ones 5).
  do 2 case_if; bool_hyps; try done.
  all: rewrite ?(nth_overflow bytes 0 (n := i * 5 / 8 + 1)) by lia;
    rewrite ?(nth_overflow bytes 0 (n := i * 5 / 8 + 2)) by lia;
    by rewrite ?Z.shiftl_0_l, ?Z.lor_0_r.
Qed.

Lemma geo_val_bits bytes i :
  length bytes = 16%nat → Forall is_u8 bytes →
  geo_val bytes i = five_bits (bit_at bytes (5 * i)) (bit_at bytes (5 * i + 1))
    (bit_at bytes (5 * i + 2)) (bit_at bytes (5 * i + 3)) (bit_at bytes (5 * i + 4)).
Proof.
  intros Hl Hb. rewrite geo_val_word by done.
  set (B := (i * 5 / 8)%nat). set (off := ((i * 5) mod 8)%nat).
  assert (off < 8)%nat as Hoff by (apply Nat.mod_upper_bound; lia).
  assert (i * 5 = 8 * B + off)%nat as Hm by apply Nat.div_mod_eq.
  set (w := Z.lor _ _). set (v := Z.land _ _).
  assert (0 <= v < 32) as Hv.
  { unfold v. rewrite Z.land_ones by lia. apply Z.mod_pos_bound. lia. }
  assert (∀ k, (k < 5)%nat → Z.testbit v (Z.of_nat k) = bit_at bytes (5 * i + 4 - k)) as Hbits.
  { intros k Hk. unfold v. rewrite Z.land_spec, Z.ones_spec_low, andb_true_r, Z.shiftr_spec by lia.
    unfold w. rewrite !Z.lor_spec, !Z.shiftl_spec by lia.
    rewrite (u8_testbit_high (nth (B + 2) bytes 0)), orb_false_r by (by apply nth_u8 || lia).
    unfold bit_at. destruct (decide (off + 4 - k < 8)%nat).
    - assert ((5 * i + 4 - k) / 8 = B ∧ (5 * i + 4 - k) mod 8 = off + 4 - k)%nat as [-> ->].
      { replace (5 * i + 4 - k)%nat with ((off + 4 - k) + B * 8)%nat by lia.
        rewrite Nat.div_add, Nat.Div0.mod_add, Nat.div_small, Nat.mod_small by lia. lia. }
      rewrite (u8_testbit_high (nth (B + 1) bytes 0)), orb_false_r by (by apply nth_u8 || lia).
      f_equal. lia.
    - assert ((5 * i + 4 - k) / 8 = B + 1 ∧ (5 * i + 4 - k) mod 8 = off + 4 - k - 8)%nat as [-> ->].
      { replace (5 * i + 4 - k)%nat with ((off + 4 - k - 8) + (B + 1) * 8)%nat by lia.
        rewrite Nat.div_add, Nat.Div0.mod_add, Nat.div_small, Nat.mod_small by lia. lia. }
      rewrite (Z.testbit_neg_r (nth B bytes 0)) by lia. cbn [orb]. f_equal. lia. }
  rewrite (five_bits_spec v Hv).
  rewrite (Hbits 4%nat), (Hbits 3%nat), (Hbits 2%nat), (Hbits 1%nat), (Hbits 0%nat) by lia.
  f_equal; f_equal; lia.
Qed.

(** * The cell a text stands for *)

(** The place of a character in the alphabet. *)
Definition base32_val (c : Z) : option nat := find_slot (λ d, d =? c) (str_bytes BASE32).

Definition char_bits (v : nat) : list bool :=
  (λ k, Z.testbit (Z.of_nat v) (Z.of_nat k)) <$> [4; 3; 2; 1; 0]%nat.

(** Halve the ranges by the bits, from bit [i] on. *)
Fixpoint geo_cell (i : nat) (bits : list bool) (lat_range lon_range : range) : range * range :=
  match bits with
  | [] => (lat_range, lon_range)
  | bit :: bits' =>
      if (i mod 2 =? 0)%nat then geo_cell (S i) bits' lat_range (narrow bit lon_range)
      else geo_cell (S i) bits' (narrow bit lat_range) lon_range
  end.

Definition geohash_cell (hash : string) : option (range * range) :=
  vals ← mapM base32_val (str_bytes hash);
  Some (geo_cell 0 (vals ≫= char_bits) lat_range0 lon_range0).

(** Not below the range and not beyond it, except beyond the whole world. *)
Definition within (x : f64) (top : f64) (r : range) : Prop :=
  f64_le (fst r) x = true ∧ (f64_le (snd r) x = false ∨ snd r = top).

Lemma within_narrow x top r : within x top r → within x top (narrow (f64_le (mid r) x) r).
Proof. intros [Hlo Hhi]. unfold within, narrow. destruct (f64_le (mid r) x) eqn:Hm; cbn; auto. Qed.

Lemma geo_cell_within todo lat lon topl topL : ∀ i rl rL,
  within lat topl rl → within lon topL rL →
  let '(cl, cL) := geo_cell i (geo_bits todo i lat lon rl rL) rl rL in
  within lat topl cl ∧ within lon topL cL.
Proof.
  induction todo as [|todo IH]; intros i rl rL Hl HL; [done|]. cbn [geo_bits]. cbv zeta.
  case_if; cbn [geo_cell]; rewrite E; apply IH; auto using within_narrow.
Qed.

Lemma base32_val_char v : (v < 32)%nat → base32_val (base32_char (Z.of_nat v)) = Some v.
Proof. intros Hv. do 32 (destruct v as [|v]; [reflexivity|]). lia. Qed.

Lemma char_bits_five b0 b1 b2 b3 b4 :
  ∃ v, five_bits b0 b1 b2 b3 b4 = Z.of_nat v ∧ (v < 32)%nat ∧ char_bits v = [b0; b1; b2; b3; b4].
Proof.
  exists (Z.to_nat (five_bits b0 b1 b2 b3 b4)).
  destruct b0, b1, b2, b3, b4; (split; [reflexivity|split; [vm_compute; lia|reflexivity]]).
Qed.

Definition bit_of (bits : list bool) (m : nat) : bool := default false (bits !! m).
Definition group (bits : list bool) (i : nat) : list bool :=
  bit_of bits <$> [5 * i; 5 * i + 1; 5 * i + 2; 5 * i + 3; 5 * i + 4]%nat.

Lemma take_bit_of bits m : (m < length bits)%nat → take (S m) bits = take m bits ++ [bit_of bits m].
Proof.
  intros Hm. destruct (lookup_lt_is_Some_2 bits m Hm) as [b Hb].
  unfold bit_of. rewrite Hb. by apply take_S_last.
Qed.

Lemma groups_take bits n : (5 * n ≤ length bits)%nat → seq 0 n ≫= group bits = take (5 * n) bits.
Proof.
  induction n as [|n IH]; intros Hn; [done|]. rewrite seq_S, bind_app, IH by lia. cbn [mbind list_bind].
  rewrite app_nil_r. replace (5 * S n)%nat with (S (S (S (S (S (5 * n))))))%nat by lia.
  rewrite !take_bit_of by lia. rewrite <- !app_assoc. unfold group. cbn [fmap list_fmap app].
  do 7 (f_equal; try lia).
Qed.

Lemma hash_vals bits bytes n :
  length bytes = 16%nat → Forall is_u8 bytes → (∀ m, bit_at bytes m = bit_of bits m) →
  ∃ vs, ((λ i, base32_char (geo_val bytes i)) <$> seq 0 n) = (λ v, base32_char (Z.of_nat v)) <$> vs ∧
    Forall (λ v, (v < 32)%nat) vs ∧ vs ≫= char_bits = seq 0 n ≫= group bits.
Proof.
  intros Hl Hb Hbits. induction (seq 0 n) as [|i idx IH]; [by exists []|].
  destruct IH as (vs & Hvs & Hlt & Hcb). pose proof (geo_val_bits bytes i Hl Hb) as Hv.
  rewrite !Hbits in Hv. destruct (char_bits_five (bit_of bits (5 * i)) (bit_of bits (5 * i + 1))
    (bit_of bits (5 * i + 2)) (bit_of bits (5 * i + 3)) (bit_of bits (5 * i + 4))) as (v & Hv' & Hv32 & Hcv).
  exists (v :: vs). rewrite !fmap_cons, Hv, Hv', Hvs. split; [done|]. split; [by constructor|].
  cbn [mbind list_bind]. rewrite Hcv. f_equal. exact Hcb.
Qed.

Lemma base32_char_u8 v : (v < 32)%nat → is_u8 (base32_char (Z.of_nat v)).
Proof.
  intros Hv. unfold base32_char. rewrite Nat2Z.id. apply nth_u8, str_bytes_u8.
Qed.

Lemma mapM_base32 vs :
  Forall (λ v, (v < 32)%nat) vs →
  mapM base32_val (str_bytes (bytes_str ((λ v, base32_char (Z.of_nat v)) <$> vs))) = Some vs.
Proof.
  intros Hvs. rewrite str_bytes_str.
  - induction Hvs as [|v vs Hv _ IH]; [done|]. cbn [fmap list_fmap mapM].
    rewrite base32_val_char by done. cbn [mbind option_bind]. by rewrite IH.
  - apply Forall_fmap. eapply Forall_impl; [exact Hvs|]. apply base32_char_u8.
Qed.

(** The bytes of the first loop hold the bits. *)
Lemma geo_loop_bytes n lat lon rl rL :
  (n ≤ 128)%nat →
  let bytes := geo_loop n 0 lat lon rl rL (replicate 16 0) in
  length bytes = 16%nat ∧ Forall is_u8 bytes ∧
  ∀ m, bit_at bytes m = bit_of (geo_bits n 0 lat lon rl rL) m.
Proof.
  intros Hn bytes. destruct (geo_loop_wf n 0 lat lon rl rL (replicate 16 0)) as [Hl Hb].
  { by apply Forall_replicate. }
  split; [exact Hl|]. split; [exact Hb|]. intros m. unfold bytes.
  rewrite geo_loop_bits by (rewrite length_replicate; lia).
  rewrite Nat.sub_0_r, (proj2 (Nat.leb_le 0 m)), andb_true_r by lia. unfold bit_at.
  rewrite nth_lookup. destruct (replicate 16 0 !! (m / 8)%nat) eqn:Hz.
  - apply lookup_replicate_1 in Hz as [-> _]. cbn [default from_option]. by rewrite Z.bits_0, orb_false_r.
  - cbn [default from_option]. by rewrite Z.bits_0, orb_false_r.
Qed.

(** A place not below the ranges lies in the cell that its geohash stands
    for: each character of the text is one of the alphabet, and the
    halvings that its bits stand for lead to ranges of latitude and longitude that
    contain the place. *)
Theorem geohash_cell_contains lat lon precision hash :
  f64_le (f64_of_Z (-90)) lat = true → f64_le (f64_of_Z (-180)) lon = true →
  geohash_encode lat lon precision = Some hash →
  ∃ lat_range lon_range, geohash_cell hash = Some (lat_range, lon_range) ∧
    within lat (f64_of_Z 90) lat_range ∧ within lon (f64_of_Z 180) lon_range.
Proof.
  intros Hlat Hlon. unfold geohash_encode. destruct (_ || _) eqn:Hp; [done|]. bool_hyps. cbv zeta.
  intros Hh. apply Some_inj in Hh as <-. set (n := Z.to_nat precision). replace (Z.to_nat (precision * 5)) with (n * 5)%nat by lia.
  assert (n * 5 ≤ 128)%nat as Hn by lia.
  destruct (geo_loop_bytes (n * 5) lat lon lat_range0 lon_range0 Hn) as (Hl & Hb & Hbits).
  destruct (hash_vals _ _ n Hl Hb Hbits) as (vs & -> & Hlt & Hcb).
  unfold geohash_cell. rewrite mapM_base32 by done. cbn [mbind option_bind].
  rewrite groups_take in Hcb by (rewrite length_geo_bits; lia).
  rewrite take_ge in Hcb by (rewrite length_geo_bits; lia). rewrite Hcb.
  pose proof (geo_cell_within (n * 5) lat lon (f64_of_Z 90) (f64_of_Z 180) 0 lat_range0 lon_range0) as Hw.
  destruct (geo_cell _ _ _ _) as [cl cL]. exists cl, cL. split; [done|].
  apply Hw; split; (done || by right).
Qed.

Lemma geo_bits_take n : ∀ k i lat lon rl rL,
  (n ≤ k)%nat → take n (geo_bits k i lat lon rl rL) = geo_bits n i lat lon rl rL.
Proof.
  induction n as [|n IH]; intros [|k] i lat lon rl rL Hk; try done; [lia|].
  cbn [geo_bits]. cbv zeta. case_if; cbn [take]; f_equal; apply IH; lia.
Qed.

Lemma geo_val_prefix n k lat lon rl rL i :
  (n ≤ k)%nat → (k ≤ 128)%nat → (5 * i + 5 ≤ n)%nat →
  geo_val (geo_loop n 0 lat lon rl rL (replicate 16 0)) i =
  geo_val (geo_loop k 0 lat lon rl rL (replicate 16 0)) i.
Proof.
  intros Hnk Hk Hi.
  destruct (geo_loop_bytes n lat lon rl rL ltac:(lia)) as (Hl & Hb & Hbits).
  destruct (geo_loop_bytes k lat lon rl rL Hk) as (Hl' & Hb' & Hbits').
  rewrite !geo_val_bits, !Hbits, !Hbits' by done. rewrite <- (geo_bits_take n k) by done.
  unfold bit_of. by rewrite !lookup_take_lt by lia.
Qed.

Lemma length_geohash lat lon p h : geohash_encode lat lon p = Some h → String.length h = Z.to_nat p.
Proof.
  unfold geohash_encode. case_if; [done|]. cbv zeta. intros Hh. apply Some_inj in Hh as <-.
  by rewrite length_bytes_str, length_fmap, length_seq.
Qed.

(** A geohash has the length asked for, and a shorter one of the same place
    is the beginning of a longer one. *)
Theorem geohash_prefix lat lon p q hp hq :
  p <= q → geohash_encode lat lon p = Some hp → geohash_encode lat lon q = Some hq →
  String.length hp = Z.to_nat p ∧ String.length hq = Z.to_nat q ∧ hp = str_take (Z.to_nat p) hq.
Proof.
  intros Hpq Hp Hq. split; [by apply length_geohash in Hp|]. split; [by apply length_geohash in Hq|].
  unfold geohash_encode in *. destruct (_ || _) eqn:Ep in Hp; [done|].
  destruct (_ || _) eqn:Eq in Hq; [done|]. bool_hyps. cbv zeta in *.
  apply Some_inj in Hp as <-. apply Some_inj in Hq as <-.
  assert (Z.to_nat q = Z.to_nat p + (Z.to_nat q - Z.to_nat p))%nat as -> by lia.
  rewrite seq_app, fmap_app, bytes_str_app.
  rewrite <- (length_seq (Z.to_nat p) 0) at 2. rewrite <- (length_fmap (λ i, base32_char
    (geo_val (geo_loop (Z.to_nat (q * 5)) 0 lat lon lat_range0 lon_range0 (replicate 16 0)) i)) (seq 0 _)).
  rewrite <- length_bytes_str, str_take_app. f_equal. apply list_fmap_ext. intros k i Hk.
  apply lookup_seq in Hk as [-> Hlt]. f_equal. apply geo_val_prefix; lia.
Qed.

(** * A concrete place *)

Definition lat_example : f64 := f64_div (f64_of_Z 5252) (f64_of_Z 100).
Definition lon_example : f64 := f64_div (f64_of_Z 1340) (f64_of_Z 100).

Lemma geohash_cell_contains_witness :
  geohash_encode lat_example lon_example 9 = Some "u33dbbvx4"%string ∧
  ∃ lat_range lon_range, geohash_cell "u33dbbvx4" = Some (lat_range, lon_range) ∧
    within lat_example (f64_of_Z 90) lat_range ∧ within lon_example (f64_of_Z 180) lon_range.
Proof.
  assert (geohash_encode lat_example lon_example 9 = Some "u33dbbvx4"%string) as He
    by (vm_compute; reflexivity).
  split; [exact He|].
  apply (geohash_cell_contains lat_example lon_example 9); [vm_compute; reflexivity..|exact He].
Defined.

Lemma geohash_prefix_witness :
  String.length "u33d" = 4%nat ∧ String.length "u33dbbvx4" = 9%nat ∧
  "u33d"%string = str_take 4 "u33dbbvx4".
Proof. apply (geohash_prefix lat_example lon_example 4 9); [lia|vm_compute; reflexivity..]. Defined.
