(* ===== verification/RelaySelector.v ===== *)
(** The choice of a relay to synchronise with (main/relay_selector.c): the table
    of seed relays, the probing over NIP-11, the scores, and the failover.  The
    HTTP answers and [qsort] are parameters; the lock serialises the operations.
    [last_probe_time], which nothing writes, is left out. *)

From S2P Require Import Prelude CStr F64 Json.
From stdpp Require Import sorting relations.
#[local] Open Scope Z_scope.

Definition MAX_FAILURES : Z := 3.
Definition RELAY_SELECTOR_MAX_RELAYS : nat := 8.

Record relay_info_t := mk_relay {
  rl_url : string;
  rl_name : string;
  rl_latency_ms : Z;
  rl_supports_nip77 : bool;
  rl_alive : bool;
  rl_failures : Z;
  rl_supported_nips : list Z;
  rl_nips_count : Z
}.

Definition relay_zero : relay_info_t := mk_relay "" "" 0 false false 0 (replicate 32 0) 0.

Definition with_alive (b : bool) (r : relay_info_t) : relay_info_t :=
  mk_relay (rl_url r) (rl_name r) (rl_latency_ms r) (rl_supports_nip77 r) b (rl_failures r)
    (rl_supported_nips r) (rl_nips_count r).
Definition with_failures (n : Z) (r : relay_info_t) : relay_info_t :=
  mk_relay (rl_url r) (rl_name r) (rl_latency_ms r) (rl_supports_nip77 r) (rl_alive r) n
    (rl_supported_nips r) (rl_nips_count r).

(** The first [sl_count] of the eight slots are in use; an index of -1 is none. *)
Record relay_selector_t := mk_selector {
  sl_relays : list relay_info_t;
  sl_count : nat;
  sl_primary_idx : Z;
  sl_fallback_idx : Z;
  sl_last_full_probe : Z
}.

Definition relay_selector_init : relay_selector_t :=
  mk_selector (replicate RELAY_SELECTOR_MAX_RELAYS relay_zero) 0 (-1) (-1) 0.

Definition used (s : relay_selector_t) : list relay_info_t := take (sl_count s) (sl_relays s).
Definition with_relays (s : relay_selector_t) (l : list relay_info_t) : relay_selector_t :=
  mk_selector l (sl_count s) (sl_primary_idx s) (sl_fallback_idx s) (sl_last_full_probe s).
Definition with_choice (s : relay_selector_t) (p f : Z) : relay_selector_t :=
  mk_selector (sl_relays s) (sl_count s) p f (sl_last_full_probe s).

(** * Comparison *)

Definition relay_score (r : relay_info_t) : Z :=
  i32 ((if rl_supports_nip77 r then 1000 else 0) - rl_failures r * 100).

Definition compare_relays (ra rb : relay_info_t) : Z :=
  if rl_alive ra && negb (rl_alive rb) then -1 else
  if negb (rl_alive ra) && rl_alive rb then 1 else
  if negb (relay_score ra =? relay_score rb) then i32 (relay_score rb - relay_score ra) else
  i32 (i32 (rl_latency_ms ra) - i32 (rl_latency_ms rb)).

(** * Probing *)

(** What the HTTP client makes of a request: no client, no connection, a status
    other than 200, or an answer with the announced length, the bytes that come
    and the time it took in milliseconds. *)
Inductive probe_answer :=
| ProbeNoClient
| ProbeNoConnection
| ProbeStatus (status : Z)
| ProbeOk (content_length : Z) (stream : list Z) (elapsed_ms : Z).

Section selector.
Context `{CJson J}.
Variable qsort : (relay_info_t → relay_info_t → Z) → list relay_info_t → list relay_info_t.

Definition probe_url (wss_url : string) : string :=
  let host := if has_prefix "wss://" wss_url then str_drop 6 wss_url
              else if has_prefix "ws://" wss_url then str_drop 5 wss_url else wss_url in
  str_take 191 ("https://" +:+ host +:+ "/")%string.

(** The fields the relay's document gives. *)
Definition read_nip11 (root : J) (r : relay_info_t) : relay_info_t :=
  let name := match get_str root "name" with Some n => strncpy 63 n | None => rl_name r end in
  match get_arr root "supported_nips" with
  | Some nips =>
      let vals := take 32 (int_of <$> items nips) in
      mk_relay (rl_url r) name (rl_latency_ms r) (existsb (λ n, n =? 77) vals) (rl_alive r)
        (rl_failures r) ((u8 <$> vals) ++ drop (length vals) (rl_supported_nips r))
        (Z.of_nat (Nat.min 32 (cJSON_GetArraySize nips)))
  | None =>
      mk_relay (rl_url r) name (rl_latency_ms r) (rl_supports_nip77 r) (rl_alive r) (rl_failures r)
        (rl_supported_nips r) (rl_nips_count r)
  end.

(** Whether the probe succeeded, and the relay after it. *)
Definition probe_nip11 (ans : probe_answer) (r : relay_info_t) : bool * relay_info_t :=
  match ans with
  | ProbeNoClient => (false, r)
  | ProbeNoConnection => (false, with_alive false r)
  | ProbeStatus status => (false, with_alive (0 <? status) r)
  | ProbeOk content_length stream elapsed_ms =>
      let max_read := if 0 <? content_length then Z.min content_length 4095 else 4095 in
      let r1 := mk_relay (rl_url r) (rl_name r) (u32 elapsed_ms) (rl_supports_nip77 r) true 0
                  (rl_supported_nips r) (rl_nips_count r) in
      (true, match cJSON_Parse (cstr (take (Z.to_nat max_read) stream)) with
             | Some root => read_nip11 root r1
             | None => r1
             end)
  end.

(** A failure counted; the third marks the relay dead. *)
Definition count_failure (r : relay_info_t) : relay_info_t :=
  let r1 := with_failures (i32 (rl_failures r + 1)) r in
  if MAX_FAILURES <=? rl_failures r1 then with_alive false r1 else r1.

Definition probe_one (ans : probe_answer) (r : relay_info_t) : relay_info_t :=
  let '(ok, r1) := probe_nip11 ans r in if ok then r1 else count_failure r1.

(** * Selection *)

Definition url_index (url : string) (s : relay_selector_t) : option nat :=
  find_slot (λ r, bool_decide (rl_url r = url)) (used s).

Definition select_primary_fallback (s : relay_selector_t) : relay_selector_t :=
  match qsort compare_relays (List.filter rl_alive (used s)) with
  | [] => with_choice s (-1) (-1)
  | p :: rest =>
      let index r old := match url_index (rl_url r) s with Some i => Z.of_nat i | None => old end in
      with_choice s (index p (sl_primary_idx s))
        match rest with f :: _ => index f (sl_fallback_idx s) | [] => -1 end
  end.

(** [http] gives the answer to the probe of each slot. *)
Definition relay_selector_probe_all (now_s : Z) (http : nat → string → probe_answer)
    (s : relay_selector_t) : relay_selector_t :=
  let probed := imap (λ i r, probe_one (http i (probe_url (rl_url r))) r) (used s) in
  let s1 := select_primary_fallback (with_relays s (probed ++ drop (sl_count s) (sl_relays s))) in
  mk_selector (sl_relays s1) (sl_count s1) (sl_primary_idx s1) (sl_fallback_idx s1) (u32 now_s).

Definition relay_selector_get_primary (s : relay_selector_t) : option relay_info_t :=
  if (sl_primary_idx s <? 0) || (Z.of_nat (sl_count s) <=? sl_primary_idx s) then None
  else sl_relays s !! Z.to_nat (sl_primary_idx s).

Fixpoint extra_relay (i : nat) (idx : Z) (p f : Z) (l : list relay_info_t) : option relay_info_t :=
  match l with
  | [] => None
  | r :: l' =>
      if negb (Z.of_nat i =? p) && negb (Z.of_nat i =? f) && rl_alive r then
        if idx <=? 0 then Some r else extra_relay (S i) (idx - 1) p f l'
      else extra_relay (S i) idx p f l'
  end.

Definition relay_selector_get_fallback (s : relay_selector_t) (idx : Z) : option relay_info_t :=
  if idx =? 0 then
    if sl_fallback_idx s <? 0 then None else sl_relays s !! Z.to_nat (sl_fallback_idx s)
  else extra_relay 0 idx (sl_primary_idx s) (sl_fallback_idx s) (used s).

Definition relay_selector_report_disconnect (url : string) (s : relay_selector_t) : relay_selector_t :=
  match url_index url s with
  | None => s
  | Some i =>
      let s1 := with_relays s (alter count_failure i (sl_relays s)) in
      match sl_relays s1 !! i with
      | Some r => if MAX_FAILURES <=? rl_failures r then select_primary_fallback s1 else s1
      | None => s1
      end
  end.

(** One seed of the configuration; what a slot held before stays, but for the
    address. *)
Definition seed_one (s : relay_selector_t) (seed : string) : relay_selector_t :=
  if (sl_count s <? RELAY_SELECTOR_MAX_RELAYS)%nat && negb (str_empty seed) then
    mk_selector
      (alter (λ r, mk_relay (strncpy 127 seed) (rl_name r) (rl_latency_ms r) (rl_supports_nip77 r)
                     true (rl_failures r) (rl_supported_nips r) (rl_nips_count r))
         (sl_count s) (sl_relays s))
      (S (sl_count s)) (sl_primary_idx s) (sl_fallback_idx s) (sl_last_full_probe s)
  else s.

Definition relay_selector_seed_from_config (seeds : list string) (s : relay_selector_t)
  : relay_selector_t :=
  foldl seed_one
    (mk_selector (sl_relays s) 0 (sl_primary_idx s) (sl_fallback_idx s) (sl_last_full_probe s)) seeds.
End selector.

(** * Sorting *)

(** What C asks of a comparison function, on the elements of a list. *)
Definition consistent {A} (cmp : A → A → Z) (l : list A) : Prop :=
  (∀ a b, a ∈ l → b ∈ l → (0 < cmp a b ↔ cmp b a < 0)) ∧
  (∀ a b c, a ∈ l → b ∈ l → c ∈ l → cmp a b <= 0 → cmp b c <= 0 → cmp a c <= 0).

(** What the selector relies on of [qsort]. *)
Class QSort {A} (qsort : (A → A → Z) → list A → list A) : Prop := {
  qsort_perm cmp l : qsort cmp l ≡ₚ l;
  qsort_sorted cmp l : consistent cmp l → StronglySorted (λ a b, cmp a b <= 0) (qsort cmp l)
}.

(** The better of two live relays: the higher score, then the lower latency. *)
Definition no_worse (a b : relay_info_t) : Prop :=
  relay_score b < relay_score a ∨
  (relay_score a = relay_score b ∧ rl_latency_ms a <= rl_latency_ms b).

(** Latencies and counts that the [int] arithmetic of the comparison holds. *)
Definition comparable (r : relay_info_t) : Prop :=
  0 <= rl_latency_ms r < 2 ^ 31 ∧ 0 <= rl_failures r < 10000000.

Lemma relay_score_exact r :
  comparable r → relay_score r = (if rl_supports_nip77 r then 1000 else 0) - rl_failures r * 100.
Proof. intros [_ Hf]. unfold relay_score. apply i32_small. pow_consts. case_if; lia. Qed.

Lemma relay_score_range r : comparable r → - 1000000000 <= relay_score r <= 1000.
Proof. intros Hc. rewrite relay_score_exact by done. destruct Hc as [_ ?]. case_if; lia. Qed.

Lemma compare_alive a b :
  rl_alive a = true → rl_alive b = true → comparable a → comparable b →
  compare_relays a b =
  if relay_score a =? relay_score b then rl_latency_ms a - rl_latency_ms b
  else relay_score b - relay_score a.
Proof.
  intros Ha Hb Hca Hcb. unfold compare_relays. rewrite Ha, Hb. cbn [negb andb].
  pose proof (relay_score_range a Hca). pose proof (relay_score_range b Hcb).
  destruct Hca as [? _], Hcb as [? _].
  destruct (relay_score a =? relay_score b); cbn [negb]; [|apply i32_small; pow_consts; lia].
  pow_consts. rewrite !(i32_small (rl_latency_ms _)) by (pow_consts; lia).
  apply i32_small. pow_consts. lia.
Qed.

Definition live_list (l : list relay_info_t) : Prop :=
  ∀ r, r ∈ l → rl_alive r = true ∧ comparable r.

Lemma compare_consistent l : live_list l → consistent compare_relays l.
Proof.
  intros Hl. split.
  - intros a b [Ha Hca]%Hl [Hb Hcb]%Hl. rewrite !compare_alive by done.
    rewrite (Z.eqb_sym (relay_score b)). case_if; bool_hyps; lia.
  - intros a b c [Ha Hca]%Hl [Hb Hcb]%Hl [Hc Hcc]%Hl. rewrite !compare_alive by done.
    repeat case_if; bool_hyps; lia.
Qed.

Lemma compare_no_worse a b :
  rl_alive a = true → rl_alive b = true → comparable a → comparable b →
  compare_relays a b <= 0 → no_worse a b.
Proof.
  intros. unfold no_worse. rewrite compare_alive in * by done. revert H3. case_if; bool_hyps; lia.
Qed.

(** * The choice *)

Section choice.
Context (qsort : (relay_info_t → relay_info_t → Z) → list relay_info_t → list relay_info_t)
  `{QSort _ qsort}.
Implicit Types s : relay_selector_t.
Notation select := (select_primary_fallback qsort).

Definition live (s : relay_selector_t) : list relay_info_t := List.filter rl_alive (used s).

Lemma elem_live s r : r ∈ live s ↔ r ∈ used s ∧ rl_alive r = true.
Proof. unfold live. rewrite !list_elem_of_In, filter_In. done. Qed.

Definition selector_wf (s : relay_selector_t) : Prop :=
  length (sl_relays s) = RELAY_SELECTOR_MAX_RELAYS ∧ (sl_count s ≤ RELAY_SELECTOR_MAX_RELAYS)%nat ∧
  NoDup (rl_url <$> used s).

(** With distinct addresses a relay is found at its own place. *)
Lemma url_index_own s r :
  selector_wf s → r ∈ used s →
  ∃ i, url_index (rl_url r) s = Some i ∧ (i < sl_count s)%nat ∧ sl_relays s !! i = Some r.
Proof.
  intros (Hl & Hc & Hnd) [i Hi]%list_elem_of_lookup. exists i. split; [|by apply lookup_take_Some in Hi as [? ?]].
  unfold url_index. apply (find_slot_unique _ _ _ r Hi); [by apply bool_decide_eq_true_2|].
  intros j y Hj Hy. apply bool_decide_eq_true_1 in Hy.
  apply (NoDup_lookup _ j i (rl_url r) Hnd); rewrite list_lookup_fmap.
  - rewrite Hj. cbn. by rewrite Hy.
  - by rewrite Hi.
Qed.

Lemma get_primary_at s i r f :
  (i < sl_count s)%nat → sl_relays s !! i = Some r →
  relay_selector_get_primary (with_choice s (Z.of_nat i) f) = Some r.
Proof.
  intros Hi Hr. unfold relay_selector_get_primary. cbn [with_choice sl_primary_idx sl_count sl_relays].
  rewrite (proj2 (Z.ltb_ge _ 0)), (proj2 (Z.leb_gt _ _)) by lia. cbn [orb]. by rewrite Nat2Z.id.
Qed.

Lemma get_fallback_at s i r p :
  sl_relays s !! i = Some r →
  relay_selector_get_fallback (with_choice s p (Z.of_nat i)) 0 = Some r.
Proof.
  intros Hr. unfold relay_selector_get_fallback. cbn [with_choice sl_fallback_idx sl_relays Z.eqb].
  rewrite (proj2 (Z.ltb_ge _ 0)) by lia. by rewrite Nat2Z.id.
Qed.

(** The relays chosen are the first two of the sorted live ones. *)
Lemma select_choice s :
  selector_wf s →
  relay_selector_get_primary (select s) = head (qsort compare_relays (live s)) ∧
  relay_selector_get_fallback (select s) 0 = qsort compare_relays (live s) !! 1%nat.
Proof.
  intros Hwf. unfold select_primary_fallback. fold (live s).
  assert (∀ r, r ∈ qsort compare_relays (live s) → r ∈ used s) as Hin.
  { intros r. rewrite qsort_perm. by intros [? _]%elem_live. }
  destruct (qsort compare_relays (live s)) as [|p rest]; [done|].
  destruct (url_index_own s p Hwf) as (i & -> & Hi & Hri); [apply Hin; left|].
  destruct rest as [|f rest].
  - split; [by apply get_primary_at|done].
  - destruct (url_index_own s f Hwf) as (j & -> & _ & Hrj); [apply Hin; right; left|].
    split; [by apply get_primary_at|by apply get_fallback_at].
Qed.

(** After a selection the primary relay is a live one that no live relay
    beats in score or, at the same score, in latency; the fallback is another
    live one that no live relay but the primary beats.  There is no primary only
    when no relay is alive, and no fallback only when at most one is. *)
Theorem selection_is_best s :
  selector_wf s → Forall comparable (used s) →
  match relay_selector_get_primary (select s) with
  | Some p => p ∈ used s ∧ rl_alive p = true ∧ ∀ r, r ∈ live s → no_worse p r
  | None => live s = []
  end ∧
  match relay_selector_get_fallback (select s) 0 with
  | Some f => f ∈ used s ∧ rl_alive f = true ∧ relay_selector_get_primary (select s) ≠ Some f ∧
      ∀ r, r ∈ live s → relay_selector_get_primary (select s) ≠ Some r → no_worse f r
  | None => (length (live s) ≤ 1)%nat
  end.
Proof.
  intros Hwf Hcmp. destruct (select_choice s Hwf) as [-> ->].
  assert (live_list (live s)) as Hll.
  { intros r [Hr Ha]%elem_live. split; [done|]. rewrite Forall_forall in Hcmp. by apply Hcmp. }
  pose proof (qsort_sorted compare_relays (live s) (compare_consistent _ Hll)) as Hs.
  pose proof (qsort_perm compare_relays (live s)) as Hp.
  assert (NoDup (live s)) as Hnd.
  { destruct Hwf as (_ & _ & Hnd). apply NoDup_ListNoDup, List.NoDup_filter, NoDup_ListNoDup.
    by apply (NoDup_fmap_1 rl_url). }
  rewrite <- Hp in Hnd.
  assert (∀ r, r ∈ qsort compare_relays (live s) ↔ r ∈ live s) as Hin by (intros r; by rewrite Hp).
  assert (∀ a b, a ∈ live s → b ∈ live s → compare_relays a b <= 0 → no_worse a b) as Hnw.
  { intros a b [? ?]%Hll [? ?]%Hll ?. by apply compare_no_worse. }
  rewrite <- (Permutation_length Hp).
  assert (∀ r, r ∈ qsort compare_relays (live s) → r ∈ used s ∧ rl_alive r = true) as Hel
    by (intros r Hr; by apply elem_live, Hin).
  setoid_rewrite <- Hin in Hnw.
  destruct (qsort compare_relays (live s)) as [|p rest]; cbn [head lookup list_lookup].
  { apply Permutation_nil in Hp. rewrite Hp. by split; [|cbn; lia]. }
  apply StronglySorted_inv in Hs as [Hs Hfirst]. rewrite List.Forall_forall in Hfirst. split.
  - destruct (Hel p) as [? ?]; [left|]. split_and!; [done..|].
    intros r [->|Hr]%Hin%elem_of_cons; [right; lia|].
    apply Hnw; [left|by right|]. by apply Hfirst, list_elem_of_In.
  - destruct rest as [|f rest]; [cbn; lia|].
    apply StronglySorted_inv in Hs as [_ Hsecond]. rewrite List.Forall_forall in Hsecond.
    destruct (Hel f) as [? ?]; [right; left|]. split_and!; [done..| |].
    + intros [= ->]. apply NoDup_cons in Hnd as [Hnd _]. apply Hnd. left.
    + intros r [->|[->|Hr]%elem_of_cons]%Hin%elem_of_cons Hne; [done|right; lia|].
      apply Hnw; [right; left|right; by right|]. by apply Hsecond, list_elem_of_In.
Qed.

(** * The primary relay is alive *)

Definition selector_inv (s : relay_selector_t) : Prop :=
  selector_wf s ∧ ∀ p, relay_selector_get_primary s = Some p → rl_alive p = true.

Lemma select_fields s : sl_relays (select s) = sl_relays s ∧ sl_count (select s) = sl_count s.
Proof. unfold select_primary_fallback. by destruct (qsort _ _). Qed.

Lemma select_inv s : selector_wf s → selector_inv (select s).
Proof.
  intros Hwf. destruct (select_fields s) as [Hr Hc]. split.
  - unfold selector_wf, used. by rewrite Hr, Hc.
  - intros p Hp. rewrite (proj1 (select_choice s Hwf)) in Hp.
    apply head_Some_elem_of in Hp. rewrite qsort_perm in Hp. by apply elem_live in Hp as [_ ?].
Qed.

(** Changes of the slots in use that keep their addresses. *)
Lemma with_relays_wf s l :
  length l = length (sl_relays s) → rl_url <$> take (sl_count s) l = rl_url <$> used s →
  selector_wf s → selector_wf (with_relays s l).
Proof.
  intros Hl Hu (H1 & H2 & H3). unfold selector_wf, used in *. cbn [with_relays sl_relays sl_count].
  by rewrite Hl, Hu.
Qed.

Lemma read_nip11_url `{CJson J} root r : rl_url (read_nip11 root r) = rl_url r.
Proof. unfold read_nip11. by destruct (get_arr _ _). Qed.

Lemma count_failure_url r : rl_url (count_failure r) = rl_url r.
Proof. unfold count_failure. cbv zeta. by case_if. Qed.

Lemma probe_one_url `{CJson J} ans r : rl_url (probe_one ans r) = rl_url r.
Proof.
  unfold probe_one. destruct ans as [| | |cl st ms]; cbn [probe_nip11]; try by rewrite count_failure_url.
  cbv zeta. destruct (cJSON_Parse _); [by rewrite read_nip11_url|done].
Qed.

Lemma probe_all_inv `{CJson J} now http s :
  selector_wf s → selector_inv (relay_selector_probe_all qsort now http s).
Proof.
  intros Hwf. unfold relay_selector_probe_all. cbv zeta.
  set (probed := imap _ _). set (s1 := with_relays s _).
  assert (length probed = length (used s)) as Hlp by apply length_imap.
  assert (length (used s) = sl_count s) as Hlu.
  { destruct Hwf as (Hl & Hc & _). unfold used. rewrite length_take. lia. }
  assert (selector_wf s1) as Hwf1.
  { apply with_relays_wf; [| |done].
    - rewrite length_app, Hlp, Hlu, length_drop. destruct Hwf as (Hl & Hc & _). lia.
    - rewrite take_app_length' by lia. unfold probed. apply list_eq. intros i.
      rewrite !list_lookup_fmap, list_lookup_imap. destruct (used s !! i); [|done].
      cbn. by rewrite probe_one_url. }
  destruct (select_inv s1 Hwf1) as [H1 H2]. by split.
Qed.

Lemma report_relays url s :
  let s' := relay_selector_report_disconnect qsort url s in
  sl_count s' = sl_count s ∧
  sl_relays s' = match url_index url s with
                 | Some i => alter count_failure i (sl_relays s)
                 | None => sl_relays s
                 end.
Proof.
  unfold relay_selector_report_disconnect. destruct (url_index url s) as [i|]; [|done]. cbv zeta.
  destruct (sl_relays _ !! i); [|done]. case_if; [|done].
  destruct (select_fields (with_relays s (alter count_failure i (sl_relays s)))) as [-> ->]. done.
Qed.

Lemma alter_failure_wf s i :
  selector_wf s → selector_wf (with_relays s (alter count_failure i (sl_relays s))).
Proof.
  intros Hwf. apply with_relays_wf; [by rewrite length_alter| |done].
  apply list_eq. intros j. unfold used. rewrite !list_lookup_fmap, !lookup_take.
  case_decide; [|done]. rewrite list_lookup_alter. case_decide; [subst j|done].
  destruct (sl_relays s !! i); [|done]. cbn. by rewrite count_failure_url.
Qed.

Lemma report_inv url s : selector_inv s → selector_inv (relay_selector_report_disconnect qsort url s).
Proof.
  intros [Hwf Hp]. unfold relay_selector_report_disconnect.
  destruct (url_index url s) as [i|]; [|by split]. cbv zeta.
  set (s1 := with_relays s _). assert (selector_wf s1) as Hwf1 by by apply alter_failure_wf.
  destruct (sl_relays s1 !! i) as [r|] eqn:Hr.
  - destruct (MAX_FAILURES <=? rl_failures r) eqn:Hf; [by apply select_inv|]. split; [done|].
    intros p. unfold relay_selector_get_primary. cbn [sl_primary_idx sl_count s1 with_relays].
    unfold relay_selector_get_primary in Hp. case_if; [done|]. cbn [s1 with_relays sl_relays].
    rewrite list_lookup_alter. case_decide as Hd; [|apply Hp]. unfold s1 in Hr.
    cbn [with_relays sl_relays] in Hr. rewrite list_lookup_alter_eq in Hr. rewrite Hd in *.
    destruct (sl_relays s !! _) as [r0|] eqn:Hr0; [|done]. cbn [fmap option_fmap option_map] in *.
    injection Hr as <-. intros [= <-]. specialize (Hp r0 eq_refl). revert Hf.
    unfold count_failure. cbv zeta. case_if; [cbn in E0 |- *; congruence|done].
  - split; [done|]. intros p. unfold relay_selector_get_primary in *.
    cbn [s1 with_relays sl_relays sl_count sl_primary_idx]. revert Hp. case_if; [done|]. intros Hp.
    rewrite alter_None; [apply Hp|]. unfold s1 in Hr. cbn [with_relays sl_relays] in Hr.
    rewrite list_lookup_alter_eq in Hr. by destruct (sl_relays s !! i).
Qed.

(** Seeding: the first eight addresses that are not empty, all taken for alive. *)
Definition seed_urls (seeds : list string) : list string :=
  strncpy 127 <$> List.filter (λ x, negb (str_empty x)) seeds.

Lemma seed_fold seeds : ∀ s,
  length (sl_relays s) = RELAY_SELECTOR_MAX_RELAYS → (sl_count s ≤ RELAY_SELECTOR_MAX_RELAYS)%nat →
  let s' := foldl seed_one s seeds in
  length (sl_relays s') = RELAY_SELECTOR_MAX_RELAYS ∧ (sl_count s' ≤ RELAY_SELECTOR_MAX_RELAYS)%nat ∧
  rl_url <$> used s' = take RELAY_SELECTOR_MAX_RELAYS ((rl_url <$> used s) ++ seed_urls seeds) ∧
  (Forall (λ r, rl_alive r = true) (used s) → Forall (λ r, rl_alive r = true) (used s')).
Proof.
  induction seeds as [|x seeds IH]; intros s Hl Hc; cbn [foldl].
  { split_and!; [done|done| |done]. unfold seed_urls. cbn. rewrite app_nil_r, take_ge; [done|].
    unfold used. unfold RELAY_SELECTOR_MAX_RELAYS in *. rewrite length_fmap, length_take. lia. }
  assert (seed_urls (x :: seeds) = (if str_empty x then [] else [strncpy 127 x]) ++ seed_urls seeds) as ->
    by (unfold seed_urls; cbn; by destruct (str_empty x)).
  unfold seed_one at 2 4 6 8. destruct (sl_count s <? RELAY_SELECTOR_MAX_RELAYS)%nat eqn:Hroom;
    bool_hyps; cbn [andb].
  2: { destruct (IH s Hl Hc) as (H1 & H2 & H3 & H4). split_and!; [done..| |done]. rewrite H3.
       assert (length (rl_url <$> used s) = RELAY_SELECTOR_MAX_RELAYS) as Hu
         by (unfold used; rewrite length_fmap, length_take; lia).
       rewrite !take_app_le by lia. done. }
  destruct (str_empty x); cbn [negb]; [by apply IH|].
  set (f := λ r, mk_relay _ _ _ _ _ _ _ _). set (s1 := mk_selector _ _ _ _ _).
  destruct (lookup_lt_is_Some_2 (sl_relays s) (sl_count s)) as [r Hr]; [lia|].
  assert (used s1 = used s ++ [f r]) as Hu1.
  { unfold used. cbn [s1 sl_relays sl_count]. rewrite (alter_insert_Some _ _ _ _ Hr).
    by rewrite take_app_insert by lia. }
  destruct (IH s1) as (H1 & H2 & H3 & H4); [cbn; by rewrite length_alter|cbn; lia|].
  split_and!; [done..| |].
  - rewrite H3, Hu1, fmap_app. cbn [fmap list_fmap]. by rewrite <- app_assoc.
  - intros Ha. apply H4. rewrite Hu1. apply Forall_app. split; [done|]. by repeat constructor.
Qed.

Lemma seed_inv seeds s :
  NoDup (seed_urls seeds) → selector_wf s → selector_inv (relay_selector_seed_from_config seeds s).
Proof.
  intros Hnd (Hl & _ & _). unfold relay_selector_seed_from_config. set (s0 := mk_selector _ _ _ _ _).
  destruct (seed_fold seeds s0) as (H1 & H2 & H3 & H4); [done|cbn; lia|].
  set (s' := foldl _ _ _) in *. split.
  - split_and!; [done..|]. rewrite H3. unfold used. cbn [s0 sl_count take fmap list_fmap app].
    rewrite <- (take_drop RELAY_SELECTOR_MAX_RELAYS (seed_urls seeds)) in Hnd.
    by apply NoDup_app in Hnd as [? _].
  - intros p. unfold relay_selector_get_primary. case_if; [done|]. bool_hyps. intros Hp.
    assert (Forall (λ r, rl_alive r = true) (used s')) as Ha by (by apply H4).
    rewrite Forall_lookup in Ha. apply (Ha (Z.to_nat (sl_primary_idx s'))). unfold used.
    apply lookup_take_Some. split; [done|]. lia.
Qed.

(** One operation on the table.  The seeds are distinct. *)
Inductive selector_step `{CJson J} (s : relay_selector_t) : relay_selector_t → Prop :=
| step_seed seeds :
    NoDup (seed_urls seeds) → selector_step s (relay_selector_seed_from_config seeds s)
| step_probe now http : selector_step s (relay_selector_probe_all qsort now http s)
| step_disconnect url : selector_step s (relay_selector_report_disconnect qsort url s).

(** Whatever is seeded, probed and reported, in any order, the primary relay
    is one that is taken for alive. *)
Theorem primary_is_alive `{CJson J} s p :
  rtc selector_step relay_selector_init s → relay_selector_get_primary s = Some p → rl_alive p = true.
Proof.
  intros Hr. assert (selector_inv s) as [_ Hp]; [|apply Hp].
  remember relay_selector_init as s0 eqn:E. assert (selector_inv s0) as Hi.
  { subst. split; [split_and!; [done|cbn; lia|constructor]|done]. }
  clear E. induction Hr as [|s0 s1 s2 Hstep _ IH]; [done|]. apply IH.
  destruct Hstep; [by apply seed_inv; [|apply Hi]|apply probe_all_inv, Hi|by apply report_inv].
Qed.

(** * Failover *)

Lemma url_index_Some url s i :
  url_index url s = Some i → ∃ r, (i < sl_count s)%nat ∧ sl_relays s !! i = Some r ∧ rl_url r = url.
Proof.
  intros (r & Hi & Hr & Hu)%find_slot_take_Some. apply bool_decide_eq_true_1 in Hu. eauto.
Qed.

Lemma report_wf url s : selector_wf s → selector_wf (relay_selector_report_disconnect qsort url s).
Proof.
  intros Hwf. destruct (report_relays url s) as [Hc Hr]. destruct (url_index url s) as [i|].
  - pose proof (alter_failure_wf s i Hwf) as Hw. unfold selector_wf, used in *. rewrite Hc, Hr. exact Hw.
  - unfold selector_wf, used in *. by rewrite Hc, Hr.
Qed.

(** A report counts against the relay with that address. *)
Lemma report_counts url s i r :
  selector_wf s → url_index url s = Some i → sl_relays s !! i = Some r →
  let s' := relay_selector_report_disconnect qsort url s in
  url_index url s' = Some i ∧ sl_relays s' !! i = Some (count_failure r).
Proof.
  intros Hwf Hi Hr s'. pose proof (report_wf url s Hwf) as Hwf'. fold s' in Hwf'.
  destruct (report_relays url s) as [Hc Hrel]. fold s' in Hc, Hrel. rewrite Hi in Hrel.
  destruct (url_index_Some url s i Hi) as (r0 & Hlt & Hr0 & Hu). rewrite Hr in Hr0. injection Hr0 as <-.
  assert (sl_relays s' !! i = Some (count_failure r)) as Hri by (by rewrite Hrel, list_lookup_alter_eq, Hr).
  split; [|done]. destruct (url_index_own s' (count_failure r) Hwf') as (k & Hk & Hklt & Hkr).
  { apply list_elem_of_lookup. exists i. apply lookup_take_Some. split; [done|]. by rewrite Hc. }
  rewrite count_failure_url, Hu in Hk. rewrite Hk. f_equal.
  destruct Hwf' as (_ & _ & Hnd). apply (NoDup_lookup _ k i url Hnd);
    unfold used; rewrite list_lookup_fmap, lookup_take_lt by lia.
  - rewrite Hkr. cbn. by rewrite count_failure_url, Hu.
  - rewrite Hri. cbn. by rewrite count_failure_url, Hu.
Qed.

(** The report that brings the count to three. *)
Lemma third_report url s i r :
  selector_wf s → url_index url s = Some i → sl_relays s !! i = Some r →
  2 <= rl_failures r < 2 ^ 31 - 1 →
  let s' := relay_selector_report_disconnect qsort url s in
  (∀ p, relay_selector_get_primary s' = Some p → rl_url p ≠ url ∧ rl_alive p = true) ∧
  (relay_selector_get_primary s' = None → ∀ q, q ∈ used s → rl_url q ≠ url → rl_alive q = false).
Proof.
  intros Hwf Hi Hr Hf s'. pose proof (alter_failure_wf s i Hwf) as Hwf1.
  destruct (url_index_Some url s i Hi) as (r0 & Hlt & Hr0 & Hu). rewrite Hr in Hr0. injection Hr0 as <-.
  assert (rl_failures (count_failure r) = rl_failures r + 1 ∧ rl_alive (count_failure r) = false) as [Hcf Hca].
  { unfold count_failure. cbv zeta. cbn [with_failures rl_failures].
    rewrite i32_small by (pow_consts; lia). unfold MAX_FAILURES.
    by rewrite (proj2 (Z.leb_le 3 _)) by lia. }
  set (s1 := with_relays s (alter count_failure i (sl_relays s))) in *.
  assert (sl_relays s1 !! i = Some (count_failure r)) as Hri
    by (cbn [s1 with_relays sl_relays]; by rewrite list_lookup_alter_eq, Hr).
  assert (s' = select s1) as ->.
  { unfold s', relay_selector_report_disconnect. rewrite Hi. cbv zeta. fold s1. rewrite Hri, Hcf.
    unfold MAX_FAILURES. by rewrite (proj2 (Z.leb_le 3 _)) by lia. }
  destruct (select_choice s1 Hwf1) as [Hp _]. rewrite Hp. split.
  - intros p Hhd%head_Some_elem_of. rewrite qsort_perm in Hhd. apply elem_live in Hhd as [Hin Ha].
    split; [|done]. intros Hpu. destruct (url_index_own s1 p Hwf1 Hin) as (k & _ & Hk & Hkr).
    assert (k = i) as ->; [|congruence]. destruct Hwf1 as (_ & _ & Hnd).
    apply (NoDup_lookup _ k i url Hnd); unfold used; rewrite list_lookup_fmap, lookup_take_lt by done.
    + rewrite Hkr. cbn. by rewrite Hpu.
    + rewrite Hri. cbn. by rewrite count_failure_url, Hu.
  - intros Hnone q [k Hq]%list_elem_of_lookup Hqu. apply lookup_take_Some in Hq as [Hq Hk].
    destruct (rl_alive q) eqn:Hqa; [|done]. exfalso.
    assert (q ∈ live s1) as Hql.
    { apply elem_live. split; [|done]. apply list_elem_of_lookup. exists k. apply lookup_take_Some.
      split; [|done]. cbn [s1 with_relays sl_relays]. rewrite list_lookup_alter_ne; [done|].
      intros ->. congruence. }
    rewrite <- (qsort_perm compare_relays) in Hql.
    destruct (qsort compare_relays (live s1)); [by apply elem_of_nil in Hql|done].
Qed.

(** The other relays keep their record. *)
Lemma report_others url s q :
  q ∈ used s → rl_url q ≠ url → q ∈ used (relay_selector_report_disconnect qsort url s).
Proof.
  intros [k Hq]%list_elem_of_lookup Hu. destruct (report_relays url s) as [Hc Hr].
  apply list_elem_of_lookup. exists k. unfold used in *. rewrite Hc, Hr.
  apply lookup_take_Some in Hq as [Hq Hk]. apply lookup_take_Some. split; [|done].
  destruct (url_index url s) as [i|] eqn:Hi; [|done].
  destruct (url_index_Some url s i Hi) as (r & _ & Hri & Hru).
  rewrite list_lookup_alter_ne; [done|]. intros ->. congruence.
Qed.

(** After three reports that the connection to a relay was lost, whatever its
    record was, that relay is not the primary any more; another live relay is,
    and there is no primary only if no other relay is alive. *)
Theorem three_reports_fail_over url s i r :
  selector_wf s → url_index url s = Some i → sl_relays s !! i = Some r →
  0 <= rl_failures r < 2 ^ 31 - 4 →
  let s' := Nat.iter 3 (relay_selector_report_disconnect qsort url) s in
  match relay_selector_get_primary s' with
  | Some p => rl_url p ≠ url ∧ rl_alive p = true
  | None => ∀ q, q ∈ used s → rl_url q ≠ url → rl_alive q = false
  end.
Proof.
  intros Hwf Hi Hr Hf. cbn [Nat.iter nat_rect]. cbv zeta.
  set (s1 := relay_selector_report_disconnect qsort url s).
  set (s2 := relay_selector_report_disconnect qsort url s1).
  destruct (report_counts url s i r Hwf Hi Hr) as [Hi1 Hr1]. fold s1 in Hi1, Hr1.
  pose proof (report_wf url s Hwf) as Hwf1. fold s1 in Hwf1.
  destruct (report_counts url s1 i _ Hwf1 Hi1 Hr1) as [Hi2 Hr2]. fold s2 in Hi2, Hr2.
  pose proof (report_wf url s1 Hwf1) as Hwf2. fold s2 in Hwf2.
  assert (∀ r0, 0 <= rl_failures r0 < 2 ^ 31 - 1 → rl_failures (count_failure r0) = rl_failures r0 + 1) as Hcf.
  { intros r0 H0. unfold count_failure. cbv zeta. cbn [with_failures rl_failures].
    rewrite i32_small by (pow_consts; lia). by case_if. }
  destruct (third_report url s2 i _ Hwf2 Hi2 Hr2) as [Hs Hn].
  { pow_consts. rewrite !Hcf by (rewrite ?Hcf; pow_consts; lia). lia. }
  destruct (relay_selector_get_primary _) as [p|]; [by apply Hs|].
  intros q Hq Hqu. apply Hn; [done| |done]. by do 2 (apply report_others; [|done]).
Qed.
End choice.

(** * A sort, for the examples *)

Section isort.
Context {A : Type} (cmp : A → A → Z).

Fixpoint insert_by (x : A) (l : list A) : list A :=
  match l with
  | [] => [x]
  | y :: l' => if cmp x y <=? 0 then x :: l else y :: insert_by x l'
  end.
Definition isort (l : list A) : list A := foldr insert_by [] l.

Lemma consistent_sub l l' : (∀ x, x ∈ l' → x ∈ l) → consistent cmp l → consistent cmp l'.
Proof. intros Hl [Hs Ht]. split; [auto|]. intros a b c ? ? ?. apply Ht; auto. Qed.

Lemma insert_by_perm x l : insert_by x l ≡ₚ x :: l.
Proof.
  induction l as [|y l IH]; [done|]. cbn [insert_by]. case_if; [done|].
  rewrite IH. apply Permutation_swap.
Qed.

Lemma isort_perm l : isort l ≡ₚ l.
Proof. induction l as [|x l IH]; [done|]. cbn [isort foldr]. by rewrite insert_by_perm, IH. Qed.

Lemma insert_by_sorted x l :
  consistent cmp (x :: l) → StronglySorted (λ a b, cmp a b <= 0) l →
  StronglySorted (λ a b, cmp a b <= 0) (insert_by x l).
Proof.
  induction l as [|y l IH]; intros Hc Hl; [by repeat constructor|]. cbn [insert_by].
  pose proof Hc as [Hs Ht].
  apply StronglySorted_inv in Hl as [Hl Hy]. case_if; bool_hyps.
  - constructor; [by constructor|]. constructor; [done|]. rewrite List.Forall_forall in *.
    intros z Hz. apply (Ht x y z); [left|right; left|right; right; by apply list_elem_of_In|done|by apply Hy].
  - constructor.
    + apply IH; [|done]. apply (consistent_sub (x :: y :: l)); [|done].
      intros z [->|Hz]%elem_of_cons; [left|right; by right].
    + rewrite List.Forall_forall in *. intros z Hz%list_elem_of_In. rewrite insert_by_perm in Hz.
      apply elem_of_cons in Hz as [->|Hz]; [|by apply Hy, list_elem_of_In].
      assert (cmp y x < 0); [|lia]. apply (Hs x y); [left|right; left|lia].
Qed.
End isort.

#[export] Instance isort_qsort {A} : QSort (@isort A).
Proof.
  split; [apply isort_perm|]. intros cmp l. induction l as [|x l IH]; intros Hc; [constructor|].
  cbn [isort foldr]. apply insert_by_sorted.
  - apply (consistent_sub cmp (x :: l)); [|done].
    intros z [->|Hz]%elem_of_cons; [left|right]. by rewrite <- (isort_perm cmp l).
  - apply IH, (consistent_sub cmp (x :: l)); [|done]. by right.
Qed.

(** * Behaviour worth knowing *)

Definition live_relay (url : string) (latency : Z) : relay_info_t :=
  mk_relay url "" latency true true 0 (replicate 32 0) 0.
Definition four_relays : relay_selector_t :=
  select_primary_fallback isort
    (mk_selector ([live_relay "a" 10; live_relay "b" 20; live_relay "c" 30; live_relay "d" 40]
                  ++ replicate 4 relay_zero) 4 (-1) (-1) 0).

(** The further fallbacks start at the second of the remaining relays; the first
    one comes out for no index but a negative one. *)
Theorem further_fallbacks_skip_one :
  rl_url <$> relay_selector_get_primary four_relays = Some "a"%string ∧
  rl_url <$> relay_selector_get_fallback four_relays 0 = Some "b"%string ∧
  rl_url <$> relay_selector_get_fallback four_relays 1 = Some "d"%string ∧
  relay_selector_get_fallback four_relays 2 = None ∧
  rl_url <$> relay_selector_get_fallback four_relays (-1) = Some "c"%string.
Proof. split_and!; vm_compute; reflexivity. Qed.

(** After fewer seeds the old fallback index still leads to a relay that is no
    more in the table; the primary is checked against the count. *)
Theorem fallback_outlives_seeds :
  let s := relay_selector_seed_from_config ["x"%string] four_relays in
  sl_count s = 1%nat ∧ rl_url <$> relay_selector_get_fallback s 0 = Some "b"%string.
Proof. split; vm_compute; reflexivity. Qed.

(** A relay seeded twice is both primary and fallback. *)
Theorem same_seed_twice :
  let s := select_primary_fallback isort
             (relay_selector_seed_from_config ["x"; "x"]%string relay_selector_init) in
  relay_selector_get_primary s ≠ None ∧
  relay_selector_get_primary s = relay_selector_get_fallback s 0.
Proof. vm_compute. split; [discriminate|reflexivity]. Qed.

(** * Concrete tables *)

Lemma four_relays_wf : selector_wf four_relays.
Proof.
  split_and!; [reflexivity|vm_compute; lia|].
  apply (bool_decide_unpack (NoDup _)). vm_compute. exact I.
Qed.

Lemma selection_is_best_witness :
  match relay_selector_get_primary (select_primary_fallback isort four_relays) with
  | Some p => p ∈ used four_relays ∧ rl_alive p = true ∧ ∀ r, r ∈ live four_relays → no_worse p r
  | None => live four_relays = []
  end ∧
  match relay_selector_get_fallback (select_primary_fallback isort four_relays) 0 with
  | Some f => f ∈ used four_relays ∧ rl_alive f = true ∧
      relay_selector_get_primary (select_primary_fallback isort four_relays) ≠ Some f ∧
      ∀ r, r ∈ live four_relays →
        relay_selector_get_primary (select_primary_fallback isort four_relays) ≠ Some r → no_worse f r
  | None => (length (live four_relays) ≤ 1)%nat
  end.
Proof.
  apply (selection_is_best isort four_relays four_relays_wf).
  assert (Forall comparable (used four_relays)) as Hc; [|exact Hc].
  repeat (apply Forall_cons; split; [vm_compute; repeat split; (discriminate || reflexivity)|]).
  apply Forall_nil_2.
Defined.

Lemma primary_is_alive_witness :
  let s := relay_selector_report_disconnect isort "x"
             (relay_selector_probe_all (H := tree_json (λ _, None)) isort 5 (λ _ _, ProbeOk 0 [] 7)
                (relay_selector_seed_from_config ["x"; "y"]%string relay_selector_init)) in
  ∃ p, relay_selector_get_primary s = Some p ∧ rl_alive p = true.
Proof.
  intros s. assert (is_Some (relay_selector_get_primary s)) as [p Hp] by (vm_compute; eauto).
  exists p. split; [exact Hp|]. apply (primary_is_alive isort (H0 := tree_json (λ _, None)) s p); [|exact Hp].
  eapply rtc_l; [apply (step_seed isort _ ["x"; "y"]%string); apply (bool_decide_unpack (NoDup _)); vm_compute; exact I|].
  eapply rtc_l; [apply (step_probe isort _ 5 (λ _ _, ProbeOk 0 [] 7))|].
  eapply rtc_l; [apply (step_disconnect isort _ "x")|]. apply rtc_refl.
Defined.

Lemma three_reports_fail_over_witness :
  match relay_selector_get_primary (Nat.iter 3 (relay_selector_report_disconnect isort "a") four_relays) with
  | Some p => rl_url p ≠ "a"%string ∧ rl_alive p = true
  | None => ∀ q, q ∈ used four_relays → rl_url q ≠ "a"%string → rl_alive q = false
  end.
Proof.
  apply (three_reports_fail_over isort "a" four_relays 0 (live_relay "a" 10) four_relays_wf);
    [reflexivity|reflexivity|vm_compute; split; (discriminate || reflexivity)].
Defined.
