(* ===== verification/Identity.v ===== *)
(** The identity of the gate (main/identity.c) and what the configuration takes
    from it (tollgate_config_derive_unique of main/config.c): the key of the
    configuration file gives the public key, the MAC addresses, the network of
    the access point and the key that locks payments. *)

From S2P Require Import Prelude CStr F64 Json Config.
#[local] Open Scope Z_scope.

Record tollgate_identity_t := mk_identity {
  id_nsec : list Z;
  id_nsec_hex : string;
  id_npub_hex : string;
  id_sta_mac : list Z;
  id_ap_mac : list Z;
  id_ap_ssid : string;
  (** Network byte order, read from memory: the first octet is the low byte. *)
  id_ap_ip : Z;
  id_ap_ip_str : string;
  id_locking_privkey : list Z;
  id_locking_pubkey : list Z;
  id_locking_pubkey_hex : string;
  id_initialized : bool
}.

Definition identity_zero : tollgate_identity_t :=
  mk_identity (replicate 32 0) "" "" (replicate 6 0) (replicate 6 0) "" 0 "" (replicate 32 0)
    (replicate 33 0) "" false.

(** [hex_to_bytes]: the bytes of the buffer afterwards, and the result. *)
Definition hex_to_bytes (hex : string) (out : list Z) : list Z * bool :=
  if negb (String.length hex =? length out * 2)%nat then (out, false) else
  let '(l, ok) := hex_to_bytes_loop (length out) hex in
  (l ++ drop (length l) out, ok).

(** [%02X] of a byte. *)
Definition hex_digit_upper (d : Z) : ascii := if d <? 10 then chr (48 + d) else chr (55 + d).
Definition hex2_upper (b : Z) : string :=
  String (hex_digit_upper (b / 16)) (String (hex_digit_upper (b mod 16)) EmptyString).

Section identity.
(** [mbedtls_md_hmac] with SHA-512: key and message. *)
Variable hmac_sha512 : list Z → list Z → list Z.
(** secp256k1: the public key of a private key, if it is one; its x-only and
    its compressed serialisation. *)
Context {pubkey : Type} (ec_pubkey_create : list Z → option pubkey).
Variable xonly_serialize : pubkey → list Z.
Variable compressed_serialize : pubkey → list Z.

Definition tollgate_derive (nsec : list Z) (label : string) (index : Z) (out_len : nat) : list Z :=
  take out_len (hmac_sha512 nsec (str_bytes label ++ put_le32 index)).

(** [m[0] = (m[0] | 0x02) & 0xFE] *)
Definition local_mac (m : list Z) : list Z := alter (λ b, Z.land (Z.lor b 0x02) 0xFE) 0%nat m.

(** [(b4 ^ b5) % 200 + 10] as a byte, and [IP4_ADDR]. *)
Definition ap_subnet (ap_mac : list Z) : Z :=
  u8 (Z.lxor (ap_mac !!! 4%nat) (ap_mac !!! 5%nat) mod 200 + 10).
Definition ip4_addr (a b c d : Z) : Z := a + b * 2 ^ 8 + c * 2 ^ 16 + d * 2 ^ 24.

Definition identity_init (nsec_hex : string) : esp_err_t * tollgate_identity_t :=
  if negb (String.length nsec_hex =? 64)%nat then (ESP_ERR_INVALID_ARG, identity_zero) else
  let '(nsec, ok) := hex_to_bytes nsec_hex (replicate 32 0) in
  let parsed :=
    mk_identity nsec (strncpy 64 nsec_hex) "" (replicate 6 0) (replicate 6 0) "" 0 ""
      (replicate 32 0) (replicate 33 0) "" false in
  if negb ok then (ESP_ERR_INVALID_ARG, parsed) else
  match ec_pubkey_create nsec with
  | None => (ESP_ERR_INVALID_ARG, parsed)
  | Some key =>
      let sta_mac := local_mac (tollgate_derive nsec "sta-mac" 0 6) in
      let ap_mac := local_mac (tollgate_derive nsec "ap-mac" 0 6) in
      let ap_ip := ip4_addr 10 (ap_mac !!! 3%nat) (ap_subnet ap_mac) 1 in
      let locking := tollgate_derive nsec "tollgate-cashu-locking-key" 0 32 in
      let '(locking_pub, locking_hex) :=
        match ec_pubkey_create locking with
        | Some k => (compressed_serialize k, hex_bytes (compressed_serialize k))
        | None => (replicate 33 0, ""%string)
        end in
      (ESP_OK,
       mk_identity nsec (strncpy 64 nsec_hex) (hex_bytes (xonly_serialize key)) sta_mac ap_mac
         (str_take 31 ("TollGate-" +:+ hex2_upper (ap_mac !!! 3%nat) +:+ hex2_upper (ap_mac !!! 4%nat)
                       +:+ hex2_upper (ap_mac !!! 5%nat))%string)
         ap_ip (str_take 15 (ip_str ap_ip)) locking locking_pub locking_hex true)
  end.

(** [tollgate_config_derive_unique], with [s_identity]. *)
Definition tollgate_config_derive_unique (id : tollgate_identity_t) (c : tollgate_config_t)
  : tollgate_config_t :=
  if cf_identity_initialized c then c else
  if negb (id_initialized id) then c else
  with_identity (strncpy 64 (id_npub_hex id)) (strncpy 31 (id_ap_ssid id)) (id_sta_mac id) (id_ap_mac id)
    (id_ap_ip id) (strncpy 15 (id_ap_ip_str id)) true c.
End identity.

(** * Lemmas *)

Lemma identity_hex_to_bytes l n :
  Forall is_u8 l → length l = n → hex_to_bytes (hex_bytes l) (replicate n 0) = (l, true).
Proof.
  intros Hl <-. unfold hex_to_bytes. rewrite length_hex_bytes, length_replicate, Nat.mul_comm, Nat.eqb_refl.
  pose proof (hex_to_bytes_loop_hex l "" Hl) as Hx. rewrite str_append_nil_r in Hx.
  cbn [negb]. rewrite Hx.
  rewrite drop_ge by (by rewrite length_replicate). by rewrite app_nil_r.
Qed.

Lemma log2_byte x : is_u8 x ↔ 0 <= x ∧ Z.log2 x < 8.
Proof.
  unfold is_u8. split.
  - intros Hx. split; [lia|]. destruct (decide (x = 0)) as [->|]; [by vm_compute|]. apply Z.log2_lt_pow2; lia.
  - intros [Hx Hl]. split; [done|]. destruct (decide (x = 0)) as [->|]; [by vm_compute|].
    apply Z.log2_lt_pow2; lia.
Qed.

(** The low bits of the first byte: not a group address, and administered
    locally. *)
Lemma local_mac_bits b :
  is_u8 b → Z.testbit (Z.land (Z.lor b 0x02) 0xFE) 0 = false ∧
            Z.testbit (Z.land (Z.lor b 0x02) 0xFE) 1 = true ∧ is_u8 (Z.land (Z.lor b 0x02) 0xFE).
Proof.
  intros Hb. rewrite !Z.land_spec, !Z.lor_spec. split_and!; [by rewrite andb_false_r| |].
  - by rewrite orb_true_r.
  - assert (0 <= Z.lor b 2) as Hl by (apply Z.lor_nonneg; unfold is_u8 in Hb; lia).
    apply log2_byte. split; [apply Z.land_nonneg; by left|].
    pose proof (Z.log2_land (Z.lor b 2) 0xFE Hl ltac:(lia)). change (Z.log2 0xFE) with 7 in *. lia.
Qed.

(** A MAC address as the gate makes them. *)
Definition mac_ok (m : list Z) : Prop :=
  length m = 6%nat ∧ Forall is_u8 m ∧
  Z.testbit (m !!! 0%nat) 0 = false ∧ Z.testbit (m !!! 0%nat) 1 = true.

Lemma local_mac_ok m : length m = 6%nat → Forall is_u8 m → mac_ok (local_mac m).
Proof.
  intros Hl Hm. destruct m as [|b m]; [done|]. inversion Hm as [|? ? Hb Hm']; subst.
  destruct (local_mac_bits b Hb) as (H0 & H1 & H8). unfold mac_ok, local_mac. cbn in *.
  split_and!; [done|by constructor|done|done].
Qed.

Lemma mac_ok_byte m i : mac_ok m → (i < 6)%nat → is_u8 (m !!! i).
Proof.
  intros (Hl & Hm & _) Hi. destruct (lookup_lt_is_Some_2 m i) as [b Hb]; [lia|].
  rewrite (list_lookup_total_correct _ _ _ Hb). by apply (Forall_lookup_1 _ _ _ _ Hm Hb).
Qed.

Lemma lxor_u8 a b : is_u8 a → is_u8 b → is_u8 (Z.lxor a b).
Proof.
  rewrite !log2_byte. intros [Ha Hla] [Hb Hlb]. split; [apply Z.lxor_nonneg; lia|].
  pose proof (Z.log2_lxor a b Ha Hb). lia.
Qed.

Lemma ap_subnet_range m : mac_ok m → 10 <= ap_subnet m <= 209.
Proof.
  intros Hm. unfold ap_subnet. pose proof (lxor_u8 _ _ (mac_ok_byte m 4 Hm ltac:(lia)) (mac_ok_byte m 5 Hm ltac:(lia))).
  assert (0 <= Z.lxor (m !!! 4%nat) (m !!! 5%nat) mod 200 < 200) by (apply Z.mod_pos_bound; lia).
  rewrite u8_small; [lia|]. unfold is_u8. pow_consts. lia.
Qed.

(** The octets of an address come back. *)
Lemma ip_str_addr a b c d :
  is_u8 a → is_u8 b → is_u8 c → is_u8 d →
  ip_str (ip4_addr a b c d) =
  (print_u a +:+ "." +:+ print_u b +:+ "." +:+ print_u c +:+ "." +:+ print_u d)%string.
Proof.
  intros Ha Hb Hc Hd. unfold ip_str, ip4_addr, u8, is_u8 in *.
  rewrite !Z.shiftr_div_pow2 by lia. pow_consts.
  repeat f_equal; Z.to_euclidean_division_equations; lia.
Qed.

Lemma print_u_byte b : is_u8 b → (String.length (print_u b) ≤ 3)%nat.
Proof.
  intros Hb. unfold is_u8 in Hb.
  assert (forallb (λ n, (String.length (print_u (Z.of_nat n)) <=? 3)%nat) (seq 0 256) = true) as Hall
    by (vm_compute; reflexivity).
  rewrite forallb_forall in Hall. specialize (Hall (Z.to_nat b)). rewrite Z2Nat.id in Hall by lia.
  apply Nat.leb_le, Hall. apply in_seq. pow_consts. lia.
Qed.

Lemma length_hex2_upper b : String.length (hex2_upper b) = 2%nat.
Proof. done. Qed.

Lemma ap_address_fits m :
  mac_ok m → (String.length (ip_str (ip4_addr 10 (m !!! 3%nat) (ap_subnet m) 1)) ≤ 15)%nat.
Proof.
  intros Hm. pose proof (ap_subnet_range m Hm) as Hs. pose proof (mac_ok_byte m 3 Hm ltac:(lia)) as H3.
  assert (is_u8 (ap_subnet m)) as Hs8 by (unfold is_u8; pow_consts; lia).
  rewrite ip_str_addr by (try done; unfold is_u8; pow_consts; lia). rewrite !str_append_length.
  pose proof (print_u_byte _ H3). pose proof (print_u_byte _ Hs8).
  change (String.length (print_u 10)) with 2%nat. change (String.length (print_u 1)) with 1%nat.
  change (String.length ".") with 1%nat. lia.
Qed.

(** Taking over an identity keeps the configuration well formed. *)
Lemma derive_unique_wf id c :
  config_wf c → length (id_sta_mac id) = 6%nat → length (id_ap_mac id) = 6%nat →
  config_wf (tollgate_config_derive_unique id c).
Proof.
  intros Hc Hs Ha. unfold tollgate_config_derive_unique. case_match; [done|]. case_match; [done|].
  destruct c; destruct Hc. split; cbn; try done. split_and!; try done; apply strncpy_fits.
Qed.

Section properties.
Context (hmac_sha512 : list Z → list Z → list Z) {pubkey : Type} (ec_pubkey_create : list Z → option pubkey)
  (xonly_serialize compressed_serialize : pubkey → list Z).
Notation identity := (identity_init hmac_sha512 ec_pubkey_create xonly_serialize compressed_serialize).

(** A digest of SHA-512 has 64 bytes. *)
Definition hmac_bytes : Prop :=
  ∀ k m, length (hmac_sha512 k m) = 64%nat ∧ Forall is_u8 (hmac_sha512 k m).

Lemma derive_bytes nsec label index n :
  hmac_bytes → (n ≤ 64)%nat →
  length (tollgate_derive hmac_sha512 nsec label index n) = n ∧
  Forall is_u8 (tollgate_derive hmac_sha512 nsec label index n).
Proof.
  intros Hh Hn. unfold tollgate_derive. destruct (Hh nsec (str_bytes label ++ put_le32 index)) as [Hl Hf].
  split; [rewrite length_take; lia|by apply Forall_take].
Qed.

(** What the initialisation makes of the text of 32 bytes. *)
Lemma identity_fields l :
  hmac_bytes → length l = 32%nat → Forall is_u8 l →
  match ec_pubkey_create l with
  | None => (identity (hex_bytes l)).1 = ESP_ERR_INVALID_ARG
  | Some key =>
      ∃ id, identity (hex_bytes l) = (ESP_OK, id) ∧ id_initialized id = true ∧
        id_nsec id = l ∧ id_npub_hex id = hex_bytes (xonly_serialize key) ∧
        mac_ok (id_sta_mac id) ∧ mac_ok (id_ap_mac id) ∧
        let b i := id_ap_mac id !!! i in
        ∃ y, 10 <= y <= 209 ∧ id_ap_ip id = ip4_addr 10 (b 3%nat) y 1 ∧
          id_ap_ip_str id =
            (print_u 10 +:+ "." +:+ print_u (b 3%nat) +:+ "." +:+ print_u y +:+ "." +:+ print_u 1)%string ∧
          id_ap_ssid id =
            ("TollGate-" +:+ hex2_upper (b 3%nat) +:+ hex2_upper (b 4%nat) +:+ hex2_upper (b 5%nat))%string
  end.
Proof.
  intros Hh Hl Hf.
  assert (String.length (hex_bytes l) = 64%nat) as Hlen by (rewrite length_hex_bytes, Hl; done).
  unfold identity_init. rewrite Hlen, (identity_hex_to_bytes l 32 Hf Hl). cbn [Nat.eqb negb].
  destruct (ec_pubkey_create l) as [key|]; [|done].
  destruct (derive_bytes l "sta-mac" 0 6 Hh ltac:(lia)) as [Hs1 Hs2].
  destruct (derive_bytes l "ap-mac" 0 6 Hh ltac:(lia)) as [Ha1 Ha2].
  pose proof (local_mac_ok _ Ha1 Ha2) as Hap. set (ap := local_mac (tollgate_derive _ l "ap-mac" 0 6)) in *.
  destruct (match ec_pubkey_create _ with Some k => _ | None => _ end) as [pub hex].
  eexists. split; [done|]. cbn [id_initialized id_nsec id_npub_hex id_sta_mac id_ap_mac id_ap_ip
    id_ap_ip_str id_ap_ssid]. split_and!; [done|done|done|by apply local_mac_ok|done|].
  exists (ap_subnet ap). pose proof (ap_subnet_range ap Hap) as Hr.
  pose proof (ap_address_fits ap Hap) as Hfit. split_and!; [lia|lia|done| |].
  + rewrite (strncpy_short 15) by done.
    apply ip_str_addr; [by vm_compute|by apply mac_ok_byte; [|lia]| |by vm_compute].
    unfold is_u8. pow_consts. lia.
  + apply (strncpy_short 31). rewrite !str_append_length, !length_hex2_upper. by vm_compute; lia.
Qed.

(** Whatever the text, the MAC addresses have 6 bytes. *)
Lemma identity_macs text :
  hmac_bytes → length (id_sta_mac (identity text).2) = 6%nat ∧ length (id_ap_mac (identity text).2) = 6%nat.
Proof.
  intros Hh. unfold identity_init. case_if; [done|]. destruct (hex_to_bytes _ _) as [nsec ok].
  case_if; [done|]. destruct (ec_pubkey_create nsec) as [key|]; [|done].
  destruct (match ec_pubkey_create _ with Some k => _ | None => _ end) as [pub hex]. cbn [snd id_sta_mac id_ap_mac].
  unfold local_mac. rewrite !length_alter. split; by apply derive_bytes; [|lia].
Qed.

(** The identity of a key.  For any 32 bytes, the initialisation with their
    hexadecimal text succeeds exactly when they are a private key, and then: the
    key is read back, the name is the hexadecimal text of its public key, both MAC
    addresses are unicast and locally administered, and the access point has the
    address 10.x.y.1 with 10 <= y <= 209, in binary and in dotted text, and a name
    made of the last bytes of its MAC address.  A text of another length than 64 is
    refused. *)
Theorem identity_of_key l :
  hmac_bytes → length l = 32%nat → Forall is_u8 l →
  match ec_pubkey_create l with
  | None => (identity (hex_bytes l)).1 = ESP_ERR_INVALID_ARG
  | Some key =>
      ∃ id, identity (hex_bytes l) = (ESP_OK, id) ∧ id_initialized id = true ∧
        id_nsec id = l ∧ id_npub_hex id = hex_bytes (xonly_serialize key) ∧
        mac_ok (id_sta_mac id) ∧ mac_ok (id_ap_mac id) ∧
        let b i := id_ap_mac id !!! i in
        ∃ y, 10 <= y <= 209 ∧ id_ap_ip id = ip4_addr 10 (b 3%nat) y 1 ∧
          id_ap_ip_str id =
            (print_u 10 +:+ "." +:+ print_u (b 3%nat) +:+ "." +:+ print_u y +:+ "." +:+ print_u 1)%string ∧
          id_ap_ssid id =
            ("TollGate-" +:+ hex2_upper (b 3%nat) +:+ hex2_upper (b 4%nat) +:+ hex2_upper (b 5%nat))%string
  end ∧
  (∀ s, String.length s ≠ 64%nat → (identity s).1 = ESP_ERR_INVALID_ARG).
Proof.
  intros Hh Hl Hf. split; [by apply identity_fields|].
  intros s Hs. unfold identity_init. by rewrite (proj2 (Nat.eqb_neq _ _) Hs).
Qed.

(** The configuration takes the identity once and whole: no text is cut, the
    rest of the configuration stays well formed, and a later call - with whatever
    identity - changes nothing. *)
Theorem derived_once l key id c :
  hmac_bytes → length (xonly_serialize key) = 32%nat → length l = 32%nat → Forall is_u8 l →
  ec_pubkey_create l = Some key → identity (hex_bytes l) = (ESP_OK, id) →
  config_wf c → cf_identity_initialized c = false →
  let c' := tollgate_config_derive_unique id c in
  config_wf c' ∧ cf_npub c' = id_npub_hex id ∧ cf_ap_ssid c' = id_ap_ssid id ∧
  cf_sta_mac c' = id_sta_mac id ∧ cf_ap_mac c' = id_ap_mac id ∧ cf_ap_ip c' = id_ap_ip id ∧
  cf_ap_ip_str c' = id_ap_ip_str id ∧
  ∀ id', tollgate_config_derive_unique id' c' = c'.
Proof.
  intros Hh Hx Hl Hf Hk Hid Hc Hi. pose proof (identity_fields l Hh Hl Hf) as Hspec.
  rewrite Hk in Hspec. destruct Hspec as (id0 & Hid0 & Hin & _ & Hnpub & Hsta & Hap & Hrest).
  rewrite Hid in Hid0. apply (f_equal snd) in Hid0 as Heq. cbn [snd] in Heq. subst id0.
  destruct Hrest as (y & Hy & _ & Htext & Hssid).
  assert (strncpy 64 (id_npub_hex id) = id_npub_hex id) as H1
    by (apply strncpy_short; rewrite Hnpub, length_hex_bytes, Hx; lia).
  assert (strncpy 31 (id_ap_ssid id) = id_ap_ssid id) as H2
    by (apply strncpy_short; rewrite Hssid, !str_append_length, !length_hex2_upper; by vm_compute; lia).
  assert (strncpy 15 (id_ap_ip_str id) = id_ap_ip_str id) as H3.
  { apply strncpy_short. pose proof (mac_ok_byte _ 3 Hap ltac:(lia)) as H3.
    assert (is_u8 y) as Hy8 by (unfold is_u8; pow_consts; lia).
    rewrite Htext, !str_append_length. pose proof (print_u_byte _ H3). pose proof (print_u_byte _ Hy8).
    change (String.length (print_u 10)) with 2%nat. change (String.length (print_u 1)) with 1%nat.
    change (String.length ".") with 1%nat. lia. }
  cbv zeta.
  split; [by apply derive_unique_wf; [|apply Hsta|apply Hap]|].
  unfold tollgate_config_derive_unique. rewrite Hi, Hin. cbn [negb]. rewrite H1, H2, H3.
  destruct c. by split_and!.
Qed.
End properties.

(** * Concrete runs *)

Definition hmac_example (k m : list Z) : list Z := u8 <$> (fold_left Z.add (k ++ m) 0 + Z.of_nat (length m)) :: seqZ 1 63.
Definition key_example : list Z := seqZ 1 32.
Definition identity_example : tollgate_identity_t :=
  (identity_init hmac_example Some (λ k, k) (λ k, 2 :: k) (hex_bytes key_example)).2.

Lemma hmac_example_bytes : hmac_bytes hmac_example.
Proof.
  intros k m. unfold hmac_example. split; [by rewrite length_fmap|].
  apply Forall_fmap, Forall_true. intros x. apply u8_range.
Qed.

Lemma identity_of_key_witness :
  ∃ id, identity_init hmac_example Some (λ k, k) (λ k, 2 :: k) (hex_bytes key_example) = (ESP_OK, id) ∧
        id_nsec id = key_example.
Proof.
  destruct (identity_of_key hmac_example Some (λ k, k) (λ k, 2 :: k) key_example) as [H _].
  - exact hmac_example_bytes.
  - vm_compute. reflexivity.
  - apply (bool_decide_unpack (Forall is_u8 key_example)). vm_compute. exact I.
  - destruct H as (id & H1 & _ & H2 & _). exists id. split; [exact H1|exact H2].
Defined.

Lemma derived_once_witness :
  let c' := tollgate_config_derive_unique identity_example config_example in
  config_wf c' ∧ cf_ap_ip_str c' = id_ap_ip_str identity_example.
Proof.
  destruct (derived_once hmac_example Some (λ k, k) (λ k, 2 :: k) key_example key_example identity_example
              config_example) as (H1 & _ & _ & _ & _ & _ & H2 & _).
  - exact hmac_example_bytes.
  - vm_compute. reflexivity.
  - vm_compute. reflexivity.
  - apply (bool_decide_unpack (Forall is_u8 key_example)). vm_compute. exact I.
  - reflexivity.
  - vm_compute. reflexivity.
  - exact (load_config_wf _ _ config_example_loaded).
  - vm_compute. reflexivity.
  - split; [exact H1|exact H2].
Defined.
