(* ===== verification/NostrEvent.v ===== *)
(** The Nostr events the gate makes (main/nostr_event.c): their identifier, their
    signature and their text, and that the validator of the gate's own relay
    ([Relay]) accepts them. *)

From S2P Require Import Prelude CStr F64 Json Dns RateLimiter SubManager Storage Relay.
#[local] Open Scope Z_scope.

Record nostr_event_t := mk_event {
  ev_pubkey : string;
  ev_created_at : Z;
  ev_kind : Z;
  ev_tags_json : string;
  ev_content : string;
  ev_id : string;
  ev_sig : string
}.

Section event.
Context `{CJson J}.
(** [cJSON_Parse] as an item of a tree that is built. *)
Variable cJSON_Duplicate : J → jval.
Variable mbedtls_sha256 : list Z → list Z.
(** A key pair and its Schnorr signature of 32 bytes, if both can be made. *)
Context {keypair : Type}.
Variable secp256k1_keypair_create : list Z → option keypair.
Variable secp256k1_schnorrsig_sign32 : keypair → list Z → option (list Z).

Definition tags_item (event : nostr_event_t) : list jval :=
  opt_item (cJSON_Duplicate <$> cJSON_Parse (ev_tags_json event)).

(** The array whose digest is the identifier. *)
Definition event_serial (event : nostr_event_t) : jval :=
  JArr ([JInt 0; JStr (ev_pubkey event); JNum (f64_of_Z (ev_created_at event)); JInt (ev_kind event)]
        ++ tags_item event ++ [JStr (ev_content event)]).

(** [now]: [tv.tv_sec]; a missing text is [None]. *)
Definition nostr_event_init (now : Z) (npub_hex : string) (kind : Z) (tags_json content : option string)
  : nostr_event_t :=
  let event := mk_event (strncpy 64 npub_hex) (u64 now) kind (default "[]"%string tags_json)
                 (default ""%string content) "" "" in
  mk_event (ev_pubkey event) (ev_created_at event) kind (ev_tags_json event) (ev_content event)
    (hex_bytes (mbedtls_sha256 (str_bytes (cJSON_PrintUnformatted (event_serial event))))) "".

(** The 32 bytes of the identifier; a pair that is not hexadecimal repeats the
    byte before it, which the identifiers above have none of: [None] here. *)
Definition event_msg (event : nostr_event_t) : option (list Z) :=
  let '(l, ok) := hex_to_bytes_loop 32 (ev_id event) in if ok then Some l else None.

Definition nostr_event_sign (event : nostr_event_t) (nsec : list Z)
  : option (esp_err_t * nostr_event_t) :=
  msg ← event_msg event;
  Some match secp256k1_keypair_create nsec with
       | None => (ESP_ERR_INVALID_ARG, event)
       | Some keypair =>
           match secp256k1_schnorrsig_sign32 keypair msg with
           | None => (ESP_FAIL, event)
           | Some sig =>
               (ESP_OK, mk_event (ev_pubkey event) (ev_created_at event) (ev_kind event)
                          (ev_tags_json event) (ev_content event) (ev_id event) (hex_bytes sig))
           end
       end.

Definition event_tree (event : nostr_event_t) : jval :=
  JObj ([("id"%string, JStr (ev_id event)); ("pubkey"%string, JStr (ev_pubkey event));
         ("created_at"%string, JNum (f64_of_Z (ev_created_at event)));
         ("kind"%string, JInt (ev_kind event))]
        ++ ((λ t, ("tags"%string, t)) <$> tags_item event)
        ++ [("content"%string, JStr (ev_content event)); ("sig"%string, JStr (ev_sig event))]).

(** The text, if it and its NUL fit a buffer of [buf_len] bytes. *)
Definition nostr_event_to_json (event : nostr_event_t) (buf_len : nat) : option string :=
  let json := cJSON_PrintUnformatted (event_tree event) in
  if (buf_len <=? String.length json)%nat then None else Some json.
End event.

(** What the laws of the signature library say, with the public key as 32 bytes. *)
Class Schnorr {keypair : Type} (create : list Z → option keypair) (sign : keypair → list Z → option (list Z))
    (xonly : keypair → list Z) (verify : list Z → list Z → list Z → bool) : Prop := {
  xonly_bytes k : length (xonly k) = 32%nat ∧ Forall is_u8 (xonly k);
  sign_bytes k msg sig : sign k msg = Some sig → length sig = 64%nat ∧ Forall is_u8 sig;
  sign_verify k msg sig : sign k msg = Some sig → verify (xonly k) msg sig = true
}.

Lemma relay_hex_to_bytes_hex l n k :
  Forall is_u8 l → length l = n → k = (n * 2)%nat →
  relay_hex_to_bytes (hex_bytes l) k (replicate n 0) = (l, true).
Proof.
  intros Hl <- ->. unfold relay_hex_to_bytes. rewrite length_replicate, Nat.eqb_refl.
  pose proof (hex_to_bytes_loop_hex l "" Hl) as Hx. rewrite str_append_nil_r in Hx.
  cbn [negb]. rewrite Hx. cbv iota beta.
  rewrite drop_ge by (rewrite length_replicate; lia). by rewrite app_nil_r.
Qed.

Section valid.
Context `{Schnorr keypair create sign xonly verify} `{CUndef}
  (parse : string → option jval) (print : jval → string) (sha : list Z → list Z).
#[local] Instance J_event : CJson jval := printed_json parse print.

(** A digest of SHA-256 has 32 bytes. *)
Definition sha256_bytes : Prop := ∀ m, length (sha m) = 32%nat ∧ Forall is_u8 (sha m).

Notation init := (nostr_event_init (λ j, j) sha).

(** The identifier is read back as the digest. *)
Lemma event_msg_init now npub kind tags content :
  sha256_bytes →
  event_msg (init now npub kind tags content) =
  Some (sha (str_bytes (print (event_serial (λ j, j) (init now npub kind tags content))))).
Proof.
  intros Hs. destruct (Hs (str_bytes (print (event_serial (λ j, j) (init now npub kind tags content))))) as [Hl Hf].
  unfold event_msg. pose proof (hex_to_bytes_loop_hex _ "" Hf) as Hx. rewrite str_append_nil_r, Hl in Hx.
  change (ev_id (init now npub kind tags content)) with
    (hex_bytes (sha (str_bytes (print (event_serial (λ j, j) (init now npub kind tags content)))))).
  by rewrite Hx.
Qed.

Lemma event_tree_fields event :
  cJSON_GetObjectItem (event_tree (λ j, j) event) "id" = Some (JStr (ev_id event)) ∧
  cJSON_GetObjectItem (event_tree (λ j, j) event) "pubkey" = Some (JStr (ev_pubkey event)) ∧
  cJSON_GetObjectItem (event_tree (λ j, j) event) "sig" = Some (JStr (ev_sig event)).
Proof.
  unfold event_tree, tags_item. destruct (cJSON_Parse (ev_tags_json event)); split_and!; reflexivity.
Qed.

(** The array the validator makes of the text is the one the identifier was
    computed from. *)
Lemma serial_of_tree event :
  0 <= ev_kind event < 2 ^ 31 →
  serialize_event_for_id (λ j, j) (event_tree (λ j, j) event) = Some (print (event_serial (λ j, j) event)).
Proof.
  intros Hk. unfold serialize_event_for_id, event_tree, event_serial, tags_item.
  destruct (cJSON_Parse (ev_tags_json event)) as [t|]; cbn [fmap option_fmap option_map opt_item list_fmap app];
    json_items; unfold valuedouble; cbn [mbind option_bind str_of num_of int_of J_event printed_json tree_json
      JInt snd default from_option opt_item fmap option_fmap option_map app id];
    rewrite ?f64_of_Z_exact by (pow_consts; lia); done.
Qed.

(** What is signed is accepted under the key that signed it. *)
Lemma signed_event_valid now kind tags content nsec k :
  sha256_bytes → 0 <= kind < 2 ^ 31 → create nsec = Some k →
  let event := init now (hex_bytes (xonly k)) kind tags content in
  match nostr_event_sign create sign event nsec with
  | Some (ESP_OK, signed) =>
      ev_id signed = ev_id event ∧
      ∀ buf_len text, nostr_event_to_json (λ j, j) signed buf_len = Some text →
        (String.length text < buf_len)%nat ∧
        (parse text = Some (event_tree (λ j, j) signed) →
         relay_validator_verify_event (λ j, j) sha verify text = Some true)
  | Some (_, same) => same = event ∧ ∃ msg, sign k msg = None
  | None => False
  end.
Proof.
  intros Hs Hk Hc. cbv zeta. set (event := init _ _ _ _ _).
  pose proof (event_msg_init now (hex_bytes (xonly k)) kind tags content Hs) as Hm. fold event in Hm.
  unfold nostr_event_sign. rewrite Hm. cbn [mbind option_bind].
  rewrite Hc. set (digest := sha _). destruct (sign k digest) as [sig|] eqn:Hsig; [|by eauto].
  split; [done|]. intros buf_len text. unfold nostr_event_to_json. case_if; [done|]. bool_hyps.
  intros [= <-]. split; [done|]. intros Hp.
  destruct (xonly_bytes k) as [Hxl Hxf]. destruct (sign_bytes k digest sig Hsig) as [Hsl Hsf].
  destruct (Hs (str_bytes (print (event_serial (λ j, j) event)))) as [Hdl Hdf]. fold digest in Hdl, Hdf.
  assert (strncpy 64 (hex_bytes (xonly k)) = hex_bytes (xonly k)) as Hpk
    by (apply strncpy_short; rewrite length_hex_bytes, Hxl; lia).
  set (signed := mk_event _ _ _ _ _ _ _) in *.
  assert (serialize_event_for_id (λ j, j) (event_tree (λ j, j) signed) =
          Some (print (event_serial (λ j, j) event))) as Hser by (by rewrite serial_of_tree).
  unfold relay_validator_verify_event. cbn [cJSON_Parse J_event printed_json]. rewrite Hp, Hser.
  destruct (event_tree_fields signed) as (-> & -> & ->).
  cbn [str_of J_event printed_json tree_json mbind option_bind].
  change (ev_id signed) with (hex_bytes digest). change (ev_sig signed) with (hex_bytes sig).
  change (ev_pubkey signed) with (strncpy 64 (hex_bytes (xonly k))). rewrite Hpk.
  rewrite !length_hex_bytes, Hdl, Hxl, Hsl. cbn [Nat.mul Nat.add Nat.eqb andb negb].
  rewrite !relay_hex_to_bytes_hex by done. cbn [andb negb]. rewrite (bool_decide_true _ eq_refl).
  by rewrite (sign_verify k digest sig).
Qed.
(** C22: The events the gate makes are valid for its relay: whatever the kind, the
    tags and the content, an event made and signed with a key is accepted by the
    relay's validator under the public key of that key, when its text is parsed
    as it was printed.  An event is always signed, unless the key or the library
    fails. *)
Theorem gate_events_are_valid now kind tags content nsec k :
  sha256_bytes → 0 <= kind < 2 ^ 31 → create nsec = Some k →
  let event := init now (hex_bytes (xonly k)) kind tags content in
  match nostr_event_sign create sign event nsec with
  | Some (ESP_OK, signed) =>
      ev_id signed = ev_id event ∧
      ∀ buf_len text, nostr_event_to_json (λ j, j) signed buf_len = Some text →
        (String.length text < buf_len)%nat ∧
        (parse text = Some (event_tree (λ j, j) signed) →
         relay_validator_verify_event (λ j, j) sha verify text = Some true)
  | Some (_, same) => same = event ∧ ∃ msg, sign k msg = None
  | None => False
  end.
Proof. apply signed_event_valid. Qed.
End valid.

(** * Concrete runs *)

Definition create_example (nsec : list Z) : option unit := Some tt.
Definition sign_example (_ : unit) (msg : list Z) : option (list Z) :=
  if bool_decide (length msg = 32%nat ∧ Forall is_u8 msg) then Some (msg ++ msg) else None.
Definition xonly_example (_ : unit) : list Z := seqZ 100 32.
Definition verify_example (pk msg sig : list Z) : bool :=
  bool_decide (pk = seqZ 100 32) && bool_decide (sig = msg ++ msg).
Definition sha_example (_ : list Z) : list Z := seqZ 1 32.

Lemma seqZ_u8 m : 0 <= m → m + 32 <= 256 → Forall is_u8 (seqZ m 32).
Proof. intros. apply Forall_seqZ. intros x Hx. unfold is_u8. pow_consts. lia. Qed.

Lemma schnorr_example : Schnorr create_example sign_example xonly_example verify_example.
Proof.
  split.
  - intros k. split; [done|]. by apply seqZ_u8.
  - intros k msg sig. unfold sign_example. case_bool_decide as Hm; [|done]. intros [= <-]. destruct Hm as [Hl Hf].
    split; [rewrite length_app, Hl; done|by apply Forall_app].
  - intros k msg sig. unfold sign_example. case_bool_decide as Hm; [|done]. intros [= <-].
    unfold verify_example. by rewrite !bool_decide_true.
Qed.

Definition print_example (_ : jval) : string := "e".
Definition event_example : nostr_event_t :=
  @nostr_event_init jval (printed_json (λ _, None) print_example) (λ j, j) sha_example 1700000000
    (hex_bytes (xonly_example tt)) 25910 None (Some "hello"%string).
Definition signed_example : nostr_event_t :=
  mk_event (ev_pubkey event_example) (ev_created_at event_example) (ev_kind event_example)
    (ev_tags_json event_example) (ev_content event_example) (ev_id event_example)
    (hex_bytes (seqZ 1 32 ++ seqZ 1 32)).
(** Only the text of the event is JSON. *)
Definition parse_example (text : string) : option jval :=
  if bool_decide (text = "e"%string)
  then Some (@event_tree jval (printed_json (λ _, None) print_example) (λ j, j) signed_example) else None.

Lemma gate_events_are_valid_witness :
  @relay_validator_verify_event jval (printed_json parse_example print_example) (λ j, j) sha_example
    verify_example "e" = Some true.
Proof.
  pose proof (@gate_events_are_valid unit create_example sign_example xonly_example verify_example
    schnorr_example parse_example print_example sha_example 1700000000 25910 None (Some "hello"%string) [] tt
    (λ m, conj eq_refl (seqZ_u8 1 ltac:(lia) ltac:(lia))) ltac:(lia) eq_refl) as H.
  cbv zeta in H.
  assert (nostr_event_sign create_example sign_example event_example [] = Some (ESP_OK, signed_example)) as Hs
    by (vm_compute; reflexivity).
  change (nostr_event_init _ _ _ _ _ _ _) with event_example in H. rewrite Hs in H. destruct H as [_ H].
  apply (H 8192%nat "e"%string); vm_compute; reflexivity.
Defined.
