(* ===== verification/WebSocket.v ===== *)
(** The WebSocket client of the remote control (main/cvm_server.c): the frames it
    reads and writes, and the address of a relay. *)

From S2P Require Import Prelude CStr.
#[local] Open Scope Z_scope.

(** * Reading a frame *)

(** [buf[offset + i] ^ mask[i & 3]] for each byte. *)
Definition xor_mask (mask payload : list Z) : list Z :=
  imap (λ i b, Z.lxor b (mask !!! (i mod 4)%nat)) payload.

(** The length of the payload and the offset behind the length, if the header is
    complete. *)
Definition frame_header (buf : list Z) : option (Z * Z) :=
  let len := Z.of_nat (length buf) in
  let payload_len := Z.land (buf !!! 1%nat) 0x7F in
  if payload_len =? 126 then
    if len <? 4 then None else Some (get_be (slice 2 2 buf), 4)
  else if payload_len =? 127 then
    if len <? 10 then None else Some (get_be (slice 2 8 buf), 10)
  else Some (payload_len, 2).

Section frame.
(** Whether a block of this size is given; [size_t] has 32 bits. *)
Variable malloc : Z → bool.

(** [NULL], or the bytes of the text before its NUL; [None] when bytes outside
    those received are read. *)
Definition parse_ws_text_frame (buf : list Z) : option (option (list Z)) :=
  let len := Z.of_nat (length buf) in
  if len <? 2 then Some None else
  match frame_header buf with
  | None => Some None
  | Some (payload_len, offset0) =>
      let masked := Z.testbit (buf !!! 1%nat) 7 in
      let offset := if masked then offset0 + 4 else offset0 in
      if len <? u64 (offset + payload_len) then Some None else
      if negb (malloc (u32 (payload_len + 1))) then Some None else
      if len <? offset + payload_len then None else
      let payload := slice (Z.to_nat offset) (Z.to_nat payload_len) buf in
      Some (Some (if masked then xor_mask (slice (Z.to_nat offset - 4) 4 buf) payload else payload))
  end.

(** The C string that the callers see. *)
Definition frame_text (buf : list Z) : option (option string) :=
  option_map (option_map cstr) (parse_ws_text_frame buf).
End frame.

(** * Writing a frame *)

Definition frame_length (len : Z) (bit : Z) : list Z :=
  if len <=? 125 then [Z.lor bit len]
  else if len <=? 65535 then [Z.lor bit 126; u8 (Z.shiftr len 8); u8 len]
  else Z.lor bit 127 :: put_be 8 len.

(** The frame [ws_send_text] builds; [mask]: four random bytes. *)
Definition ws_text_frame (mask : list Z) (msg : string) : list Z :=
  0x81 :: frame_length (Z.of_nat (String.length msg)) 0x80 ++ mask ++ xor_mask mask (str_bytes msg).

(** The loop of writes, with what each call answers: the bytes handed over and
    whether all were.  [None] while it waits for the next answer. *)
Fixpoint write_all (answers : list Z) (frame : list Z) : option (bool * list Z) :=
  match frame, answers with
  | [], _ => Some (true, [])
  | _, [] => None
  | _, w :: answers' =>
      if w <? 0 then Some (false, [])
      else match write_all answers' (drop (Z.to_nat w) frame) with
           | Some (ok, sent) => Some (ok, take (Z.to_nat w) frame ++ sent)
           | None => None
           end
  end.

(** The result of the function and the bytes sent. *)
Definition ws_send_text (mask : list Z) (answers : list Z) (msg : string) : option (Z * list Z) :=
  match write_all answers (ws_text_frame mask msg) with
  | Some (ok, sent) => Some ((if ok then 0 else -1), sent)
  | None => None
  end.

(** * The address of a relay *)

(** Host, port and path of what follows the scheme. *)
Definition url_address (url_start : string) : string * Z * string :=
  let '(host, path) :=
    match strchr "/" url_start with
    | Some i => (str_take (Nat.min i 127) url_start, strncpy 127 (str_drop i url_start))
    | None => (strncpy 127 url_start, "/"%string)
    end in
  match strchr ":" host with
  | Some i => (str_take i host, atoi (str_drop (S i) host), path)
  | None => (host, 443, path)
  end.

(** [ws_connect], before it connects. *)
Definition relay_address (relay_url : string) : option (string * Z * string) :=
  if negb (has_prefix "wss://" relay_url) then None
  else Some (url_address (str_drop 6 relay_url)).

(** CR LF *)
Definition crlf : string := String (chr 13) (String (chr 10) EmptyString).

Definition upgrade_request (host path : string) : string :=
  str_take 511
    ("GET " +:+ path +:+ " HTTP/1.1" +:+ crlf +:+ "Host: " +:+ host +:+ crlf
     +:+ "Upgrade: websocket" +:+ crlf +:+ "Connection: Upgrade" +:+ crlf
     +:+ "Sec-WebSocket-Key: dGhlIHNhbXBsZSBub25jZQ==" +:+ crlf
     +:+ "Sec-WebSocket-Version: 13" +:+ crlf +:+ crlf)%string.

(** * Frames read back *)

Lemma xor_mask_involutive mask l : xor_mask mask (xor_mask mask l) = l.
Proof.
  unfold xor_mask. apply list_eq. intros i. rewrite !list_lookup_imap.
  destruct (l !! i) as [b|]; [|done]. cbn. f_equal.
  by rewrite Z.lxor_assoc, Z.lxor_nilpotent, Z.lxor_0_r.
Qed.

Lemma length_xor_mask mask l : length (xor_mask mask l) = length l.
Proof. apply length_imap. Qed.

(** The header of a frame, as the reader sees it. *)
Lemma length_byte bit n :
  bit = 0x80 ∨ bit = 0 → 0 <= n < 128 →
  Z.land (Z.lor bit n) 0x7F = n ∧ Z.testbit (Z.lor bit n) 7 = (bit =? 0x80).
Proof.
  intros Hb Hn. rewrite Z.lor_spec, (Z.testbit_eqb n 7) by lia. change (2 ^ 7) with 128.
  rewrite Z.div_small by lia. split; [|by destruct Hb as [-> | ->]].
  rewrite Z.land_lor_distr_l. change 0x7F with (Z.ones 7). rewrite (Z.land_ones n) by lia.
  change (2 ^ 7) with 128. rewrite (Z.mod_small n) by lia. by destruct Hb as [-> | ->].
Qed.

Lemma frame_header_length bit n rest :
  bit = 0x80 ∨ bit = 0 → 0 <= n < 2 ^ 63 →
  let hdr := frame_length n bit in
  frame_header (0x81 :: hdr ++ rest) = Some (n, 1 + Z.of_nat (length hdr)) ∧
  Z.testbit ((0x81 :: hdr ++ rest) !!! 1%nat) 7 = (bit =? 0x80) ∧ (length hdr ≤ 9)%nat.
Proof.
  intros Hb Hn. cbv zeta. unfold frame_length, frame_header.
  destruct (n <=? 125) eqn:H1; [|destruct (n <=? 65535) eqn:H2]; bool_hyps; cbn [app lookup_total list_lookup_total].
  - destruct (length_byte bit n Hb ltac:(lia)) as [-> Ht]. rewrite (proj2 (Z.eqb_neq n 126)), (proj2 (Z.eqb_neq n 127)) by lia.
    split_and!; [done|exact Ht|cbn; lia].
  - destruct (length_byte bit 126 Hb ltac:(lia)) as [-> Ht]. cbn [Z.eqb Pos.eqb].
    rewrite (proj2 (Z.ltb_ge _ _)) by (cbn [length]; lia). split_and!; [|exact Ht|cbn; lia].
    unfold slice. cbn [drop take]. unfold get_be. cbn [foldl length].
    assert ((0 * 256 + u8 (Z.shiftr n 8)) * 256 + u8 n = n) as ->; [|done].
    unfold u8. rewrite Z.shiftr_div_pow2 by lia. zlia.
  - destruct (length_byte bit 127 Hb ltac:(lia)) as [-> Ht]. cbn [Z.eqb Pos.eqb].
    assert (length (put_be 8 n) = 8%nat) as Hp by apply length_put_be.
    rewrite (proj2 (Z.ltb_ge _ _)) by (cbn [length]; rewrite length_app; cbn [length]; rewrite Hp; lia).
    split_and!; [|exact Ht|cbn [length]; rewrite Hp; lia]. unfold slice. cbn [drop].
    rewrite drop_0, take_app_length' by done. rewrite get_put_be. change (256 ^ Z.of_nat 8) with (2 ^ 64).
    rewrite Z.mod_small by (pow_consts; lia).
    cbn [length]. by rewrite Hp.
Qed.

Lemma slice_middle (a b c : list Z) : slice (length a) (length b) (a ++ b ++ c) = b.
Proof. unfold slice. by rewrite drop_app_length, take_app_length. Qed.

(** A frame as it is written, behind its header. *)
Lemma parse_frame malloc bit n mask payload :
  bit = 0x80 ∨ bit = 0 → length mask = (if bit =? 0x80 then 4%nat else 0%nat) →
  n = Z.of_nat (length payload) → 0 <= n < 2 ^ 31 → malloc (n + 1) = true →
  parse_ws_text_frame malloc (0x81 :: frame_length n bit ++ mask ++ payload) =
  Some (Some (if bit =? 0x80 then xor_mask mask payload else payload)).
Proof.
  intros Hb Hm Hn Hlt Hmal. unfold parse_ws_text_frame.
  destruct (frame_header_length bit n (mask ++ payload) Hb ltac:(pow_consts; lia)) as (Hh & Ht & Hl9).
  assert (1 <= Z.of_nat (length (frame_length n bit)))%Z as Hl1
    by (unfold frame_length; repeat case_if; cbn [length]; lia).
  set (hdr := frame_length n bit) in *. rewrite Hh, Ht.
  assert (Z.of_nat (length (0x81 :: hdr ++ mask ++ payload)) =
          1 + Z.of_nat (length hdr) + Z.of_nat (length mask) + n) as Hlen
    by (cbn [length]; rewrite !length_app; lia).
  rewrite Hlen. rewrite (proj2 (Z.ltb_ge _ 2)) by lia.
  set (offset := if bit =? 0x80 then _ else _).
  assert (offset = 1 + Z.of_nat (length hdr) + Z.of_nat (length mask)) as Ho
    by (unfold offset; rewrite Hm; destruct (bit =? 0x80); lia).
  rewrite (u64_small (offset + n)) by (unfold is_u64; pow_consts; destruct (bit =? 0x80); lia).
  rewrite (u32_small (n + 1)) by (unfold is_u32; pow_consts; lia).
  rewrite (proj2 (Z.ltb_ge _ _)) by lia. rewrite Hmal. cbn [negb]. do 2 f_equal.
  assert (slice (Z.to_nat offset) (Z.to_nat n) (0x81 :: hdr ++ mask ++ payload) = payload) as Hp.
  { replace (Z.to_nat offset) with (length (0x81 :: hdr ++ mask)) by (cbn [length]; rewrite length_app; lia).
    replace (Z.to_nat n) with (length payload) by lia.
    replace (0x81 :: hdr ++ mask ++ payload) with ((0x81 :: hdr ++ mask) ++ payload ++ [])
      by (rewrite app_nil_r; cbn; by rewrite <- app_assoc). apply slice_middle. }
  rewrite Hp. destruct (bit =? 0x80); [|done]. f_equal.
  replace (Z.to_nat offset - 4)%nat with (length (0x81 :: hdr)) by (cbn [length]; lia).
  rewrite <- Hm. apply (slice_middle (0x81 :: hdr) mask payload).
Qed.

(** C23: A message sent is the message read: the frame of a text of less than 2 GB,
    with any mask, parses to that text, and so does the same text in a frame
    without a mask, as a server sends it.  The memory for it is all that can be
    missing. *)
Theorem frame_roundtrip malloc mask msg :
  length mask = 4%nat → (Z.of_nat (String.length msg) < 2 ^ 31) → no_nul msg →
  malloc (Z.of_nat (String.length msg) + 1) = true →
  frame_text malloc (ws_text_frame mask msg) = Some (Some msg) ∧
  frame_text malloc
    (0x81 :: frame_length (Z.of_nat (String.length msg)) 0 ++ str_bytes msg) = Some (Some msg).
Proof.
  intros Hm Hl Hn Hmal. assert (Z.of_nat (String.length msg) = Z.of_nat (length (str_bytes msg))) as He
    by (by rewrite length_str_bytes).
  unfold frame_text. split.
  - unfold ws_text_frame. rewrite (parse_frame malloc 0x80 _ mask) by
      (rewrite ?length_xor_mask; try done; try lia; by left).
    cbn [Z.eqb Pos.eqb option_map]. by rewrite xor_mask_involutive, cstr_str_bytes.
  - pose proof (parse_frame malloc 0 (Z.of_nat (String.length msg)) [] (str_bytes msg)) as Hp.
    cbn [app] in Hp. rewrite Hp by (try done; try lia; by right).
    cbn [Z.eqb option_map]. by rewrite cstr_str_bytes.
Qed.

(** A frame is read inside its bytes, whatever a relay sends, if the allocator
    gives no block of two gigabytes and none of size zero: the length of 64 bits
    wraps with the offset behind the check, but the block for it is then refused. *)
Theorem frame_read_in_bounds malloc buf :
  Forall is_u8 buf → Z.of_nat (length buf) < 2 ^ 31 →
  (∀ n, 2 ^ 31 <= n → malloc n = false) → malloc 0 = false →
  is_Some (parse_ws_text_frame malloc buf).
Proof.
  intros Hb Hl Hbig H0. unfold parse_ws_text_frame. case_if; [eauto|].
  destruct (frame_header buf) as [[n off]|] eqn:Hh; [|eauto].
  assert (0 <= n < 2 ^ 64 ∧ 2 <= off <= 10) as [Hn Hoff].
  { unfold frame_header in Hh. set (b := Z.land _ _) in Hh.
    assert (0 <= b < 2 ^ 7) as Hb7.
    { unfold b. change 0x7F with (Z.ones 7). rewrite Z.land_ones by lia. apply Z.mod_pos_bound. lia. }
    assert (∀ k, (k ≤ 8)%nat → 0 <= get_be (slice 2 k buf) < 2 ^ 64) as Hg.
    { intros k Hk. assert (Forall is_u8 (slice 2 k buf)) as Hf by (unfold slice; by apply Forall_take, Forall_drop).
      pose proof (get_be_range _ Hf) as Hr. split; [lia|]. apply Z.lt_le_trans with (1 := proj2 Hr).
      change (2 ^ 64) with (256 ^ 8). apply Z.pow_le_mono_r; [lia|]. unfold slice. rewrite length_take. lia. }
    pose proof (Hg 2%nat ltac:(lia)). pose proof (Hg 8%nat ltac:(lia)).
    destruct (b =? 126); [|destruct (b =? 127)]; destruct (Z.of_nat (length buf) <? 4), (Z.of_nat (length buf) <? 10); simplify_eq; pow_consts; lia. }
  set (o := if Z.testbit _ 7 then _ else _). assert (2 <= o <= 14) as Ho by (unfold o; case_if; lia).
  destruct (Z.of_nat (length buf) <? u64 (o + n)) eqn:Hc; [eauto|]. bool_hyps.
  destruct (malloc (u32 (n + 1))) eqn:Hm; cbn [negb]; [|eauto].
  rewrite (proj2 (Z.ltb_ge _ _)); [eauto|]. unfold u64 in Hc.
  destruct (decide (o + n < 2 ^ 64)) as [Hlt|Hge]; [rewrite Z.mod_small in Hc by lia; lia|].
  exfalso. assert (2 ^ 64 - 14 <= n < 2 ^ 64) as Hn' by lia.
  destruct (decide (n = 2 ^ 64 - 1)) as [->|Hne].
  - change (u32 (2 ^ 64 - 1 + 1)) with 0 in Hm. congruence.
  - rewrite Hbig in Hm; [done|]. unfold u32. rewrite <- (Z.mod_add _ (- (2 ^ 32 - 1))) by lia.
    rewrite Z.mod_small; pow_consts; lia.
Qed.

(** An allocator that gives a block of size zero lets ten bytes crash the gate:
    a length of 2^64 - 1 passes every check. *)
Theorem zero_block_overruns malloc :
  malloc 0 = true →
  parse_ws_text_frame malloc [0x81; 0x7F; 255; 255; 255; 255; 255; 255; 255; 255] = None.
Proof.
  intros Hm. assert (parse_ws_text_frame malloc [0x81; 0x7F; 255; 255; 255; 255; 255; 255; 255; 255] =
    if negb (malloc 0) then Some None else None) as -> by (vm_compute; reflexivity). by rewrite Hm.
Qed.

(** * Addresses read back *)

(** The address of a relay is read as it is written: host, port and path of
    wss://host:port/path, with port 443 if none is given and the path / if none is
    given, for a host and a port of at most 127 characters and as long a path. *)
Theorem relay_address_roundtrip host port rest :
  lacks "/" host → lacks ":" host → 0 <= port < 65536 →
  (String.length host + 1 + String.length (print_u port) ≤ 127)%nat → (String.length rest ≤ 126)%nat →
  let path := String "/" rest in
  relay_address ("wss://" +:+ host +:+ ":" +:+ print_u port +:+ path) = Some (host, port, path) ∧
  relay_address ("wss://" +:+ host +:+ path) = Some (host, 443, path) ∧
  relay_address ("wss://" +:+ host) = Some (host, 443, "/"%string).
Proof.
  intros Hs Hc Hp Hl Hr. cbv zeta.
  assert (∀ h p, lacks "/" h → (String.length h ≤ 127)%nat → (String.length p ≤ 126)%nat →
    relay_address ("wss://" +:+ h +:+ String "/" p) =
    match strchr ":" h with
    | Some i => Some (str_take i h, atoi (str_drop (S i) h), String "/" p)
    | None => Some (h, 443, String "/" p)
    end) as Hgen.
  { intros h p Hh Hlh Hlp. unfold relay_address, url_address.
    change (has_prefix "wss://" ("wss://" +:+ h +:+ String "/" p)) with true. cbn [negb].
    change (str_drop 6 ("wss://" +:+ h +:+ String "/" p)) with (h +:+ String "/" p)%string.
    rewrite strchr_app_stop by done. rewrite Nat.min_l by done. rewrite str_take_app, str_drop_app.
    rewrite strncpy_short by (cbn; lia). by destruct (strchr ":" h). }
  assert (lacks "/" (host +:+ String ":" (print_u port))) as Hhp.
  { apply lacks_app; [done|]. unfold lacks. cbn [strchr].
    change (Ascii.eqb "/" ":") with false. cbv iota.
    rewrite (lacks_print_u "/" port); [done|lia|]. change (ord "/") with 47. lia. }
  split_and!.
  - replace ("wss://" +:+ host +:+ ":" +:+ print_u port +:+ String "/" rest)%string
      with ("wss://" +:+ (host +:+ String ":" (print_u port)) +:+ String "/" rest)%string
      by (rewrite <- !str_append_assoc, !str_append_cons, !str_append_nil; done).
    rewrite Hgen by (try done; rewrite str_append_length; cbn [String.length]; lia).
    rewrite strchr_app_stop by done. rewrite str_take_app.
    replace (S (String.length host)) with (String.length host + 1)%nat by lia.
    do 3 f_equal. rewrite <- (atoi_print_u port) at 2 by (pow_consts; lia). f_equal.
    clear. induction host as [|x h IH]; [done|]. exact IH.
  - rewrite Hgen by (try done; lia). by rewrite Hc.
  - unfold relay_address, url_address. change (has_prefix "wss://" ("wss://" +:+ host)) with true. cbn [negb].
    change (str_drop 6 ("wss://" +:+ host)) with host. rewrite Hs.
    rewrite strncpy_short by lia. by rewrite Hc.
Qed.

(** * Concrete runs *)

Lemma frame_roundtrip_witness :
  frame_text (λ n, n <? 10000) (ws_text_frame [1; 2; 3; 4] "[]") = Some (Some "[]"%string) ∧
  frame_text (λ n, n <? 10000) (0x81 :: frame_length 2 0 ++ str_bytes "[]") = Some (Some "[]"%string).
Proof.
  apply (frame_roundtrip (λ n, n <? 10000) [1; 2; 3; 4] "[]").
  - reflexivity.
  - vm_compute. reflexivity.
  - apply (bool_decide_unpack (Forall (λ b, b ≠ 0) (str_bytes "[]"))). vm_compute. exact I.
  - vm_compute. reflexivity.
Defined.

Lemma frame_read_in_bounds_witness :
  is_Some (parse_ws_text_frame (λ n, (0 <? n) && (n <? 100000))
             [0x81; 0x7F; 255; 255; 255; 255; 255; 255; 255; 255]).
Proof.
  apply frame_read_in_bounds.
  - apply (bool_decide_unpack (Forall is_u8 [0x81; 0x7F; 255; 255; 255; 255; 255; 255; 255; 255])).
    vm_compute. exact I.
  - vm_compute. reflexivity.
  - intros n Hn. rewrite (proj2 (Z.ltb_ge n _)); [apply andb_false_r|]. revert Hn. pow_consts. lia.
  - reflexivity.
Defined.

Lemma zero_block_overruns_witness :
  parse_ws_text_frame (λ _, true) [0x81; 0x7F; 255; 255; 255; 255; 255; 255; 255; 255] = None.
Proof. apply (zero_block_overruns (λ _, true)). reflexivity. Defined.

Lemma relay_address_roundtrip_witness :
  relay_address "wss://nos.lol:8443/x" = Some ("nos.lol"%string, 8443, "/x"%string).
Proof.
  destruct (relay_address_roundtrip "nos.lol" 8443 "x") as [H _].
  - reflexivity.
  - reflexivity.
  - lia.
  - vm_compute. lia.
  - vm_compute. lia.
  - exact H.
Defined.
