(* ===== verification/Mcp.v ===== *)
(** The tools of the remote control (main/mcp_handler.c): reports on the gate,
    changes of its terms of sale and of its payouts, payments out of its wallet. *)

From S2P Require Import Prelude CStr F64 Json Dns Firewall Session Config Cashu.
#[local] Open Scope Z_scope.

Inductive mcp_tool_t :=
| MCP_TOOL_GET_CONFIG | MCP_TOOL_SET_CONFIG | MCP_TOOL_GET_BALANCE | MCP_TOOL_WALLET_SEND
| MCP_TOOL_GET_SESSIONS | MCP_TOOL_GET_USAGE | MCP_TOOL_SET_PAYOUT | MCP_TOOL_SET_METRIC
| MCP_TOOL_SET_PRICE | MCP_TOOL_WALLET_MELT | MCP_TOOL_UNKNOWN.

#[export] Instance mcp_tool_eq_dec : EqDecision mcp_tool_t.
Proof. solve_decision. Defined.

Record mcp_request_t := mk_request { rq_tool : mcp_tool_t; rq_method : string; rq_params_json : string }.
Record mcp_response_t := mk_response { rs_success : bool; rs_result_json : string; rs_error : string }.

(** What is asked of the wallet. *)
Inductive wallet_call := WalletSend (amount : Z) | WalletMelt (bolt11 : string) (max_fee : Z).

(** [snprintf(resp.result_json, ...)], [snprintf(resp.error, ...)]. *)
Definition success (json : string) : mcp_response_t := mk_response true (str_take 2047 json) "".
Definition failure (text : string) : mcp_response_t := mk_response false "" (str_take 255 text).

(** {"status":"ok" more} *)
Definition status_ok (more : string) : string :=
  ("{" +:+ dq "status" +:+ ":" +:+ dq "ok" +:+ more +:+ "}")%string.

Definition mcp_parse_tool (method : string) : mcp_tool_t :=
  if bool_decide (method = "get_config"%string) then MCP_TOOL_GET_CONFIG
  else if bool_decide (method = "set_config"%string) then MCP_TOOL_SET_CONFIG
  else if bool_decide (method = "get_balance"%string) then MCP_TOOL_GET_BALANCE
  else if bool_decide (method = "wallet_send"%string) then MCP_TOOL_WALLET_SEND
  else if bool_decide (method = "get_sessions"%string) then MCP_TOOL_GET_SESSIONS
  else if bool_decide (method = "get_usage"%string) then MCP_TOOL_GET_USAGE
  else if bool_decide (method = "set_payout"%string) then MCP_TOOL_SET_PAYOUT
  else if bool_decide (method = "set_metric"%string) then MCP_TOOL_SET_METRIC
  else if bool_decide (method = "set_price"%string) then MCP_TOOL_SET_PRICE
  else if bool_decide (method = "wallet_melt"%string) then MCP_TOOL_WALLET_MELT
  else MCP_TOOL_UNKNOWN.

Section mcp.
Context `{CUndef} `{CJson J}.
(** The wallet: its reports; the token for an amount, or an error code; the
    payment of an invoice, or the name of its error. *)
Variable nucula_wallet_balance nucula_wallet_proof_count : Z.
Variable nucula_wallet_send : Z → Z + string.
Variable nucula_wallet_melt : string → Z → option string.

(** The response, the configuration afterwards and the calls of the wallet. *)
Definition result : Type := mcp_response_t * tollgate_config_t * list wallet_call.

(** * Reports *)

Definition mcp_handle_get_config (cfg : tollgate_config_t) : mcp_response_t :=
  success (cJSON_PrintUnformatted (JObj
    [("ssid"%string, JStr (cf_ap_ssid cfg)); ("metric"%string, JStr (cf_metric cfg));
     ("price_per_step"%string, JInt (cf_price_per_step cfg));
     ("step_size_ms"%string, JInt (cf_step_size_ms cfg));
     ("step_size_bytes"%string, JInt (cf_step_size_bytes cfg));
     ("mint_url"%string, JStr (cf_mint_url cfg));
     ("client_enabled"%string, JBool (cf_client_enabled cfg));
     ("payout_enabled"%string, JBool (po_enabled (cf_payout cfg)));
     ("wifi_ssid"%string,
      JStr (if 0 <? cf_network_count cfg then nw_ssid (default network_zero (cf_networks cfg !! 0%nat)) else ""))])).

Definition mcp_handle_get_balance : mcp_response_t :=
  success (cJSON_PrintUnformatted (JObj
    [("balance_sats"%string, JInt nucula_wallet_balance);
     ("proof_count"%string, JInt nucula_wallet_proof_count)])).

Definition session_report (x : tg_session_t) : jval :=
  JObj ([("client_ip"%string, JStr (ip_str (client_ip x)))]
        ++ (if str_empty (mac x) then [] else [("mac"%string, JStr (mac x))])
        ++ [("allotment_ms"%string, JInt (allotment_ms x));
            ("allotment_bytes"%string, JInt (allotment_bytes x));
            ("bytes_consumed"%string, JInt (bytes_consumed x)); ("active"%string, JBool (active x))]).

Definition mcp_handle_get_sessions (ss : session_state) : mcp_response_t :=
  success (cJSON_PrintUnformatted (JArr (session_report <$> List.filter active (s_sessions ss)))).

Definition mcp_handle_get_usage (cfg : tollgate_config_t) : mcp_response_t :=
  success (cJSON_PrintUnformatted (JObj
    [("metric"%string, JStr (cf_metric cfg)); ("price_per_step"%string, JInt (cf_price_per_step cfg));
     ("step_size_ms"%string, JInt (cf_step_size_ms cfg));
     ("step_size_bytes"%string, JInt (cf_step_size_bytes cfg));
     ("client_enabled"%string, JBool (cf_client_enabled cfg))])).

(** * Changes *)

(** [if (item && cJSON_IsNumber(item)) x = item->valueint] *)
Definition opt_number (root : J) (k : string) (d : Z) : Z :=
  match cJSON_GetObjectItem root k with
  | Some item => match num_of item with Some _ => int_of item | None => d end
  | None => d
  end.

Definition with_payout_enabled (b : bool) (p : payout_config_t) : payout_config_t :=
  mk_payout b (po_mints p) (po_mint_count p) (po_recipients p) (po_recipient_count p)
    (po_fee_tolerance_pct p) (po_check_interval_s p).
Definition with_recipients (l : list payout_recipient_t) (n : Z) (p : payout_config_t) : payout_config_t :=
  mk_payout (po_enabled p) (po_mints p) (po_mint_count p) l n (po_fee_tolerance_pct p)
    (po_check_interval_s p).

Definition mcp_handle_set_config (params_json : string) (cfg : tollgate_config_t) : result :=
  match cJSON_Parse params_json with
  | None => (failure "Invalid JSON params", cfg, [])
  | Some root =>
      (success (status_ok ""),
       with_terms (opt_number root "price_per_step" (cf_price_per_step cfg))
         (opt_number root "step_size_ms" (cf_step_size_ms cfg))
         (opt_number root "step_size_bytes" (cf_step_size_bytes cfg))
         (opt_str 15 root "metric" (cf_metric cfg))
         (opt_bool root "client_enabled" (cf_client_enabled cfg))
         (with_payout_enabled (opt_bool root "payout_enabled" (po_enabled (cf_payout cfg))) (cf_payout cfg))
         cfg, [])
  end.

(** The recipient of a slot, changed by the fields that are given. *)
Definition update_recipient (r : J) (old : payout_recipient_t) : payout_recipient_t :=
  mk_recipient (opt_str 127 r "lightning_address" (pr_address old))
    (default (pr_factor old) (get_num r "factor")).

Definition set_recipients (given : list J) (old : list payout_recipient_t) : list payout_recipient_t :=
  imap (λ i x, match given !! i with Some r => update_recipient r x | None => x end) old.

Definition set_payout (p : payout_config_t) (cfg : tollgate_config_t) : tollgate_config_t :=
  with_terms (cf_price_per_step cfg) (cf_step_size_ms cfg) (cf_step_size_bytes cfg) (cf_metric cfg)
    (cf_client_enabled cfg) p cfg.

Definition mcp_handle_set_payout (params_json : string) (cfg : tollgate_config_t) : result :=
  match cJSON_Parse params_json with
  | None => (failure "Invalid JSON params", cfg, [])
  | Some root =>
      let p := with_payout_enabled (opt_bool root "enabled" (po_enabled (cf_payout cfg))) (cf_payout cfg) in
      let p := match get_arr root "recipients" with
               | Some arr =>
                   let given := take PAYOUT_MAX_RECIPIENTS (items arr) in
                   with_recipients (set_recipients given (po_recipients p))
                     (Z.of_nat (Nat.min PAYOUT_MAX_RECIPIENTS (cJSON_GetArraySize arr))) p
               | None => p
               end in
      (success (status_ok ""), set_payout p cfg, [])
  end.

Definition set_metric (m : string) (cfg : tollgate_config_t) : tollgate_config_t :=
  with_terms (cf_price_per_step cfg) (cf_step_size_ms cfg) (cf_step_size_bytes cfg) (strncpy 15 m)
    (cf_client_enabled cfg) (cf_payout cfg) cfg.

Definition mcp_handle_set_metric (params_json : string) (cfg : tollgate_config_t) : result :=
  match cJSON_Parse params_json with
  | None => (failure "Invalid JSON params", cfg, [])
  | Some root =>
      match get_str root "metric" with
      | Some m =>
          if bool_decide (m = "bytes"%string) || bool_decide (m = "milliseconds"%string) then
            let cfg' := set_metric m cfg in
            (success (status_ok ("," +:+ dq "metric" +:+ ":" +:+ dq (cf_metric cfg'))), cfg', [])
          else (failure "Invalid metric: must be 'bytes' or 'milliseconds'", cfg, [])
      | None => (failure "Missing 'metric' field", cfg, [])
      end
  end.

Definition set_price (price : Z) (cfg : tollgate_config_t) : tollgate_config_t :=
  with_terms price (cf_step_size_ms cfg) (cf_step_size_bytes cfg) (cf_metric cfg)
    (cf_client_enabled cfg) (cf_payout cfg) cfg.

(** The price of the parameters, if it is a positive number. *)
Definition price_given (root : J) : option Z :=
  price ← cJSON_GetObjectItem root "price_per_step";
  _ ← num_of price;
  if 0 <? int_of price then Some (int_of price) else None.

Definition mcp_handle_set_price (params_json : string) (cfg : tollgate_config_t) : result :=
  match cJSON_Parse params_json with
  | None => (failure "Invalid JSON params", cfg, [])
  | Some root =>
      match price_given root with
      | Some price =>
          (success (status_ok ("," +:+ dq "price_per_step" +:+ ":" +:+ print_d price)), set_price price cfg, [])
      | None => (failure "Missing or invalid 'price_per_step' field", cfg, [])
      end
  end.

(** * Payments *)

Definition mcp_handle_wallet_send (params_json : string) (cfg : tollgate_config_t) : result :=
  match cJSON_Parse params_json with
  | None => (failure "Invalid JSON params", cfg, [])
  | Some root =>
      match get_num root "amount" with
      | None => (failure "Missing 'amount' field", cfg, [])
      | Some x =>
          let amount := u64_of_f64 x in
          match nucula_wallet_send amount with
          | inl rc => (failure ("Send failed: " +:+ print_d rc), cfg, [WalletSend amount])
          | inr token =>
              (success (cJSON_PrintUnformatted (JObj
                 [("token"%string, JStr (strncpy 2047 token)); ("amount"%string, JInt amount)])),
               cfg, [WalletSend amount])
          end
      end
  end.

Definition mcp_handle_wallet_melt (params_json : string) (cfg : tollgate_config_t) : result :=
  match cJSON_Parse params_json with
  | None => (failure "Invalid JSON params", cfg, [])
  | Some root =>
      match get_str root "bolt11" with
      | None => (failure "Missing 'bolt11' field", cfg, [])
      | Some bolt11 =>
          let fee := match get_num root "max_fee_sats" with Some x => u64_of_f64 x | None => 10 end in
          (match nucula_wallet_melt bolt11 fee with
           | None => success (status_ok "")
           | Some name => failure ("Melt failed: " +:+ name)
           end, cfg, [WalletMelt bolt11 fee])
      end
  end.

Definition mcp_dispatch (req : mcp_request_t) (ss : session_state) (cfg : tollgate_config_t) : result :=
  match rq_tool req with
  | MCP_TOOL_GET_CONFIG => (mcp_handle_get_config cfg, cfg, [])
  | MCP_TOOL_SET_CONFIG => mcp_handle_set_config (rq_params_json req) cfg
  | MCP_TOOL_GET_BALANCE => (mcp_handle_get_balance, cfg, [])
  | MCP_TOOL_WALLET_SEND => mcp_handle_wallet_send (rq_params_json req) cfg
  | MCP_TOOL_GET_SESSIONS => (mcp_handle_get_sessions ss, cfg, [])
  | MCP_TOOL_GET_USAGE => (mcp_handle_get_usage cfg, cfg, [])
  | MCP_TOOL_SET_PAYOUT => mcp_handle_set_payout (rq_params_json req) cfg
  | MCP_TOOL_SET_METRIC => mcp_handle_set_metric (rq_params_json req) cfg
  | MCP_TOOL_SET_PRICE => mcp_handle_set_price (rq_params_json req) cfg
  | MCP_TOOL_WALLET_MELT => mcp_handle_wallet_melt (rq_params_json req) cfg
  | MCP_TOOL_UNKNOWN => (failure ("Unknown tool: " +:+ rq_method req), cfg, [])
  end.
End mcp.

(** * What the commands keep *)

Lemma with_payout_enabled_wf b p : payout_wf p → payout_wf (with_payout_enabled b p).
Proof. done. Qed.

Section keep.
Context `{CUndef} `{CJson J}.

Lemma set_recipients_wf (given : list J) l :
  Forall (λ r, fits 127 (pr_address r)) l →
  length (set_recipients given l) = length l ∧
  Forall (λ r, fits 127 (pr_address r)) (set_recipients given l).
Proof.
  intros Hl. unfold set_recipients. split; [apply length_imap|].
  apply Forall_lookup_2. intros i x Hx. rewrite list_lookup_imap in Hx.
  destruct (l !! i) as [old|] eqn:Ho; [|done]. cbn in Hx. injection Hx as <-.
  pose proof (Forall_lookup_1 _ _ _ _ Hl Ho) as Hold. cbn in Hold.
  destruct (given !! i); [|done]. by apply opt_str_fits.
Qed.

Lemma with_recipients_wf given n p :
  payout_wf p →
  payout_wf (with_recipients (set_recipients given (po_recipients p))
               (Z.of_nat (Nat.min PAYOUT_MAX_RECIPIENTS n)) p).
Proof.
  intros (H1 & H2 & H3 & H4 & H5 & H6 & H7). destruct (set_recipients_wf given _ H6) as [Hl Hf].
  unfold payout_wf, with_recipients.
  cbn [po_mints po_mint_count po_recipients po_recipient_count po_fee_tolerance_pct].
  rewrite Hl. split_and!; (done || lia).
Qed.

Context (balance proofs : Z) (send : Z → Z + string) (melt : string → Z → option string).
Notation dispatch := (mcp_dispatch balance proofs send melt).

(** Every command leaves the configuration well formed. *)
Lemma dispatch_wf req ss cfg : config_wf cfg → config_wf (dispatch req ss cfg).1.2.
Proof.
  intros Hc. pose proof (wf_payout cfg Hc) as Hp. pose proof (wf_metric cfg Hc) as Hm.
  unfold mcp_dispatch. destruct (rq_tool req); try done.
  - unfold mcp_handle_set_config. destruct (cJSON_Parse _) as [root|]; [|done].
    apply with_terms_wf; [done|by apply opt_str_fits|by apply with_payout_enabled_wf].
  - unfold mcp_handle_wallet_send. by repeat case_match.
  - unfold mcp_handle_set_payout. destruct (cJSON_Parse _) as [root|]; [|done]. cbv zeta.
    apply with_terms_wf; [done|done|]. destruct (get_arr root "recipients"); [|done].
    by apply with_recipients_wf.
  - unfold mcp_handle_set_metric. destruct (cJSON_Parse _); [|done]. destruct (get_str _ _); [|done].
    case_if; [|done]. apply with_terms_wf; [done|apply strncpy_fits|done].
  - unfold mcp_handle_set_price. destruct (cJSON_Parse _); [|done]. destruct (price_given _); [|done].
    by apply with_terms_wf.
  - unfold mcp_handle_wallet_melt. by repeat case_match.
Qed.

Lemma dispatch_calls req ss cfg : (length (dispatch req ss cfg).2 ≤ 1)%nat.
Proof.
  unfold mcp_dispatch. destruct (rq_tool req); try (cbn; lia).
  - unfold mcp_handle_set_config. case_match; cbn; lia.
  - unfold mcp_handle_wallet_send. repeat case_match; cbn; lia.
  - unfold mcp_handle_set_payout. case_match; cbn; lia.
  - unfold mcp_handle_set_metric. repeat case_match; cbn; lia.
  - unfold mcp_handle_set_price. repeat case_match; cbn; lia.
  - unfold mcp_handle_wallet_melt. repeat case_match; cbn; lia.
Qed.

(** What a command may do.  A command that fails changes no setting; only
    set_config, set_payout, set_metric and set_price change any; only wallet_send
    and wallet_melt call the wallet, each at most once; after a set_price that
    succeeds the price is positive, after a set_metric that succeeds the metric is
    one of the two known ones; an unknown method does nothing. *)
Theorem command_effects req ss cfg r cfg' calls :
  mcp_dispatch balance proofs send melt req ss cfg = (r, cfg', calls) →
  (rs_success r = false → cfg' = cfg) ∧
  (cfg' ≠ cfg → rq_tool req ∈ [MCP_TOOL_SET_CONFIG; MCP_TOOL_SET_PAYOUT; MCP_TOOL_SET_METRIC; MCP_TOOL_SET_PRICE]) ∧
  (calls ≠ [] → rq_tool req ∈ [MCP_TOOL_WALLET_SEND; MCP_TOOL_WALLET_MELT] ∧ length calls = 1%nat ∧ cfg' = cfg) ∧
  (rs_success r = true → rq_tool req = MCP_TOOL_SET_PRICE → 0 < cf_price_per_step cfg') ∧
  (rs_success r = true → rq_tool req = MCP_TOOL_SET_METRIC →
   cf_metric cfg' = "bytes"%string ∨ cf_metric cfg' = "milliseconds"%string) ∧
  (rq_tool req = MCP_TOOL_UNKNOWN → rs_success r = false ∧ cfg' = cfg ∧ calls = []).
Proof.
  unfold mcp_dispatch. destruct (rq_tool req).
  1, 3, 5, 6, 11: intros [= <- <- <-]; by split_and!.
  - unfold mcp_handle_set_config. destruct (cJSON_Parse _); intros [= <- <- <-]; split_and!; try done.
    intros _. by apply list_elem_of_here.
  - unfold mcp_handle_wallet_send. destruct (cJSON_Parse _) as [root|]; [|intros [= <- <- <-]; by split_and!].
    destruct (get_num root "amount"); [|intros [= <- <- <-]; by split_and!].
    destruct (send _); intros [= <- <- <-]; split_and!; try done; intros _; split_and!; try done;
      by apply list_elem_of_here.
  - unfold mcp_handle_set_payout. destruct (cJSON_Parse _); intros [= <- <- <-]; split_and!; try done.
    intros _. by do 1 apply list_elem_of_further; apply list_elem_of_here.
  - unfold mcp_handle_set_metric. destruct (cJSON_Parse _) as [root|]; [|intros [= <- <- <-]; by split_and!].
    destruct (get_str root "metric") as [m|]; [|intros [= <- <- <-]; by split_and!].
    destruct (_ || _) eqn:Hm; intros [= <- <- <-]; split_and!; try done.
    + intros _. do 2 apply list_elem_of_further. by apply list_elem_of_here.
    + intros _ _. bool_hyps. assert (cf_metric (set_metric m cfg) = strncpy 15 m) as -> by by destruct cfg.
      destruct Hm as [Hm|Hm]; apply bool_decide_eq_true in Hm as ->; [by left|by right].
  - unfold mcp_handle_set_price. destruct (cJSON_Parse _) as [root|]; [|intros [= <- <- <-]; by split_and!].
    destruct (price_given root) as [p|] eqn:Hp; intros [= <- <- <-]; split_and!; try done.
    + intros _. do 3 apply list_elem_of_further. by apply list_elem_of_here.
    + intros _ _. unfold price_given in Hp. apply bind_Some in Hp as (item & _ & Hp).
      apply bind_Some in Hp as (x & _ & Hp). destruct (0 <? int_of item) eqn:Hlt; [|done].
      injection Hp as <-. bool_hyps. by destruct cfg.
  - unfold mcp_handle_wallet_melt. destruct (cJSON_Parse _) as [root|]; [|intros [= <- <- <-]; by split_and!].
    destruct (get_str root "bolt11"); [|intros [= <- <- <-]; by split_and!].
    intros [= <- <- <-]; split_and!; try done. intros _. split_and!; try done.
    apply list_elem_of_further. by apply list_elem_of_here.
Qed.
End keep.

(** * Concrete runs *)

Definition price_params (p : Z) : jval := JObj [("price_per_step"%string, JInt p)].
(** Every text is the parameters with this price. *)
Definition parse_price (p : Z) (_ : string) : option jval := Some (price_params p).

Lemma command_effects_witness :
  let res := @mcp_dispatch cundef_zero jval (tree_json (parse_price 42)) 0 0 (λ _, inl 1) (λ _ _, None)
               (mk_request MCP_TOOL_SET_PRICE "set_price" "{}") session_boot config_example in
  rs_success res.1.1 = true ∧ 0 < cf_price_per_step res.1.2.
Proof.
  cbv zeta. set (res := mcp_dispatch _ _ _ _ _ _ _).
  destruct (@command_effects cundef_zero jval (tree_json (parse_price 42)) 0 0 (λ _, inl 1) (λ _ _, None)
    (mk_request MCP_TOOL_SET_PRICE "set_price" "{}") session_boot config_example res.1.1 res.1.2 res.2)
    as (_ & _ & _ & H & _).
  - unfold res. vm_compute. reflexivity.
  - assert (rs_success res.1.1 = true) as Hs by (vm_compute; reflexivity).
    split; [exact Hs|]. apply H; [exact Hs|reflexivity].
Defined.
