(* ===== verification/Cvm.v ===== *)
(** The remote control over Nostr (main/cvm_server.c): the events of kind 25910
    that a relay delivers, the requests they carry, and the answers published.
    The tools are those of [Mcp], the events those of [NostrEvent], the frames
    those of [WebSocket]. *)

From S2P Require Import Prelude CStr F64 Json Dns Firewall Session Config Mining Cashu Core Api.
From S2P Require Import RateLimiter SubManager Storage Relay Identity NostrEvent WebSocket Mcp.
From stdpp Require Import relations.
#[local] Open Scope Z_scope.

Definition CVM_VERSION : string := "2025-07-02".
Definition CVM_SERVER_NAME : string := "TollGate".
Definition CVM_SERVER_VERSION : string := "1.0.0".

(** A text with its apostrophes as double quotes. *)
Fixpoint quoted (s : string) : string :=
  match s with
  | EmptyString => EmptyString
  | String c s' => String (if Ascii.eqb c "'" then chr 34 else c) (quoted s')
  end.

(** Name, description and the text of the schema. *)
Definition tool_defs : list (string * string * string) :=
  let none := quoted "{'type':'object','properties':{},'required':[]}" in
  [("get_config", "Get current device configuration", none);
   ("set_config", "Update device configuration",
    quoted ("{'type':'object','properties':{'price_per_step':{'type':'integer'}"
      +:+ ",'step_size_ms':{'type':'integer'},'step_size_bytes':{'type':'integer'}"
      +:+ ",'metric':{'type':'string'},'client_enabled':{'type':'boolean'}"
      +:+ ",'payout_enabled':{'type':'boolean'}}}"));
   ("get_balance", "Get wallet balance and proof count", none);
   ("wallet_send", "Send e-cash tokens from wallet",
    quoted ("{'type':'object','properties':{'amount':{'type':'integer'"
      +:+ ",'description':'Amount in sats'}},'required':['amount']}"));
   ("get_sessions", "Get active client sessions", none);
   ("get_usage", "Get current billing usage info", none);
   ("set_payout", "Configure payout recipients",
    quoted ("{'type':'object','properties':{'enabled':{'type':'boolean'}"
      +:+ ",'recipients':{'type':'array'}}}"));
   ("set_metric", "Set billing metric",
    quoted ("{'type':'object','properties':{'metric':{'type':'string'"
      +:+ ",'enum':['bytes','milliseconds']}},'required':['metric']}"));
   ("set_price", "Set price per step",
    quoted ("{'type':'object','properties':{'price_per_step':{'type':'integer'"
      +:+ ",'minimum':1}},'required':['price_per_step']}"));
   ("wallet_melt", "Melt tokens for lightning payment",
    quoted ("{'type':'object','properties':{'bolt11':{'type':'string'}"
      +:+ ",'max_fee_sats':{'type':'integer'}},'required':['bolt11']}"))]%string.

Section cvm.
Context `{CUndef} `{CJson J}.
Variable cJSON_Duplicate : J → jval.
Variable mbedtls_sha256 : list Z → list Z.
Context {keypair : Type} (secp256k1_keypair_create : list Z → option keypair).
Variable secp256k1_schnorrsig_sign32 : keypair → list Z → option (list Z).
(** [atof] of the number as cJSON prints it. *)
Variable printed_number : J → f64.
Variable nucula_wallet_balance nucula_wallet_proof_count : Z.
Variable nucula_wallet_send : Z → Z + string.
Variable nucula_wallet_melt : string → Z → option string.
(** [identity_get()] and [tv.tv_sec]. *)
Variable id : tollgate_identity_t.
Variable now : Z.

(** * Answers *)

(** [id_str]: the number of the request's [id], or "0". *)
Definition request_id (msg : J) : f64 :=
  match cJSON_GetObjectItem msg "id" with
  | Some id_field => match num_of id_field with Some _ => printed_number id_field | None => f64_zero end
  | None => f64_zero
  end.

Definition rpc_response (rid : f64) (k : string) (v : jval) : jval :=
  JObj [("jsonrpc"%string, JStr "2.0"); ("id"%string, JNum rid); (k, v)].

Definition build_initialize_response (rid : f64) : jval :=
  rpc_response rid "result" (JObj
    [("protocolVersion"%string, JStr CVM_VERSION);
     ("capabilities"%string, JObj [("tools"%string, JObj [])]);
     ("serverInfo"%string,
      JObj [("name"%string, JStr CVM_SERVER_NAME); ("version"%string, JStr CVM_SERVER_VERSION)])]).

Definition build_tools_list : jval :=
  JArr ((λ '(name, description, schema),
    JObj ([("name"%string, JStr name); ("description"%string, JStr description)]
          ++ match cJSON_Parse schema with
             | Some s => [("inputSchema"%string, cJSON_Duplicate s)]
             | None => []
             end)) <$> tool_defs).

Definition build_tools_list_response (rid : f64) : jval :=
  rpc_response rid "result" (JObj [("tools"%string, build_tools_list)]).

Definition build_tool_call_response (rid : f64) (r : mcp_response_t) : jval :=
  if rs_success r then
    rpc_response rid "result" (JObj
      [("content"%string,
        JArr [JObj [("type"%string, JStr "text"); ("text"%string, JStr (rs_result_json r))]]);
       ("isError"%string, JBool false)])
  else
    rpc_response rid "error"
      (JObj [("code"%string, JInt (-32603)); ("message"%string, JStr (rs_error r))]).

Definition build_ping_response (rid : f64) : jval := rpc_response rid "result" (JObj []).

(** The message of [publish_kind_25910_response] to the relay, if there is one.
    The result of the signing is not looked at. *)
Definition publish_kind_25910_response (content : jval) (request_event_id : option string) : option string :=
  if negb (id_initialized id) then None else
  let tags := JArr [JArr (JStr "e" :: match request_event_id with Some e => [JStr e] | None => [] end)] in
  let event := nostr_event_init cJSON_Duplicate mbedtls_sha256 now (id_npub_hex id) 25910
                 (Some (cJSON_PrintUnformatted tags)) (Some (cJSON_PrintUnformatted content)) in
  '(_, signed) ← nostr_event_sign secp256k1_keypair_create secp256k1_schnorrsig_sign32 event (id_nsec id);
  event_json ← nostr_event_to_json cJSON_Duplicate signed 8192;
  Some ("[" +:+ dq "EVENT" +:+ "," +:+ event_json +:+ "]")%string.

(** * Requests *)

(** The configuration afterwards, the calls of the wallet, and what is
    published. *)
Definition effects : Type := tollgate_config_t * list wallet_call * list string.

Definition answer (content : jval) (event_id : option string) : list string :=
  match publish_kind_25910_response content event_id with Some m => [m] | None => [] end.

(** The request of [tools/call], if its parameters name a tool. *)
Definition tool_request (msg : J) : option mcp_request_t :=
  params ← cJSON_GetObjectItem msg "params";
  name ← get_str params "name";
  Some (mk_request (mcp_parse_tool name) (strncpy 63 name)
          match cJSON_GetObjectItem params "arguments" with
          | Some arguments => strncpy 1023 (cJSON_PrintUnformatted (cJSON_Duplicate arguments))
          | None => ""%string
          end).

Definition handle_mcp_message (event_id : option string) (content : string) (ss : session_state)
    (cfg : tollgate_config_t) : effects :=
  match cJSON_Parse content with
  | None => (cfg, [], [])
  | Some msg =>
      let rid := request_id msg in
      match get_str msg "method" with
      | None => (cfg, [], [])
      | Some m =>
          if bool_decide (m = "initialize"%string)
          then (cfg, [], answer (build_initialize_response rid) event_id)
          else if bool_decide (m = "notifications/initialized"%string) then (cfg, [], [])
          else if bool_decide (m = "tools/list"%string)
          then (cfg, [], answer (build_tools_list_response rid) event_id)
          else if bool_decide (m = "tools/call"%string) then
            match tool_request msg with
            | Some req =>
                let '(r, cfg', calls) :=
                  mcp_dispatch nucula_wallet_balance nucula_wallet_proof_count nucula_wallet_send
                    nucula_wallet_melt req ss cfg in
                (cfg', calls, answer (build_tool_call_response rid r) event_id)
            | None => (cfg, [], [])
            end
          else if bool_decide (m = "ping"%string) then (cfg, [], answer (build_ping_response rid) event_id)
          else (cfg, [], [])
      end
  end.

Definition is_owner_pubkey (pubkey_hex : option string) : bool :=
  id_initialized id && bool_decide (pubkey_hex = Some (id_npub_hex id)).

(** The event of a message [["EVENT", subscription, event]] of kind 25910: the
    key it names, its identifier and its content. *)
Definition command_event (msg_str : string) : option (option string * option string * option string) :=
  arr ← cJSON_Parse msg_str;
  if negb (cJSON_IsArray arr) then None else
  cmd ← cJSON_GetArrayItem arr 0;
  name ← str_of cmd;
  if negb (bool_decide (name = "EVENT"%string)) then None else
  event ← cJSON_GetArrayItem arr 2;
  kind ← cJSON_GetObjectItem event "kind";
  if negb (int_of kind =? 25910) then None else
  pubkey ← cJSON_GetObjectItem event "pubkey";
  event_id ← cJSON_GetObjectItem event "id";
  content ← cJSON_GetObjectItem event "content";
  Some (str_of pubkey, str_of event_id, str_of content).

(** A content that is no string is parsed as [NULL], which fails. *)
Definition process_relay_message (msg_str : string) (ss : session_state) (cfg : tollgate_config_t)
  : effects :=
  match command_event msg_str with
  | None => (cfg, [], [])
  | Some (pubkey, event_id, content) =>
      if negb (is_owner_pubkey pubkey) then (cfg, [], []) else
      match content with
      | Some text => handle_mcp_message event_id text ss cfg
      | None => (cfg, [], [])
      end
  end.

(** * What is read from the relay *)

(** A turn of the loop of [cvm_relay_task] with the bytes of one read; [None] when
    they are read out of bounds.  The effects, the frame that is written back, and
    whether the connection ends. *)
Definition relay_read (malloc : Z → bool) (buf : list Z) (ss : session_state) (cfg : tollgate_config_t)
  : option (effects * list Z * bool) :=
  let opcode := Z.land (buf !!! 0%nat) 0x0F in
  if opcode =? 0x01 then
    text ← frame_text malloc buf;
    Some (match text with
          | Some t => if str_empty t then (cfg, [], []) else process_relay_message t ss cfg
          | None => (cfg, [], [])
          end, [], false)
  else if opcode =? 0x09 then Some ((cfg, [], []), [0x8A; 0x00], false)
  else Some ((cfg, [], []), [], opcode =? 0x08).

(** [subscribe_to_relay]: what is sent when a connection is up. *)
Definition subscribe_to_relay (npub : string) : jval :=
  JArr [JStr "REQ"; JStr "cvm_sub";
        JObj [("kinds"%string, JArr [JInt 25910]); ("#p"%string, JArr [JStr npub]);
              ("limit"%string, JInt 100)]].

(** [cvm_server_start]: the relay, unless the server runs already. *)
Definition cvm_relay (cfg : tollgate_config_t) : string :=
  if str_empty (cf_cvm_relays cfg) then "wss://relay.primal.net"%string else cf_cvm_relays cfg.

(** [publish_announcements_via_ws]: kind, content and tags of the three events. *)
Definition announcements : list (Z * jval * jval) :=
  [(11316,
    JObj [("protocolVersion"%string, JStr CVM_VERSION);
          ("capabilities"%string, JObj [("tools"%string, JObj [("listChanged"%string, JBool true)])]);
          ("serverInfo"%string,
           JObj [("name"%string, JStr CVM_SERVER_NAME); ("version"%string, JStr CVM_SERVER_VERSION)])],
    JArr [JArr [JStr "name"; JStr CVM_SERVER_NAME];
          JArr [JStr "about"; JStr "ESP32 TollGate WiFi hotspot with Cashu e-cash payments"]]);
   (11317, JObj [("tools"%string, build_tools_list)], JArr []);
   (10002, JStr "",
    JArr [JArr [JStr "r"; JStr "wss://relay.primal.net"];
          JArr [JStr "r"; JStr "wss://nostr-pub.wellorder.net"]])].
End cvm.

(** * Who is obeyed *)

Section obeyed.
Context `{CUndef} `{CJson J} (dup : J → jval) (sha : list Z → list Z).
Context {keypair : Type} (create : list Z → option keypair) (sign : keypair → list Z → option (list Z)).
Context (printed : J → f64) (balance proofs : Z) (send : Z → Z + string) (melt : string → Z → option string).
Notation process := (process_relay_message dup sha create sign printed balance proofs send melt).

Lemma answer_length id now content e :
  (length (answer dup sha create sign id now content e) ≤ 1)%nat.
Proof. unfold answer. case_match; cbn; lia. Qed.

Lemma handle_mcp_message_effects id now e text ss cfg cfg' calls pubs :
  handle_mcp_message dup sha create sign printed balance proofs send melt id now e text ss cfg
    = (cfg', calls, pubs) →
  (length calls ≤ 1)%nat ∧ (length pubs ≤ 1)%nat ∧ (config_wf cfg → config_wf cfg').
Proof.
  intros Hh. assert (length (@nil wallet_call) ≤ 1 ∧ length (@nil string) ≤ 1)%nat as [Hn Hn'] by (cbn; lia).
  unfold handle_mcp_message in Hh. destruct (cJSON_Parse text) as [msg|]; [|by injection Hh as <- <- <-].
  cbv zeta in Hh. destruct (get_str msg "method") as [m|]; [|by injection Hh as <- <- <-].
  repeat (case_match; [by injection Hh as <- <- <-; split_and!; auto using answer_length|]).
  destruct (bool_decide (m = "tools/call"%string)).
  - destruct (tool_request dup msg) as [req|]; [|by injection Hh as <- <- <-].
    pose proof (dispatch_wf balance proofs send melt req ss cfg) as Hwf.
    pose proof (dispatch_calls balance proofs send melt req ss cfg) as Hcalls.
    destruct (mcp_dispatch balance proofs send melt req ss cfg) as [[r c] k]. injection Hh as <- <- <-.
    auto using answer_length.
  - repeat case_match; injection Hh as <- <- <-; split_and!; auto using answer_length.
Qed.

Lemma process_obeys_owner id now msg ss cfg cfg' calls pubs :
  process id now msg ss cfg = (cfg', calls, pubs) →
  (length calls ≤ 1)%nat ∧ (length pubs ≤ 1)%nat ∧
  (cfg' ≠ cfg ∨ calls ≠ [] ∨ pubs ≠ [] →
   id_initialized id = true ∧
   ∃ e text, command_event msg = Some (Some (id_npub_hex id), e, Some text)).
Proof.
  assert (length (@nil wallet_call) ≤ 1 ∧ length (@nil string) ≤ 1)%nat as [Hn Hn'] by (cbn; lia).
  unfold process_relay_message. destruct (command_event msg) as [[[pubkey e] content]|].
  2: { intros [= <- <- <-]. split_and!; [done..|tauto]. }
  destruct (is_owner_pubkey id pubkey) eqn:Hown; cbn [negb].
  2: { intros [= <- <- <-]. split_and!; [done..|tauto]. }
  unfold is_owner_pubkey in Hown. apply andb_true_iff in Hown as [Hin Hpub%bool_decide_eq_true].
  destruct content as [text|]; [|intros [= <- <- <-]; split_and!; [done..|tauto]].
  intros Hh. apply handle_mcp_message_effects in Hh as (H1 & H2 & _). split_and!; [done..|].
  intros _. subst pubkey. eauto.
Qed.

Lemma process_config_wf id now msg ss c : config_wf c → config_wf (process id now msg ss c).1.1.
Proof.
  intros Hc. unfold process_relay_message. destruct (command_event msg) as [[[pubkey e] content]|]; [|done].
  case_if; [done|]. destruct content as [text|]; [|done].
  destruct (handle_mcp_message _ _ _ _ _ _ _ _ _ _ _ _ _ _ _) as [[cfg' calls] pubs] eqn:Hm.
  apply handle_mcp_message_effects in Hm as (_ & _ & Hm). auto.
Qed.

(** Only the owner is obeyed.  A message of the relay that changes the
    configuration, calls the wallet or makes the gate publish anything is an EVENT of
    kind 25910 that names the public key of the gate, and a gate without an identity
    obeys nothing.  One message calls the wallet at most once and is answered at most
    once. *)
Theorem only_the_owner_commands id now msg ss cfg cfg' calls pubs :
  process id now msg ss cfg = (cfg', calls, pubs) →
  (length calls ≤ 1)%nat ∧ (length pubs ≤ 1)%nat ∧
  (cfg' ≠ cfg ∨ calls ≠ [] ∨ pubs ≠ [] →
   id_initialized id = true ∧
   ∃ e text, command_event msg = Some (Some (id_npub_hex id), e, Some text)).
Proof. apply process_obeys_owner. Qed.

(** * The configuration over time *)

(** A network taken, the next one tried, an identity taken over, and a message of
    the relay. *)
Inductive config_step (hmac : list Z → list Z → list Z) (xonly compressed : keypair → list Z)
  : tollgate_config_t → tollgate_config_t → Prop :=
| step_next_wifi c : config_step hmac xonly compressed c (tollgate_config_get_next_wifi c).2
| step_add_wifi ssid pass c :
    config_step hmac xonly compressed c (tollgate_config_add_wifi ssid pass c).1.2
| step_derive text c :
    config_step hmac xonly compressed c
      (tollgate_config_derive_unique (identity_init hmac create xonly compressed text).2 c)
| step_message id now msg ss c :
    config_step hmac xonly compressed c (process id now msg ss c).1.1.

End obeyed.

(** * Behaviour worth knowing *)

(** No signature is looked at.  An event that carries the public key of the
    gate - which the gate itself publishes - and a request for a token empties the
    wallet, whatever its identifier, time, tags and signature are. *)
Theorem forged_event_obeyed `{CUndef} parse print dup sha {keypair} (create : list Z → option keypair) sign
    printed balance proofs send melt id now ss cfg msg sub e t tags content sig amount :
  id_initialized id = true →
  parse msg = Some (JArr [JStr "EVENT"; sub;
    JObj [("id"%string, JStr e); ("pubkey"%string, JStr (id_npub_hex id)); ("created_at"%string, t);
          ("kind"%string, JInt 25910); ("tags"%string, tags); ("content"%string, JStr content);
          ("sig"%string, sig)]]) →
  let args := JObj [("amount"%string, JNum amount)] in
  parse content = Some (JObj [("method"%string, JStr "tools/call");
    ("params"%string, JObj [("name"%string, JStr "wallet_send"); ("arguments"%string, args)])]) →
  parse (strncpy 1023 (print (dup args))) = Some args →
  (@process_relay_message _ jval (printed_json parse print) dup sha keypair create sign printed balance
     proofs send melt id now msg ss cfg).1.2 = [WalletSend (u64_of_f64 amount)].
Proof.
  intros Hid Hmsg args Hcontent Hargs. unfold process_relay_message.
  assert (@command_event jval (printed_json parse print) msg
          = Some (Some (id_npub_hex id), Some e, Some content)) as ->.
  { unfold command_event. cbn [cJSON_Parse printed_json]. rewrite Hmsg. vm_compute. reflexivity. }
  unfold is_owner_pubkey. rewrite Hid, bool_decide_true by done. cbn [andb negb].
  unfold handle_mcp_message. cbn [cJSON_Parse printed_json]. rewrite Hcontent.
  set (jmsg := JObj [("method"%string, _); _]).
  assert (@get_str jval (printed_json parse print) jmsg "method" = Some "tools/call"%string) as ->
    by (vm_compute; reflexivity).
  assert (@tool_request jval (printed_json parse print) dup jmsg
          = Some (mk_request MCP_TOOL_WALLET_SEND "wallet_send" (strncpy 1023 (print (dup args))))) as ->
    by (vm_compute; reflexivity).
  unfold mcp_dispatch. cbn [rq_tool rq_params_json]. unfold mcp_handle_wallet_send.
  cbn [cJSON_Parse printed_json]. rewrite Hargs.
  assert (@get_num jval (printed_json parse print) args "amount" = Some amount) as ->
    by (vm_compute; reflexivity).
  rewrite !(bool_decide_false ("tools/call"%string = _)), bool_decide_true by done.
  by destruct (send (u64_of_f64 amount)).
Qed.

(** A price of zero.  [set_config] takes a price that [set_price] refuses: with
    price zero it answers success, and from then on no payment is accepted, whatever
    is paid, until the price is set again. *)
Theorem price_zero_stops_sales `{MacLookup} `{CUndef} `{CJson J} params root item cfg b64 sha http_post pf
    ticks npub :
  cJSON_Parse params = Some root → cJSON_GetObjectItem root "price_per_step" = Some item →
  is_Some (num_of item) → int_of item = 0 →
  rs_success (mcp_handle_set_price params cfg).1.1 = false ∧ (mcp_handle_set_price params cfg).1.2 = cfg ∧
  rs_success (mcp_handle_set_config params cfg).1.1 = true ∧
  ∀ rq ss,
    let res := api_post_payment b64 sha http_post pf ticks (mcp_handle_set_config params cfg).1.2 npub rq ss in
    (reply_status res.1.1 = 400 ∨ reply_status res.1.1 = 402) ∧ res.1.2 = ss ∧ res.2 = None.
Proof.
  intros Hp Hitem [x Hx] Hz. unfold mcp_handle_set_price, mcp_handle_set_config. rewrite Hp.
  assert (price_given root = None) as -> by (unfold price_given; by rewrite Hitem; cbn; rewrite Hx; cbn; rewrite Hz).
  split_and!; try done. intros rq ss. cbn [fst snd].
  set (cfg' := with_terms _ _ _ _ _ _ cfg).
  assert (cf_price_per_step cfg' = 0) as Hprice.
  { unfold cfg', opt_number. rewrite Hitem, Hx, Hz. by destruct cfg. }
  clearbody cfg'. unfold api_post_payment.
  pose proof (check_payment_spec b64 sha http_post cfg' npub rq) as Hck.
  destruct (check_payment _ _ _ _ _ rq) as [r|[text t]]; [by destruct Hck|].
  destruct Hck as (_ & _ & _ & _ & _ & Hne). by unfold api_allotment in Hne; rewrite Hprice in Hne.
Qed.

(** * Concrete runs *)

(** A stranger's event: a time, a signature and an identifier out of the air. *)
Definition forged_request : jval :=
  JObj [("method"%string, JStr "tools/call");
        ("params"%string, JObj [("name"%string, JStr "wallet_send");
                                ("arguments"%string, JObj [("amount"%string, JInt 1000)])])].
Definition forged_event (npub : string) : jval :=
  JArr [JStr "EVENT"; JStr "cvm_sub";
    JObj [("id"%string, JStr "00"); ("pubkey"%string, JStr npub); ("created_at"%string, JInt 0);
          ("kind"%string, JInt 25910); ("tags"%string, JArr []);
          ("content"%string, JStr "request"); ("sig"%string, JStr "none")]].
Definition parse_forged (s : string) : option jval :=
  if bool_decide (s = "event"%string) then Some (forged_event (id_npub_hex identity_example))
  else if bool_decide (s = "request"%string) then Some forged_request
  else if bool_decide (s = quoted "{'amount':1000}") then Some (JObj [("amount"%string, JInt 1000)])
  else None.
Definition print_forged (_ : jval) : string := quoted "{'amount':1000}".
Definition key_example_create (_ : list Z) : option unit := None.
Definition no_signature (_ : unit) (_ : list Z) : option (list Z) := None.

Lemma forged_event_obeyed_witness :
  (@process_relay_message cundef_zero jval (printed_json parse_forged print_forged) (λ v, v) (λ l, l) unit
     key_example_create no_signature (λ _, f64_zero) 5000 7 (λ _, inr "cashuA"%string) (λ _ _, None)
     identity_example 0 "event" session_boot config_example).1.2 = [WalletSend 1000].
Proof.
  pose proof (@forged_event_obeyed cundef_zero parse_forged print_forged (λ v, v) (λ l, l) unit
    key_example_create no_signature (λ _, f64_zero) 5000 7 (λ _, inr "cashuA"%string) (λ _ _, None)
    identity_example 0 session_boot config_example "event" (JStr "cvm_sub") "00" (JInt 0) (JArr []) "request"
    (JStr "none") (f64_of_Z 1000)) as Hf.
  rewrite Hf.
  - vm_compute. reflexivity.
  - vm_compute. reflexivity.
  - vm_compute. reflexivity.
  - vm_compute. reflexivity.
  - vm_compute. reflexivity.
Defined.

Lemma only_the_owner_commands_witness :
  let res := @process_relay_message cundef_zero jval (printed_json parse_forged print_forged) (λ v, v) (λ l, l)
               unit key_example_create no_signature (λ _, f64_zero) 5000 7 (λ _, inr "cashuA"%string)
               (λ _ _, None) identity_example 0 "event" session_boot config_example in
  res.1.2 ≠ [] ∧ id_initialized identity_example = true.
Proof.
  cbv zeta. set (res := process_relay_message _ _ _ _ _ _ _ _ _ _ _ _ _ _).
  destruct (@only_the_owner_commands cundef_zero jval (printed_json parse_forged print_forged) (λ v, v)
    (λ l, l) unit key_example_create no_signature (λ _, f64_zero) 5000 7 (λ _, inr "cashuA"%string)
    (λ _ _, None) identity_example 0 "event" session_boot config_example res.1.1 res.1.2 res.2)
    as (_ & _ & Hx).
  - unfold res. vm_compute. reflexivity.
  - assert (res.1.2 ≠ []) as Hne by (unfold res; vm_compute; discriminate).
    split; [exact Hne|]. apply Hx. right. left. exact Hne.
Defined.

(** A gate that starts, takes its identity over, tries the next network and is
    asked for a token. *)
Definition told_example : tollgate_config_t :=
  (@process_relay_message cundef_zero jval (printed_json parse_forged print_forged) (λ v, v) (λ l, l)
     (list Z) Some (λ _ _, None) (λ _, f64_zero) 5000 7 (λ _, inr "cashuA"%string) (λ _ _, None)
     identity_example 0 "event" session_boot
     (tollgate_config_get_next_wifi (tollgate_config_derive_unique identity_example config_example)).2).1.1.


Definition free_params : jval := JObj [("price_per_step"%string, JInt 0)].

Lemma price_zero_stops_sales_witness :
  rs_success (@mcp_handle_set_config jval (tree_json (λ _, Some free_params)) "{}" config_example).1.1
    = true.
Proof.
  apply (@price_zero_stops_sales mac_none cundef_zero jval (tree_json (λ _, Some free_params)) "{}" free_params
    (JInt 0) config_example (λ _ _, None) (λ l, l) (λ _ _, None) None 0 "").
  - reflexivity.
  - reflexivity.
  - eexists. reflexivity.
  - vm_compute. reflexivity.
Defined.
