(* ===== verification/Sync.v ===== *)
(** The synchronisation with other relays (main/sync_manager.c): its WebSocket
    client, the two kinds of rounds, and the task that runs them. *)

From S2P Require Import Prelude CStr F64 Json Dns Firewall Session Config RateLimiter SubManager Storage Relay.
From S2P Require Import RelaySelector WebSocket.
From stdpp Require Import gmap.
#[local] Open Scope Z_scope.

(** * The connection *)

(** The address of [ws_connect], which takes any scheme. *)
Definition sync_address (wss_url : string) : string * Z * string :=
  url_address (if has_prefix "wss://" wss_url then str_drop 6 wss_url else wss_url).

(** The frame [ws_send_text] writes, without a mask. *)
Definition plain_text_frame (data : string) : list Z :=
  0x81 :: frame_length (Z.of_nat (String.length data)) 0 ++ str_bytes data.

(** What arrives on the connection: an error, or the bytes of a record, of which a
    read leaves what it has no room for.  After the last one the relay has closed
    the connection. *)
Definition tls_answer : Type := option (list Z).

(** [esp_tls_conn_read]: the result, the buffer after it, and what is left. *)
Definition tls_read (n : nat) (dst : list Z) (answers : list tls_answer) : Z * list Z * list tls_answer :=
  match answers with
  | [] => (0, dst, [])
  | None :: rest => (-1, dst, rest)
  | Some bs :: rest =>
      let got := take n bs in
      (Z.of_nat (length got), got ++ drop (length got) dst,
       if (n <? length bs)%nat then Some (drop n bs) :: rest else rest)
  end.

(** [payload_len = (payload_len << 8) | b] for each byte, in an [int]. *)
Definition int_of_bytes (l : list Z) : Z := fold_left (λ acc b, i32 (Z.lor (Z.shiftl acc 8) b)) l 0.

Section frames.
(** What is in a local array that is not initialised. *)
Variable uninit : list Z.

(** The length of the payload: result of the reads behind the header. *)
Definition read_payload_len (b1 : Z) (answers : list tls_answer) : Z * list tls_answer :=
  let payload_len := Z.land b1 0x7f in
  if payload_len =? 126 then
    let '(_, ext, rest) := tls_read 2 (take 2 uninit) answers in (int_of_bytes ext, rest)
  else if payload_len =? 127 then
    let '(_, ext, rest) := tls_read 8 (take 8 uninit) answers in (int_of_bytes ext, rest)
  else (payload_len, answers).

(** The mask and the payload: result, buffer and what is left; [None] when the
    terminator is written outside the buffer. *)
Definition read_payload (b1 announced : Z) (buf : list Z) (answers : list tls_answer)
  : option (Z * list Z * list tls_answer) :=
  let '(mask, rest) :=
    if Z.testbit b1 7
    then let '(_, m, rest) := tls_read 4 (replicate 4 0) answers in (m, rest)
    else (replicate 4 0, answers) in
  let room := Z.of_nat (length buf) - 1 in
  let payload_len := if room <? announced then room else announced in
  if payload_len <? 0 then None else
  let n := Z.to_nat payload_len in
  let '(_, buf1, rest1) := tls_read n buf rest in
  Some (payload_len, xor_mask mask (take n buf1) ++ 0 :: drop (S n) buf1, rest1).

Definition ws_read_text (buf : list Z) (answers : list tls_answer)
  : option (Z * list Z * list tls_answer) :=
  let '(rlen, header, a1) := tls_read 2 (take 2 uninit) answers in
  if rlen <? 2 then Some (-1, buf, a1) else
  if Z.land (header !!! 0%nat) 0x0f =? 0x08 then Some (-1, buf, a1) else
  let '(announced, a2) := read_payload_len (header !!! 1%nat) a1 in
  read_payload (header !!! 1%nat) announced buf a2.
End frames.

(** * The manager *)

(** [None]: no selector was given. *)
Record sync_manager_t := mk_sync {
  sy_selector : option relay_selector_t;
  sy_running : bool;
  sy_sync_in_progress : bool;
  sy_last_negentropy_sync : Z;
  sy_last_reqdiff_sync : Z
}.

Definition sync_manager_init (selector : option relay_selector_t) : sync_manager_t :=
  mk_sync selector false false 0 0.
Definition sync_manager_start (m : sync_manager_t) : sync_manager_t :=
  mk_sync (sy_selector m) true (sy_sync_in_progress m) (sy_last_negentropy_sync m) (sy_last_reqdiff_sync m).
Definition sync_manager_stop (m : sync_manager_t) : sync_manager_t :=
  mk_sync (sy_selector m) false (sy_sync_in_progress m) (sy_last_negentropy_sync m) (sy_last_reqdiff_sync m).
Definition with_selector (s : relay_selector_t) (m : sync_manager_t) : sync_manager_t :=
  mk_sync (Some s) (sy_running m) (sy_sync_in_progress m) (sy_last_negentropy_sync m) (sy_last_reqdiff_sync m).
Definition with_negentropy_sync (now : Z) (m : sync_manager_t) : sync_manager_t :=
  mk_sync (sy_selector m) (sy_running m) false (u32 now) (sy_last_reqdiff_sync m).
Definition with_reqdiff_sync (now : Z) (m : sync_manager_t) : sync_manager_t :=
  mk_sync (sy_selector m) (sy_running m) (sy_sync_in_progress m) (sy_last_negentropy_sync m) (u32 now).

(** * Rounds *)

Section rounds.
Context `{CUndef} `{CJson J}.
Variable cJSON_Duplicate : J → jval.
Variable nvs_open_ok : bool.
Variable fopen_ok : string → bool.
Variable qsort : (relay_info_t → relay_info_t → Z) → list relay_info_t → list relay_info_t.
Variable uninit : list Z.
(** [ws_connect] from host, port and path: the TLS connection and the answer to
    the upgrade request. *)
Variable connect : string * Z * string → esp_err_t.

Definition get_event_ids_from_storage (now : Z) (ctx : relay_ctx_t) : list string :=
  match storage_query_events_json now (-1) None 5000 (rc_storage ctx) with
  | Some results => omap (λ text, obj ← cJSON_Parse text; get_str obj "id") results
  | None => []
  end.

(** Whether an event with this [id] is stored already; [None] when [strcmp] reads
    through NULL. *)
Definition is_local (local_ids : list string) (id_item : option J) : option bool :=
  match id_item, local_ids with
  | None, _ | _, [] => Some false
  | Some item, _ => (λ i, bool_decide (i ∈ local_ids)) <$> str_of item
  end.

(** A text of the relay: whether the round ends, the relay's tables, what goes to
    its subscribers. *)
Definition sync_message (now : Z) (local_ids : list string) (text : string) (ctx : relay_ctx_t)
  : option (bool * relay_ctx_t * list sent) :=
  match cJSON_Parse text with
  | None => Some (false, ctx, [])
  | Some arr =>
      match cJSON_GetArrayItem arr 0 ≫= str_of with
      | None => Some (false, ctx, [])
      | Some cmd =>
          if bool_decide (cmd = "EVENT"%string) then
            match cJSON_GetArrayItem arr 1 with
            | None => Some (false, ctx, [])
            | Some event_obj =>
                let event_json := cJSON_PrintUnformatted (cJSON_Duplicate event_obj) in
                match is_local local_ids (cJSON_GetObjectItem event_obj "id") with
                | None => None
                | Some true => Some (false, ctx, [])
                | Some false =>
                    '(_, ctx', out) ← local_relay_publish nvs_open_ok fopen_ok now event_json ctx;
                    Some (false, ctx', out)
                end
            end
          else Some (bool_decide (cmd = "EOSE"%string), ctx, [])
      end
  end.

(** The loop of reads.  Outer [None]: out of fuel; inner: out of bounds. *)
Fixpoint sync_loop (fuel : nat) (now : Z) (local_ids : list string) (resp : list Z)
    (answers : list tls_answer) (ctx : relay_ctx_t) : option (option (relay_ctx_t * list sent)) :=
  match fuel with
  | O => None
  | S fuel' =>
      match ws_read_text uninit resp answers with
      | None => Some None
      | Some (rlen, resp', rest) =>
          if rlen <? 0 then Some (Some (ctx, [])) else
          match sync_message now local_ids (cstr resp') ctx with
          | None => Some None
          | Some (true, ctx', out) => Some (Some (ctx', out))
          | Some (false, ctx', out) =>
              option_map (option_map (λ '(c, out'), (c, out ++ out')))
                (sync_loop fuel' now local_ids resp' rest ctx')
          end
      end
  end.

(** Result, manager, relay, frames sent to the other relay, texts sent to the
    subscribers of this one. *)
Definition round : Type := esp_err_t * sync_manager_t * relay_ctx_t * list (list Z) * list sent.

Definition close_frame : list Z := [0x88; 0x00].

Definition fallback_request (npub : string) : string :=
  str_take 511
    ("[" +:+ dq "REQ" +:+ "," +:+ dq "sync_fallback" +:+ ",{" +:+ dq "authors" +:+ ":[" +:+ dq npub
     +:+ "]," +:+ dq "limit" +:+ ":500}]")%string.

(** [now_s]: seconds since start-up; [now]: the clock of the store; [resp]: the
    8192 bytes of the local buffer. *)
Definition sync_manager_do_reqdiff_sync (fuel : nat) (now_s now : Z) (npub : string) (resp : list Z)
    (answers : list tls_answer) (mgr : sync_manager_t) (ctx : relay_ctx_t) : option (option round) :=
  match sy_selector mgr with
  | None => Some (Some (ESP_ERR_INVALID_STATE, mgr, ctx, [], []))
  | Some sel =>
      match relay_selector_get_fallback sel 0 with
      | None => Some (Some (ESP_ERR_NOT_FOUND, mgr, ctx, [], []))
      | Some fallback =>
          if negb (rl_alive fallback) then Some (Some (ESP_ERR_NOT_FOUND, mgr, ctx, [], [])) else
          let err := connect (sync_address (rl_url fallback)) in
          if negb (bool_decide (err = ESP_OK)) then
            Some (Some (err, with_selector (relay_selector_report_disconnect qsort (rl_url fallback) sel) mgr,
                        ctx, [], []))
          else
            option_map (option_map (λ '(ctx', out),
                (ESP_OK, with_reqdiff_sync now_s mgr, ctx',
                 [plain_text_frame (fallback_request npub); close_frame], out)))
              (sync_loop fuel now (get_event_ids_from_storage now ctx) resp answers ctx)
      end
  end.

Definition in_progress (b : bool) (m : sync_manager_t) : sync_manager_t :=
  mk_sync (sy_selector m) (sy_running m) b (sy_last_negentropy_sync m) (sy_last_reqdiff_sync m).

Definition diff_request (local_ids : list string) : string :=
  str_take 255
    ("[" +:+ dq "REQ" +:+ "," +:+ dq "sync_diff" +:+ ","
     +:+ cJSON_PrintUnformatted (JObj [("ids"%string, JArr (JStr <$> local_ids))]) +:+ "]")%string.

(** The lock is taken around each access; [None]: the answer is read out of
    bounds. *)
Definition sync_manager_do_negentropy_sync (now_s now : Z) (resp : list Z) (answers : list tls_answer)
    (mgr : sync_manager_t) (ctx : relay_ctx_t) : option (esp_err_t * sync_manager_t * list (list Z)) :=
  match sy_selector mgr with
  | None => Some (ESP_ERR_INVALID_STATE, mgr, [])
  | Some sel =>
      match relay_selector_get_primary sel with
      | None => Some (ESP_ERR_NOT_FOUND, in_progress false mgr, [])
      | Some primary =>
          if negb (rl_alive primary) then Some (ESP_ERR_NOT_FOUND, in_progress false mgr, []) else
          match get_event_ids_from_storage now ctx with
          | [] => Some (ESP_OK, in_progress false mgr, [])
          | local_ids =>
              let err := connect (sync_address (rl_url primary)) in
              if negb (bool_decide (err = ESP_OK)) then
                Some (err, in_progress false
                             (with_selector (relay_selector_report_disconnect qsort (rl_url primary) sel) mgr), [])
              else
                _ ← ws_read_text uninit resp answers;
                Some (ESP_OK, with_negentropy_sync now_s mgr,
                      [plain_text_frame (diff_request local_ids); close_frame])
          end
      end
  end.
End rounds.

(** * The task *)

(** The times of the last rounds in the task's own variables. *)
Record sync_times := mk_times { ti_negentropy : Z; ti_reqdiff : Z; ti_reprobe : Z }.

Definition interval (configured fallback : Z) : Z := if 0 <? configured then configured else fallback.

(** What a wake-up of the task meets: the clocks, the answers to the probes, and
    the records of the two connections. *)
Record wake_up := mk_wake {
  wk_now_s : Z;
  wk_now : Z;
  wk_http : nat → string → probe_answer;
  wk_negentropy : list tls_answer;
  wk_reqdiff : list tls_answer
}.

(** How many reads a round can take. *)
Definition stream_size (answers : list tls_answer) : nat :=
  sum_list_with (λ a, S (length (default [] a))) answers.

Section task.
Context `{CUndef} `{CJson J}.
Variable cJSON_Duplicate : J → jval.
Variable nvs_open_ok : bool.
Variable fopen_ok : string → bool.
Variable qsort : (relay_info_t → relay_info_t → Z) → list relay_info_t → list relay_info_t.
Variable uninit : list Z.
Variable connect : string * Z * string → esp_err_t.
Variable cfg : tollgate_config_t.
(** The 8192 bytes of [resp], a local variable. *)
Variable resp : list Z.

Definition probe (w : wake_up) (mgr : sync_manager_t) : option sync_manager_t :=
  sel ← sy_selector mgr;
  Some (with_selector (relay_selector_probe_all qsort (wk_now_s w) (wk_http w) sel) mgr).

Definition negentropy_round (w : wake_up) (mgr : sync_manager_t) (ctx : relay_ctx_t) :=
  sync_manager_do_negentropy_sync qsort uninit connect (wk_now_s w) (wk_now w) resp (wk_negentropy w) mgr ctx.

Definition reqdiff_round (w : wake_up) (mgr : sync_manager_t) (ctx : relay_ctx_t) : option round :=
  mjoin (sync_manager_do_reqdiff_sync cJSON_Duplicate nvs_open_ok fopen_ok qsort uninit connect
           (S (stream_size (wk_reqdiff w))) (wk_now_s w) (wk_now w) (cf_npub cfg) resp (wk_reqdiff w) mgr ctx).

(** The start of [sync_task], and a turn of its loop. *)
Definition sync_task_start (w : wake_up) (mgr : sync_manager_t) (ctx : relay_ctx_t)
  : option (sync_manager_t * sync_times) :=
  mgr1 ← probe w mgr;
  '(_, mgr2, _) ← negentropy_round w mgr1 ctx;
  Some (mgr2, mk_times 0 0 (wk_now_s w)).

Definition sync_task_turn (w : wake_up) (st : sync_manager_t * sync_times * relay_ctx_t)
  : option (sync_manager_t * sync_times * relay_ctx_t) :=
  let '(mgr, t, ctx) := st in
  if negb (sy_running mgr) then Some st else
  let now := wk_now_s w in
  '(mgr1, reprobe) ←
    (if 21600 <=? now - ti_reprobe t then (λ m, (m, now)) <$> probe w mgr else Some (mgr, ti_reprobe t));
  '(mgr2, negentropy) ←
    (if interval (cf_nostr_sync_interval_s cfg) 1800 <=? now - ti_negentropy t then
       '(err, m, _) ← negentropy_round w mgr1 ctx;
       Some (m, if bool_decide (err = ESP_OK) then now else ti_negentropy t)
     else Some (mgr1, ti_negentropy t));
  '(mgr3, reqdiff, ctx3) ←
    (if interval (cf_nostr_fallback_sync_interval_s cfg) 21600 <=? now - ti_reqdiff t then
       '(err, m, c, _, _) ← reqdiff_round w mgr2 ctx;
       Some (m, if bool_decide (err = ESP_OK) then now else ti_reqdiff t, c)
     else Some (mgr2, ti_reqdiff t, ctx));
  Some (mgr3, mk_times negentropy reqdiff reprobe, ctx3).
End task.

(** * Reading *)

Lemma tls_read_size n dst answers :
  let '(r, _, rest) := tls_read n dst answers in
  (stream_size rest ≤ stream_size answers)%nat ∧ (0 < r → (stream_size rest < stream_size answers)%nat).
Proof.
  destruct answers as [|[bs|] rest]; cbn [tls_read]; [lia| |].
  2: { change (stream_size (None :: rest)) with (1 + stream_size rest)%nat. lia. }
  change (stream_size (Some bs :: rest)) with (S (length bs) + stream_size rest)%nat.
  rewrite length_take. destruct (Nat.ltb_spec n (length bs)); [|lia].
  change (stream_size (Some (drop n bs) :: rest)) with (S (length (drop n bs)) + stream_size rest)%nat.
  rewrite length_drop. lia.
Qed.

Lemma tls_read_length n dst answers :
  (n ≤ length dst)%nat → length (tls_read n dst answers).1.2 = length dst.
Proof.
  intros Hn. destruct answers as [|[bs|] rest]; [done| |done]. cbn [tls_read fst snd].
  rewrite length_app, length_drop, length_take. lia.
Qed.

Lemma read_payload_len_size uninit b1 answers :
  (stream_size (read_payload_len uninit b1 answers).2 ≤ stream_size answers)%nat.
Proof.
  unfold read_payload_len. cbv zeta. case_if; [|case_if; [|done]].
  - pose proof (tls_read_size 2 (take 2 uninit) answers) as Hr.
    destruct (tls_read 2 (take 2 uninit) answers) as [[? ?] ?]. tauto.
  - pose proof (tls_read_size 8 (take 8 uninit) answers) as Hr.
    destruct (tls_read 8 (take 8 uninit) answers) as [[? ?] ?]. tauto.
Qed.

Lemma read_payload_size b1 announced buf answers r buf' rest :
  read_payload b1 announced buf answers = Some (r, buf', rest) →
  length buf' = length buf ∧ (stream_size rest ≤ stream_size answers)%nat.
Proof.
  unfold read_payload. set (masked := if Z.testbit b1 7 then _ else _).
  assert (stream_size masked.2 ≤ stream_size answers)%nat as Hs.
  { unfold masked. pose proof (tls_read_size 4 (replicate 4 0) answers) as Hr.
    destruct (Z.testbit b1 7); [|done]. destruct (tls_read 4 _ answers) as [[? m] a3]. tauto. }
  destruct masked as [mask a3]. cbn [snd] in Hs. cbv zeta.
  set (payload_len := if _ <? announced then _ else _).
  destruct (payload_len <? 0) eqn:Hneg; [done|]. bool_hyps.
  assert (payload_len <= Z.of_nat (length buf) - 1) as Hroom by (unfold payload_len; case_match; bool_hyps; lia).
  pose proof (tls_read_size (Z.to_nat payload_len) buf a3) as Hs4.
  pose proof (tls_read_length (Z.to_nat payload_len) buf a3 ltac:(lia)) as Hl.
  destruct (tls_read (Z.to_nat payload_len) buf a3) as [[? buf1] a4]. cbn [fst snd] in Hl.
  intros [= <- <- <-]. split; [|lia].
  rewrite length_app, length_xor_mask, length_take, length_cons, length_drop. lia.
Qed.

(** The payload is read outside the buffer when its length is negative. *)
Lemma read_payload_defined b1 announced buf answers :
  (1 ≤ length buf)%nat → is_Some (read_payload b1 announced buf answers) ↔ 0 <= announced.
Proof.
  intros Hbuf. unfold read_payload. destruct (if Z.testbit b1 7 then _ else _) as [mask a3]. cbv zeta.
  assert ((if Z.of_nat (length buf) - 1 <? announced then Z.of_nat (length buf) - 1 else announced) <? 0
          = (announced <? 0)) as ->.
  { destruct (Z.ltb_spec (Z.of_nat (length buf) - 1) announced); [|done].
    by rewrite !(proj2 (Z.ltb_ge _ 0)) by lia. }
  destruct (Z.ltb_spec announced 0) as [H2|H2].
  - split; [intros [? [=]]|lia].
  - destruct (tls_read _ _ _) as [[? ?] ?]. split; [lia|eauto].
Qed.

(** A read that gives a text takes something off the stream, and keeps the size of
    the buffer. *)
Lemma ws_read_text_size uninit buf answers r buf' rest :
  ws_read_text uninit buf answers = Some (r, buf', rest) →
  length buf' = length buf ∧ (0 <= r → (stream_size rest < stream_size answers)%nat).
Proof.
  unfold ws_read_text. pose proof (tls_read_size 2 (take 2 uninit) answers) as Hs1.
  destruct (tls_read 2 (take 2 uninit) answers) as [[rlen header] a1]. destruct (rlen <? 2) eqn:Hrlen.
  { intros [= <- <- <-]. split; [done|lia]. }
  case_if. { intros [= <- <- <-]. split; [done|lia]. }
  bool_hyps. pose proof (read_payload_len_size uninit (header !!! 1%nat) a1) as Hs2.
  destruct (read_payload_len uninit (header !!! 1%nat) a1) as [announced a2]. cbn [snd] in Hs2.
  intros [? ?]%read_payload_size. split; [done|lia].
Qed.

(** What is left of a record. *)
Definition push (more : list Z) (rest : list tls_answer) : list tls_answer :=
  match more with [] => rest | _ => Some more :: rest end.

Lemma tls_read_record n dst l more rest :
  length l = n → tls_read n dst (Some (l ++ more) :: rest) = (Z.of_nat n, l ++ drop n dst, push more rest).
Proof.
  intros <-. unfold tls_read. rewrite take_app_length. rewrite length_app. f_equal.
  destruct more as [|x more]; [by rewrite (proj2 (Nat.ltb_ge _ _)) by (cbn; lia)|].
  rewrite (proj2 (Nat.ltb_lt _ _)) by (cbn; lia). by rewrite drop_app_length.
Qed.

Lemma i32_cong a b : a mod 2 ^ 32 = b mod 2 ^ 32 → i32 a = i32 b.
Proof.
  intros Hab. unfold i32, swrap. rewrite (Z.add_mod a), (Z.add_mod b), Hab by (pow_consts; lia). done.
Qed.

Lemma i32_mod a : i32 a mod 2 ^ 32 = a mod 2 ^ 32.
Proof.
  unfold i32, swrap. rewrite Zminus_mod_idemp_l. f_equal. lia.
Qed.

Lemma int_of_bytes_be l : Forall is_u8 l → int_of_bytes l = i32 (get_be l).
Proof.
  intros Hl. unfold int_of_bytes, get_be. change 0 with (i32 0) at 1.
  generalize 0 as a. induction Hl as [|b l Hb _ IH]; intros a; [done|]. cbn [fold_left].
  assert (i32 (Z.lor (Z.shiftl (i32 a) 8) b) = i32 (a * 256 + b)) as ->; [|apply IH].
  assert (Z.lor (Z.shiftl (i32 a) 8) b = i32 a * 256 + b) as ->.
  { unfold is_u8 in Hb. apply (lor_shiftl_add _ b 8); lia. }
  apply i32_cong. rewrite (Z.add_mod (_ * 256)), (Z.mul_mod (i32 a)), i32_mod by (pow_consts; lia).
  by rewrite <- Z.mul_mod, <- Z.add_mod by (pow_consts; lia).
Qed.

(** The length that was written is the length read. *)
Lemma read_frame_length uninit n more rest :
  0 <= n < 2 ^ 31 →
  ∃ b1 ext, frame_length n 0 = b1 :: ext ∧ Z.testbit b1 7 = false ∧
    read_payload_len uninit b1 (push (ext ++ more) rest) = (n, push more rest).
Proof.
  intros Hn. unfold frame_length, read_payload_len.
  destruct (n <=? 125) eqn:H1; [|destruct (n <=? 65535) eqn:H2]; bool_hyps; do 2 eexists; (split; [reflexivity|]).
  - destruct (length_byte 0 n (or_intror eq_refl) ltac:(lia)) as [-> Ht].
    rewrite (proj2 (Z.eqb_neq n 126)), (proj2 (Z.eqb_neq n 127)) by lia. by split.
  - destruct (length_byte 0 126 (or_intror eq_refl) ltac:(lia)) as [-> Ht]. split; [done|]. cbn [Z.eqb Pos.eqb].
    pose proof (tls_read_record 2 (take 2 uninit) [u8 (Z.shiftr n 8); u8 n] more rest eq_refl) as Hr.
    change (push ([_; _] ++ more) rest) with (Some ([u8 (Z.shiftr n 8); u8 n] ++ more) :: rest). rewrite Hr.
    rewrite drop_ge, app_nil_r by (rewrite length_take; lia). f_equal.
    rewrite int_of_bytes_be by (repeat constructor; apply u8_range). unfold get_be. cbn [foldl].
    assert ((0 * 256 + u8 (Z.shiftr n 8)) * 256 + u8 n = n) as ->.
    { unfold u8. rewrite Z.shiftr_div_pow2 by lia. zlia. }
    apply i32_small. lia.
  - destruct (length_byte 0 127 (or_intror eq_refl) ltac:(lia)) as [-> Ht]. split; [done|]. cbn [Z.eqb Pos.eqb].
    pose proof (tls_read_record 8 (take 8 uninit) (put_be 8 n) more rest eq_refl) as Hr.
    change (push (put_be 8 n ++ more) rest) with (Some (put_be 8 n ++ more) :: rest). rewrite Hr.
    rewrite drop_ge, app_nil_r by (rewrite length_take; lia). f_equal.
    rewrite int_of_bytes_be by apply put_be_bytes. rewrite get_put_be.
    rewrite Z.mod_small by (change (256 ^ Z.of_nat 8) with (2 ^ 64); pow_consts; lia). apply i32_small. lia.
Qed.

Lemma xor_mask_zero l : xor_mask (replicate 4 0) l = l.
Proof.
  unfold xor_mask. apply list_eq. intros i. rewrite list_lookup_imap.
  assert (replicate 4 0 !!! (i mod 4)%nat = 0) as Hz
    by (apply lookup_total_replicate_2, Nat.mod_upper_bound; lia).
  destruct (l !! i) as [b|]; [|done]. cbn [fmap option_fmap option_map]. by rewrite Hz, Z.lxor_0_r.
Qed.

Lemma cstr_str_bytes_nul s l : no_nul s → cstr (str_bytes s ++ 0 :: l) = s.
Proof.
  unfold no_nul. induction s as [|c s IH]; [done|]. cbn [str_bytes app cstr]. intros [Hc Hs]%Forall_cons.
  rewrite (proj2 (Z.eqb_neq _ _)) by done. by rewrite IH, chr_ord.
Qed.

(** What a relay sends is what is read.  A text that is not empty and of any length that fits the
    buffer, sent as a frame without a mask, is read as that text - however the
    record goes on and whatever was in the buffer - and the reader stops exactly
    behind the frame. *)
Theorem relay_text_roundtrip uninit buf msg more rest :
  no_nul msg → (0 < String.length msg < length buf)%nat → Z.of_nat (String.length msg) < 2 ^ 31 →
  ∃ buf', ws_read_text uninit buf (Some (plain_text_frame msg ++ more) :: rest) =
            Some (Z.of_nat (String.length msg), buf', push more rest) ∧
          cstr buf' = msg ∧ length buf' = length buf.
Proof.
  intros Hn Hl H31. set (n := Z.of_nat (String.length msg)) in *.
  destruct (read_frame_length uninit n (str_bytes msg ++ more) rest ltac:(lia)) as (b1 & ext & Hf & Ht & Hlen).
  unfold plain_text_frame. fold n. rewrite Hf.
  unfold ws_read_text.
  pose proof (tls_read_record 2 (take 2 uninit) [0x81; b1] (ext ++ str_bytes msg ++ more) rest eq_refl) as Hhdr.
  rewrite !app_comm_cons, <- !app_assoc in *. cbn [app] in Hhdr |- *. rewrite Hhdr.
  rewrite drop_ge by (rewrite length_take; lia).
  change (Z.of_nat 2 <? 2) with false. cbn [lookup_total list_lookup_total]. change (Z.land 0x81 0x0f =? 0x08) with false.
  cbv iota beta. rewrite Hlen. unfold read_payload. rewrite Ht.
  rewrite (proj2 (Z.ltb_ge _ n)) by lia. rewrite (proj2 (Z.ltb_ge n 0)) by lia.
  assert (push (str_bytes msg ++ more) rest = Some (str_bytes msg ++ more) :: rest) as ->
    by (destruct msg; [cbn in Hl; lia|done]).
  rewrite (tls_read_record (Z.to_nat n) buf (str_bytes msg) more rest) by (rewrite length_str_bytes; lia).
  eexists. split; [reflexivity|]. rewrite take_app_le, take_ge, xor_mask_zero by (rewrite length_str_bytes; lia).
  split; [apply cstr_str_bytes_nul; done|].
  rewrite length_app, length_cons, length_drop, length_app, length_drop, length_str_bytes. lia.
Qed.

(** When a frame is read out of bounds.  With a buffer of the size used, the
    terminator is written outside it exactly when the frame announces a length of 64
    bits whose lower half has its highest bit set: the length is kept in an [int]
    and only compared from above. *)
Theorem long_frame_overruns uninit buf b0 b1 ext more rest :
  (1 ≤ length buf)%nat → Z.land b0 0x0f ≠ 0x08 → Forall is_u8 ext → length ext = 8%nat →
  (Z.land b1 0x7f = 127 →
   ws_read_text uninit buf (Some ([b0; b1] ++ ext ++ more) :: rest) = None ↔ 2 ^ 31 <= get_be ext mod 2 ^ 32) ∧
  (Z.land b1 0x7f ≠ 127 →
   is_Some (ws_read_text uninit buf (Some ([b0; b1] ++ ext ++ more) :: rest))).
Proof.
  intros Hbuf Hop Hext Hlen. unfold ws_read_text. rewrite (tls_read_record 2 _ [b0; b1]) by done.
  rewrite drop_ge by (rewrite length_take; lia). change (Z.of_nat 2 <? 2) with false.
  cbn [app lookup_total list_lookup_total]. rewrite (proj2 (Z.eqb_neq _ 8)) by done.
  assert (push (ext ++ more) rest = Some (ext ++ more) :: rest) as -> by (by destruct ext).
  split.
  - intros H127. unfold read_payload_len. rewrite H127. cbn [Z.eqb Pos.eqb].
    rewrite (tls_read_record 8 _ ext) by done. rewrite drop_ge, app_nil_r by (rewrite length_take; lia).
    rewrite int_of_bytes_be, eq_None_not_Some, read_payload_defined by done.
    unfold i32, swrap. change (32 - 1) with 31. zlia.
  - intros H127. unfold read_payload_len. rewrite (proj2 (Z.eqb_neq _ 127)) by done. cbv zeta.
    destruct (Z.land b1 127 =? 126).
    + destruct ext as [|x [|y ext]]; [done..|]. cbn [app].
      rewrite (tls_read_record 2 _ [x; y] (ext ++ more)) by done. apply read_payload_defined; [done|].
      rewrite drop_ge, app_nil_r by (rewrite length_take; lia). apply Forall_cons in Hext as [Hx Hext].
      apply Forall_cons in Hext as [Hy _].
      rewrite int_of_bytes_be by (apply Forall_cons; split; [done|by apply Forall_singleton]).
      unfold get_be, is_u8 in *. cbn [foldl]. rewrite i32_small by (pow_consts; lia). lia.
    + apply read_payload_defined; [done|]. change 127 with (Z.ones 7). rewrite Z.land_ones by lia.
      apply Z.mod_pos_bound. lia.
Qed.

(** * What a round brings *)

Section learning.
Context `{CUndef} (parse : string → option jval) (print : jval → string).
Context (nvs_ok : bool) (fopen_ok : string → bool) (uninit : list Z).
#[local] Instance J_sync : CJson jval := printed_json parse print.
Notation loop := (sync_loop (λ j, j) nvs_ok fopen_ok uninit).


(** The name of the subscription, as text. *)
Definition echo : string := dq "sync_fallback".

(** What the store holds comes from [e], or is that name. *)
Definition only_echo (e e' : storage_engine_t) : Prop :=
  ∀ path text, st_files e' !! path = Some text → st_files e !! path = Some text ∨ text = echo.

Lemma save_index_files e : st_files (save_index_to_nvs nvs_ok e) = st_files e.
Proof. unfold save_index_to_nvs. by repeat case_match. Qed.

Lemma save_event_files now e0 e :
  only_echo e0 e → only_echo e0 (storage_save_event_json nvs_ok fopen_ok now echo e).2.
Proof.
  intros He. unfold storage_save_event_json. case_if; [done|].
  destruct (parse_event_meta echo) as [[[id pubkey] created_at] kind]. repeat (case_if; [done|]). cbn [snd].
  set (e1 := mk_storage _ _ _ _ _ _ _).
  assert (only_echo e0 e1) as H1.
  { intros path t. unfold e1. cbn [st_files]. rewrite lookup_insert_Some. intros [[_ <-]|[_ Ht]]; [by right|].
    by apply He. }
  case_if; [|done]. intros path t. rewrite save_index_files. apply H1.
Qed.

(** What the other relay and cJSON do: an EVENT message names the subscription
    before the event, and that name is printed and parsed as a string. *)
Record well_behaved : Prop := {
  event_names_subscription text arr l :
    parse text = Some arr → tree_items arr = JStr "EVENT" :: l → head l = Some (JStr "sync_fallback");
  name_printed : print (JStr "sync_fallback") = echo;
  name_parsed : parse echo = Some (JStr "sync_fallback")
}.

Lemma publish_echo now ctx :
  well_behaved →
  ∃ err ctx', local_relay_publish nvs_ok fopen_ok now echo ctx = Some (err, ctx', []) ∧
    ∀ e0, only_echo e0 (rc_storage ctx) → only_echo e0 (rc_storage ctx').
Proof.
  intros Hw. unfold local_relay_publish. pose proof (λ e0, save_event_files now e0 (rc_storage ctx)) as Hs.
  destruct (storage_save_event_json nvs_ok fopen_ok now echo (rc_storage ctx)) as [err s1].
  cbn [snd] in Hs. destruct err; try (do 2 eexists; split; [done|]; first [exact Hs|by intros]).
  cbn [cJSON_Parse J_sync printed_json]. rewrite (name_parsed Hw). do 2 eexists. split; [reflexivity|]. exact Hs.
Qed.

Lemma sync_message_echo now ids text ctx stop ctx' out :
  well_behaved → sync_message (λ j, j) nvs_ok fopen_ok now ids text ctx = Some (stop, ctx', out) →
  out = [] ∧ ∀ e0, only_echo e0 (rc_storage ctx) → only_echo e0 (rc_storage ctx').
Proof.
  intros Hw. unfold sync_message. cbn [cJSON_Parse J_sync printed_json].
  destruct (parse text) as [arr|] eqn:Hp; [|by intros [= <- <- <-]].
  destruct (cJSON_GetArrayItem arr 0 ≫= str_of) as [cmd|] eqn:Hcmd; [|by intros [= <- <- <-]].
  case_bool_decide as Hev; [|by intros [= <- <- <-]]. subst cmd.
  cbn [cJSON_GetArrayItem J_sync printed_json tree_json] in *.
  destruct (tree_items arr) as [|x l] eqn:Hl; [done|]. cbn [lookup list_lookup mbind option_bind str_of] in Hcmd.
  destruct x as [| | |s| |]; try done. injection Hcmd as ->.
  pose proof (event_names_subscription Hw text arr l Hp Hl) as Hhead. destruct l as [|y l]; [done|].
  injection Hhead as ->. cbn [lookup list_lookup cJSON_GetObjectItem is_local].
  cbn [cJSON_PrintUnformatted J_sync printed_json]. rewrite (name_printed Hw).
  destruct (publish_echo now ctx Hw) as (err & ctx1 & Hpub & Hctx). cbn [mbind option_bind].
  rewrite Hpub. by intros [= <- <- <-].
Qed.

(** A round brings nothing.  The event is looked for where a relay puts the name
    of the subscription.  So whatever events the other relay delivers, a round adds
    no event to the store - at most the name of the subscription as a text of its
    own - and sends nothing to the subscribers, and yet counts as a success. *)
Theorem sync_round_brings_nothing qsort connect fuel now_s now npub resp answers mgr ctx err mgr' ctx' frames out :
  well_behaved →
  sync_manager_do_reqdiff_sync (λ j, j) nvs_ok fopen_ok qsort uninit connect fuel now_s now npub resp answers
    mgr ctx = Some (Some (err, mgr', ctx', frames, out)) →
  out = [] ∧ only_echo (rc_storage ctx) (rc_storage ctx') ∧
  (err = ESP_OK → sy_last_reqdiff_sync mgr' = u32 now_s).
Proof.
  intros Hw. assert (∀ fuel ids r a c c' o,
    loop fuel now ids r a c = Some (Some (c', o)) →
    o = [] ∧ ∀ e0, only_echo e0 (rc_storage c) → only_echo e0 (rc_storage c')) as Hloop.
  { intros f ids. induction f as [|f IH]; intros r a c c' o; [done|]. cbn [sync_loop].
    destruct (ws_read_text uninit r a) as [[[rlen r'] a']|]; [|done].
    destruct (rlen <? 0); [by intros [= <- <-]|].
    destruct (sync_message _ _ _ _ _ _ _) as [[[stop c1] o1]|] eqn:Hm; [|done].
    apply sync_message_echo in Hm as [-> H1]; [|done].
    destruct stop; [by intros [= <- <-]|].
    destruct (loop f now ids r' a' c1) as [[[c2 o2]|]|] eqn:Hl; [|done..]. cbn. intros [= <- <-].
    apply IH in Hl as [-> H2]. split; [done|]. auto. }
  assert (only_echo (rc_storage ctx) (rc_storage ctx)) as Hrefl by (by left).
  unfold sync_manager_do_reqdiff_sync. destruct (sy_selector mgr) as [sel|]; [|by intros [= <- <- <- <- <-]].
  destruct (relay_selector_get_fallback sel 0) as [fb|]; [|by intros [= <- <- <- <- <-]].
  destruct (negb (rl_alive fb)); [by intros [= <- <- <- <- <-]|].
  destruct (bool_decide (connect _ = ESP_OK)) eqn:Hc; cbn [negb].
  - destruct (loop fuel now _ resp answers ctx) as [[[c o]|]|] eqn:Hl; [|done..]. cbn.
    intros [= <- <- <- <- <-]. apply Hloop in Hl as [-> Hx]. split_and!; [done|by apply Hx|done].
  - intros [= <- <- <- <- <-]. split_and!; [done|done|]. intros He. by apply bool_decide_eq_false in Hc.
Qed.
End learning.

(** * Concrete runs *)

Lemma relay_text_roundtrip_witness :
  ∃ buf', ws_read_text (replicate 8 7) (replicate 16 9) [Some (plain_text_frame "hello" ++ [0x88; 0])] =
            Some (5, buf', [Some [0x88; 0]]) ∧ cstr buf' = "hello"%string.
Proof.
  destruct (relay_text_roundtrip (replicate 8 7) (replicate 16 9) "hello" [0x88; 0] []) as (buf' & Hr & Ht & _).
  - apply (bool_decide_unpack (Forall (λ b, b ≠ 0) (str_bytes "hello"))). vm_compute. exact I.
  - cbn. lia.
  - cbn. lia.
  - exists buf'. split; [exact Hr|exact Ht].
Defined.

Lemma long_frame_overruns_witness :
  ws_read_text (replicate 8 7) (replicate 16 9) [Some ([0x81; 0x7f] ++ [0; 0; 0; 0; 255; 255; 255; 255] ++ [])] = None.
Proof.
  destruct (long_frame_overruns (replicate 8 7) (replicate 16 9) 0x81 0x7f [0; 0; 0; 0; 255; 255; 255; 255] [] [])
    as [H _].
  - cbn. lia.
  - vm_compute. discriminate.
  - apply (bool_decide_unpack (Forall is_u8 [0; 0; 0; 0; 255; 255; 255; 255])). vm_compute. exact I.
  - reflexivity.
  - apply H; [reflexivity|]. vm_compute. discriminate.
Defined.

(** A relay that delivers one event. *)
Definition news : jval :=
  JArr [JStr "EVENT"; JStr "sync_fallback"; JObj [("id"%string, JStr "aa"); ("kind"%string, JInt 1)]].
Definition parse_news (text : string) : option jval :=
  if bool_decide (text = "news"%string) then Some news
  else if bool_decide (text = echo) then Some (JStr "sync_fallback") else None.
Definition print_news (j : jval) : string := match j with JStr s => dq s | _ => "{}"%string end.

Lemma news_well_behaved : well_behaved parse_news print_news.
Proof.
  split; [|done|done]. intros text arr l. unfold parse_news.
  case_bool_decide; [by intros [= <-] [= <-]|]. case_bool_decide; [by intros [= <-]|done].
Qed.

Definition relays_example : relay_selector_t :=
  mk_selector
    (<[0%nat := mk_relay "wss://a" "" 10 true true 0 (replicate 32 0) 0]>
      (<[1%nat := mk_relay "wss://b" "" 20 true true 0 (replicate 32 0) 0]> (replicate 8 relay_zero))) 2 0 1 0.

Definition round_example : option (option round) :=
  @sync_manager_do_reqdiff_sync cundef_zero jval (printed_json parse_news print_news) (λ j, j) true (λ _, true)
    (λ _ l, l) (replicate 8 0) (λ _, ESP_OK) 100 60 1700000000 "npub" (replicate 32 0)
    [Some (plain_text_frame "news")] (sync_manager_init (Some relays_example)) relay_example.

Lemma sync_round_brings_nothing_witness :
  ∃ mgr' ctx' frames out, round_example = Some (Some (ESP_OK, mgr', ctx', frames, out)) ∧
    out = [] ∧ only_echo (rc_storage relay_example) (rc_storage ctx') ∧ sy_last_reqdiff_sync mgr' = 60.
Proof.
  destruct round_example as [[[[[[err mgr'] ctx'] frames] out]|]|] eqn:Hr;
    [|exfalso; revert Hr; vm_compute; discriminate|exfalso; revert Hr; vm_compute; discriminate].
  assert (err = ESP_OK) as -> by (revert Hr; vm_compute; intros [= <- _ _ _ _]; reflexivity).
  destruct (@sync_round_brings_nothing cundef_zero parse_news print_news true (λ _, true) (replicate 8 0)
    (λ _ l, l) (λ _, ESP_OK) 100 60 1700000000 "npub" (replicate 32 0) [Some (plain_text_frame "news")]
    (sync_manager_init (Some relays_example)) relay_example ESP_OK mgr' ctx' frames out
    news_well_behaved Hr) as (H1 & H2 & H3).
  exists mgr', ctx', frames, out. split; [reflexivity|]. split; [exact H1|]. split; [exact H2|].
  apply H3. reflexivity.
Defined.

(** The text is in the store afterwards. *)
Example name_is_stored :
  (λ r, match r with Some (_, _, ctx, _, _) => events (rc_storage ctx) | None => [] end) <$> round_example =
  Some [(replicate 32 0, Some echo)].
Proof. vm_compute. reflexivity. Qed.

