(* ===== verification/Payout.v ===== *)
(** The payouts (main/lnurl_pay.c, main/lightning_payout.c): the invoice asked of a
    Lightning address, the shares of
    the recipients, the calls of the wallet. *)

From S2P Require Import Prelude CStr F64 Json Config.
From Stdlib Require Import SpecFloat.
#[local] Open Scope Z_scope.

(** [round]: half away from zero. *)
Definition f64_round (x : f64) : f64 :=
  match x with
  | S754_finite s m e =>
      if 0 <=? e then x else
      let z := (Z.pos m + 2 ^ (- e - 1)) / 2 ^ (- e) in
      f64_of_Z (if s then - z else z)
  | _ => x
  end.

Definition LNURL_MAX_BOLT11_LEN : nat := 2048.

Section lnurl.
Context `{CUndef} `{CJson J}.
Variable cJSON_GetObjectItemCaseSensitive : J → string → option J.
(** A GET request: status and the bytes of the answer, if there is one. *)
Variable http_get : string → option (Z * list Z).

(** Status and text, with a buffer of 4096 bytes. *)
Definition http_get_json (url : string) : option (Z * string) :=
  '(status, bytes) ← http_get url; Some (status, cstr (take 4095 bytes)).

(** The parsed answer of status 200. *)
Definition http_get_root (url : string) : option J :=
  '(status, text) ← http_get_json url;
  if status =? 200 then cJSON_Parse text else None.

Definition item_number (root : J) (k : string) : option f64 :=
  cJSON_GetObjectItemCaseSensitive root k ≫= num_of.

(** Where the address is looked up. *)
Definition lnurlp_url (lightning_address : string) : option string :=
  at_ ← strchr "@" lightning_address;
  if (64 <=? at_)%nat then None else
  Some (str_take 511 ("https://" +:+ str_drop (S at_) lightning_address +:+ "/.well-known/lnurlp/"
                      +:+ str_take at_ lightning_address)%string).

(** Whether the answer forbids the amount. *)
Definition out_of_range (root : J) (amount_msat : Z) : bool :=
  match item_number root "minSendable" with Some x => amount_msat <? u64_of_f64 x | None => false end
  || match item_number root "maxSendable" with Some x => u64_of_f64 x <? amount_msat | None => false end.

Definition callback_with_amount (callback_url : string) (amount_msat : Z) : string :=
  str_take 767
    (callback_url +:+ (match strchr "?" callback_url with Some _ => "&" | None => "?" end)
     +:+ "amount=" +:+ print_u amount_msat)%string.

(** The invoice or an error; [None] when a callback of 511 characters or more leaves
    its buffer without a terminator. *)
Definition lnurl_get_invoice (lightning_address : string) (amount_sats : Z) (bolt11_out_size : nat)
  : option (esp_err_t + string) :=
  match lnurlp_url lightning_address ≫= http_get_root with
  | None => Some (inl ESP_FAIL)
  | Some root =>
      match cJSON_GetObjectItemCaseSensitive root "callback" ≫= str_of with
      | None => Some (inl ESP_FAIL)
      | Some callback =>
          let amount_msat := u64 (amount_sats * 1000) in
          if out_of_range root amount_msat then Some (inl ESP_FAIL) else
          if (511 <=? String.length callback)%nat then None else
          Some match http_get_root (callback_with_amount callback amount_msat) with
               | None => inl ESP_FAIL
               | Some answer =>
                   match cJSON_GetObjectItemCaseSensitive answer "pr" ≫= str_of with
                   | None => inl ESP_FAIL
                   | Some pr => if (bolt11_out_size <=? String.length pr)%nat then inl ESP_FAIL else inr pr
                   end
               end
      end
  end.

(** * The shares *)

(** The wallet: its balance, and the payment of an invoice at no more than a cost. *)
Context {W : Type}.
Variable nucula_wallet_balance : W → Z.
Variable nucula_wallet_melt : W → string → Z → esp_err_t * W.
Variable nucula_wallet_unit : string.

(** An invoice and the most it may cost. *)
Definition melt_call : Type := string * Z.

Definition max_cost (amount_sats fee_tolerance_pct : Z) : Z :=
  u64 (amount_sats + u64 (amount_sats * fee_tolerance_pct) / 100).

(** Result, wallet afterwards and what was asked of it. *)
Definition payout_one (lightning_address : string) (amount_sats fee_tolerance_pct : Z) (w : W)
  : option (esp_err_t * W * list melt_call) :=
  if amount_sats =? 0 then Some (ESP_OK, w, []) else
  invoice ← lnurl_get_invoice lightning_address amount_sats LNURL_MAX_BOLT11_LEN;
  Some match invoice with
       | inl err => (err, w, [])
       | inr bolt11 =>
           let cost := max_cost amount_sats fee_tolerance_pct in
           let '(err, w') := nucula_wallet_melt w bolt11 cost in
           (err, w', [(bolt11, cost)])
       end.

(** What is paid out of a balance that keeps the reserve. *)
Definition payout_pool (balance min_balance : Z) : Z := u64 (balance - min_balance).

Definition recipient_share (pool : Z) (factor : f64) : Z :=
  u64_of_f64 (f64_round (f64_mul (f64_of_Z pool) factor)).

Fixpoint pay_recipients (pool pct : Z) (l : list payout_recipient_t) (w : W) : option (W * list melt_call) :=
  match l with
  | [] => Some (w, [])
  | recip :: l' =>
      if f64_le (pr_factor recip) f64_zero || str_empty (pr_address recip) then pay_recipients pool pct l' w else
      '(_, w1, calls) ← payout_one (pr_address recip) (recipient_share pool (pr_factor recip)) pct w;
      '(w2, more) ← pay_recipients pool pct l' w1;
      Some (w2, calls ++ more)
  end.

Fixpoint pay_mints (recipients : list payout_recipient_t) (pct : Z) (l : list payout_mint_config_t)
    (balance : Z) (w : W) : option (W * list melt_call) :=
  match l with
  | [] => Some (w, [])
  | mc :: l' =>
      if balance <? pm_min_payout_amount mc then pay_mints recipients pct l' balance w else
      let pool := payout_pool balance (pm_min_balance mc) in
      if pool =? 0 then pay_mints recipients pct l' balance w else
      '(w1, calls) ← pay_recipients pool pct recipients w;
      '(w2, more) ← pay_mints recipients pct l' (nucula_wallet_balance w1) w1;
      Some (w2, calls ++ more)
  end.

(** [s_config] and [s_last_check_ms]. *)
Record payout_state := mk_payout_state { ps_config : payout_config_t; ps_last_check_ms : Z }.

Definition lightning_payout_init (config : payout_config_t) (now_ms : Z) : payout_state :=
  mk_payout_state config now_ms.

Definition lightning_payout_tick (now_ms : Z) (s : payout_state) (w : W)
  : option (payout_state * W * list melt_call) :=
  let c := ps_config s in
  if negb (po_enabled c) then Some (s, w, []) else
  if po_recipient_count c =? 0 then Some (s, w, []) else
  let elapsed := i64 (now_ms - ps_last_check_ms s) in
  if elapsed <? i64 (po_check_interval_s c * 1000) then Some (s, w, []) else
  let s1 := mk_payout_state c now_ms in
  let balance := nucula_wallet_balance w in
  if negb (bool_decide (nucula_wallet_unit = "sat"%string)) then Some (s1, w, []) else
  '(w1, calls) ← pay_mints (take (Z.to_nat (po_recipient_count c)) (po_recipients c))
                   (u64 (po_fee_tolerance_pct c)) (take (Z.to_nat (po_mint_count c)) (po_mints c)) balance w;
  Some (s1, w1, calls).
End lnurl.

(** * Doubles that hold integers *)

Lemma shr_exact p m :
  SpecFloat.iter_pos shr_1 p (Build_shr_record (Z.pos (Pos.iter xO m p)) false false) = Build_shr_record (Z.pos m) false false.
Proof.
  assert (∀ q (f : shr_record → shr_record) x, SpecFloat.iter_pos f q x = Pos.iter f x q) as Hit.
  { intros q f. induction q as [q IH|q IH|]; intros x; cbn [SpecFloat.iter_pos Pos.iter]; rewrite ?IH; [|done|done].
    rewrite <- !Pos.iter_swap. done. }
  rewrite Hit. revert m. induction p as [|p IH] using Pos.peano_ind; intros m; [done|].
  rewrite !Pos.iter_succ, <- (Pos.iter_swap p _ xO), IH. done.
Qed.

(** The double of a positive integer below 2^53. *)
Lemma f64_of_Z_pos p :
  Z.pos p < 2 ^ 53 →
  ∃ m e, f64_of_Z (Z.pos p) = S754_finite false m e ∧ Z.pos (digits2_pos m) = 53 ∧ - 52 <= e <= 0 ∧
         Z.pos m = Z.pos p * 2 ^ (- e).
Proof.
  intros Hp. unfold f64_of_Z, binary_normalize, binary_round.
  set (D := Z.pos (digits2_pos p)).
  assert (1 <= D <= 53) as HD.
  { pose proof (digits2_lower p) as Hl. fold D in Hl. split; [unfold D; lia|].
    destruct (Z.le_gt_cases D 53) as [|Hg]; [done|].
    pose proof (Z.pow_le_mono_r 2 53 (D - 1)). lia. }
  assert (fexp 53 1024 (D + 0) = D - 53) as -> by (unfold fexp, emin; lia).
  unfold shl_align. destruct (D - 53 - 0) as [|d|d] eqn:Hd; [|lia|].
  - rewrite round_53 by (unfold Zdigits2; fold D; lia). exists p, 0. split_and!; [done|fold D; lia|lia..].
  - pose proof (iter_xO_spec d p) as [Hv Hdig]. fold D in Hdig.
    rewrite round_53 by (unfold Zdigits2; lia). exists (Pos.iter xO p d), (D - 53).
    replace (- (D - 53)) with (Z.pos d) by lia. split_and!; [done|lia|lia|lia|done].
Qed.

Definition f64_one : f64 := f64_of_Z 1.

(** Multiplication by one is exact. *)
Lemma f64_mul_one p : Z.pos p < 2 ^ 53 → f64_mul (f64_of_Z (Z.pos p)) f64_one = f64_of_Z (Z.pos p).
Proof.
  intros Hp. destruct (f64_of_Z_pos p Hp) as (m & e & -> & Hd & He & _).
  change f64_one with (S754_finite false 4503599627370496 (-52)). unfold f64_mul, SFmul. cbn [xorb].
  assert ((m * 4503599627370496)%positive = Pos.iter xO m 52) as ->.
  { destruct (iter_xO_spec 52 m) as [Hv _]. apply Pos2Z.inj. rewrite Hv, Pos2Z.inj_mul. f_equal. }
  destruct (iter_xO_spec 52 m) as [_ Hdig].
  set (M := Pos.iter xO m 52) in *.
  assert (shr_fexp 53 1024 (Z.pos M) (e + -52) loc_Exact = (Build_shr_record (Z.pos m) false false, e)) as Hs.
  { unfold shr_fexp. unfold Zdigits2. rewrite Hdig, Hd.
    assert (fexp 53 1024 (53 + 52 + (e + -52)) - (e + -52) = 52) as -> by (unfold fexp, emin; lia).
    unfold shr, shr_record_of_loc, M. rewrite shr_exact. f_equal. lia. }
  assert (shr_fexp 53 1024 (Z.pos m) e loc_Exact = (Build_shr_record (Z.pos m) false false, e)) as Hs2.
  { unfold shr_fexp, shr. unfold Zdigits2. rewrite Hd.
    assert (fexp 53 1024 (53 + e) - e = 0) as -> by (unfold fexp, emin; lia). done. }
  unfold binary_round_aux. rewrite Hs. cbn [shr_m loc_of_shr_record round_nearest_even]. rewrite Hs2. cbn [shr_m].
  by rewrite (proj2 (Z.leb_le e (1024 - 53))) by lia.
Qed.

(** A whole number is rounded to itself. *)
Lemma f64_round_of_Z p : Z.pos p < 2 ^ 53 → f64_round (f64_of_Z (Z.pos p)) = f64_of_Z (Z.pos p).
Proof.
  intros Hp. destruct (f64_of_Z_pos p Hp) as (m & e & Hf & _ & He & Hm). rewrite Hf at 1. unfold f64_round.
  destruct (Z.leb_spec 0 e); [done|]. cbv zeta iota.
  assert ((Z.pos m + 2 ^ (- e - 1)) / 2 ^ (- e) = Z.pos p) as ->; [|done].
  assert (2 ^ (- e) = 2 * 2 ^ (- e - 1)) as Hpow.
  { rewrite <- Z.pow_succ_r by lia. f_equal. lia. }
  pose proof (Z.pow_pos_nonneg 2 (- e - 1)). rewrite Hm, Z.add_comm, Z.div_add by lia.
  rewrite Z.div_small by lia. lia.
Qed.

(** The only recipient, with factor 1, gets the whole pool. *)
Lemma full_share `{CUndef} pool : 0 < pool < 2 ^ 53 → recipient_share pool f64_one = pool.
Proof.
  intros Hp. destruct pool as [|p|p]; [lia| |lia]. unfold recipient_share.
  rewrite f64_mul_one, f64_round_of_Z by lia. unfold u64_of_f64. rewrite f64_of_Z_exact by lia.
  by rewrite (proj2 (Z.leb_le _ _)), (proj2 (Z.ltb_lt _ _)) by (pow_consts; lia).
Qed.

(** * What is paid *)

Section paid.
Context `{CUndef} `{CJson J} (get : J → string → option J) (http_get : string → option (Z * list Z)).
Context {W : Type} (balance : W → Z) (melt : W → string → Z → esp_err_t * W) (unit : string).
Notation invoice := (lnurl_get_invoice get http_get).
Notation tick := (lightning_payout_tick get http_get balance melt unit).

(** A call of the wallet that is due to a recipient: the invoice is the one of its
    address for its share of what a balance leaves above the reserve of a mint. *)
Definition due (c : payout_config_t) (call : melt_call) : Prop :=
  ∃ mc rc b,
    mc ∈ take (Z.to_nat (po_mint_count c)) (po_mints c) ∧
    rc ∈ take (Z.to_nat (po_recipient_count c)) (po_recipients c) ∧
    pm_min_payout_amount mc <= b ∧ f64_le (pr_factor rc) f64_zero = false ∧
    let share := recipient_share (payout_pool b (pm_min_balance mc)) (pr_factor rc) in
    share ≠ 0 ∧ invoice (pr_address rc) share LNURL_MAX_BOLT11_LEN = Some (inr (fst call)) ∧
    snd call = max_cost share (u64 (po_fee_tolerance_pct c)).

Lemma pay_recipients_due c mc b l w w' calls :
  mc ∈ take (Z.to_nat (po_mint_count c)) (po_mints c) → pm_min_payout_amount mc <= b →
  (∀ rc, rc ∈ l → rc ∈ take (Z.to_nat (po_recipient_count c)) (po_recipients c)) →
  pay_recipients get http_get melt (payout_pool b (pm_min_balance mc)) (u64 (po_fee_tolerance_pct c)) l w
    = Some (w', calls) →
  Forall (due c) calls ∧ (length calls ≤ length l)%nat.
Proof.
  intros Hmc Hb. revert w w' calls. induction l as [|rc l IH]; intros w w' calls Hl Hp.
  { injection Hp as <- <-. by split. }
  cbn [pay_recipients] in Hp.
  assert (∀ rc', rc' ∈ l → rc' ∈ take (Z.to_nat (po_recipient_count c)) (po_recipients c)) as Hl'
    by (intros rc' Hin; apply Hl; by apply list_elem_of_further).
  destruct (_ || _) eqn:Hskip.
  { apply IH in Hp as [H1 H2]; [|done]. cbn [length]. split; [done|lia]. }
  apply orb_false_iff in Hskip as [Hf _].
  apply bind_Some in Hp as ([[err w1] calls1] & Hone & Hp).
  apply bind_Some in Hp as ([w2 more] & Hrest & Hp). injection Hp as <- <-.
  apply IH in Hrest as [H1 H2]; [|done]. unfold payout_one in Hone.
  destruct (Z.eqb_spec (recipient_share (payout_pool b (pm_min_balance mc)) (pr_factor rc)) 0) as [Hz|Hz].
  { injection Hone as <- <- <-. cbn [app length]. split; [done|lia]. }
  apply bind_Some in Hone as (inv & Hinv & Hone). destruct inv as [e|bolt11].
  { injection Hone as <- <- <-. cbn [app length]. split; [done|lia]. }
  destruct (melt w bolt11 _) as [e w0]. injection Hone as <- <- <-. cbn [app length]. split; [|lia].
  constructor; [|done]. exists mc, rc, b. split_and!; try done. apply Hl, list_elem_of_here.
Qed.

Lemma pay_mints_due c l b w w' calls :
  (∀ mc, mc ∈ l → mc ∈ take (Z.to_nat (po_mint_count c)) (po_mints c)) →
  pay_mints get http_get balance melt (take (Z.to_nat (po_recipient_count c)) (po_recipients c))
    (u64 (po_fee_tolerance_pct c)) l b w = Some (w', calls) →
  Forall (due c) calls ∧
  (length calls ≤ length l * length (take (Z.to_nat (po_recipient_count c)) (po_recipients c)))%nat.
Proof.
  revert b w w' calls. induction l as [|mc l IH]; intros b w w' calls Hl Hp.
  { injection Hp as <- <-. split; [done|cbn; lia]. }
  cbn [pay_mints] in Hp.
  assert (∀ mc', mc' ∈ l → mc' ∈ take (Z.to_nat (po_mint_count c)) (po_mints c)) as Hl'
    by (intros mc' Hin; apply Hl; by apply list_elem_of_further).
  destruct (Z.ltb_spec b (pm_min_payout_amount mc)) as [Hlt|Hge].
  { apply IH in Hp as [? ?]; [|done]. split; [done|cbn [length]; lia]. }
  destruct (_ =? 0). { apply IH in Hp as [? ?]; [|done]. split; [done|cbn [length]; lia]. }
  apply bind_Some in Hp as ([w1 calls1] & Hrec & Hp). apply bind_Some in Hp as ([w2 more] & Hrest & Hp).
  injection Hp as <- <-. apply IH in Hrest as [H1 H2]; [|done].
  apply (pay_recipients_due c mc b) in Hrec as [H3 H4]; [|apply Hl, list_elem_of_here|done|done].
  rewrite length_app. cbn [length]. split; [by apply Forall_app|lia].
Qed.


(** The usual payout.  With one mint and one recipient of factor 1 - what the
    built-in configuration has - a tick that is due asks the wallet to pay exactly
    what the balance leaves above the reserve, at that amount and the tolerated fee;
    the fee is not part of the amount, so the reserve is touched when there is one. *)
Theorem sole_recipient_gets_pool now s w mc addr bolt11 :
  let c := ps_config s in
  let pool := balance w - pm_min_balance mc in
  let pct := po_fee_tolerance_pct c in
  po_enabled c = true → take (Z.to_nat (po_mint_count c)) (po_mints c) = [mc] →
  po_recipient_count c ≠ 0 → take (Z.to_nat (po_recipient_count c)) (po_recipients c) = [mk_recipient addr f64_one] →
  addr ≠ ""%string → unit = "sat"%string → i64 (po_check_interval_s c * 1000) <= i64 (now - ps_last_check_ms s) →
  pm_min_payout_amount mc <= balance w → 0 < pool < 2 ^ 53 → 0 <= pct <= 100 →
  lnurl_get_invoice get http_get addr pool LNURL_MAX_BOLT11_LEN = Some (inr bolt11) →
  ∃ w', lightning_payout_tick get http_get balance melt unit now s w =
          Some (mk_payout_state c now, w', [(bolt11, pool + pool * pct / 100)]).
Proof.
  intros c pool pct He Hm Hc Hr Ha Hu Hi Hmin Hp Hpct Hinv. unfold lightning_payout_tick. fold c.
  rewrite He, (proj2 (Z.eqb_neq _ 0) Hc), (proj2 (Z.ltb_ge _ _) Hi), Hu, Hm, Hr.
  rewrite bool_decide_true by done. cbn [negb pay_mints].
  rewrite (proj2 (Z.ltb_ge _ _) Hmin).
  assert (payout_pool (balance w) (pm_min_balance mc) = pool) as ->
    by (unfold payout_pool; apply u64_small; unfold is_u64; pow_consts; lia).
  rewrite (proj2 (Z.eqb_neq pool 0)) by lia. cbn [pay_recipients pr_factor pr_address].
  change (f64_le f64_one f64_zero) with false.
  assert (str_empty addr = false) as -> by (by destruct addr). cbn [orb]. rewrite full_share by lia.
  unfold payout_one. rewrite (proj2 (Z.eqb_neq pool 0)) by lia. rewrite Hinv. cbn [mbind option_bind].
  fold pct. rewrite (u64_small pct) by (unfold is_u64; pow_consts; lia).
  assert (max_cost pool pct = pool + pool * pct / 100) as ->.
  { unfold max_cost. rewrite (u64_small (pool * pct)) by (unfold is_u64; pow_consts; nia).
    apply u64_small. unfold is_u64. pose proof (Z.div_le_upper_bound (pool * pct) 100 pool ltac:(lia) ltac:(nia)).
    pose proof (Z.div_pos (pool * pct) 100). pow_consts. nia. }
  destruct (melt w bolt11 _) as [e w1]. cbn [mbind option_bind app]. by eexists.
Qed.

(** The reserve is not looked at on its own: when the threshold is below it, the
    pool wraps to nearly 2^64. *)
Theorem reserve_wraps_pool b mc :
  0 <= b → pm_min_payout_amount mc <= b < pm_min_balance mc → is_u64 (pm_min_balance mc) →
  payout_pool b (pm_min_balance mc) = 2 ^ 64 - (pm_min_balance mc - b).
Proof.
  intros Hb Hm Hu. unfold payout_pool, u64, is_u64 in *. rewrite <- (Z.mod_add _ 1) by lia.
  rewrite Z.mod_small by lia. lia.
Qed.

(** The invoice of an address.  For user@domain, with both short enough, the
    first request goes to https://domain/.well-known/lnurlp/user; an invoice comes
    back only if its answer has status 200, parses and allows the amount, and it is
    the "pr" of the answer of the callback, asked for 1000 times the amount, and
    shorter than the buffer. *)
Theorem invoice_of_address user domain amount size pr :
  lacks "@" user → (String.length user < 64)%nat → (String.length user + String.length domain ≤ 480)%nat →
  0 <= amount < 2 ^ 54 →
  invoice (user +:+ "@" +:+ domain)%string amount size = Some (inr pr) →
  ∃ root callback answer,
    http_get_root http_get ("https://" +:+ domain +:+ "/.well-known/lnurlp/" +:+ user)%string = Some root ∧
    get root "callback" ≫= str_of = Some callback ∧
    (∀ x, item_number get root "minSendable" = Some x → u64_of_f64 x <= amount * 1000) ∧
    (∀ x, item_number get root "maxSendable" = Some x → amount * 1000 <= u64_of_f64 x) ∧
    http_get_root http_get
      (str_take 767 (callback +:+ (if strchr "?" callback then "&" else "?") +:+ "amount="
                     +:+ print_u (amount * 1000)))%string = Some answer ∧
    get answer "pr" ≫= str_of = Some pr ∧ (String.length pr < size)%nat.
Proof.
  intros Hu Hlu Hld Ham. unfold lnurl_get_invoice.
  assert (lnurlp_url (user +:+ "@" +:+ domain)%string =
          Some ("https://" +:+ domain +:+ "/.well-known/lnurlp/" +:+ user)%string) as ->.
  { unfold lnurlp_url. change ("@" +:+ domain)%string with (String "@" domain). rewrite strchr_app_stop by done.
    cbn [mbind option_bind]. rewrite (proj2 (Nat.leb_gt 64 _)) by lia. f_equal.
    rewrite str_take_app. replace (S (String.length user)) with (String.length (user +:+ "@")%string)
      by (rewrite str_append_length; cbn; lia).
    assert (user +:+ String "@" domain = (user +:+ "@") +:+ domain)%string as -> by (by rewrite <- str_append_assoc).
    rewrite str_drop_app. apply str_take_all. rewrite !str_append_length. cbn. lia. }
  cbn [mbind option_bind].
  destruct (http_get_root http_get _) as [root|]; [|done].
  destruct (get root "callback" ≫= str_of) as [callback|] eqn:Hcb; [|done]. cbv zeta.
  rewrite (u64_small (amount * 1000)) by (unfold is_u64; pow_consts; lia).
  unfold out_of_range. destruct (_ || _) eqn:Hr; [done|]. apply orb_false_iff in Hr as [Hmin Hmax].
  case_if; [done|]. unfold callback_with_amount.
  destruct (http_get_root http_get (str_take 767 _)) as [answer|] eqn:Hans; [|done].
  destruct (get answer "pr" ≫= str_of) as [pr'|] eqn:Hpr; [|done].
  destruct (size <=? String.length pr')%nat eqn:Hsz; [done|]. intros [= <-]. bool_hyps.
  exists root, callback, answer. split_and!; try done.
  - intros x Hx. rewrite Hx in Hmin. bool_hyps. lia.
  - intros x Hx. rewrite Hx in Hmax. bool_hyps. lia.
Qed.
End paid.

(** * Concrete runs *)

(** A server that answers for sats@pay.example. *)
Definition parse_lnurl (text : string) : option jval :=
  if bool_decide (text = "request"%string) then
    Some (JObj [("callback"%string, JStr "https://pay.example/cb"); ("minSendable"%string, JInt 1000);
                ("maxSendable"%string, JInt 100000000)])
  else if bool_decide (text = "invoice"%string) then Some (JObj [("pr"%string, JStr "lnbc1")]) else None.
#[local] Instance J_lnurl : CJson jval := tree_json parse_lnurl.
#[local] Instance undef_lnurl : CUndef := cundef_zero.
Definition http_lnurl (url : string) : option (Z * list Z) :=
  if bool_decide (url = "https://pay.example/.well-known/lnurlp/sats"%string) then Some (200, str_bytes "request")
  else if bool_decide (url = "https://pay.example/cb?amount=900000"%string) then Some (200, str_bytes "invoice")
  else None.

Definition payout_example : payout_config_t :=
  mk_payout true [mk_payout_mint "https://mint" 100 500] 1 [mk_recipient "sats@pay.example" f64_one] 1 10 60.
(** The wallet is its balance; a payment costs what it may. *)
Definition melt_example (w : Z) (_ : string) (cost : Z) : esp_err_t * Z := (ESP_OK, w - cost).
Definition tick_example : option (payout_state * Z * list melt_call) :=
  lightning_payout_tick cJSON_GetObjectItem http_lnurl (λ w, w) melt_example "sat" 60000
    (lightning_payout_init payout_example 0) 1000.

Lemma sole_recipient_gets_pool_witness :
  ∃ w', tick_example = Some (mk_payout_state payout_example 60000, w', [("lnbc1"%string, 990)]).
Proof.
  apply (sole_recipient_gets_pool cJSON_GetObjectItem http_lnurl (λ w, w) melt_example "sat" 60000
    (lightning_payout_init payout_example 0) 1000 (mk_payout_mint "https://mint" 100 500) "sats@pay.example" "lnbc1").
  - reflexivity.
  - reflexivity.
  - discriminate.
  - reflexivity.
  - discriminate.
  - reflexivity.
  - vm_compute. discriminate.
  - cbn. lia.
  - cbn. lia.
  - cbn. lia.
  - vm_compute. reflexivity.
Defined.


Lemma invoice_of_address_witness :
  ∃ root callback answer,
    http_get_root http_lnurl "https://pay.example/.well-known/lnurlp/sats" = Some root ∧
    cJSON_GetObjectItem root "callback" ≫= str_of = Some callback ∧
    cJSON_GetObjectItem answer "pr" ≫= str_of = Some "lnbc1"%string.
Proof.
  destruct (invoice_of_address cJSON_GetObjectItem http_lnurl "sats" "pay.example" 900 2048 "lnbc1")
    as (root & callback & answer & H1 & H2 & _ & _ & _ & H3 & _).
  - reflexivity.
  - cbn. lia.
  - cbn. lia.
  - lia.
  - vm_compute. reflexivity.
  - exists root, callback, answer. split; [exact H1|]. split; [exact H2|exact H3].
Defined.
