(* ===== verification/Setup.v ===== *)
(** The pages of the captive portal (main/captive_portal.c): the payment page, the
    small reports, and the set-up of the upstream network.  The texts of the two
    pages are arguments. *)

From S2P Require Import Prelude CStr F64 Json Dns Firewall Session Config Portal Api.
From Stdlib Require Import Sorting.Sorted.
#[local] Open Scope Z_scope.

Inductive page :=
| PageHtml (text : string)
| PageText (text : string)
| PageJson (tree : jval)
| PageJsonText (text : string)
| PageRedirect (location : string)
| PageError.

(** What is asked of the Wi-Fi driver. *)
Inductive wifi_call := WifiDisconnect | WifiSetConfig (w : sta_config) | WifiConnect.

(** [s_ap_ip_str] after [captive_portal_start]. *)
Definition portal_location (ap_ip_str : string) : string := str_take 63 ("http://" +:+ ap_ip_str +:+ "/")%string.

Section pages.
Context `{MacLookup} `{CUndef} `{CJson J}.
Variable ap_ip_str : string.
Variable cfg : tollgate_config_t.

(** The substitutions of [portal_handler]; [tabs]: the markup of the mining tabs. *)
Definition portal_subs (tabs : string) : list (string * string) :=
  [("__AP_IP__", ap_ip_str); ("__PRICE__", str_take 15 (print_d (cf_price_per_step cfg)));
   ("__MINT_URL__", cf_mint_url cfg); ("__MINING_TABS__", if cf_mining_enabled cfg then tabs else "");
   ("__MINING_PORT__", if cf_mining_enabled cfg then str_take 7 (print_d (cf_mining_port cfg)) else "3333");
   ("__CASHU_ACTIVE__", "active"); ("__MINING_ACTIVE__", "")]%string.

Definition portal_handler (template tabs : string) : page :=
  PageHtml (tollgate_core_portal_render template (portal_subs tabs)).

Definition status_handler : page :=
  PageJson (JObj [("connected"%string, JBool true); ("price"%string, JInt (cf_price_per_step cfg))]).

Definition whoami_handler (ip : option Z) : page :=
  PageText (str_take 95
    match ip with
    | Some a => ("ip=" +:+ ip_str a +:+ " mac=" +:+ default "unknown" (mac_for_ip a))%string
    | None => "ip=unknown mac=unknown"%string
    end).

Definition catchall_err_handler (not_found : bool) : option page :=
  if not_found then Some (PageRedirect (portal_location ap_ip_str)) else None.

(** * Setting up the upstream network *)

Definition is_setup_available : bool := cf_network_count cfg =? 0.

Definition setup_page_handler (template : string) : page :=
  if negb is_setup_available then PageRedirect (portal_location ap_ip_str)
  else PageHtml (tollgate_core_portal_template_replace template "__AP_IP__" ap_ip_str).2.

(** A network of a scan; [ar_open]: its mode is [WIFI_AUTH_OPEN]. *)
Record wifi_ap_record_t := mk_ap { ar_ssid : string; ar_rssi : Z; ar_open : bool }.

(** One comparison of the two loops, on the array in place. *)
Definition swap_if (i j : nat) (aps : list wifi_ap_record_t) : list wifi_ap_record_t :=
  match aps !! i, aps !! j with
  | Some a, Some b => if ar_rssi a <? ar_rssi b then <[i := b]> (<[j := a]> aps) else aps
  | _, _ => aps
  end.

Definition scan_inner (i : nat) (aps : list wifi_ap_record_t) : list wifi_ap_record_t :=
  foldl (λ l j, swap_if i j l) aps (seq (S i) (length aps - S i)).

Definition scan_sort (aps : list wifi_ap_record_t) : list wifi_ap_record_t :=
  foldl (λ l i, scan_inner i l) aps (seq 0 (length aps - 1)).

Definition scan_report (aps : list wifi_ap_record_t) : jval :=
  JArr ((λ ap, JObj [("ssid"%string, JStr (ar_ssid ap)); ("rssi"%string, JInt (ar_rssi ap));
                     ("secured"%string, JBool (negb (ar_open ap)))])
        <$> List.filter (λ ap, negb (str_empty (ar_ssid ap))) aps).

(** [found]: the networks the driver found, if it scanned. *)
Definition wifi_scan_handler (found : option (list wifi_ap_record_t)) : page * list wifi_call :=
  match found with
  | None => (PageJsonText "[]", [WifiDisconnect])
  | Some l =>
      (PageJson (scan_report (scan_sort (take 20 l))),
       WifiDisconnect ::
         (if 0 <? cf_network_count cfg then
            match tollgate_config_get_wifi cfg with Some w => [WifiSetConfig w; WifiConnect] | None => [] end
          else []))
  end.

Definition setup_error (what : string) : page :=
  PageJsonText ("{" +:+ dq "ok" +:+ ":false," +:+ dq "error" +:+ ":" +:+ dq what +:+ "}")%string.
Definition setup_ok : page := PageJsonText ("{" +:+ dq "ok" +:+ ":true}")%string.

(** The reply, the configuration afterwards with the file written, and the calls of
    the driver. *)
Definition wifi_connect_handler (rq : httpd_req_t)
  : page * tollgate_config_t * option jval * list wifi_call :=
  if (rq_content_len rq <=? 0) || (1024 <? rq_content_len rq)
  then (setup_error "invalid request", cfg, None, []) else
  match rq_body rq with
  | None => (PageError, cfg, None, [])
  | Some bytes =>
      match cJSON_Parse (cstr bytes) with
      | None => (setup_error "invalid JSON", cfg, None, [])
      | Some json =>
          match get_str json "ssid" with
          | None => (setup_error "missing ssid", cfg, None, [])
          | Some ssid =>
              let password := default ""%string (get_str json "password") in
              match tollgate_config_add_wifi (Some ssid) (Some password) cfg with
              | (ESP_OK, cfg', file) =>
                  (setup_ok, cfg', file,
                   [WifiSetConfig (mk_sta (strncpy 31 ssid) (strncpy 63 password) WIFI_AUTH_WPA2_PSK); WifiConnect])
              | (_, cfg', file) => (setup_error "save failed", cfg', file, [])
              end
          end
      end
  end.

(** [ap_info], the network the station is in, and its address. *)
Definition wifi_status_handler (ap_info : option string) (ip : option Z) : page :=
  PageJson (JObj (("connected"%string, JBool (bool_decide (is_Some ap_info)))
    :: match ap_info with
       | Some ssid => match ip with Some a => [("ip"%string, JStr (str_take 15 (ip_str a)))] | None => [] end
                      ++ [("ssid"%string, JStr ssid)]
       | None => []
       end)).
End pages.

(** * Sorting in place *)

Section sorting.

(** No network behind position [a] is stronger. *)
Definition strongest_at (a : nat) (l : list wifi_ap_record_t) : Prop :=
  ∀ b x y, (a < b)%nat → l !! a = Some x → l !! b = Some y → ar_rssi y <= ar_rssi x.

Lemma swap_if_perm i j l : swap_if i j l ≡ₚ l.
Proof.
  unfold swap_if. destruct (l !! i) as [a|] eqn:Hi; [|done]. destruct (l !! j) as [b|] eqn:Hj; [|done].
  case_if; [|done]. by apply Permutation_insert_swap.
Qed.

Lemma swap_if_length i j l : length (swap_if i j l) = length l.
Proof. by rewrite swap_if_perm. Qed.

(** Which network is where after a comparison. *)
Lemma swap_if_lookup i j l a b k x :
  (i < j)%nat → l !! i = Some a → l !! j = Some b → swap_if i j l !! k = Some x →
  (k = i ∧ x = (if ar_rssi a <? ar_rssi b then b else a)) ∨
  (k = j ∧ x = (if ar_rssi a <? ar_rssi b then a else b)) ∨
  (k ≠ i ∧ k ≠ j ∧ l !! k = Some x).
Proof.
  intros Hij Hi Hj. unfold swap_if. rewrite Hi, Hj. destruct (ar_rssi a <? ar_rssi b).
  - intros Hk. apply list_lookup_insert_Some in Hk as [(<- & -> & _)|(Hki & Hk)]; [by left|].
    apply list_lookup_insert_Some in Hk as [(<- & -> & _)|(Hkj & Hk)]; [by right; left|].
    right; right. by split_and!.
  - intros Hk. destruct (decide (k = i)) as [->|]; [left; split; [done|congruence]|].
    destruct (decide (k = j)) as [->|]; [right; left; split; [done|congruence]|]. by right; right.
Qed.

(** Earlier positions are left in order. *)
Lemma swap_if_earlier a i j l : (a < i)%nat → (i < j)%nat → strongest_at a l → strongest_at a (swap_if i j l).
Proof.
  intros Ha Hij Hs. destruct (l !! i) as [ai|] eqn:Hi; [|by unfold swap_if; rewrite Hi].
  destruct (l !! j) as [aj|] eqn:Hj; [|by unfold swap_if; rewrite Hi, Hj].
  intros b x y Hb Hx Hy.
  apply (swap_if_lookup i j l ai aj) in Hx as [[-> _]|[[-> _]|(_ & _ & Hx)]]; [lia|lia| |done..].
  apply (swap_if_lookup i j l ai aj) in Hy as [[-> ->]|[[-> ->]|(_ & _ & Hy)]]; [..|done|done|done].
  - case_if; [apply (Hs j x aj)|apply (Hs i x ai)]; (done || lia).
  - case_if; [apply (Hs i x ai)|apply (Hs j x aj)]; (done || lia).
  - by apply (Hs b x y).
Qed.

(** After the comparisons with the positions before [j], position [i] holds the
    strongest of them. *)
Definition strongest_until (i j : nat) (l : list wifi_ap_record_t) : Prop :=
  ∀ b x y, (i < b < j)%nat → l !! i = Some x → l !! b = Some y → ar_rssi y <= ar_rssi x.

Lemma swap_if_strongest i j l :
  (i < j)%nat → strongest_until i j l → strongest_until i (S j) (swap_if i j l).
Proof.
  intros Hij Hs. destruct (l !! i) as [ai|] eqn:Hi; [|unfold swap_if; rewrite Hi; intros b x y _ Hx; congruence].
  destruct (l !! j) as [aj|] eqn:Hj.
  2: { unfold swap_if. rewrite Hi, Hj. intros b x y Hb Hx Hy.
       apply lookup_lt_Some in Hy as Hlt. apply lookup_ge_None in Hj. by apply (Hs b); [lia|..]. }
  intros b x y Hb Hx Hy.
  apply (swap_if_lookup i j l ai aj) in Hx as [[_ ->]|[[-> _]|(? & _ & Hx)]]; [|lia|done|done..].
  apply (swap_if_lookup i j l ai aj) in Hy as [[-> _]|[[_ ->]|(_ & ? & Hy)]]; [lia| | |done..].
  - destruct (Z.ltb_spec (ar_rssi ai) (ar_rssi aj)); lia.
  - pose proof (Hs b ai y ltac:(lia) Hi Hy). destruct (Z.ltb_spec (ar_rssi ai) (ar_rssi aj)); lia.
Qed.

Lemma scan_inner_spec i l :
  scan_inner i l ≡ₚ l ∧ strongest_at i (scan_inner i l) ∧
  ∀ a, (a < i)%nat → strongest_at a l → strongest_at a (scan_inner i l).
Proof.
  unfold scan_inner. set (n := length l).
  assert (∀ k l1, length l1 = n → strongest_until i (S i + k) l1 → (S i + k ≤ Nat.max n (S i))%nat →
    let l2 := foldl (λ l j, swap_if i j l) l1 (seq (S i + k) (n - S i - k)) in
    l2 ≡ₚ l1 ∧ strongest_at i l2 ∧ ∀ a, (a < i)%nat → strongest_at a l1 → strongest_at a l2) as Hall.
  { intros k l1. remember (n - S i - k)%nat as m eqn:Hm. revert k Hm l1.
    induction m as [|m IH]; intros k Hm l1 Hl Hs Hk; cbn [seq foldl]; cbv zeta.
    - split_and!; [done| |done]. intros b x y Hb Hx Hy. apply lookup_lt_Some in Hy as Hlt. by apply (Hs b); [lia|..].
    - destruct (IH (S k) ltac:(lia) (swap_if i (S i + k) l1)) as (H1 & H2 & H3).
      + by rewrite swap_if_length.
      + replace (S i + S k)%nat with (S (S i + k)) by lia. apply swap_if_strongest; [lia|done].
      + lia.
      + replace (S i + S k)%nat with (S (S i + k)) in * by lia. split_and!; [by rewrite H1, swap_if_perm|done|].
        intros a Ha Hsa. apply H3; [done|]. apply swap_if_earlier; [done|lia|done]. }
  destruct (Hall 0%nat l) as (H1 & H2 & H3); [done|intros b x y Hb; lia|lia|].
  rewrite Nat.add_0_r, Nat.sub_0_r in *. done.
Qed.

(** The list of networks.  What the scan reports is what the driver found, each
    network as often as it was found, the strongest signal first. *)
Theorem scan_sorted l :
  scan_sort l ≡ₚ l ∧ Sorted.StronglySorted (λ x y, ar_rssi y <= ar_rssi x) (scan_sort l).
Proof.
  assert (∀ k l1, length l1 = length l → (∀ a, (a < k)%nat → strongest_at a l1) → (k ≤ length l - 1)%nat →
    let l2 := foldl (λ l i, scan_inner i l) l1 (seq k (length l - 1 - k)) in
    l2 ≡ₚ l1 ∧ ∀ a, (a < length l - 1)%nat → strongest_at a l2) as Hall.
  { intros k l1. remember (length l - 1 - k)%nat as m eqn:Hm. revert k Hm l1.
    induction m as [|m IH]; intros k Hm l1 Hl Hs Hk; cbn [seq foldl]; cbv zeta.
    - split; [done|]. intros a Ha. apply Hs. lia.
    - destruct (scan_inner_spec k l1) as (P1 & P2 & P3).
      destruct (IH (S k) ltac:(lia) (scan_inner k l1)) as [H1 H2].
      + by rewrite P1.
      + intros a Ha. destruct (decide (a = k)) as [->|]; [done|]. apply P3; [lia|]. apply Hs. lia.
      + lia.
      + split; [by rewrite H1, P1|done]. }
  destruct (Hall 0%nat l) as [H1 H2]; [done|lia|lia|]. unfold scan_sort. rewrite Nat.sub_0_r in *.
  set (l2 := foldl _ _ _) in *. split; [done|].
  assert (∀ a, strongest_at a l2) as Hfin.
  { intros a b x y Hab Hx Hy. apply lookup_lt_Some in Hy as Hlt. rewrite H1 in Hlt. apply (H2 a ltac:(lia) b); done. }
  clear -Hfin. induction l2 as [|x l2 IH]; constructor.
  - apply IH. intros a b u v Hab Hu Hv. apply (Hfin (S a) (S b)); [lia|done..].
  - apply Forall_lookup_2. intros i y Hy. apply (Hfin 0%nat (S i)); [lia|done..].
Qed.
End sorting.

(** * Who may choose the upstream network *)

Section connect.
Context `{CJson J} (cfg : tollgate_config_t).

(** A request that names a network and perhaps a password. *)
Definition names_network (rq : httpd_req_t) (ssid password : string) : Prop :=
  0 < rq_content_len rq <= 1024 ∧
  ∃ bytes json, rq_body rq = Some bytes ∧ cJSON_Parse (cstr bytes) = Some json ∧
    get_str json "ssid" = Some ssid ∧ default ""%string (get_str json "password") = password.

(** The network is anybody's to choose.  A request that names a network is
    accepted while the list has room - it does not matter who sends it or that the
    gate is set up already, when the set-up page itself only redirects: the network
    joins the list behind the others and in the file, cut to 31 and 63 characters,
    and the station is sent to it at once, with a threshold that an open network does
    not meet.  Every other request changes nothing. *)
Theorem wifi_connect_outcome rq pg cfg' file calls :
  config_wf cfg → wifi_connect_handler cfg rq = (pg, cfg', file, calls) →
  config_wf cfg' ∧
  ((∃ ssid password, names_network rq ssid password ∧
      cf_network_count cfg < Z.of_nat TOLLGATE_MAX_WIFI_NETWORKS ∧ pg = setup_ok ∧
      cf_network_count cfg' = cf_network_count cfg + 1 ∧
      cf_networks cfg' = <[Z.to_nat (cf_network_count cfg) := mk_network (strncpy 31 ssid) (strncpy 63 password)]>
                           (cf_networks cfg) ∧
      file = Some (saved_config cfg') ∧
      calls = [WifiSetConfig (mk_sta (strncpy 31 ssid) (strncpy 63 password) WIFI_AUTH_WPA2_PSK); WifiConnect]) ∨
   (¬ (∃ ssid password, names_network rq ssid password ∧
         cf_network_count cfg < Z.of_nat TOLLGATE_MAX_WIFI_NETWORKS) ∧
    pg ≠ setup_ok ∧ cfg' = cfg ∧ file = None ∧ calls = [])).
Proof.
  intros Hwf. assert (∀ e, setup_error e ≠ setup_ok) as Hne by (intros e [=]). unfold wifi_connect_handler.
  destruct (_ || _) eqn:Hlen.
  { intros [= <- <- <- <-]. split; [done|]. right. split_and!; try done.
    intros (ssid & pw & (Hl & _) & _). apply orb_true_iff in Hlen as [Hlen|Hlen]; bool_hyps; lia. }
  apply orb_false_iff in Hlen as [Hl1 Hl2]. bool_hyps.
  destruct (rq_body rq) as [bytes|] eqn:Hb.
  2: { intros [= <- <- <- <-]. split; [done|]. right. split_and!; try done.
       intros (ssid & pw & (_ & bs & json & Hb' & _) & _). congruence. }
  destruct (cJSON_Parse (cstr bytes)) as [json|] eqn:Hp.
  2: { intros [= <- <- <- <-]. split; [done|]. right. split_and!; try done.
       intros (ssid & pw & (_ & bs & json & Hb' & Hp' & _) & _). congruence. }
  destruct (get_str json "ssid") as [ssid|] eqn:Hs.
  2: { intros [= <- <- <- <-]. split; [done|]. right. split_and!; try done.
       intros (ssid & pw & (_ & bs & json' & Hb' & Hp' & Hs' & _) & _). congruence. }
  set (pw := default ""%string (get_str json "password")).
  pose proof (add_wifi_wf (Some ssid) (Some pw) cfg Hwf) as Hwf'. revert Hwf'. unfold tollgate_config_add_wifi.
  destruct (Z.leb_spec (Z.of_nat TOLLGATE_MAX_WIFI_NETWORKS) (cf_network_count cfg)) as [Hfull|Hroom].
  { intros _ [= <- <- <- <-]. split; [done|]. right. split_and!; try done. intros (? & ? & _ & ?). lia. }
  cbn [fst snd]. intros Hwf' [= <- <- <- <-]. split; [done|]. left. exists ssid, pw. split_and!; try done.
  - split; [lia|]. by exists bytes, json.
  - by destruct cfg.
  - by destruct cfg.
Qed.
End connect.

(** * Concrete runs *)

Definition connect_request : jval := JObj [("ssid"%string, JStr "other"); ("password"%string, JStr "secret")].
(** A configured gate, and a request from anywhere. *)
Lemma wifi_connect_outcome_witness :
  setup_page_handler "10.0.0.1" config_example "page" = PageRedirect "http://10.0.0.1/" ∧
  cf_network_count (@wifi_connect_handler jval (tree_json (λ _, Some connect_request)) config_example
                      (mk_req None 40 (Some (str_bytes "body")))).1.1.2 = 2.
Proof.
  split; [vm_compute; reflexivity|].
  set (res := wifi_connect_handler _ _).
  destruct (@wifi_connect_outcome jval (tree_json (λ _, Some connect_request)) config_example
    (mk_req None 40 (Some (str_bytes "body"))) res.1.1.1 res.1.1.2 res.1.2 res.2) as [_ [H|H]].
  - exact (load_config_wf _ _ config_example_loaded).
  - unfold res. vm_compute. reflexivity.
  - destruct H as (ssid & pw & _ & _ & _ & H & _). rewrite H. vm_compute. reflexivity.
  - destruct H as [H _]. exfalso. apply H. exists "other"%string, "secret"%string. split.
    + split; [cbn; lia|]. exists (str_bytes "body"), connect_request.
      split; [reflexivity|]. split; [reflexivity|]. split; vm_compute; reflexivity.
    + vm_compute. reflexivity.
Defined.
