(* ===== verification/Keyboard.v ===== *)
(** The on-screen keyboard (main/keyboard.c), the touch points it gets
    (main/touch.c) and the dialogue that sets up a network with them
    (main/wifi_setup.c). *)

From S2P Require Import Prelude CStr.
From stdpp Require Import relations.
#[local] Open Scope Z_scope.

(** * Touch points *)

Definition TOUCH_MAX_X : Z := 319.
Definition TOUCH_MAX_Y : Z := 479.

Record touch_point_t := mk_point { tp_x : Z; tp_y : Z; tp_touched : bool }.
Definition no_touch : touch_point_t := mk_point 0 0 false.

(** [data]: the eight bytes of the controller, if they came. *)
Definition touch_parse_raw (data : option (list Z)) : touch_point_t :=
  match data with
  | None => no_touch
  | Some d =>
      if negb (d !!! 0%nat =? 0) || (d !!! 1%nat =? 0) || (1 <? d !!! 1%nat) then no_touch else
      let raw_x := u16 (Z.lor (Z.shiftl (Z.land (d !!! 2%nat) 0x0F) 8) (d !!! 3%nat)) in
      let raw_y := u16 (Z.lor (Z.shiftl (Z.land (d !!! 4%nat) 0x0F) 8) (d !!! 5%nat)) in
      mk_point (if TOUCH_MAX_X <? raw_x then TOUCH_MAX_X else raw_x)
        (if TOUCH_MAX_Y <? raw_y then TOUCH_MAX_Y else raw_y) true
  end.

(** The point turned with the screen. *)
Definition rotate_point (rotation : Z) (p : touch_point_t) : touch_point_t :=
  if negb (tp_touched p) then p else
  if rotation =? 1 then mk_point (tp_y p) (u16 (TOUCH_MAX_X - tp_x p)) true
  else if rotation =? 2 then mk_point (u16 (TOUCH_MAX_X - tp_x p)) (u16 (TOUCH_MAX_Y - tp_y p)) true
  else if rotation =? 3 then mk_point (u16 (TOUCH_MAX_Y - tp_y p)) (tp_x p) true
  else p.

(** [touch_read] when the controller is up: the answer of a transfer, if it
    succeeds. *)
Definition touch_read (rotation : Z) (transfer : option (list Z)) : touch_point_t :=
  rotate_point rotation (touch_parse_raw transfer).

(** * Keys *)

Inductive kb_layer_t := KB_ALPHA_LOWER | KB_ALPHA_UPPER | KB_NUMSYM.
Inductive kb_action_t :=
| KB_ACTION_NONE | KB_ACTION_CHAR | KB_ACTION_SHIFT | KB_ACTION_BACKSPACE | KB_ACTION_DONE
| KB_ACTION_LAYER | KB_ACTION_SPACE.
Record kb_result_t := mk_result { kr_action : kb_action_t; kr_ch : Z }.

#[export] Instance kb_layer_eq_dec : EqDecision kb_layer_t.
Proof. solve_decision. Defined.
#[export] Instance kb_action_eq_dec : EqDecision kb_action_t.
Proof. solve_decision. Defined.
#[export] Instance kb_result_eq_dec : EqDecision kb_result_t.
Proof. solve_decision. Defined.

Record kb_layout_t := mk_layout {
  ly_key_w : Z; ly_key_h : Z; ly_key_gap : Z; ly_start_y : Z; ly_screen_w : Z; ly_row_count : Z
}.
(** [s_layout] at the start. *)
Definition default_layout : kb_layout_t := mk_layout 28 36 2 70 320 4.

Definition CTRL_SHIFT : Z := 1.
Definition CTRL_LAYER : Z := 2.
Definition CTRL_SPACE : Z := 3.
Definition CTRL_DONE : Z := 4.
Definition CTRL_BS : Z := 8.
Definition last_row : list Z := [CTRL_LAYER; CTRL_SPACE; CTRL_DONE].

Definition s_alpha_lower : list (list Z) :=
  [str_bytes "qwertyuiop"; str_bytes "asdfghjkl"; CTRL_SHIFT :: str_bytes "zxcvbnm" ++ [CTRL_BS]; last_row].
Definition s_alpha_upper : list (list Z) :=
  [str_bytes "QWERTYUIOP"; str_bytes "ASDFGHJKL"; CTRL_SHIFT :: str_bytes "ZXCVBNM" ++ [CTRL_BS]; last_row].
(** The third row ends with a backslash and a b. *)
Definition s_numsym : list (list Z) :=
  [str_bytes "1234567890"; str_bytes "-/:;()$&@" ++ [34]; CTRL_SHIFT :: str_bytes ".,?!'\b"; last_row].

Definition get_layer (layer : kb_layer_t) : list (list Z) :=
  match layer with
  | KB_ALPHA_UPPER => s_alpha_upper
  | KB_NUMSYM => s_numsym
  | KB_ALPHA_LOWER => s_alpha_lower
  end.

Section layout.
Variable ly : kb_layout_t.

(** Empty when there is no such row. *)
Definition kb_get_row_keys (row : Z) (layer : kb_layer_t) : list Z :=
  if (row <? 0) || (ly_row_count ly <=? row) then [] else default [] (get_layer layer !! Z.to_nat row).

Definition row_x_offset (row total_keys : Z) : Z :=
  let total_w := total_keys * ly_key_w ly + (total_keys - 1) * ly_key_gap ly in
  let margin := Z.quot (ly_screen_w ly - total_w) 2 in
  let margin := if margin <? 2 then 2 else margin in
  if row =? 1 then margin + Z.quot (ly_key_w ly) 2
  else if row =? 2 then margin + ly_key_w ly
  else margin.

Definition key_width_at (row col total_keys : Z) : Z :=
  if row =? 3 then
    let margin := row_x_offset 3 total_keys in
    let available := ly_screen_w ly - margin * 2 in
    let side_w := Z.quot (available - ly_key_gap ly) 4 in
    if col =? 0 then side_w
    else if col =? total_keys - 1 then side_w
    else available - side_w * 2 - ly_key_gap ly * 2
  else ly_key_w ly.

(** What a key does. *)
Definition key_result (c : Z) : kb_result_t :=
  if c =? CTRL_SHIFT then mk_result KB_ACTION_SHIFT 0
  else if c =? CTRL_LAYER then mk_result KB_ACTION_LAYER 0
  else if c =? CTRL_SPACE then mk_result KB_ACTION_SPACE 32
  else if c =? CTRL_DONE then mk_result KB_ACTION_DONE 0
  else if c =? CTRL_BS then mk_result KB_ACTION_BACKSPACE 0
  else mk_result KB_ACTION_CHAR c.

(** The walk along the keys of a row from position [cx]. *)
Fixpoint hit_row (tx row total_keys col cx : Z) (keys : list Z) : kb_result_t :=
  match keys with
  | [] => mk_result KB_ACTION_NONE 0
  | c :: keys' =>
      let key_w := key_width_at row col total_keys in
      if (cx <=? tx) && (tx <? cx + key_w) then key_result c
      else hit_row tx row total_keys (col + 1) (cx + (key_w + ly_key_gap ly)) keys'
  end.

Definition kb_hit_test (tx ty : Z) (layer : kb_layer_t) : kb_result_t :=
  let sy := ly_start_y ly in
  let pitch := ly_key_h ly + ly_key_gap ly in
  if (ty <? sy) || (sy + ly_row_count ly * pitch <=? ty) then mk_result KB_ACTION_NONE 0 else
  let row := Z.quot (ty - sy) pitch in
  let keys := kb_get_row_keys row layer in
  let total_keys := Z.of_nat (length keys) in
  hit_row tx row total_keys 0 (row_x_offset row total_keys) keys.
End layout.

(** * The text *)

Definition KB_INPUT_MAX : Z := 64.

(** [input]: the 65 bytes of the array. *)
Record kb_state_t := mk_kb { kb_input : list Z; kb_cursor : Z; kb_reveal : bool; kb_layer : kb_layer_t }.

Definition kb_state_init : kb_state_t := mk_kb (replicate 65 0) 0 false KB_ALPHA_LOWER.

Definition put_char (ch : Z) (st : kb_state_t) : kb_state_t :=
  if kb_cursor st <? KB_INPUT_MAX then
    mk_kb (<[Z.to_nat (kb_cursor st + 1) := 0]> (<[Z.to_nat (kb_cursor st) := ch]> (kb_input st)))
      (kb_cursor st + 1) (kb_reveal st) (kb_layer st)
  else st.

Definition with_layer (l : kb_layer_t) (st : kb_state_t) : kb_state_t :=
  mk_kb (kb_input st) (kb_cursor st) (kb_reveal st) l.

Definition kb_apply (r : kb_result_t) (st : kb_state_t) : kb_state_t :=
  match kr_action r with
  | KB_ACTION_CHAR => put_char (kr_ch r) st
  | KB_ACTION_SPACE => put_char 32 st
  | KB_ACTION_BACKSPACE =>
      if 0 <? kb_cursor st then
        mk_kb (<[Z.to_nat (kb_cursor st - 1) := 0]> (kb_input st)) (kb_cursor st - 1) (kb_reveal st) (kb_layer st)
      else st
  | KB_ACTION_SHIFT =>
      match kb_layer st with
      | KB_ALPHA_LOWER => with_layer KB_ALPHA_UPPER st
      | KB_ALPHA_UPPER => with_layer KB_ALPHA_LOWER st
      | KB_NUMSYM => st
      end
  | KB_ACTION_LAYER =>
      with_layer (match kb_layer st with KB_NUMSYM => KB_ALPHA_LOWER | _ => KB_NUMSYM end) st
  | KB_ACTION_DONE | KB_ACTION_NONE => st
  end.

(** * The dialogue *)

Definition WIFI_SETUP_MAX_APS : nat := 20.
Definition WIFI_SETUP_MAX_VISIBLE : Z := 8.

Inductive setup_state_t :=
| SETUP_SCAN | SETUP_LIST | SETUP_PASSWORD | SETUP_CONNECTING | SETUP_SUCCESS | SETUP_FAILED | SETUP_CANCELLED.
#[export] Instance setup_state_eq_dec : EqDecision setup_state_t.
Proof. solve_decision. Defined.

Record wifi_ap_info_t := mk_ap_info { ai_ssid : string; ai_rssi : Z; ai_secured : bool }.
Definition ap_info_zero : wifi_ap_info_t := mk_ap_info "" 0 false.

Record wifi_setup_t := mk_setup {
  su_state : setup_state_t;
  su_aps : list wifi_ap_info_t;
  su_ap_count : Z;
  su_list_scroll : Z;
  su_selected_ap : Z;
  su_selected_ssid : string;
  su_connect_ip : string;
  su_connect_failed_auth : bool
}.

Definition with_state (t : setup_state_t) (failed : bool) (s : wifi_setup_t) : wifi_setup_t :=
  mk_setup t (su_aps s) (su_ap_count s) (su_list_scroll s) (su_selected_ap s) (su_selected_ssid s)
    (su_connect_ip s) failed.

Definition wifi_setup_init : wifi_setup_t :=
  mk_setup SETUP_SCAN (replicate WIFI_SETUP_MAX_APS ap_info_zero) 0 0 (-1) "" "" false.

(** As many networks as are given, of which twenty are taken. *)
Definition wifi_setup_set_aps (aps : list wifi_ap_info_t) (s : wifi_setup_t) : wifi_setup_t :=
  let l := take WIFI_SETUP_MAX_APS aps in
  mk_setup SETUP_LIST (l ++ drop (length l) (su_aps s)) (Z.of_nat (length l)) 0 (su_selected_ap s)
    (su_selected_ssid s) (su_connect_ip s) (su_connect_failed_auth s).

Definition wifi_setup_visible_count (s : wifi_setup_t) : Z :=
  let remaining := su_ap_count s - su_list_scroll s in
  let remaining := if WIFI_SETUP_MAX_VISIBLE <? remaining then WIFI_SETUP_MAX_VISIBLE else remaining in
  if remaining <? 0 then 0 else remaining.

Definition wifi_setup_get_visible (s : wifi_setup_t) (idx : Z) : option wifi_ap_info_t :=
  if (idx <? 0) || (wifi_setup_visible_count s <=? idx) then None
  else su_aps s !! Z.to_nat (su_list_scroll s + idx).

Definition wifi_setup_handle_select (list_idx : Z) (s : wifi_setup_t) : wifi_setup_t :=
  if negb (bool_decide (su_state s = SETUP_LIST)) then s else
  if (list_idx <? 0) || (wifi_setup_visible_count s <=? list_idx) then s else
  let real_idx := su_list_scroll s + list_idx in
  mk_setup SETUP_PASSWORD (su_aps s) (su_ap_count s) (su_list_scroll s) real_idx
    (strncpy 32 (ai_ssid (default ap_info_zero (su_aps s !! Z.to_nat real_idx)))) (su_connect_ip s)
    (su_connect_failed_auth s).

Definition wifi_setup_handle_connect (s : wifi_setup_t) : wifi_setup_t :=
  if negb (bool_decide (su_state s = SETUP_PASSWORD)) then s
  else with_state SETUP_CONNECTING (su_connect_failed_auth s) s.

Definition wifi_setup_handle_connect_result (success : bool) (ip : option string) (s : wifi_setup_t)
  : wifi_setup_t :=
  if negb (bool_decide (su_state s = SETUP_CONNECTING)) then s else
  let '(t, connect_ip) :=
    if success then (SETUP_SUCCESS, match ip with Some a => strncpy 15 a | None => su_connect_ip s end)
    else (SETUP_FAILED, ""%string) in
  mk_setup t (su_aps s) (su_ap_count s) (su_list_scroll s) (su_selected_ap s) (su_selected_ssid s)
    connect_ip (negb success).

Definition wifi_setup_handle_cancel (s : wifi_setup_t) : wifi_setup_t :=
  with_state SETUP_CANCELLED (su_connect_failed_auth s) s.

Definition wifi_setup_handle_retry (s : wifi_setup_t) : wifi_setup_t :=
  if negb (bool_decide (su_state s = SETUP_FAILED)) then s else with_state SETUP_PASSWORD false s.

Definition wifi_setup_handle_change_network (s : wifi_setup_t) : wifi_setup_t :=
  if negb (bool_decide (su_state s = SETUP_FAILED)) then s else with_state SETUP_LIST false s.

Inductive setup_step : wifi_setup_t → wifi_setup_t → Prop :=
| step_set_aps aps s : setup_step s (wifi_setup_set_aps aps s)
| step_select i s : setup_step s (wifi_setup_handle_select i s)
| step_connect s : setup_step s (wifi_setup_handle_connect s)
| step_result ok ip s : setup_step s (wifi_setup_handle_connect_result ok ip s)
| step_cancel s : setup_step s (wifi_setup_handle_cancel s)
| step_retry s : setup_step s (wifi_setup_handle_retry s)
| step_change s : setup_step s (wifi_setup_handle_change_network s).

(** * The text typed *)

(** An editor of a line of at most 64 characters. *)
Definition edit (r : kb_result_t) (a : list Z * kb_layer_t) : list Z * kb_layer_t :=
  let '(text, layer) := a in
  match kr_action r with
  | KB_ACTION_CHAR => ((if (length text <? 64)%nat then text ++ [kr_ch r] else text), layer)
  | KB_ACTION_SPACE => ((if (length text <? 64)%nat then text ++ [32] else text), layer)
  | KB_ACTION_BACKSPACE => (take (length text - 1) text, layer)
  | KB_ACTION_SHIFT =>
      (text, match layer with KB_ALPHA_LOWER => KB_ALPHA_UPPER | KB_ALPHA_UPPER => KB_ALPHA_LOWER | KB_NUMSYM => KB_NUMSYM end)
  | KB_ACTION_LAYER => (text, match layer with KB_NUMSYM => KB_ALPHA_LOWER | _ => KB_NUMSYM end)
  | KB_ACTION_DONE | KB_ACTION_NONE => a
  end.

(** The array holds the text with its terminator. *)
Definition holds (st : kb_state_t) (a : list Z * kb_layer_t) : Prop :=
  ∃ junk, kb_input st = fst a ++ 0 :: junk ∧ length (kb_input st) = 65%nat ∧
    kb_cursor st = Z.of_nat (length (fst a)) ∧ kb_layer st = snd a.

Lemma put_char_holds c st a :
  holds st a → holds (put_char c st) ((if (length a.1 <? 64)%nat then a.1 ++ [c] else a.1), a.2).
Proof.
  intros (junk & Hin & Hlen & Hcur & Hlay). destruct a as [text layer]. cbn [fst snd] in *.
  unfold put_char, KB_INPUT_MAX. rewrite Hcur.
  destruct (Nat.ltb_spec (length text) 64) as [Hlt|Hge].
  2: { rewrite (proj2 (Z.ltb_ge _ 64)) by lia. by exists junk. }
  rewrite (proj2 (Z.ltb_lt _ 64)) by lia. rewrite Hin in Hlen |- *. rewrite length_app in Hlen. cbn [length] in Hlen.
  destruct junk as [|j junk]; [cbn in Hlen; lia|]. exists junk. cbn [kb_input kb_cursor kb_layer].
  replace (Z.to_nat (Z.of_nat (length text) + 1)) with (length text + 1)%nat by lia. rewrite Nat2Z.id.
  rewrite insert_app_r_alt by lia. rewrite Nat.sub_diag. cbn [insert list_insert].
  rewrite insert_app_r. cbn [insert list_insert]. split_and!.
  - cbn [fst]. by rewrite <- app_assoc.
  - rewrite !length_app in *. cbn [length] in *. lia.
  - cbn [fst]. rewrite length_app. cbn [length]. lia.
  - done.
Qed.

Lemma kb_apply_holds r st a : holds st a → holds (kb_apply r st) (edit r a).
Proof.
  intros Ha. pose proof Ha as (junk & Hin & Hlen & Hcur & Hlay). destruct a as [text layer]. cbn [fst snd] in *.
  unfold kb_apply, edit. destruct (kr_action r).
  - done.
  - apply (put_char_holds (kr_ch r) st (text, layer) Ha).
  - rewrite Hlay. destruct layer; by exists junk.
  - rewrite Hcur. destruct text as [|c text _] using rev_ind.
    { cbn. by exists junk. }
    rewrite length_app in *. cbn [length] in *. rewrite (proj2 (Z.ltb_lt 0 _)) by lia.
    rewrite Nat.add_sub, take_app_length. exists (0 :: junk). cbn [kb_input kb_cursor kb_layer fst snd].
    rewrite Hin in *. replace (Z.to_nat (Z.of_nat (length text + 1) - 1)) with (length text) by lia.
    rewrite <- app_assoc. cbn [app]. rewrite insert_app_r_alt by lia. rewrite Nat.sub_diag. cbn [insert list_insert].
    split_and!; [done| |lia|done]. rewrite !length_app in *. cbn [length] in *. lia.
  - done.
  - rewrite Hlay. destruct layer; by exists junk.
  - apply (put_char_holds 32 st (text, layer) Ha).
Qed.

(** A touch: the key under it, with the layer shown. *)
Definition type_at (ly : kb_layout_t) (st : kb_state_t) (point : Z * Z) : kb_state_t :=
  kb_apply (kb_hit_test ly (fst point) (snd point) (kb_layer st)) st.
Definition edit_at (ly : kb_layout_t) (a : list Z * kb_layer_t) (point : Z * Z) : list Z * kb_layer_t :=
  edit (kb_hit_test ly (fst point) (snd point) (snd a)) a.

(** What a touch does is what some key of the layer does, or nothing. *)
Lemma hit_row_key ly tx row total col cx keys :
  hit_row ly tx row total col cx keys = mk_result KB_ACTION_NONE 0 ∨
  ∃ c, c ∈ keys ∧ hit_row ly tx row total col cx keys = key_result c.
Proof.
  revert col cx. induction keys as [|c keys IH]; intros col cx; [by left|]. cbn [hit_row]. case_if.
  - right. exists c. split; [apply list_elem_of_here|done].
  - destruct (IH (col + 1) (cx + (key_width_at ly row col total + ly_key_gap ly))) as [H0|(c' & Hin & H0)]; [by left|].
    right. exists c'. split; [by apply list_elem_of_further|done].
Qed.

Lemma hit_test_key ly tx ty layer :
  kb_hit_test ly tx ty layer = mk_result KB_ACTION_NONE 0 ∨
  ∃ c, c ∈ mjoin (get_layer layer) ∧ kb_hit_test ly tx ty layer = key_result c.
Proof.
  unfold kb_hit_test. case_if; [by left|]. cbv zeta. set (row := Z.quot _ _).
  destruct (hit_row_key ly tx row (Z.of_nat (length (kb_get_row_keys ly row layer))) 0
              (row_x_offset ly row (Z.of_nat (length (kb_get_row_keys ly row layer))))
              (kb_get_row_keys ly row layer)) as [H0|(c & Hin & H0)]; [by left|].
  right. exists c. split; [|done]. unfold kb_get_row_keys in Hin. destruct ((row <? 0) || (ly_row_count ly <=? row)); [by apply not_elem_of_nil in Hin|].
  destruct (get_layer layer !! Z.to_nat row) as [keys|] eqn:Hk; [|by apply not_elem_of_nil in Hin].
  apply list_elem_of_join. exists keys. split; [done|]. by eapply list_elem_of_lookup_2.
Qed.

Lemma keys_not_zero layer c : c ∈ mjoin (get_layer layer) → c ≠ 0.
Proof.
  intros Hc ->. revert Hc. apply (bool_decide_unpack (0 ∉ mjoin (get_layer layer))). by destruct layer; vm_compute.
Qed.

Lemma key_char_not_zero c : c ≠ 0 → kr_action (key_result c) = KB_ACTION_CHAR → kr_ch (key_result c) ≠ 0.
Proof. intros Hc. unfold key_result. repeat (destruct (_ =? _); [done|]). done. Qed.

Lemma edit_not_zero r a :
  (kr_action r = KB_ACTION_CHAR → kr_ch r ≠ 0) → Forall (λ c, c ≠ 0) (fst a) → Forall (λ c, c ≠ 0) (fst (edit r a)).
Proof.
  intros Hr Ha. destruct a as [text layer]. cbn [fst] in Ha. unfold edit. destruct (kr_action r); cbn [fst]; try done.
  - case_if; [|done]. apply Forall_app. split; [done|]. apply Forall_singleton. by apply Hr.
  - by apply Forall_take.
  - case_if; [|done]. apply Forall_app. split; [done|]. by apply Forall_singleton.
Qed.

(** What is typed is what is kept.  After any touches the input is a C string of
    at most 64 characters - the one an editor of a line makes of the keys touched:
    characters and spaces go to its end while there is room, backspace takes the last
    one away, shift and layer change the keys shown. *)
Theorem typed_text ly touches :
  let st := foldl (type_at ly) kb_state_init touches in
  let a := foldl (edit_at ly) ([], KB_ALPHA_LOWER) touches in
  cstr (kb_input st) = bytes_str (fst a) ∧ kb_cursor st = Z.of_nat (length (fst a)) ∧
  kb_layer st = snd a ∧ (length (fst a) ≤ 64)%nat ∧ length (kb_input st) = 65%nat.
Proof.
  assert (∀ st a, holds st a → Forall (λ c, c ≠ 0) (fst a) →
    holds (foldl (type_at ly) st touches) (foldl (edit_at ly) a touches) ∧
    Forall (λ c, c ≠ 0) (fst (foldl (edit_at ly) a touches))) as Hall.
  { induction touches as [|[tx ty] touches IH]; intros st a Ha Hz; [done|]. cbn [foldl]. apply IH.
    - pose proof Ha as (_ & _ & _ & _ & Hlay). unfold type_at, edit_at. cbn [fst snd]. rewrite Hlay.
      by apply kb_apply_holds.
    - apply edit_not_zero; [|done]. cbn [fst snd].
      destruct (hit_test_key ly tx ty (snd a)) as [-> | (c & Hc & ->)]; [done|].
      apply key_char_not_zero. by eapply keys_not_zero. }
  destruct (Hall kb_state_init ([], KB_ALPHA_LOWER)) as [(junk & Hin & Hlen & Hcur & Hlay) Hz]; [|done|].
  { by exists (replicate 64 0). }
  cbv zeta. set (st := foldl _ kb_state_init _) in *. set (a := foldl _ ([], _) _) in *.
  split_and!; [|done|done| |done].
  - rewrite Hin. clear -Hz. destruct a as [text layer]. cbn [fst] in *.
    induction Hz as [|c text Hc _ IH]; [done|]. cbn [app cstr bytes_str]. rewrite (proj2 (Z.eqb_neq _ _)) by done.
    by rewrite IH.
  - rewrite Hin, length_app in Hlen. cbn [length] in Hlen. lia.
Qed.

(** Some point of the upper edge of the row hits the key. *)
Definition key_found (layer : kb_layer_t) (row : nat) (c : Z) : bool :=
  existsb (λ tx, bool_decide (kb_hit_test default_layout tx (70 + 38 * Z.of_nat row) layer = key_result c))
    (seqZ 0 320).

Lemma all_keys_found layer row keys c :
  get_layer layer !! row = Some keys → c ∈ keys → key_found layer row c = true.
Proof.
  intros Hr Hc. assert (forallb (λ p, forallb (key_found layer (fst p)) (snd p)) (imap pair (get_layer layer)) = true)
    as Hall by (destruct layer; vm_compute; reflexivity).
  rewrite forallb_forall in Hall. specialize (Hall (row, keys)). cbn [fst snd] in Hall.
  rewrite forallb_forall in Hall. apply Hall; [|by apply list_elem_of_In].
  apply list_elem_of_In, list_elem_of_lookup. exists row. by rewrite list_lookup_imap, Hr.
Qed.

(** The keys on the screen.  With the layout of the program every key of every
    layer has a point on the screen of 320 by 480 pixels that hits it, and a touch
    that hits anything hits a key of the layer shown. *)
Theorem every_key_is_reachable layer row keys :
  get_layer layer !! row = Some keys →
  (∀ c, c ∈ keys →
     ∃ tx ty, 0 <= tx < 320 ∧ 0 <= ty < 480 ∧ kb_hit_test default_layout tx ty layer = key_result c) ∧
  ∀ tx ty, kr_action (kb_hit_test default_layout tx ty layer) ≠ KB_ACTION_NONE →
    ∃ c, c ∈ mjoin (get_layer layer) ∧ kb_hit_test default_layout tx ty layer = key_result c.
Proof.
  intros Hr. split.
  - intros c Hc. pose proof (all_keys_found layer row keys c Hr Hc) as Hf. unfold key_found in Hf.
    apply existsb_exists in Hf as (tx & Htx & Hf). apply bool_decide_eq_true in Hf.
    apply list_elem_of_In, elem_of_seqZ in Htx. exists tx, (70 + 38 * Z.of_nat row). split_and!; try done; try lia.
    apply lookup_lt_Some in Hr. assert (length (get_layer layer) = 4%nat) as Hl by by destruct layer. lia.
  - intros tx ty Hn. by destruct (hit_test_key default_layout tx ty layer) as [H0|H0]; [rewrite H0 in Hn|].
Qed.

(** The layer of digits has no backspace: what is meant for it is the two characters
    backslash and b. *)
Theorem digits_have_no_backspace ly tx ty :
  kr_action (kb_hit_test ly tx ty KB_NUMSYM) ≠ KB_ACTION_BACKSPACE.
Proof.
  destruct (hit_test_key ly tx ty KB_NUMSYM) as [-> | (c & Hc & ->)]; [done|].
  assert (∀ c, c ∈ mjoin (get_layer KB_NUMSYM) → kr_action (key_result c) ≠ KB_ACTION_BACKSPACE) as Hall; [|by apply Hall].
  apply Forall_forall, (bool_decide_unpack (Forall (λ c, kr_action (key_result c) ≠ KB_ACTION_BACKSPACE)
    (mjoin (get_layer KB_NUMSYM)))). vm_compute. exact I.
Qed.

(** Touches are on the screen.  Whatever the controller sends, a point it reports
    lies on the screen as it is turned. *)
Theorem touch_on_screen rotation transfer :
  let p := touch_read rotation transfer in
  tp_touched p = true →
  let '(w, h) := if (rotation =? 1) || (rotation =? 3) then (TOUCH_MAX_Y, TOUCH_MAX_X) else (TOUCH_MAX_X, TOUCH_MAX_Y) in
  0 <= tp_x p <= w ∧ 0 <= tp_y p <= h.
Proof.
  assert (∀ p, tp_touched p = true → 0 <= tp_x p <= 319 → 0 <= tp_y p <= 479 →
    let q := rotate_point rotation p in
    let '(w, h) := if (rotation =? 1) || (rotation =? 3) then (TOUCH_MAX_Y, TOUCH_MAX_X) else (TOUCH_MAX_X, TOUCH_MAX_Y) in
    0 <= tp_x q <= w ∧ 0 <= tp_y q <= h) as Hrot.
  { intros [x y t] Ht Hx Hy. cbn in Ht, Hx, Hy. subst t. unfold rotate_point, TOUCH_MAX_X, TOUCH_MAX_Y. cbn [tp_touched negb tp_x tp_y].
    destruct (Z.eqb_spec rotation 1) as [->|H1]; [cbn [orb Z.eqb Pos.eqb]|destruct (Z.eqb_spec rotation 2) as [->|H2];
      [cbn [orb Z.eqb Pos.eqb]|destruct (Z.eqb_spec rotation 3) as [->|H3]; cbn [orb]]];
      cbn [tp_x tp_y]; rewrite ?u16_small by (unfold is_u16; pow_consts; lia); lia. }
  cbv zeta. unfold touch_read. intros Ht. apply Hrot.
  - unfold rotate_point in Ht. destruct (tp_touched (touch_parse_raw transfer)) eqn:Hp; [done|].
    cbn [negb] in Ht. congruence.
  - unfold touch_parse_raw. destruct transfer as [d|]; [|cbn; lia]. case_if; [cbn; lia|]. cbn [tp_x].
    unfold TOUCH_MAX_X. pose proof (u16_range (Z.lor (Z.shiftl (Z.land (d !!! 2%nat) 15) 8) (d !!! 3%nat))) as Hu.
    unfold is_u16 in Hu. destruct (Z.ltb_spec 319 (u16 (Z.lor (Z.shiftl (Z.land (d !!! 2%nat) 15) 8) (d !!! 3%nat)))); lia.
  - unfold touch_parse_raw. destruct transfer as [d|]; [|cbn; lia]. case_if; [cbn; lia|]. cbn [tp_y].
    unfold TOUCH_MAX_Y. pose proof (u16_range (Z.lor (Z.shiftl (Z.land (d !!! 4%nat) 15) 8) (d !!! 5%nat))) as Hu.
    unfold is_u16 in Hu. destruct (Z.ltb_spec 479 (u16 (Z.lor (Z.shiftl (Z.land (d !!! 4%nat) 15) 8) (d !!! 5%nat)))); lia.
Qed.

(** * The dialogue keeps its selection *)

(** The states after a network has been chosen. *)
Definition chosen (t : setup_state_t) : bool :=
  match t with SETUP_PASSWORD | SETUP_CONNECTING | SETUP_SUCCESS | SETUP_FAILED => true | _ => false end.

Record setup_inv (s : wifi_setup_t) : Prop := {
  inv_aps : length (su_aps s) = WIFI_SETUP_MAX_APS;
  inv_count : 0 <= su_ap_count s <= 20;
  inv_scroll : su_list_scroll s = 0;
  inv_ip : (String.length (su_connect_ip s) ≤ 15)%nat;
  inv_chosen : chosen (su_state s) = true →
    ∃ ap, wifi_setup_get_visible s (su_selected_ap s) = Some ap ∧ su_selected_ssid s = strncpy 32 (ai_ssid ap);
  inv_failed : su_state s = SETUP_FAILED → su_connect_failed_auth s = true
}.

Lemma with_state_inv t failed s :
  setup_inv s → (chosen t = true → chosen (su_state s) = true) → (t = SETUP_FAILED → failed = true) →
  setup_inv (with_state t failed s).
Proof. intros [] Ht Hf. split; try done. cbn. intros Hc. exact (inv_chosen0 (Ht Hc)). Qed.

Lemma setup_select_inv i s : setup_inv s → setup_inv (wifi_setup_handle_select i s).
Proof.
  intros Hs. unfold wifi_setup_handle_select. case_if; [done|]. destruct (_ || _) eqn:Hi; [done|].
  pose proof Hs as []. split; try done. cbn [su_selected_ap su_selected_ssid]. intros _.
  apply orb_false_iff in Hi as [H1 H2]. bool_hyps.
  assert (is_Some (su_aps s !! Z.to_nat (su_list_scroll s + i))) as [ap Hap].
  { apply lookup_lt_is_Some. rewrite inv_aps0. unfold wifi_setup_visible_count, WIFI_SETUP_MAX_VISIBLE in *.
    repeat case_match; bool_hyps; unfold WIFI_SETUP_MAX_APS; lia. }
  exists ap. rewrite Hap. split; [|done]. unfold wifi_setup_get_visible. cbn [su_list_scroll su_aps].
  change (wifi_setup_visible_count (mk_setup _ _ _ _ _ _ _ _)) with (wifi_setup_visible_count s).
  rewrite inv_scroll0, Z.add_0_l in *. by rewrite (proj2 (Z.ltb_ge i 0)), (proj2 (Z.leb_gt _ i)) by lia.
Qed.

(** The dialogue is about a network of its list.  In every state reached by
    scans, selections, attempts, results, cancelling, retrying and changing the
    network, whenever a password is asked for, an attempt runs or its outcome is
    shown, the network selected is one of those on the screen, under its own name;
    a failure shown is marked as one. *)
Theorem dialogue_selects_from_list s : rtc setup_step wifi_setup_init s → setup_inv s.
Proof.
  assert (setup_inv wifi_setup_init) as H0 by (split; cbn; try done; lia).
  revert H0. generalize wifi_setup_init. intros s0 H0 Hr. revert H0.
  induction Hr as [|s0 s1 s2 Hs _ IH]; [done|]. intros Hi. apply IH.
  destruct Hs as [aps s|i s|s|ok ip s|s|s|s].
  - pose proof Hi as []. unfold wifi_setup_set_aps. split; cbn; try done.
    + rewrite length_app, length_drop, inv_aps0, length_take. unfold WIFI_SETUP_MAX_APS. lia.
    + rewrite length_take. unfold WIFI_SETUP_MAX_APS. lia.
  - by apply setup_select_inv.
  - unfold wifi_setup_handle_connect. case_bool_decide as Ht; [|done]. cbn [negb]. apply with_state_inv; [done| |done].
    by rewrite Ht.
  - unfold wifi_setup_handle_connect_result. case_bool_decide as Ht; [|done]. cbn [negb]. pose proof Hi as [].
    destruct ok; split; cbn; try done; try (intros _; apply inv_chosen0; by rewrite Ht).
    + destruct ip; [apply strncpy_length|done].
    + lia.
  - by apply with_state_inv.
  - unfold wifi_setup_handle_retry. case_bool_decide as Ht; [|done]. cbn [negb]. apply with_state_inv; [done| |done].
    by rewrite Ht.
  - unfold wifi_setup_handle_change_network. case_bool_decide as Ht; [|done]. by apply with_state_inv.
Qed.

(** * Concrete runs *)

Lemma every_key_is_reachable_witness :
  ∃ tx ty, 0 <= tx < 320 ∧ 0 <= ty < 480 ∧ kb_hit_test default_layout tx ty KB_ALPHA_LOWER = mk_result KB_ACTION_BACKSPACE 0.
Proof.
  destruct (every_key_is_reachable KB_ALPHA_LOWER 2 (CTRL_SHIFT :: str_bytes "zxcvbnm" ++ [CTRL_BS])) as [H _].
  - reflexivity.
  - apply (H CTRL_BS). apply (bool_decide_unpack (CTRL_BS ∈ CTRL_SHIFT :: str_bytes "zxcvbnm" ++ [CTRL_BS])).
    vm_compute. exact I.
Defined.

Lemma touch_on_screen_witness :
  let p := touch_read 1 (Some [0; 1; 0x0F; 0xFF; 0; 7; 0; 0]) in
  0 <= tp_x p <= 479 ∧ 0 <= tp_y p <= 319.
Proof. apply (touch_on_screen 1 (Some [0; 1; 0x0F; 0xFF; 0; 7; 0; 0])). vm_compute. reflexivity. Defined.

Lemma dialogue_selects_from_list_witness :
  setup_inv (wifi_setup_handle_connect
    (wifi_setup_handle_select 0 (wifi_setup_set_aps [mk_ap_info "home" (-40) true] wifi_setup_init))).
Proof.
  apply dialogue_selects_from_list. eapply rtc_l; [apply step_set_aps|].
  eapply rtc_l; [apply step_select|]. eapply rtc_l; [apply step_connect|]. apply rtc_refl.
Defined.

(** q, w, backspace, t *)
Example typed_word :
  cstr (kb_input (foldl (type_at default_layout) kb_state_init [(15, 80); (60, 80); (310, 150); (140, 80)])) = "qt"%string.
Proof. vm_compute. reflexivity. Qed.
