(* ===== verification/QrBits.v ===== *)
(** The bits of a QR code (components/qrcode/qrcoded.c): the bit buffers, the three
    modes of encoding a text, and a reader of the encoded bits that gives the text
    back.  An access outside a buffer is [None]. *)

From S2P Require Import Prelude.
#[local] Open Scope Z_scope.

Definition MODE_NUMERIC : Z := 0.
Definition MODE_ALPHANUMERIC : Z := 1.
Definition MODE_BYTE : Z := 2.

(** * Buffers of bits *)

Record bit_bucket := mk_bucket { bb_offset : Z; bb_capacity : Z; bb_data : list Z }.

Definition bb_getGridSizeBytes (size : Z) : Z := u16 ((size * size + 7) / 8).
Definition bb_getBufferSizeBytes (bits : Z) : Z := u16 (u32 (bits + 7) / 8).

(** [data] is the array the caller provides, cleared for the bytes of the bucket. *)
Definition bb_initBuffer (capacity : Z) : bit_bucket :=
  mk_bucket 0 (u16 capacity) (replicate (Z.to_nat (u16 capacity)) 0).
Definition bb_initGrid (size : Z) : bit_bucket :=
  mk_bucket size (bb_getGridSizeBytes size) (replicate (Z.to_nat (bb_getGridSizeBytes size)) 0).

(** The loop of [bb_appendBits], from the highest of [n] bits to the lowest. *)
Fixpoint append_loop (n : nat) (val offset : Z) (data : list Z) : option (Z * list Z) :=
  match n with
  | O => Some (offset, data)
  | S i =>
      let k := Z.to_nat (Z.shiftr offset 3) in
      b ← data !! k;
      append_loop i val (u32 (offset + 1))
        (<[k := Z.lor b (Z.shiftl (Z.land (Z.shiftr val (Z.of_nat i)) 1) (7 - Z.land offset 7))]> data)
  end.

Definition bb_appendBits (b : bit_bucket) (val length : Z) : option bit_bucket :=
  '(offset, data) ← append_loop (Z.to_nat length) val (bb_offset b) (bb_data b);
  Some (mk_bucket offset (bb_capacity b) data).

(** * Modes *)

Definition getAlphanumeric (c : Z) : Z :=
  if (48 <=? c) && (c <=? 57) then c - 48
  else if (65 <=? c) && (c <=? 90) then c - 65 + 10
  else if c =? 32 then 36 else if c =? 36 then 37 else if c =? 37 then 38 else if c =? 42 then 39
  else if c =? 43 then 40 else if c =? 45 then 41 else if c =? 46 then 42 else if c =? 47 then 43
  else if c =? 58 then 44 else -1.

(** Both tests walk the text from its end. *)
Definition isAlphanumeric (text : list Z) : bool :=
  forallb (λ c, negb (getAlphanumeric c =? -1)) (rev text).
Definition isNumeric (text : list Z) : bool := forallb (λ c, negb ((c <? 48) || (57 <? c))) (rev text).

Definition getModeBits (version mode : Z) : Z :=
  let modeInfo := 0x7bbb80a in
  let modeInfo := if 9 <? version then Z.shiftr modeInfo 9 else modeInfo in
  let modeInfo := if 26 <? version then Z.shiftr modeInfo 9 else modeInfo in
  let result := 8 + Z.land (Z.shiftr modeInfo (3 * mode)) 7 in
  if result =? 15 then 16 else result.

(** The two loops that gather characters: [group] of them make a number in base [base],
    which is written with [bits] bits.  What is gathered but not written is returned. *)
Fixpoint accum_loop (base : Z) (digit : Z → Z) (group bits : Z) (text : list Z) (accumData accumCount : Z)
    (b : bit_bucket) : option (Z * Z * bit_bucket) :=
  match text with
  | [] => Some (accumData, accumCount, b)
  | c :: text' =>
      let accumData := u16 (accumData * base + digit c) in
      let accumCount := u8 (accumCount + 1) in
      if accumCount =? group then
        b' ← bb_appendBits b accumData bits;
        accum_loop base digit group bits text' 0 0 b'
      else accum_loop base digit group bits text' accumData accumCount b
  end.

Fixpoint byte_loop (text : list Z) (b : bit_bucket) : option bit_bucket :=
  match text with
  | [] => Some b
  | c :: text' => b' ← bb_appendBits b c 8; byte_loop text' b'
  end.

(** [length] is the length of the text. *)
Definition encodeDataCodewords (b : bit_bucket) (text : list Z) (version : Z) : option (Z * bit_bucket) :=
  let length := Z.of_nat (length text) in
  if isNumeric text then
    b ← bb_appendBits b (Z.shiftl 1 MODE_NUMERIC) 4;
    b ← bb_appendBits b length (getModeBits version MODE_NUMERIC);
    '(accumData, accumCount, b) ← accum_loop 10 (λ c, c - 48) 3 10 text 0 0 b;
    if 0 <? accumCount then
      b ← bb_appendBits b accumData (accumCount * 3 + 1); Some (MODE_NUMERIC, b)
    else Some (MODE_NUMERIC, b)
  else if isAlphanumeric text then
    b ← bb_appendBits b (Z.shiftl 1 MODE_ALPHANUMERIC) 4;
    b ← bb_appendBits b length (getModeBits version MODE_ALPHANUMERIC);
    '(accumData, accumCount, b) ← accum_loop 45 getAlphanumeric 2 11 text 0 0 b;
    if 0 <? accumCount then
      b ← bb_appendBits b accumData 6; Some (MODE_ALPHANUMERIC, b)
    else Some (MODE_ALPHANUMERIC, b)
  else
    b ← bb_appendBits b (Z.shiftl 1 MODE_BYTE) 4;
    b ← bb_appendBits b length (getModeBits version MODE_BYTE);
    b ← byte_loop text b;
    Some (MODE_BYTE, b).

(** The terminator and the padding that [qrcode_initBytes] appends, up to the capacity
    in bytes; [fuel] turns of the loop of padding bytes. *)
Fixpoint pad_loop (fuel : nat) (padByte dataCapacity : Z) (b : bit_bucket) : option bit_bucket :=
  if dataCapacity * 8 <=? bb_offset b then Some b else
  match fuel with
  | O => None
  | S fuel' =>
      b' ← bb_appendBits b padByte 8;
      pad_loop fuel' (Z.lxor padByte (Z.lxor 0xEC 0x11)) dataCapacity b'
  end.

Definition pad_codewords (dataCapacity : Z) (b : bit_bucket) : option bit_bucket :=
  let padding := u32 (dataCapacity * 8 - bb_offset b) in
  let padding := if 4 <? padding then 4 else padding in
  b ← bb_appendBits b 0 padding;
  b ← bb_appendBits b 0 ((8 - bb_offset b mod 8) mod 8);
  pad_loop (Z.to_nat dataCapacity) 0xEC dataCapacity b.

(** * A reader *)

Definition byte_bits (b : Z) : list bool := Z.testbit b <$> [7; 6; 5; 4; 3; 2; 1; 0].
Definition bytes_bits (l : list Z) : list bool := l ≫= byte_bits.

(** The [n] lowest bits of a number, the highest first, and the number of some bits. *)
Fixpoint nbits (n : nat) (v : Z) : list bool :=
  match n with O => [] | S i => Z.testbit v (Z.of_nat i) :: nbits i v end.
Definition bits_val (bs : list bool) : Z := foldl (λ acc b, 2 * acc + Z.b2z b) 0 bs.

(** The characters of the alphanumeric mode in the order of their numbers. *)
Definition alphanumeric_chars : list Z :=
  [48; 49; 50; 51; 52; 53; 54; 55; 56; 57; 65; 66; 67; 68; 69; 70; 71; 72; 73; 74; 75; 76; 77; 78; 79; 80; 81; 82; 83;
   84; 85; 86; 87; 88; 89; 90; 32; 36; 37; 42; 43; 45; 46; 47; 58].

Definition alphanumeric_char (v : Z) : Z := alphanumeric_chars !!! Z.to_nat v.

Fixpoint read_numeric (n : nat) (bs : list bool) : list Z :=
  match n with
  | O => []
  | S O => [48 + bits_val (take 4 bs)]
  | S (S O) => let v := bits_val (take 7 bs) in [48 + v / 10; 48 + v mod 10]
  | S (S (S m)) =>
      let v := bits_val (take 10 bs) in
      48 + v / 100 :: 48 + v / 10 mod 10 :: 48 + v mod 10 :: read_numeric m (drop 10 bs)
  end.

Fixpoint read_alphanumeric (n : nat) (bs : list bool) : list Z :=
  match n with
  | O => []
  | S O => [alphanumeric_char (bits_val (take 6 bs))]
  | S (S m) =>
      let v := bits_val (take 11 bs) in
      alphanumeric_char (v / 45) :: alphanumeric_char (v mod 45) :: read_alphanumeric m (drop 11 bs)
  end.

Fixpoint read_bytes (n : nat) (bs : list bool) : list Z :=
  match n with O => [] | S m => bits_val (take 8 bs) :: read_bytes m (drop 8 bs) end.

(** What a reader makes of the bits of the data: the mode, the count, the characters. *)
Definition read_data (version : Z) (bs : list bool) : option (list Z) :=
  let mode := bits_val (take 4 bs) in
  let bs := drop 4 bs in
  let segment m (read : nat → list bool → list Z) :=
    let w := Z.to_nat (getModeBits version m) in
    Some (read (Z.to_nat (bits_val (take w bs))) (drop w bs)) in
  if mode =? 1 then segment MODE_NUMERIC read_numeric
  else if mode =? 2 then segment MODE_ALPHANUMERIC read_alphanumeric
  else if mode =? 4 then segment MODE_BYTE read_bytes
  else None.

(** * Bytes and their bits *)

Lemma length_byte_bits b : length (byte_bits b) = 8%nat.
Proof. done. Qed.

Lemma bytes_bits_cons b l : bytes_bits (b :: l) = byte_bits b ++ bytes_bits l.
Proof. done. Qed.

Lemma length_bytes_bits l : length (bytes_bits l) = (8 * length l)%nat.
Proof.
  induction l as [|b l IH]; [done|]. rewrite bytes_bits_cons, length_app, IH, length_byte_bits. cbn [length]. lia.
Qed.

Lemma bytes_bits_app l1 l2 : bytes_bits (l1 ++ l2) = bytes_bits l1 ++ bytes_bits l2.
Proof. unfold bytes_bits. apply bind_app. Qed.

Lemma bytes_bits_insert l i b b' r v :
  l !! i = Some b → (r < 8)%nat → byte_bits b' = <[r := v]> (byte_bits b) →
  bytes_bits (<[i := b']> l) = <[(8 * i + r)%nat := v]> (bytes_bits l).
Proof.
  intros Hi Hr Hb. revert i Hi. induction l as [|c l IH]; intros [|i] Hi; [done..| |].
  - injection Hi as ->. change (<[0%nat := b']> (b :: l)) with (b' :: l). rewrite !bytes_bits_cons, Hb. rewrite Nat.mul_0_r, Nat.add_0_l.
    by rewrite insert_app_l by (rewrite length_byte_bits; lia).
  - change (<[S i := b']> (c :: l)) with (c :: <[i := b']> l). rewrite !bytes_bits_cons, (IH i) by done.
    rewrite (insert_app_r_alt _ _ (8 * S i + r)) by (rewrite length_byte_bits; lia).
    rewrite length_byte_bits. do 2 f_equal. lia.
Qed.

Lemma bytes_bits_lookup l k :
  bytes_bits l !! k = (b ← l !! (k / 8)%nat; Some (Z.testbit b (7 - Z.of_nat (k mod 8)))).
Proof.
  revert k. induction l as [|b l IH]; intros k; [by rewrite !lookup_nil|]. rewrite bytes_bits_cons.
  destruct (decide (k < 8)%nat) as [Hk|Hk].
  - rewrite lookup_app_l by (rewrite length_byte_bits; lia).
    rewrite Nat.div_small, Nat.mod_small by lia. cbn [lookup list_lookup mbind option_bind].
    do 8 (destruct k as [|k]; [done|]). lia.
  - rewrite lookup_app_r by (rewrite length_byte_bits; lia). rewrite length_byte_bits, IH.
    assert (∃ j, k = (j + 1 * 8)%nat) as [j ->] by (exists (k - 8)%nat; lia).
    rewrite Nat.div_add, Nat.Div0.mod_add, Nat.add_1_r by lia. by replace (j + 1 * 8 - 8)%nat with j by lia.
Qed.

Lemma testbit_bit n k : 0 <= k → Z.testbit (Z.shiftl 1 n) k = bool_decide (k = n).
Proof.
  intros Hk. case_bool_decide as H.
  - subst. rewrite Z.shiftl_1_l. apply Z.pow2_bits_true. done.
  - destruct (decide (0 <= n)); [rewrite Z.shiftl_1_l; by apply Z.pow2_bits_false|].
    rewrite Z.shiftl_spec by done. rewrite Z.bits_above_log2; [done|lia|]. cbn. lia.
Qed.

(** Setting and clearing the bit [r] of a byte, counted from its highest. *)
Lemma byte_bits_lor b r : (r < 8)%nat →
  byte_bits (Z.lor b (Z.shiftl 1 (7 - Z.of_nat r))) = <[r := true]> (byte_bits b).
Proof.
  intros Hr. unfold byte_bits. apply list_eq. intros i. destruct (decide (i < 8)%nat) as [Hi|Hi].
  - do 8 (destruct i as [|i]; [do 8 (destruct r as [|r]; [cbn -[Z.testbit Z.lor Z.shiftl]; rewrite Z.lor_spec, testbit_bit by lia;
      by rewrite ?orb_true_r, ?orb_false_r|]); lia|]). lia.
  - rewrite lookup_ge_None_2 by (cbn; lia). rewrite lookup_ge_None_2; [done|]. rewrite length_insert. cbn. lia.
Qed.

Lemma byte_bits_clear b r : (r < 8)%nat →
  byte_bits (Z.land b (Z.lnot (Z.shiftl 1 (7 - Z.of_nat r)))) = <[r := false]> (byte_bits b).
Proof.
  intros Hr. unfold byte_bits. apply list_eq. intros i. destruct (decide (i < 8)%nat) as [Hi|Hi].
  - do 8 (destruct i as [|i]; [do 8 (destruct r as [|r]; [cbn -[Z.testbit Z.land Z.lnot Z.shiftl];
      rewrite Z.land_spec, Z.lnot_spec, testbit_bit by lia; by rewrite ?andb_true_r, ?andb_false_r|]); lia|]). lia.
  - rewrite lookup_ge_None_2 by (cbn; lia). rewrite lookup_ge_None_2; [done|]. rewrite length_insert. cbn. lia.
Qed.

(** * Writing bits *)

(** The bits of a buffer are those written so far; the rest of its array is clear. *)
Record buf_holds (bs : list bool) (b : bit_bucket) : Prop := {
  holds_offset : bb_offset b = Z.of_nat (length bs);
  holds_bits : bytes_bits (bb_data b) = bs ++ replicate (8 * length (bb_data b) - length bs) false;
  holds_room : (length bs ≤ 8 * length (bb_data b))%nat;
  holds_size : Z.of_nat (length (bb_data b)) < 65536;
  holds_capacity : bb_capacity b = Z.of_nat (length (bb_data b));
  holds_u8 : Forall is_u8 (bb_data b);
}.

Lemma u8_log2 a : is_u8 a ↔ 0 <= a ∧ (a = 0 ∨ Z.log2 a < 8).
Proof.
  unfold is_u8. split.
  - intros Ha. split; [lia|]. destruct (decide (a = 0)); [by left|]. right. apply Z.log2_lt_pow2; lia.
  - intros [Ha [->|Hl]]; [done|]. destruct (decide (a = 0)) as [->|]; [done|]. apply Z.log2_lt_pow2 in Hl; lia.
Qed.

Lemma u8_lor a b : is_u8 a → is_u8 b → is_u8 (Z.lor a b).
Proof.
  rewrite !u8_log2. intros [Ha Hla] [Hb Hlb]. split; [by apply Z.lor_nonneg|].
  destruct (decide (a = 0)) as [->|]; [by rewrite Z.lor_0_l|]. destruct (decide (b = 0)) as [->|]; [by rewrite Z.lor_0_r|].
  right. rewrite Z.log2_lor by done. lia.
Qed.

Lemma bytes_bits_zero n : bytes_bits (replicate n 0) = replicate (8 * n) false.
Proof.
  induction n as [|n IH]; [done|]. cbn [replicate]. rewrite bytes_bits_cons, IH.
  change (byte_bits 0) with (replicate 8 false). rewrite <- replicate_add. f_equal. lia.
Qed.

Lemma init_holds capacity : 0 <= capacity → buf_holds [] (bb_initBuffer capacity).
Proof.
  intros Hc. pose proof (u16_range capacity) as Hr. unfold is_u16 in Hr. unfold bb_initBuffer.
  split; cbn [bb_offset bb_data bb_capacity length]; rewrite ?length_replicate;
    [done| |lia|pow_consts; lia|lia|by apply Forall_replicate].
  by rewrite bytes_bits_zero, Nat.sub_0_r.
Qed.

Lemma land_1_testbit v i : Z.land (Z.shiftr v i) 1 = Z.b2z (Z.testbit v i).
Proof. rewrite (Z.land_ones _ 1), Z.testbit_odd, <- Z.bit0_odd by done. symmetry. apply Z.bit0_mod. Qed.

Lemma length_nbits n v : length (nbits n v) = n.
Proof. induction n; cbn; auto. Qed.

(** One bit at the end of what is written. *)
Lemma append_bit bs data v i :
  bytes_bits data = bs ++ replicate (8 * length data - length bs) false → (length bs < 8 * length data)%nat →
  Z.of_nat (length data) < 65536 → Forall is_u8 data → 0 <= i →
  let offset := Z.of_nat (length bs) in
  let k := Z.to_nat (Z.shiftr offset 3) in
  ∃ b, data !! k = Some b ∧
    u32 (offset + 1) = Z.of_nat (length (bs ++ [Z.testbit v i])) ∧
    is_u8 (Z.lor b (Z.shiftl (Z.land (Z.shiftr v i) 1) (7 - Z.land offset 7))) ∧
    bytes_bits (<[k := Z.lor b (Z.shiftl (Z.land (Z.shiftr v i) 1) (7 - Z.land offset 7))]> data)
    = (bs ++ [Z.testbit v i]) ++ replicate (8 * length data - length (bs ++ [Z.testbit v i])) false.
Proof.
  intros Hbits Hroom Hsize Hu Hi offset k.
  assert (k = length bs / 8)%nat as Hk.
  { subst k offset. rewrite Z.shiftr_div_pow2 by done. change (2 ^ 3) with (Z.of_nat 8). by rewrite <- Nat2Z.inj_div, Nat2Z.id. }
  assert (Z.land offset 7 = Z.of_nat (length bs mod 8)) as ->.
  { unfold offset. rewrite (Z.land_ones _ 3) by done. change (2 ^ 3) with (Z.of_nat 8). by rewrite <- Nat2Z.inj_mod. }
  pose proof (Nat.div_mod_eq (length bs) 8) as Hdm. pose proof (Nat.mod_upper_bound (length bs) 8 ltac:(lia)) as Hmod.
  destruct (lookup_lt_is_Some_2 data k) as [b Hb]; [lia|]. exists b.
  pose proof (length_app bs [Z.testbit v i]) as Hla. cbn [length] in Hla. split_and!; [done| | |].
  { rewrite Hla. unfold u32, offset. rewrite Z.mod_small by (pow_consts; lia). lia. }
  { apply u8_lor; [by eapply Forall_lookup_1|]. rewrite land_1_testbit. set (r := (length bs mod 8)%nat) in *. clearbody r.
    destruct (Z.testbit v i); cbn [Z.b2z]; [|by rewrite Z.shiftl_0_l]. by do 8 (destruct r as [|r]; [done|]); lia. }
  assert (bytes_bits (<[k := Z.lor b (Z.shiftl (Z.land (Z.shiftr v i) 1) (7 - Z.of_nat (length bs mod 8)))]> data)
          = <[length bs := Z.testbit v i]> (bytes_bits data)) as ->.
  { rewrite land_1_testbit. replace (length bs) with (8 * k + length bs mod 8)%nat at 2 by lia.
    apply (bytes_bits_insert _ _ b); [done..|]. destruct (Z.testbit v i); cbn [Z.b2z]; [by apply byte_bits_lor|].
    rewrite Z.shiftl_0_l, Z.lor_0_r, list_insert_id; [done|].
    assert (bytes_bits data !! length bs = Some false) as Hf.
    { rewrite Hbits, lookup_app_r, Nat.sub_diag by lia. apply lookup_replicate_2. lia. }
    rewrite bytes_bits_lookup, <- Hk, Hb in Hf. cbn [mbind option_bind] in Hf.
    assert (bytes_bits [b] !! (length bs mod 8)%nat = Some false) as Hf'; [|by rewrite bytes_bits_cons, app_nil_r in Hf'].
    rewrite bytes_bits_lookup, Nat.div_small, Nat.Div0.mod_mod by lia. exact Hf. }
  rewrite Hbits, Hla. replace (8 * length data - length bs)%nat with (S (8 * length data - (length bs + 1))) by lia.
  cbn [replicate]. rewrite <- app_assoc. cbn [app].
  rewrite (insert_app_r_alt bs _ (length bs)), Nat.sub_diag by lia. done.
Qed.

Lemma append_loop_holds n v bs data :
  bytes_bits data = bs ++ replicate (8 * length data - length bs) false → (length bs + n ≤ 8 * length data)%nat →
  Z.of_nat (length data) < 65536 → Forall is_u8 data →
  ∃ data', append_loop n v (Z.of_nat (length bs)) data = Some (Z.of_nat (length (bs ++ nbits n v)), data') ∧
    length data' = length data ∧ Forall is_u8 data' ∧
    bytes_bits data' = (bs ++ nbits n v) ++ replicate (8 * length data' - length (bs ++ nbits n v)) false.
Proof.
  revert bs data. induction n as [|n IH]; intros bs data Hbits Hroom Hsize Hu; cbn [append_loop nbits].
  { exists data. by rewrite app_nil_r. }
  destruct (append_bit bs data v (Z.of_nat n)) as (b & -> & -> & Hbu & Hb); [done|lia|done|done|lia|]. cbn [mbind option_bind].
  set (data1 := <[_ := _]> data) in *. assert (length data1 = length data) as Hl by apply length_insert.
  destruct (IH (bs ++ [Z.testbit v (Z.of_nat n)]) data1) as (data' & Ha & Hl' & Hu' & Hb').
  { by rewrite Hl. }
  { rewrite length_app, Hl. cbn [length]. lia. }
  { lia. }
  { by apply Forall_insert. }
  rewrite <- app_assoc in Ha. exists data'. split_and!; [exact Ha|lia|done|].
  rewrite <- (app_assoc bs [_] (nbits n v)) in Hb'. exact Hb'.
Qed.

Lemma append_holds bs b v n :
  buf_holds bs b → (length bs + Z.to_nat n ≤ 8 * length (bb_data b))%nat →
  ∃ b', bb_appendBits b v n = Some b' ∧ buf_holds (bs ++ nbits (Z.to_nat n) v) b' ∧
    length (bb_data b') = length (bb_data b).
Proof.
  intros [Ho Hb Hr Hs Hc] Hroom. unfold bb_appendBits. rewrite Ho.
  destruct (append_loop_holds (Z.to_nat n) v bs (bb_data b)) as (data' & -> & Hl & Hu' & Hb'); [done..|].
  cbn [mbind option_bind]. eexists. split; [done|]. cbn [bb_data]. split; [|done].
  split; cbn [bb_offset bb_data bb_capacity]; [done|done| |lia|lia|done]. rewrite length_app, length_nbits. lia.
Qed.

(** More bits than there is room for end outside the array. *)
Lemma append_loop_overflow n v offset data :
  0 <= offset <= 8 * Z.of_nat (length data) → Z.of_nat (length data) < 65536 → 8 * Z.of_nat (length data) < offset + Z.of_nat n →
  append_loop n v offset data = None.
Proof.
  revert offset data. induction n as [|n IH]; intros offset data Ho Hs Hn; [lia|]. cbn [append_loop].
  destruct (data !! _) as [b|] eqn:Hb; [|done]. cbn [mbind option_bind]. apply lookup_lt_Some in Hb.
  rewrite Z.shiftr_div_pow2 in Hb by done. change (2 ^ 3) with 8 in Hb.
  assert (offset + 1 <= 8 * Z.of_nat (length data)) by (Z.to_euclidean_division_equations; lia).
  apply IH; rewrite ?length_insert; unfold u32; rewrite ?Z.mod_small by (pow_consts; lia); lia.
Qed.

Lemma append_overflow bs b v n :
  buf_holds bs b → (8 * length (bb_data b) < length bs + Z.to_nat n)%nat → bb_appendBits b v n = None.
Proof.
  intros [Ho Hb Hr Hs Hc _] Hroom. unfold bb_appendBits. by rewrite Ho, append_loop_overflow by lia.
Qed.

(** * Reading numbers back *)

Lemma foldl_bits acc bs : foldl (λ a b, 2 * a + Z.b2z b) acc bs = acc * 2 ^ Z.of_nat (length bs) + bits_val bs.
Proof.
  unfold bits_val. revert acc. induction bs as [|b bs IH]; intros acc; cbn [foldl length]; [lia|].
  rewrite IH, (IH (2 * 0 + _)). rewrite Nat2Z.inj_succ, Z.pow_succ_r by lia. lia.
Qed.

Lemma bits_val_nbits n v : bits_val (nbits n v) = v mod 2 ^ Z.of_nat n.
Proof.
  induction n as [|n IH]; [by rewrite Z.mod_1_r|]. cbn [nbits]. unfold bits_val. cbn [foldl].
  rewrite foldl_bits, length_nbits, IH, Z.testbit_spec' by lia.
  rewrite Nat2Z.inj_succ, Z.pow_succ_r, (Z.mul_comm 2 (2 ^ _)), Z.rem_mul_r by lia. ring.
Qed.

Lemma read_nbits n w v rest :
  w = n → 0 <= v < 2 ^ Z.of_nat n → bits_val (take w (nbits n v ++ rest)) = v.
Proof.
  intros -> Hv. rewrite take_app_length' by (by rewrite length_nbits). rewrite bits_val_nbits. by apply Z.mod_small.
Qed.

Lemma drop_nbits n w v rest : w = n → drop w (nbits n v ++ rest) = rest.
Proof. intros ->. apply drop_app_length'. by rewrite length_nbits. Qed.

(** * What is written for a text *)

Fixpoint numeric_bits (text : list Z) : list bool :=
  match text with
  | [] => []
  | [a] => nbits 4 (a - 48)
  | [a; b] => nbits 7 ((a - 48) * 10 + (b - 48))
  | a :: b :: c :: t => nbits 10 (((a - 48) * 10 + (b - 48)) * 10 + (c - 48)) ++ numeric_bits t
  end.

Fixpoint alphanumeric_bits (text : list Z) : list bool :=
  match text with
  | [] => []
  | [a] => nbits 6 (getAlphanumeric a)
  | a :: b :: t => nbits 11 (getAlphanumeric a * 45 + getAlphanumeric b) ++ alphanumeric_bits t
  end.

Definition byte_mode_bits (text : list Z) : list bool := text ≫= nbits 8.

Definition mode_of (text : list Z) : Z :=
  if isNumeric text then MODE_NUMERIC else if isAlphanumeric text then MODE_ALPHANUMERIC else MODE_BYTE.

Definition text_bits (text : list Z) : list bool :=
  if isNumeric text then numeric_bits text
  else if isAlphanumeric text then alphanumeric_bits text else byte_mode_bits text.

(** The mode, the count and the characters. *)
Definition encoded (version : Z) (text : list Z) : list bool :=
  nbits 4 (Z.shiftl 1 (mode_of text)) ++
  nbits (Z.to_nat (getModeBits version (mode_of text))) (Z.of_nat (length text)) ++ text_bits text.

Definition numeric_char (c : Z) : Prop := 48 <= c <= 57.
Definition alphanumeric (c : Z) : Prop := 0 <= getAlphanumeric c < 45 ∧ alphanumeric_char (getAlphanumeric c) = c.

Lemma isNumeric_spec text : isNumeric text = true → Forall numeric_char text.
Proof.
  unfold isNumeric. rewrite forallb_forall. intros Hn. apply Forall_forall. intros c Hc.
  apply list_elem_of_In, in_rev, Hn in Hc. bool_hyps. unfold numeric_char. lia.
Qed.

Lemma alphanumeric_dec c : getAlphanumeric c ≠ -1 → alphanumeric c.
Proof.
  intros Hc. assert (c ∈ seqZ 32 59) as Hin.
  { apply elem_of_seqZ. revert Hc. unfold getAlphanumeric. repeat case_if; intros Hc; bool_hyps; lia. }
  assert (Forall (λ c, getAlphanumeric c ≠ -1 → alphanumeric c) (seqZ 32 59)) as Hall.
  { unfold alphanumeric. by apply (bool_decide_unpack _); vm_compute. }
  rewrite Forall_forall in Hall. by apply Hall.
Qed.

Lemma isAlphanumeric_spec text : isAlphanumeric text = true → Forall alphanumeric text.
Proof.
  unfold isAlphanumeric. rewrite forallb_forall. intros Hn. apply Forall_forall. intros c Hc.
  apply list_elem_of_In, in_rev, Hn in Hc. bool_hyps. by apply alphanumeric_dec.
Qed.

(** Induction over texts in groups of three and of two characters. *)
Lemma list_ind3 {A} (P : list A → Prop) :
  P [] → (∀ a, P [a]) → (∀ a b, P [a; b]) → (∀ a b c t, P t → P (a :: b :: c :: t)) → ∀ l, P l.
Proof. intros H0 H1 H2 H3. fix go 1.
  intros [|a [|b [|c t]]]; [exact H0|exact (H1 a)|exact (H2 a b)|exact (H3 a b c t (go t))].
Qed.

Lemma list_ind2 {A} (P : list A → Prop) : P [] → (∀ a, P [a]) → (∀ a b t, P t → P (a :: b :: t)) → ∀ l, P l.
Proof. intros H0 H1 H2. fix go 1. intros [|a [|b t]]; [exact H0|exact (H1 a)|exact (H2 a b t (go t))]. Qed.

(** ** The characters read back *)

Lemma read_numeric_bits text rest :
  Forall numeric_char text → read_numeric (length text) (numeric_bits text ++ rest) = text.
Proof.
  unfold numeric_char. induction text as [|a|a b|a b c t IH] using list_ind3; intros Ht; [done|..];
    repeat match goal with H : Forall _ (_ :: _) |- _ => apply Forall_cons_1 in H as [? ?] end;
    cbn [length read_numeric numeric_bits]; rewrite <- ?app_assoc, ?drop_nbits, !read_nbits, ?IH
      by (done || (cbn [Z.of_nat Pos.of_succ_nat Pos.succ]; lia));
    repeat f_equal; Z.to_euclidean_division_equations; lia.
Qed.

Lemma read_alphanumeric_bits text rest :
  Forall alphanumeric text → read_alphanumeric (length text) (alphanumeric_bits text ++ rest) = text.
Proof.
  unfold alphanumeric. induction text as [|a|a b t IH] using list_ind2; intros Ht; [done|..];
    repeat match goal with H : Forall _ (_ :: _) |- _ => apply Forall_cons_1 in H as [[? ?] ?] end;
    cbn [length read_alphanumeric alphanumeric_bits]; rewrite <- ?app_assoc, ?drop_nbits, !read_nbits, ?IH
      by (done || (cbn [Z.of_nat Pos.of_succ_nat Pos.succ]; lia)); [by f_equal|].
  rewrite Z.div_add_l, (Z.div_small (getAlphanumeric b)), Z.add_0_r by lia.
  rewrite Z.add_comm, Z.mod_add, Z.mod_small by lia. by repeat f_equal.
Qed.

Lemma read_byte_bits text rest : Forall is_u8 text → read_bytes (length text) (byte_mode_bits text ++ rest) = text.
Proof.
  induction text as [|a t IH]; intros Ht; [done|]. apply Forall_cons_1 in Ht as [Ha Ht].
  change (byte_mode_bits (a :: t)) with (nbits 8 a ++ byte_mode_bits t).
  cbn [length read_bytes]. rewrite <- app_assoc, drop_nbits, read_nbits, IH by done. done.
Qed.

(** The bits of a text, with whatever follows them, are read as the text. *)
Lemma read_encoded version text rest :
  Forall is_u8 text → Z.of_nat (length text) < 2 ^ getModeBits version (mode_of text) →
  read_data version (encoded version text ++ rest) = Some text.
Proof.
  intros Hb Hlen. unfold read_data, encoded. rewrite <- app_assoc, drop_nbits by done.
  assert (0 <= getModeBits version (mode_of text)) as Hm.
  { unfold getModeBits. case_if; [lia|]. pose proof (Z.land_nonneg (Z.shiftr
      (if 26 <? version then (if 9 <? version then 0x7bbb80a ≫ 9 else 0x7bbb80a) ≫ 9
       else if 9 <? version then 0x7bbb80a ≫ 9 else 0x7bbb80a) (3 * mode_of text)) 7). lia. }
  rewrite read_nbits by (try done; unfold mode_of; repeat case_if; done).
  unfold mode_of, text_bits in *.
  destruct (isNumeric text) eqn:Hn; [|destruct (isAlphanumeric text) eqn:Ha]; repeat (case_if; try done);
    rewrite <- app_assoc, drop_nbits, read_nbits, Nat2Z.id by (try done; rewrite Z2Nat.id by done; lia); f_equal;
    auto using read_numeric_bits, isNumeric_spec, read_alphanumeric_bits, isAlphanumeric_spec, read_byte_bits.
Qed.

(** ** The characters written *)

Lemma accum_step base digit group bits c text acc cnt b :
  0 <= acc * base + digit c < 65536 → 0 <= cnt < 255 →
  accum_loop base digit group bits (c :: text) acc cnt b =
  if cnt + 1 =? group then b' ← bb_appendBits b (acc * base + digit c) bits; accum_loop base digit group bits text 0 0 b'
  else accum_loop base digit group bits text (acc * base + digit c) (cnt + 1) b.
Proof. intros Ha Hc. cbn [accum_loop]. by rewrite u16_small, u8_small by (unfold is_u16, is_u8; lia). Qed.

(** What it takes to go on after an [append]: the bits, then the rest of them. *)
Definition writes (bs : list bool) (b : bit_bucket) (new : list bool) {A} (x : A) (r : option (A * bit_bucket)) : Prop :=
  ∃ b', r = Some (x, b') ∧ buf_holds (bs ++ new) b' ∧ length (bb_data b') = length (bb_data b).

Lemma writes_append bs b v n new {A} (x : A) (k : bit_bucket → option (A * bit_bucket)) :
  buf_holds bs b → (length bs + Z.to_nat n + length new ≤ 8 * length (bb_data b))%nat →
  (∀ b', buf_holds (bs ++ nbits (Z.to_nat n) v) b' → length (bb_data b') = length (bb_data b) →
    (length (bs ++ nbits (Z.to_nat n) v) + length new ≤ 8 * length (bb_data b'))%nat →
    writes (bs ++ nbits (Z.to_nat n) v) b' new x (k b')) →
  writes bs b (nbits (Z.to_nat n) v ++ new) x (b' ← bb_appendBits b v n; k b').
Proof.
  intros Hb Hroom Hk. destruct (append_holds bs b v n Hb) as (b' & -> & Hb' & Hl); [lia|]. cbn [mbind option_bind].
  destruct (Hk b' Hb' Hl) as (b2 & -> & Hb2 & Hl2); [rewrite length_app, length_nbits; lia|].
  exists b2. rewrite app_assoc. split_and!; [done|done|lia].
Qed.

Lemma writes_nil bs b {A} (x : A) : buf_holds bs b → writes bs b [] x (Some (x, b)).
Proof. exists b. by rewrite app_nil_r. Qed.

Lemma writes_last bs b v n {A} (x : A) :
  buf_holds bs b → (length bs + Z.to_nat n ≤ 8 * length (bb_data b))%nat →
  writes bs b (nbits (Z.to_nat n) v) x (b' ← bb_appendBits b v n; Some (x, b')).
Proof.
  intros Hb Hroom. rewrite <- (app_nil_r (nbits _ _)). apply writes_append; [done|cbn; lia|]. auto using writes_nil.
Qed.

Lemma numeric_writes (m : Z) text bs b :
  Forall numeric_char text → buf_holds bs b → (length bs + length (numeric_bits text) ≤ 8 * length (bb_data b))%nat →
  writes bs b (numeric_bits text) m
    ('(accumData, accumCount, b) ← accum_loop 10 (λ c, c - 48) 3 10 text 0 0 b;
     if 0 <? accumCount then b ← bb_appendBits b accumData (accumCount * 3 + 1); Some (m, b) else Some (m, b)).
Proof.
  unfold numeric_char. revert bs b. induction text as [|x|x y|x y z t IH] using list_ind3; intros bs b Ht Hb Hroom;
    repeat match goal with H : Forall _ (_ :: _) |- _ => apply Forall_cons_1 in H as [? ?] end;
    cbn [numeric_bits] in *; rewrite ?length_app, ?length_nbits in Hroom.
  - by apply writes_nil.
  - rewrite accum_step by lia. cbn [accum_loop mbind option_bind Z.add Z.eqb Z.ltb]. by apply writes_last.
  - rewrite !accum_step by lia. cbn -[bb_appendBits nbits Z.mul Z.sub].
    rewrite Z.mul_0_l, Z.add_0_l. by apply (writes_last bs b _ 7).
  - rewrite !accum_step by lia. change (0 + 1 =? 3) with false. change (0 + 1 + 1 =? 3) with false.
    change (0 + 1 + 1 + 1 =? 3) with true. cbv match. rewrite Z.mul_0_l, Z.add_0_l, option_bind_assoc.
    apply (writes_append bs b _ 10); [done|lia|]. intros b' Hb' Hl Hr. by apply IH.
Qed.

Lemma alphanumeric_writes (m : Z) text bs b :
  Forall alphanumeric text → buf_holds bs b →
  (length bs + length (alphanumeric_bits text) ≤ 8 * length (bb_data b))%nat →
  writes bs b (alphanumeric_bits text) m
    ('(accumData, accumCount, b) ← accum_loop 45 getAlphanumeric 2 11 text 0 0 b;
     if 0 <? accumCount then b ← bb_appendBits b accumData 6; Some (m, b) else Some (m, b)).
Proof.
  unfold alphanumeric. revert bs b. induction text as [|x|x y t IH] using list_ind2; intros bs b Ht Hb Hroom;
    repeat match goal with H : Forall _ (_ :: _) |- _ => apply Forall_cons_1 in H as [[? ?] ?] end;
    cbn [alphanumeric_bits] in *; rewrite ?length_app, ?length_nbits in Hroom.
  - by apply writes_nil.
  - rewrite accum_step by lia. cbn -[bb_appendBits nbits getAlphanumeric Z.mul].
    rewrite Z.mul_0_l, Z.add_0_l. by apply (writes_last bs b _ 6).
  - rewrite !accum_step by lia. change (0 + 1 =? 2) with false. change (0 + 1 + 1 =? 2) with true.
    cbv match. rewrite Z.mul_0_l, Z.add_0_l, option_bind_assoc.
    apply (writes_append bs b _ 11); [done|lia|]. intros b' Hb' Hl Hr. by apply IH.
Qed.

Lemma bytes_write (m : Z) text bs b :
  buf_holds bs b → (length bs + length (byte_mode_bits text) ≤ 8 * length (bb_data b))%nat →
  writes bs b (byte_mode_bits text) m (b ← byte_loop text b; Some (m, b)).
Proof.
  revert bs b. induction text as [|c t IH]; intros bs b Hb Hroom; [by apply writes_nil|].
  change (byte_mode_bits (c :: t)) with (nbits 8 c ++ byte_mode_bits t) in *. rewrite length_app, length_nbits in Hroom.
  cbn [byte_loop]. rewrite option_bind_assoc. apply (writes_append bs b c 8); [done|lia|]. intros b' Hb' Hl Hr. by apply IH.
Qed.

(** The encoder writes exactly the encoded bits, when there is room for them. *)
Lemma encode_writes version text bs b :
  buf_holds bs b → (length bs + length (encoded version text) ≤ 8 * length (bb_data b))%nat →
  writes bs b (encoded version text) (mode_of text) (encodeDataCodewords b text version).
Proof.
  intros Hb Hroom. unfold encoded, mode_of, text_bits, encodeDataCodewords in *. rewrite !length_app, !length_nbits in Hroom.
  destruct (isNumeric text) eqn:Hn; [|destruct (isAlphanumeric text) eqn:Ha];
    (apply (writes_append bs b _ 4); [done|rewrite length_app, length_nbits; lia|]; intros b1 Hb1 Hl1 Hr1;
     rewrite !length_app, !length_nbits in Hr1;
     apply writes_append; [done|rewrite length_app, length_nbits; lia|]; intros b2 Hb2 Hl2 Hr2);
    auto using numeric_writes, isNumeric_spec, alphanumeric_writes, isAlphanumeric_spec, bytes_write.
Qed.

(** ** How many bits *)

Lemma numeric_bits_length text : (length (numeric_bits text) ≤ 4 * length text)%nat.
Proof.
  induction text as [|x|x y|x y z t IH] using list_ind3; cbn [numeric_bits length]; rewrite ?length_app, ?length_nbits; lia.
Qed.

Lemma alphanumeric_bits_length text : (length (alphanumeric_bits text) ≤ 6 * length text)%nat.
Proof.
  induction text as [|x|x y t IH] using list_ind2; cbn [alphanumeric_bits length]; rewrite ?length_app, ?length_nbits; lia.
Qed.

Lemma byte_mode_bits_length text : length (byte_mode_bits text) = (8 * length text)%nat.
Proof.
  induction text as [|c t IH]; [done|]. change (byte_mode_bits (c :: t)) with (nbits 8 c ++ byte_mode_bits t).
  rewrite length_app, length_nbits, IH. cbn [length]. lia.
Qed.

(** A text never takes more bits than in byte mode, but for the empty one. *)
Lemma encoded_length version text :
  version <= 26 → text ≠ [] →
  Z.of_nat (length (encoded version text)) <= 4 + (if 9 <? version then 16 else 8) + 8 * Z.of_nat (length text).
Proof.
  intros Hv Ht. unfold encoded, mode_of, text_bits. rewrite !length_app, !length_nbits.
  assert (1 <= Z.of_nat (length text)) by (destruct text; [done|cbn; lia]).
  unfold getModeBits. destruct (Z.ltb_spec 26 version); [lia|].
  pose proof (numeric_bits_length text). pose proof (alphanumeric_bits_length text). pose proof (byte_mode_bits_length text).
  destruct (9 <? version); repeat case_if; cbv [MODE_NUMERIC MODE_ALPHANUMERIC MODE_BYTE] in *; vm_compute in E; try done;
    match goal with |- context [Z.to_nat ?x] => let y := eval vm_compute in (Z.to_nat x) in change (Z.to_nat x) with y end; lia.
Qed.

(** * Filling up *)

Lemma pad_loop_fills fuel byte cap bs b :
  buf_holds bs b → (Z.of_nat (length bs)) mod 8 = 0 → Z.of_nat (length bs) <= cap * 8 → cap <= Z.of_nat (length (bb_data b)) →
  cap * 8 <= Z.of_nat (length bs) + 8 * Z.of_nat fuel →
  ∃ b' pad, pad_loop fuel byte cap b = Some b' ∧ buf_holds (bs ++ pad) b' ∧
    Z.of_nat (length (bs ++ pad)) = cap * 8 ∧ length (bb_data b') = length (bb_data b).
Proof.
  revert byte bs b. induction fuel as [|fuel IH]; intros byte bs b Hb Hm Hle Hcap Hf; cbn [pad_loop];
    rewrite (holds_offset _ _ Hb); destruct (Z.leb_spec (cap * 8) (Z.of_nat (length bs)));
    try (exists b, []; rewrite app_nil_r; split_and!; [done..|lia|done]); [lia|].
  destruct (append_holds bs b byte 8 Hb) as (b' & -> & Hb' & Hl); [zlia|]. cbn [mbind option_bind].
  pose proof (length_app bs (nbits (Z.to_nat 8) byte)) as Hla. rewrite length_nbits in Hla.
  destruct (IH (Z.lxor byte (Z.lxor 0xEC 0x11)) (bs ++ nbits (Z.to_nat 8) byte) b') as (b2 & pad & -> & Hb2 & Hp & Hl2);
    [done|rewrite ?Hla; zlia..|]. rewrite <- app_assoc in Hb2, Hp.
  eexists b2, _. split_and!; [done|exact Hb2|exact Hp|lia].
Qed.

(** The padding brings the data to the capacity, whatever the text took of it, and
    leaves the bits before it as they are. *)
Lemma pad_fills cap bs b :
  buf_holds bs b → Z.of_nat (length bs) <= cap * 8 → cap <= Z.of_nat (length (bb_data b)) →
  ∃ b' pad, pad_codewords cap b = Some b' ∧ buf_holds (bs ++ pad) b' ∧
    Z.of_nat (length (bs ++ pad)) = cap * 8 ∧ length (bb_data b') = length (bb_data b).
Proof.
  intros Hb Hle Hcap. pose proof (holds_size _ _ Hb). unfold pad_codewords. rewrite (holds_offset _ _ Hb).
  rewrite u32_small by (unfold is_u32; pow_consts; lia).
  set (n := if 4 <? _ then 4 else _). assert (0 <= n <= cap * 8 - Z.of_nat (length bs)) as Hn by (subst n; case_if; bool_hyps; lia).
  destruct (append_holds bs b 0 n Hb) as (b1 & -> & Hb1 & Hl1); [lia|]. cbn [mbind option_bind].
  set (bs1 := bs ++ _) in *. assert (Z.of_nat (length bs1) = Z.of_nat (length bs) + n) as Hl
    by (subst bs1; rewrite length_app, length_nbits; lia).
  rewrite (holds_offset _ _ Hb1). set (m := (8 - Z.of_nat (length bs1) mod 8) mod 8).
  assert (0 <= m ∧ Z.of_nat (length bs1) + m <= cap * 8 ∧ (Z.of_nat (length bs1) + m) mod 8 = 0) as (Hm & Hm1 & Hm2)
    by (subst m; clearbody n; zlia).
  destruct (append_holds bs1 b1 0 m Hb1) as (b2 & -> & Hb2 & Hl2); [lia|]. cbn [mbind option_bind].
  set (bs2 := bs1 ++ _) in *. assert (Z.of_nat (length bs2) = Z.of_nat (length bs1) + m) as Hl3
    by (subst bs2; rewrite length_app, length_nbits; lia).
  destruct (pad_loop_fills (Z.to_nat cap) 0xEC cap bs2 b2) as (b3 & pad & -> & Hb3 & Hp & Hl4); [done|congruence|lia..|].
  subst bs2 bs1. rewrite <- !app_assoc in Hb3, Hp. eexists b3, _. split_and!; [done|exact Hb3|exact Hp|lia].
Qed.

(** * Bytes as numbers of eight bits *)

Lemma bytes_bits_mode l : bytes_bits l = byte_mode_bits l.
Proof. done. Qed.

Lemma bytes_bits_take n l : bytes_bits (take n l) = take (8 * n) (bytes_bits l).
Proof.
  destruct (decide (n ≤ length l)%nat) as [Hn|Hn]; [|rewrite !take_ge by (rewrite ?length_bytes_bits; lia); done].
  rewrite <- (take_drop n l) at 2. rewrite bytes_bits_app, take_app_length'; [done|].
  rewrite length_bytes_bits, length_take. lia.
Qed.

(** Of more bits than [n] bytes take, only those of the bytes matter. *)
Lemma read_bytes_take n bits l :
  take (8 * n) bits = bytes_bits l → Forall is_u8 l → length l = n → read_bytes n bits = l.
Proof.
  intros Ht Hl Hn. rewrite <- (take_drop (8 * n) bits), Ht, bytes_bits_mode. rewrite <- Hn. by apply read_byte_bits.
Qed.
