(* ===== verification/QrField.v ===== *)
(** The error correction of a QR code (components/qrcode/qrcoded.c): the product of
    bytes in the field of 256 elements, the generator polynomial and the remainder of a
    block.  Polynomials are lists of coefficients,
    the highest first; all roots of the generator are roots of a block with its
    remainder. *)

From S2P Require Import Prelude QrBits.
#[local] Open Scope Z_scope.

(** * Multiplication *)

Definition rs_round (x y z i : Z) : Z :=
  let z := u16 (Z.lxor (Z.shiftl z 1) (Z.shiftr z 7 * 0x11D)) in
  u16 (Z.lxor z (Z.land (Z.shiftr y i) 1 * x)).

Definition rs_multiply (x y : Z) : Z := u8 (foldl (rs_round x y) 0 [7; 6; 5; 4; 3; 2; 1; 0]).

(** * The generator *)

(** One pass over the coefficients: each is multiplied by the root and takes the next one. *)
Fixpoint multiply_root (root : Z) (coeff : list Z) : list Z :=
  match coeff with
  | [] => []
  | c :: coeff' =>
      match coeff' with c' :: _ => Z.lxor (rs_multiply c root) c' | [] => rs_multiply c root end
      :: multiply_root root coeff'
  end.

Definition next_root (root : Z) : Z := u16 (Z.lxor (Z.shiftl root 1) (Z.shiftr root 7 * 0x11D)).

Fixpoint init_loop (n : nat) (root : Z) (coeff : list Z) : list Z :=
  match n with O => coeff | S n' => init_loop n' (next_root root) (multiply_root root coeff) end.

(** A degree of zero would write before the array. *)
Definition rs_init (degree : nat) : option (list Z) :=
  match degree with
  | O => None
  | S d => Some (init_loop degree 1 (replicate d 0 ++ [1]))
  end.

(** * The remainder of a block *)

(** A loop that writes [val j] at [pos j] for [n] values from [j] on. *)
Fixpoint write_loop (pos : nat → nat) (val : nat → list Z → option Z) (j n : nat) (result : list Z) : option (list Z) :=
  match n with
  | O => Some result
  | S n' =>
      v ← val j result;
      if (pos j <? length result)%nat then write_loop pos val (S j) n' (<[pos j := v]> result) else None
  end.

(** The division for one byte of data: [result] holds the remainder at [base] and every
    [stride] places after it. *)
Definition remainder_step (degree : nat) (coeff : list Z) (base stride : nat) (result : list Z) (d : Z) : option (list Z) :=
  let pos j := (base + j * stride)%nat in
  r0 ← result !! pos 0%nat;
  let factor := Z.lxor d r0 in
  result ← write_loop pos (λ j result, result !! pos (S j)) 0 (degree - 1) result;
  result ← write_loop pos (λ _ _, Some 0) (degree - 1) 1 result;
  write_loop pos (λ j result, c ← coeff !! j; r ← result !! pos j; Some (Z.lxor r (rs_multiply c factor))) 0 degree result.

Fixpoint rs_getRemainder (degree : nat) (coeff data : list Z) (base stride : nat) (result : list Z) : option (list Z) :=
  match data with
  | [] => Some result
  | d :: data' =>
      result ← remainder_step degree coeff base stride result d;
      rs_getRemainder degree coeff data' base stride result
  end.

(** * The field *)

(** Doubling of a byte, modulo the polynomial of the field. *)
Definition xtime (z : Z) : Z := Z.lxor (Z.shiftl z 1) (Z.shiftr z 7 * 0x11D).

Lemma u8_lxor a b : is_u8 a → is_u8 b → is_u8 (Z.lxor a b).
Proof.
  unfold is_u8. intros Ha Hb. assert (0 <= Z.lxor a b) by (apply Z.lxor_nonneg; lia). split; [done|].
  destruct (decide (Z.lxor a b = 0)) as [->|Hne]; [done|]. apply Z.log2_lt_pow2; [lia|].
  pose proof (Z.log2_lxor a b ltac:(lia) ltac:(lia)).
  assert (∀ c, 0 <= c < 2 ^ 8 → Z.log2 c < 8) as Hl.
  { intros c Hc. destruct (decide (c = 0)) as [->|]; [done|]. apply Z.log2_lt_pow2; lia. }
  pose proof (Hl a Ha). pose proof (Hl b Hb). lia.
Qed.
#[export] Hint Resolve u8_lxor : tg_db.

Lemma is_u8_0 : is_u8 0.
Proof. done. Qed.
Lemma is_u8_1 : is_u8 1.
Proof. done. Qed.
#[export] Hint Resolve is_u8_0 is_u8_1 : tg_db.

Definition bytes256 : list Z := seqZ 0 256.

Lemma forall_bytes (P : Z → Prop) `{∀ z, Decision (P z)} : Forall P bytes256 → ∀ z, is_u8 z → P z.
Proof. intros HP z Hz. eapply Forall_forall in HP; [exact HP|]. apply elem_of_seqZ. unfold is_u8 in Hz. lia. Qed.

Lemma xtime_u8 z : is_u8 z → is_u8 (xtime z).
Proof. revert z. apply (forall_bytes (λ z, is_u8 (xtime z))). apply (bool_decide_unpack _). vm_compute. exact I. Qed.
#[export] Hint Resolve xtime_u8 : tg_db.

Lemma top_bit z : is_u8 z → Z.shiftr z 7 = Z.b2z (Z.testbit z 7).
Proof. revert z. apply (forall_bytes (λ z, Z.shiftr z 7 = _)). apply (bool_decide_unpack _). vm_compute. exact I. Qed.

Lemma b2z_mul_lxor p q x : Z.b2z (xorb p q) * x = Z.lxor (Z.b2z p * x) (Z.b2z q * x).
Proof. destruct p, q; cbn [xorb Z.b2z]; rewrite ?Z.mul_1_l, ?Z.mul_0_l, ?Z.lxor_nilpotent, ?Z.lxor_0_l, ?Z.lxor_0_r; done. Qed.

Lemma lxor_swap a b c d : Z.lxor (Z.lxor a b) (Z.lxor c d) = Z.lxor (Z.lxor a c) (Z.lxor b d).
Proof. rewrite !Z.lxor_assoc. f_equal. rewrite <- !Z.lxor_assoc. f_equal. apply Z.lxor_comm. Qed.

Lemma lxor_cancel a b : Z.lxor b (Z.lxor a b) = a.
Proof. by rewrite Z.lxor_comm, Z.lxor_assoc, Z.lxor_nilpotent, Z.lxor_0_r. Qed.

Lemma xtime_lxor a b : is_u8 a → is_u8 b → xtime (Z.lxor a b) = Z.lxor (xtime a) (xtime b).
Proof.
  intros Ha Hb. unfold xtime. rewrite !top_bit by auto with tg_db.
  by rewrite Z.lxor_spec, b2z_mul_lxor, Z.shiftl_lxor, lxor_swap.
Qed.

(** The product as a plain fold. *)
Definition mul_fold (x y : Z) (ks : list Z) (z : Z) : Z :=
  foldl (λ z i, Z.lxor (xtime z) (Z.b2z (Z.testbit y i) * x)) z ks.

Lemma mul_fold_cons x y i ks z :
  mul_fold x y (i :: ks) z = mul_fold x y ks (Z.lxor (xtime z) (Z.b2z (Z.testbit y i) * x)).
Proof. done. Qed.

Lemma b2z_mul_u8 p x : is_u8 x → is_u8 (Z.b2z p * x).
Proof. intros Hx. destruct p; cbn [Z.b2z]; by rewrite ?Z.mul_1_l, ?Z.mul_0_l. Qed.
#[export] Hint Resolve b2z_mul_u8 : tg_db.

Lemma mul_fold_u8 x y ks z : is_u8 x → is_u8 z → is_u8 (mul_fold x y ks z).
Proof. intros Hx. revert z. induction ks as [|i ks IH]; intros z Hz; [done|]. apply IH. auto with tg_db. Qed.

Lemma rs_round_u8 x y z i : is_u8 x → is_u8 z → rs_round x y z i = Z.lxor (xtime z) (Z.b2z (Z.testbit y i) * x).
Proof.
  intros Hx Hz. unfold rs_round. fold (xtime z). rewrite land_1_testbit.
  assert (∀ c, is_u8 c → u16 c = c) as Hu by (intros c Hc; apply u16_small; unfold is_u8, is_u16 in *; pow_consts; lia).
  rewrite (Hu (xtime z)), Hu by auto with tg_db. done.
Qed.

Lemma rs_multiply_fold x y : is_u8 x → rs_multiply x y = mul_fold x y [7; 6; 5; 4; 3; 2; 1; 0] 0.
Proof.
  intros Hx. unfold rs_multiply.
  assert (∀ ks z, is_u8 z → foldl (rs_round x y) z ks = mul_fold x y ks z) as ->.
  { induction ks as [|i ks IH]; intros z Hz; [done|]. cbn [foldl]. rewrite rs_round_u8 by done. apply IH. auto with tg_db. }
  - by apply u8_small, mul_fold_u8.
  - done.
Qed.

Lemma mul_u8 x y : is_u8 (rs_multiply x y).
Proof. apply u8_range. Qed.
#[export] Hint Resolve mul_u8 : tg_db.

Lemma mul_lxor_r x a b : is_u8 x → rs_multiply x (Z.lxor a b) = Z.lxor (rs_multiply x a) (rs_multiply x b).
Proof.
  intros Hx. rewrite !rs_multiply_fold by done.
  enough (∀ ks z1 z2, is_u8 z1 → is_u8 z2 →
    mul_fold x (Z.lxor a b) ks (Z.lxor z1 z2) = Z.lxor (mul_fold x a ks z1) (mul_fold x b ks z2)) as Hf by by apply (Hf _ 0 0).
  induction ks as [|i ks IH]; intros z1 z2 H1 H2; [done|]. rewrite !mul_fold_cons, <- IH by auto with tg_db. f_equal.
  by rewrite xtime_lxor, Z.lxor_spec, b2z_mul_lxor, lxor_swap by done.
Qed.

Lemma mul_lxor_l x1 x2 y : is_u8 x1 → is_u8 x2 → rs_multiply (Z.lxor x1 x2) y = Z.lxor (rs_multiply x1 y) (rs_multiply x2 y).
Proof.
  intros Hx1 Hx2. rewrite !rs_multiply_fold by auto with tg_db.
  enough (∀ ks z1 z2, is_u8 z1 → is_u8 z2 →
    mul_fold (Z.lxor x1 x2) y ks (Z.lxor z1 z2) = Z.lxor (mul_fold x1 y ks z1) (mul_fold x2 y ks z2)) as Hf by by apply (Hf _ 0 0).
  induction ks as [|i ks IH]; intros z1 z2 H1 H2; [done|]. rewrite !mul_fold_cons, <- IH by auto with tg_db. f_equal. rewrite xtime_lxor, lxor_swap by done. f_equal.
  destruct (Z.testbit y i); cbn [Z.b2z]; rewrite ?Z.mul_1_l, ?Z.mul_0_l; done.
Qed.

(** Functions that respect the sum of bytes and agree on the powers of two are equal. *)
Definition additive (f : Z → Z) : Prop := ∀ a b, is_u8 a → is_u8 b → f (Z.lxor a b) = Z.lxor (f a) (f b).

Definition basis : list Z := [128; 64; 32; 16; 8; 4; 2; 1].

Lemma byte_sum z : is_u8 z → z = foldr (λ b acc, Z.lxor (if Z.land z b =? 0 then 0 else b) acc) 0 basis.
Proof.
  revert z. apply (forall_bytes (λ z, z = foldr (λ b acc, Z.lxor (if Z.land z b =? 0 then 0 else b) acc) 0 basis)).
  apply (bool_decide_unpack _). vm_compute. exact I.
Qed.

Lemma additive_eq f g z : additive f → additive g → Forall (λ b, f b = g b) basis → is_u8 z → f z = g z.
Proof.
  intros Hf Hg Hb Hz. rewrite (byte_sum z Hz).
  assert (∀ h, additive h → h 0 = 0) as H0.
  { intros h Hh. pose proof (Hh 0 0 ltac:(done) ltac:(done)) as H. rewrite !Z.lxor_nilpotent in H. done. }
  assert (Forall is_u8 basis) as Hu by (by repeat constructor). clear Hz. revert Hb Hu. generalize basis as l.
  induction l as [|b l IH]; intros Hb Hu; cbn [foldr]; [by rewrite (H0 f), (H0 g)|].
  apply Forall_cons_1 in Hb as [Hb Hl]. apply Forall_cons_1 in Hu as [Hbu Hu].
  assert (is_u8 (foldr (λ b acc, Z.lxor (if Z.land z b =? 0 then 0 else b) acc) 0 l)).
  { clear -Hu. induction Hu as [|b l Hb _ IH]; cbn [foldr]; [done|]. apply u8_lxor; [by case_if|done]. }
  rewrite Hf, Hg, IH by (done || by case_if). f_equal. case_if; [by rewrite (H0 f), (H0 g)|done].
Qed.

Lemma additive_mul_l y : additive (λ x, rs_multiply x y).
Proof. intros a b Ha Hb. by apply mul_lxor_l. Qed.
Lemma additive_mul_r x : is_u8 x → additive (rs_multiply x).
Proof. intros Hx a b Ha Hb. by apply mul_lxor_r. Qed.

Lemma basis_u8 : Forall is_u8 basis.
Proof. by repeat constructor. Qed.

Lemma mul_comm x y : is_u8 x → is_u8 y → rs_multiply x y = rs_multiply y x.
Proof.
  intros Hx Hy. apply (additive_eq (λ x, rs_multiply x y) (rs_multiply y)); [apply additive_mul_l|by apply additive_mul_r| |done].
  assert (Forall (λ b, Forall (λ c, rs_multiply b c = rs_multiply c b) basis) basis) as Hall
    by (apply (bool_decide_unpack _); vm_compute; exact I).
  apply Forall_forall. intros b Hb. rewrite Forall_forall in Hall.
  assert (is_u8 b) by (eapply Forall_forall in Hb; [exact Hb|apply basis_u8]).
  apply (additive_eq (rs_multiply b) (λ y, rs_multiply y b)); [by apply additive_mul_r|apply additive_mul_l|by apply Hall|done].
Qed.

Lemma mul_assoc x y z : is_u8 x → is_u8 y → is_u8 z → rs_multiply (rs_multiply x y) z = rs_multiply x (rs_multiply y z).
Proof.
  intros Hx Hy Hz.
  assert (Forall (λ a, Forall (λ b, Forall (λ c, rs_multiply (rs_multiply a b) c = rs_multiply a (rs_multiply b c))
    basis) basis) basis) as Hall by (apply (bool_decide_unpack _); vm_compute; exact I).
  assert (∀ b, b ∈ basis → is_u8 b) as Hu by (apply Forall_forall, basis_u8).
  apply (additive_eq (λ x, rs_multiply (rs_multiply x y) z) (λ x, rs_multiply x (rs_multiply y z))); [| | |done].
  { intros a b Ha Hb. cbv beta. rewrite !mul_lxor_l by auto with tg_db. done. }
  { apply additive_mul_l. }
  apply Forall_forall. intros a Ha. rewrite Forall_forall in Hall. specialize (Hall a Ha). pose proof (Hu a Ha).
  apply (additive_eq (λ y, rs_multiply (rs_multiply a y) z) (λ y, rs_multiply a (rs_multiply y z))); [| | |done].
  { intros b c Hb Hc. cbv beta. rewrite mul_lxor_r, mul_lxor_l by auto with tg_db. done. }
  { intros b c Hb Hc. cbv beta. rewrite mul_lxor_l, mul_lxor_r by auto with tg_db. done. }
  apply Forall_forall. intros b Hb. rewrite Forall_forall in Hall. specialize (Hall b Hb). pose proof (Hu b Hb).
  apply (additive_eq (rs_multiply (rs_multiply a b)) (λ z, rs_multiply a (rs_multiply b z))); [| |done|done].
  { apply additive_mul_r. auto with tg_db. }
  { intros c d Hc Hd. cbv beta. rewrite !mul_lxor_r by auto with tg_db. done. }
Qed.

Lemma mul_0_r x : is_u8 x → rs_multiply x 0 = 0.
Proof. intros Hx. pose proof (mul_lxor_r x 0 0 Hx) as H. by rewrite !Z.lxor_nilpotent in H. Qed.

Lemma mul_1_r x : is_u8 x → rs_multiply x 1 = x.
Proof. revert x. apply (forall_bytes (λ x, rs_multiply x 1 = x)). apply (bool_decide_unpack _). vm_compute. exact I. Qed.

Lemma mul_0_l x : is_u8 x → rs_multiply 0 x = 0.
Proof. intros Hx. by rewrite mul_comm, mul_0_r by done. Qed.

Lemma mul_1_l x : is_u8 x → rs_multiply 1 x = x.
Proof. intros Hx. by rewrite mul_comm, mul_1_r by done. Qed.

Lemma xtime_mul z : is_u8 z → xtime z = rs_multiply 2 z.
Proof. revert z. apply (forall_bytes (λ z, xtime z = _)). apply (bool_decide_unpack _). vm_compute. exact I. Qed.

(** * Values of polynomials *)

#[local] Opaque rs_multiply.

Definition peval (x : Z) (l : list Z) : Z := foldl (λ acc c, Z.lxor (rs_multiply acc x) c) 0 l.

Fixpoint gpow (x : Z) (n : nat) : Z := match n with O => 1 | S n' => rs_multiply x (gpow x n') end.

(** [peval] from an accumulator: the part before counts with the power of [x]. *)
Lemma peval_acc x l acc :
  is_u8 x → is_u8 acc → Forall is_u8 l →
  foldl (λ acc c, Z.lxor (rs_multiply acc x) c) acc l = Z.lxor (rs_multiply acc (gpow x (length l))) (peval x l) ∧
  is_u8 (peval x l).
Proof.
  intros Hx Ha Hl. revert acc Ha. induction Hl as [|c l Hc Hl IH]; intros acc Ha.
  { cbn. rewrite mul_1_r, Z.lxor_0_r by done. done. }
  unfold peval. cbn [foldl length gpow].
  destruct (IH (Z.lxor (rs_multiply acc x) c)) as [-> Hu]; [auto with tg_db|].
  destruct (IH (Z.lxor (rs_multiply 0 x) c)) as [-> _]; [auto with tg_db|].
  assert (is_u8 (gpow x (length l))) as Hp by (clear -Hx; induction (length l); cbn; auto with tg_db).
  split; [|auto with tg_db].
  rewrite mul_0_l, Z.lxor_0_l, mul_lxor_l, mul_assoc by auto with tg_db. by rewrite Z.lxor_assoc.
Qed.

Lemma gpow_u8 x n : is_u8 (gpow x n).
Proof. destruct n; cbn; auto with tg_db. Qed.
#[export] Hint Resolve gpow_u8 : tg_db.

Lemma peval_u8 x l : is_u8 x → Forall is_u8 l → is_u8 (peval x l).
Proof. intros Hx Hl. by apply (peval_acc x l 0). Qed.
#[export] Hint Resolve peval_u8 : tg_db.

Lemma peval_cons x c l :
  is_u8 x → is_u8 c → Forall is_u8 l → peval x (c :: l) = Z.lxor (rs_multiply c (gpow x (length l))) (peval x l).
Proof.
  intros Hx Hc Hl. unfold peval at 1. cbn [foldl]. rewrite mul_0_l, Z.lxor_0_l by done. by apply peval_acc.
Qed.

Lemma peval_app x l1 l2 :
  is_u8 x → Forall is_u8 l1 → Forall is_u8 l2 →
  peval x (l1 ++ l2) = Z.lxor (rs_multiply (peval x l1) (gpow x (length l2))) (peval x l2).
Proof. intros Hx H1 H2. unfold peval at 1. rewrite foldl_app. apply peval_acc; auto with tg_db. Qed.

Lemma peval_snoc x l c : is_u8 x → Forall is_u8 l → peval x (l ++ [c]) = Z.lxor (rs_multiply (peval x l) x) c.
Proof. intros Hx Hl. unfold peval. by rewrite foldl_app. Qed.

Lemma peval_zeros x n : is_u8 x → peval x (replicate n 0) = 0.
Proof. intros Hx. unfold peval. induction n as [|n IH]; [done|]. cbn. by rewrite mul_0_l. Qed.

(** * The generator has the roots it should have *)

Lemma length_multiply_root r l : length (multiply_root r l) = length l.
Proof. induction l; cbn [multiply_root length]; auto. Qed.

Lemma multiply_root_u8 r l : Forall is_u8 l → Forall is_u8 (multiply_root r l).
Proof.
  induction 1 as [|c l Hc Hl IH]; cbn [multiply_root]; constructor; [|done].
  destruct Hl; auto with tg_db.
Qed.

(** The pass multiplies by [x - r] and drops the highest term. *)
Lemma peval_multiply_root x r l :
  is_u8 x → is_u8 r → Forall is_u8 l →
  peval x (multiply_root r l)
  = Z.lxor (rs_multiply (Z.lxor x r) (peval x l)) (rs_multiply (hd 0 l) (gpow x (length l))).
Proof.
  intros Hx Hr Hl. induction Hl as [|c l Hc Hl IH].
  { cbn. rewrite mul_0_r by auto with tg_db. done. }
  cbn [multiply_root hd]. rewrite peval_cons by (try apply multiply_root_u8; try done; destruct Hl; auto with tg_db).
  rewrite length_multiply_root, IH, peval_cons by done. cbn [length gpow].
  set (p := gpow x (length l)). assert (is_u8 p) by (subst p; auto with tg_db).
  set (e := peval x l). assert (is_u8 e) by (subst e; auto with tg_db).
  assert (rs_multiply (match l with [] => rs_multiply c r | c' :: _ => Z.lxor (rs_multiply c r) c' end) p
          = Z.lxor (rs_multiply (rs_multiply c r) p) (rs_multiply (hd 0 l) p)) as ->.
  { destruct Hl as [|c' l' Hc']; cbn [hd]; [by rewrite mul_0_l, Z.lxor_0_r|]. by rewrite mul_lxor_l by auto with tg_db. }
  assert (is_u8 (hd 0 l)) by (destruct Hl; done).
  rewrite (mul_lxor_r _ (rs_multiply c p) e), !(mul_lxor_l x r) by auto with tg_db.
  assert (rs_multiply r (rs_multiply c p) = rs_multiply (rs_multiply c r) p) as ->
    by (by rewrite <- mul_assoc, (mul_comm r c) by auto with tg_db).
  assert (rs_multiply c (rs_multiply x p) = rs_multiply x (rs_multiply c p)) as ->
    by (by rewrite <- !mul_assoc, (mul_comm c x) by auto with tg_db).
  apply Z.bits_inj'. intros n Hn. rewrite !Z.lxor_spec.
  repeat match goal with |- context [Z.testbit ?a n] => destruct (Z.testbit a n) end; done.
Qed.

Fixpoint root (i : nat) : Z := match i with O => 1 | S j => next_root (root j) end.

(** The product of [x - root i]. *)
Fixpoint root_product (x : Z) (n : nat) : Z :=
  match n with O => 1 | S i => rs_multiply (Z.lxor x (root i)) (root_product x i) end.

Lemma next_root_xtime r : is_u8 r → next_root r = xtime r.
Proof.
  intros Hr. unfold next_root. fold (xtime r). apply u16_small. pose proof (xtime_u8 r Hr).
  unfold is_u8, is_u16 in *. pow_consts. lia.
Qed.

Lemma root_gpow i : root i = gpow 2 i ∧ is_u8 (root i).
Proof.
  induction i as [|i [IH Hu]]; [done|]. cbn [root gpow].
  rewrite next_root_xtime, xtime_mul, <- IH by done. split; [done|]. auto with tg_db.
Qed.

Lemma root_product_root n i : (i < n)%nat → root_product (root i) n = 0.
Proof.
  assert (∀ x m, is_u8 (root_product x m)) as Hu by (intros x [|m]; cbn; auto with tg_db).
  induction n as [|n IH]; [lia|]. intros Hi. cbn [root_product]. pose proof (proj2 (root_gpow n)). pose proof (proj2 (root_gpow i)).
  destruct (decide (i = n)) as [->|]; [by rewrite Z.lxor_nilpotent, mul_0_l|].
  rewrite IH, mul_0_r by (auto with tg_db || lia). done.
Qed.

Lemma multiply_root_zeros r n l : is_u8 r →
  multiply_root r (replicate (S n) 0 ++ 1 :: l) = replicate n 0 ++ 1 :: multiply_root r (1 :: l).
Proof.
  intros Hr. induction n as [|n IH].
  - change (multiply_root r (replicate 1 0 ++ 1 :: l)) with (Z.lxor (rs_multiply 0 r) 1 :: multiply_root r (1 :: l)).
    by rewrite mul_0_l.
  - change (multiply_root r (replicate (S (S n)) 0 ++ 1 :: l))
      with (Z.lxor (rs_multiply 0 r) 0 :: multiply_root r (replicate (S n) 0 ++ 1 :: l)).
    by rewrite IH, mul_0_l.
Qed.

(** The coefficients after [i] of [n + i + 1] passes: the leading one is still there. *)
Lemma init_loop_prefix n i l x :
  is_u8 x → Forall is_u8 l → length l = i →
  peval x (1 :: l) = root_product x i →
  let g := init_loop (S n) (root i) (replicate n 0 ++ 1 :: l) in
  length g = (n + S i)%nat ∧ Forall is_u8 g ∧ Z.lxor (gpow x (length g)) (peval x g) = root_product x (S n + i).
Proof.
  intros Hx. revert i l. induction n as [|n IH]; intros i l Hl Hi Hp; cbv zeta; pose proof (proj2 (root_gpow i)) as Hr;
    assert (Forall is_u8 (1 :: l)) as H1 by (by constructor).
  - cbn [replicate app init_loop]. rewrite length_multiply_root. split_and!; [cbn [length]; lia|by apply multiply_root_u8|].
    rewrite peval_multiply_root, Hp by done. cbn [hd]. rewrite mul_1_l by auto with tg_db.
    rewrite lxor_cancel. reflexivity.
  - change (init_loop (S (S n)) (root i) (replicate (S n) 0 ++ 1 :: l))
      with (init_loop (S n) (root (S i)) (multiply_root (root i) (replicate (S n) 0 ++ 1 :: l))).
    rewrite multiply_root_zeros by done.
    destruct (IH (S i) (multiply_root (root i) (1 :: l))) as (Hlen & Hu & He).
    + by apply multiply_root_u8.
    + rewrite length_multiply_root. cbn [length]. lia.
    + rewrite peval_cons, length_multiply_root by (try done; by apply multiply_root_u8).
      rewrite peval_multiply_root by done. cbn [hd]. rewrite !mul_1_l by auto with tg_db.
      rewrite lxor_cancel, Hp. reflexivity.
    + split_and!; [lia|done|]. rewrite He. f_equal. lia.
Qed.

(** The generator is the product of the first [degree] roots' factors. *)
Lemma rs_init_product degree g x :
  rs_init degree = Some g → is_u8 x →
  length g = degree ∧ Forall is_u8 g ∧ Z.lxor (gpow x degree) (peval x g) = root_product x degree.
Proof.
  destruct degree as [|d]; cbn [rs_init]; [done|]. intros [= <-] Hx.
  destruct (init_loop_prefix d 0 [] x) as (Hl & Hu & He); [done..| |].
  { cbn. by rewrite mul_0_l. }
  rewrite Hl, Nat.add_1_r, Nat.add_0_r in He. refine (conj _ (conj Hu He)). etransitivity; [exact Hl|lia].
Qed.

Lemma rs_init_root degree g i :
  rs_init degree = Some g → (i < degree)%nat → peval (root i) g = gpow (root i) degree.
Proof.
  intros Hg Hi. destruct (rs_init_product degree g (root i) Hg (proj2 (root_gpow i))) as (_ & _ & He).
  rewrite root_product_root in He by done. symmetry. by apply Z.lxor_eq.
Qed.

(** * The remainder makes the block a multiple of the generator *)

(** One step on the remainder as a list. *)
Definition rem_step (coeff rem : list Z) (d : Z) : list Z :=
  zip_with (λ c r, Z.lxor r (rs_multiply c (Z.lxor d (hd 0 rem)))) coeff (tail rem ++ [0]).

Lemma length_rem_step coeff rem d : length rem = length coeff → rem ≠ [] → length (rem_step coeff rem d) = length coeff.
Proof. intros Hl Hr. unfold rem_step. rewrite length_zip_with, length_app. destruct rem; [done|]. cbn in *. lia. Qed.

Lemma zip_u8 f l k :
  is_u8 f → Forall is_u8 k → Forall is_u8 (zip_with (λ c r, Z.lxor r (rs_multiply c f)) l k).
Proof.
  intros Hf Hk. revert l. induction Hk as [|r k Hr Hk IH]; intros [|c l]; cbn [zip_with]; constructor; auto with tg_db.
Qed.

Lemma rem_step_u8 coeff rem d :
  is_u8 d → Forall is_u8 rem → Forall is_u8 (rem_step coeff rem d).
Proof.
  intros Hd Hr. assert (is_u8 (hd 0 rem)) by (destruct Hr; done). unfold rem_step.
  apply zip_u8; [auto with tg_db|]. apply Forall_app. split; [by destruct Hr|by repeat constructor].
Qed.

Lemma peval_zip x f l k :
  is_u8 x → is_u8 f → Forall is_u8 l → Forall is_u8 k → length l = length k →
  peval x (zip_with (λ c r, Z.lxor r (rs_multiply c f)) l k) = Z.lxor (peval x k) (rs_multiply (peval x l) f).
Proof.
  intros Hx Hf Hl. revert k. induction Hl as [|c l Hc Hl IH]; intros [|r k] Hk Hlen; try done.
  { cbn. by rewrite mul_0_l. }
  apply Forall_cons_1 in Hk as [Hr Hk]. cbn [length] in Hlen. injection Hlen as Hlen. cbn [zip_with].
  pose proof (zip_u8 f l k Hf Hk).
  rewrite !peval_cons, IH by auto with tg_db. rewrite length_zip_with, Hlen, Nat.min_id.
  rewrite !mul_lxor_l by auto with tg_db. rewrite lxor_swap. do 2 f_equal.
  rewrite !mul_assoc by auto with tg_db. f_equal. apply mul_comm; auto with tg_db.
Qed.

Lemma peval_shift x h t :
  is_u8 x → is_u8 h → Forall is_u8 t →
  peval x (t ++ [0]) = Z.lxor (rs_multiply (peval x (h :: t)) x) (rs_multiply h (gpow x (S (length t)))).
Proof.
  intros Hx Hh Ht. rewrite peval_snoc, Z.lxor_0_r, peval_cons, mul_lxor_l by auto with tg_db.
  rewrite mul_assoc, (mul_comm (gpow x (length t)) x) by auto with tg_db. cbn [gpow].
  by rewrite (Z.lxor_comm (rs_multiply h _)), Z.lxor_assoc, Z.lxor_nilpotent, Z.lxor_0_r.
Qed.

(** At a root of the generator the data read so far, moved up by the degree, has the
    value of the remainder. *)
Lemma rem_steps_value degree g i data :
  rs_init degree = Some g → (i < degree)%nat → Forall is_u8 data →
  let rem := foldl (rem_step g) (replicate degree 0) data in
  length rem = degree ∧ Forall is_u8 rem ∧
  rs_multiply (peval (root i) data) (gpow (root i) degree) = peval (root i) rem.
Proof.
  intros Hg Hi Hd. pose proof (rs_init_root degree g i Hg Hi) as Hroot. pose proof (proj2 (root_gpow i)) as Hx.
  destruct (rs_init_product degree g (root i) Hg Hx) as (Hgl & Hgu & _). cbv zeta.
  induction data as [|d data IH] using rev_ind.
  { cbn [foldl]. rewrite length_replicate, peval_zeros by done. split_and!; [done| |by apply mul_0_l; auto with tg_db].
    apply Forall_replicate. done. }
  apply Forall_app in Hd as [Hd Hdd]. apply Forall_cons_1 in Hdd as [Hdu _]. destruct (IH Hd) as (Hl & Hu & He). clear IH.
  rewrite foldl_app. cbn [foldl]. set (rem := foldl _ _ _) in *. destruct rem as [|h t] eqn:Hrem; [cbn in Hl; lia|]. rewrite <- Hrem in *.
  split_and!; [rewrite length_rem_step; congruence|by apply rem_step_u8|].
  apply Forall_cons_1 in Hu as [Hh Ht] || (rewrite Hrem in Hu; apply Forall_cons_1 in Hu as [Hh Ht]).
  rewrite peval_snoc by done. unfold rem_step. rewrite Hrem. cbn [hd tail].
  rewrite peval_zip; [|done|auto with tg_db|done|apply Forall_app; split; [done|by repeat constructor]|].
  2:{ rewrite length_app. rewrite Hrem in Hl. cbn in *. lia. }
  rewrite (peval_shift _ h), Hroot by done. rewrite Hrem in Hl, He. cbn [length] in Hl. rewrite Hl.
  rewrite <- He. set (m := peval (root i) data) in *. assert (is_u8 m) by (subst m; auto with tg_db).
  set (p := gpow (root i) degree) in *. assert (is_u8 p) by (subst p; auto with tg_db).
  rewrite (mul_comm p), !mul_lxor_l by auto with tg_db.
  rewrite !mul_assoc, (mul_comm (root i) p) by auto with tg_db.
  rewrite (Z.lxor_comm (rs_multiply d p)). rewrite Z.lxor_assoc. f_equal.
  by rewrite <- Z.lxor_assoc, Z.lxor_nilpotent, Z.lxor_0_l.
Qed.

(** * The remainder in the places of an array *)

Section Places.
Context (pos : nat → nat) (pos_inj : ∀ a b, pos a = pos b → a = b).

(** A loop whose values do not depend on the places written before. *)
Lemma write_loop_writes val (v : nat → Z) n : ∀ j result,
  (∀ i, (j ≤ i < j + n)%nat → (pos i < length result)%nat) →
  (∀ i result', (j ≤ i < j + n)%nat → (∀ k, (∀ i', (i' < i)%nat → k ≠ pos i') → result' !! k = result !! k) →
    val i result' = Some (v i)) →
  ∃ result', write_loop pos val j n result = Some result' ∧ length result' = length result ∧
    (∀ i, (j ≤ i < j + n)%nat → result' !! pos i = Some (v i)) ∧
    ∀ k, (∀ i, (j ≤ i < j + n)%nat → k ≠ pos i) → result' !! k = result !! k.
Proof.
  induction n as [|n IH]; intros j result Hpos Hval; cbn [write_loop].
  { exists result. split_and!; [done..|lia|done]. }
  rewrite (Hval j result) by (done || lia). cbn [mbind option_bind].
  destruct (Nat.ltb_spec (pos j) (length result)) as [Hlt|Hge]; [|pose proof (Hpos j ltac:(lia)); lia].
  destruct (IH (S j) (<[pos j := v j]> result)) as (result' & -> & Hl & Hw & Hk).
  - intros i Hi. rewrite length_insert. apply Hpos. lia.
  - intros i result' Hi Hs. apply Hval; [lia|]. intros k Hk. rewrite (Hs k Hk).
    rewrite list_lookup_insert_ne; [done|]. intros E. by apply (Hk j); [lia|].
  - rewrite length_insert in Hl. exists result'. split_and!; [done|done| |].
    + intros i Hi. destruct (decide (i = j)) as [->|]; [|apply Hw; lia].
      rewrite Hk; [by apply list_lookup_insert_eq|]. intros i' Hi' E%pos_inj. lia.
    + intros k Hk'. rewrite Hk by (intros i Hi; apply Hk'; lia).
      apply list_lookup_insert_ne. intros E. by apply (Hk' j); [lia|].
Qed.

(** The places hold the list [c]. *)
Definition holds_col (result c : list Z) : Prop := ∀ j, (j < length c)%nat → result !! pos j = c !! j.

Lemma holds_col_bound result c j : holds_col result c → (j < length c)%nat → (pos j < length result)%nat.
Proof. intros Hc Hj. apply lookup_lt_is_Some. rewrite Hc by done. by apply lookup_lt_is_Some_2. Qed.

Lemma holds_col_total result c j : holds_col result c → (j < length c)%nat → result !! pos j = Some (c !!! j).
Proof. intros Hc Hj. rewrite Hc by done. by apply list_lookup_lookup_total_lt. Qed.

(** Elsewhere the array is as it was. *)
Definition same_elsewhere (n : nat) (result result' : list Z) : Prop :=
  length result' = length result ∧ ∀ k, (∀ i, (i < n)%nat → k ≠ pos i) → result' !! k = result !! k.

Lemma shift_loop result h t :
  holds_col result (h :: t) →
  ∃ result', write_loop pos (λ j result, result !! pos (S j)) 0 (length t) result = Some result' ∧
    (∀ j, (j < length t)%nat → result' !! pos j = t !! j) ∧ same_elsewhere (length t) result result'.
Proof.
  intros Hc. destruct (write_loop_writes (λ j result, result !! pos (S j)) (λ j, t !!! j) (length t) 0 result)
    as (result' & -> & Hl & Hw & Hk).
  - intros i Hi. apply (holds_col_bound _ (h :: t)); [done|cbn; lia].
  - intros i result' Hi Hs. rewrite Hs by (intros i' Hi' E%pos_inj; lia).
    rewrite (Hc (S i)) by (cbn; lia). cbn. apply list_lookup_lookup_total_lt. lia.
  - exists result'. split_and!; [done| |].
    + intros j Hj. rewrite Hw by lia. symmetry. by apply list_lookup_lookup_total_lt.
    + split; [done|]. intros k Hk'. apply Hk. intros i Hi. apply Hk'. lia.
Qed.

Lemma add_loop coeff c f result :
  holds_col result c → length coeff = length c →
  ∃ result', write_loop pos (λ j result, x ← coeff !! j; r ← result !! pos j; Some (Z.lxor r (rs_multiply x f))) 0
      (length c) result = Some result' ∧
    holds_col result' (zip_with (λ x r, Z.lxor r (rs_multiply x f)) coeff c) ∧ same_elsewhere (length c) result result'.
Proof.
  intros Hc Hlen.
  edestruct (write_loop_writes
    (λ j result, x ← coeff !! j; r ← result !! pos j; Some (Z.lxor r (rs_multiply x f)))
    (λ j, Z.lxor (c !!! j) (rs_multiply (coeff !!! j) f)) (length c) 0 result) as (result' & -> & Hl & Hw & Hk).
  - intros i Hi. apply (holds_col_bound _ c); [done|lia].
  - intros i result' Hi Hs. rewrite Hs by (intros i' Hi' E%pos_inj; lia).
    rewrite (holds_col_total _ c), (list_lookup_lookup_total_lt coeff) by (done || lia). done.
  - exists result'. split_and!; [done| |].
    + intros j Hj. rewrite length_zip_with in Hj. rewrite Hw by lia. rewrite lookup_zip_with.
      rewrite !list_lookup_lookup_total_lt by lia. done.
    + split; [done|]. intros k Hk'. apply Hk. intros i Hi. apply Hk'. lia.
Qed.
End Places.

Definition place (base stride j : nat) : nat := (base + j * stride)%nat.

Lemma place_inj base stride a b : stride ≠ 0%nat → place base stride a = place base stride b → a = b.
Proof. unfold place. nia. Qed.

(** The step on the array is the step on the list it holds. *)
Lemma remainder_step_col coeff base stride result c d :
  stride ≠ 0%nat → c ≠ [] → length coeff = length c → holds_col (place base stride) result c →
  ∃ result', remainder_step (length c) coeff base stride result d = Some result' ∧
    holds_col (place base stride) result' (rem_step coeff c d) ∧
    same_elsewhere (place base stride) (length c) result result'.
Proof.
  intros Hs Hne Hlen Hc. assert (∀ a b, place base stride a = place base stride b → a = b) as Hinj
    by (intros a b; by apply place_inj).
  destruct c as [|h t]; [done|]. unfold remainder_step. fold (place base stride 0).
  change (λ j result, result !! (base + S j * stride)%nat) with (λ j (result : list Z), result !! place base stride (S j)).
  change (λ j, (base + j * stride)%nat) with (place base stride).
  rewrite (Hc 0%nat) by (cbn; lia). cbn [lookup list_lookup mbind option_bind length]. rewrite Nat.sub_0_r || rewrite Nat.sub_succ, Nat.sub_0_r.
  destruct (shift_loop _ Hinj _ _ _ Hc) as (r1 & -> & H1 & Hl1 & Hk1). cbn [mbind option_bind].
  destruct (write_loop_writes _ Hinj (λ _ _, Some 0) (λ _, 0) 1 (length t) r1) as (r2 & -> & Hl2 & H2 & Hk2).
  { intros i Hi. rewrite Hl1. apply (holds_col_bound _ _ (h :: t)); [done|cbn; lia]. }
  { done. }
  cbn [mbind option_bind].
  assert (holds_col (place base stride) r2 (t ++ [0])) as Hc2.
  { intros j Hj. rewrite length_app in Hj. cbn [length] in Hj. destruct (decide (j = length t)) as [->|].
    - rewrite H2, lookup_app_r, Nat.sub_diag by lia. done.
    - rewrite Hk2, lookup_app_l by (lia || intros i Hi E%Hinj; lia). apply H1. lia. }
  assert (length (t ++ [0]) = S (length t)) as Hlt by (rewrite length_app; cbn; lia).
  destruct (add_loop _ Hinj coeff (t ++ [0]) (Z.lxor d h) r2 Hc2) as (r3 & Hr3 & H3 & Hl3 & Hk3); [rewrite Hlt; done|].
  rewrite Hlt in Hr3, Hk3. exists r3. split_and!; [exact Hr3|exact H3|]. split; [congruence|].
  intros k Hk. rewrite Hk3 by done. rewrite Hk2 by (intros i Hi; apply Hk; cbn; lia).
  apply Hk1. intros i Hi. apply Hk. cbn. lia.
Qed.

Lemma rs_getRemainder_col coeff data base stride result c :
  stride ≠ 0%nat → c ≠ [] → length coeff = length c → holds_col (place base stride) result c →
  ∃ result', rs_getRemainder (length c) coeff data base stride result = Some result' ∧
    holds_col (place base stride) result' (foldl (rem_step coeff) c data) ∧
    same_elsewhere (place base stride) (length c) result result'.
Proof.
  intros Hs. revert result c. induction data as [|d data IH]; intros result c Hne Hlen Hc; cbn [rs_getRemainder foldl].
  { exists result. done. }
  destruct (remainder_step_col coeff base stride result c d) as (r1 & -> & H1 & Hl1 & Hk1); [done..|]. cbn [mbind option_bind].
  pose proof (length_rem_step coeff c d (eq_sym Hlen) Hne) as Hl.
  destruct (IH r1 (rem_step coeff c d)) as (r2 & Hr2 & H2 & Hl2 & Hk2); [|congruence|done|].
  { intros E. rewrite E in Hl. destruct c; [done|]. cbn in *. congruence. }
  rewrite Hl, Hlen in Hr2, Hk2. exists r2. split_and!; [done|done|]. split; [congruence|].
  intros k Hk. rewrite Hk2 by done. by apply Hk1.
Qed.
