(* ===== verification/QrBlocks.v ===== *)
(** The blocks of a QR code (components/qrcode/qrcoded.c): the tables of sizes, the
    interleaving of the blocks of data with their remainders ([performErrorCorrection]),
    and a reader that takes the blocks apart again.  The counters of the code, of eight
    and sixteen bits, never wrap ([sizes_small]), so they are natural numbers here. *)

From S2P Require Import Prelude QrBits QrField.
#[local] Open Scope Z_scope.

(** * Sizes *)

(** By the bits of the error correction level in the format: medium, low, high, quartile. *)
Definition NUM_ERROR_CORRECTION_CODEWORDS : list (list Z) :=
  [[10; 16; 26; 36; 48; 64; 72; 88; 110; 130; 150; 176; 198; 216; 240; 280; 308; 338; 364; 416; 442; 476; 504; 560; 588;
    644; 700; 728; 784; 812; 868; 924; 980; 1036; 1064; 1120; 1204; 1260; 1316; 1372];
   [7; 10; 15; 20; 26; 36; 40; 48; 60; 72; 80; 96; 104; 120; 132; 144; 168; 180; 196; 224; 224; 252; 270; 300; 312; 336;
    360; 390; 420; 450; 480; 510; 540; 570; 570; 600; 630; 660; 720; 750];
   [17; 28; 44; 64; 88; 112; 130; 156; 192; 224; 264; 308; 352; 384; 432; 480; 532; 588; 650; 700; 750; 816; 900; 960;
    1050; 1110; 1200; 1260; 1350; 1440; 1530; 1620; 1710; 1800; 1890; 1980; 2100; 2220; 2310; 2430];
   [13; 22; 36; 52; 72; 96; 108; 132; 160; 192; 224; 260; 288; 320; 360; 408; 448; 504; 546; 600; 644; 690; 750; 810; 870;
    952; 1020; 1050; 1140; 1200; 1290; 1350; 1440; 1530; 1590; 1680; 1770; 1860; 1950; 2040]].

Definition NUM_ERROR_CORRECTION_BLOCKS : list (list Z) :=
  [[1; 1; 1; 2; 2; 4; 4; 4; 5; 5; 5; 8; 9; 9; 10; 10; 11; 13; 14; 16; 17; 17; 18; 20; 21; 23; 25; 26; 28; 29; 31; 33; 35;
    37; 38; 40; 43; 45; 47; 49];
   [1; 1; 1; 1; 1; 2; 2; 2; 2; 4; 4; 4; 4; 4; 6; 6; 6; 6; 7; 8; 8; 9; 9; 10; 12; 12; 12; 13; 14; 15; 16; 17; 18; 19; 19;
    20; 21; 22; 24; 25];
   [1; 1; 2; 4; 4; 4; 5; 6; 8; 8; 11; 11; 16; 16; 18; 16; 19; 21; 25; 25; 25; 34; 30; 32; 35; 37; 40; 42; 45; 48; 51; 54;
    57; 60; 63; 66; 70; 74; 77; 81];
   [1; 1; 2; 2; 4; 4; 6; 6; 8; 8; 8; 10; 12; 16; 12; 17; 16; 18; 21; 20; 23; 23; 25; 27; 29; 34; 34; 35; 38; 40; 43; 45;
    48; 51; 53; 56; 59; 62; 65; 68]].

Definition NUM_RAW_DATA_MODULES : list Z :=
  [208; 359; 567; 807; 1079; 1383; 1568; 1936; 2336; 2768; 3232; 3728; 4256; 4651; 5243; 5867; 6523;
   7211; 7931; 8683; 9252; 10068; 10916; 11796; 12708; 13652; 14628; 15371; 16411; 17483; 18587;
   19723; 20891; 22091; 23008; 24272; 25568; 26896; 28256; 29648].

Definition of_table (table : list (list Z)) (ecc version : Z) : Z :=
  table !!! Z.to_nat ecc !!! Z.to_nat (version - 1).
Definition module_count (version : Z) : Z := NUM_RAW_DATA_MODULES !!! Z.to_nat (version - 1).

(** The sizes that [performErrorCorrection] computes first. *)
Record sizes := mk_sizes {
  numBlocks : nat; blockEccLen : nat; numShortBlocks : nat; shortDataBlockLen : nat
}.

Definition block_sizes (version ecc : Z) : sizes :=
  let numBlocks := of_table NUM_ERROR_CORRECTION_BLOCKS ecc version in
  let totalEcc := of_table NUM_ERROR_CORRECTION_CODEWORDS ecc version in
  let moduleCount := module_count version in
  let blockEccLen := u8 (totalEcc / numBlocks) in
  let numShortBlocks := u8 (numBlocks - moduleCount / 8 mod numBlocks) in
  let shortBlockLen := u8 (moduleCount / 8 / numBlocks) in
  mk_sizes (Z.to_nat numBlocks) (Z.to_nat blockEccLen) (Z.to_nat numShortBlocks) (Z.to_nat (u8 (shortBlockLen - blockEccLen))).

(** * Interleaving *)

(** [result[offset++] = v]. *)
Definition put (offset : nat) (v : Z) (result : list Z) : option (list Z) :=
  if (offset <? length result)%nat then Some (<[offset := v]> result) else None.

(** One byte of every block: the inner loop over [blockNum]. *)
Fixpoint interleave_row (todo blockNum numShort index stride offset : nat) (data result : list Z) : option (nat * list Z) :=
  match todo with
  | O => Some (offset, result)
  | S todo' =>
      v ← data !! index;
      result ← put offset v result;
      let stride := if (blockNum =? numShort)%nat then S stride else stride in
      interleave_row todo' (S blockNum) numShort (index + stride) stride (S offset) data result
  end.

Fixpoint interleave_rows (todo i : nat) (sz : sizes) (offset : nat) (data result : list Z) : option (nat * list Z) :=
  match todo with
  | O => Some (offset, result)
  | S todo' =>
      '(offset, result) ← interleave_row (numBlocks sz) 0 (numShortBlocks sz) i (shortDataBlockLen sz) offset data result;
      interleave_rows todo' (S i) sz offset data result
  end.

(** The last byte of the long blocks. *)
Fixpoint interleave_long (todo blockNum index stride offset : nat) (data result : list Z) : option (nat * list Z) :=
  match todo with
  | O => Some (offset, result)
  | S todo' =>
      v ← data !! index;
      result ← put offset v result;
      let stride := if (blockNum =? 0)%nat then S stride else stride in
      interleave_long todo' (S blockNum) (index + stride) stride (S offset) data result
  end.

(** The remainders of all blocks; [dataBytes] advances by the size of a block. *)
Fixpoint append_ecc (todo blockNum blockSize : nat) (sz : sizes) (coeff : list Z) (offset : nat)
    (data result : list Z) : option (list Z) :=
  match todo with
  | O => Some result
  | S todo' =>
      let blockSize := if (blockNum =? numShortBlocks sz)%nat then S blockSize else blockSize in
      if (length data <? blockSize)%nat then None else
      result ← rs_getRemainder (blockEccLen sz) coeff (take blockSize data) (offset + blockNum) (numBlocks sz) result;
      append_ecc todo' (S blockNum) blockSize sz coeff offset (drop blockSize data) result
  end.

Definition performErrorCorrection (version ecc : Z) (data : bit_bucket) : option bit_bucket :=
  let sz := block_sizes version ecc in
  let result := replicate (Z.to_nat (bb_capacity data)) 0 in
  coeff ← rs_init (blockEccLen sz);
  '(offset, result) ← interleave_rows (shortDataBlockLen sz) 0 sz 0 (bb_data data) result;
  '(offset, result) ← interleave_long (numBlocks sz - numShortBlocks sz) 0
      (shortDataBlockLen sz * (numShortBlocks sz + 1)) (shortDataBlockLen sz) offset (bb_data data) result;
  result ← append_ecc (numBlocks sz) 0 (shortDataBlockLen sz) sz coeff offset (bb_data data) result;
  Some (mk_bucket (module_count version) (bb_capacity data) result).

(** * A reader of the blocks *)

Definition block_len (sz : sizes) (b : nat) : nat :=
  if (numShortBlocks sz <=? b)%nat then S (shortDataBlockLen sz) else shortDataBlockLen sz.
Definition block_start (sz : sizes) (b : nat) : nat := b * shortDataBlockLen sz + (b - numShortBlocks sz).

(** The bytes of data of all blocks. *)
Definition data_len (sz : sizes) : nat := block_start sz (numBlocks sz).

Definition read_block (sz : sizes) (codewords : list Z) (b : nat) : list Z :=
  ((λ i, codewords !!! (i * numBlocks sz + b)%nat) <$> seq 0 (shortDataBlockLen sz)) ++
  (if (numShortBlocks sz <=? b)%nat
   then [codewords !!! (shortDataBlockLen sz * numBlocks sz + (b - numShortBlocks sz))%nat] else []).

Definition read_ecc (sz : sizes) (codewords : list Z) (b : nat) : list Z :=
  (λ j, codewords !!! place (data_len sz + b) (numBlocks sz) j) <$> seq 0 (blockEccLen sz).

Definition read_blocks (sz : sizes) (codewords : list Z) : list Z :=
  mjoin (read_block sz codewords <$> seq 0 (numBlocks sz)).

(** The block [b] as data and as a received word. *)
Definition data_block (sz : sizes) (data : list Z) (b : nat) : list Z :=
  take (block_len sz b) (drop (block_start sz b) data).

(** * The sizes fit *)

Definition sizes_ok (version : Z) (sz : sizes) : Prop :=
  numBlocks sz ≠ 0%nat ∧ (numShortBlocks sz ≤ numBlocks sz)%nat ∧ blockEccLen sz ≠ 0%nat ∧
  Z.of_nat (data_len sz + numBlocks sz * blockEccLen sz) = module_count version / 8.

Definition level (ecc : Z) : Prop := 0 <= ecc < 4.
Definition version_ok (version : Z) : Prop := 1 <= version <= 40.

(** Nothing of a byte or of sixteen bits wraps, for all versions and levels. *)
Definition sizes_fit (version ecc : Z) : Prop :=
  let sz := block_sizes version ecc in
  let n := of_table NUM_ERROR_CORRECTION_BLOCKS ecc version in
  sizes_ok version sz ∧ n < 256 ∧ of_table NUM_ERROR_CORRECTION_CODEWORDS ecc version / n < 256 ∧
  module_count version / 8 / n < 256 ∧ (S (shortDataBlockLen sz) < 256)%nat ∧
  Z.of_nat (data_len sz + 2 * S (shortDataBlockLen sz)) < 65536.

#[export] Instance sizes_ok_dec version sz : Decision (sizes_ok version sz).
Proof. unfold sizes_ok. apply _. Defined.
#[export] Instance sizes_fit_dec version ecc : Decision (sizes_fit version ecc).
Proof. unfold sizes_fit. apply _. Defined.

Lemma sizes_small version ecc : version_ok version → level ecc → sizes_fit version ecc.
Proof.
  intros Hv He. assert (Forall (λ v, Forall (sizes_fit v) (seqZ 0 4)) (seqZ 1 40)) as Hall
    by (apply (bool_decide_unpack _); vm_compute; exact I).
  rewrite Forall_forall in Hall. specialize (Hall version). rewrite Forall_forall in Hall.
  unfold version_ok, level in *. apply Hall; apply elem_of_seqZ; lia.
Qed.

(** * Writing one after the other *)

Definition fill (offset : nat) (vals result : list Z) : list Z :=
  take offset result ++ vals ++ drop (offset + length vals) result.

Lemma length_fill offset vals result :
  (offset + length vals ≤ length result)%nat → length (fill offset vals result) = length result.
Proof. intros H. unfold fill. rewrite !length_app, length_take, length_drop. lia. Qed.

Lemma fill_nil offset result : fill offset [] result = result.
Proof. unfold fill. cbn. rewrite Nat.add_0_r. apply take_drop. Qed.

Lemma put_fill offset v result : (offset < length result)%nat → put offset v result = Some (fill offset [v] result).
Proof.
  intros H. unfold put, fill. rewrite (proj2 (Nat.ltb_lt _ _) H). f_equal. cbn [length app]. rewrite Nat.add_1_r.
  by apply insert_take_drop.
Qed.

Lemma fill_fill offset v1 v2 result :
  (offset + length v1 ≤ length result)%nat →
  fill (offset + length v1) v2 (fill offset v1 result) = fill offset (v1 ++ v2) result.
Proof.
  intros H. unfold fill. assert (length (take offset result ++ v1) = (offset + length v1)%nat) as Hl
    by (rewrite length_app, length_take; lia).
  rewrite (app_assoc (take offset result)), take_app_length' by done. rewrite length_app, Nat.add_assoc.
  rewrite drop_app, Hl, (drop_ge (take offset result ++ v1)) by lia. cbn [app]. rewrite drop_drop, <- !app_assoc.
  do 4 f_equal. lia.
Qed.

(** * What the loops write *)

Section Sizes.
Context (sz : sizes).
Notation n := (numBlocks sz).
Notation short := (numShortBlocks sz).
Notation s := (shortDataBlockLen sz).

Lemma block_start_S b : block_start sz (S b) = (block_start sz b + block_len sz b)%nat.
Proof. unfold block_start, block_len. destruct (Nat.leb_spec short b); lia. Qed.

Lemma block_start_mono a b : (a ≤ b)%nat → (block_start sz a ≤ block_start sz b)%nat.
Proof. intros Hab. unfold block_start. nia. Qed.

(** The byte [i] of the block [b]. *)
Definition byte_of (data : list Z) (i b : nat) : Z := data !!! (block_start sz b + i)%nat.

Lemma interleave_row_fill i data todo : ∀ b index stride offset result,
  index = (block_start sz b + i)%nat → stride = (if (short <? b)%nat then S s else s) →
  (∀ k, (k < b + todo)%nat → (block_start sz k + i < length data)%nat) → (offset + todo ≤ length result)%nat →
  interleave_row todo b short index stride offset data result
  = Some ((offset + todo)%nat, fill offset (byte_of data i <$> seq b todo) result).
Proof.
  induction todo as [|todo IH]; intros b index stride offset result Hi Hs Hd Hr; cbn [interleave_row seq fmap list_fmap].
  { by rewrite fill_nil, Nat.add_0_r. }
  subst index. rewrite list_lookup_lookup_total_lt by (apply Hd; lia). cbn [mbind option_bind].
  rewrite put_fill by lia. cbn [mbind option_bind].
  rewrite IH.
  - rewrite Nat.add_succ_r. do 2 f_equal. replace (S offset) with (offset + length [byte_of data i b])%nat by (cbn; lia).
    by rewrite fill_fill by (cbn; lia).
  - rewrite block_start_S. unfold block_len. subst stride.
    destruct (Nat.eqb_spec b short), (Nat.ltb_spec short b), (Nat.leb_spec short b); lia.
  - subst stride. destruct (Nat.eqb_spec b short), (Nat.ltb_spec short b), (Nat.ltb_spec short (S b)); lia.
  - intros k Hk. apply Hd. lia.
  - rewrite length_fill by (cbn; lia). lia.
Qed.

Definition row (data : list Z) (i : nat) : list Z := byte_of data i <$> seq 0 n.

Lemma length_row data i : length (row data i) = n.
Proof. unfold row. by rewrite length_fmap, length_seq. Qed.

Lemma interleave_rows_fill data todo : ∀ i offset result,
  (i + todo ≤ s)%nat → (data_len sz ≤ length data)%nat → (offset + todo * n ≤ length result)%nat →
  interleave_rows todo i sz offset data result
  = Some ((offset + todo * n)%nat, fill offset (mjoin (row data <$> seq i todo)) result).
Proof.
  induction todo as [|todo IH]; intros i offset result Hi Hd Hr; cbn [interleave_rows seq fmap list_fmap mjoin list_join].
  { by rewrite fill_nil, Nat.add_0_r. }
  rewrite (interleave_row_fill i); [|done|by destruct (Nat.ltb_spec short 0); lia| |lia].
  2:{ intros k Hk. pose proof (block_start_mono (S k) n ltac:(lia)) as Hm. rewrite block_start_S in Hm.
      unfold data_len, block_len in *. destruct (short <=? k)%nat; lia. }
  cbn [mbind option_bind]. fold (row data i). pose proof (length_row data i) as Hlr. rewrite IH; [|lia|done|].
  2:{ rewrite length_fill by lia. lia. }
  cbn [Nat.mul]. rewrite Nat.add_assoc. do 2 f_equal. rewrite <- Hlr at 1. by rewrite fill_fill by lia.
Qed.

Lemma interleave_long_fill data todo : ∀ j index stride offset result,
  index = (block_start sz (short + j) + s)%nat → stride = (if (0 <? j)%nat then S s else s) →
  (∀ k, (k < j + todo)%nat → (block_start sz (short + k) + s < length data)%nat) → (offset + todo ≤ length result)%nat →
  interleave_long todo j index stride offset data result
  = Some ((offset + todo)%nat, fill offset (byte_of data s <$> seq (short + j) todo) result).
Proof.
  induction todo as [|todo IH]; intros j index stride offset result Hi Hs Hd Hr; cbn [interleave_long seq fmap list_fmap].
  { by rewrite fill_nil, Nat.add_0_r. }
  subst index. rewrite list_lookup_lookup_total_lt by (apply Hd; lia). cbn [mbind option_bind].
  rewrite put_fill by lia. cbn [mbind option_bind].
  rewrite IH.
  - rewrite !Nat.add_succ_r. do 2 f_equal.
    replace (S offset) with (offset + length [byte_of data s (short + j)])%nat by (cbn; lia).
    by rewrite fill_fill by (cbn; lia).
  - rewrite Nat.add_succ_r, block_start_S. unfold block_len. subst stride.
    destruct (Nat.eqb_spec j 0), (Nat.ltb_spec 0 j), (Nat.leb_spec short (short + j)); lia.
  - subst stride. destruct (Nat.eqb_spec j 0), (Nat.ltb_spec 0 j); cbn; lia.
  - intros k Hk. apply Hd. lia.
  - rewrite length_fill by (cbn; lia). lia.
Qed.

(** All bytes of data in the order in which they are sent. *)
Definition interleaved (data : list Z) : list Z :=
  mjoin (row data <$> seq 0 s) ++ (byte_of data s <$> seq short (n - short)).

Lemma length_rows data i todo : length (mjoin (row data <$> seq i todo)) = (todo * n)%nat.
Proof.
  revert i. induction todo as [|todo IH]; intros i; [done|]. cbn [seq fmap list_fmap mjoin list_join].
  rewrite length_app, length_row, IH. done.
Qed.

Lemma rows_lookup data i todo k b :
  (k < todo)%nat → (b < n)%nat →
  mjoin (row data <$> seq i todo) !! (k * n + b)%nat = Some (byte_of data (i + k) b).
Proof.
  revert i k. induction todo as [|todo IH]; intros i k Hk Hb; [lia|]. cbn [seq fmap list_fmap mjoin list_join].
  destruct k as [|k].
  - rewrite lookup_app_l by (rewrite length_row; lia). unfold row. rewrite list_lookup_fmap, lookup_seq_lt by lia.
    cbn. by rewrite Nat.add_0_r.
  - rewrite lookup_app_r by (rewrite length_row; lia). rewrite length_row.
    replace (S k * n + b - n)%nat with (k * n + b)%nat by lia. rewrite IH by lia. do 2 f_equal. lia.
Qed.

Lemma long_lookup data b :
  (short ≤ b < n)%nat → interleaved data !! (s * n + (b - short))%nat = Some (byte_of data s b).
Proof.
  intros Hb. unfold interleaved. rewrite lookup_app_r, length_rows by (rewrite length_rows; lia).
  rewrite list_lookup_fmap, lookup_seq_lt by lia. cbn [fmap option_fmap option_map]. do 2 f_equal. lia.
Qed.

Lemma length_interleaved data : (short ≤ n)%nat → length (interleaved data) = data_len sz.
Proof.
  intros Hs. unfold interleaved, data_len, block_start. rewrite length_app, length_rows, length_fmap, length_seq. lia.
Qed.

(** ** The blocks read back *)

Lemma data_block_bytes data b :
  (block_start sz (S b) ≤ length data)%nat →
  data_block sz data b = (λ i, byte_of data i b) <$> seq 0 (block_len sz b).
Proof.
  rewrite block_start_S. intros Hb. unfold data_block. apply list_eq. intros i. rewrite list_lookup_fmap.
  destruct (decide (i < block_len sz b)%nat) as [Hi|Hi].
  - rewrite lookup_take_lt, lookup_drop, lookup_seq_lt by lia. cbn. unfold byte_of.
    rewrite list_lookup_lookup_total_lt by lia. done.
  - rewrite (lookup_ge_None_2 (seq _ _)) by (rewrite length_seq; lia). apply lookup_ge_None_2.
    rewrite length_take. lia.
Qed.

Lemma read_block_data data codewords b :
  (short ≤ n)%nat → (b < n)%nat → (data_len sz ≤ length data)%nat →
  (∀ k, (k < data_len sz)%nat → codewords !! k = interleaved data !! k) →
  read_block sz codewords b = data_block sz data b.
Proof.
  intros Hsn Hb Hd Hk. pose proof (block_start_mono (S b) n ltac:(lia)) as Hm.
  assert (data_len sz = s * n + (n - short))%nat as Hdl by (unfold data_len, block_start; lia).
  rewrite data_block_bytes by (unfold data_len in Hd; lia).
  unfold read_block, block_len.
  assert ((λ i, codewords !!! (i * n + b)%nat) <$> seq 0 s = (λ i, byte_of data i b) <$> seq 0 s) as ->.
  { apply list_fmap_ext. intros i x [-> Hlt]%lookup_seq. rewrite Nat.add_0_l. apply list_lookup_total_correct.
    rewrite Hk by nia. unfold interleaved. rewrite lookup_app_l by (rewrite length_rows; nia). by rewrite rows_lookup by lia. }
  destruct (Nat.leb_spec short b) as [Hl|Hl]; [|by rewrite app_nil_r].
  rewrite seq_S, fmap_app. do 2 f_equal. cbn [fmap list_fmap]. f_equal. apply list_lookup_total_correct.
  rewrite Hk by lia. by apply long_lookup.
Qed.

Lemma data_blocks_join data m :
  (block_start sz m ≤ length data)%nat → mjoin (data_block sz data <$> seq 0 m) = take (block_start sz m) data.
Proof.
  induction m as [|m IH]; intros Hm; [done|]. rewrite seq_S, fmap_app, join_app. cbn [fmap list_fmap mjoin list_join].
  rewrite app_nil_r, block_start_S in *. rewrite IH by lia. unfold data_block.
  rewrite take_take_drop. done.
Qed.
End Sizes.

(** * The remainders *)

Lemma places_apart offset n b b' j j' :
  (b < n)%nat → (b' < n)%nat → b ≠ b' → place (offset + b) n j ≠ place (offset + b') n j'.
Proof.
  unfold place. intros Hb Hb' Hne E. apply Hne.
  assert ((b + j * n) mod n = (b' + j' * n) mod n)%nat as Hm by (f_equal; lia).
  rewrite !Nat.Div0.mod_add, !Nat.mod_small in Hm by done. done.
Qed.

Definition remainder_of (sz : sizes) (coeff data : list Z) (b : nat) : list Z :=
  foldl (rem_step coeff) (replicate (blockEccLen sz) 0) (data_block sz data b).

(** The places of the remainders of the blocks from [b] on are clear. *)
Definition clear_from (sz : sizes) (offset b : nat) (result : list Z) : Prop :=
  ∀ b', (b ≤ b' < numBlocks sz)%nat →
    holds_col (place (offset + b') (numBlocks sz)) result (replicate (blockEccLen sz) 0).

Lemma append_ecc_writes sz coeff offset data todo : ∀ b blockSize result,
  length coeff = blockEccLen sz → blockEccLen sz ≠ 0%nat → (todo + b = numBlocks sz)%nat →
  blockSize = (if (numShortBlocks sz <? b)%nat then S (shortDataBlockLen sz) else shortDataBlockLen sz) →
  (data_len sz ≤ length data)%nat → clear_from sz offset b result →
  ∃ result', append_ecc todo b blockSize sz coeff offset (drop (block_start sz b) data) result = Some result' ∧
    length result' = length result ∧
    (∀ k, (∀ b' j, (b ≤ b' < numBlocks sz)%nat → k ≠ place (offset + b') (numBlocks sz) j) → result' !! k = result !! k) ∧
    ∀ b', (b ≤ b' < numBlocks sz)%nat →
      holds_col (place (offset + b') (numBlocks sz)) result' (remainder_of sz coeff data b').
Proof.
  induction todo as [|todo IH]; intros b blockSize result Hc He Hn Hsize Hd Hclear; cbn [append_ecc].
  { exists result. split_and!; [done..|]. intros b' Hb'. lia. }
  assert ((if (b =? numShortBlocks sz)%nat then S blockSize else blockSize) = block_len sz b) as ->.
  { subst blockSize. unfold block_len.
    destruct (Nat.eqb_spec b (numShortBlocks sz)), (Nat.ltb_spec (numShortBlocks sz) b), (Nat.leb_spec (numShortBlocks sz) b); lia. }
  pose proof (block_start_mono sz (S b) (numBlocks sz) ltac:(lia)) as Hm. rewrite block_start_S in Hm.
  destruct (Nat.ltb_spec (length (drop (block_start sz b) data)) (block_len sz b)) as [Hlt|_].
  { rewrite length_drop in Hlt. unfold data_len in Hd. lia. }
  fold (data_block sz data b).
  destruct (rs_getRemainder_col coeff (data_block sz data b) (offset + b) (numBlocks sz) result
              (replicate (blockEccLen sz) 0)) as (r1 & Hr1 & H1 & Hl1 & Hk1);
    [lia|by destruct (blockEccLen sz)|by rewrite length_replicate|apply Hclear; lia|].
  rewrite length_replicate in Hr1, Hk1. rewrite Hr1. cbn [mbind option_bind].
  rewrite drop_drop, <- block_start_S.
  destruct (IH (S b) (block_len sz b) r1) as (r2 & -> & Hl2 & Hk2 & H2); [done|done|lia| |done| |].
  { unfold block_len. destruct (Nat.ltb_spec (numShortBlocks sz) (S b)), (Nat.leb_spec (numShortBlocks sz) b); lia. }
  { intros b' Hb' j Hj. rewrite Hk1 by (intros i Hi; apply places_apart; lia). by apply Hclear; [lia|]. }
  exists r2. split_and!; [done|congruence| |].
  - intros k Hk. rewrite Hk2 by (intros b' j Hb'; apply Hk; lia). apply Hk1. intros i Hi. apply Hk. lia.
  - intros b' Hb'. destruct (decide (b' = b)) as [->|]; [|apply H2; lia].
    intros j Hj. rewrite Hk2 by (intros b'' j' Hb''; apply places_apart; lia). by apply H1.
Qed.

(** * The whole of it *)

Lemma rs_init_some d : d ≠ 0%nat → ∃ g, rs_init d = Some g ∧ length g = d.
Proof.
  intros Hd. destruct (rs_init d) as [g|] eqn:Hg; [|by destruct d].
  exists g. split; [done|]. by apply (rs_init_product d g 0).
Qed.

Lemma fill_lookup_low offset vals result k :
  (offset ≤ length result)%nat → (k < offset)%nat → fill offset vals result !! k = result !! k.
Proof. intros Ho Hk. unfold fill. rewrite lookup_app_l by (rewrite length_take; lia). by apply lookup_take_lt. Qed.

Lemma fill_0 vals n : (length vals ≤ n)%nat → fill 0 vals (replicate n 0) = vals ++ replicate (n - length vals) 0.
Proof. intros Hn. unfold fill. cbn [take app]. rewrite Nat.add_0_l. by rewrite drop_replicate. Qed.

(** The codewords of a symbol: all blocks interleaved, then their remainders. *)
Record codewords_of (version ecc : Z) (data : list Z) (b : bit_bucket) : Prop := {
  cw_offset : bb_offset b = module_count version;
  cw_data : ∀ k, (k < data_len (block_sizes version ecc))%nat →
    bb_data b !! k = interleaved (block_sizes version ecc) data !! k;
  cw_ecc : ∀ g, rs_init (blockEccLen (block_sizes version ecc)) = Some g →
    ∀ i, (i < numBlocks (block_sizes version ecc))%nat →
    holds_col (place (data_len (block_sizes version ecc) + i) (numBlocks (block_sizes version ecc))) (bb_data b)
      (remainder_of (block_sizes version ecc) g data i);
}.

Lemma performErrorCorrection_codewords version ecc b :
  version_ok version → level ecc → bb_capacity b = Z.of_nat (length (bb_data b)) →
  module_count version / 8 <= Z.of_nat (length (bb_data b)) →
  ∃ b', performErrorCorrection version ecc b = Some b' ∧ length (bb_data b') = length (bb_data b) ∧
    codewords_of version ecc (bb_data b) b'.
Proof.
  intros Hv He Hcap Hroom. destruct (sizes_small version ecc Hv He) as ((Hn & Hs & Hecc & Hlen) & _).
  set (sz := block_sizes version ecc) in *. unfold performErrorCorrection. fold sz. rewrite Hcap, Nat2Z.id.
  destruct (rs_init_some _ Hecc) as (g & Hg & Hgl). rewrite Hg. cbn [mbind option_bind].
  set (data := bb_data b) in *. set (zeros := replicate (length data) 0).
  assert (length zeros = length data) as Hz by apply length_replicate.
  assert (data_len sz = shortDataBlockLen sz * numBlocks sz + (numBlocks sz - numShortBlocks sz))%nat as Hdl
    by (unfold data_len, block_start; lia).
  rewrite (interleave_rows_fill sz data) by lia. cbn [mbind option_bind Nat.add].
  set (rows := mjoin _). assert (length rows = shortDataBlockLen sz * numBlocks sz)%nat as Hrl by apply length_rows.
  rewrite (interleave_long_fill sz data); [|unfold block_start; lia|done| |rewrite length_fill; lia].
  2:{ intros k Hk. pose proof (block_start_mono sz (S (numShortBlocks sz + k)) (numBlocks sz) ltac:(lia)) as Hm.
      rewrite block_start_S in Hm. unfold block_len in Hm. destruct (Nat.leb_spec (numShortBlocks sz) (numShortBlocks sz + k)); [|lia].
      unfold data_len in *. lia. }
  cbn [mbind option_bind]. rewrite Nat.add_0_r, <- Hdl, <- Hrl. rewrite (fill_fill 0 rows) by lia.
  change (rows ++ _) with (interleaved sz data). pose proof (length_interleaved sz data Hs) as Hil.
  unfold zeros. rewrite fill_0 by lia.
  set (result := interleaved sz data ++ _). assert (length result = length data) as Hrlen
    by (subst result; rewrite length_app, length_replicate; lia).
  destruct (append_ecc_writes sz g (data_len sz) data (numBlocks sz) 0 (shortDataBlockLen sz) result)
    as (r & Hr & Hrl' & Hk & Hcol); [done|done|lia|by destruct (Nat.ltb_spec (numShortBlocks sz) 0); lia|lia| |].
  { intros i Hi j Hj. rewrite length_replicate in Hj. subst result. unfold place.
    rewrite lookup_app_r by lia. rewrite !lookup_replicate_2; [done|done|]. nia. }
  rewrite drop_0 in Hr. rewrite Hr. cbn [mbind option_bind]. eexists. split; [done|]. cbn [bb_data]. split; [congruence|].
  split; cbn [bb_offset bb_data]; fold sz; [done| |].
  - intros k Hklt. rewrite Hk by (intros i j Hi; unfold place; lia). subst result. by rewrite lookup_app_l by lia.
  - intros g' Hg' i Hi. rewrite Hg in Hg'. injection Hg' as <-. apply Hcol. lia.
Qed.

(** Taking the blocks apart gives the data, and every block with its remainder has all
    the roots of the generator. *)
Lemma codewords_read version ecc data b :
  version_ok version → level ecc → (data_len (block_sizes version ecc) ≤ length data)%nat → codewords_of version ecc data b →
  read_blocks (block_sizes version ecc) (bb_data b) = take (data_len (block_sizes version ecc)) data.
Proof.
  intros Hv He Hd [_ Hk _]. destruct (sizes_small version ecc Hv He) as ((Hn & Hs & Hecc & Hlen) & _).
  set (sz := block_sizes version ecc) in *. unfold read_blocks, data_len.
  rewrite <- data_blocks_join by done. f_equal. apply list_fmap_ext.
  intros i x [-> Hlt]%lookup_seq. rewrite Nat.add_0_l. by apply read_block_data.
Qed.

Lemma codewords_syndromes version ecc data b i j :
  version_ok version → level ecc → Forall is_u8 data → (data_len (block_sizes version ecc) ≤ length data)%nat →
  codewords_of version ecc data b →
  (i < numBlocks (block_sizes version ecc))%nat → (j < blockEccLen (block_sizes version ecc))%nat →
  peval (root j) (read_block (block_sizes version ecc) (bb_data b) i ++ read_ecc (block_sizes version ecc) (bb_data b) i) = 0.
Proof.
  intros Hv He Hu Hd [_ Hk Hcol] Hi Hj. destruct (sizes_small version ecc Hv He) as ((Hn & Hs & Hecc & Hlen) & _).
  set (sz := block_sizes version ecc) in *. rewrite (read_block_data sz data) by done.
  destruct (rs_init_some _ Hecc) as (g & Hg & Hgl). specialize (Hcol g Hg i Hi).
  assert (Forall is_u8 (data_block sz data i)) as Hub by (unfold data_block; by apply Forall_take, Forall_drop).
  destruct (rem_steps_value _ g j (data_block sz data i) Hg Hj Hub) as (Hrl & Hru & Hv').
  assert (read_ecc sz (bb_data b) i = remainder_of sz g data i) as ->.
  { unfold read_ecc. apply list_eq. intros k. rewrite list_lookup_fmap. unfold remainder_of in *.
    destruct (decide (k < blockEccLen sz)%nat).
    - rewrite lookup_seq_lt by done. cbn [fmap option_fmap option_map].
      pose proof (holds_col_total _ _ _ k Hcol ltac:(lia)) as Hc. rewrite (list_lookup_total_correct _ _ _ Hc). symmetry.
      apply list_lookup_lookup_total_lt. lia.
    - rewrite !lookup_ge_None_2; [done|lia|rewrite length_seq; lia]. }
  unfold remainder_of in *. pose proof (proj2 (root_gpow j)).
  rewrite peval_app, Hrl, Hv' by done. apply Z.lxor_nilpotent.
Qed.

(** * The codewords as bytes *)

Lemma byte_of_u8 sz data i b : Forall is_u8 data → is_u8 (byte_of sz data i b).
Proof.
  intros Hd. unfold byte_of. rewrite list_lookup_total_alt. destruct (data !! _) as [v|] eqn:E; [|done].
  by eapply Forall_lookup_1.
Qed.

Lemma interleaved_u8 sz data : Forall is_u8 data → Forall is_u8 (interleaved sz data).
Proof.
  intros Hd. unfold interleaved. apply Forall_app. split.
  - apply Forall_forall. intros v (l & Hv & Hl)%list_elem_of_join. apply list_elem_of_fmap in Hl as (i & -> & _).
    unfold row in Hv. apply list_elem_of_fmap in Hv as (b & -> & _). by apply byte_of_u8.
  - apply Forall_fmap, Forall_forall. intros b _. by apply byte_of_u8.
Qed.

Lemma codewords_u8 version ecc data b :
  version_ok version → level ecc → Forall is_u8 data → codewords_of version ecc data b →
  Forall is_u8 (take (Z.to_nat (module_count version / 8)) (bb_data b)).
Proof.
  intros Hv He Hu [_ Hk Hcol]. destruct (sizes_small version ecc Hv He) as ((Hn & Hs & Hecc & Hlen) & _).
  set (sz := block_sizes version ecc) in *. apply Forall_lookup. intros k v Hkv.
  apply lookup_take_Some in Hkv as [Hkv Hlt]. destruct (decide (k < data_len sz)%nat) as [Hd|Hd].
  - rewrite Hk in Hkv by done. eapply Forall_lookup_1; [by apply (interleaved_u8 sz data)|exact Hkv].
  - destruct (rs_init_some _ Hecc) as (g & Hg & Hgl).
    set (i := ((k - data_len sz) mod numBlocks sz)%nat). set (j := ((k - data_len sz) / numBlocks sz)%nat).
    assert (i < numBlocks sz)%nat as Hi by (apply Nat.mod_upper_bound; lia).
    pose proof (Nat.div_mod_eq (k - data_len sz) (numBlocks sz)) as Hdm. fold i j in Hdm. clearbody i j.
    assert (j < blockEccLen sz)%nat as Hj by nia.
    assert (k = place (data_len sz + i) (numBlocks sz) j) as -> by (unfold place; lia).
    destruct (rem_steps_value _ g 0 (data_block sz data i) Hg ltac:(lia)) as (Hrl & Hru & _).
    { unfold data_block. by apply Forall_take, Forall_drop. }
    rewrite (Hcol g Hg i Hi) in Hkv by (unfold remainder_of; lia). by eapply Forall_lookup_1.
Qed.

(** Nothing after the codewords matters. *)
Lemma codewords_take version ecc data b :
  version_ok version → level ecc → codewords_of version ecc data b →
  codewords_of version ecc data
    (mk_bucket (bb_offset b) (bb_capacity b) (take (Z.to_nat (module_count version / 8)) (bb_data b))).
Proof.
  intros Hv He [Ho Hk Hcol]. destruct (sizes_small version ecc Hv He) as ((Hn & Hs & Hecc & Hlen) & _).
  set (sz := block_sizes version ecc) in *. split; cbn [bb_offset bb_data]; fold sz; [done| |].
  - intros k Hlt. rewrite lookup_take_lt by nia. by apply Hk.
  - intros g Hg i Hi j Hj. pose proof (proj1 (rs_init_product _ g 0 Hg ltac:(done))) as Hgl.
    assert (length (remainder_of sz g data i) = blockEccLen sz) as Hrl.
    { unfold remainder_of. clear -Hgl Hecc. assert (length (replicate (blockEccLen sz) 0) = blockEccLen sz) as Hl by apply length_replicate.
      revert Hl. generalize (replicate (blockEccLen sz) 0). induction (data_block sz data i) as [|d l IH]; intros c Hl; [done|].
      cbn [foldl]. apply IH. rewrite length_rem_step; [done|congruence|]. intros ->. by apply Hecc. }
    rewrite lookup_take_lt; [by apply Hcol|]. unfold place. rewrite Hrl in Hj.
    apply Nat2Z.inj_lt. rewrite Z2Nat.id by (rewrite <- Hlen; lia). rewrite <- Hlen.
    pose proof (Nat.mul_le_mono_l (S j) _ (numBlocks sz) Hj). lia.
Qed.
