(* ===== verification/QrGrid.v ===== *)
(** The grid of a QR code (components/qrcode/qrcoded.c): the patterns with a fixed
    place, the zigzag in which the codewords are laid out, the masks and the penalty
    of a pattern.  What a loop draws is a list of modules in the order of the loop;
    an access outside the grid is [None]. *)

From S2P Require Import Prelude QrBits QrField QrBlocks.
#[local] Open Scope Z_scope.

(** * Single modules *)

Definition bit_offset (g : bit_bucket) (x y : Z) : Z := u32 (y * bb_offset g + x).
Definition bit_mask (offset : Z) : Z := u8 (Z.shiftl 1 (7 - Z.land offset 7)).

Definition bb_setBit (g : bit_bucket) (x y : Z) (on : bool) : option bit_bucket :=
  let offset := bit_offset g x y in
  let k := Z.to_nat (Z.shiftr offset 3) in
  b ← bb_data g !! k;
  Some (mk_bucket (bb_offset g) (bb_capacity g)
    (<[k := if on then Z.lor b (bit_mask offset) else Z.land b (Z.lnot (bit_mask offset))]> (bb_data g))).

Definition bb_getBit (g : bit_bucket) (x y : Z) : option bool :=
  let offset := bit_offset g x y in
  b ← bb_data g !! Z.to_nat (Z.shiftr offset 3);
  Some (negb (Z.land b (Z.shiftl 1 (7 - Z.land offset 7)) =? 0)).

Definition bb_invertBit (g : bit_bucket) (x y : Z) (invert : bool) : option bit_bucket :=
  on ← bb_getBit g x y; bb_setBit g x y (xorb on invert).

Definition setFunctionModule (x y : Z) (on : bool) (gs : bit_bucket * bit_bucket) : option (bit_bucket * bit_bucket) :=
  m ← bb_setBit gs.1 x y on; f ← bb_setBit gs.2 x y true; Some (m, f).

(** Modules [(x, y, on)] drawn one after the other. *)
Fixpoint draw (ws : list (Z * Z * bool)) (gs : bit_bucket * bit_bucket) : option (bit_bucket * bit_bucket) :=
  match ws with
  | [] => Some gs
  | (x, y, on) :: ws' => gs' ← setFunctionModule x y on gs; draw ws' gs'
  end.

(** * Masks *)

Definition mask_inverts (mask x y : Z) : bool :=
  if mask =? 0 then (x + y) mod 2 =? 0
  else if mask =? 1 then y mod 2 =? 0
  else if mask =? 2 then x mod 3 =? 0
  else if mask =? 3 then (x + y) mod 3 =? 0
  else if mask =? 4 then (x / 3 + y / 2) mod 2 =? 0
  else if mask =? 5 then (x * y) mod 2 + (x * y) mod 3 =? 0
  else if mask =? 6 then ((x * y) mod 2 + (x * y) mod 3) mod 2 =? 0
  else if mask =? 7 then ((x + y) mod 2 + (x * y) mod 3) mod 2 =? 0
  else false.

(** The modules of a grid, row by row. *)
Definition all_modules (size : Z) : list (Z * Z) := seqZ 0 size ≫= λ y, (λ x, (x, y)) <$> seqZ 0 size.

Fixpoint mask_modules (ps : list (Z * Z)) (isFunction : bit_bucket) (mask : Z) (modules : bit_bucket) : option bit_bucket :=
  match ps with
  | [] => Some modules
  | (x, y) :: ps' =>
      f ← bb_getBit isFunction x y;
      if (f : bool) then mask_modules ps' isFunction mask modules else
      modules' ← bb_invertBit modules x y (mask_inverts mask x y);
      mask_modules ps' isFunction mask modules'
  end.

Definition applyMask (modules isFunction : bit_bucket) (mask : Z) : option bit_bucket :=
  mask_modules (all_modules (u8 (bb_offset modules))) isFunction mask modules.

(** * Patterns *)

Definition finder_writes (size x y : Z) : list (Z * Z * bool) :=
  seqZ (-4) 9 ≫= λ i, seqZ (-4) 9 ≫= λ j,
    let dist := Z.max (Z.abs i) (Z.abs j) in
    let xx := x + j in let yy := y + i in
    if (0 <=? xx) && (xx <? size) && (0 <=? yy) && (yy <? size)
    then [(u8 xx, u8 yy, negb (dist =? 2) && negb (dist =? 4))] else [].

Definition alignment_writes (x y : Z) : list (Z * Z * bool) :=
  seqZ (-2) 5 ≫= λ i, (λ j, (u8 (x + j), u8 (y + i), negb (Z.max (Z.abs i) (Z.abs j) =? 1))) <$> seqZ (-2) 5.

(** The five bits of level and mask with the ten of their check. *)
Fixpoint format_rem (n : nat) (rem : Z) : Z :=
  match n with O => rem | S n' => format_rem n' (u32 (Z.lxor (u32 (Z.shiftl rem 1)) (u32 (Z.shiftr rem 9 * 0x537)))) end.

Definition format_bits (ecc mask : Z) : Z :=
  let data := Z.lor (Z.shiftl ecc 3) mask in
  Z.lxor (Z.lor (Z.shiftl data 10) (format_rem 10 data)) 0x5412.

Definition format_writes (size ecc mask : Z) : list (Z * Z * bool) :=
  let bit i := Z.testbit (format_bits ecc mask) i in
  ((λ i, (8, i, bit i)) <$> seqZ 0 6) ++ [(8, 7, bit 6); (8, 8, bit 7); (7, 8, bit 8)] ++
  ((λ i, (14 - i, 8, bit i)) <$> seqZ 9 6) ++
  ((λ i, (u8 (size - 1 - i), 8, bit i)) <$> seqZ 0 8) ++
  ((λ i, (8, u8 (size - 15 + i), bit i)) <$> seqZ 8 7) ++ [(8, u8 (size - 8), true)].

Definition drawFormatBits (ecc mask : Z) (gs : bit_bucket * bit_bucket) : option (bit_bucket * bit_bucket) :=
  draw (format_writes (u8 (bb_offset gs.1)) ecc mask) gs.

Fixpoint version_rem (n : nat) (rem : Z) : Z :=
  match n with O => rem | S n' => version_rem n' (u32 (Z.lxor (u32 (Z.shiftl rem 1)) (u32 (Z.shiftr rem 11 * 0x1F25)))) end.

Definition version_bits (version : Z) : Z := Z.lor (Z.shiftl version 12) (version_rem 12 version).

(** The width is read as a signed byte here; [u8] takes it back. *)
Definition version_writes (size version : Z) : list (Z * Z * bool) :=
  if version <? 7 then [] else
  seqZ 0 18 ≫= λ i,
    let bit := Z.testbit (version_bits version) i in
    let a := u8 (i8 size - 11 + i mod 3) in let b := i / 3 in
    [(a, b, bit); (b, a, bit)].

(** The coordinates of the alignment patterns. *)
Definition align_positions (version : Z) : list Z :=
  let alignCount := version / 7 + 2 in
  let step := if version =? 32 then 26
              else u8 ((version * 4 + alignCount * 2 + 1) / (2 * alignCount - 2) * 2) in
  let size := u8 (version * 4 + 17) in
  6 :: rev ((λ i, u8 (size - 7 - i * step)) <$> seqZ 0 (alignCount - 1)).

(** The patterns but for those on the three finders. *)
Definition align_centers (version : Z) : list (Z * Z) :=
  if 1 <? version then
    let ps := align_positions version in
    let last := Z.of_nat (length ps) - 1 in
    seqZ 0 (last + 1) ≫= λ i, seqZ 0 (last + 1) ≫= λ j,
      if ((i =? 0) && (j =? 0)) || ((i =? 0) && (j =? last)) || ((i =? last) && (j =? 0)) then []
      else [(ps !!! Z.to_nat i, ps !!! Z.to_nat j)]
  else [].

Definition timing_writes (size : Z) : list (Z * Z * bool) :=
  seqZ 0 size ≫= λ i, [(6, i, i mod 2 =? 0); (i, 6, i mod 2 =? 0)].

Definition pattern_writes (size version ecc : Z) : list (Z * Z * bool) :=
  timing_writes size ++ finder_writes size 3 3 ++ finder_writes size (u8 (size - 4)) 3 ++
  finder_writes size 3 (u8 (size - 4)) ++
  (align_centers version ≫= λ '(x, y), alignment_writes x y) ++
  format_writes size ecc 0 ++ version_writes size version.

Definition drawFunctionPatterns (version ecc : Z) (gs : bit_bucket * bit_bucket) : option (bit_bucket * bit_bucket) :=
  draw (pattern_writes (u8 (bb_offset gs.1)) version ecc) gs.

(** * Codewords *)

(** The right columns of the pairs, the sixth column left out; [fuel] pairs at most. *)
Fixpoint right_columns (fuel : nat) (right : Z) : list Z :=
  match fuel with
  | O => []
  | S fuel' =>
      if right <? 1 then [] else
      let right := if right =? 6 then 5 else right in
      right :: right_columns fuel' (right - 2)
  end.

(** The modules in the order of the zigzag. *)
Definition zigzag (size : Z) : list (Z * Z) :=
  right_columns (Z.to_nat size) (size - 1) ≫= λ right, seqZ 0 size ≫= λ vert, (λ j,
    let x := u8 (right - j) in
    let upwards := xorb (Z.land right 2 =? 0) (x <? 6) in
    (x, if upwards then u8 (size - 1 - vert) else vert)) <$> [0; 1].

(** From bit [i] of the codewords on. *)
Fixpoint lay_out (ps : list (Z * Z)) (isFunction : bit_bucket) (data : list Z) (bitLength i : Z)
    (modules : bit_bucket) : option bit_bucket :=
  match ps with
  | [] => Some modules
  | (x, y) :: ps' =>
      f ← bb_getBit isFunction x y;
      if negb f && (i <? bitLength) then
        b ← data !! Z.to_nat (Z.shiftr i 3);
        modules' ← bb_setBit modules x y (negb (Z.land (Z.shiftr b (7 - Z.land i 7)) 1 =? 0));
        lay_out ps' isFunction data bitLength (i + 1) modules'
      else lay_out ps' isFunction data bitLength i modules
  end.

Definition drawCodewords (modules isFunction codewords : bit_bucket) : option bit_bucket :=
  lay_out (zigzag (u8 (bb_offset modules))) isFunction (bb_data codewords) (bb_offset codewords) 0 modules.

(** * Penalty *)

Definition PENALTY_N1 : Z := 3.
Definition PENALTY_N2 : Z := 3.
Definition PENALTY_N3 : Z := 40.
Definition PENALTY_N4 : Z := 10.

(** Runs of one colour along a line that began with [color]. *)
Fixpoint run_penalty (color : bool) (run : Z) (line : list bool) : Z :=
  match line with
  | [] => 0
  | c :: line' =>
      if negb (Bool.eqb c color) then run_penalty c 1 line' else
      let run := u8 (run + 1) in
      (if run =? 5 then PENALTY_N1 else if 5 <? run then 1 else 0) + run_penalty color run line'
  end.

Definition line_penalty (line : list bool) : Z :=
  match line with [] => 0 | c :: line' => run_penalty c 1 line' end.

(** The third pass: blocks of two by two, patterns like a finder, and dark modules. *)
Record pass := mk_pass { ps_result : Z; ps_bitsRow : Z; ps_bitsCol : Z; ps_black : Z }.

Definition is_finder_like (bits : Z) : bool := (bits =? 0x05D) || (bits =? 0x5D0).

Definition pass_module (get : Z → Z → bool) (y : Z) (p : pass) (x : Z) : pass :=
  let color := get x y in
  let blocks :=
    if (0 <? x) && (0 <? y) then
      if Bool.eqb color (get (x - 1) (y - 1)) && Bool.eqb color (get x (y - 1)) && Bool.eqb color (get (x - 1) y)
      then PENALTY_N2 else 0
    else 0 in
  let bitsRow := Z.lor (Z.land (Z.shiftl (ps_bitsRow p) 1) 0x7FF) (Z.b2z color) in
  let bitsCol := Z.lor (Z.land (Z.shiftl (ps_bitsCol p) 1) 0x7FF) (Z.b2z (get y x)) in
  let finders :=
    if 10 <=? x then (if is_finder_like bitsRow then PENALTY_N3 else 0) + (if is_finder_like bitsCol then PENALTY_N3 else 0)
    else 0 in
  mk_pass (ps_result p + blocks + finders) bitsRow bitsCol (if color then ps_black p + 1 else ps_black p).

Definition pass_row (get : Z → Z → bool) (size : Z) (p : pass) (y : Z) : pass :=
  foldl (pass_module get y) (mk_pass (ps_result p) 0 0 (ps_black p)) (seqZ 0 size).

(** The steps of five per cent away from half; [fuel] turns. *)
Fixpoint balance_loop (fuel : nat) (k black total result : Z) : option Z :=
  if (black * 20 <? (9 - k) * total) || ((11 + k) * total <? black * 20) then
    match fuel with O => None | S fuel' => balance_loop fuel' (k + 1) black total (result + PENALTY_N4) end
  else Some result.

Definition penalty_of (get : Z → Z → bool) (size : Z) : option Z :=
  let rows := foldr (λ y acc, line_penalty ((λ x, get x y) <$> seqZ 0 size) + acc) 0 (seqZ 0 size) in
  let cols := foldr (λ x acc, line_penalty ((λ y, get x y) <$> seqZ 0 size) + acc) 0 (seqZ 0 size) in
  let p := foldl (pass_row get size) (mk_pass (rows + cols) 0 0 0) (seqZ 0 size) in
  r ← balance_loop 10 0 (ps_black p) (size * size) (ps_result p); Some (u32 r).

(** Every module it reads lies inside the grid. *)
Definition getPenaltyScore (modules : bit_bucket) : option Z :=
  penalty_of (λ x y, default false (bb_getBit modules x y)) (u8 (bb_offset modules)).

(** * The grid as a plane of modules *)

Definition plane := Z → Z → bool.
Definition in_grid (w x y : Z) : Prop := (0 <= x < w) ∧ (0 <= y < w).

Record shows (w : Z) (g : bit_bucket) (p : plane) : Prop := {
  sh_width : bb_offset g = w;
  sh_range : 0 <= w <= 177;
  sh_size : Z.of_nat (length (bb_data g)) = (w * w + 7) / 8;
  sh_bits : ∀ x y, in_grid w x y → bytes_bits (bb_data g) !! Z.to_nat (y * w + x) = Some (p x y);
}.

Definition upd (p : plane) (x y : Z) (on : bool) : plane :=
  λ x' y', if bool_decide (x' = x ∧ y' = y) then on else p x' y'.

Lemma shows_ext w g p q : (∀ x y, in_grid w x y → p x y = q x y) → shows w g p → shows w g q.
Proof. intros Hpq [H1 H2 H3 H4]. split; auto. intros x y Hxy. rewrite <- Hpq by done. by apply H4. Qed.

Lemma cell_inj w x y x' y' : in_grid w x y → in_grid w x' y' → y * w + x = y' * w + x' → x = x' ∧ y = y'.
Proof.
  unfold in_grid. intros Hx Hx' E. assert (y = y') as <- by nia. split; lia.
Qed.

Lemma cell_bound w x y : in_grid w x y → 0 <= y * w + x < w * w.
Proof. unfold in_grid. nia. Qed.

Lemma testbit_land b k : 0 <= k → negb (Z.land b (Z.shiftl 1 k) =? 0) = Z.testbit b k.
Proof.
  intros Hk. destruct (Z.testbit b k) eqn:Hb.
  - destruct (Z.eqb_spec (Z.land b (Z.shiftl 1 k)) 0) as [E|]; [|done].
    apply (f_equal (λ z, Z.testbit z k)) in E. rewrite Z.land_spec, Hb, testbit_bit, bool_decide_true in E by done.
    by rewrite Z.bits_0 in E.
  - replace (Z.land b (Z.shiftl 1 k)) with 0; [done|]. symmetry. apply Z.bits_inj'. intros n Hn.
    rewrite Z.land_spec, testbit_bit, Z.bits_0 by done. case_bool_decide as E; [by rewrite E, Hb|by apply andb_false_r].
Qed.

(** The byte and the bit of a module. *)
Lemma cell_place w g p x y :
  shows w g p → in_grid w x y →
  let k := Z.to_nat (y * w + x) in
  bit_offset g x y = y * w + x ∧ Z.to_nat (Z.shiftr (bit_offset g x y) 3) = (k / 8)%nat ∧
  Z.land (bit_offset g x y) 7 = Z.of_nat (k mod 8) ∧
  ∃ b, bb_data g !! (k / 8)%nat = Some b ∧ p x y = Z.testbit b (7 - Z.of_nat (k mod 8)).
Proof.
  intros [Hw Hr Hs Hb] Hxy k. pose proof (cell_bound w x y Hxy) as Hc.
  assert (y * w + x = Z.of_nat k) as Hk by (subst k; lia).
  assert (bit_offset g x y = Z.of_nat k) as Ho.
  { unfold bit_offset. rewrite Hw, Hk. apply u32_small. unfold is_u32. pow_consts. nia. }
  rewrite Ho. split_and!; [done| | |].
  - rewrite Z.shiftr_div_pow2 by done. change (2 ^ 3) with (Z.of_nat 8). by rewrite <- Nat2Z.inj_div, Nat2Z.id.
  - rewrite (Z.land_ones _ 3) by done. change (2 ^ 3) with (Z.of_nat 8). by rewrite <- Nat2Z.inj_mod.
  - specialize (Hb x y Hxy). fold k in Hb. rewrite bytes_bits_lookup in Hb.
    destruct (bb_data g !! (k / 8)%nat) as [b|]; [|done]. exists b. split; [done|]. cbn in Hb. by injection Hb.
Qed.

Lemma get_shows w g p x y : shows w g p → in_grid w x y → bb_getBit g x y = Some (p x y).
Proof.
  intros Hg Hxy. destruct (cell_place w g p x y Hg Hxy) as (_ & Hk & Hm & b & Hb & Hp). unfold bb_getBit.
  rewrite Hk, Hb, Hm, Hp. cbn [mbind option_bind]. f_equal. apply testbit_land.
  pose proof (Nat.mod_upper_bound (Z.to_nat (y * w + x)) 8). lia.
Qed.

Lemma set_shows w g p x y on :
  shows w g p → in_grid w x y → ∃ g', bb_setBit g x y on = Some g' ∧ shows w g' (upd p x y on).
Proof.
  intros Hg Hxy. destruct (cell_place w g p x y Hg Hxy) as (Ho & Hk & Hm & b & Hb & Hp). destruct Hg as [Hw Hr Hs Hbits].
  unfold bb_setBit. rewrite Hk, Hb. cbn [mbind option_bind]. eexists. split; [done|].
  set (k := Z.to_nat (y * w + x)) in *. pose proof (Nat.mod_upper_bound k 8 ltac:(lia)) as Hk8.
  assert (bit_mask (bit_offset g x y) = Z.shiftl 1 (7 - Z.of_nat (k mod 8))) as ->.
  { unfold bit_mask. rewrite Hm, Z.shiftl_1_l. apply u8_small. unfold is_u8. split; [apply Z.pow_nonneg; lia|].
    apply Z.pow_lt_mono_r; lia. }
  assert (bytes_bits (<[(k / 8)%nat := if on then Z.lor b (Z.shiftl 1 (7 - Z.of_nat (k mod 8)))
    else Z.land b (Z.lnot (Z.shiftl 1 (7 - Z.of_nat (k mod 8))))]> (bb_data g)) = <[k := on]> (bytes_bits (bb_data g))) as Hset.
  { rewrite (bytes_bits_insert _ _ b _ (k mod 8) on); [|done|done|].
    - f_equal. pose proof (Nat.div_mod_eq k 8). lia.
    - destruct on; [by apply byte_bits_lor|by apply byte_bits_clear]. }
  split; cbn [bb_offset bb_data]; [done|done|by rewrite length_insert|].
  intros x' y' Hxy'. rewrite Hset. unfold upd. case_bool_decide as E.
  - destruct E as [-> ->]. apply list_lookup_insert_eq. apply lookup_lt_is_Some_1. eexists. by apply Hbits.
  - rewrite list_lookup_insert_ne; [by apply Hbits|]. intros Ek. apply E. unfold in_grid in *.
    apply (cell_inj w); [done|done|]. subst k. pose proof (cell_bound w x y Hxy). pose proof (cell_bound w x' y' Hxy'). lia.
Qed.

Lemma invert_shows w g p x y inv :
  shows w g p → in_grid w x y → ∃ g', bb_invertBit g x y inv = Some g' ∧ shows w g' (upd p x y (xorb (p x y) inv)).
Proof.
  intros Hg Hxy. unfold bb_invertBit. rewrite (get_shows w g p x y) by done. cbn [mbind option_bind]. by apply set_shows.
Qed.

Lemma init_shows w : 0 <= w <= 177 → shows w (bb_initGrid w) (λ _ _, false).
Proof.
  intros Hw. assert (bb_getGridSizeBytes w = (w * w + 7) / 8) as Hs.
  { unfold bb_getGridSizeBytes. apply u16_small. unfold is_u16. pow_consts. split; [apply Z.div_pos; nia|].
    apply Z.div_lt_upper_bound; nia. }
  assert (0 <= (w * w + 7) / 8) by (apply Z.div_pos; nia).
  unfold bb_initGrid. rewrite Hs. split; cbn [bb_offset bb_data]; [done|done|rewrite length_replicate; lia|].
  intros x y Hxy. rewrite bytes_bits_zero. apply lookup_replicate_2. pose proof (cell_bound w x y Hxy).
  pose proof (Z.mul_succ_div_gt (w * w + 7) 8 ltac:(lia)). lia.
Qed.

(** * What a list of modules draws *)

Definition writes_in (w : Z) (ws : list (Z * Z * bool)) : Prop := Forall (λ '(x, y, _), in_grid w x y) ws.

(** The last colour drawn at a module. *)
Fixpoint drawn (ws : list (Z * Z * bool)) (x y : Z) : option bool :=
  match ws with
  | [] => None
  | (x', y', on) :: ws' =>
      match drawn ws' x y with Some b => Some b | None => if bool_decide (x = x' ∧ y = y') then Some on else None end
  end.

Definition over (ws : list (Z * Z * bool)) (p : plane) : plane := λ x y, default (p x y) (drawn ws x y).
Definition marks (ws : list (Z * Z * bool)) (f : plane) : plane := λ x y, f x y || bool_decide (is_Some (drawn ws x y)).

Lemma draw_shows w ws : ∀ m f p q,
  shows w m p → shows w f q → writes_in w ws →
  ∃ m' f', draw ws (m, f) = Some (m', f') ∧ shows w m' (over ws p) ∧ shows w f' (marks ws q).
Proof.
  induction ws as [|[[x y] on] ws IH]; intros m f p q Hm Hf Hws.
  { exists m, f. split_and!; [done|exact Hm|]. eapply shows_ext; [|exact Hf]. intros x y _. unfold marks. by rewrite orb_false_r. }
  apply Forall_cons_1 in Hws as [Hxy Hws]. cbn [draw]. unfold setFunctionModule. cbn [fst snd].
  destruct (set_shows w m p x y on Hm Hxy) as (m1 & -> & Hm1). destruct (set_shows w f q x y true Hf Hxy) as (f1 & -> & Hf1).
  cbn [mbind option_bind]. destruct (IH m1 f1 _ _ Hm1 Hf1 Hws) as (m2 & f2 & -> & Hm2 & Hf2).
  exists m2, f2. split_and!; [done| |].
  - eapply shows_ext; [|exact Hm2]. intros x' y' _. unfold over, upd. cbn [drawn].
    destruct (drawn ws x' y'); [done|]. by case_bool_decide.
  - eapply shows_ext; [|exact Hf2]. intros x' y' _. unfold marks, upd. cbn [drawn].
    destruct (drawn ws x' y') as [b|]; [by rewrite (bool_decide_true (is_Some (Some b))), !orb_true_r by eauto|].
    case_bool_decide as E; [|done]. by rewrite (bool_decide_true (is_Some (Some on))), orb_true_r by eauto.
Qed.

Lemma drawn_app ws1 ws2 x y :
  drawn (ws1 ++ ws2) x y = match drawn ws2 x y with Some b => Some b | None => drawn ws1 x y end.
Proof.
  induction ws1 as [|[[x' y'] on] ws1 IH]; cbn [app drawn]; [by destruct (drawn ws2 x y)|].
  rewrite IH. by destruct (drawn ws2 x y).
Qed.

Lemma drawn_is_Some ws x y : is_Some (drawn ws x y) ↔ (x, y) ∈ ws.*1.
Proof.
  induction ws as [|[[x' y'] on] ws IH]; cbn [drawn fmap list_fmap fst].
  { split; [by intros []|]. by intros ?%not_elem_of_nil. }
  rewrite elem_of_cons. destruct (drawn ws x y) as [b|]; [split; [|by eauto]; intros _; right; by apply IH|].
  case_bool_decide as E; [destruct E as [-> ->]; split; [by left|by eauto]|].
  split; [by intros []|]. intros [[= -> ->]|H]; [by destruct E|]. by apply IH.
Qed.

Lemma drawn_Some ws x y b : drawn ws x y = Some b → (x, y, b) ∈ ws.
Proof.
  induction ws as [|[[x' y'] on] ws IH]; cbn [drawn]; [done|]. destruct (drawn ws x y) as [b'|].
  - intros [= ->]. right. by apply IH.
  - case_bool_decide as E; [|done]. destruct E as [-> ->]. intros [= ->]. by left.
Qed.

(** * Masks on the plane *)

Definition masked (q : plane) (mask : Z) (p : plane) : plane :=
  λ x y, if q x y then p x y else xorb (p x y) (mask_inverts mask x y).

Lemma masked_twice q mask p x y : masked q mask (masked q mask p) x y = p x y.
Proof.
  unfold masked. destruct (q x y); [done|]. by destruct (p x y), (mask_inverts mask x y).
Qed.

Lemma mask_modules_shows w f q mask ps : ∀ m p,
  shows w f q → shows w m p → Forall (λ '(x, y), in_grid w x y) ps → NoDup ps →
  ∃ m', mask_modules ps f mask m = Some m' ∧
    shows w m' (λ x y, if bool_decide ((x, y) ∈ ps) then masked q mask p x y else p x y).
Proof.
  induction ps as [|[x y] ps IH]; intros m p Hf Hm Hps Hnd.
  { exists m. split; [done|]. eapply shows_ext; [|exact Hm]. intros x y _. by rewrite bool_decide_false by apply not_elem_of_nil. }
  apply Forall_cons_1 in Hps as [Hxy Hps]. apply NoDup_cons in Hnd as [Hnin Hnd]. cbn [mask_modules].
  rewrite (get_shows w f q x y Hf Hxy). cbn [mbind option_bind]. destruct (q x y) eqn:Hq.
  - destruct (IH m p Hf Hm Hps Hnd) as (m' & -> & Hm'). exists m'. split; [done|]. eapply shows_ext; [|exact Hm'].
    intros x' y' _. cbv beta. destruct (decide ((x', y') ∈ ps)) as [Hin|Hnot].
    + rewrite !bool_decide_true by (try done; by right). done.
    + rewrite (bool_decide_false ((x', y') ∈ ps)) by done. case_bool_decide as E; [|done].
      apply elem_of_cons in E as [[= -> ->]|?]; [|done]. unfold masked. by rewrite Hq.
  - destruct (invert_shows w m p x y (mask_inverts mask x y) Hm Hxy) as (m1 & -> & Hm1). cbn [mbind option_bind].
    destruct (IH m1 _ Hf Hm1 Hps Hnd) as (m' & -> & Hm'). exists m'. split; [done|]. eapply shows_ext; [|exact Hm'].
    intros x' y' _. cbv beta. unfold upd, masked. destruct (decide ((x', y') = (x, y))) as [E|Hne].
    + injection E as -> ->. rewrite (bool_decide_false ((x, y) ∈ ps)), (bool_decide_true ((x, y) ∈ _ :: _)) by (done || by left).
      rewrite bool_decide_true by done. by rewrite Hq.
    + assert (¬ (x' = x ∧ y' = y)) by (intros [-> ->]; done).
      destruct (decide ((x', y') ∈ ps)) as [Hin|Hnot].
      * rewrite (bool_decide_true ((x', y') ∈ ps)), (bool_decide_true ((x', y') ∈ _ :: _)) by (done || by right).
        by rewrite (bool_decide_false (x' = x ∧ y' = y)) by done.
      * rewrite (bool_decide_false ((x', y') ∈ ps)), (bool_decide_false ((x', y') ∈ _ :: _))
          by (first [done|by rewrite elem_of_cons; intros [?|?]]).
        by rewrite (bool_decide_false (x' = x ∧ y' = y)) by done.
Qed.

Lemma elem_all_modules w x y : (x, y) ∈ all_modules w ↔ in_grid w x y.
Proof.
  unfold all_modules, in_grid. rewrite list_elem_of_bind. split.
  - intros (y' & (x' & [= <- <-] & Hx)%list_elem_of_fmap & Hy). rewrite elem_of_seqZ in *. lia.
  - intros [Hx Hy]. exists y. rewrite list_elem_of_fmap. split; [|apply elem_of_seqZ; lia].
    exists x. split; [done|]. apply elem_of_seqZ. lia.
Qed.

Lemma NoDup_all_modules w : NoDup (all_modules w).
Proof.
  unfold all_modules. apply NoDup_bind; [| |apply NoDup_seqZ].
  - intros y y' c _ _ (x & -> & _)%list_elem_of_fmap (x' & [= _ ->] & _)%list_elem_of_fmap. done.
  - intros y _. apply NoDup_fmap_2; [|apply NoDup_seqZ]. by intros x x' [= ->].
Qed.

Lemma applyMask_shows w m p f q mask :
  shows w m p → shows w f q → ∃ m', applyMask m f mask = Some m' ∧ shows w m' (masked q mask p).
Proof.
  intros Hm Hf. unfold applyMask. rewrite (sh_width _ _ _ Hm).
  rewrite u8_small by (unfold is_u8; pose proof (sh_range _ _ _ Hm); pow_consts; lia).
  destruct (mask_modules_shows w f q mask (all_modules w) m p Hf Hm) as (m' & -> & Hm').
  - apply Forall_forall. intros [x y]. apply elem_all_modules.
  - apply NoDup_all_modules.
  - exists m'. split; [done|]. eapply shows_ext; [|exact Hm']. intros x y Hxy. cbv beta.
    by rewrite bool_decide_true by by apply elem_all_modules.
Qed.

(** * Laying out and reading the codewords *)

(** The modules of the list that are free for codewords. *)
Definition free (q : plane) (ps : list (Z * Z)) : list (Z * Z) := List.filter (λ '(x, y), negb (q x y)) ps.

Definition read_cells (p : plane) (ps : list (Z * Z)) : list bool := (λ '(x, y), p x y) <$> ps.

Lemma bytes_bits_test data i :
  0 <= i → (Z.to_nat i < 8 * length data)%nat →
  ∃ b, data !! Z.to_nat (Z.shiftr i 3) = Some b ∧
    bytes_bits data !! Z.to_nat i = Some (negb (Z.land (Z.shiftr b (7 - Z.land i 7)) 1 =? 0)).
Proof.
  intros Hi Hl. assert (i = Z.of_nat (Z.to_nat i)) as Ei by lia. set (k := Z.to_nat i) in *. rewrite Ei.
  rewrite (Z.land_ones _ 3), Z.shiftr_div_pow2 by done. change (2 ^ 3) with (Z.of_nat 8).
  rewrite <- Nat2Z.inj_div, <- Nat2Z.inj_mod, Nat2Z.id.
  destruct (lookup_lt_is_Some_2 data (k / 8)) as [b Hb]; [apply Nat.Div0.div_lt_upper_bound; lia|].
  exists b. split; [done|]. rewrite bytes_bits_lookup, Hb. cbn [mbind option_bind]. f_equal.
  rewrite land_1_testbit. by destruct (Z.testbit b _).
Qed.

Lemma lay_out_shows w f q data n ps : ∀ i m p,
  shows w f q → shows w m p → Forall (λ '(x, y), in_grid w x y) ps → NoDup ps →
  0 <= i <= n → (Z.to_nat n ≤ 8 * length data)%nat →
  ∃ m' p', lay_out ps f data n i m = Some m' ∧ shows w m' p' ∧
    (∀ x y, (x, y) ∉ ps ∨ q x y = true → p' x y = p x y) ∧
    take (Z.to_nat (n - i)) (read_cells p' (free q ps))
    = take (length (free q ps)) (drop (Z.to_nat i) (take (Z.to_nat n) (bytes_bits data))).
Proof.
  induction ps as [|[x y] ps IH]; intros i m p Hf Hm Hps Hnd Hi Hn.
  { exists m, p. split_and!; [done..|]. by destruct (Z.to_nat (n - i)). }
  apply Forall_cons_1 in Hps as [Hxy Hps]. apply NoDup_cons in Hnd as [Hnin Hnd]. cbn [lay_out free List.filter].
  fold (free q ps). rewrite (get_shows w f q x y Hf Hxy). cbn [mbind option_bind].
  destruct (q x y) eqn:Hq; cbn [negb andb].
  { destruct (IH i m p Hf Hm Hps Hnd Hi Hn) as (m' & p' & -> & Hm' & Hk & Hr). exists m', p'. split_and!; [done..| |done].
    intros x' y' [Hn'|Hq']; apply Hk; [left|by right]. intros H. apply Hn'. by right. }
  destruct (Z.ltb_spec i n) as [Hlt|Hge].
  - destruct (bytes_bits_test data i) as (b & -> & Hb); [lia..|]. cbn [mbind option_bind].
    set (on := negb _) in *. destruct (set_shows w m p x y on Hm Hxy) as (m1 & -> & Hm1). cbn [mbind option_bind].
    destruct (IH (i + 1) m1 _ Hf Hm1 Hps Hnd) as (m' & p' & -> & Hm' & Hk & Hr); [lia|done|].
    exists m', p'. split_and!; [done..| |].
    + intros x' y' Hx'. rewrite Hk.
      * unfold upd. rewrite bool_decide_false; [done|]. intros [-> ->]. destruct Hx' as [Hn'|Hq']; [apply Hn'; by left|congruence].
      * destruct Hx' as [Hn'|Hq']; [left|by right]. intros H. apply Hn'. by right.
    + assert (p' x y = on) as Hon.
      { rewrite Hk by (by left). unfold upd. by rewrite bool_decide_true. }
      assert (take (Z.to_nat n) (bytes_bits data) !! Z.to_nat i = Some on) as Hb'
        by (rewrite lookup_take_lt by lia; exact Hb).
      rewrite (drop_S _ on) by exact Hb'. replace (Z.to_nat (n - i)) with (S (Z.to_nat (n - (i + 1)))) by lia.
      cbn [read_cells fmap list_fmap take length]. rewrite Hon. f_equal.
      replace (S (Z.to_nat i)) with (Z.to_nat (i + 1)) by lia. exact Hr.
  - destruct (IH i m p Hf Hm Hps Hnd Hi Hn) as (m' & p' & -> & Hm' & Hk & Hr). exists m', p'. split_and!; [done..| |].
    + intros x' y' [Hn'|Hq']; apply Hk; [left|by right]. intros H. apply Hn'. by right.
    + replace (Z.to_nat (n - i)) with 0%nat by lia. rewrite take_0, drop_ge; [by rewrite take_nil|]. rewrite length_take. lia.
Qed.

(** * The zigzag passes every module at most once *)

Definition right_ok (c : Z) : Prop := (8 <= c ∧ c mod 2 = 0) ∨ c = 5 ∨ c = 3 ∨ c = 1.

Lemma right_columns_ok fuel right :
  (6 <= right ∧ right mod 2 = 0) ∨ right = 5 ∨ right = 3 ∨ right = 1 ∨ right = -1 →
  Forall (λ c, right_ok c ∧ c <= right) (right_columns fuel right) ∧ NoDup (right_columns fuel right).
Proof.
  revert right. induction fuel as [|fuel IH]; intros right Hr; cbn [right_columns]; [by split; constructor|].
  destruct (Z.ltb_spec right 1); [by split; constructor|].
  set (r := if right =? 6 then 5 else right).
  assert (right_ok r ∧ r <= right) as Hrr
    by (subst r; unfold right_ok; destruct (Z.eqb_spec right 6); Z.to_euclidean_division_equations; lia).
  destruct (IH (r - 2)) as [Hall Hnd]; [destruct Hrr as [Hok _]; unfold right_ok in Hok; Z.to_euclidean_division_equations; lia|].
  split; constructor; [done| | |done].
  - eapply Forall_impl; [exact Hall|]. cbv beta. intros c [Hc Hle]. split; [done|lia].
  - intros Hin. rewrite Forall_forall in Hall. apply Hall in Hin. lia.
Qed.

Definition size_ok (w : Z) : Prop := 21 <= w <= 177 ∧ w mod 2 = 1.

Lemma zigzag_columns w : size_ok w →
  Forall (λ c, right_ok c ∧ c <= w - 1) (right_columns (Z.to_nat w) (w - 1)) ∧ NoDup (right_columns (Z.to_nat w) (w - 1)).
Proof. intros [Hw Hm]. apply right_columns_ok. left. Z.to_euclidean_division_equations; lia. Qed.

(** The module for a column pair, a turn of the vertical counter and a side. *)
Definition zigzag_module (w right vert j : Z) : Z * Z :=
  let x := u8 (right - j) in
  (x, if xorb (Z.land right 2 =? 0) (x <? 6) then u8 (w - 1 - vert) else vert).

Lemma elem_zigzag w x y : (x, y) ∈ zigzag w ↔ ∃ right vert j,
  right ∈ right_columns (Z.to_nat w) (w - 1) ∧ vert ∈ seqZ 0 w ∧ j ∈ [0; 1] ∧ (x, y) = zigzag_module w right vert j.
Proof.
  unfold zigzag. rewrite list_elem_of_bind. setoid_rewrite list_elem_of_bind. setoid_rewrite list_elem_of_fmap. unfold zigzag_module. split.
  - intros (r & (v & (j & E & Hj) & Hv) & Hr). by exists r, v, j.
  - intros (r & v & j & Hr & Hv & Hj & E). by exists r; split; [exists v; split; [exists j|]|].
Qed.

Lemma elem_01 j : j ∈ [0; 1] → 0 <= j <= 1.
Proof. rewrite !elem_of_cons. intros [->|[->|H]]; [lia|lia|]. by apply not_elem_of_nil in H. Qed.

Lemma zigzag_module_in w right vert j :
  size_ok w → right_ok right → right <= w - 1 → 0 <= vert < w → 0 <= j <= 1 →
  ∃ y, zigzag_module w right vert j = (right - j, y) ∧
    y = (if xorb (Z.land right 2 =? 0) (right - j <? 6) then w - 1 - vert else vert) ∧ in_grid w (right - j) y.
Proof.
  intros [Hw Hm] Hr Hle Hv Hj. unfold zigzag_module, in_grid. unfold right_ok in Hr.
  assert (0 <= right - j) by lia.
  rewrite (u8_small (right - j)) by (unfold is_u8; pow_consts; lia).
  rewrite (u8_small (w - 1 - vert)) by (unfold is_u8; pow_consts; lia).
  eexists. split; [done|]. split; [done|]. case_if; lia.
Qed.

Lemma zigzag_in_grid w : size_ok w → Forall (λ '(x, y), in_grid w x y) (zigzag w).
Proof.
  intros Hw. apply Forall_forall. intros [x y] (r & v & j & Hr & Hv & Hj & E)%elem_zigzag.
  destruct (zigzag_columns w Hw) as [Hc _]. rewrite Forall_forall in Hc. apply Hc in Hr as [Hr Hle].
  apply elem_of_seqZ in Hv. apply elem_01 in Hj.
  destruct (zigzag_module_in w r v j Hw Hr Hle) as (y' & E' & _ & Hin); [lia|lia|]. rewrite E' in E. by injection E as -> ->.
Qed.

(** The module determines the pair of columns, the turn and the side. *)
Lemma zigzag_module_inj w r r' v v' j j' :
  size_ok w → right_ok r → right_ok r' → r <= w - 1 → r' <= w - 1 → 0 <= v < w → 0 <= v' < w → 0 <= j <= 1 → 0 <= j' <= 1 →
  zigzag_module w r v j = zigzag_module w r' v' j' → r = r' ∧ v = v' ∧ j = j'.
Proof.
  intros Hw Hr Hr' Hl Hl' Hv Hv' Hj Hj' E.
  destruct (zigzag_module_in w r v j Hw Hr Hl Hv Hj) as (y & E1 & Hy & _).
  destruct (zigzag_module_in w r' v' j' Hw Hr' Hl' Hv' Hj') as (y' & E2 & Hy' & _).
  rewrite E1, E2 in E. injection E as Ex Ey.
  assert (r = r' ∧ j = j') as [-> ->] by (unfold right_ok in *; Z.to_euclidean_division_equations; lia).
  split_and!; [done| |done]. rewrite Hy, Hy' in Ey. destruct (xorb _ _); lia.
Qed.

Lemma NoDup_zigzag w : size_ok w → NoDup (zigzag w).
Proof.
  intros Hw. destruct (zigzag_columns w Hw) as [Hc Hnd]. rewrite Forall_forall in Hc.
  unfold zigzag. fold (zigzag_module w). apply NoDup_bind; [| |done].
  - intros r r' c Hr Hr' (v & (j & -> & Hj)%list_elem_of_fmap & Hv)%list_elem_of_bind
      (v' & (j' & E & Hj')%list_elem_of_fmap & Hv')%list_elem_of_bind.
    apply Hc in Hr as [Hr Hle], Hr' as [Hr' Hle']. rewrite elem_of_seqZ in *. apply elem_01 in Hj, Hj'.
    apply (zigzag_module_inj w r r' v v' j j') in E as (-> & _); done || lia.
  - intros r Hr. apply Hc in Hr as [Hr Hle]. apply NoDup_bind; [| |apply NoDup_seqZ].
    + intros v v' c Hv Hv' (j & -> & Hj)%list_elem_of_fmap (j' & E & Hj')%list_elem_of_fmap.
      rewrite elem_of_seqZ in *. apply elem_01 in Hj, Hj'.
      apply (zigzag_module_inj w r r v v' j j') in E as (_ & -> & _); done || lia.
    + intros v Hv. apply NoDup_fmap_2_strong; [|by apply (bool_decide_unpack _)].
      intros j j' Hj Hj' E. rewrite elem_of_seqZ in *. apply elem_01 in Hj, Hj'.
      apply (zigzag_module_inj w r r v v j j') in E as (_ & _ & ->); done || lia.
Qed.

Lemma drawCodewords_shows w m f cw p q :
  size_ok w → shows w m p → shows w f q → 0 <= bb_offset cw → (Z.to_nat (bb_offset cw) ≤ 8 * length (bb_data cw))%nat →
  (Z.to_nat (bb_offset cw) ≤ length (free q (zigzag w)))%nat →
  ∃ m' p', drawCodewords m f cw = Some m' ∧ shows w m' p' ∧ (∀ x y, q x y = true → p' x y = p x y) ∧
    take (Z.to_nat (bb_offset cw)) (read_cells p' (free q (zigzag w)))
    = take (Z.to_nat (bb_offset cw)) (bytes_bits (bb_data cw)).
Proof.
  intros Hw Hm Hf Ho Hroom Hfree. unfold drawCodewords. rewrite (sh_width _ _ _ Hm).
  rewrite u8_small by (unfold is_u8; pose proof (sh_range _ _ _ Hm); pow_consts; lia).
  destruct (lay_out_shows w f q (bb_data cw) (bb_offset cw) (zigzag w) 0 m p Hf Hm) as (m' & p' & -> & Hm' & Hk & Hr);
    [by apply zigzag_in_grid|by apply NoDup_zigzag|lia|done|].
  exists m', p'. split_and!; [done|done|intros x y Hq; apply Hk; by right|].
  rewrite Z.sub_0_r in Hr. rewrite Hr, drop_0, take_take. f_equal. lia.
Qed.

(** * The modules with a fixed place *)

(** Which modules some pattern takes: the timing lines, the finders with their
    borders, the alignment patterns, level and mask, and the version. *)
Definition near (r x y cx cy : Z) : bool := (Z.abs (x - cx) <=? r) && (Z.abs (y - cy) <=? r).

Definition format_area (w x y : Z) : bool :=
  ((x =? 8) && ((y <=? 5) || (y =? 7) || (y =? 8) || (w - 8 <=? y))) ||
  ((y =? 8) && ((x <=? 5) || (x =? 7) || (w - 8 <=? x))).

Definition version_area (w x y : Z) : bool :=
  ((w - 11 <=? x) && (x <=? w - 9) && (y <=? 5)) || ((w - 11 <=? y) && (y <=? w - 9) && (x <=? 5)).

Definition is_function (version : Z) : plane :=
  let w := 4 * version + 17 in
  let centers := align_centers version in
  λ x y,
  (x =? 6) || (y =? 6) || near 4 x y 3 3 || near 4 x y (w - 4) 3 || near 4 x y 3 (w - 4) ||
  existsb (λ '(cx, cy), near 2 x y cx cy) centers || format_area w x y ||
  ((7 <=? version) && version_area w x y).

(** [ws] draws the modules of the grid for which [area] holds, and no others. *)
Definition covers (w : Z) (ws : list (Z * Z * bool)) (area : Z → Z → bool) : Prop :=
  ∀ x y, (∃ on, (x, y, on) ∈ ws) ↔ in_grid w x y ∧ area x y = true.

Lemma covers_app w ws1 ws2 a1 a2 : covers w ws1 a1 → covers w ws2 a2 → covers w (ws1 ++ ws2) (λ x y, a1 x y || a2 x y).
Proof.
  intros H1 H2 x y. rewrite orb_true_iff. specialize (H1 x y). specialize (H2 x y).
  setoid_rewrite elem_of_app. split.
  - intros [on [H|H]]; [apply proj1 in H1; destruct H1; eauto|apply proj1 in H2; destruct H2; eauto].
  - intros [Hxy [H|H]]; [destruct (proj2 H1 (conj Hxy H)) as [on ?]|destruct (proj2 H2 (conj Hxy H)) as [on ?]]; eauto.
Qed.

Lemma covers_ext w ws a1 a2 : (∀ x y, in_grid w x y → a1 x y = a2 x y) → covers w ws a1 → covers w ws a2.
Proof.
  intros He H x y. rewrite (H x y). split; intros [Hxy Ha]; (split; [done|]); [by rewrite <- He|by rewrite He].
Qed.

Lemma covers_in w ws a : covers w ws a → writes_in w ws.
Proof. intros H. apply Forall_forall. intros [[x y] on] Hin. apply (H x y). eauto. Qed.

Lemma covers_drawn w ws a x y : covers w ws a → in_grid w x y → bool_decide (is_Some (drawn ws x y)) = a x y.
Proof.
  intros H Hxy. specialize (H x y). assert (is_Some (drawn ws x y) ↔ a x y = true) as Hd.
  { rewrite drawn_is_Some, list_elem_of_fmap. split.
    - intros ([[x' y'] on] & [= <- <-] & Hin). apply H. eauto.
    - intros Ha. destruct (proj2 H (conj Hxy Ha)) as [on Hin]. by exists (x, y, on). }
  destruct (a x y); [by apply bool_decide_true, Hd|]. apply bool_decide_false. rewrite Hd. done.
Qed.

Lemma timing_covers w : 21 <= w <= 177 → covers w (timing_writes w) (λ x y, (x =? 6) || (y =? 6)).
Proof.
  intros Hw x y. unfold timing_writes, in_grid. rewrite orb_true_iff, !Z.eqb_eq. setoid_rewrite list_elem_of_bind. split.
  - intros (on & i & Hin & Hi). rewrite elem_of_seqZ in Hi. rewrite !elem_of_cons in Hin.
    destruct Hin as [[= -> -> _]|[[= -> -> _]|H]]; [lia|lia|by apply not_elem_of_nil in H].
  - intros [[Hx Hy] [-> | ->]]; eexists; [exists y|exists x]; rewrite elem_of_seqZ, !elem_of_cons; split; eauto; lia.
Qed.

Lemma near_spec r x y cx cy : near r x y cx cy = true ↔ - r <= x - cx <= r ∧ - r <= y - cy <= r.
Proof. unfold near. rewrite andb_true_iff, !Z.leb_le. lia. Qed.

Lemma finder_covers w cx cy : 21 <= w <= 177 → covers w (finder_writes w cx cy) (λ x y, near 4 x y cx cy).
Proof.
  intros Hw x y. unfold finder_writes, in_grid. rewrite near_spec. setoid_rewrite list_elem_of_bind. setoid_rewrite list_elem_of_bind. split.
  - intros (on & i & (j & Hin & Hj) & Hi). rewrite elem_of_seqZ in *.
    destruct (_ && _) eqn:Hc in Hin; [|by apply not_elem_of_nil in Hin]. bool_hyps.
    apply list_elem_of_singleton in Hin. injection Hin as -> -> _.
    rewrite !u8_small by (unfold is_u8; pow_consts; lia). lia.
  - intros [[Hx Hy] [Hcx Hcy]]. eexists. exists (y - cy). rewrite elem_of_seqZ. split; [|lia].
    exists (x - cx). rewrite elem_of_seqZ. split; [|lia].
    replace (cx + (x - cx)) with x by lia. replace (cy + (y - cy)) with y by lia.
    rewrite !u8_small by (unfold is_u8; pow_consts; lia).
    rewrite !(proj2 (Z.leb_le 0 _)), !(proj2 (Z.ltb_lt _ _)) by lia. by apply list_elem_of_singleton.
Qed.

(** Where the alignment patterns may lie: clear of the border. *)
Definition centers_ok (version : Z) : Prop :=
  Forall (λ '(cx, cy), 6 <= cx <= 4 * version + 10 ∧ 6 <= cy <= 4 * version + 10) (align_centers version).

Lemma centers_fit version : version_ok version → centers_ok version.
Proof.
  intros Hv. assert (Forall (λ v, centers_ok v) (seqZ 1 40)) as Hall.
  { unfold centers_ok. apply (bool_decide_unpack _). vm_compute. exact I. }
  rewrite Forall_forall in Hall. apply Hall, elem_of_seqZ. unfold version_ok in Hv. lia.
Qed.

Lemma alignment_covers version : version_ok version →
  covers (4 * version + 17) (align_centers version ≫= λ '(x, y), alignment_writes x y)
    (λ x y, existsb (λ '(cx, cy), near 2 x y cx cy) (align_centers version)).
Proof.
  intros Hv x y. pose proof (centers_fit version Hv) as Hc. unfold centers_ok in Hc. rewrite Forall_forall in Hc.
  unfold version_ok in Hv. unfold in_grid. rewrite existsb_exists. setoid_rewrite list_elem_of_bind. split.
  - intros (on & [cx cy] & Hin & Hcin). pose proof (Hc _ Hcin) as Hb. cbv beta iota in Hb.
    unfold alignment_writes in Hin. apply list_elem_of_bind in Hin as (i & (j & E & Hj)%list_elem_of_fmap & Hi).
    rewrite elem_of_seqZ in *. injection E as -> -> _. rewrite !u8_small by (unfold is_u8; pow_consts; lia).
    split; [lia|]. exists (cx, cy). split; [by apply list_elem_of_In|]. apply near_spec. lia.
  - intros [Hxy ([cx cy] & Hcin%list_elem_of_In & Hn)]. pose proof (Hc _ Hcin) as Hb. cbv beta iota in Hb.
    apply near_spec in Hn. eexists. exists (cx, cy). split; [|done]. unfold alignment_writes. apply list_elem_of_bind.
    exists (y - cy). rewrite elem_of_seqZ. split; [|lia]. apply list_elem_of_fmap. exists (x - cx). rewrite elem_of_seqZ. split; [|lia].
    replace (cx + (x - cx)) with x by lia. replace (cy + (y - cy)) with y by lia.
    by rewrite !u8_small by (unfold is_u8; pow_consts; lia).
Qed.

Lemma covers_line w (h1 h2 : Z → Z) (bit : Z → bool) m n area :
  (∀ i, m <= i < m + n → in_grid w (h1 i) (h2 i) ∧ area (h1 i) (h2 i) = true) →
  (∀ x y, in_grid w x y → area x y = true → ∃ i, m <= i < m + n ∧ x = h1 i ∧ y = h2 i) →
  covers w ((λ i, (h1 i, h2 i, bit i)) <$> seqZ m n) area.
Proof.
  intros H1 H2 x y. setoid_rewrite list_elem_of_fmap. setoid_rewrite elem_of_seqZ. split.
  - intros (on & i & [= -> -> _] & Hi). by apply H1.
  - intros [Hxy Ha]. destruct (H2 x y Hxy Ha) as (i & Hi & -> & ->). eauto.
Qed.

Lemma covers_one w x0 y0 b : in_grid w x0 y0 → covers w [(x0, y0, b)] (λ x y, (x =? x0) && (y =? y0)).
Proof.
  intros H0 x y. setoid_rewrite list_elem_of_singleton. rewrite andb_true_iff, !Z.eqb_eq. split.
  - by intros [on [= -> -> _]].
  - intros [_ [-> ->]]. eauto.
Qed.

(** Two areas given by comparisons are equal when [lia] finds them so. *)
Ltac area_eq :=
  apply eq_true_iff_eq;
  rewrite ?orb_true_iff, ?andb_true_iff, ?orb_true_iff, ?andb_true_iff, ?Z.eqb_eq, ?Z.leb_le; lia.

Lemma format_covers w ecc mask : 21 <= w <= 177 → covers w (format_writes w ecc mask) (format_area w).
Proof.
  intros Hw. unfold format_writes. unfold in_grid in *.
  eapply covers_ext; [|apply covers_app; [|apply covers_app; [|apply covers_app; [|apply covers_app; [|apply covers_app]]]]].
  2: apply (covers_line w (λ _, 8) (λ i, i) _ 0 6 (λ x y, (x =? 8) && (y <=? 5))).
  4: apply (covers_app w [_] [_; _]); [apply covers_one|apply (covers_app w [_] [_]); apply covers_one].
  7: apply (covers_line w (λ i, 14 - i) (λ _, 8) _ 9 6 (λ x y, (x <=? 5) && (y =? 8))).
  9: apply (covers_line w (λ i, u8 (w - 1 - i)) (λ _, 8) _ 0 8 (λ x y, (w - 8 <=? x) && (y =? 8))).
  11: apply (covers_line w (λ _, 8) (λ i, u8 (w - 15 + i)) _ 8 7 (λ x y, (x =? 8) && (w - 7 <=? y))).
  13: apply covers_one.
  all: unfold in_grid.
  all: try (rewrite u8_small by (unfold is_u8; pow_consts; lia); lia).
  all: try lia.
  1: intros x y Hxy; unfold format_area; rewrite (u8_small (w - 8)) by (unfold is_u8; pow_consts; lia); area_eq.
  all: try (intros i Hi; rewrite ?u8_small by (unfold is_u8; pow_consts; lia); rewrite andb_true_iff, Z.leb_le, Z.eqb_eq || rewrite andb_true_iff, Z.leb_le, Z.eqb_eq; lia).
  all: intros x y Hxy Ha; bool_hyps.
  1: exists y.
  2: exists (14 - x).
  3: exists (w - 1 - x).
  4: exists (y + 15 - w).
  all: rewrite ?u8_small by (unfold is_u8; pow_consts; lia); lia.
Qed.

Lemma version_covers version : version_ok version →
  covers (4 * version + 17) (version_writes (4 * version + 17) version)
    (λ x y, (7 <=? version) && version_area (4 * version + 17) x y).
Proof.
  intros Hv x y. unfold version_ok in Hv. unfold version_writes, in_grid.
  assert (∀ i, 0 <= i < 18 → u8 (i8 (4 * version + 17) - 11 + i mod 3) = 4 * version + 6 + i mod 3) as Ha.
  { intros i Hi. unfold u8, i8, swrap. change (2 ^ (8 - 1)) with 128. zlia. }
  destruct (Z.ltb_spec version 7) as [Hlt|Hge].
  { rewrite (proj2 (Z.leb_gt 7 version)) by lia. split; [by intros [on ?%not_elem_of_nil]|by intros [_ ?]]. }
  rewrite (proj2 (Z.leb_le 7 version)) by lia. cbn [andb]. unfold version_area.
  setoid_rewrite list_elem_of_bind. cbv zeta. setoid_rewrite elem_of_seqZ. setoid_rewrite elem_of_cons.
  setoid_rewrite list_elem_of_singleton. rewrite orb_true_iff, !andb_true_iff, !Z.leb_le. split.
  - intros (on & i & [E|E] & Hi); injection E as -> -> _; rewrite Ha by lia; Z.to_euclidean_division_equations; lia.
  - intros [Hxy [Hin|Hin]]; eexists; [exists (3 * y + (x - 4 * version - 6))|exists (3 * x + (y - 4 * version - 6))];
      rewrite Ha by lia; (split; [|lia]); [left|right]; f_equal; f_equal; Z.to_euclidean_division_equations; lia.
Qed.

Lemma pattern_covers version ecc : version_ok version →
  covers (4 * version + 17) (pattern_writes (4 * version + 17) version ecc) (is_function version).
Proof.
  intros Hv. set (w := 4 * version + 17). assert (21 <= w <= 177) as Hw by (unfold version_ok in Hv; lia).
  unfold pattern_writes. rewrite !(u8_small (w - 4)) by (unfold is_u8; pow_consts; lia).
  eapply covers_ext; [|apply covers_app; [by apply timing_covers|]; do 3 (apply covers_app; [by apply finder_covers|]);
    apply covers_app; [by apply alignment_covers|]; apply covers_app; [by apply format_covers|by apply version_covers]].
  intros x y _. cbv beta. unfold is_function. fold w. by rewrite !orb_assoc.
Qed.

Lemma drawFunctionPatterns_shows version ecc m f :
  version_ok version → shows (4 * version + 17) m (λ _ _, false) → shows (4 * version + 17) f (λ _ _, false) →
  ∃ m' f' p, drawFunctionPatterns version ecc (m, f) = Some (m', f') ∧
    shows (4 * version + 17) m' p ∧ shows (4 * version + 17) f' (is_function version).
Proof.
  intros Hv Hm Hf. set (w := 4 * version + 17) in *. unfold drawFunctionPatterns. cbn [fst].
  rewrite (sh_width _ _ _ Hm), u8_small by (unfold is_u8, version_ok in *; subst w; pow_consts; lia).
  pose proof (pattern_covers version ecc Hv) as Hc. fold w in Hc.
  destruct (draw_shows w (pattern_writes w version ecc) m f _ _ Hm Hf (covers_in _ _ _ Hc)) as (m' & f' & -> & Hm' & Hf').
  eexists m', f', _. split_and!; [done|exact Hm'|]. eapply shows_ext; [|exact Hf']. intros x y Hxy. unfold marks. cbn [orb].
  by apply (covers_drawn w).
Qed.

(** Drawing level and mask again leaves the places of the patterns alone. *)
Lemma format_is_function version x y : version_ok version → format_area (4 * version + 17) x y = true → is_function version x y = true.
Proof. intros _ H. unfold is_function. rewrite H. by rewrite orb_true_r. Qed.

Lemma drawFormatBits_shows version ecc mask m f p :
  version_ok version → shows (4 * version + 17) m p → shows (4 * version + 17) f (is_function version) →
  ∃ m' f', drawFormatBits ecc mask (m, f) = Some (m', f') ∧
    shows (4 * version + 17) m' (over (format_writes (4 * version + 17) ecc mask) p) ∧
    shows (4 * version + 17) f' (is_function version).
Proof.
  intros Hv Hm Hf. set (w := 4 * version + 17) in *. assert (21 <= w <= 177) as Hw by (unfold version_ok in Hv; lia).
  unfold drawFormatBits. cbn [fst]. rewrite (sh_width _ _ _ Hm), u8_small by (unfold is_u8; pow_consts; lia).
  pose proof (format_covers w ecc mask Hw) as Hc.
  destruct (draw_shows w (format_writes w ecc mask) m f _ _ Hm Hf (covers_in _ _ _ Hc)) as (m' & f' & -> & Hm' & Hf').
  exists m', f'. split_and!; [done|done|]. eapply shows_ext; [|exact Hf']. intros x y Hxy. unfold marks.
  rewrite (covers_drawn w _ _ x y Hc Hxy). destruct (format_area w x y) eqn:Ha; [|by rewrite orb_false_r].
  by rewrite orb_true_r, (format_is_function version) by done.
Qed.

(** Drawing them for one mask wipes out what was drawn for another. *)
Lemma over_format version ecc mask mask' p x y :
  version_ok version → in_grid (4 * version + 17) x y →
  over (format_writes (4 * version + 17) ecc mask) (over (format_writes (4 * version + 17) ecc mask') p) x y
  = over (format_writes (4 * version + 17) ecc mask) p x y.
Proof.
  intros Hv Hxy. assert (21 <= 4 * version + 17 <= 177) as Hw by (unfold version_ok in Hv; lia). unfold over.
  pose proof (covers_drawn _ _ _ x y (format_covers _ ecc mask Hw) Hxy) as H1.
  pose proof (covers_drawn _ _ _ x y (format_covers _ ecc mask' Hw) Hxy) as H2. rewrite <- H2 in H1.
  destruct (drawn (format_writes _ ecc mask) x y); [done|]. cbn [default].
  destruct (drawn (format_writes _ ecc mask') x y); [|done]. by rewrite bool_decide_false, bool_decide_true in H1 by eauto.
Qed.

(** ** Level and mask read back *)

(** The first copy, from its lowest bit. *)
Definition format_cells : list (Z * Z) :=
  ((λ i, (8, i)) <$> seqZ 0 6) ++ [(8, 7); (8, 8); (7, 8)] ++ ((λ i, (14 - i, 8)) <$> seqZ 9 6).

(** Level and mask of a symbol: its first copy without the fixed pattern and the check. *)
Definition read_format (p : plane) : Z * Z :=
  let word := bits_val (rev (read_cells p format_cells)) in
  let data := Z.shiftr (Z.lxor word 0x5412) 10 in
  (Z.shiftr data 3, Z.land data 7).

(** Which bit a module of the first copy shows. *)
Definition format_index (x y : Z) : Z :=
  if x =? 8 then (if y <=? 5 then y else if y =? 7 then 6 else 7) else if x =? 7 then 8 else 14 - x.

Lemma format_cell w ecc mask x y b :
  21 <= w <= 177 → 0 <= x <= 8 → 0 <= y <= 8 → (x, y, b) ∈ format_writes w ecc mask →
  b = Z.testbit (format_bits ecc mask) (format_index x y).
Proof.
  intros Hw Hx Hy Hin. unfold format_writes in Hin. rewrite !elem_of_app in Hin.
  assert (∀ z, 0 <= z < 256 → u8 z = z) as Hu by (intros z Hz; apply u8_small; unfold is_u8; pow_consts; lia).
  destruct Hin as [(i & [= -> -> ->] & Hi)%list_elem_of_fmap|[Hin|[(i & [= -> -> ->] & Hi)%list_elem_of_fmap|
    [(i & [= -> -> ->] & Hi)%list_elem_of_fmap|[(i & [= -> -> ->] & Hi)%list_elem_of_fmap|Hin]]]]];
    rewrite ?elem_of_seqZ in *; unfold format_index.
  - rewrite (proj2 (Z.leb_le i 5)) by lia. done.
  - rewrite !elem_of_cons in Hin. destruct Hin as [E|[E|[E|Hn]]]; [by injection E as -> -> ->..|by apply not_elem_of_nil in Hn].
  - destruct (Z.eqb_spec (14 - i) 8), (Z.eqb_spec (14 - i) 7); try lia. f_equal. lia.
  - rewrite Hu in Hx by lia. lia.
  - rewrite Hu in Hy by lia. lia.
  - apply list_elem_of_singleton in Hin. injection Hin as -> -> ->. rewrite Hu in Hy by lia. lia.
Qed.

Lemma format_word_read ecc mask : level ecc → 0 <= mask < 8 →
  let data := Z.shiftr (Z.lxor (format_bits ecc mask mod 2 ^ 15) 0x5412) 10 in
  (Z.shiftr data 3, Z.land data 7) = (ecc, mask).
Proof.
  intros He Hm. assert (Forall (λ e, Forall (λ m, let data := Z.shiftr (Z.lxor (format_bits e m mod 2 ^ 15) 0x5412) 10 in
    (Z.shiftr data 3, Z.land data 7) = (e, m)) (seqZ 0 8)) (seqZ 0 4)) as Hall by (apply (bool_decide_unpack _); vm_compute; exact I).
  rewrite Forall_forall in Hall. specialize (Hall ecc). rewrite Forall_forall in Hall. unfold level in He.
  apply Hall; apply elem_of_seqZ; lia.
Qed.

Lemma format_read version ecc mask p q :
  version_ok version → level ecc → 0 <= mask < 8 →
  (∀ x y, in_grid (4 * version + 17) x y → is_function version x y = true →
    q x y = over (format_writes (4 * version + 17) ecc mask) p x y) →
  read_format q = (ecc, mask).
Proof.
  intros Hv He Hm Hq. assert (21 <= 4 * version + 17 <= 177) as Hw by (unfold version_ok in Hv; lia).
  assert (∀ x y, 0 <= x <= 8 → 0 <= y <= 8 → format_area (4 * version + 17) x y = true →
    q x y = Z.testbit (format_bits ecc mask) (format_index x y)) as Hcell.
  { intros x y Hx Hy Ha. assert (in_grid (4 * version + 17) x y) as Hxy by (unfold in_grid; lia).
    rewrite Hq by (try done; by apply format_is_function). unfold over.
    pose proof (covers_drawn _ _ _ x y (format_covers _ ecc mask Hw) Hxy) as Hd. rewrite Ha in Hd. apply bool_decide_eq_true in Hd.
    destruct Hd as [b Hb]. rewrite Hb. cbn [default]. apply drawn_Some in Hb. by eapply format_cell. }
  unfold read_format.
  assert (rev (read_cells q format_cells) = nbits 15 (format_bits ecc mask)) as ->.
  { change format_cells with [(8, 0); (8, 1); (8, 2); (8, 3); (8, 4); (8, 5); (8, 7); (8, 8); (7, 8); (5, 8); (4, 8); (3, 8);
      (2, 8); (1, 8); (0, 8)].
    cbn [read_cells fmap list_fmap rev app nbits].
    repeat (apply (f_equal2 cons); [rewrite Hcell; [done|lia|lia|done]|]). done. }
  rewrite bits_val_nbits. by apply format_word_read.
Qed.

(** * The penalty is always found *)

Lemma pass_black get y p xs :
  ps_black p <= ps_black (foldl (pass_module get y) p xs) <= ps_black p + Z.of_nat (length xs).
Proof.
  revert p. induction xs as [|x xs IH]; intros p; cbn [foldl length]; [lia|].
  specialize (IH (pass_module get y p x)).
  assert (ps_black p <= ps_black (pass_module get y p x) <= ps_black p + 1)
    by (unfold pass_module; cbn [ps_black]; destruct (get x y); lia). lia.
Qed.

Lemma rows_black get size p ys : 0 <= size →
  ps_black p <= ps_black (foldl (pass_row get size) p ys) <= ps_black p + Z.of_nat (length ys) * size.
Proof.
  intros Hs. revert p. induction ys as [|y ys IH]; intros p; cbn [foldl length]; [lia|].
  specialize (IH (pass_row get size p y)).
  pose proof (pass_black get y (mk_pass (ps_result p) 0 0 (ps_black p)) (seqZ 0 size)) as Hp. cbn [ps_black] in Hp.
  rewrite length_seqZ in Hp. fold (pass_row get size p y) in Hp. lia.
Qed.

Lemma balance_ends fuel k black total result :
  0 <= black <= total → 0 <= k <= 9 → 9 - k <= Z.of_nat fuel → is_Some (balance_loop fuel k black total result).
Proof.
  intros Hb. revert k result. induction fuel as [|fuel IH]; intros k result Hk Hf; cbn [balance_loop];
    destruct (_ || _) eqn:Hc; try by eauto; apply orb_true_iff in Hc; rewrite !Z.ltb_lt in Hc.
  - assert (k = 9) as -> by lia. lia.
  - apply IH; [|lia]. destruct (decide (k = 9)) as [-> | ]; lia.
Qed.

(** Ten turns of the last loop are enough: at the latest then half of the modules, give
    or take all of them, is dark. *)
Lemma penalty_total get size : 0 <= size → is_Some (penalty_of get size).
Proof.
  intros Hs. unfold penalty_of. set (p := foldl _ _ _).
  assert (0 <= ps_black p <= size * size) as Hb.
  { subst p. set (p0 := mk_pass _ 0 0 0). pose proof (rows_black get size p0 (seqZ 0 size) Hs) as Hr.
    rewrite length_seqZ in Hr. subst p0. cbn [ps_black] in *. rewrite Z2Nat.id in Hr by lia. lia. }
  destruct (balance_ends 10 0 (ps_black p) (size * size) (ps_result p) Hb) as [r Hr]; [lia|lia|]. rewrite Hr. by eexists.
Qed.

(** It is the penalty of the plane. *)
Lemma line_ext {A} (f g : Z → A) n : (∀ i, 0 <= i < n → f i = g i) → f <$> seqZ 0 n = g <$> seqZ 0 n.
Proof. intros H. apply list_fmap_ext. intros i x Hx%list_elem_of_lookup_2. apply H. by apply elem_of_seqZ in Hx; lia. Qed.

Lemma foldl_ext_in {A B} (f g : A → B → A) l a : (∀ a b, b ∈ l → f a b = g a b) → foldl f a l = foldl g a l.
Proof.
  revert a. induction l as [|b l IH]; intros a H; [done|]. cbn [foldl]. rewrite H by (by left). apply IH. intros. apply H. by right.
Qed.

Lemma foldr_ext_in {A B} (f g : B → A → A) l a : (∀ a b, b ∈ l → f b a = g b a) → foldr f a l = foldr g a l.
Proof.
  intros H. induction l as [|b l IH]; [done|]. cbn [foldr]. rewrite H by (by left). f_equal. apply IH. intros. apply H. by right.
Qed.

Lemma penalty_ext get get' size :
  (∀ x y, in_grid size x y → get x y = get' x y) → penalty_of get size = penalty_of get' size.
Proof.
  unfold in_grid. intros H. unfold penalty_of.
  assert (∀ acc, foldr (λ y acc, line_penalty ((λ x, get x y) <$> seqZ 0 size) + acc) acc (seqZ 0 size)
    = foldr (λ y acc, line_penalty ((λ x, get' x y) <$> seqZ 0 size) + acc) acc (seqZ 0 size)) as ->.
  { intros acc. apply foldr_ext_in. intros a y Hy%elem_of_seqZ. do 2 f_equal. apply line_ext. intros x Hx. apply H. lia. }
  assert (∀ acc, foldr (λ x acc, line_penalty ((λ y, get x y) <$> seqZ 0 size) + acc) acc (seqZ 0 size)
    = foldr (λ x acc, line_penalty ((λ y, get' x y) <$> seqZ 0 size) + acc) acc (seqZ 0 size)) as ->.
  { intros acc. apply foldr_ext_in. intros a x Hx%elem_of_seqZ. do 2 f_equal. apply line_ext. intros y Hy. apply H. lia. }
  assert (∀ p, foldl (pass_row get size) p (seqZ 0 size) = foldl (pass_row get' size) p (seqZ 0 size)) as ->; [|done].
  intros p. apply foldl_ext_in. intros a y Hy%elem_of_seqZ. unfold pass_row. apply foldl_ext_in.
  intros b x Hx%elem_of_seqZ. unfold pass_module. rewrite (H x y), (H y x) by lia.
  destruct (Z.ltb_spec 0 x), (Z.ltb_spec 0 y); cbn [andb]; try done.
  by rewrite (H (x - 1) (y - 1)), (H x (y - 1)), (H (x - 1) y) by lia.
Qed.

Lemma getPenaltyScore_shows w m p : shows w m p → getPenaltyScore m = penalty_of p w ∧ is_Some (penalty_of p w).
Proof.
  intros Hm. pose proof (sh_range _ _ _ Hm). split; [|apply penalty_total; lia].
  unfold getPenaltyScore. rewrite (sh_width _ _ _ Hm), u8_small by (unfold is_u8; pow_consts; lia).
  apply penalty_ext. intros x y Hxy. by rewrite (get_shows w m p x y).
Qed.
