(* ===== verification/QrCode.v ===== *)
(** The QR code of a text (components/qrcode/qrcoded.c): [qrcode_initText] from the text
    to the modules, and a reader of the modules, which gives the text back.  The level
    and version are those of the caller; a read outside the tables is [None]. *)

From S2P Require Import Prelude CStr QrBits QrField QrBlocks QrGrid.
#[local] Open Scope Z_scope.

Definition ECC_LOW : Z := 0.
Definition ECC_MEDIUM : Z := 1.
Definition ECC_QUARTILE : Z := 2.
Definition ECC_HIGH : Z := 3.

Record QRCode := mk_qrcode {
  qc_version : Z; qc_size : Z; qc_ecc : Z; qc_mode : Z; qc_mask : Z; qc_modules : bit_bucket
}.

Definition qrcode_getBufferSize (version : Z) : Z := bb_getGridSizeBytes (u8 (4 * version + 17)).

(** Two bits for each level, the first level lowest. *)
Definition ECC_FORMAT_BITS : Z :=
  Z.lor (Z.lor (Z.shiftl 2 6) (Z.shiftl 3 4)) (Z.lor (Z.shiftl 0 2) (Z.shiftl 1 0)).
Definition ecc_format_bits (ecc : Z) : Z := Z.land (Z.shiftr ECC_FORMAT_BITS (2 * ecc)) 3.

Definition INT32_MAX : Z := 2 ^ 31 - 1.

(** The masks [is] one after the other: the best so far and its penalty. *)
Fixpoint mask_loop (ecc : Z) (masks : list Z) (mask minPenalty : Z) (gs : bit_bucket * bit_bucket)
  : option (Z * (bit_bucket * bit_bucket)) :=
  match masks with
  | [] => Some (mask, gs)
  | i :: masks' =>
      '(modules, isFunction) ← drawFormatBits ecc i gs;
      modules ← applyMask modules isFunction i;
      penalty ← getPenaltyScore modules;
      let penalty := i32 penalty in
      modules ← applyMask modules isFunction i;
      if penalty <? minPenalty then mask_loop ecc masks' i penalty (modules, isFunction)
      else mask_loop ecc masks' mask minPenalty (modules, isFunction)
  end.

(** The bytes of data and of correction of a version. *)
Definition data_capacity (version ecc : Z) : Z :=
  module_count version / 8 - of_table NUM_ERROR_CORRECTION_CODEWORDS ecc version.

Definition qrcode_initBytes (version ecc : Z) (data : list Z) : option QRCode :=
  let size := u8 (version * 4 + 17) in
  let eccFormatBits := ecc_format_bits ecc in
  if negb (bool_decide (1 <= version <= 40)) then None else
  let dataCapacity := data_capacity version eccFormatBits in
  '(mode, codewords) ← encodeDataCodewords (bb_initBuffer (bb_getBufferSizeBytes (module_count version))) data version;
  codewords ← pad_codewords dataCapacity codewords;
  '(modules, isFunction) ← drawFunctionPatterns version eccFormatBits (bb_initGrid size, bb_initGrid size);
  codewords ← performErrorCorrection version eccFormatBits codewords;
  modules ← drawCodewords modules isFunction codewords;
  '(mask, gs) ← mask_loop eccFormatBits (seqZ 0 8) 0 INT32_MAX (modules, isFunction);
  '(modules, isFunction) ← drawFormatBits eccFormatBits mask gs;
  modules ← applyMask modules isFunction mask;
  Some (mk_qrcode version size ecc mode mask modules).

(** The length of the text is taken as sixteen bits. *)
Definition qrcode_initText (version ecc : Z) (text : string) : option QRCode :=
  let bytes := str_bytes text in
  qrcode_initBytes version ecc (take (Z.to_nat (u16 (Z.of_nat (length bytes)))) bytes).

Definition qrcode_getModule (qr : QRCode) (x y : Z) : option bool :=
  if (qc_size qr <=? x) || (qc_size qr <=? y) then Some false else
  let offset := u32 (y * qc_size qr + x) in
  b ← bb_data (qc_modules qr) !! Z.to_nat (Z.shiftr offset 3);
  Some (negb (Z.land b (Z.shiftl 1 (7 - Z.land offset 7)) =? 0)).

(** * A reader of symbols *)

Definition symbol (qr : QRCode) : plane := λ x y, default false (qrcode_getModule qr x y).

(** The codewords of a symbol of the version, once its mask is known. *)
Definition symbol_codewords (version mask : Z) (p : plane) : list Z :=
  let q := is_function version in
  read_bytes (Z.to_nat (module_count version / 8))
    (read_cells (masked q mask p) (free q (zigzag (4 * version + 17)))).

(** The text of a symbol: level and mask, the blocks of codewords, the data. *)
Definition read_symbol (version : Z) (p : plane) : option (list Z) :=
  let '(ecc, mask) := read_format p in
  read_data version (bytes_bits (read_blocks (block_sizes version ecc) (symbol_codewords version mask p))).

(** * Room for the text *)

Definition small_version (version : Z) : Prop := 1 <= version <= 11.

(** In the versions that the display uses there is a free module for every bit of the
    codewords, and none left over: the table of modules is exact. *)
Lemma free_modules version :
  small_version version →
  Z.of_nat (length (free (is_function version) (zigzag (4 * version + 17)))) = module_count version.
Proof.
  intros Hv. assert (Forall (λ v, Z.of_nat (length (free (is_function v) (zigzag (4 * v + 17)))) = module_count v) (seqZ 1 11)) as Hall
    by (apply (bool_decide_unpack _); vm_compute; exact I).
  rewrite Forall_forall in Hall. apply Hall, elem_of_seqZ. unfold small_version in Hv. lia.
Qed.

Definition fits_symbol (version ecc : Z) (text : list Z) : Prop :=
  Z.of_nat (length text) < 2 ^ getModeBits version (mode_of text) ∧
  Z.of_nat (length (encoded version text)) <= 8 * data_capacity version (ecc_format_bits ecc).

Lemma ecc_format_level ecc : level ecc → level (ecc_format_bits ecc).
Proof.
  intros He. assert (Forall (λ e, level (ecc_format_bits e)) (seqZ 0 4)) as Hall
    by (unfold level; apply (bool_decide_unpack _); vm_compute; exact I).
  rewrite Forall_forall in Hall. apply Hall, elem_of_seqZ. unfold level in He. lia.
Qed.

(** The capacity is that of the blocks. *)
Lemma capacity_blocks version ecc :
  version_ok version → level ecc → data_capacity version ecc = Z.of_nat (data_len (block_sizes version ecc)) ∧
  0 <= module_count version < 2 ^ 16.
Proof.
  intros Hv He.
  assert (Forall (λ v, Forall (λ e, data_capacity v e = Z.of_nat (data_len (block_sizes v e)) ∧ 0 <= module_count v < 2 ^ 16)
    (seqZ 0 4)) (seqZ 1 40)) as Hall by (apply (bool_decide_unpack _); vm_compute; exact I).
  rewrite Forall_forall in Hall. specialize (Hall version). rewrite Forall_forall in Hall.
  unfold version_ok, level in *. apply Hall; apply elem_of_seqZ; lia.
Qed.

(** * The choice of the mask *)

(** The penalty that the symbol has with a mask. *)
Definition mask_penalty (version ecc mask : Z) (p : plane) : Z :=
  i32 (default 0 (penalty_of (masked (is_function version) mask
    (over (format_writes (4 * version + 17) ecc mask) p)) (4 * version + 17))).

(** The mask the loop ends with. *)
Fixpoint best_mask (pen : Z → Z) (masks : list Z) (mask minPenalty : Z) : Z :=
  match masks with
  | [] => mask
  | i :: masks' => if pen i <? minPenalty then best_mask pen masks' i (pen i) else best_mask pen masks' mask minPenalty
  end.

Lemma best_mask_spec pen masks mask minp :
  let b := best_mask pen masks mask minp in
  (b = mask ∧ ∀ i, i ∈ masks → minp <= pen i) ∨ (b ∈ masks ∧ pen b < minp ∧ ∀ i, i ∈ masks → pen b <= pen i).
Proof.
  cbv zeta. revert mask minp. induction masks as [|i masks IH]; intros mask minp; cbn [best_mask].
  { left. split; [done|]. by intros i ?%not_elem_of_nil. }
  destruct (Z.ltb_spec (pen i) minp).
  - right. destruct (IH i (pen i)) as [[-> Hall]|(Hb & Hlt & Hall)].
    + split_and!; [by left|done|]. intros k [-> | Hk]%elem_of_cons; [done|auto].
    + split_and!; [by right|lia|]. intros k [-> | Hk]%elem_of_cons; [lia|auto].
  - destruct (IH mask minp) as [[-> Hall]|(Hb & Hlt & Hall)].
    + left. split; [done|]. intros k [-> | Hk]%elem_of_cons; [lia|auto].
    + right. split_and!; [by right|done|]. intros k [-> | Hk]%elem_of_cons; [lia|auto].
Qed.

(** Two planes that agree away from level and mask. *)
Definition agree (w : Z) (p p0 : plane) : Prop := ∀ x y, in_grid w x y → format_area w x y = false → p x y = p0 x y.

Lemma over_agree w ecc mask p : 21 <= w <= 177 → agree w (over (format_writes w ecc mask) p) p.
Proof.
  intros Hw x y Hxy Ha. pose proof (covers_drawn w _ _ x y (format_covers w ecc mask Hw) Hxy) as Hd. rewrite Ha in Hd.
  unfold over. destruct (drawn (format_writes w ecc mask) x y); [|done]. by rewrite bool_decide_true in Hd by eauto.
Qed.

Lemma agree_over w ecc mask p p0 x y :
  21 <= w <= 177 → agree w p p0 → in_grid w x y →
  over (format_writes w ecc mask) p x y = over (format_writes w ecc mask) p0 x y.
Proof.
  intros Hw Hp Hxy. pose proof (covers_drawn w _ _ x y (format_covers w ecc mask Hw) Hxy) as Hd. unfold over.
  destruct (drawn (format_writes w ecc mask) x y); [done|]. cbn [default]. apply Hp; [done|].
  rewrite <- Hd. apply bool_decide_false. by intros [].
Qed.

Lemma masked_ext q mask p p' x y : p x y = p' x y → masked q mask p x y = masked q mask p' x y.
Proof. intros H. unfold masked. by rewrite H. Qed.

Lemma mask_loop_shows version ecc p0 masks : ∀ mask minPenalty m f p,
  version_ok version → shows (4 * version + 17) m p → shows (4 * version + 17) f (is_function version) →
  agree (4 * version + 17) p p0 →
  ∃ m' f' p', mask_loop ecc masks mask minPenalty (m, f)
      = Some (best_mask (λ i, mask_penalty version ecc i p0) masks mask minPenalty, (m', f')) ∧
    shows (4 * version + 17) m' p' ∧ shows (4 * version + 17) f' (is_function version) ∧ agree (4 * version + 17) p' p0.
Proof.
  set (w := 4 * version + 17). induction masks as [|i masks IH]; intros mask minp m f p Hv Hm Hf Hp.
  { exists m, f, p. done. }
  assert (21 <= w <= 177) as Hw by (unfold version_ok in Hv; lia). cbn [mask_loop best_mask].
  destruct (drawFormatBits_shows version ecc i m f p Hv Hm Hf) as (m1 & f1 & -> & Hm1 & Hf1). fold w in Hm1, Hf1. cbn [mbind option_bind].
  destruct (applyMask_shows w m1 _ f1 _ i Hm1 Hf1) as (m2 & -> & Hm2). cbn [mbind option_bind].
  destruct (getPenaltyScore_shows w m2 _ Hm2) as [-> [r Hr]].
  assert (mask_penalty version ecc i p0 = i32 r) as ->.
  { unfold mask_penalty. fold w. rewrite <- (penalty_ext (masked (is_function version) i (over (format_writes w ecc i) p))), Hr; [done|].
    intros x y Hxy. apply masked_ext. by apply agree_over. }
  rewrite Hr. cbn [mbind option_bind].
  destruct (applyMask_shows w m2 _ f1 _ i Hm2 Hf1) as (m3 & -> & Hm3). cbn [mbind option_bind].
  assert (shows w m3 (over (format_writes w ecc i) p)) as Hm3'
    by (eapply shows_ext; [|exact Hm3]; intros x y _; apply masked_twice).
  assert (agree w (over (format_writes w ecc i) p) p0) as Hag
    by (intros x y Hxy Ha; rewrite (over_agree w ecc i p) by done; by apply Hp).
  case_if; by eapply IH.
Qed.

(** * The symbol of a text *)

(** What [qrcode_initBytes] makes of a text that fits: the plane [p0] of patterns and
    codewords, on it level and mask, all of it masked; the codewords are the blocks of
    the encoded text, padded to the capacity. *)
Record symbol_of (version ecc : Z) (text : list Z) (qr : QRCode) (p0 : plane) (data : list Z) (cw : bit_bucket) : Prop := {
  sy_version : qc_version qr = version;
  sy_size : qc_size qr = 4 * version + 17;
  sy_mask : qc_mask qr = best_mask (λ i, mask_penalty version (ecc_format_bits ecc) i p0) (seqZ 0 8) 0 INT32_MAX;
  sy_shows : shows (4 * version + 17) (qc_modules qr)
    (masked (is_function version) (qc_mask qr)
      (over (format_writes (4 * version + 17) (ecc_format_bits ecc) (qc_mask qr)) p0));
  sy_cells : take (Z.to_nat (module_count version))
      (read_cells p0 (free (is_function version) (zigzag (4 * version + 17))))
    = take (Z.to_nat (module_count version)) (bytes_bits (bb_data cw));
  sy_codewords : codewords_of version (ecc_format_bits ecc) data cw;
  sy_length : length (bb_data cw) = length data;
  sy_bytes : Forall is_u8 data;
  sy_room : (data_len (block_sizes version (ecc_format_bits ecc)) ≤ length data)%nat;
  sy_text : ∃ pad, bytes_bits (take (data_len (block_sizes version (ecc_format_bits ecc))) data) = encoded version text ++ pad;
}.

Lemma initBytes_symbol version ecc text :
  small_version version → level ecc → fits_symbol version ecc text →
  ∃ qr p0 data cw, qrcode_initBytes version ecc text = Some qr ∧ symbol_of version ecc text qr p0 data cw.
Proof.
  intros Hsv Hl [Hlen Hfit]. assert (version_ok version) as Hv by (unfold small_version, version_ok in *; lia).
  pose proof (ecc_format_level ecc Hl) as He. set (e := ecc_format_bits ecc) in *.
  destruct (capacity_blocks version e Hv He) as [Hcap Hmc]. destruct (sizes_small version e Hv He) as ((_ & _ & _ & Hsz) & _).
  set (w := 4 * version + 17). assert (21 <= w <= 177) as Hw by (unfold version_ok in Hv; lia).
  unfold qrcode_initBytes. fold e. rewrite bool_decide_true by done. cbn [negb].
  replace (version * 4 + 17) with w by lia. rewrite u8_small by (unfold is_u8; pow_consts; lia).
  (* the data *)
  assert (bb_getBufferSizeBytes (module_count version) = (module_count version + 7) / 8) as Hbs.
  { unfold bb_getBufferSizeBytes. rewrite u32_small by (unfold is_u32; pow_consts; lia).
    apply u16_small. unfold is_u16. pow_consts. Z.to_euclidean_division_equations; lia. }
  assert (buf_holds [] (bb_initBuffer (bb_getBufferSizeBytes (module_count version)))) as Hb0
    by (apply init_holds; rewrite Hbs; apply Z.div_pos; lia).
  assert (Z.of_nat (length (bb_data (bb_initBuffer (bb_getBufferSizeBytes (module_count version))))) = (module_count version + 7) / 8) as Hb0l.
  { unfold bb_initBuffer. cbn [bb_data]. rewrite Hbs, length_replicate, u16_small; unfold is_u16; pow_consts; zlia. }
  assert (module_count version / 8 <= (module_count version + 7) / 8) as Hdiv by (apply Z.div_le_mono; lia).
  destruct (encode_writes version text [] _ Hb0) as (b1 & -> & Hb1 & Hl1); [cbn [length]; lia|]. cbn [mbind option_bind app] in *.
  destruct (pad_fills (data_capacity version e) (encoded version text) b1 Hb1) as (b2 & pad & -> & Hb2 & Hp2 & Hl2); [lia|lia|].
  cbn [mbind option_bind].
  (* the patterns *)
  destruct (drawFunctionPatterns_shows version e (bb_initGrid w) (bb_initGrid w) Hv) as (m1 & f1 & p1 & -> & Hm1 & Hf1);
    [apply init_shows; lia..|]. fold w in Hm1, Hf1. cbn [mbind option_bind].
  (* the codewords *)
  destruct (performErrorCorrection_codewords version e b2 Hv He (holds_capacity _ _ Hb2)) as (cw & -> & Hcwl & Hcw); [lia|].
  cbn [mbind option_bind]. pose proof (free_modules version Hsv) as Hfree. fold w in Hfree.
  destruct (drawCodewords_shows w m1 f1 cw p1 (is_function version)) as (m2 & p2 & -> & Hm2 & _ & Hcells);
    [split; [lia|unfold w; Z.to_euclidean_division_equations; lia]|done|done|rewrite (cw_offset _ _ _ _ Hcw); lia| |
     rewrite (cw_offset _ _ _ _ Hcw); lia|].
  { rewrite (cw_offset _ _ _ _ Hcw), Hcwl. Z.to_euclidean_division_equations; lia. }
  cbn [mbind option_bind].
  (* the mask *)
  destruct (mask_loop_shows version e p2 (seqZ 0 8) 0 INT32_MAX m2 f1 p2 Hv Hm2 Hf1) as (m3 & f3 & p3 & -> & Hm3 & Hf3 & Hag);
    [by intros x y _ _|]. fold w in Hm3, Hf3, Hag. cbn [mbind option_bind]. set (best := best_mask _ _ _ _).
  destruct (drawFormatBits_shows version e best m3 f3 p3 Hv Hm3 Hf3) as (m4 & f4 & -> & Hm4 & Hf4). fold w in Hm4, Hf4.
  cbn [mbind option_bind].
  destruct (applyMask_shows w m4 _ f4 _ best Hm4 Hf4) as (m5 & -> & Hm5). cbn [mbind option_bind].
  eexists _, p2, (bb_data b2), cw. split; [done|].
  assert (data_len (block_sizes version e) ≤ length (bb_data b2))%nat as Hroom by lia.
  split; cbn [qc_version qc_size qc_mask qc_modules]; fold w e; [done|done|done| | |done|done|by apply (holds_u8 _ _ Hb2)|done| ].
  - eapply shows_ext; [|exact Hm5]. intros x y Hxy. apply masked_ext. by apply agree_over.
  - by rewrite (cw_offset _ _ _ _ Hcw) in Hcells.
  - exists pad. rewrite bytes_bits_take, (holds_bits _ _ Hb2). apply take_app_length'. lia.
Qed.

(** * What a reader sees *)

Section Symbol.
Context (version ecc : Z) (text : list Z) (qr : QRCode) (p0 : plane) (data : list Z) (cw : bit_bucket).
Context (Hsv : small_version version) (Hl : level ecc) (Hsy : symbol_of version ecc text qr p0 data cw).
Notation w := (4 * version + 17).
Notation e := (ecc_format_bits ecc).
Notation sz := (block_sizes version e).

Lemma symbol_version_ok : version_ok version.
Proof. unfold small_version, version_ok in *. lia. Qed.

Lemma symbol_plane x y :
  in_grid w x y → symbol qr x y = masked (is_function version) (qc_mask qr) (over (format_writes w e (qc_mask qr)) p0) x y.
Proof.
  intros Hxy. pose proof (sy_shows _ _ _ _ _ _ _ Hsy) as Hs. pose proof (get_shows _ _ _ x y Hs Hxy) as Hg.
  unfold symbol, qrcode_getModule. rewrite (sy_size _ _ _ _ _ _ _ Hsy). unfold in_grid in Hxy.
  rewrite !(proj2 (Z.leb_gt _ _)) by lia. cbn [orb].
  unfold bb_getBit, bit_offset in Hg. rewrite (sh_width _ _ _ Hs) in Hg. by rewrite Hg.
Qed.

Lemma symbol_mask : 0 <= qc_mask qr < 8.
Proof.
  rewrite (sy_mask _ _ _ _ _ _ _ Hsy).
  destruct (best_mask_spec (λ i, mask_penalty version e i p0) (seqZ 0 8) 0 INT32_MAX) as [[-> _]|(Hin & _)]; [lia|].
  apply elem_of_seqZ in Hin. lia.
Qed.

Lemma symbol_format : read_format (symbol qr) = (e, qc_mask qr).
Proof.
  apply (format_read version _ _ p0); [apply symbol_version_ok|by apply ecc_format_level|apply symbol_mask|].
  intros x y Hxy Hf. rewrite symbol_plane by done. unfold masked. by rewrite Hf.
Qed.

Lemma symbol_cells :
  read_cells (masked (is_function version) (qc_mask qr) (symbol qr)) (free (is_function version) (zigzag w))
  = read_cells p0 (free (is_function version) (zigzag w)).
Proof.
  pose proof symbol_version_ok as Hv. assert (21 <= w <= 177) as Hw by (unfold version_ok in Hv; lia).
  assert (size_ok w) as Hsz by (split; [lia|Z.to_euclidean_division_equations; lia]).
  pose proof (zigzag_in_grid w Hsz) as Hz. rewrite Forall_forall in Hz.
  unfold read_cells. apply list_fmap_ext. intros i [x y] Hi%list_elem_of_lookup_2. unfold free in Hi.
  apply list_elem_of_In, filter_In in Hi as [Hi Hq]. apply list_elem_of_In in Hi. apply negb_true_iff in Hq.
  pose proof (Hz _ Hi) as Hxy. cbv beta iota in Hxy.
  rewrite (masked_ext _ _ _ _ x y (symbol_plane x y Hxy)), masked_twice.
  apply over_agree; [done|done|]. destruct (format_area w x y) eqn:Ha; [|done].
  by rewrite (format_is_function version x y Hv Ha) in Hq.
Qed.

Lemma symbol_codewords_eq :
  symbol_codewords version (qc_mask qr) (symbol qr) = take (Z.to_nat (module_count version / 8)) (bb_data cw).
Proof.
  pose proof symbol_version_ok as Hv. pose proof (ecc_format_level ecc Hl) as He.
  destruct (capacity_blocks version e Hv He) as [_ Hmc]. destruct (sizes_small version e Hv He) as ((_ & _ & _ & Hsz) & _).
  pose proof (sy_codewords _ _ _ _ _ _ _ Hsy) as Hcw.
  unfold symbol_codewords. rewrite symbol_cells.
  assert (8 * Z.to_nat (module_count version / 8) ≤ Z.to_nat (module_count version))%nat as H8
    by (Z.to_euclidean_division_equations; lia).
  assert (Z.to_nat (module_count version / 8) ≤ length (bb_data cw))%nat as Hcwl.
  { destruct (rs_init_some (blockEccLen sz)) as (g & Hg & Hgl); [by apply (sizes_small version e Hv He)|].
    destruct (sizes_small version e Hv He) as ((Hn & Hs & Hecc & _) & _).
    assert (is_Some (bb_data cw !! place (data_len sz + (numBlocks sz - 1)) (numBlocks sz) (blockEccLen sz - 1))) as Hb%lookup_lt_is_Some_1.
    { pose proof (cw_ecc _ _ _ _ Hcw g Hg (numBlocks sz - 1)%nat ltac:(lia) (blockEccLen sz - 1)%nat) as Hc.
      destruct (rem_steps_value _ g 0 (data_block sz data (numBlocks sz - 1)) Hg ltac:(lia)) as (Hrl & _);
        [unfold data_block; apply Forall_take, Forall_drop, (sy_bytes _ _ _ _ _ _ _ Hsy)|].
      unfold remainder_of in Hc. rewrite Hrl in Hc. rewrite Hc by lia. apply lookup_lt_is_Some_2. rewrite Hrl. lia. }
    unfold place in Hb. assert (blockEccLen sz = S (blockEccLen sz - 1)) as Hes by lia.
    apply Nat2Z.inj_le. rewrite Z2Nat.id by (apply Z.div_pos; lia). rewrite <- Hsz. rewrite Hes at 1. nia. }
  apply read_bytes_take.
  - rewrite bytes_bits_take.
    pose proof (f_equal (take (8 * Z.to_nat (module_count version / 8))) (sy_cells _ _ _ _ _ _ _ Hsy)) as Hc.
    rewrite !take_take, !Nat.min_l in Hc by lia. exact Hc.
  - by apply (codewords_u8 version e data cw Hv He (sy_bytes _ _ _ _ _ _ _ Hsy)).
  - rewrite length_take. lia.
Qed.

Lemma symbol_reads : Forall is_u8 text → Z.of_nat (length text) < 2 ^ getModeBits version (mode_of text) →
  read_symbol version (symbol qr) = Some text.
Proof.
  intros Hu Hlen. pose proof symbol_version_ok as Hv. pose proof (ecc_format_level ecc Hl) as He.
  unfold read_symbol. rewrite symbol_format, symbol_codewords_eq.
  pose proof (codewords_take version e data cw Hv He (sy_codewords _ _ _ _ _ _ _ Hsy)) as Hc.
  pose proof (codewords_read version e data _ Hv He (sy_room _ _ _ _ _ _ _ Hsy) Hc) as Hr. cbn [bb_data] in Hr. rewrite Hr.
  destruct (sy_text _ _ _ _ _ _ _ Hsy) as [pad ->]. by apply read_encoded.
Qed.

Lemma symbol_checks i j : (i < numBlocks sz)%nat → (j < blockEccLen sz)%nat →
  let codewords := symbol_codewords version (qc_mask qr) (symbol qr) in
  peval (root j) (read_block sz codewords i ++ read_ecc sz codewords i) = 0.
Proof.
  intros Hi Hj. pose proof symbol_version_ok as Hv. pose proof (ecc_format_level ecc Hl) as He. cbv zeta.
  rewrite symbol_codewords_eq.
  pose proof (codewords_take version e data cw Hv He (sy_codewords _ _ _ _ _ _ _ Hsy)) as Hc.
  pose proof (codewords_syndromes version e data _ i j Hv He (sy_bytes _ _ _ _ _ _ _ Hsy) (sy_room _ _ _ _ _ _ _ Hsy) Hc Hi Hj) as Hs.
  exact Hs.
Qed.

(** The symbol with another mask in place of its own. *)
Definition remasked (i : Z) : plane :=
  masked (is_function version) i (over (format_writes w e i) (masked (is_function version) (qc_mask qr) (symbol qr))).

Lemma remasked_penalty i : i32 (default 0 (penalty_of (remasked i) w)) = mask_penalty version e i p0.
Proof.
  pose proof symbol_version_ok as Hv. assert (21 <= w <= 177) as Hw by (unfold version_ok in Hv; lia).
  unfold mask_penalty, remasked. do 2 f_equal. apply penalty_ext. intros x y Hxy. apply masked_ext.
  apply agree_over; [done| |done]. intros x' y' Hxy' Ha.
  rewrite (masked_ext _ _ _ _ x' y' (symbol_plane x' y' Hxy')), masked_twice. by apply over_agree.
Qed.

Lemma remasked_self x y : in_grid w x y → remasked (qc_mask qr) x y = symbol qr x y.
Proof.
  intros Hxy. pose proof symbol_version_ok as Hv. assert (21 <= w <= 177) as Hw by (unfold version_ok in Hv; lia).
  rewrite symbol_plane by done. unfold remasked. apply masked_ext. apply agree_over; [done| |done].
  intros x' y' Hxy' Ha. rewrite (masked_ext _ _ _ _ x' y' (symbol_plane x' y' Hxy')), masked_twice. by apply over_agree.
Qed.

Lemma symbol_mask_best i : 0 <= i < 8 → i32 (default 0 (penalty_of (symbol qr) w)) <= i32 (default 0 (penalty_of (remasked i) w)).
Proof.
  intros Hi. rewrite remasked_penalty. rewrite <- (penalty_ext _ _ _ (remasked_self)), remasked_penalty.
  rewrite (sy_mask _ _ _ _ _ _ _ Hsy) at 1.
  assert (∀ z, i32 z <= INT32_MAX) as Hmax by (intros z; unfold i32, swrap, INT32_MAX; change (2 ^ (32 - 1)) with 2147483648; zlia).
  assert (∀ k, 0 <= k < 8 → k ∈ seqZ 0 8) as Hin by (intros k Hk; apply elem_of_seqZ; lia).
  destruct (best_mask_spec (λ i, mask_penalty version e i p0) (seqZ 0 8) 0 INT32_MAX) as [[-> Hall]|(_ & _ & Hall)].
  - specialize (Hall i (Hin i Hi)). cbv beta in Hall. etransitivity; [apply Hmax|exact Hall].
  - exact (Hall i (Hin i Hi)).
Qed.
End Symbol.

(** * The theorems *)

(** C24: A text survives the QR code.  Whenever a text fits the version (one of the eleven
    the display uses) at the level of error correction, [qrcode_initBytes] gives a
    symbol without an access outside a buffer, a table or the grid; and a reader of the
    modules - which takes level and mask from the format, undoes the mask, follows the
    zigzag, takes the blocks apart and decodes mode, count and characters - gets back the
    very text. *)
Theorem qr_code_reads_back version ecc text :
  small_version version → level ecc → Forall is_u8 text → fits_symbol version ecc text →
  ∃ qr, qrcode_initBytes version ecc text = Some qr ∧ read_symbol version (symbol qr) = Some text.
Proof.
  intros Hv Hl Hu Hf. destruct (initBytes_symbol version ecc text Hv Hl Hf) as (qr & p0 & data & cw & Hqr & Hsy).
  exists qr. split; [done|]. by apply (symbol_reads version ecc text qr p0 data cw Hv Hl Hsy); [|apply Hf].
Qed.

Lemma qr_code_reads_back_witness :
  let text := str_bytes "HTTP://192.168.4.1" in
  small_version 2 ∧ level ECC_LOW ∧ Forall is_u8 text ∧ fits_symbol 2 ECC_LOW text ∧
  ∃ qr, qrcode_initBytes 2 ECC_LOW text = Some qr ∧ read_symbol 2 (symbol qr) = Some text.
Proof.
  assert (H1 : small_version 2) by (unfold small_version; lia). assert (H2 : level ECC_LOW) by (unfold level, ECC_LOW; lia).
  assert (H3 : Forall is_u8 (str_bytes "HTTP://192.168.4.1")) by apply str_bytes_u8.
  assert (H4 : fits_symbol 2 ECC_LOW (str_bytes "HTTP://192.168.4.1")) by (split; vm_compute; done).
  refine (conj H1 (conj H2 (conj H3 (conj H4 _)))).
  exact (qr_code_reads_back 2 ECC_LOW _ H1 H2 H3 H4).
Defined.

(** C26: Every block of the symbol is a word of the Reed-Solomon code.  Read off the modules,
    the data of a block followed by its correction bytes is a polynomial with all the
    roots [2^0], [2^1], ... of the generator, one for every correction byte: a reader finds
    no error in an undamaged symbol. *)
Theorem qr_blocks_are_codewords version ecc text :
  small_version version → level ecc → fits_symbol version ecc text →
  let sz := block_sizes version (ecc_format_bits ecc) in
  ∃ qr, qrcode_initBytes version ecc text = Some qr ∧
    let codewords := symbol_codewords version (qc_mask qr) (symbol qr) in
    ∀ i j, (i < numBlocks sz)%nat → (j < blockEccLen sz)%nat →
      peval (gpow 2 j) (read_block sz codewords i ++ read_ecc sz codewords i) = 0.
Proof.
  intros Hv Hl Hf sz. destruct (initBytes_symbol version ecc text Hv Hl Hf) as (qr & p0 & data & cw & Hqr & Hsy).
  exists qr. split; [done|]. cbv zeta. intros i j Hi Hj. rewrite <- (proj1 (root_gpow j)). by eapply symbol_checks.
Qed.

Lemma qr_blocks_are_codewords_witness :
  small_version 3 ∧ level ECC_HIGH ∧ fits_symbol 3 ECC_HIGH [49; 50; 51] ∧
  let sz := block_sizes 3 (ecc_format_bits ECC_HIGH) in
  numBlocks sz = 2%nat ∧ blockEccLen sz = 22%nat ∧
  ∃ qr, qrcode_initBytes 3 ECC_HIGH [49; 50; 51] = Some qr ∧
    let codewords := symbol_codewords 3 (qc_mask qr) (symbol qr) in
    ∀ i j, (i < numBlocks sz)%nat → (j < blockEccLen sz)%nat →
      peval (gpow 2 j) (read_block sz codewords i ++ read_ecc sz codewords i) = 0.
Proof.
  assert (H1 : small_version 3) by (unfold small_version; lia). assert (H2 : level ECC_HIGH) by (unfold level, ECC_HIGH; lia).
  assert (H3 : fits_symbol 3 ECC_HIGH [49; 50; 51]) by (split; vm_compute; done).
  refine (conj H1 (conj H2 (conj H3 (conj eq_refl (conj eq_refl _))))).
  exact (qr_blocks_are_codewords 3 ECC_HIGH [49; 50; 51] H1 H2 H3).
Defined.

(** C27: The mask of the symbol is the best.  With any of the eight masks in place of the
    chosen one, level and mask drawn anew, the symbol has at least the penalty that it
    has; the penalty is found in every case. *)
Theorem qr_mask_is_best version ecc text :
  small_version version → level ecc → fits_symbol version ecc text →
  let w := 4 * version + 17 in
  ∃ qr own, qrcode_initBytes version ecc text = Some qr ∧ penalty_of (symbol qr) w = Some own ∧
    ∀ i, 0 <= i < 8 → ∃ other, penalty_of (remasked version ecc qr i) w = Some other ∧ i32 own <= i32 other.
Proof.
  intros Hv Hl Hf w. destruct (initBytes_symbol version ecc text Hv Hl Hf) as (qr & p0 & data & cw & Hqr & Hsy).
  assert (0 <= w) as Hw by (unfold small_version in Hv; lia).
  destruct (penalty_total (symbol qr) w Hw) as [own Hown]. exists qr, own. split_and!; [done|done|]. intros i Hi.
  destruct (penalty_total (remasked version ecc qr i) w Hw) as [other Hother]. exists other. split; [done|].
  pose proof (symbol_mask_best version ecc text qr p0 data cw Hv Hsy i Hi) as Hb. fold w in Hb. by rewrite Hown, Hother in Hb.
Qed.

Lemma qr_mask_is_best_witness :
  small_version 1 ∧ level ECC_MEDIUM ∧ fits_symbol 1 ECC_MEDIUM [104; 105] ∧
  ∃ qr own, qrcode_initBytes 1 ECC_MEDIUM [104; 105] = Some qr ∧ penalty_of (symbol qr) (4 * 1 + 17) = Some own ∧
    ∀ i, 0 <= i < 8 → ∃ other, penalty_of (remasked 1 ECC_MEDIUM qr i) (4 * 1 + 17) = Some other ∧ i32 own <= i32 other.
Proof.
  assert (H1 : small_version 1) by (unfold small_version; lia). assert (H2 : level ECC_MEDIUM) by (unfold level, ECC_MEDIUM; lia).
  assert (H3 : fits_symbol 1 ECC_MEDIUM [104; 105]) by (split; vm_compute; done).
  exact (conj H1 (conj H2 (conj H3 (qr_mask_is_best 1 ECC_MEDIUM [104; 105] H1 H2 H3)))).
Defined.

(** The code that [qrcode_initBytes] returns is always zero: a text that is too long is
    written past the buffer of the codewords instead. *)
Example long_text_overflows : qrcode_initText 1 ECC_LOW "http://192.168.4.1/portal/index.html" = None.
Proof. vm_compute. reflexivity. Qed.

(** [qrcode_initText] is the same for a text as C knows it. *)
Lemma initText_bytes version ecc text :
  Z.of_nat (String.length text) < 2 ^ 16 → qrcode_initText version ecc text = qrcode_initBytes version ecc (str_bytes text).
Proof.
  intros Hl. unfold qrcode_initText. rewrite length_str_bytes, u16_small, Nat2Z.id by (unfold is_u16; lia).
  by rewrite take_ge by (rewrite length_str_bytes; lia).
Qed.

(** A reader looks at the modules of the grid only. *)
Lemma read_symbol_ext version p p' :
  version_ok version → (∀ x y, in_grid (4 * version + 17) x y → p x y = p' x y) → read_symbol version p = read_symbol version p'.
Proof.
  intros Hv Hp. assert (21 <= 4 * version + 17 <= 177) as Hw by (unfold version_ok in Hv; lia).
  assert (∀ p p' : plane, (∀ x y, in_grid (4 * version + 17) x y → p x y = p' x y) →
    ∀ ps, Forall (λ '(x, y), in_grid (4 * version + 17) x y) ps → read_cells p ps = read_cells p' ps) as Hcells.
  { intros q q' Hq ps Hps. unfold read_cells. apply list_fmap_ext. intros i [x y] Hi.
    eapply Forall_lookup_1 in Hps; [|exact Hi]. by apply Hq. }
  assert (read_format p = read_format p') as Hf.
  { unfold read_format. rewrite (Hcells p p' Hp); [done|].
    change format_cells with [(8, 0); (8, 1); (8, 2); (8, 3); (8, 4); (8, 5); (8, 7); (8, 8); (7, 8); (5, 8); (4, 8); (3, 8);
      (2, 8); (1, 8); (0, 8)]. unfold in_grid. repeat constructor; lia. }
  unfold read_symbol. rewrite Hf. destruct (read_format p') as [e mask]. do 3 f_equal.
  unfold symbol_codewords. f_equal. apply Hcells.
  - intros x y Hxy. apply masked_ext. by apply Hp.
  - apply Forall_forall. intros [x y] Hin. unfold free in Hin. apply list_elem_of_In, filter_In in Hin as [Hin _].
    apply list_elem_of_In in Hin. assert (size_ok (4 * version + 17)) as Hsz by (split; [lia|Z.to_euclidean_division_equations; lia]).
    pose proof (zigzag_in_grid _ Hsz) as Hz. rewrite Forall_forall in Hz. by apply (Hz (x, y)).
Qed.
