(* ===== verification/Display.v ===== *)
(** The screen of the gate (main/display.c): its states, the texts it shows, and the
    QR code that joins a phone to the access point. *)

From S2P Require Import Prelude CStr Config QrBits QrField QrBlocks QrGrid QrCode.
#[local] Open Scope Z_scope.

(** * States *)

Inductive display_state_t :=
| DISPLAY_BOOT | DISPLAY_READY | DISPLAY_PAYMENT_RECEIVED | DISPLAY_ERROR | DISPLAY_SETUP_PENDING.
Inductive display_qr_mode_t := DISPLAY_QR_WIFI | DISPLAY_QR_PORTAL.

Definition QR_CYCLE_MS : Z := 5000.

(** The static variables of the file. *)
Record display := mk_display {
  ds_state : display_state_t;
  ds_ap_ssid : string;
  ds_portal_url : string;
  ds_mint_url : string;
  ds_wifi_status : string;
  ds_active_clients : Z;
  ds_wallet_balance : Z;
  ds_price_per_step : Z;
  ds_last_qr_switch : Z;
  ds_qr_mode : display_qr_mode_t;
  ds_last_payment_sats : Z;
  ds_last_allotment_ms : Z
}.

Definition display_boot : display :=
  mk_display DISPLAY_BOOT "" "" "" "starting..." 0 0 0 0 DISPLAY_QR_WIFI 0 0.

Definition display_set_state (state : display_state_t) (d : display) : display :=
  mk_display state (ds_ap_ssid d) (ds_portal_url d) (ds_mint_url d) (ds_wifi_status d) (ds_active_clients d)
    (ds_wallet_balance d) (ds_price_per_step d) (ds_last_qr_switch d) (ds_qr_mode d) (ds_last_payment_sats d)
    (ds_last_allotment_ms d).

(** A text that is given replaces the one shown. *)
Definition shown (n : nat) (given : option string) (old : string) : string :=
  match given with Some s => strncpy n s | None => old end.

Definition display_update (ap_ssid : option string) (active_clients wallet_balance : Z)
    (portal_url mint_url : option string) (price_per_step : Z) (wifi_status : option string) (d : display)
  : display :=
  mk_display (ds_state d) (shown 31 ap_ssid (ds_ap_ssid d)) (shown 255 portal_url (ds_portal_url d))
    (shown 255 mint_url (ds_mint_url d)) (shown 31 wifi_status (ds_wifi_status d)) active_clients wallet_balance
    (if 0 <? price_per_step then price_per_step else ds_price_per_step d) (ds_last_qr_switch d) (ds_qr_mode d)
    (ds_last_payment_sats d) (ds_last_allotment_ms d).

(** [balance]: what the wallet holds. *)
Definition display_notify_payment (balance amount_sats allotment_ms : Z) (d : display) : display :=
  mk_display DISPLAY_PAYMENT_RECEIVED (ds_ap_ssid d) (ds_portal_url d) (ds_mint_url d) (ds_wifi_status d)
    (ds_active_clients d) balance (ds_price_per_step d) (ds_last_qr_switch d) (ds_qr_mode d) amount_sats allotment_ms.

(** [display_init], once the hardware answers. *)
Definition display_init (now : Z) (d : display) : display :=
  mk_display (ds_state d) (ds_ap_ssid d) (ds_portal_url d) (ds_mint_url d) (ds_wifi_status d) (ds_active_clients d)
    (ds_wallet_balance d) (ds_price_per_step d) now (ds_qr_mode d) (ds_last_payment_sats d) (ds_last_allotment_ms d).

(** A turn of [display_task]: the screen drawn, and what is left; [meanwhile]: what the other
    tasks do to the display in the three seconds the payment is shown. *)
Definition display_turn (meanwhile : display → display) (now : Z) (d : display) : display_state_t * display :=
  let state := ds_state d in
  let d1 :=
    match state with
    | DISPLAY_READY =>
        if QR_CYCLE_MS <=? now - ds_last_qr_switch d then
          mk_display state (ds_ap_ssid d) (ds_portal_url d) (ds_mint_url d) (ds_wifi_status d)
            (ds_active_clients d) (ds_wallet_balance d) (ds_price_per_step d) now
            (match ds_qr_mode d with DISPLAY_QR_WIFI => DISPLAY_QR_PORTAL | DISPLAY_QR_PORTAL => DISPLAY_QR_WIFI end)
            (ds_last_payment_sats d) (ds_last_allotment_ms d)
        else d
    | _ => d
    end in
  (state, match state with DISPLAY_PAYMENT_RECEIVED => display_set_state DISPLAY_READY (meanwhile d1) | _ => d1 end).

(** What the other tasks report while the payment is shown is forgotten. *)
Example payment_hides_error now :
  ds_state (display_turn (display_set_state DISPLAY_ERROR) now (display_notify_payment 21 21 60000 display_boot)).2
  = DISPLAY_READY.
Proof. reflexivity. Qed.

(** * Texts *)

(** The characters that a field of a QR code escapes. *)
Definition is_special (c : ascii) : bool :=
  Ascii.eqb c "\" || Ascii.eqb c ";" || Ascii.eqb c ":" || Ascii.eqb c "," || Ascii.eqb c (chr 34).

(** The loop, with [di] characters written already. *)
Fixpoint escape_loop (dst_size di : nat) (src : string) : string :=
  match src with
  | EmptyString => EmptyString
  | String c src' =>
      if (di <? dst_size - 2)%nat then
        if is_special c then
          if (dst_size <=? di + 2)%nat then EmptyString
          else String "\" (String c (escape_loop dst_size (di + 2) src'))
        else String c (escape_loop dst_size (di + 1) src')
      else EmptyString
  end.
Definition escape_wifi_field (src : string) (dst_size : nat) : string := escape_loop dst_size 0 src.

Definition extract_domain (url : string) (out_size : nat) : string :=
  let start := if has_prefix "https://" url then str_drop 8 url
               else if has_prefix "http://" url then str_drop 7 url else url in
  let out := strncpy (out_size - 1) start in
  match strchr "/" out with Some i => str_take i out | None => out end.

Definition build_wifi_qr_string (ap_ssid ap_password : string) (out_size : nat) : string :=
  let escaped_ssid := escape_wifi_field ap_ssid 64 in
  str_take (out_size - 1)
    (if str_empty ap_password then "WIFI:S:" +:+ escaped_ssid +:+ ";T:nopass;;"
     else "WIFI:S:" +:+ escaped_ssid +:+ ";T:WPA;P:" +:+ escape_wifi_field ap_password 128 +:+ ";;")%string.

Definition qr_version_from_strlen (len : Z) : Z :=
  if len <=? 17 then 1 else if len <=? 32 then 2 else if len <=? 53 then 3 else if len <=? 78 then 4
  else if len <=? 106 then 5 else if len <=? 134 then 6 else if len <=? 154 then 7 else if len <=? 192 then 8
  else if len <=? 230 then 9 else if len <=? 271 then 10 else 11.

Definition qr_pixel_size (len : Z) : Z := if len <=? 53 then 4 else if len <=? 134 then 3 else 2.

(** The modules of a side of the code drawn, and of the screen it takes. *)
Definition qr_size (version : Z) : Z := version * 4 + 17.
Definition qr_px (len : Z) : Z := qr_size (qr_version_from_strlen len) * qr_pixel_size len.

(** The text of the code on each screen, if it has one. *)
Definition qr_text (ap_password : string) (d : display) (state : display_state_t) : option string :=
  let wifi := build_wifi_qr_string (ds_ap_ssid d) ap_password 320 in
  match state with
  | DISPLAY_PAYMENT_RECEIVED => None
  | DISPLAY_READY =>
      Some match ds_qr_mode d with DISPLAY_QR_WIFI => wifi | DISPLAY_QR_PORTAL => strncpy 319 (ds_portal_url d) end
  | _ => Some wifi
  end.

(** How a phone reads the text of an access point: a field ends at the first semicolon
    that is not escaped. *)
Fixpoint read_field (text : string) : option (string * string) :=
  match text with
  | EmptyString => None
  | String c rest =>
      if Ascii.eqb c ";" then Some (EmptyString, rest)
      else if Ascii.eqb c "\" then
        match rest with
        | String e rest' => '(f, r) ← read_field rest'; Some (String e f, r)
        | EmptyString => None
        end
      else '(f, r) ← read_field rest; Some (String c f, r)
  end.
Definition read_wifi (text : string) : option (string * string) :=
  if has_prefix "WIFI:S:" text then
    '(ssid, rest) ← read_field (str_drop 7 text);
    if String.eqb rest "T:nopass;;" then Some (ssid, EmptyString)
    else if has_prefix "T:WPA;P:" rest then
      '(password, rest') ← read_field (str_drop 8 rest);
      if String.eqb rest' ";" then Some (ssid, password) else None
    else None
  else None.

(** The lines of the screen after a payment. *)
Definition payment_lines (d : display) : list string :=
  let secs := Z.quot (ds_last_allotment_ms d) 1000 in
  [str_take 47 ("Paid: " +:+ print_d (ds_last_payment_sats d) +:+ " sats")%string;
   str_take 47 (if 60 <=? secs then ("Time: " +:+ print_d (Z.quot secs 60) +:+ " min")%string
                else ("Time: " +:+ print_d secs +:+ " sec")%string);
   str_take 47 ("Wallet: " +:+ print_u (ds_wallet_balance d) +:+ " sats")%string].

(** * Where things are drawn *)

(** The corner of a code of [size] pixels in an area. *)
Definition qr_origin (x_off y_off max_w max_h size : Z) : Z * Z :=
  (Z.max 0 (x_off + Z.quot (max_w - size) 2), Z.max 0 (y_off + Z.quot (max_h - size) 2)).

Definition FONT_GLYPH_W : Z := 8.
Definition FONT_GLYPH_H : Z := 8.

(** The corner of the glyph of each character that [display_render_text] draws. *)
Fixpoint text_cells (screen_w screen_h x scale cx cy : Z) (text : string) : list (Z * Z) :=
  match text with
  | EmptyString => []
  | String _ text' =>
      let wrap := screen_w <? cx + FONT_GLYPH_W * scale in
      let cx := if wrap then x else cx in
      let cy := if wrap then cy + FONT_GLYPH_H * scale else cy in
      if screen_h <? cy + FONT_GLYPH_H * scale then []
      else (cx, cy) :: text_cells screen_w screen_h x scale (cx + FONT_GLYPH_W * scale) cy text'
  end.

(** * Does the code hold the text? *)

(** The bits of a text in byte mode: the mode, the count, the bytes. *)
Definition qr_bits (version len : Z) : Z := 4 + (if 9 <? version then 16 else 8) + 8 * len.

Lemma qr_version_holds len :
  0 <= len <= 321 →
  let version := qr_version_from_strlen len in
  1 <= version <= 11 ∧ qr_bits version len <= 8 * data_capacity version (ecc_format_bits ECC_LOW) ∧ qr_px len <= 123.
Proof.
  intros Hl. cbv zeta. unfold qr_px, qr_version_from_strlen, qr_pixel_size, qr_size, qr_bits.
  repeat (match goal with |- context [?a <=? ?b] => destruct (Z.leb_spec a b) end; try lia);
    match goal with |- context [data_capacity ?v ?e] => let c := eval vm_compute in (data_capacity v e) in
      change (data_capacity v e) with c end;
    repeat match goal with |- context [?a <? ?b] => let c := eval vm_compute in (a <? b) in change (a <? b) with c end;
    cbv match; lia.
Qed.

(** * The text of the code *)

Lemma escape_length dst di s : (String.length (escape_loop dst di s) ≤ 2 * String.length s)%nat.
Proof.
  revert di. induction s as [|c s IH]; intros di; cbn [escape_loop String.length]; [lia|].
  pose proof (IH (di + 1)%nat). pose proof (IH (di + 2)%nat). repeat case_match; cbn [String.length]; lia.
Qed.

(** A field that fits twice is read back whole. *)
Lemma read_escape dst di s rest :
  (di + 2 * String.length s + 2 ≤ dst)%nat →
  read_field (escape_loop dst di s +:+ String ";" rest)%string = Some (s, rest).
Proof.
  revert di. induction s as [|c s IH]; intros di Hd; cbn [escape_loop String.length] in *; [done|].
  destruct (Nat.ltb_spec di (dst - 2)) as [_|?]; [|lia].
  destruct (is_special c) eqn:Hc.
  - destruct (Nat.leb_spec dst (di + 2)) as [?|_]; [lia|].
    change (read_field (String "\" (String c (escape_loop dst (di + 2) s +:+ String ";" rest)))
            = Some (String c s, rest)).
    cbn [read_field]. cbn -[read_field escape_loop String.append]. by rewrite IH by lia.
  - change (read_field (String c (escape_loop dst (di + 1) s +:+ String ";" rest)) = Some (String c s, rest)).
    unfold is_special in Hc. repeat (apply orb_false_iff in Hc as [Hc ?]).
    cbn [read_field]. rewrite Hc, H2, IH by lia. done.
Qed.

Definition wifi_text_fits (ssid password : string) : Prop := fits 31 ssid ∧ fits 63 password.

Lemma wifi_text_length ssid password out_size :
  wifi_text_fits ssid password → (208 ≤ out_size)%nat →
  build_wifi_qr_string ssid password out_size
  = (if str_empty password then "WIFI:S:" +:+ escape_wifi_field ssid 64 +:+ ";T:nopass;;"
     else "WIFI:S:" +:+ escape_wifi_field ssid 64 +:+ ";T:WPA;P:" +:+ escape_wifi_field password 128 +:+ ";;")%string.
Proof.
  intros [Hs Hp] Ho. unfold fits in *. unfold build_wifi_qr_string. apply str_take_all.
  pose proof (escape_length 64 0 ssid). pose proof (escape_length 128 0 password).
  unfold escape_wifi_field. case_match; rewrite !str_append_length; cbn [String.length]; lia.
Qed.

(** The text that [build_wifi_qr_string] puts into the code joins the phone to the
    access point: a reader that takes fields up to the first unescaped semicolon gets
    back the very name (at most 31 characters) and password (at most 63), whatever
    characters they hold; nothing is cut by the buffers of 64, 128 and 320. *)
Theorem wifi_qr_roundtrip (ssid password : string) :
  wifi_text_fits ssid password → read_wifi (build_wifi_qr_string ssid password 320) = Some (ssid, password).
Proof.
  intros Hf. rewrite wifi_text_length by (done || lia). destruct Hf as [Hs Hp]. unfold fits in *.
  unfold read_wifi, escape_wifi_field.
  destruct password as [|c p]; cbn [str_empty].
  - change (has_prefix "WIFI:S:" ("WIFI:S:" +:+ escape_loop 64 0 ssid +:+ ";T:nopass;;")) with true. cbv match.
    change (str_drop 7 ("WIFI:S:" +:+ ?x)) with x.
    rewrite (read_escape 64 0 ssid "T:nopass;;") by lia. done.
  - set (pw := escape_loop 128 0 (String c p)).
    change (has_prefix "WIFI:S:" ("WIFI:S:" +:+ escape_loop 64 0 ssid +:+ ";T:WPA;P:" +:+ pw +:+ ";;"))
      with true. cbv match.
    change (str_drop 7 ("WIFI:S:" +:+ escape_loop 64 0 ssid +:+ ";T:WPA;P:" +:+ pw +:+ ";;"))
      with (escape_loop 64 0 ssid +:+ String ";" ("T:WPA;P:" +:+ pw +:+ ";;"))%string.
    rewrite read_escape by lia. cbn [mbind option_bind].
    change (String.eqb ("T:WPA;P:" +:+ pw +:+ ";;") "T:nopass;;") with false.
    change (has_prefix "T:WPA;P:" ("T:WPA;P:" +:+ pw +:+ ";;")) with true. cbv match.
    change (str_drop 8 ("T:WPA;P:" +:+ pw +:+ ";;")) with (pw +:+ String ";" ";")%string.
    subst pw. rewrite read_escape by (cbn in *; lia). done.
Qed.

Lemma wifi_qr_roundtrip_witness :
  wifi_text_fits "Caf; \8" "a:b,c;d\" ∧
  read_wifi (build_wifi_qr_string "Caf; \8" "a:b,c;d\" 320) = Some ("Caf; \8", "a:b,c;d\")%string.
Proof.
  assert (H : wifi_text_fits "Caf; \8" "a:b,c;d\") by (split; vm_compute; lia).
  split; [exact H|]. exact (wifi_qr_roundtrip _ _ H).
Defined.

(** The buffers of the display keep the text of a code under 320 characters. *)
Lemma qr_text_length (password : string) (d : display) (screen : display_state_t) (text : string) :
  qr_text password d screen = Some text → (String.length text ≤ 319)%nat.
Proof.
  intros Ht. assert (Hw : (String.length (build_wifi_qr_string (ds_ap_ssid d) password 320) ≤ 319)%nat)
    by apply str_length_take.
  unfold qr_text in Ht. destruct screen; try (by injection Ht as <-); [|done].
  injection Ht as <-. destruct (ds_qr_mode d); [done|apply strncpy_length].
Qed.

(** Whatever the display holds, the text of the code on every screen is one that the
    version chosen from its length holds: its mode, count and bytes fit the data capacity
    of that version at the lowest error correction, the version is one of the first
    eleven, and the code drawn is at most 123 pixels wide, so it fits the smallest area
    (150 pixels) it is drawn in. *)
Theorem qr_text_fits (password : string) (d : display) (screen : display_state_t) (text : string) :
  qr_text password d screen = Some text →
  let len := Z.of_nat (String.length text) in
  let version := qr_version_from_strlen len in
  1 <= version <= 11 ∧ qr_bits version len <= 8 * data_capacity version (ecc_format_bits ECC_LOW) ∧ qr_px len <= 123.
Proof.
  intros Ht%qr_text_length. apply qr_version_holds. lia.
Qed.

Lemma qr_text_fits_witness :
  let d := display_update (Some "TollGate-1A2B") 0 0 (Some "http://192.168.4.1/") None 0 None display_boot in
  let len := Z.of_nat (String.length (build_wifi_qr_string "TollGate-1A2B" "" 320)) in
  1 <= qr_version_from_strlen len <= 11 ∧
  qr_bits (qr_version_from_strlen len) len <= 8 * data_capacity (qr_version_from_strlen len) (ecc_format_bits ECC_LOW) ∧ qr_px len <= 123.
Proof.
  exact (qr_text_fits "" (display_update (Some "TollGate-1A2B"%string) 0 0 (Some "http://192.168.4.1/"%string) None 0
           None display_boot) DISPLAY_BOOT (build_wifi_qr_string "TollGate-1A2B" "" 320) eq_refl).
Defined.

(** * Nothing is drawn off the screen *)

Definition cell_inside (screen_w screen_h scale : Z) (p : Z * Z) : Prop :=
  0 <= p.1 ∧ p.1 + FONT_GLYPH_W * scale <= screen_w ∧ 0 <= p.2 ∧ p.2 + FONT_GLYPH_H * scale <= screen_h.

Lemma text_cells_inside screen_w screen_h x scale cx cy text :
  0 < scale → 0 <= x → x + FONT_GLYPH_W * scale <= screen_w → 0 <= cx → 0 <= cy →
  Forall (cell_inside screen_w screen_h scale) (text_cells screen_w screen_h x scale cx cy text).
Proof.
  intros Hs Hx Hw. revert cx cy. induction text as [|c text IH]; intros cx cy Hcx Hcy; cbn [text_cells]; [constructor|].
  unfold FONT_GLYPH_W, FONT_GLYPH_H in *.
  destruct (Z.ltb_spec screen_w (cx + 8 * scale)); case_match eqn:Hh; try apply Z.ltb_ge in Hh; constructor;
    try (split_and!; cbn [fst snd]; unfold FONT_GLYPH_W, FONT_GLYPH_H; lia); apply IH; lia.
Qed.
