(* ===== verification/Panel.v ===== *)
(** The driver of the panel (components/axs15231b/axs15231b.c): the frame buffer, the
    rectangles drawn into it, and what goes over the SPI bus at start and when the buffer
    is flushed.  The bus, the allocator and the pins are outside: whether they work is a
    parameter, what is sent is a list of transactions, the waits between them are
    left out.  A [None] of an operation is an access outside the buffer or through NULL. *)

From S2P Require Import Prelude CStr.
#[local] Open Scope Z_scope.

Definition AXS15231B_WIDTH : Z := 320.
Definition AXS15231B_HEIGHT : Z := 480.
Definition SWAP_BUF_PIXELS : Z := 2048.

Definition SWRESET : Z := 0x01.
Definition SLPOUT : Z := 0x11.
Definition DISPON : Z := 0x29.
Definition CASET : Z := 0x2A.
Definition RASET : Z := 0x2B.
Definition RAMWR : Z := 0x2C.
Definition COLMOD : Z := 0x3A.
Definition MADCTL : Z := 0x36.
Definition QSPI_CMD_REG_WRITE : Z := 0x02.
Definition QSPI_CMD_DATA_WRITE : Z := 0x32.
Definition QSPI_DATA_ADDR : Z := 0x003C00.

(** * State and transactions *)

(** [s_spi] and [s_swap_buf]: whether they have been set. *)
Record panel := mk_panel {
  s_spi : bool;
  s_fb : option (list Z);
  s_width : Z;
  s_height : Z;
  s_stride : Z;
  s_swap_buf : bool
}.

Definition panel_off : panel := mk_panel false None AXS15231B_WIDTH AXS15231B_HEIGHT AXS15231B_WIDTH false.
Definition with_fb (fb : list Z) (p : panel) : panel :=
  mk_panel (s_spi p) (Some fb) (s_width p) (s_height p) (s_stride p) (s_swap_buf p).

(** A transaction: command, address and data, or more data for the last one. *)
Inductive spi_event :=
| Transmit (cmd addr : Z) (data : list Z)
| Continue (data : list Z)
| Backlight (on : bool).

Definition qspi_write_command (lcd_cmd : Z) : spi_event := Transmit QSPI_CMD_REG_WRITE (u32 (Z.shiftl lcd_cmd 8)) [].
Definition qspi_write_cmd_data8 (lcd_cmd d : Z) : spi_event := Transmit QSPI_CMD_REG_WRITE (u32 (Z.shiftl lcd_cmd 8)) [u8 d].
Definition qspi_write_cmd_bytes (lcd_cmd : Z) (data : list Z) : spi_event :=
  if (length data =? 0)%nat then qspi_write_command lcd_cmd
  else Transmit QSPI_CMD_REG_WRITE (u32 (Z.shiftl lcd_cmd 8)) data.
Definition qspi_write_cmd_d16d16 (lcd_cmd d1 d2 : Z) : spi_event :=
  let d1 := u16 d1 in let d2 := u16 d2 in
  Transmit QSPI_CMD_REG_WRITE (u32 (Z.shiftl lcd_cmd 8))
    [u8 (Z.shiftr d1 8); Z.land d1 0xFF; u8 (Z.shiftr d2 8); Z.land d2 0xFF].

(** * Drawing *)

(** [s_fb[k] = color] for [n] places from [k] on. *)
Fixpoint fill_run (n : nat) (k color : Z) (fb : list Z) : option (list Z) :=
  match n with
  | O => Some fb
  | S n' =>
      if (0 <=? k) && (k <? Z.of_nat (length fb)) then fill_run n' (k + 1) color (<[Z.to_nat k := color]> fb) else None
  end.

(** The columns from [x] on in [n] rows from [row] on. *)
Fixpoint fill_rows (n : nat) (row x w color stride : Z) (fb : list Z) : option (list Z) :=
  match n with
  | O => Some fb
  | S n' => fb' ← fill_run (Z.to_nat w) (row * stride + x) color fb; fill_rows n' (row + 1) x w color stride fb'
  end.

Definition axs15231b_fill_screen (color : Z) (p : panel) : option panel :=
  fb ← s_fb p; fb ← fill_rows (Z.to_nat (s_height p)) 0 0 (s_width p) color (s_stride p) fb; Some (with_fb fb p).

Definition axs15231b_fill_rect (x y w h color : Z) (p : panel) : option panel :=
  if (x <? 0) || (y <? 0) || (s_width p <? x + w) || (s_height p <? y + h) then Some p else
  fb ← s_fb p; fb ← fill_rows (Z.to_nat h) y x w color (s_stride p) fb; Some (with_fb fb p).

(** * Flushing *)

(** A pixel lies in memory with its low byte first; the swap sends the high byte first. *)
Definition swapped (pixel : Z) : list Z := [u8 (Z.shiftr pixel 8); u8 pixel].

(** The chunks of one row; [first]: nothing has been sent yet. *)
Fixpoint flush_row (fuel : nat) (fb : list Z) (at_ remaining : Z) (first : bool) : option (list spi_event * bool) :=
  if remaining <=? 0 then Some ([], first) else
  match fuel with
  | O => None
  | S fuel' =>
      let chunk := if remaining <? SWAP_BUF_PIXELS then remaining else SWAP_BUF_PIXELS in
      let pixels := take (Z.to_nat chunk) (drop (Z.to_nat at_) fb) in
      if (at_ <? 0) || negb (length pixels =? Z.to_nat chunk)%nat then None else
      let data := pixels ≫= swapped in
      let e := if first then Transmit QSPI_CMD_DATA_WRITE QSPI_DATA_ADDR data else Continue data in
      '(es, first') ← flush_row fuel' fb (at_ + chunk) (remaining - chunk) false;
      Some (e :: es, first')
  end.

Fixpoint flush_rows (n : nat) (row : Z) (p : panel) (fb : list Z) (first : bool) : option (list spi_event) :=
  match n with
  | O => Some []
  | S n' =>
      '(es, first') ← flush_row (Z.to_nat (s_width p)) fb (row * s_stride p) (s_width p) first;
      es' ← flush_rows n' (row + 1) p fb first';
      Some (es ++ es')
  end.

Definition axs15231b_flush (p : panel) : option (list spi_event) :=
  match s_spi p, s_fb p, s_swap_buf p with
  | true, Some fb, true =>
      es ← flush_rows (Z.to_nat (s_height p)) 0 p fb true;
      Some (qspi_write_cmd_d16d16 CASET 0 (s_width p - 1) :: qspi_write_cmd_d16d16 RASET 0 (s_height p - 1) ::
            qspi_write_command RAMWR :: es)
  | _, _, _ => Some []
  end.

(** * Start *)

Definition init_bb : list Z :=
  [0; 0; 0; 0; 0; 0; 90; 165].
Definition init_a0 : list Z :=
  [192; 16; 0; 2; 0; 0; 4; 63; 32; 5; 63; 63; 0; 0; 0; 0; 0].
Definition init_a2 : list Z :=
  [48; 60; 36; 20; 208; 32; 255; 224; 64; 25; 128; 128; 128; 32; 249; 16; 2; 255; 255; 240; 144; 1; 50; 160; 145;
   224; 32; 127; 255; 0; 90].
Definition init_d0 : list Z :=
  [224; 64; 81; 36; 8; 5; 16; 1; 32; 21; 194; 66; 34; 34; 170; 3; 16; 18; 96; 20; 30; 81; 21; 0; 138; 32; 0; 3; 58;
   18].
Definition init_a3 : list Z :=
  [160; 6; 170; 0; 8; 2; 10; 4; 4; 4; 4; 4; 4; 4; 4; 4; 4; 4; 4; 0; 85; 85].
Definition init_c1 : list Z :=
  [49; 4; 2; 2; 113; 5; 36; 85; 2; 0; 65; 0; 83; 255; 255; 255; 79; 82; 0; 79; 82; 0; 69; 59; 11; 2; 13; 0; 255; 64].
Definition init_c3 : list Z :=
  [0; 0; 0; 80; 3; 0; 0; 0; 1; 128; 1].
Definition init_c4 : list Z :=
  [0; 36; 51; 128; 0; 234; 100; 50; 200; 100; 200; 50; 144; 144; 17; 6; 220; 250; 0; 0; 128; 254; 16; 16; 0; 10;
   10; 68; 80].
Definition init_c5 : list Z :=
  [24; 0; 0; 3; 254; 58; 74; 32; 48; 16; 136; 222; 13; 8; 15; 15; 1; 58; 74; 32; 16; 16; 0].
Definition init_c6 : list Z :=
  [5; 10; 5; 10; 0; 224; 46; 11; 18; 34; 18; 34; 1; 3; 0; 63; 106; 24; 200; 34].
Definition init_c7 : list Z :=
  [80; 50; 40; 0; 162; 128; 143; 0; 128; 255; 7; 17; 156; 103; 255; 36; 12; 13; 14; 15].
Definition init_c9 : list Z :=
  [51; 68; 68; 1].
Definition init_cf : list Z :=
  [44; 30; 136; 88; 19; 24; 86; 24; 30; 104; 136; 0; 101; 9; 34; 196; 12; 119; 34; 68; 170; 85; 8; 8; 18; 160; 8].
Definition init_d5 : list Z :=
  [64; 142; 141; 1; 53; 4; 146; 116; 4; 146; 116; 4; 8; 106; 4; 70; 3; 3; 3; 3; 130; 1; 3; 0; 224; 81; 161; 0; 0; 0].
Definition init_d6 : list Z :=
  [16; 50; 84; 118; 152; 186; 220; 254; 147; 0; 1; 131; 7; 7; 0; 7; 7; 0; 3; 3; 3; 3; 3; 3; 0; 132; 0; 32; 1; 0].
Definition init_d7 : list Z :=
  [3; 1; 11; 9; 15; 13; 30; 31; 24; 29; 31; 25; 64; 142; 4; 0; 32; 160; 31].
Definition init_d8 : list Z :=
  [2; 0; 10; 8; 14; 12; 30; 31; 24; 29; 31; 25].
Definition init_d9 : list Z :=
  [31; 31; 31; 31; 31; 31; 31; 31; 31; 31; 31; 31].
Definition init_dd : list Z :=
  [31; 31; 31; 31; 31; 31; 31; 31; 31; 31; 31; 31].
Definition init_df : list Z :=
  [68; 115; 75; 105; 0; 10; 2; 144].
Definition init_e0 : list Z :=
  [59; 40; 16; 22; 12; 6; 17; 40; 92; 33; 13; 53; 19; 44; 51; 40; 13].
Definition init_e1 : list Z :=
  [55; 40; 16; 22; 11; 6; 17; 40; 92; 33; 13; 53; 20; 44; 51; 40; 15].
Definition init_e2 : list Z :=
  [59; 7; 18; 24; 14; 13; 23; 53; 68; 50; 12; 20; 20; 54; 58; 47; 13].
Definition init_e3 : list Z :=
  [55; 7; 18; 24; 14; 13; 23; 53; 68; 50; 12; 20; 20; 54; 50; 47; 15].
Definition init_e4 : list Z :=
  [59; 7; 18; 24; 14; 13; 23; 57; 68; 46; 12; 20; 20; 54; 58; 47; 13].
Definition init_e5 : list Z :=
  [55; 7; 18; 24; 14; 13; 23; 57; 68; 46; 12; 20; 20; 54; 58; 47; 15].
Definition init_a4_1 : list Z :=
  [133; 133; 149; 130; 175; 170; 170; 128; 16; 48; 64; 64; 32; 255; 96; 48].
Definition init_a4_2 : list Z :=
  [133; 133; 149; 133].
Definition init_bb2 : list Z :=
  [0; 0; 0; 0; 0; 0; 0; 0].

(** Command, bytes, milliseconds to wait. *)
Definition s_init_cmds : list (Z * list Z * Z) :=
  [(187, init_bb, 0); (160, init_a0, 0); (162, init_a2, 0); (208, init_d0, 0); (163, init_a3, 0);
   (193, init_c1, 0); (195, init_c3, 0); (196, init_c4, 0); (197, init_c5, 0); (198, init_c6, 0);
   (199, init_c7, 0); (201, init_c9, 0); (207, init_cf, 0); (213, init_d5, 0); (214, init_d6, 0);
   (215, init_d7, 0); (216, init_d8, 0); (217, init_d9, 0); (221, init_dd, 0); (223, init_df, 0);
   (224, init_e0, 0); (225, init_e1, 0); (226, init_e2, 0); (227, init_e3, 0); (228, init_e4, 0);
   (229, init_e5, 0); (164, init_a4_1, 0); (164, init_a4_2, 0); (187, init_bb2, 0); (SLPOUT, [], 200);
   (DISPON, [], 100)].

(** [bus], [device]: the errors of the SPI driver; [fb_ok], [swap_ok]: the allocations. *)
Definition axs15231b_init (bus device : esp_err_t) (fb_ok swap_ok : bool) (p : panel)
  : option (esp_err_t * panel * list spi_event) :=
  if negb (bool_decide (bus = ESP_OK)) then Some (bus, p, []) else
  if negb (bool_decide (device = ESP_OK)) then Some (device, p, []) else
  let p := mk_panel true (s_fb p) (s_width p) (s_height p) (s_stride p) (s_swap_buf p) in
  if negb fb_ok then Some (ESP_ERR_NO_MEM, mk_panel true None (s_width p) (s_height p) (s_stride p) (s_swap_buf p), []) else
  let p := with_fb (replicate (Z.to_nat (s_width p * s_height p)) 0) p in
  if negb swap_ok then
    Some (ESP_ERR_NO_MEM, mk_panel true (s_fb p) (s_width p) (s_height p) (s_stride p) false, []) else
  let p := mk_panel true (s_fb p) (s_width p) (s_height p) (s_stride p) true in
  p ← axs15231b_fill_screen 0 p;
  es ← axs15231b_flush p;
  Some (ESP_OK, p,
    qspi_write_command SWRESET :: ((λ '(cmd, data, _), qspi_write_cmd_bytes cmd data) <$> s_init_cmds) ++
    [qspi_write_cmd_data8 MADCTL 0; qspi_write_cmd_data8 COLMOD 0x55] ++ es ++ [Backlight true]).

(** * The buffer as a plane of colours *)

Definition picture := Z → Z → Z.
Definition on_panel (p : panel) (x y : Z) : Prop := (0 <= x < s_width p) ∧ (0 <= y < s_height p).

(** A panel that is up, with its buffer. *)
Record panel_shows (p : panel) (c : picture) : Prop := {
  ps_up : s_spi p = true ∧ s_swap_buf p = true;
  ps_size : 0 < s_width p ∧ 0 < s_height p ∧ s_stride p = s_width p;
  ps_fb : ∃ fb, s_fb p = Some fb ∧ Z.of_nat (length fb) = s_width p * s_height p ∧
    ∀ x y, on_panel p x y → fb !! Z.to_nat (y * s_width p + x) = Some (c x y);
}.

(** [fb] holds the colours of [c], [W] to a row. *)
Definition fb_holds (W H : Z) (fb : list Z) (c : picture) : Prop :=
  Z.of_nat (length fb) = W * H ∧ ∀ x y, 0 <= x < W → 0 <= y < H → fb !! Z.to_nat (y * W + x) = Some (c x y).

Lemma pixel_inj W x y x' y' : 0 <= x < W → 0 <= x' < W → y * W + x = y' * W + x' → x = x' ∧ y = y'.
Proof. intros Hx Hx' E. assert (y = y') as <- by nia. lia. Qed.

Lemma fill_run_holds W H n : ∀ x y color fb c,
  fb_holds W H fb c → 0 <= x → x + Z.of_nat n <= W → 0 <= y < H →
  ∃ fb', fill_run n (y * W + x) color fb = Some fb' ∧
    fb_holds W H fb' (λ x' y', if bool_decide (y' = y ∧ x <= x' < x + Z.of_nat n) then color else c x' y').
Proof.
  induction n as [|n IH]; intros x y color fb c [Hl Hc] Hx Hn Hy; cbn [fill_run].
  { exists fb. split; [done|]. split; [done|]. intros x' y' Hx' Hy'. rewrite bool_decide_false by lia. by apply Hc. }
  rewrite (proj2 (Z.leb_le 0 _)), (proj2 (Z.ltb_lt _ _)) by nia. cbn [andb].
  assert (fb_holds W H (<[Z.to_nat (y * W + x) := color]> fb)
    (λ x' y', if bool_decide (y' = y ∧ x' = x) then color else c x' y')) as H1.
  { split; [by rewrite length_insert|]. intros x' y' Hx' Hy'. case_bool_decide as E.
    - destruct E as [-> ->]. apply list_lookup_insert_eq. nia.
    - rewrite list_lookup_insert_ne; [by apply Hc|]. intros Ek. apply E.
      destruct (pixel_inj W x y x' y') as [-> ->]; [lia|lia|nia|done]. }
  destruct (IH (x + 1) y color _ _ H1) as (fb' & Hf & Hl' & Hc'); [lia..|].
  replace (y * W + x + 1) with (y * W + (x + 1)) by lia. exists fb'. split; [done|]. split; [done|].
  intros x' y' Hx' Hy'. rewrite Hc' by done. f_equal. repeat case_bool_decide; try done; exfalso; lia.
Qed.

Lemma fill_rows_holds W H n : ∀ y x w color fb c,
  fb_holds W H fb c → 0 <= x → 0 <= w → x + w <= W → 0 <= y → y + Z.of_nat n <= H →
  ∃ fb', fill_rows n y x w color W fb = Some fb' ∧
    fb_holds W H fb' (λ x' y', if bool_decide (y <= y' < y + Z.of_nat n ∧ x <= x' < x + w) then color else c x' y').
Proof.
  induction n as [|n IH]; intros y x w color fb c Hc Hx Hw Hxw Hy Hn; cbn [fill_rows].
  { exists fb. split; [done|]. split; [apply Hc|]. intros x' y' Hx' Hy'. rewrite bool_decide_false by lia. by apply Hc. }
  destruct (fill_run_holds W H (Z.to_nat w) x y color fb c Hc) as (fb1 & -> & H1); [lia..|]. cbn [mbind option_bind].
  destruct (IH (y + 1) x w color fb1 _ H1) as (fb' & -> & Hl' & Hc'); [lia..|].
  exists fb'. split; [done|]. split; [done|]. intros x' y' Hx' Hy'. rewrite Hc' by done. f_equal.
  repeat case_bool_decide; try done; exfalso; lia.
Qed.

Lemma panel_fb p c : panel_shows p c → ∃ fb, s_fb p = Some fb ∧ fb_holds (s_width p) (s_height p) fb c.
Proof.
  intros [_ _ (fb & Hf & Hl & Hc)]. exists fb. split; [done|]. split; [done|]. intros x y Hx Hy. apply Hc. by split.
Qed.

Lemma with_fb_shows p c fb c' :
  panel_shows p c → fb_holds (s_width p) (s_height p) fb c' → panel_shows (with_fb fb p) c'.
Proof.
  intros [Hu Hs _] [Hl Hc]. split; [done|done|]. exists fb. split_and!; [done|done|]. intros x y [Hx Hy]. by apply Hc.
Qed.

Lemma panel_shows_ext p c c' : (∀ x y, on_panel p x y → c x y = c' x y) → panel_shows p c → panel_shows p c'.
Proof.
  intros He [Hu Hs (fb & Hf & Hl & Hc)]. split; [done|done|]. exists fb. split_and!; [done|done|].
  intros x y Hxy. rewrite <- He by done. by apply Hc.
Qed.

(** ** What the drawing operations do *)

Definition inside_rect (x y w h x' y' : Z) : bool := (x <=? x') && (x' <? x + w) && (y <=? y') && (y' <? y + h).

(** Whether a rectangle is drawn at all. *)
Definition rect_fits (p : panel) (x y w h : Z) : bool :=
  (0 <=? x) && (0 <=? y) && (x + w <=? s_width p) && (y + h <=? s_height p).

Lemma fill_rect_shows p c x y w h color :
  panel_shows p c → 0 <= w → 0 <= h →
  ∃ p', axs15231b_fill_rect x y w h color p = Some p' ∧ s_width p' = s_width p ∧ s_height p' = s_height p ∧
    panel_shows p' (λ x' y', if rect_fits p x y w h && inside_rect x y w h x' y' then color else c x' y').
Proof.
  intros Hp Hw Hh. unfold axs15231b_fill_rect, rect_fits.
  destruct (_ || _) eqn:Hg.
  { exists p. split_and!; [done..|]. eapply panel_shows_ext; [|exact Hp]. intros x' y' _.
    destruct (_ && inside_rect x y w h x' y') eqn:E; [|done]. exfalso. apply andb_true_iff in E as [E _]. bool_hyps.
    repeat (apply orb_true_iff in Hg as [Hg|Hg]); bool_hyps; lia. }
  repeat (apply orb_false_iff in Hg as [Hg ?]). bool_hyps.
  destruct (panel_fb p c Hp) as (fb & -> & Hfb). cbn [mbind option_bind]. pose proof (ps_size _ _ Hp) as (_ & _ & ->).
  destruct (fill_rows_holds (s_width p) (s_height p) (Z.to_nat h) y x w color fb c Hfb) as (fb' & -> & Hfb'); [lia..|].
  cbn [mbind option_bind]. eexists. split_and!; [done..|]. eapply panel_shows_ext; [|by apply (with_fb_shows p c)].
  intros x' y' _. cbv beta. rewrite !(proj2 (Z.leb_le _ _)) by lia. cbn [andb]. unfold inside_rect.
  case_bool_decide as E.
  - by rewrite !(proj2 (Z.leb_le _ _)), !(proj2 (Z.ltb_lt _ _)) by lia.
  - destruct (_ && _) eqn:F; [|done]. exfalso. bool_hyps. lia.
Qed.

Lemma fill_screen_shows p c color :
  panel_shows p c →
  ∃ p', axs15231b_fill_screen color p = Some p' ∧ s_width p' = s_width p ∧ s_height p' = s_height p ∧
    panel_shows p' (λ _ _, color).
Proof.
  intros Hp. unfold axs15231b_fill_screen. destruct (panel_fb p c Hp) as (fb & -> & Hfb). cbn [mbind option_bind].
  pose proof (ps_size _ _ Hp) as (Hw & Hh & ->).
  destruct (fill_rows_holds (s_width p) (s_height p) (Z.to_nat (s_height p)) 0 0 (s_width p) color fb c Hfb) as (fb' & -> & Hfb'); [lia..|].
  cbn [mbind option_bind]. eexists. split_and!; [done..|]. eapply panel_shows_ext; [|by apply (with_fb_shows p c)].
  intros x' y' [Hx Hy]. cbv beta. by rewrite bool_decide_true by (cbn in *; lia).
Qed.

(** ** What is sent *)

(** The pixels that reach the panel's memory. *)
Definition sent (e : spi_event) : list Z :=
  match e with
  | Transmit cmd _ data => if cmd =? QSPI_CMD_DATA_WRITE then data else []
  | Continue data => data
  | Backlight _ => []
  end.
Definition all_sent (es : list spi_event) : list Z := es ≫= sent.

Definition opens (e : spi_event) : bool := match e with Transmit cmd _ _ => cmd =? QSPI_CMD_DATA_WRITE | _ => false end.

Lemma all_sent_app es1 es2 : all_sent (es1 ++ es2) = all_sent es1 ++ all_sent es2.
Proof. apply bind_app. Qed.

Lemma flush_row_sends fuel fb : ∀ at_ remaining first,
  0 <= at_ → at_ + remaining <= Z.of_nat (length fb) → remaining <= Z.of_nat fuel →
  ∃ es first', flush_row fuel fb at_ remaining first = Some (es, first') ∧
    all_sent es = take (Z.to_nat remaining) (drop (Z.to_nat at_) fb) ≫= swapped ∧
    first' = (if 0 <? remaining then false else first) ∧
    length (List.filter opens es) = (if first && (0 <? remaining) then 1%nat else 0%nat).
Proof.
  induction fuel as [|fuel IH]; intros at_ remaining first Ha Hr Hf; cbn [flush_row];
    (destruct (Z.leb_spec remaining 0);
     [exists [], first; rewrite (proj2 (Z.ltb_ge 0 remaining)) by lia; rewrite andb_false_r;
      replace (Z.to_nat remaining) with 0%nat by lia; by rewrite take_0|]); [lia|].
  set (chunk := if remaining <? SWAP_BUF_PIXELS then remaining else SWAP_BUF_PIXELS).
  assert (0 < chunk <= remaining) as Hc by (subst chunk; unfold SWAP_BUF_PIXELS; case_if; bool_hyps; lia).
  clearbody chunk. rewrite (proj2 (Z.ltb_ge at_ 0)) by lia. cbn [orb].
  rewrite length_take, length_drop, Nat.min_l, Nat.eqb_refl by lia. cbn [negb].
  destruct (IH (at_ + chunk) (remaining - chunk) false) as (es & first' & -> & Hs & -> & Ho); [lia..|].
  cbn [mbind option_bind]. eexists _, _. split; [done|]. rewrite (proj2 (Z.ltb_lt 0 remaining)) by lia.
  rewrite andb_true_r. split_and!; [|by case_if|].
  - change (all_sent (?e :: es)) with (sent e ++ all_sent es). rewrite Hs.
    assert (∀ l, sent (if first then Transmit QSPI_CMD_DATA_WRITE QSPI_DATA_ADDR l else Continue l) = l) as -> by (by destruct first).
    rewrite <- bind_app. f_equal. rewrite Z2Nat.inj_add, <- drop_drop by lia.
    replace (Z.to_nat remaining) with (Z.to_nat chunk + Z.to_nat (remaining - chunk))%nat by lia. by rewrite take_take_drop.
  - cbn [List.filter]. destruct first; cbn [opens]; [|exact Ho].
    change (QSPI_CMD_DATA_WRITE =? QSPI_CMD_DATA_WRITE) with true. cbn [length]. by rewrite Ho.
Qed.

Lemma flush_rows_send p fb n : ∀ row first,
  0 < s_width p → s_stride p = s_width p → 0 <= row → (row + Z.of_nat n) * s_width p <= Z.of_nat (length fb) →
  ∃ es, flush_rows n row p fb first = Some es ∧
    all_sent es = take (n * Z.to_nat (s_width p)) (drop (Z.to_nat (row * s_width p)) fb) ≫= swapped ∧
    length (List.filter opens es) = (if first && (0 <? Z.of_nat n) then 1%nat else 0%nat).
Proof.
  intros row first Hw Hs. revert row first. induction n as [|n IH]; intros row first Hr Hl; cbn [flush_rows].
  { exists []. split_and!; [done|done|]. by rewrite andb_false_r. }
  rewrite Hs. destruct (flush_row_sends (Z.to_nat (s_width p)) fb (row * s_width p) (s_width p) first) as (es & f & -> & Hs1 & -> & Ho1);
    [nia|nia|lia|]. cbn [mbind option_bind].
  destruct (IH (row + 1) (if 0 <? s_width p then false else first)) as (es' & -> & Hs2 & Ho2); [lia|nia|]. cbn [mbind option_bind].
  rewrite (proj2 (Z.ltb_lt 0 (s_width p))) in Ho1, Ho2 by lia.
  exists (es ++ es'). split_and!; [done| |].
  - rewrite all_sent_app, Hs1, Hs2, <- bind_app. f_equal.
    replace ((row + 1) * s_width p) with (row * s_width p + s_width p) by lia.
    rewrite Z2Nat.inj_add, <- drop_drop by nia. cbn [Nat.mul]. by rewrite take_take_drop.
  - rewrite List.filter_app, length_app, Ho1, Ho2. rewrite andb_true_r. cbn [andb]. rewrite (proj2 (Z.ltb_lt 0 _)) by lia.
    by destruct first.
Qed.

(** A pixel read from two bytes. *)
Fixpoint read_pixels (bytes : list Z) : list Z :=
  match bytes with hi :: lo :: bytes' => hi * 256 + lo :: read_pixels bytes' | _ => [] end.

Lemma read_swapped fb : Forall is_u16 fb → read_pixels (fb ≫= swapped) = fb.
Proof.
  induction 1 as [|v fb Hv Hfb IH]; [done|]. change ((v :: fb) ≫= swapped) with (swapped v ++ (fb ≫= swapped)).
  cbn [swapped app read_pixels]. f_equal; [|done].
  unfold u8. rewrite Z.shiftr_div_pow2 by done. unfold is_u16 in Hv. zlia.
Qed.

(** Colours of sixteen bits on the whole panel are colours of sixteen bits in the buffer. *)
Lemma panel_u16 p c fb :
  panel_shows p c → s_fb p = Some fb → (∀ x y, on_panel p x y → is_u16 (c x y)) → Forall is_u16 fb.
Proof.
  intros Hp Hfb Hc. destruct (ps_size _ _ Hp) as (Hw & Hh & _). destruct (ps_fb _ _ Hp) as (fb' & Hfb' & Hl & Hlk).
  rewrite Hfb in Hfb'. injection Hfb' as <-. apply Forall_lookup. intros k v Hk. pose proof (lookup_lt_Some _ _ _ Hk) as Hlt.
  assert (on_panel p (Z.of_nat k mod s_width p) (Z.of_nat k / s_width p)) as Hxy.
  { split; [apply Z.mod_pos_bound; lia|]. split; [apply Z.div_pos; lia|]. apply Z.div_lt_upper_bound; lia. }
  pose proof (Hlk _ _ Hxy) as He. rewrite Z.mul_comm, <- Z.div_mod, Nat2Z.id, Hk in He by lia. injection He as ->. by apply Hc.
Qed.

Lemma flush_works p c : panel_shows p c → ∃ es, axs15231b_flush p = Some es.
Proof.
  intros Hp. destruct (ps_up _ _ Hp) as [Hspi Hswap]. destruct (ps_size _ _ Hp) as (Hw & Hh & Hst).
  destruct (ps_fb _ _ Hp) as (fb & Hfb & Hl & _). unfold axs15231b_flush. rewrite Hspi, Hfb, Hswap.
  destruct (flush_rows_send p fb (Z.to_nat (s_height p)) 0 true Hw Hst) as (es & -> & _); [lia|nia|]. by eexists.
Qed.

(** The panel gets the picture.  A flush tells the panel to write all of its memory,
    opens one transfer and sends every pixel of the buffer once, row by row, each with its
    high byte first: read two bytes at a time, what is sent is the picture. *)
Lemma flush_sends_picture p c :
  panel_shows p c → (∀ x y, on_panel p x y → is_u16 (c x y)) →
  ∃ es, axs15231b_flush p
      = Some (qspi_write_cmd_d16d16 CASET 0 (s_width p - 1) :: qspi_write_cmd_d16d16 RASET 0 (s_height p - 1) ::
              qspi_write_command RAMWR :: es) ∧
    length (List.filter opens es) = 1%nat ∧
    Z.of_nat (length (read_pixels (all_sent es))) = s_width p * s_height p ∧
    ∀ x y, on_panel p x y → read_pixels (all_sent es) !! Z.to_nat (y * s_width p + x) = Some (c x y).
Proof.
  intros Hp Hu. destruct (ps_up _ _ Hp) as [Hspi Hswap]. destruct (ps_size _ _ Hp) as (Hw & Hh & Hst).
  destruct (ps_fb _ _ Hp) as (fb & Hfb & Hl & Hc). pose proof (panel_u16 p c fb Hp Hfb Hu) as H16.
  unfold axs15231b_flush. rewrite Hspi, Hfb, Hswap.
  destruct (flush_rows_send p fb (Z.to_nat (s_height p)) 0 true Hw Hst) as (es & -> & Hs & Ho); [lia|nia|]. cbn [mbind option_bind].
  assert (all_sent es = fb ≫= swapped) as Hall.
  { rewrite Hs, Z.mul_0_l, drop_0, take_ge; [done|]. nia. }
  exists es. rewrite Hall, read_swapped by done. split_and!; [done| |done|exact Hc].
  rewrite Ho, (proj2 (Z.ltb_lt 0 _)) by lia. done.
Qed.

(** ** Start *)

(** A start that reports success leaves a black panel with its buffer; one that fails
    reports why, and sends nothing. *)
Lemma init_outcome bus device fb_ok swap_ok p :
  0 < s_width p → 0 < s_height p → s_stride p = s_width p →
  ∃ err p' es, axs15231b_init bus device fb_ok swap_ok p = Some (err, p', es) ∧
    ((err = ESP_OK ∧ panel_shows p' (λ _ _, 0) ∧ s_width p' = s_width p ∧ s_height p' = s_height p) ∨ (err ≠ ESP_OK ∧ es = [])).
Proof.
  intros Hw Hh Hs. unfold axs15231b_init.
  destruct (decide (bus = ESP_OK)) as [->|Hb]; [rewrite bool_decide_true by done|rewrite bool_decide_false by done]; cbn [negb].
  2:{ eexists _, _, _. split; [done|]. by right. }
  destruct (decide (device = ESP_OK)) as [->|Hd]; [rewrite bool_decide_true by done|rewrite bool_decide_false by done]; cbn [negb].
  2:{ eexists _, _, _. split; [done|]. by right. }
  destruct fb_ok; cbn [negb]; [|eexists _, _, _; split; [done|by right]].
  destruct swap_ok; cbn [negb]; [|eexists _, _, _; split; [done|by right]].
  cbn [with_fb s_spi s_fb s_width s_height s_stride s_swap_buf]. set (fb := replicate _ 0).
  assert (panel_shows (mk_panel true (Some fb) (s_width p) (s_height p) (s_stride p) true) (λ _ _, 0)) as Hp.
  { split; cbn [s_spi s_fb s_width s_height s_stride s_swap_buf]; [done|done|]. exists fb. subst fb. rewrite length_replicate.
    split_and!; [done|nia|]. intros x y [Hx Hy]. cbn in Hx, Hy. apply lookup_replicate_2. nia. }
  destruct (fill_screen_shows _ _ 0 Hp) as (p1 & -> & Hw1 & Hh1 & Hp1). cbn [mbind option_bind].
  destruct (flush_works p1 _ Hp1) as [es ->]. cbn [mbind option_bind].
  eexists _, _, _. split; [done|]. left. cbn in Hw1, Hh1. by split_and!.
Qed.
