(* ===== verification/Font.v ===== *)
(** The glyphs of the screen (main/font.c): eight rows of eight pixels for each ASCII
    character, the leftmost pixel in the highest bit. *)

From S2P Require Import Prelude.
#[local] Open Scope Z_scope.

Definition font8x8_basic : list (list Z) :=
  [[0; 0; 0; 0; 0; 0; 0; 0]; [0; 0; 0; 0; 0; 0; 0; 0]; [0; 0; 0; 0; 0; 0; 0; 0]; [0; 0; 0; 0; 0; 0; 0; 0];
   [0; 0; 0; 0; 0; 0; 0; 0]; [0; 0; 0; 0; 0; 0; 0; 0]; [0; 0; 0; 0; 0; 0; 0; 0]; [0; 0; 0; 0; 0; 0; 0; 0];
   [0; 0; 0; 0; 0; 0; 0; 0]; [0; 0; 0; 0; 0; 0; 0; 0]; [0; 0; 0; 0; 0; 0; 0; 0]; [0; 0; 0; 0; 0; 0; 0; 0];
   [0; 0; 0; 0; 0; 0; 0; 0]; [0; 0; 0; 0; 0; 0; 0; 0]; [0; 0; 0; 0; 0; 0; 0; 0]; [0; 0; 0; 0; 0; 0; 0; 0];
   [0; 0; 0; 0; 0; 0; 0; 0]; [0; 0; 0; 0; 0; 0; 0; 0]; [0; 0; 0; 0; 0; 0; 0; 0]; [0; 0; 0; 0; 0; 0; 0; 0];
   [0; 0; 0; 0; 0; 0; 0; 0]; [0; 0; 0; 0; 0; 0; 0; 0]; [0; 0; 0; 0; 0; 0; 0; 0]; [0; 0; 0; 0; 0; 0; 0; 0];
   [0; 0; 0; 0; 0; 0; 0; 0]; [0; 0; 0; 0; 0; 0; 0; 0]; [0; 0; 0; 0; 0; 0; 0; 0]; [0; 0; 0; 0; 0; 0; 0; 0];
   [0; 0; 0; 0; 0; 0; 0; 0]; [0; 0; 0; 0; 0; 0; 0; 0]; [0; 0; 0; 0; 0; 0; 0; 0]; [0; 0; 0; 0; 0; 0; 0; 0];
   [0; 0; 0; 0; 0; 0; 0; 0]; [24; 24; 24; 24; 24; 0; 24; 0]; [102; 102; 0; 0; 0; 0; 0; 0];
   [102; 255; 102; 102; 255; 102; 0; 0]; [24; 62; 88; 60; 26; 124; 24; 0]; [98; 102; 12; 24; 48; 102; 70; 0];
   [60; 102; 60; 56; 103; 102; 63; 0]; [24; 24; 48; 0; 0; 0; 0; 0]; [12; 24; 48; 48; 48; 24; 12; 0];
   [48; 24; 12; 12; 12; 24; 48; 0]; [0; 102; 60; 255; 60; 102; 0; 0]; [0; 24; 24; 126; 24; 24; 0; 0];
   [0; 0; 0; 0; 0; 24; 24; 48]; [0; 0; 0; 126; 0; 0; 0; 0]; [0; 0; 0; 0; 0; 24; 24; 0];
   [6; 12; 24; 48; 96; 192; 128; 0]; [60; 102; 110; 126; 118; 102; 60; 0]; [24; 56; 24; 24; 24; 24; 126; 0];
   [60; 102; 6; 28; 48; 96; 126; 0]; [60; 102; 6; 28; 6; 102; 60; 0]; [28; 60; 108; 108; 126; 12; 12; 0];
   [126; 96; 124; 6; 6; 102; 60; 0]; [28; 48; 96; 124; 102; 102; 60; 0]; [126; 6; 12; 24; 48; 48; 48; 0];
   [60; 102; 102; 60; 102; 102; 60; 0]; [60; 102; 102; 62; 6; 12; 56; 0]; [0; 0; 24; 24; 0; 24; 24; 0];
   [0; 0; 24; 24; 0; 24; 24; 48]; [12; 24; 48; 96; 48; 24; 12; 0]; [0; 0; 126; 0; 126; 0; 0; 0];
   [48; 24; 12; 6; 12; 24; 48; 0]; [60; 102; 12; 24; 24; 0; 24; 0]; [60; 102; 110; 106; 110; 96; 60; 0];
   [60; 102; 102; 126; 102; 102; 102; 0]; [124; 102; 102; 124; 102; 102; 124; 0];
   [60; 102; 96; 96; 96; 102; 60; 0]; [120; 108; 102; 102; 102; 108; 120; 0]; [126; 96; 96; 124; 96; 96; 126; 0];
   [126; 96; 96; 124; 96; 96; 96; 0]; [60; 102; 96; 110; 102; 102; 60; 0]; [102; 102; 102; 126; 102; 102; 102; 0];
   [60; 24; 24; 24; 24; 24; 60; 0]; [30; 12; 12; 12; 12; 108; 56; 0]; [102; 108; 120; 112; 120; 108; 102; 0];
   [96; 96; 96; 96; 96; 96; 126; 0]; [99; 119; 127; 107; 99; 99; 99; 0]; [102; 118; 126; 126; 110; 102; 102; 0];
   [60; 102; 102; 102; 102; 102; 60; 0]; [124; 102; 102; 124; 96; 96; 96; 0];
   [60; 102; 102; 102; 106; 108; 54; 0]; [124; 102; 102; 124; 108; 102; 102; 0]; [60; 102; 96; 60; 6; 102; 60; 0];
   [126; 24; 24; 24; 24; 24; 24; 0]; [102; 102; 102; 102; 102; 102; 60; 0]; [102; 102; 102; 102; 102; 60; 24; 0];
   [99; 99; 99; 107; 127; 119; 99; 0]; [102; 102; 60; 24; 60; 102; 102; 0]; [102; 102; 102; 60; 24; 24; 24; 0];
   [126; 6; 12; 24; 48; 96; 126; 0]; [60; 48; 48; 48; 48; 48; 60; 0]; [192; 96; 48; 24; 12; 6; 3; 0];
   [60; 12; 12; 12; 12; 12; 60; 0]; [24; 60; 102; 0; 0; 0; 0; 0]; [0; 0; 0; 0; 0; 0; 255; 0];
   [24; 24; 12; 0; 0; 0; 0; 0]; [0; 0; 60; 6; 62; 102; 62; 0]; [96; 96; 124; 102; 102; 102; 124; 0];
   [0; 0; 60; 102; 96; 102; 60; 0]; [6; 6; 62; 102; 102; 102; 62; 0]; [0; 0; 60; 102; 126; 96; 60; 0];
   [28; 54; 48; 124; 48; 48; 48; 0]; [0; 0; 62; 102; 102; 62; 6; 60]; [96; 96; 124; 102; 102; 102; 102; 0];
   [24; 0; 56; 24; 24; 24; 60; 0]; [12; 0; 28; 12; 12; 12; 108; 56]; [96; 96; 102; 108; 120; 108; 102; 0];
   [56; 24; 24; 24; 24; 24; 60; 0]; [0; 0; 236; 254; 214; 214; 214; 0]; [0; 0; 124; 102; 102; 102; 102; 0];
   [0; 0; 60; 102; 102; 102; 60; 0]; [0; 0; 124; 102; 102; 124; 96; 96]; [0; 0; 62; 102; 102; 62; 6; 6];
   [0; 0; 124; 102; 96; 96; 96; 0]; [0; 0; 62; 96; 60; 6; 124; 0]; [48; 48; 124; 48; 48; 54; 28; 0];
   [0; 0; 102; 102; 102; 102; 62; 0]; [0; 0; 102; 102; 102; 60; 24; 0]; [0; 0; 214; 214; 214; 254; 108; 0];
   [0; 0; 102; 60; 24; 60; 102; 0]; [0; 0; 102; 102; 102; 62; 6; 60]; [0; 0; 126; 12; 24; 48; 126; 0];
   [12; 24; 24; 112; 24; 24; 12; 0]; [24; 24; 24; 24; 24; 24; 24; 0]; [48; 24; 24; 14; 24; 24; 48; 0];
   [0; 0; 49; 107; 70; 0; 0; 0]; [0; 0; 0; 0; 0; 0; 0; 0]].

(** There is a glyph for every character below 128, each of eight bytes. *)
Lemma font_shape : length font8x8_basic = 128%nat ∧ Forall (λ g, length g = 8%nat ∧ Forall is_u8 g) font8x8_basic.
Proof. split; [done|]. apply (bool_decide_unpack _). vm_compute. exact I. Qed.
