(* ===== verification/Screen.v ===== *)
(** The screens of the gate (main/display.c): the rectangles that draw texts and QR
    codes, the five screens, and that a reader of the panel gets the text of the code
    back.  A screen is the list of its drawing operations, in order; a [None] of a screen
    is an access outside a buffer by the QR encoder. *)

From S2P Require Import Prelude CStr F64 Json Config QrBits QrField QrBlocks QrGrid QrCode Display Panel Font.
#[local] Open Scope Z_scope.

Definition COLOR_BG : Z := 0x0000.
Definition COLOR_WHITE : Z := 0xFFFF.
Definition COLOR_CYAN : Z := 0x07FF.
Definition COLOR_YELLOW : Z := 0xFFE0.
Definition COLOR_GREEN : Z := 0x07E0.
Definition COLOR_ORANGE : Z := 0xFD20.
Definition COLOR_RED : Z := 0xF800.
Definition COLOR_DIM : Z := 0x8410.

(** A call of [axs15231b_fill_rect] or [axs15231b_fill_screen]. *)
Inductive draw_op :=
| FillRect (x y w h color : Z)
| FillScreen (color : Z).

Definition run_op (op : draw_op) (p : panel) : option panel :=
  match op with
  | FillRect x y w h color => axs15231b_fill_rect x y w h color p
  | FillScreen color => axs15231b_fill_screen color p
  end.
Fixpoint run_ops (ops : list draw_op) (p : panel) : option panel :=
  match ops with [] => Some p | op :: ops' => p' ← run_op op p; run_ops ops' p' end.

Definition wallet_color (d : display) : Z :=
  if ds_wallet_balance d =? 0 then COLOR_RED else if ds_wallet_balance d <? 100 then COLOR_YELLOW else COLOR_GREEN.

(** * Codes *)

(** The modules of a symbol, row by row, [px] pixels each. *)
Definition module_ops (size cx cy px : Z) (sym : plane) : list draw_op :=
  seqZ 0 size ≫= λ y, (λ x,
    FillRect (cx + x * px) (cy + y * px) px px (if sym x y then COLOR_WHITE else COLOR_BG)) <$> seqZ 0 size.

(** [malloc_ok]: there is memory for the modules. *)
Definition render_qr_at (malloc_ok : bool) (text : string) (x_off y_off max_w max_h : Z) : option (list draw_op) :=
  let len := Z.of_nat (String.length text) in
  let version := qr_version_from_strlen len in
  let px := qr_pixel_size len in
  if negb malloc_ok then Some [] else
  qr ← qrcode_initText version ECC_LOW text;
  let '(cx, cy) := qr_origin x_off y_off max_w max_h (qc_size qr * px) in
  Some (module_ops (qc_size qr) cx cy px (symbol qr)).

(** * Texts *)

(** The pixels of a glyph, each [scale] wide. *)
Definition glyph_ops (screen_w screen_h cx cy ch fg bg scale : Z) : list draw_op :=
  let glyph := font8x8_basic !!! Z.to_nat ch in
  seqZ 0 FONT_GLYPH_H ≫= λ row, seqZ 0 FONT_GLYPH_W ≫= λ col,
    let color := if Z.land (glyph !!! Z.to_nat row) (Z.shiftr 0x80 col) =? 0 then bg else fg in
    let px := cx + col * scale in
    let py := cy + row * scale in
    if (px <? screen_w) && (py <? screen_h) then [FillRect px py scale scale color] else [].

(** The loop of [display_render_text] from the cursor [(cx, cy)]. *)
Fixpoint text_ops (screen_w screen_h x fg bg scale cx cy : Z) (text : string) : list draw_op :=
  match text with
  | EmptyString => []
  | String c text' =>
      let ch := if 128 <=? ord c then 63 else ord c in
      let wrap := screen_w <? cx + FONT_GLYPH_W * scale in
      let cx := if wrap then x else cx in
      let cy := if wrap then cy + FONT_GLYPH_H * scale else cy in
      if screen_h <? cy + FONT_GLYPH_H * scale then [] else
      glyph_ops screen_w screen_h cx cy ch fg bg scale ++
      text_ops screen_w screen_h x fg bg scale (cx + FONT_GLYPH_W * scale) cy text'
  end.

Definition display_render_text (screen_w screen_h x y : Z) (text : string) (fg bg scale : Z) : list draw_op :=
  text_ops screen_w screen_h x fg bg scale x y text.

(** A text in the middle of a line. *)
Definition centered (screen_w screen_h y : Z) (text : string) (fg bg scale : Z) : list draw_op :=
  display_render_text screen_w screen_h (Z.quot (screen_w - Z.of_nat (String.length text) * 8 * scale) 2) y text fg bg scale.

(** * Screens *)

Section Screens.
Context (malloc_ok : bool) (cfg : tollgate_config_t) (d : display) (screen_w screen_h : Z).

Notation text_at := (display_render_text screen_w screen_h).
Notation middle := (centered screen_w screen_h).
Definition wifi_text : string := build_wifi_qr_string (ds_ap_ssid d) (cf_ap_password cfg) 320.

Definition render_boot_screen : option (list draw_op) :=
  qr ← render_qr_at malloc_ok wifi_text 0 10 screen_w 220;
  Some (FillScreen COLOR_BG :: qr ++
    middle 240 "TollGate" COLOR_CYAN COLOR_BG 2 ++
    middle 268 (ds_wifi_status d) COLOR_YELLOW COLOR_BG 1 ++
    middle 295 (str_take 319 ("SSID: " +:+ ds_ap_ssid d)%string) COLOR_DIM COLOR_BG 1 ++
    middle 315 "Scan QR to connect" COLOR_DIM COLOR_BG 1).

Definition render_ready_screen : option (list draw_op) :=
  let y := 330 in
  let text := match ds_qr_mode d with DISPLAY_QR_WIFI => wifi_text | DISPLAY_QR_PORTAL => strncpy 319 (ds_portal_url d) end in
  qr ← render_qr_at malloc_ok text 0 5 screen_w (y - 10);
  Some (FillScreen COLOR_BG :: qr ++
    match ds_qr_mode d with
    | DISPLAY_QR_WIFI =>
        text_at 10 y "Scan to connect" COLOR_CYAN COLOR_BG 1 ++
        text_at 10 (y + 16) (str_take 47 ("SSID: " +:+ ds_ap_ssid d)%string) COLOR_WHITE COLOR_BG 1
    | DISPLAY_QR_PORTAL =>
        text_at 10 y "Portal URL" COLOR_CYAN COLOR_BG 1 ++
        text_at 10 (y + 16) (str_take 47 ("Mint: " +:+ str_take 30 (extract_domain (ds_mint_url d) 48))%string) COLOR_ORANGE COLOR_BG 1
    end ++
    text_at 10 (y + 32) (str_take 47 (print_d (ds_price_per_step d) +:+ " sats/min")%string) COLOR_ORANGE COLOR_BG 1 ++
    text_at 10 (y + 48) (str_take 47 ("Wallet: " +:+ print_u (ds_wallet_balance d) +:+ " sats")%string) (wallet_color d) COLOR_BG 1 ++
    if 0 <? ds_active_clients d then
      text_at 10 (y + 64) (str_take 47 ("Clients: " +:+ print_d (ds_active_clients d))%string) COLOR_GREEN COLOR_BG 1
    else []).

Definition render_setup_pending_screen : option (list draw_op) :=
  qr ← render_qr_at malloc_ok wifi_text 0 5 screen_w 280;
  let y := 290 in
  Some (FillScreen COLOR_BG :: qr ++
    middle y "WiFi Setup" COLOR_CYAN COLOR_BG 1 ++
    text_at 10 (y + 20) (str_take 63 ("SSID: " +:+ ds_ap_ssid d)%string) COLOR_WHITE COLOR_BG 1 ++
    text_at 10 (y + 38) "1. Connect to WiFi above" COLOR_DIM COLOR_BG 1 ++
    text_at 10 (y + 54) "2. Open browser, go to:" COLOR_DIM COLOR_BG 1 ++
    text_at 10 (y + 72) (str_take 63 ("http://" +:+ cf_ap_ip_str cfg +:+ "/setup")%string) COLOR_YELLOW COLOR_BG 1 ++
    text_at 10 (y + 94) "3. Configure upstream WiFi" COLOR_DIM COLOR_BG 1).

Definition render_payment_screen : list draw_op :=
  FillScreen COLOR_BG :: FillRect 0 190 screen_w 50 COLOR_GREEN ::
    middle 202 "ACCESS GRANTED" COLOR_WHITE COLOR_GREEN 2 ++
    match payment_lines d with
    | [paid; time; wallet] =>
        middle 270 paid COLOR_WHITE COLOR_BG 1 ++ middle 290 time COLOR_WHITE COLOR_BG 1 ++
        middle 320 wallet (wallet_color d) COLOR_BG 1
    | _ => []
    end.

Definition render_error_screen : option (list draw_op) :=
  qr ← render_qr_at malloc_ok wifi_text 0 5 screen_w 150;
  let y := 210 in
  Some (FillScreen COLOR_BG :: qr ++ [FillRect 0 160 screen_w 36 COLOR_RED] ++
    middle 170 "NO UPSTREAM" COLOR_WHITE COLOR_RED 2 ++
    middle y "Internet unavailable" COLOR_WHITE COLOR_BG 1 ++
    middle (y + 20) "AP still active" COLOR_GREEN COLOR_BG 1 ++
    middle (y + 40) (str_take 63 ("SSID: " +:+ ds_ap_ssid d)%string) COLOR_DIM COLOR_BG 1 ++
    middle (y + 60) (str_take 63 ("http://" +:+ cf_ap_ip_str cfg +:+ "/setup")%string) COLOR_YELLOW COLOR_BG 1 ++
    middle (y + 76) "Scan QR to connect" COLOR_DIM COLOR_BG 1).

(** The screen that a turn of the task draws. *)
Definition render (state : display_state_t) : option (list draw_op) :=
  match state with
  | DISPLAY_BOOT => render_boot_screen
  | DISPLAY_READY => render_ready_screen
  | DISPLAY_PAYMENT_RECEIVED => Some render_payment_screen
  | DISPLAY_ERROR => render_error_screen
  | DISPLAY_SETUP_PENDING => render_setup_pending_screen
  end.

End Screens.

(** Every screen ends with a flush. *)
Definition draw_screen (ops : list draw_op) (p : panel) : option (panel * list spi_event) :=
  p ← run_ops ops p;
  es ← axs15231b_flush p;
  Some (p, es).

(** A screen drawn and flushed: the panel after it and what goes over the bus. *)
Definition render_screen (malloc_ok : bool) (cfg : tollgate_config_t) (d : display) (state : display_state_t) (p : panel)
  : option (panel * list spi_event) :=
  ops ← render malloc_ok cfg d (s_width p) (s_height p) state;
  draw_screen ops p.

Definition display_render_qr (malloc_ok : bool) (text : string) (p : panel) : option (panel * list spi_event) :=
  qr ← render_qr_at malloc_ok text 0 0 (s_width p) (s_height p);
  draw_screen (FillScreen COLOR_BG :: qr) p.

(** * What is painted where *)

Definition op_covers (W H : Z) (op : draw_op) (X Y : Z) : bool :=
  match op with
  | FillRect x y w h _ => (0 <=? x) && (0 <=? y) && (x + w <=? W) && (y + h <=? H) && inside_rect x y w h X Y
  | FillScreen _ => true
  end.
Definition op_color (op : draw_op) : Z := match op with FillRect _ _ _ _ color | FillScreen color => color end.
Definition op_ok (op : draw_op) : Prop := match op with FillRect _ _ w h _ => 0 <= w ∧ 0 <= h | FillScreen _ => True end.

(** The colour of the last operation that covers a pixel. *)
Fixpoint painted (W H : Z) (ops : list draw_op) (X Y : Z) : option Z :=
  match ops with
  | [] => None
  | op :: ops' =>
      match painted W H ops' X Y with
      | Some c => Some c
      | None => if op_covers W H op X Y then Some (op_color op) else None
      end
  end.

Lemma run_ops_shows ops : ∀ p c,
  panel_shows p c → Forall op_ok ops →
  ∃ p', run_ops ops p = Some p' ∧ s_width p' = s_width p ∧ s_height p' = s_height p ∧
    panel_shows p' (λ X Y, default (c X Y) (painted (s_width p) (s_height p) ops X Y)).
Proof.
  induction ops as [|op ops IH]; intros p c Hp Hops; cbn [run_ops].
  { exists p. by split_and!. }
  apply Forall_cons_1 in Hops as [Hop Hops].
  assert (∃ p1, run_op op p = Some p1 ∧ s_width p1 = s_width p ∧ s_height p1 = s_height p ∧
    panel_shows p1 (λ X Y, if op_covers (s_width p) (s_height p) op X Y then op_color op else c X Y)) as (p1 & -> & Hw1 & Hh1 & Hp1).
  { destruct op as [x y w h color|color]; cbn [run_op op_ok] in *.
    - destruct Hop. by apply (fill_rect_shows p c x y w h color).
    - destruct (fill_screen_shows p c color Hp) as (p1 & H1). by exists p1. }
  cbn [mbind option_bind]. destruct (IH p1 _ Hp1 Hops) as (p' & -> & Hw & Hh & Hp'). rewrite Hw1, Hh1 in *.
  exists p'. split_and!; [done..|]. eapply panel_shows_ext; [|exact Hp']. intros X Y _. cbv beta. cbn [painted].
  destruct (painted _ _ ops X Y); [done|]. cbn [default]. by destruct (op_covers _ _ op X Y).
Qed.

Lemma painted_app W H ops1 ops2 X Y :
  painted W H (ops1 ++ ops2) X Y = match painted W H ops2 X Y with Some c => Some c | None => painted W H ops1 X Y end.
Proof.
  induction ops1 as [|op ops1 IH]; cbn [app painted]; [by destruct (painted W H ops2 X Y)|].
  rewrite IH. by destruct (painted W H ops2 X Y).
Qed.

(** Nothing is painted where no operation reaches. *)
Lemma painted_None W H ops X Y : Forall (λ op, op_covers W H op X Y = false) ops → painted W H ops X Y = None.
Proof. induction 1 as [|op ops Hop _ IH]; [done|]. cbn [painted]. by rewrite IH, Hop. Qed.

(** One colour is painted where all operations that reach agree on it. *)
Lemma painted_unique W H ops X Y c :
  Exists (λ op, op_covers W H op X Y = true) ops → Forall (λ op, op_covers W H op X Y = true → op_color op = c) ops →
  painted W H ops X Y = Some c.
Proof.
  intros Hex Hall. induction Hall as [|op ops Hop Hall IH]; [by apply Exists_nil in Hex|]. cbn [painted].
  destruct (decide (Exists (λ op, op_covers W H op X Y = true) ops)) as [Hin|Hno]; [by rewrite IH|].
  rewrite painted_None.
  - apply Exists_cons in Hex as [Hc|Hin]; [by rewrite Hc, Hop|done].
  - apply not_Exists_Forall in Hno; [|apply _]. eapply Forall_impl; [exact Hno|]. cbv beta. intros o Ho. by apply not_true_is_false.
Qed.

(** ** Texts stay below their line *)

Definition below (y : Z) (op : draw_op) : Prop :=
  match op with FillRect _ y' w h color => y <= y' ∧ 0 <= w ∧ 0 <= h ∧ is_u16 color | FillScreen _ => False end.

Lemma below_mono y y' op : y <= y' → below y' op → below y op.
Proof. destruct op; cbn; [intros ? (?&?&?&?); split_and!; [lia|done..]|done]. Qed.

Lemma glyph_below W H cx cy ch fg bg scale :
  0 <= scale → is_u16 fg → is_u16 bg → Forall (below cy) (glyph_ops W H cx cy ch fg bg scale).
Proof.
  intros Hs Hfg Hbg. unfold glyph_ops. apply Forall_forall. intros op (row & Hop & Hrow)%list_elem_of_bind.
  apply list_elem_of_bind in Hop as (col & Hop & Hcol). rewrite elem_of_seqZ in *. cbv zeta in Hop.
  destruct (_ && _) in Hop; [|by apply not_elem_of_nil in Hop]. apply list_elem_of_singleton in Hop as ->.
  split_and!; [nia|done|done|by case_if].
Qed.

Lemma text_below W H x y text fg bg scale :
  0 <= scale → is_u16 fg → is_u16 bg → Forall (below y) (display_render_text W H x y text fg bg scale).
Proof.
  intros Hs Hfg Hbg. unfold display_render_text. assert (y <= y) as Hy by lia. revert Hy. generalize y at 2 4 as cy. generalize x at 2 as cx.
  induction text as [|c text IH]; intros cx cy Hy; cbn [text_ops]; [constructor|].
  set (cy' := if _ <? _ then cy + _ else cy). assert (y <= cy') as Hy' by (subst cy'; unfold FONT_GLYPH_H; case_if; lia).
  case_if; [constructor|]. apply Forall_app. split; [|by apply IH].
  eapply Forall_impl; [by apply glyph_below|]. intros op. by apply below_mono.
Qed.

Lemma centered_below W H y text fg bg scale :
  0 <= scale → is_u16 fg → is_u16 bg → Forall (below y) (centered W H y text fg bg scale).
Proof. apply text_below. Qed.

Lemma below_covers W H y op X Y : below y op → Y < y → op_covers W H op X Y = false.
Proof.
  destruct op; [|done]. cbn. intros [Hy _] HY. unfold inside_rect.
  rewrite (proj2 (Z.leb_gt _ Y)) by lia. by rewrite !andb_false_r, ?andb_false_l.
Qed.

Lemma below_ok y op : below y op → op_ok op.
Proof. destruct op; cbn; [by intros (_&?&?&_)|done]. Qed.

Lemma below_u16 y op : below y op → is_u16 (op_color op).
Proof. destruct op; cbn; [by intros (_ & _ & _ & ?)|done]. Qed.

(** ** Modules *)

Lemma module_ops_ok size cx cy px sym : 0 <= px → Forall op_ok (module_ops size cx cy px sym).
Proof.
  intros Hp. unfold module_ops. apply Forall_forall. intros op (y & Hop & _)%list_elem_of_bind.
  apply list_elem_of_fmap in Hop as (x & -> & _). done.
Qed.

Lemma module_ops_u16 size cx cy px sym : Forall (λ op, is_u16 (op_color op)) (module_ops size cx cy px sym).
Proof.
  unfold module_ops. apply Forall_forall. intros op (y & Hop & _)%list_elem_of_bind.
  apply list_elem_of_fmap in Hop as (x & -> & _). cbn [op_color]. by case_if.
Qed.

(** Every pixel of a module has the colour of the module. *)
Lemma module_ops_painted W H size cx cy px sym x y dx dy :
  0 <= cx → 0 <= cy → cx + size * px <= W → cy + size * px <= H → in_grid size x y → 0 <= dx < px → 0 <= dy < px →
  painted W H (module_ops size cx cy px sym) (cx + x * px + dx) (cy + y * px + dy)
  = Some (if sym x y then COLOR_WHITE else COLOR_BG).
Proof.
  intros Hcx Hcy HW HH [Hx Hy] Hdx Hdy. apply painted_unique; unfold module_ops.
  - apply Exists_exists. exists (FillRect (cx + x * px) (cy + y * px) px px (if sym x y then COLOR_WHITE else COLOR_BG)). split.
    + apply list_elem_of_bind. exists y. rewrite elem_of_seqZ. split; [|lia]. apply list_elem_of_fmap. exists x.
      by rewrite elem_of_seqZ.
    + cbn. unfold inside_rect. assert (x * px + px <= size * px) by nia. assert (y * px + px <= size * px) by nia.
      assert (0 <= x * px) by nia. assert (0 <= y * px) by nia.
      by rewrite !(proj2 (Z.leb_le _ _)), !(proj2 (Z.ltb_lt _ _)) by lia.
  - apply Forall_forall. intros op (y' & Hop & Hy')%list_elem_of_bind.
    apply list_elem_of_fmap in Hop as (x' & -> & Hx'). rewrite elem_of_seqZ in *. cbn. unfold inside_rect. intros Hc. bool_hyps.
    assert (x' = x) as -> by nia. assert (y' = y) as -> by nia. done.
Qed.

(** ** Every text has a code *)

Lemma text_has_code text :
  let len := Z.of_nat (String.length text) in
  let version := qr_version_from_strlen len in
  len <= 319 → small_version version ∧ fits_symbol version ECC_LOW (str_bytes text).
Proof.
  intros len version Hl. destruct (qr_version_holds len ltac:(lia)) as (Hv & Hbits & _). fold version in Hv, Hbits.
  split; [exact Hv|]. split.
  - rewrite length_str_bytes. fold len.
    assert (∀ m, m = MODE_NUMERIC ∨ m = MODE_ALPHANUMERIC ∨ m = MODE_BYTE → len < 2 ^ getModeBits version m) as Hm.
    { subst version. unfold qr_version_from_strlen.
      intros m Hm. repeat (match goal with |- context [len <=? ?b] => destruct (Z.leb_spec len b) end);
        destruct Hm as [->|[->| ->]]; vm_compute getModeBits; lia. }
    apply Hm. unfold mode_of. repeat case_if; auto.
  - destruct (decide (str_bytes text = [])) as [E|Hne].
    + rewrite E. assert (len = 0) as Hl0 by (unfold len; rewrite <- length_str_bytes, E; done).
      subst version. rewrite Hl0. vm_compute. done.
    + pose proof (encoded_length version (str_bytes text) ltac:(lia) Hne) as He. rewrite length_str_bytes in He. fold len in He.
      unfold qr_bits in Hbits. lia.
Qed.

(** ** The screens with a code *)

Lemma wallet_color_u16 d : is_u16 (wallet_color d).
Proof. unfold wallet_color. by repeat case_if. Qed.
#[local] Hint Resolve wallet_color_u16 : core.

(** Every operation of a list of texts and rectangles is below the line. *)
Ltac all_below :=
  intros; repeat apply Forall_app_2;
  repeat (apply Forall_cons_2; [cbn; unfold is_u16, COLOR_RED, COLOR_GREEN; lia|]); try apply Forall_nil_2;
  try (eapply Forall_impl; [first [apply text_below|apply centered_below]; done|]; intros ?; apply below_mono; lia).

(** A screen with a code is the background, the code in an area of its own, and
    everything else below that area. *)
Lemma render_with_code cfg d state text W H :
  qr_text (cf_ap_password cfg) d state = Some text →
  ∃ y_off max_h ty rest, 0 <= y_off ∧ 123 <= max_h ∧ y_off + max_h <= ty <= 330 ∧ (0 <= W → Forall (below ty) rest) ∧
    render true cfg d W H state
    = (qr ← render_qr_at true text 0 y_off W max_h; Some (FillScreen COLOR_BG :: qr ++ rest)).
Proof.
  intros Ht. destruct state; cbn [qr_text] in Ht; [| |discriminate| |]; injection Ht as <-; cbn [render].
  - exists 10, 220, 240. eexists. split_and!; [lia..| |reflexivity]. all_below.
  - exists 5, 320, 330. eexists. split_and!; [lia..| |reflexivity].
    all_below; [destruct (ds_qr_mode d); all_below|case_if; [all_below|done]].
  - exists 5, 150, 160. eexists. split_and!; [lia..| |reflexivity]. all_below.
  - exists 5, 280, 290. eexists. split_and!; [lia..| |reflexivity]. all_below.
Qed.

(** What a flush sends for the pixel in column [x] of row [y]. *)
Definition sent_pixel (W : Z) (es : list spi_event) (x y : Z) : option Z :=
  read_pixels (all_sent es) !! Z.to_nat (y * W + x).

(** The panel as a reader sees it, through one pixel [(dx, dy)] of every module of a code
    at [(cx, cy)] with modules of [px] pixels. *)
Definition seen (W : Z) (es : list spi_event) (cx cy px dx dy : Z) : plane := λ x y,
  bool_decide (sent_pixel W es (cx + x * px + dx) (cy + y * px + dy) = Some COLOR_WHITE).

(** The code that is drawn for a text, and where. *)
Lemma code_drawn text y_off max_h :
  let len := Z.of_nat (String.length text) in
  let version := qr_version_from_strlen len in
  let px := qr_pixel_size len in
  let size := 4 * version + 17 in
  len <= 319 → 0 <= y_off → 123 <= max_h →
  ∃ cx cy sym, render_qr_at true text 0 y_off 320 max_h = Some (module_ops size cx cy px sym) ∧
    small_version version ∧ 0 < px ∧ 0 <= cx ∧ cx + size * px <= 320 ∧ 0 <= cy ∧ cy + size * px <= y_off + max_h ∧
    read_symbol version sym = Some (str_bytes text).
Proof.
  intros len version px size Hl Hy Hh.
  destruct (text_has_code text Hl) as [Hv Hf]. destruct (qr_version_holds len ltac:(lia)) as (_ & _ & Hpx).
  fold len version in Hv, Hf. assert (level ECC_LOW) as HL by (unfold level, ECC_LOW; lia).
  destruct (initBytes_symbol version ECC_LOW _ Hv HL Hf) as (qr & p0 & data & cw & Hqr & Hsy).
  unfold render_qr_at. fold len version px. cbn [negb]. rewrite initText_bytes, Hqr by lia. cbn [mbind option_bind].
  rewrite (sy_size _ _ _ _ _ _ _ Hsy). fold size. unfold qr_origin. unfold qr_px, qr_size in Hpx. fold version px in Hpx.
  assert (0 < px) as Hp by (subst px; unfold qr_pixel_size; repeat case_if; lia).
  replace (version * 4 + 17) with size in Hpx by (subst size; lia).
  rewrite !Z.quot_div_nonneg by lia. eexists _, _, (symbol qr). split; [done|].
  split_and!; [done|done|lia|zlia|lia|zlia|].
  by apply (symbol_reads version ECC_LOW _ qr p0 data cw Hv HL Hsy); [apply str_bytes_u8|apply Hf].
Qed.

Lemma flush_frame p c :
  panel_shows p c → (∀ x y, on_panel p x y → is_u16 (c x y)) →
  ∃ es, axs15231b_flush p = Some es ∧ ∀ x y, on_panel p x y → sent_pixel (s_width p) es x y = Some (c x y).
Proof.
  intros Hp Hc. destruct (flush_sends_picture p c Hp Hc) as (es & -> & _ & _ & Hs). eexists. split; [done|].
  intros x y Hxy. by apply Hs.
Qed.

Lemma painted_u16 W H ops X Y c :
  Forall (λ op, is_u16 (op_color op)) ops → painted W H ops X Y = Some c → is_u16 c.
Proof.
  induction 1 as [|op ops Hop _ IH]; cbn [painted]; [done|].
  destruct (painted W H ops X Y); [by intros [= ->]; apply IH|]. by case_if; intros [= <-].
Qed.

(** C25: What the user scans.  Whatever the display holds, every screen with a code is
    drawn and flushed to the 320 by 480 panel without an access outside a buffer, and
    whichever pixel of the modules a camera looks at, the symbol it finds in the pixels
    that were sent reads as exactly the text of the code of that screen: the texts and bars
    drawn after it do not touch it, and the version and the size of the pixels chosen from
    the length of the text always have room for it. *)
Theorem screens_show_their_code cfg d state text p c :
  panel_shows p c → s_width p = 320 → s_height p = 480 →
  qr_text (cf_ap_password cfg) d state = Some text →
  let len := Z.of_nat (String.length text) in
  ∃ p' es cx cy, render_screen true cfg d state p = Some (p', es) ∧
    ∀ dx dy, 0 <= dx < qr_pixel_size len → 0 <= dy < qr_pixel_size len →
      read_symbol (qr_version_from_strlen len) (seen 320 es cx cy (qr_pixel_size len) dx dy) = Some (str_bytes text).
Proof.
  intros Hp HW HH Ht len. unfold render_screen, draw_screen. rewrite HW, HH.
  destruct (render_with_code cfg d state text 320 480 Ht) as (y_off & max_h & ty & rest & Hy & Hm & Hty & Hrest & ->).
  specialize (Hrest ltac:(lia)). pose proof (qr_text_length _ _ _ _ Ht) as Hlen.
  destruct (code_drawn text y_off max_h ltac:(lia) Hy Hm) as (cx & cy & sym & -> & Hv & Hpx & Hcx & Hcw & Hcy & Hch & Hread).
  fold len in Hv, Hpx, Hcw, Hch, Hread |- *. set (px := qr_pixel_size len) in *. set (version := qr_version_from_strlen len) in *.
  cbn [mbind option_bind]. set (code := module_ops _ _ _ _ _). set (ops := FillScreen COLOR_BG :: code ++ rest).
  assert (Forall op_ok ops) as Hok.
  { apply Forall_cons_2; [done|]. apply Forall_app_2; [by apply module_ops_ok; lia|].
    eapply Forall_impl; [exact Hrest|]. apply below_ok. }
  assert (Forall (λ op, is_u16 (op_color op)) ops) as H16.
  { apply Forall_cons_2; [done|]. apply Forall_app_2; [by apply module_ops_u16|].
    eapply Forall_impl; [exact Hrest|]. apply below_u16. }
  destruct (run_ops_shows ops p c Hp Hok) as (p' & -> & Hw' & Hh' & Hp'). cbn [mbind option_bind].
  rewrite HW, HH in *.
  destruct (flush_frame p' _ Hp') as (es & -> & Hs).
  { intros X Y _. cbv beta. subst ops. inversion_clear H16 as [|? ? _ Hops]. cbn [painted].
    destruct (painted 320 480 (code ++ rest) X Y) as [col|] eqn:E; [by apply (painted_u16 _ _ _ _ _ _ Hops E)|done]. }
  cbn [mbind option_bind]. eexists p', es, cx, cy. split; [done|]. intros dx dy Hdx Hdy.
  rewrite <- Hread. apply read_symbol_ext; [unfold small_version, version_ok in *; lia|].
  intros x y [Hx Hy']. unfold seen. rewrite Hw' in Hs.
  assert (0 <= x * px /\ x * px + px <= (4 * version + 17) * px) as [Hx0 Hx1] by nia.
  assert (0 <= y * px /\ y * px + px <= (4 * version + 17) * px) as [Hy0 Hy1] by nia.
  rewrite Hs by (split; lia). subst ops. cbn [painted]. rewrite painted_app.
  rewrite (painted_None _ _ rest) by (eapply Forall_impl; [exact Hrest|]; intros op Hop; apply (below_covers _ _ ty); [done|lia]).
  subst code. rewrite module_ops_painted by (done || lia). cbn [default]. by destruct (sym x y).
Qed.

Lemma screens_show_their_code_witness :
  let d := display_update (Some "TollGate-1A2B") 0 0 (Some "http://192.168.4.1/") None 0 None display_boot in
  let text := build_wifi_qr_string "TollGate-1A2B" "" 320 in
  let len := Z.of_nat (String.length text) in
  qr_text (cf_ap_password config_defaults) d DISPLAY_BOOT = Some text ∧
  ∃ p, panel_shows p (λ _ _, 0) ∧ s_width p = 320 ∧ s_height p = 480 ∧
    ∃ p' es cx cy, render_screen true config_defaults d DISPLAY_BOOT p = Some (p', es) ∧
      ∀ dx dy, 0 <= dx < qr_pixel_size len → 0 <= dy < qr_pixel_size len →
        read_symbol (qr_version_from_strlen len) (seen 320 es cx cy (qr_pixel_size len) dx dy) = Some (str_bytes text).
Proof.
  intros d text len. assert (Ht : qr_text (cf_ap_password config_defaults) d DISPLAY_BOOT = Some text) by reflexivity.
  split; [exact Ht|].
  destruct (init_outcome ESP_OK ESP_OK true true panel_off) as (err & p & es0 & Hi & [(_ & Hp & Hw & Hh)|[He _]]); [done..| |].
  - exists p. split; [exact Hp|]. split; [exact Hw|]. split; [exact Hh|].
    exact (screens_show_their_code config_defaults d DISPLAY_BOOT text p _ Hp Hw Hh Ht).
  - exfalso. revert Hi. unfold axs15231b_init. rewrite !bool_decide_true by done. cbn [negb].
    destruct (axs15231b_fill_screen _ _) as [p1|]; [|done]. cbn [mbind option_bind].
    destruct (axs15231b_flush p1); [|done]. cbn [mbind option_bind]. congruence.
Defined.
