(* ===== verification/Boot.v ===== *)
(** The start of the gate ([app_main] of main/tollgate_main.c): the set-up of the flash,
    the configuration, the display, the identity, the two network interfaces and the
    Wi-Fi driver, and that the code the display shows later joins a phone to the access
    point that was set up.  The system's calls are recorded in order; what they return is
    a parameter, which may depend on the calls before.  A failed check resets the device:
    the start ends with [None]. *)

From S2P Require Import Prelude CStr F64 Json Dns Firewall Session Config Mining Cashu Core.
From S2P Require Import Api Gate Services Identity Display.
#[local] Open Scope Z_scope.

(** * Calls *)

Record ap_config := mk_ap {
  ac_ssid : string; ac_password : string; ac_authmode : wifi_auth_mode_t; ac_channel : Z; ac_max_connection : Z;
  ac_ssid_hidden : bool
}.

Inductive wifi_interface := WIFI_IF_STA | WIFI_IF_AP.
Inductive boot_call :=
| NvsInit | NvsErase
| DisplayTask
| NetifInit | EventLoop | CreateSta | CreateAp
| DhcpsStop | SetIpInfo (ip gw netmask : Z) | DhcpsStart | SetDns (ip : Z) | OfferDns
| WifiInit | RegisterWifi | RegisterGotIp | RegisterLostIp
| SetModeApSta | SetModeSta | SetMac (i : wifi_interface) (mac : list Z)
| SetApConfig (a : ap_config) | SetStaConfig (s : sta_config)
| SetCountry (code : string) | WifiStart
| StartLocalRelay | StartServicesTask | StartStatsTask.

(** The results that the start tells apart. *)
Inductive boot_result := BOOT_OK | NVS_NO_FREE_PAGES | NVS_NEW_VERSION_FOUND | BOOT_FAIL.
#[export] Instance boot_result_eq_dec : EqDecision boot_result.
Proof. solve_decision. Defined.

(** A part of the start: the calls made so far, to the calls afterwards and a result. *)
Definition boot (A : Type) : Type := list boot_call → list boot_call * option A.
#[export] Instance boot_ret : MRet boot := λ _ x h, (h, Some x).
#[export] Instance boot_bind : MBind boot := λ _ _ f m h,
  match m h with (h', Some x) => f x h' | (h', None) => (h', None) end.

(** A call without a result that is looked at, and the reset of a failed check. *)
Definition tell (c : boot_call) : boot unit := λ h, (h ++ [c], Some tt).
Definition abort {A} : boot A := λ h, (h, None).

Section boot.
Context `{CUndef} `{CJson J} (hmac_sha512 : list Z → list Z → list Z) {pubkey : Type}
  (ec_pubkey_create : list Z → option pubkey) (xonly_serialize compressed_serialize : pubkey → list Z).
Variable answer : list boot_call → boot_call → boot_result.

Definition call (c : boot_call) : boot boot_result := λ h, (h ++ [c], Some (answer h c)).
(** [ESP_ERROR_CHECK] *)
Definition check (c : boot_call) : boot unit := λ h, (h ++ [c], if bool_decide (answer h c = BOOT_OK) then Some tt else None).

Definition nvs_ready : boot unit :=
  r ← call NvsInit;
  r ← (if bool_decide (r = NVS_NO_FREE_PAGES) || bool_decide (r = NVS_NEW_VERSION_FOUND)
       then (check NvsErase;; call NvsInit) else mret r);
  if bool_decide (r = BOOT_OK) then mret tt else abort.

Definition ap_mask : Z := ip4_addr 255 255 255 0.

Definition wifi_create_ap_netif (cfg : tollgate_config_t) : boot string :=
  tell CreateAp;;
  check DhcpsStop;;
  check (SetIpInfo (cf_ap_ip cfg) (cf_ap_ip cfg) ap_mask);;
  check DhcpsStart;;
  tell (SetDns (cf_ap_ip cfg));;
  tell OfferDns;;
  mret (strncpy 15 (cf_ap_ip_str cfg)).

(** What [wifi_configure_ap] gives the driver; channel and number of clients are bytes there. *)
Definition ap_config_of (cfg : tollgate_config_t) : ap_config :=
  let secured := negb (str_empty (cf_ap_password cfg)) in
  mk_ap (strncpy 31 (cf_ap_ssid cfg)) (if secured then strncpy 63 (cf_ap_password cfg) else "")
    (if secured then WIFI_AUTH_WPA2_PSK else WIFI_AUTH_OPEN) (u8 (cf_ap_channel cfg)) (u8 (cf_ap_max_conn cfg)) false.
Definition wifi_configure_ap (cfg : tollgate_config_t) : boot unit := check (SetApConfig (ap_config_of cfg)).

Definition wifi_init_sta : boot unit := tell CreateSta.

(** What there is after the start. *)
Record booted := mk_booted {
  bt_config : tollgate_config_t; bt_identity : tollgate_identity_t; bt_display : display;
  bt_ap_ip_str : string; bt_relay : bool; bt_main : main_state
}.

(** Up to the loop.  [mounted], [file], [writable]: the file of the configuration;
    [panel_ok]: the display answers; [now]: the time then. *)
Definition app_main (mounted : bool) (file : option string) (writable panel_ok : bool) (now : Z) : boot booted :=
  nvs_ready;;
  cfg ← match tollgate_config_init mounted file writable with Some (ESP_OK, c) => mret c | _ => abort end;
  d ← (if cf_display_enabled cfg then
         if panel_ok then (tell DisplayTask;; mret (display_set_state DISPLAY_BOOT (display_init now display_boot)))
         else mret display_boot
       else mret display_boot);
  id ← match identity_init hmac_sha512 ec_pubkey_create xonly_serialize compressed_serialize (cf_nsec cfg) with
       | (ESP_OK, id) => mret id
       | _ => abort
       end;
  let cfg := tollgate_config_derive_unique id cfg in
  check NetifInit;;
  check EventLoop;;
  wifi_init_sta;;
  ap_ip_str ← wifi_create_ap_netif cfg;
  check WifiInit;;
  check RegisterWifi;;
  check RegisterGotIp;;
  check RegisterLostIp;;
  check SetModeApSta;;
  check (SetMac WIFI_IF_STA (cf_sta_mac cfg));;
  check (SetMac WIFI_IF_AP (cf_ap_mac cfg));;
  wifi_configure_ap cfg;;
  (match tollgate_config_get_wifi cfg with Some sta => check (SetStaConfig sta) | None => mret tt end);;
  check (SetCountry "DE");;
  check WifiStart;;
  (if cf_local_relay_enabled cfg then tell StartLocalRelay else mret tt);;
  (match tollgate_config_get_wifi cfg with Some _ => mret tt | None => tell StartServicesTask end);;
  mret (mk_booted cfg id d ap_ip_str (cf_local_relay_enabled cfg) (Services.app_main cfg)).
End boot.

(** The end of [start_services]: what the display is told when the gate is ready. *)
Definition show_ready (cfg : tollgate_config_t) (d : display) : display :=
  if cf_display_enabled cfg then
    display_update (Some (cf_ap_ssid cfg)) 0 0 (Some (str_take 127 ("http://" +:+ cf_ap_ip_str cfg +:+ "/")%string))
      (Some (cf_mint_url cfg)) (cf_price_per_step cfg) (Some "connected"%string) (display_set_state DISPLAY_READY d)
  else d.

(** * What a start that ends has done *)

Lemma boot_bind_inv {A B} (f : A → boot B) (m : boot A) h h' y :
  (m ≫= f) h = (h', Some y) → ∃ x h1, m h = (h1, Some x) ∧ f x h1 = (h', Some y).
Proof. unfold mbind, boot_bind. destruct (m h) as [h1 [x|]] eqn:E; [|done]. by exists x, h1. Qed.

Lemma check_inv answer c h h' u : check answer c h = (h', Some u) → h' = h ++ [c] ∧ answer h c = BOOT_OK.
Proof. unfold check. intros [= <- H]. by case_bool_decide. Qed.
Lemma tell_inv c h h' u : tell c h = (h', Some u) → h' = h ++ [c].
Proof. by intros [= <- _]. Qed.
Lemma ret_inv {A} (x y : A) h h' : (mret x : boot A) h = (h', Some y) → x = y ∧ h' = h.
Proof. by intros [= <- <-]. Qed.

(** Step by step through a run that ended. *)
Ltac boot_run :=
  repeat match goal with
  | H : (_ ≫= _) _ = (_, Some _) |- _ => apply boot_bind_inv in H as (? & ? & ? & H)
  | H : check _ _ _ = (_, Some _) |- _ => apply check_inv in H as [? ?]
  | H : tell _ _ = (_, Some _) |- _ => apply tell_inv in H
  | H : mret _ _ = (_, Some _) |- _ => apply ret_inv in H as [? ?]
  | H : abort _ = (_, Some _) |- _ => discriminate H
  | H : wifi_init_sta _ = (_, Some _) |- _ => unfold wifi_init_sta in H
  | H : wifi_create_ap_netif _ _ _ = (_, Some _) |- _ => unfold wifi_create_ap_netif in H
  | H : wifi_configure_ap _ _ _ = (_, Some _) |- _ => unfold wifi_configure_ap in H
  end; subst.

Definition is_nvs (c : boot_call) : Prop := c = NvsInit ∨ c = NvsErase.

Lemma nvs_inv answer h h' u : nvs_ready answer h = (h', Some u) → ∃ l, h' = h ++ l ∧ Forall is_nvs l.
Proof.
  unfold nvs_ready. intros H. apply boot_bind_inv in H as (r & h1 & [= <- <-] & H).
  apply boot_bind_inv in H as (r' & h2 & H1 & H).
  assert (h2 = h') as -> by (destruct (bool_decide (r' = BOOT_OK)); by inversion H).
  destruct (_ || _).
  - apply boot_bind_inv in H1 as (? & ? & [-> _]%check_inv & [= <- <-]). exists [NvsInit; NvsErase; NvsInit].
    split; [by rewrite <- !app_assoc|]. unfold is_nvs. by repeat constructor; auto.
  - apply ret_inv in H1 as [_ ->]. exists [NvsInit]. split; [done|]. unfold is_nvs. by repeat constructor; auto.
Qed.

(** The calls between the identity and the access point, and those after it. *)
Definition network_calls (cfg : tollgate_config_t) : list boot_call :=
  [NetifInit; EventLoop; CreateSta; CreateAp; DhcpsStop; SetIpInfo (cf_ap_ip cfg) (cf_ap_ip cfg) ap_mask; DhcpsStart;
   SetDns (cf_ap_ip cfg); OfferDns; WifiInit; RegisterWifi; RegisterGotIp; RegisterLostIp; SetModeApSta;
   SetMac WIFI_IF_STA (cf_sta_mac cfg); SetMac WIFI_IF_AP (cf_ap_mac cfg); SetApConfig (ap_config_of cfg)].
Definition start_calls (cfg : tollgate_config_t) : list boot_call :=
  match tollgate_config_get_wifi cfg with Some sta => [SetStaConfig sta] | None => [] end ++
  [SetCountry "DE"; WifiStart] ++ (if cf_local_relay_enabled cfg then [StartLocalRelay] else []) ++
  match tollgate_config_get_wifi cfg with Some _ => [] | None => [StartServicesTask] end.

Section outcome.
Context `{CUndef} `{CJson J} (hmac_sha512 : list Z → list Z → list Z) {pubkey : Type}
  (ec_pubkey_create : list Z → option pubkey) (xonly_serialize compressed_serialize : pubkey → list Z).
Variable answer : list boot_call → boot_call → boot_result.
Notation identity := (identity_init hmac_sha512 ec_pubkey_create xonly_serialize compressed_serialize).
Notation main := (app_main hmac_sha512 ec_pubkey_create xonly_serialize compressed_serialize answer).

(** The calls of a start that ends, in order, and what it leaves. *)
Lemma booted_calls mounted file writable panel_ok now calls b :
  main mounted file writable panel_ok now [] = (calls, Some b) →
  ∃ c l, tollgate_config_init mounted file writable = Some (ESP_OK, c) ∧
    identity (cf_nsec c) = (ESP_OK, bt_identity b) ∧
    bt_config b = tollgate_config_derive_unique (bt_identity b) c ∧
    bt_main b = Services.app_main (bt_config b) ∧ bt_ap_ip_str b = strncpy 15 (cf_ap_ip_str (bt_config b)) ∧
    calls = l ++ network_calls (bt_config b) ++ start_calls (bt_config b) ∧ Forall (λ k, is_nvs k ∨ k = DisplayTask) l ∧
    ∃ h, answer h (SetApConfig (ap_config_of (bt_config b))) = BOOT_OK.
Proof.
  unfold app_main. intros H1. apply boot_bind_inv in H1 as (? & h0 & (l0 & -> & Hl0)%nvs_inv & H1).
  apply boot_bind_inv in H1 as (c & h1 & Hc & H1). destruct (tollgate_config_init mounted file writable) as [[[] c0]|]; try discriminate.
  apply ret_inv in Hc as [<- ->].
  apply boot_bind_inv in H1 as (d & h2 & Hd & H1).
  assert (∃ l1, h2 = [] ++ l0 ++ l1 ∧ Forall (λ k, k = DisplayTask) l1) as (l1 & -> & Hl1).
  { destruct (cf_display_enabled c0); [destruct panel_ok|]; boot_run; [exists [DisplayTask]|exists []|exists []];
      (split; [by rewrite ?app_nil_r|by repeat constructor]). }
  clear Hd. apply boot_bind_inv in H1 as (id & h3 & Hid & H1).
  destruct (identity (cf_nsec c0)) as [[] id0] eqn:Hi; try discriminate. apply ret_inv in Hid as [-> ->].
  exists c0, (l0 ++ l1). split; [done|]. set (cfg := tollgate_config_derive_unique id c0) in *.
  unfold network_calls, start_calls.
  destruct (tollgate_config_get_wifi cfg) as [sta|] eqn:Hw; destruct (cf_local_relay_enabled cfg) eqn:Hr; boot_run;
    cbn [bt_config bt_identity bt_main bt_ap_ip_str]; fold cfg; rewrite Hw, Hr;
    (split_and!; [done|done|done|done|by rewrite <- !app_assoc| |by eexists]);
    (apply Forall_app; split; [eapply Forall_impl; [exact Hl0|]; auto|eapply Forall_impl; [exact Hl1|]; auto]).
Qed.

Lemma loaded_fresh mounted file writable c :
  tollgate_config_init mounted file writable = Some (ESP_OK, c) → config_wf c ∧ cf_identity_initialized c = false.
Proof.
  unfold tollgate_config_init. destruct (negb mounted); [done|]. destruct (match file with Some t => Some t | None => _ end); [|done].
  destruct (cJSON_Parse s) as [root|]; [|done]. intros Hl. split; [by apply (load_config_wf root)|].
  revert Hl. unfold load_config. cbv zeta. destruct (get_str root "nsec"); [|done]. intros Hc.
  apply bind_Some in Hc as ([nets count] & _ & Hc). apply bind_Some in Hc as (? & _ & Hc).
  apply bind_Some in Hc as (? & _ & Hc). destruct (string_slots TOLLGATE_MAX_MINT_URLS 255 root "accepted_mints").
  apply bind_Some in Hc as (? & _ & Hc). apply bind_Some in Hc as (? & _ & Hc).
  destruct (or_builtin builtin_relays _), (or_builtin builtin_seeds _). destruct (if _ && _ then _ else _). by injection Hc as <-.
Qed.

(** The address of an identity is the one its text tells. *)
Lemma identity_address text id :
  hmac_bytes hmac_sha512 → identity text = (ESP_OK, id) →
  id_initialized id = true ∧ id_ap_ip_str id = ip_str (id_ap_ip id) ∧ (String.length (id_ap_ip_str id) ≤ 15)%nat.
Proof.
  intros Hh. unfold identity_init. destruct (negb _); [done|]. destruct (hex_to_bytes _ _) as [nsec ok].
  destruct (negb ok); [done|]. destruct (ec_pubkey_create nsec) as [key|]; [|done].
  destruct (derive_bytes hmac_sha512 nsec "ap-mac" 0 6 Hh ltac:(lia)) as [Ha1 Ha2].
  pose proof (ap_address_fits _ (local_mac_ok _ Ha1 Ha2)) as Hfit.
  destruct (match ec_pubkey_create _ with Some k => _ | None => _ end) as [pub hex].
  intros [= <-]. cbn [id_initialized id_ap_ip_str id_ap_ip]. rewrite (str_take_all 15) by exact Hfit. by split_and!.
Qed.

Lemma with_identity_fields npub ssid sta ap ip text c :
  let c' := with_identity npub ssid sta ap ip text true c in
  cf_ap_ip c' = ip ∧ cf_ap_mac c' = ap ∧ cf_ap_ip_str c' = text.
Proof. by destruct c. Qed.

(** What the configuration holds of the access point once the start has ended. *)
Lemma booted_config mounted file writable panel_ok now calls b :
  hmac_bytes hmac_sha512 → main mounted file writable panel_ok now [] = (calls, Some b) →
  config_wf (bt_config b) ∧ cf_ap_ip (bt_config b) = id_ap_ip (bt_identity b) ∧
  cf_ap_mac (bt_config b) = id_ap_mac (bt_identity b) ∧ cf_ap_ip_str (bt_config b) = ip_str (cf_ap_ip (bt_config b)) ∧ fits 15 (cf_ap_ip_str (bt_config b)).
Proof.
  intros Hh Hb. destruct (booted_calls _ _ _ _ _ _ _ Hb) as (c & l & Hc & Hid & -> & _).
  destruct (loaded_fresh _ _ _ _ Hc) as [Hwf Hfresh]. destruct (identity_address _ _ Hh Hid) as (Hin & Htext & Hlen).
  pose proof (identity_macs hmac_sha512 ec_pubkey_create xonly_serialize compressed_serialize (cf_nsec c) Hh) as Hm.
  rewrite Hid in Hm. destruct Hm as [Hs Ha].
  split; [by apply derive_unique_wf|]. unfold tollgate_config_derive_unique. rewrite Hfresh, Hin. cbn [negb].
  destruct (with_identity_fields (strncpy 64 (id_npub_hex (bt_identity b))) (strncpy 31 (id_ap_ssid (bt_identity b)))
    (id_sta_mac (bt_identity b)) (id_ap_mac (bt_identity b)) (id_ap_ip (bt_identity b))
    (strncpy 15 (id_ap_ip_str (bt_identity b))) c) as (-> & -> & ->).
  rewrite (strncpy_short 15) by done. split_and!; [done|done|done|exact Hlen].
Qed.

(** C3: The code on the display lets a phone in.  Whatever the system's calls return,
    when the start has ended, the driver has been given one access point, before it was
    started, at the address of the identity, which is also the one the clients are told
    for names; and once the services are up, the code on the display is either the name
    and password of exactly that access point, open when it has no password, or the
    address of the portal on it. *)
Theorem display_code_joins_gate mounted file writable panel_ok now calls b d text :
  hmac_bytes hmac_sha512 → main mounted file writable panel_ok now [] = (calls, Some b) →
  cf_display_enabled (bt_config b) = true →
  qr_text (cf_ap_password (bt_config b)) (show_ready (bt_config b) d) DISPLAY_READY = Some text →
  ∃ a ip before after, calls = before ++ [SetApConfig a] ++ after ∧
    (∀ a', SetApConfig a' ∉ before ++ after) ∧ SetIpInfo ip ip ap_mask ∈ before ∧ SetDns ip ∈ before ∧
    SetMac WIFI_IF_AP (id_ap_mac (bt_identity b)) ∈ before ∧ WifiStart ∈ after ∧
    match ds_qr_mode d with
    | DISPLAY_QR_WIFI =>
        read_wifi text = Some (ac_ssid a, ac_password a) ∧ (ac_authmode a = WIFI_AUTH_OPEN ↔ ac_password a = "")
    | DISPLAY_QR_PORTAL => text = ("http://" +:+ ip_str ip +:+ "/")%string
    end.
Proof.
  intros Hh Hb Hd Ht. destruct (booted_config _ _ _ _ _ _ _ Hh Hb) as (Hwf & Hip & Hmac & Hstr & Hfit).
  destruct (booted_calls _ _ _ _ _ _ _ Hb) as (c & l & _ & _ & _ & _ & _ & Hcalls & Hl & _).
  set (cfg := bt_config b) in *. exists (ap_config_of cfg), (cf_ap_ip cfg).
  exists (l ++ take 16 (network_calls cfg)), (start_calls cfg). rewrite <- Hmac. split_and!.
  - rewrite Hcalls. unfold network_calls. cbn [take]. by rewrite <- !app_assoc.
  - intros a'. rewrite !elem_of_app. unfold network_calls, start_calls. cbn [take]. rewrite !elem_of_app.
    intros [[Hin|Hin]|Hin].
    + rewrite Forall_forall in Hl. by destruct (Hl _ Hin) as [[]|].
    + by repeat (apply elem_of_cons in Hin as [Hin|Hin]; [discriminate|]); apply not_elem_of_nil in Hin.
    + repeat case_match; destruct_or!;
        repeat (apply elem_of_cons in Hin as [Hin|Hin]; [discriminate|]); by apply not_elem_of_nil in Hin.
  - apply elem_of_app. right. by apply (list_elem_of_lookup_2 _ 5).
  - apply elem_of_app. right. by apply (list_elem_of_lookup_2 _ 7).
  - apply elem_of_app. right. by apply (list_elem_of_lookup_2 _ 15).
  - unfold start_calls. apply elem_of_app. right. by apply (list_elem_of_lookup_2 _ 1).
  - unfold show_ready in Ht. rewrite Hd in Ht. cbn [qr_text display_update ds_qr_mode display_set_state] in Ht.
    injection Ht as <-. cbn [ds_ap_ssid ds_portal_url shown]. destruct (ds_qr_mode d).
    + pose proof (wf_identity _ Hwf) as (_ & Hssid & _). pose proof (wf_ap_password _ Hwf) as Hpw.
      unfold fits in Hssid, Hpw. rewrite (strncpy_short 31) by done. rewrite wifi_qr_roundtrip by done.
      unfold ap_config_of. cbn [ac_ssid ac_password ac_authmode]. rewrite (strncpy_short 31), (strncpy_short 63) by done.
      by destruct (cf_ap_password cfg).
    + rewrite Hstr. unfold fits in Hfit. rewrite Hstr in Hfit.
      assert (String.length ("http://" +:+ ip_str (cf_ap_ip cfg) +:+ "/") ≤ 127)%nat as Hl1
        by (rewrite !str_append_length; cbn [String.length]; lia).
      rewrite (str_take_all 127) by done. rewrite (strncpy_short 255) by lia. apply strncpy_short. lia.
Qed.

(** The start ends when every call succeeds. *)
Lemma boot_finishes mounted file writable panel_ok now c id :
  (∀ h k, answer h k = BOOT_OK) → tollgate_config_init mounted file writable = Some (ESP_OK, c) →
  identity (cf_nsec c) = (ESP_OK, id) → ∃ calls b, main mounted file writable panel_ok now [] = (calls, Some b) ∧
    bt_identity b = id.
Proof.
  intros Hans Hc Hid. unfold app_main, wifi_create_ap_netif, wifi_configure_ap, wifi_init_sta.
  assert (nvs_ready answer [] = ([NvsInit], Some tt)) as Hnvs.
  { unfold nvs_ready, mbind, boot_bind, call. by rewrite Hans, !bool_decide_false. }
  assert (∀ k h, check answer k h = (h ++ [k], Some tt)) as Hcheck
    by (intros k h; unfold check; by rewrite Hans, bool_decide_true).
  unfold mbind, boot_bind. rewrite Hnvs, Hc. cbn -[check].
  destruct (cf_display_enabled c); [destruct panel_ok|]; cbn -[check]; rewrite Hid;
    cbn -[check]; rewrite !Hcheck; destruct (tollgate_config_get_wifi _); cbn -[check]; rewrite ?Hcheck;
    destruct (cf_local_relay_enabled _); by eexists _, _.
Qed.

(** A password of the access point that is shorter than the driver takes resets the gate
    at every start: [answer] refuses it, as ESP-IDF does below eight characters. *)
Theorem short_password_never_boots mounted file writable panel_ok now c :
  (∀ h a, ac_authmode a = WIFI_AUTH_WPA2_PSK → (String.length (ac_password a) < 8)%nat → answer h (SetApConfig a) ≠ BOOT_OK) →
  tollgate_config_init mounted file writable = Some (ESP_OK, c) → (0 < String.length (cf_ap_password c) < 8)%nat →
  (main mounted file writable panel_ok now []).2 = None.
Proof.
  intros Hans Hc Hp. destruct (main mounted file writable panel_ok now []) as [calls [b|]] eqn:Hb; [|done]. exfalso.
  destruct (booted_calls _ _ _ _ _ _ _ Hb) as (c' & l & Hc' & _ & Hcfg & _ & _ & _ & _ & h & Hok).
  rewrite Hc in Hc'. injection Hc' as <-.
  assert (cf_ap_password (bt_config b) = cf_ap_password c) as E.
  { rewrite Hcfg. unfold tollgate_config_derive_unique. repeat case_if; [done..|]. by destruct c. }
  unfold ap_config_of in Hok. rewrite E in Hok. destruct (cf_ap_password c) as [|ch pw] eqn:Ep; [cbn in Hp; lia|].
  cbn [str_empty negb] in Hok. eapply Hans; [| |exact Hok]; [done|]. cbn [ac_password].
  rewrite strncpy_short by lia. lia.
Qed.
End outcome.

(** Before the services have started once, the code on the display names no network. *)
Example first_code_is_nameless :
  qr_text "" (display_init 0 display_boot) DISPLAY_BOOT = Some "WIFI:S:;T:nopass;;"%string.
Proof. reflexivity. Qed.

(** * A concrete start *)

Definition boot_tree : jval :=
  JObj [("nsec"%string, JStr (hex_bytes key_example)); ("ap_password"%string, JStr "open sesame")].
#[local] Instance U_boot : CUndef := cundef_zero.
#[local] Instance J_boot : CJson jval := tree_json (λ _, Some boot_tree).

Lemma display_code_joins_gate_witness :
  ∃ calls b a ip, app_main hmac_example Some (λ k, k) (λ k, 2 :: k) (λ _ _, BOOT_OK) true (Some "config"%string) true true 0 []
      = (calls, Some b) ∧ SetApConfig a ∈ calls ∧ SetIpInfo ip ip ap_mask ∈ calls ∧
    ∃ text, qr_text (cf_ap_password (bt_config b)) (show_ready (bt_config b) (bt_display b)) DISPLAY_READY = Some text ∧
      read_wifi text = Some (ac_ssid a, ac_password a).
Proof.
  destruct (boot_finishes hmac_example Some (λ k, k) (λ k, 2 :: k) (λ _ _, BOOT_OK) true (Some "config"%string) true true 0
    _ identity_example ltac:(done) ltac:(vm_compute; reflexivity) ltac:(vm_compute; reflexivity)) as (calls & b & Hb & Hid).
  exists calls, b.
  assert (Hd : cf_display_enabled (bt_config b) = true ∧ ds_qr_mode (bt_display b) = DISPLAY_QR_WIFI).
  { revert Hb. vm_compute. intros [= _ <-]. by split. }
  destruct Hd as [Hd Hm].
  destruct (qr_text (cf_ap_password (bt_config b)) (show_ready (bt_config b) (bt_display b)) DISPLAY_READY) as [text|] eqn:Ht;
    [|discriminate Ht].
  destruct (display_code_joins_gate hmac_example Some (λ k, k) (λ k, 2 :: k) (λ _ _, BOOT_OK) true (Some "config"%string) true
    true 0 calls b (bt_display b) text hmac_example_bytes Hb Hd Ht) as (a & ip & before & after & Hc & _ & Hi & _ & _ & _ & Hr).
  rewrite Hm in Hr. exists a, ip. split; [exact Hb|]. rewrite Hc. split; [|split].
  - apply elem_of_app. right. apply elem_of_app. left. by apply list_elem_of_singleton.
  - apply elem_of_app. by left.
  - exists text. split; [reflexivity|]. apply Hr.
Defined.
