(* ===== verification/Touch.v ===== *)
(** The driver of the touch controller (main/touch.c): the reset of the chip, the bus and
    the device on it, the transfers of a reading, and that every bus and device created
    is given back.  What the bus answers is a parameter; [Keyboard] holds the decoding of
    an answer. *)

From S2P Require Import Prelude CStr Keyboard.
From stdpp Require Import relations.
#[local] Open Scope Z_scope.

Definition TOUCH_I2C_ADDR : Z := 0x3B.
Definition s_read_cmd : list Z := [0xb5; 0xab; 0xa5; 0x5a; 0; 0; 0; 0x08; 0; 0; 0].

(** The static variables: whether there is a bus and a device. *)
Record touch_driver := mk_touch { td_bus : bool; td_dev : bool; td_initialized : bool; td_rotation : Z }.
Definition touch_off : touch_driver := mk_touch false false false 0.

(** What is done to the hardware, in order. *)
Inductive touch_event :=
| ResetPin (high : bool) | NewBus | AddDevice (addr : Z) | RemoveDevice | DeleteBus | Transmit (bytes : list Z) | Receive.

Definition touch_init (bus device : esp_err_t) (s : touch_driver) : esp_err_t * touch_driver * list touch_event :=
  if td_initialized s then (ESP_OK, s, []) else
  let reset := [ResetPin false; ResetPin true] in
  if negb (bool_decide (bus = ESP_OK)) then (bus, s, reset) else
  if negb (bool_decide (device = ESP_OK)) then
    (device, mk_touch false (td_dev s) (td_initialized s) (td_rotation s), reset ++ [NewBus; DeleteBus])
  else (ESP_OK, mk_touch true true true (td_rotation s), reset ++ [NewBus; AddDevice TOUCH_I2C_ADDR]).

Definition released (pt : touch_point_t) : touch_point_t := mk_point (tp_x pt) (tp_y pt) false.

(** [touch_read] with its transfers into [pt]: [sent], and the eight bytes of the answer if
    they came. *)
Definition touch_poll (sent : esp_err_t) (answer : option (list Z)) (pt : touch_point_t) (s : touch_driver)
  : touch_point_t * list touch_event :=
  if negb (td_initialized s) || negb (td_dev s) then (released pt, []) else
  if negb (bool_decide (sent = ESP_OK)) then (released pt, [Transmit s_read_cmd]) else
  match answer with
  | None => (released pt, [Transmit s_read_cmd; Receive])
  | Some _ => (touch_read (td_rotation s) answer, [Transmit s_read_cmd; Receive])
  end.

Definition touch_set_rotation (rotation : Z) (s : touch_driver) : touch_driver :=
  mk_touch (td_bus s) (td_dev s) (td_initialized s) rotation.

Definition touch_deinit (s : touch_driver) : touch_driver * list touch_event :=
  (mk_touch false false false (td_rotation s),
   (if td_dev s then [RemoveDevice] else []) ++ (if td_bus s then [DeleteBus] else [])).

(** * Its life *)

(** A call of the driver, with what it did to the hardware. *)
Inductive touch_step : touch_driver * list touch_event → touch_driver * list touch_event → Prop :=
| step_init bus device s es :
    touch_step (s, es) ((touch_init bus device s).1.2, es ++ (touch_init bus device s).2)
| step_read sent answer pt s es : touch_step (s, es) (s, es ++ (touch_poll sent answer pt s).2)
| step_rotate r s es : touch_step (s, es) (touch_set_rotation r s, es)
| step_deinit s es : touch_step (s, es) ((touch_deinit s).1, es ++ (touch_deinit s).2).

(** The buses and devices that an event leaves more or less. *)
Definition bus_delta (e : touch_event) : Z := match e with NewBus => 1 | DeleteBus => -1 | _ => 0 end.
Definition dev_delta (e : touch_event) : Z := match e with AddDevice _ => 1 | RemoveDevice => -1 | _ => 0 end.
Definition total (f : touch_event → Z) (es : list touch_event) : Z := foldr (λ e n, f e + n) 0 es.

Lemma total_app f es1 es2 : total f (es1 ++ es2) = total f es1 + total f es2.
Proof. induction es1 as [|e es1 IH]; [done|]. cbn. unfold total in *. rewrite IH. lia. Qed.

(** The devices used: a transfer only goes over a bus that is there. *)
Fixpoint transfers_on_bus (buses devices : Z) (es : list touch_event) : Prop :=
  match es with
  | [] => True
  | e :: es' =>
      match e with Transmit _ | Receive | RemoveDevice => 0 < devices | DeleteBus => 0 < buses ∧ devices = 0 | _ => True end ∧
      transfers_on_bus (buses + bus_delta e) (devices + dev_delta e) es'
  end.

Lemma transfers_app es1 es2 : ∀ b d,
  transfers_on_bus b d (es1 ++ es2) ↔ transfers_on_bus b d es1 ∧ transfers_on_bus (b + total bus_delta es1) (d + total dev_delta es1) es2.
Proof.
  induction es1 as [|e es1 IH]; intros b d; cbn [app transfers_on_bus]; [unfold total; cbn; rewrite !Z.add_0_r; tauto|].
  rewrite IH. unfold total. cbn [foldr]. rewrite !Z.add_assoc. tauto.
Qed.

Definition touch_books (se : touch_driver * list touch_event) : Prop :=
  let '(s, es) := se in
  td_bus s = td_initialized s ∧ td_dev s = td_initialized s ∧
  total bus_delta es = Z.b2z (td_bus s) ∧ total dev_delta es = Z.b2z (td_dev s) ∧ transfers_on_bus 0 0 es.

(** The touch driver keeps its books: after any calls, whatever the bus answered, the
    buses and devices that exist are exactly those the driver knows - one of each when it
    is up, none otherwise, also after a start that failed half-way - every transfer went
    to a device that existed, and no bus was deleted under a device. *)
Theorem touch_driver_books s es :
  rtc touch_step (touch_off, []) (s, es) → touch_books (s, es).
Proof.
  assert (∀ se se', touch_step se se' → touch_books se → touch_books se') as Hstep.
  { intros [[b d i rot] es0] se' Hs (Hb & Hd & H1 & H2 & H3). cbn [td_bus td_dev td_initialized] in *. subst b d.
    inversion Hs; subst; clear Hs; unfold touch_books;
      [unfold touch_init|unfold touch_poll| |unfold touch_deinit]; cbn [td_bus td_dev td_initialized td_rotation touch_set_rotation fst snd];
      destruct i; repeat case_match; cbn [fst snd td_bus td_dev td_initialized negb orb] in *; try discriminate;
      rewrite ?app_nil_r, ?total_app, ?transfers_app, ?H1, ?H2; cbn; rewrite ?H1, ?H2; cbn; split_and!; done || lia. }
  intros Hr. assert (touch_books (touch_off, [])) as H0 by (cbn; by split_and!).
  revert H0. generalize Hr. set (se := (touch_off, [])). set (se' := (s, es)). clearbody se se'. clear Hr.
  induction 1 as [|x y z Hxy _ IH]; [done|]. intros Hx. apply IH. by apply (Hstep x).
Qed.

Lemma touch_driver_books_witness :
  let s1 := (touch_init ESP_OK ESP_OK touch_off).1.2 in
  touch_books ((touch_deinit s1).1, ([] ++ (touch_init ESP_OK ESP_OK touch_off).2) ++ (touch_deinit s1).2).
Proof.
  apply touch_driver_books. eapply rtc_l; [apply (step_init ESP_OK ESP_OK)|]. eapply rtc_l; [apply step_deinit|]. apply rtc_refl.
Defined.
