(* ===== verification/HttpClient.v ===== *)
(** The HTTP requests of the gate's own client (http_get and http_post_text of
    main/tollgate_client.c): the calls of the HTTP library in order, the buffer they
    fill, and the reply that [Client] works on.  What the library answers is a
    parameter. *)

From S2P Require Import Prelude CStr.
#[local] Open Scope Z_scope.

(** A call of the library. *)
Inductive http_call :=
| HttpInit (post : bool) (url : string) (timeout_ms : Z)
| HttpSetHeader (name value : string)
| HttpOpen (write_len : nat)
| HttpWrite (body : string)
| HttpFetchHeaders
| HttpRead (len : nat)
| HttpCleanup.

(** How a request goes: whether there is a handle, what the connection gives, the status,
    and what a read of so many bytes gives. *)
Record http_turn := mk_turn { ht_made : bool; ht_open : esp_err_t; ht_status : Z; ht_read : nat → option (list Z) }.

(** A result, the status if it has been stored, the bytes in the buffer with the
    terminator if one was written, and the calls. *)
Record http_result := mk_http { hr_err : esp_err_t; hr_status : option Z; hr_buf : option (list Z); hr_calls : list http_call }.

(** The end of both requests: status, body, terminator. *)
Definition read_response (t : http_turn) (resp_buf_size : nat) (calls : list http_call) : http_result :=
  let calls := calls ++ [HttpFetchHeaders; HttpRead (resp_buf_size - 1); HttpCleanup] in
  match ht_read t (resp_buf_size - 1) with
  | None => mk_http ESP_FAIL (Some (ht_status t)) None calls
  | Some bytes => mk_http ESP_OK (Some (ht_status t)) (Some (bytes ++ [0])) calls
  end.

Definition http_get (t : http_turn) (url : string) (resp_buf_size : nat) : http_result :=
  let calls := [HttpInit false url 10000] in
  if negb (ht_made t) then mk_http ESP_FAIL None None calls else
  let calls := calls ++ [HttpOpen 0] in
  if negb (bool_decide (ht_open t = ESP_OK)) then mk_http ESP_FAIL None None (calls ++ [HttpCleanup]) else
  read_response t resp_buf_size calls.

Definition http_post_text (t : http_turn) (url body : string) (resp_buf_size : nat) : http_result :=
  let calls := [HttpInit true url 15000] in
  if negb (ht_made t) then mk_http ESP_FAIL None None calls else
  let calls := calls ++ [HttpSetHeader "Content-Type" "text/plain"; HttpOpen (String.length body)] in
  if negb (bool_decide (ht_open t = ESP_OK)) then mk_http ESP_FAIL None None (calls ++ [HttpCleanup]) else
  read_response t resp_buf_size (calls ++ [HttpWrite body]).

(** * What a request leaves *)

Definition is_cleanup (c : http_call) : bool := match c with HttpCleanup => true | _ => false end.

(** The handle is given back once, at the end, if there is one. *)
Definition handle_returned (t : http_turn) (calls : list http_call) : Prop :=
  length (List.filter is_cleanup calls) = (if ht_made t then 1%nat else 0%nat) ∧
  (ht_made t = true → last calls = Some HttpCleanup).

(** The library gives no more bytes than it is asked for. *)
Definition reads_in_bounds (t : http_turn) : Prop := ∀ n bytes, ht_read t n = Some bytes → (length bytes ≤ n)%nat.

Definition request_ok (t : http_turn) (resp_buf_size : nat) (r : http_result) : Prop :=
  handle_returned t (hr_calls r) ∧
  match hr_buf r with
  | Some buf => hr_err r = ESP_OK ∧ (length buf ≤ resp_buf_size)%nat ∧ last buf = Some 0 ∧ hr_status r = Some (ht_status t)
  | None => hr_err r = ESP_FAIL
  end ∧
  (hr_err r = ESP_OK ↔ ht_made t = true ∧ ht_open t = ESP_OK ∧ is_Some (ht_read t (resp_buf_size - 1))).

Lemma read_response_ok t n calls :
  ht_made t = true → ht_open t = ESP_OK → reads_in_bounds t → (0 < n)%nat → List.filter is_cleanup calls = [] →
  request_ok t n (read_response t n calls).
Proof.
  intros Hm Ho Hr Hn Hc. unfold request_ok, handle_returned, read_response. rewrite Hm, Ho.
  assert (∀ l, length (List.filter is_cleanup (calls ++ [HttpFetchHeaders; HttpRead l; HttpCleanup])) = 1%nat) as Hl
    by (intros l; by rewrite List.filter_app, Hc).
  destruct (ht_read t (n - 1)) as [bytes|] eqn:Hread; cbn [hr_err hr_status hr_buf hr_calls].
  - split_and!; [apply Hl|intros _; by rewrite last_app|done| |by rewrite last_snoc|done|].
    + rewrite length_app. apply Hr in Hread. cbn. lia.
    + split; [by eauto|done].
  - split_and!; [apply Hl|intros _; by rewrite last_app|done|]. split; [done|]. by intros (_ & _ & [? ?]).
Qed.

(** A request of the gate's client leaves no handle behind and stays in its buffer:
    whatever the network does, the handle is given back exactly once and last; the request
    succeeds exactly when there is a handle, a connection and a body; and then the buffer
    holds at most its size with the terminator. *)
Theorem client_requests_ok t url body resp_buf_size :
  reads_in_bounds t → (0 < resp_buf_size)%nat →
  request_ok t resp_buf_size (http_get t url resp_buf_size) ∧
  request_ok t resp_buf_size (http_post_text t url body resp_buf_size).
Proof.
  intros Hr Hn. unfold http_get, http_post_text.
  destruct (ht_made t) eqn:Hm; cbn [negb].
  2:{ split; unfold request_ok, handle_returned; cbn; rewrite Hm; split_and!; try done; split; (done || by intros []). }
  destruct (decide (ht_open t = ESP_OK)) as [Ho|Ho]; [rewrite bool_decide_true by done|rewrite bool_decide_false by done]; cbn [negb].
  - split; by apply read_response_ok.
  - split; unfold request_ok, handle_returned; cbn; rewrite Hm; split_and!; try done; split; (done || by intros (_ & ? & _)).
Qed.

Lemma client_requests_ok_witness :
  let t := mk_turn true ESP_OK 200 (λ n, Some (take n (str_bytes "[]"))) in
  request_ok t 4096 (http_get t "http://10.1.2.1:2121/" 4096) ∧
  request_ok t 4096 (http_post_text t "http://10.1.2.1:2121/" "cashuA" 4096).
Proof.
  apply client_requests_ok; [|lia]. intros n bytes [= <-]. rewrite length_take. lia.
Defined.
