(* ===== verification/DnsTask.v ===== *)
(** The tasks of the captive DNS server (tollgate_core_dns.c): the socket on port 53 and
    its loop, the task that turns away DNS over TLS on port 853, and the start and stop
    that run against them.  A stop only clears a flag, which a task reads when its
    blocking call returns: the tasks of an earlier start can still be there at the next
    one.  [Dns] holds what is done with a datagram. *)

From S2P Require Import Prelude CStr Dns.
From stdpp Require Import relations.
#[local] Open Scope Z_scope.

(** A task: not run yet; blocked in [recvfrom] or [accept] on its port; or in a loop that
    does not end. *)
Inductive phase := Created | Waiting | Stuck.
#[export] Instance phase_eq_dec : EqDecision phase.
Proof. solve_decision. Defined.

(** The state of the file with the tasks of [dns_server_task] and [dot_reject_task]. *)
Record dns_server := mk_server { sv_dns : dns_state; sv_tasks : list phase; sv_dot : list phase }.
Definition server_boot : dns_server := mk_server dns_boot [] [].

Definition with_running (running : bool) (s : dns_state) : dns_state :=
  mk_dns_state (s_auth_list s) (s_auth_count s) running (s_dns_ap_ip s) (s_upstream_dns s).

(** [dns_ok], [dot_ok]: the tasks can be created. *)
Definition dns_start (dns_ok dot_ok : bool) (ap_ip upstream : Z) (sv : dns_server) : esp_err_t * dns_server :=
  let '(err, s) := tollgate_core_dns_start_internal ap_ip upstream (sv_dns sv) in
  if s_dns_running (sv_dns sv) then (err, sv) else
  (err, mk_server s (sv_tasks sv ++ (if dns_ok then [Created] else [])) (sv_dot sv ++ (if dot_ok then [Created] else []))).

Definition dns_stop (sv : dns_server) : dns_server := mk_server (tollgate_core_dns_stop (sv_dns sv)) (sv_tasks sv) (sv_dot sv).

(** A port is taken by the task whose socket is bound to it. *)
Definition holds_port (p : phase) : bool := match p with Created => false | _ => true end.
Definition taken (tasks : list phase) : bool := existsb holds_port tasks.

(** A task at the head of its loop: it waits again or, once the server is stopped, closes
    its socket and ends. *)
Definition loop_head (running : bool) (i : nat) (tasks : list phase) : list phase :=
  if running then <[i := Waiting]> tasks else delete i tasks.

(** The first run of [dns_server_task] number [i]. *)
Definition dns_task_begins (socket_ok bind_ok : bool) (i : nat) (sv : dns_server) : dns_server :=
  if negb socket_ok || taken (sv_tasks sv) || negb bind_ok then
    mk_server (with_running false (sv_dns sv)) (delete i (sv_tasks sv)) (sv_dot sv)
  else mk_server (sv_dns sv) (loop_head (s_dns_running (sv_dns sv)) i (sv_tasks sv)) (sv_dot sv).

(** A datagram for task [i]: [rx], the receive buffer with what earlier datagrams left
    behind it, and its length.  [None]: an access outside the buffer. *)
Definition dns_task_receives (fuel : nat) (upstream : list Z → option (list Z)) (client_ip : Z) (rx : list Z) (n i : nat)
    (sv : dns_server) : option (option (list Z) * dns_server) :=
  let next := mk_server (sv_dns sv) (loop_head (s_dns_running (sv_dns sv)) i (sv_tasks sv)) (sv_dot sv) in
  match dns_handle_datagram fuel upstream (sv_dns sv) client_ip rx n with
  | DnsSent reply => Some (Some reply, next)
  | DnsIgnored | DnsNoReply => Some (None, next)
  | DnsRunning => Some (None, mk_server (sv_dns sv) (<[i := Stuck]> (sv_tasks sv)) (sv_dot sv))
  | DnsOverflow | DnsOob => None
  end.

(** [dot_reject_task]: its first run, and a connection, which it closes at once. *)
Definition dot_task_begins (socket_ok bind_ok : bool) (i : nat) (sv : dns_server) : dns_server :=
  mk_server (sv_dns sv) (sv_tasks sv)
    (if negb socket_ok || taken (sv_dot sv) || negb bind_ok then delete i (sv_dot sv)
     else loop_head (s_dns_running (sv_dns sv)) i (sv_dot sv)).
Definition dot_task_accepts (i : nat) (sv : dns_server) : dns_server :=
  mk_server (sv_dns sv) (sv_tasks sv) (loop_head (s_dns_running (sv_dns sv)) i (sv_dot sv)).

(** main/dns_server.c: the names under which the other parts call these. *)
Definition dns_server_start (dns_ok dot_ok : bool) (ap_ip upstream_dns : Z) (sv : dns_server) : esp_err_t * dns_server :=
  dns_start dns_ok dot_ok ap_ip upstream_dns sv.
Definition dns_server_stop (sv : dns_server) : dns_server := dns_stop sv.
Definition dns_server_set_client_authenticated (client_ip : Z) (authenticated : bool) (sv : dns_server) : dns_server :=
  mk_server (tollgate_core_dns_set_authenticated client_ip authenticated (sv_dns sv)) (sv_tasks sv) (sv_dot sv).
Definition dns_server_is_running (sv : dns_server) : bool := tollgate_core_dns_is_running (sv_dns sv).

(** * Any interleaving *)

Inductive server_step (sv : dns_server) : dns_server → Prop :=
| step_start ap up : server_step sv (dns_server_start true true ap up sv).2
| step_stop : server_step sv (dns_server_stop sv)
| step_auth ip a : server_step sv (dns_server_set_client_authenticated ip a sv)
| step_begins sock bind i : sv_tasks sv !! i = Some Created → server_step sv (dns_task_begins sock bind i sv)
| step_receives fuel upstream ip rx n i reply sv' :
    sv_tasks sv !! i = Some Waiting → dns_task_receives fuel upstream ip rx n i sv = Some (reply, sv') → server_step sv sv'
| step_dot_begins sock bind i : sv_dot sv !! i = Some Created → server_step sv (dot_task_begins sock bind i sv)
| step_dot_accepts i : sv_dot sv !! i = Some Waiting → server_step sv (dot_task_accepts i sv).

Definition holders (tasks : list phase) : nat := length (List.filter holds_port tasks).

(** One socket on each port, and a server that says it runs has a task. *)
Record server_inv (sv : dns_server) : Prop := {
  si_port : (holders (sv_tasks sv) ≤ 1)%nat;
  si_dot : (holders (sv_dot sv) ≤ 1)%nat;
  si_live : s_dns_running (sv_dns sv) = true → sv_tasks sv ≠ []
}.

Lemma holders_app l1 l2 : holders (l1 ++ l2) = (holders l1 + holders l2)%nat.
Proof. unfold holders. by rewrite List.filter_app, length_app. Qed.

Lemma holders_delete i l : (holders (delete i l) ≤ holders l)%nat.
Proof.
  destruct (decide (i < length l)%nat) as [Hi|Hi]; [|by rewrite delete_take_drop, take_ge, drop_ge, app_nil_r by lia].
  rewrite delete_take_drop. destruct (lookup_lt_is_Some_2 l i Hi) as [x Hx]. rewrite <- (take_drop_middle l i x Hx) at 3.
  rewrite !holders_app. unfold holders. cbn [List.filter]. case_if; cbn [length]; lia.
Qed.

Lemma holders_insert i p l q :
  l !! i = Some q → (holders (<[i := p]> l) = holders l - (if holds_port q then 1 else 0) + (if holds_port p then 1 else 0))%nat.
Proof.
  intros Hq. pose proof (lookup_lt_Some _ _ _ Hq) as Hl. rewrite insert_take_drop by done.
  rewrite <- (take_drop_middle l i q Hq) at 3. rewrite !holders_app. unfold holders. cbn [List.filter].
  repeat case_if; cbn [length]; lia.
Qed.

Lemma not_taken l : taken l = false → holders l = 0%nat.
Proof.
  unfold taken, holders. induction l as [|p l IH]; [done|]. cbn [existsb List.filter]. intros [-> H]%orb_false_iff. auto.
Qed.

(** The head of the loop: the port is this task's already, or nobody's. *)
Lemma loop_head_holders running i l q :
  l !! i = Some q → (holders l ≤ 1)%nat → (holds_port q = false → taken l = false) → (holders (loop_head running i l) ≤ 1)%nat.
Proof.
  intros Hq Hl Ht. unfold loop_head. case_if; [|by etrans; [apply holders_delete|]].
  rewrite (holders_insert i Waiting l q Hq). cbn [holds_port]. destruct (holds_port q) eqn:Eq; [lia|].
  rewrite (not_taken l) by auto. lia.
Qed.

Lemma loop_head_live running i (l : list phase) q : l !! i = Some q → running = true → loop_head running i l ≠ [].
Proof.
  intros Hq ->. cbn. intros E. apply (f_equal length) in E. rewrite length_insert in E.
  apply lookup_lt_Some in Hq. cbn in E. lia.
Qed.



(** A restart before the next datagram ends the captive DNS: the task of the first start
    still holds the port, the new one cannot bind and clears the flag, which ends the old
    one with its next datagram. *)
Theorem restart_kills_dns ap up upstream client_ip :
  let s1 := dns_task_begins true true 0 (dns_start true true ap up server_boot).2 in
  let '(err, s2) := dns_start true true ap up (dns_stop s1) in
  let s3 := dns_task_begins true true 1 s2 in
  err = ESP_OK ∧ s_dns_running (sv_dns s2) = true ∧ s_dns_running (sv_dns s3) = false ∧
  ∃ s4, dns_task_receives 0 upstream client_ip (replicate DNS_BUF_SIZE 0) 0 0 s3 = Some (None, s4) ∧ sv_tasks s4 = [].
Proof. cbn. split_and!; try done. by eexists. Qed.

(** The task that could not be created is not missed: the server says it runs. *)
Example no_task_no_dns :
  let s := (dns_start false true 1 2 server_boot).2 in s_dns_running (sv_dns s) = true ∧ sv_tasks s = [].
Proof. by split. Qed.
