(* ===== verification/Cleanup.v ===== *)
(** The task that tidies the store of the relay (components/wisp_relay/storage_engine.c):
    it removes expired events every minute and compacts the index every ten minutes.  What
    the other tasks do to the store in a minute is a parameter of the turn. *)

From S2P Require Import Prelude CStr Storage.
From stdpp Require Import gmap.
#[local] Open Scope Z_scope.

Section task.
Variable nvs_ok : bool.

(** The end of a minute at the time [now]: the count of cycles and the store afterwards. *)
Definition cleanup_turn (now : Z) (cycles : nat) (e : storage_engine_t) : nat * storage_engine_t :=
  let e1 := (storage_purge_expired nvs_ok now e).2 in
  if (10 <=? S cycles)%nat then (O, (storage_compact_index nvs_ok e1).2) else (S cycles, e1).

(** Minutes: [None], the flag to stop is raised; else what the others do to the store, and
    the time at the end. *)
Fixpoint storage_cleanup_task (minutes : list (option ((storage_engine_t → storage_engine_t) * Z))) (cycles : nat)
    (e : storage_engine_t) : storage_engine_t :=
  match minutes with
  | Some (others, now) :: minutes' =>
      let '(cycles', e') := cleanup_turn now cycles (others e) in storage_cleanup_task minutes' cycles' e'
  | _ => e
  end.

(** The flag to stop and whether there is a task; [task_ok]: it can be created. *)
Definition storage_start_cleanup_task (task_ok : bool) : esp_err_t * (bool * bool) :=
  if task_ok then (ESP_OK, (false, true)) else (ESP_ERR_NO_MEM, (false, false)).
End task.

(** * What a turn removes *)

Definition fresh (now : Z) (x : storage_index_entry_t) : bool := negb (expired now x).

Lemma live_ids_inj e x y : storage_inv e → x ∈ live e → y ∈ live e → ie_event_id x = ie_event_id y → x = y.
Proof.
  intros Hinv [i Hi]%list_elem_of_lookup [j Hj]%list_elem_of_lookup Hid.
  assert (i = j) as <-; [|congruence].
  eapply (NoDup_lookup (ie_event_id <$> live e)); [apply Hinv| |]; rewrite list_lookup_fmap; [by rewrite Hi|rewrite Hj].
  simpl. by rewrite Hid.
Qed.

Lemma filter_filter_list {A} (p q : A → bool) l : List.filter p (List.filter q l) = List.filter (λ x, q x && p x) l.
Proof. induction l as [|x l IH]; [done|]. cbn. destruct (q x); cbn; [destruct (p x); by rewrite IH|done]. Qed.

(** Dropping an expired entry does not change which entries are left of the fresh ones. *)
Lemma fresh_drop_entry now e i x :
  storage_inv e → (i < st_count e)%nat → st_index e !! i = Some x → deleted x = false → expired now x = true →
  List.filter (fresh now) (live (drop_entry i x e)) = List.filter (fresh now) (live e).
Proof.
  intros Hinv Hi Hx Hd He. rewrite live_drop_entry, filter_filter_list by done. apply filter_ext_list. intros y Hy.
  unfold other_id. case_bool_decide as Hid; cbn; [|done].
  assert (x ∈ live e) as Hxl by (apply live_elem; eauto).
  rewrite (live_ids_inj e y x) by done. unfold fresh. by rewrite He.
Qed.

Lemma purge_loop_spec now todo : ∀ i e n e',
  storage_inv e → (i + todo = st_count e)%nat →
  (∀ j x, (j < i)%nat → st_index e !! j = Some x → deleted x = false → expired now x = false) →
  purge_loop now todo i e = (n, e') →
  storage_inv e' ∧ live e' = List.filter (fresh now) (live e) ∧
  (∀ p, st_files e !! p = None → st_files e' !! p = None) ∧
  (∀ x, x ∈ live e → st_files e' !! entry_path x = if fresh now x then st_files e !! entry_path x else None).
Proof.
  induction todo as [|todo IH]; intros i e n e' Hinv Hc Hb Hp; cbn [purge_loop] in Hp.
  { injection Hp as <- <-.
    assert (∀ x, x ∈ live e → fresh now x = true) as Hf.
    { intros x (j & Hj & Hx & Hd)%live_elem. unfold fresh. by rewrite (Hb j) by (done || lia). }
    split_and!; [done| |done|by intros x Hx; rewrite Hf].
    symmetry. apply forallb_filter_id, forallb_forall. intros x Hx. apply Hf. by apply list_elem_of_In. }
  destruct (lookup_lt_is_Some_2 (st_index e) i) as [x Hx]; [pose proof (inv_count e Hinv); lia|]. rewrite Hx in Hp.
  destruct (negb (deleted x) && expired now x) eqn:E.
  - apply andb_true_iff in E as [Hd%negb_true_iff He]. assert (i < st_count e)%nat as Hi by lia.
    destruct (purge_loop now todo (S i) (drop_entry i x e)) as [m e2] eqn:Hl. injection Hp as <- <-.
    pose proof (drop_entry_inv e i x Hinv Hi Hx Hd) as Hinv1. assert (x ∈ live e) as Hxl by (apply live_elem; eauto).
    assert (∀ j y, (j < S i)%nat → st_index (drop_entry i x e) !! j = Some y → deleted y = false → expired now y = false) as Hb1.
    { intros j y Hj Hy Hdy. cbn in Hy. destruct (decide (j = i)) as [->|Hne].
      - rewrite list_lookup_insert_eq in Hy by (by eapply lookup_lt_Some). injection Hy as <-. by rewrite deleted_set in Hdy.
      - rewrite list_lookup_insert_ne in Hy by done. apply (Hb j); [lia|done|done]. }
    destruct (IH (S i) _ _ _ Hinv1 ltac:(cbn; lia) Hb1 Hl) as (H1 & H2 & H3 & H4).
    split_and!; [done|by rewrite H2, (fresh_drop_entry now)| |].
    + intros p Hp. apply H3. cbn. destruct (decide (p = entry_path x)) as [->|Hne]; [apply lookup_delete_eq|by rewrite lookup_delete_ne].
    + intros y Hy. destruct (decide (ie_event_id y = ie_event_id x)) as [Hid|Hid].
      * rewrite (live_ids_inj e y x) by done. unfold fresh. rewrite He. apply H3. cbn. apply lookup_delete_eq.
      * rewrite H4.
        -- destruct (fresh now y); [|done]. cbn. apply lookup_delete_ne. apply not_eq_sym. by apply (entries_path_ne e).
        -- rewrite live_drop_entry by done. apply list_elem_of_In, filter_In. split; [by apply list_elem_of_In|].
           unfold other_id. by rewrite bool_decide_false.
  - apply (IH (S i) e n e' Hinv ltac:(lia)); [|done]. intros j y Hj Hy Hdy. destruct (decide (j = i)) as [->|Hne].
    + rewrite Hx in Hy. injection Hy as <-. by rewrite Hdy in E.
    + apply (Hb j); [lia|done|done].
Qed.

Lemma purge_outcome nvs_ok now e :
  storage_inv e →
  let e' := (storage_purge_expired nvs_ok now e).2 in
  storage_inv e' ∧ live e' = List.filter (fresh now) (live e) ∧
  ∀ x, x ∈ live e → st_files e' !! entry_path x = if fresh now x then st_files e !! entry_path x else None.
Proof.
  intros Hinv. unfold storage_purge_expired. rewrite (inv_initialized e Hinv). cbn [negb].
  destruct (purge_loop now (st_count e) 0 e) as [n e1] eqn:Hp.
  destruct (purge_loop_spec now (st_count e) 0 e n e1 Hinv ltac:(lia) ltac:(intros; lia) Hp) as (H1 & H2 & _ & H4).
  cbn [snd]. case_if; [|done]. destruct (save_index_same nvs_ok e1) as (-> & _ & -> & _).
  split_and!; [by apply save_index_inv|done|done].
Qed.

Lemma cleanup_turn_inv nvs_ok now cycles e : storage_inv e → storage_inv (cleanup_turn nvs_ok now cycles e).2.
Proof.
  intros Hinv. destruct (purge_outcome nvs_ok now e Hinv) as (H1 & _). unfold cleanup_turn. case_if; [|done].
  pose proof (compact_preserves nvs_ok _ H1) as Hc. destruct (storage_compact_index nvs_ok _). apply Hc.
Qed.


(** The task keeps the store consistent whatever the others do to it in between. *)
Theorem cleanup_task_inv nvs_ok minutes cycles e :
  storage_inv e → Forall (λ m, match m with Some (others, _) => ∀ e, storage_inv e → storage_inv (others e) | None => True end) minutes →
  storage_inv (storage_cleanup_task nvs_ok minutes cycles e).
Proof.
  intros Hinv Hall. revert cycles e Hinv. induction Hall as [|[[others now]|] minutes Hm _ IH]; intros cycles e Hinv; cbn; [done| |done].
  pose proof (cleanup_turn_inv nvs_ok now cycles (others e) (Hm e Hinv)) as Ht.
  destruct (cleanup_turn nvs_ok now cycles (others e)) as [c e']. by apply IH.
Qed.

