(* ===== verification/RelayStart.v ===== *)
(** The start of the local relay (local_relay_init of main/local_relay.c with storage_init,
    storage_destroy and storage_get_stats of components/wisp_relay/storage_engine.c): what
    is taken from the system and given back on every path, the directories made, and that
    a restart finds the events again.  What the system grants is a parameter. *)

From S2P Require Import Prelude CStr Storage SubManager RateLimiter Relay Cleanup.
From stdpp Require Import gmap.
#[local] Open Scope Z_scope.

(** * Resources *)

Inductive relay_resource := StoreLock | IndexMemory (entries : nat) | StoreMount | SubLock.
#[export] Instance relay_resource_eq_dec : EqDecision relay_resource.
Proof. solve_decision. Defined.

Inductive relay_call :=
| Acquire (r : relay_resource) | Release (r : relay_resource) | MakeDir (path : string).

(** Whether there is memory for the lock of the store, for its index in the external and
    in the internal memory, for the lock of the subscriptions and for the task of the
    cleanup, and what mounting the file system gives. *)
Record relay_grants := mk_grants {
  rg_lock : bool; rg_spiram : bool; rg_heap : bool; rg_mount : esp_err_t; rg_sub_lock : bool; rg_task : bool
}.

(** What is held after the calls; [None]: something is given back that is not held. *)
Definition hold (held : option (list relay_resource)) (c : relay_call) : option (list relay_resource) :=
  h ← held;
  match c with
  | Acquire r => Some (r :: h)
  | Release r => '(i, _) ← list_find (r =.) h; Some (delete i h)
  | MakeDir _ => Some h
  end.
Definition held (calls : list relay_call) : option (list relay_resource) := foldl hold (Some []) calls.

(** * The store *)

Definition INTERNAL_INDEX_ENTRIES : nat := Z.to_nat 1000.

Definition index_memory (g : relay_grants) : option nat :=
  if rg_spiram g then Some STORAGE_INDEX_ENTRIES else if rg_heap g then Some INTERNAL_INDEX_ENTRIES else None.

Definition EVENTS_DIR : string := "/littlefs/events".
Definition event_dir (i : Z) : string := (EVENTS_DIR +:+ "/" +:+ hex2 i)%string.
Definition event_dirs : list string := EVENTS_DIR :: (event_dir <$> seqZ 0 256).

(** [storage_init]; [Storage.storage_init] is what it does once it has its resources.
    [files]: what there is once the file system is mounted, nothing if it had to be
    formatted.  An engine that is not initialised is one that every operation refuses. *)
Definition storage_open (g : relay_grants) (nvs_ok : bool) (ttl : Z) (files : gmap string string) (nvs : nvs_index)
  : esp_err_t * storage_engine_t * list relay_call :=
  let closed := mk_storage [] 0 0 false ttl files nvs in
  if negb (rg_lock g) then (ESP_ERR_NO_MEM, closed, []) else
  match index_memory g with
  | None => (ESP_ERR_NO_MEM, closed, [Acquire StoreLock; Release StoreLock])
  | Some n =>
      if bool_decide (rg_mount g = ESP_OK) then
        (ESP_OK, storage_init nvs_ok n ttl files nvs,
         [Acquire StoreLock; Acquire (IndexMemory n); Acquire StoreMount] ++ (MakeDir <$> event_dirs))
      else (rg_mount g, closed,
            [Acquire StoreLock; Acquire (IndexMemory n); Release (IndexMemory n); Release StoreLock])
  end.

(** [storage_destroy], before there is a task. *)
Definition storage_close (nvs_ok : bool) (e : storage_engine_t) : storage_engine_t * list relay_call :=
  (storage_destroy nvs_ok e,
   if st_initialized e then [Release StoreMount; Release (IndexMemory (length (st_index e))); Release StoreLock] else []).

(** The fields for the oldest and the newest event are never set; [info]: the size of the
    file system and the part of it in use. *)
Record storage_stats_t := mk_stats {
  ss_total_events : Z; ss_total_bytes : Z; ss_free_bytes : Z; ss_oldest : Z; ss_newest : Z
}.
Definition storage_get_stats (now : Z) (info : Z * Z) (e : storage_engine_t) : storage_stats_t :=
  if negb (st_initialized e) then mk_stats 0 0 0 0 0 else
  mk_stats (Z.of_nat (storage_total_events now e)) (u32 info.1) (u32 (info.1 - info.2)) 0 0.

(** * The relay *)

Definition LOCAL_RELAY_TTL_SEC : Z := 21 * 24 * 3600.

(** What there is after [local_relay_init]: the relay, if it is initialised, and whether
    its cleanup runs; flash; the calls. *)
Record relay_start := mk_start {
  rs_err : esp_err_t; rs_relay : option (relay_ctx_t * bool); rs_nvs : nvs_index; rs_calls : list relay_call
}.

Definition local_relay_boot (g : relay_grants) (nvs_ok : bool) (files : gmap string string) (nvs : nvs_index) : relay_start :=
  let '(err, e, calls) := storage_open g nvs_ok LOCAL_RELAY_TTL_SEC files nvs in
  if negb (bool_decide (err = ESP_OK)) then mk_start err None nvs calls else
  if negb (rg_sub_lock g) then
    let '(e', closing) := storage_close nvs_ok e in mk_start ESP_ERR_NO_MEM None (st_nvs e') (calls ++ closing)
  else
    mk_start ESP_OK (Some (local_relay_init e, (storage_start_cleanup_task (rg_task g)).2.2)) nvs (calls ++ [Acquire SubLock]).

(** * What is held *)

Lemma held_dirs h dirs : foldl hold (Some h) (MakeDir <$> dirs) = Some h.
Proof. induction dirs as [|d dirs IH]; [done|apply IH]. Qed.

(** The length of the index is the memory it was given. *)
Lemma storage_init_length nvs_ok n ttl files nvs :
  length (st_index (storage_init nvs_ok n ttl files nvs)) = n.
Proof.
  unfold storage_init. set (e := mk_storage (replicate n index_entry_zero) 0 0 false ttl files nvs).
  assert (∀ m ks l, length l = n → (m ≤ n)%nat → Forall (λ k, 50 * k < m)%nat ks → length (foldl (load_chunk nvs m) l ks) = n) as Hload.
  { intros m ks. induction ks as [|k ks IH]; intros l Hl Hm Hks; [done|]. inversion Hks; subst. cbn [foldl]. apply IH; [|done|done].
    unfold load_chunk. destruct (nv_chunks nvs !! k) as [blob|] eqn:Eb; [|done]. unfold chunk_size.
    destruct (Nat.leb_spec (length blob) (Nat.min 50 (m - 50 * k))); [|done].
    rewrite !length_app, length_take, length_drop. lia. }
  destruct (load_index_from_nvs nvs_ok e) as [e'|] eqn:He; cbn [st_index]; [|apply length_replicate].
  unfold load_index_from_nvs in He. destruct (negb nvs_ok); [done|]. case_bool_decide; [injection He as <-; apply length_replicate|].
  apply bind_Some in He as (c & Hc & He). apply bind_Some in He as (next & _ & [= <-]). cbn [st_index st_nvs] in *. cbn [e st_index].
  rewrite length_replicate. apply Hload; [apply length_replicate|lia|].
  apply Forall_forall. intros k Hk. unfold chunk_numbers, chunk_size in Hk. apply elem_of_seq in Hk.
  pose proof (Nat.div_mod (Nat.min c n + 50 - 1) 50 ltac:(lia)). pose proof (Nat.mod_upper_bound (Nat.min c n + 50 - 1) 50 ltac:(lia)). lia.
Qed.

(** The directories made are those of all events. *)
Lemma event_path_in_dirs id k :
  Forall is_u8 id → ∃ dir name, dir ∈ event_dirs ∧ get_event_path id k = (dir +:+ "/" +:+ name)%string.
Proof.
  intros Hid. exists (event_dir (default 0 (id !! 0%nat))), (hex_bytes (take 16 id) +:+ "_" +:+ hex8 k +:+ ".json")%string. split.
  - apply list_elem_of_further, list_elem_of_fmap. eexists. split; [done|]. apply elem_of_seqZ.
    destruct id as [|b id]; cbn; [lia|]. inversion Hid; subst. unfold is_u8 in *. lia.
  - unfold get_event_path, event_dir, EVENTS_DIR. by rewrite !str_append_assoc.
Qed.

(** A resource given back that is on top. *)
Lemma hold_release h r : hold (Some (r :: h)) (Release r) = Some h.
Proof. cbn. by rewrite decide_True. Qed.

(** * The outcome of a start *)

(** The relay starts whole or not at all.  The start succeeds exactly when every lock,
    memory for the index and the file system are granted; it then holds exactly these, its
    tables are consistent, its store is open and the directory of every event has been
    made; on every other path nothing is held any more, and nothing was given back that
    was not held. *)
Theorem relay_start_outcome g nvs_ok files nvs :
  let r := local_relay_boot g nvs_ok files nvs in
  (rs_err r = ESP_OK ↔
   rg_lock g = true ∧ is_Some (index_memory g) ∧ rg_mount g = ESP_OK ∧ rg_sub_lock g = true) ∧
  match rs_relay r with
  | Some (c, task) =>
      rs_err r = ESP_OK ∧ relay_inv c ∧ st_initialized (rc_storage c) = true ∧ task = rg_task g ∧
      (∃ n, index_memory g = Some n ∧ length (st_index (rc_storage c)) = n ∧
            held (rs_calls r) = Some [SubLock; StoreMount; IndexMemory n; StoreLock]) ∧
      ∀ id k, Forall is_u8 id →
        ∃ dir name, MakeDir dir ∈ rs_calls r ∧ get_event_path id k = (dir +:+ "/" +:+ name)%string
  | None => rs_err r ≠ ESP_OK ∧ held (rs_calls r) = Some []
  end.
Proof.
  unfold local_relay_boot, storage_open.
  destruct (rg_lock g) eqn:Hl; cbn [negb]; [|by split; [split; [done|by intros (? & _)]|split]].
  destruct (index_memory g) as [n|]; [|by split; [split; [done|by intros (_ & [? ?] & _)]|split]].
  case_bool_decide as Hm.
  2:{ rewrite bool_decide_false by done. cbn [negb rs_err rs_relay rs_calls]. split; [by split; [|intros (_ & _ & ? & _)]|].
      split; [done|]. unfold held. cbn [foldl]. unfold hold at 4 3. cbn [mbind option_bind]. by rewrite hold_release, hold_release. }
  cbn [negb bool_decide decide_rel]. rewrite bool_decide_true by done. cbn [negb].
  assert (∀ l, held (([Acquire StoreLock; Acquire (IndexMemory n); Acquire StoreMount] ++ (MakeDir <$> event_dirs)) ++ l) =
               foldl hold (Some [StoreMount; IndexMemory n; StoreLock]) l) as Hheld.
  { intros l. unfold held. rewrite !foldl_app.
    change (foldl hold (Some []) _) with (Some [StoreMount; IndexMemory n; StoreLock]). by rewrite held_dirs. }
  destruct (rg_sub_lock g) eqn:Hs; cbn [negb].
  - cbn [rs_err rs_relay rs_calls]. split; [by split|]. split_and!; [done|apply relay_init_inv|done|by destruct (rg_task g)| |].
    + exists n. split_and!; [done|apply storage_init_length|apply Hheld].
    + intros id k Hid. destruct (event_path_in_dirs id k Hid) as (dir & name & Hdir & Hp). exists dir, name. split; [|done].
      apply elem_of_app. left. apply elem_of_app. right. by apply list_elem_of_fmap_2.
  - unfold storage_close. cbn [rs_err rs_relay rs_calls]. split; [by split; [|intros (_ & _ & _ & ?)]|]. split; [done|].
    rewrite Hheld. cbn [st_initialized storage_init]. rewrite storage_init_length. cbn [foldl]. by rewrite !hold_release.
Qed.

(** * A restart *)

(** What a start with room for [n] entries loads of the index that an orderly stop saved;
    a chunk is loaded whole or not at all. *)
Lemma restart_loads n ttl e :
  storage_inv e → (st_count e ≤ n)%nat ∨ (n mod 50 = 0)%nat →
  let e1 := storage_destroy true e in
  let e2 := storage_init true n ttl (st_files e1) (st_nvs e1) in
  st_count e2 = Nat.min (st_count e) n ∧
  take (st_count e2) (st_index e2) = take n (take (st_count e) (st_index e)) ∧
  st_next_file_index e2 = st_next_file_index e ∧ st_files e2 = st_files e.
Proof.
  intros Hinv Hn. pose proof Hinv as [H1 H2 _ _ _ _]. cbv zeta.
  unfold storage_destroy. rewrite H1. cbn [negb]. unfold save_index_to_nvs. cbn [st_files st_nvs with_nvs].
  set (nvs := mk_nvs_index _ _ _). unfold storage_init, load_index_from_nvs.
  cbn [st_nvs st_index negb nv_count nv_next_idx nvs mbind option_bind]. rewrite bool_decide_false by done.
  rewrite length_replicate. cbn [st_count st_index st_next_file_index st_files]. split_and!; [done| |done|done].
  set (c := Nat.min (st_count e) n). set (l := take n (st_index e) ++ replicate (n - length (st_index e)) index_entry_zero).
  assert (length l = n) as Hl by (unfold l; rewrite length_app, length_take, length_replicate; lia).
  set (m := ((c + chunk_size - 1) / chunk_size)%nat).
  assert (c ≤ 50 * m ∧ 50 * m < c + 50)%nat as [Hc1 Hc2].
  { unfold m, chunk_size. pose proof (Nat.div_mod (c + 50 - 1) 50 ltac:(lia)).
    pose proof (Nat.mod_upper_bound (c + 50 - 1) 50 ltac:(lia)). lia. }
  assert (∀ k, (k < m)%nat → nv_chunks nvs !! k = Some (chunk c l k)) as Hchunks.
  { intros k Hk. cbn [nvs nv_chunks]. unfold chunk_numbers. rewrite saved_chunks.
    - f_equal. unfold chunk, chunk_size.
      assert (Nat.min 50 (st_count e - 50 * k) = Nat.min 50 (c - 50 * k))%nat as ->.
      { destruct (Nat.le_gt_cases (st_count e) n); [assert (c = st_count e) as E by (unfold c; lia); by rewrite E|].
        destruct Hn as [?|Hn]; [lia|]. pose proof (Nat.div_mod n 50 ltac:(lia)). unfold c in *. lia. }
      assert (50 * k < c)%nat by lia.
      unfold l. rewrite drop_app_le by (rewrite length_take; unfold c in *; lia). rewrite skipn_firstn_comm.
      rewrite take_app_le by (rewrite length_take, length_drop; unfold c in *; lia). rewrite take_take. f_equal. unfold c in *. lia.
    - unfold chunk_size. pose proof (Nat.div_mod (st_count e + 50 - 1) 50 ltac:(lia)).
      pose proof (Nat.mod_upper_bound (st_count e + 50 - 1) 50 ltac:(lia)). lia. }
  pose proof (load_chunks nvs c l (replicate n index_entry_zero) m ltac:(lia) ltac:(by rewrite length_replicate) Hchunks) as [_ Ht].
  unfold chunk_numbers. fold m. rewrite Nat.min_l in Ht by done. rewrite Ht. unfold l.
  rewrite take_app_le by (rewrite length_take; lia). rewrite !take_take. f_equal. lia.
Qed.

(** A store whose index is the beginning of another's, with the same files. *)
Lemma shorter_index e e2 n :
  storage_inv e → st_initialized e2 = true → (st_count e2 ≤ length (st_index e2))%nat →
  take (st_count e2) (st_index e2) = take n (take (st_count e) (st_index e)) →
  st_next_file_index e2 = st_next_file_index e → st_files e2 = st_files e →
  storage_inv e2 ∧ ∃ lost, events e = events e2 ++ lost.
Proof.
  intros [_ H2 H3 H4 H5 H6] Hi Hc Ht Hx Hf.
  set (rest := List.filter (λ x, negb (deleted x)) (drop n (take (st_count e) (st_index e)))).
  assert (live e = live e2 ++ rest) as Hl by (unfold live, rest; by rewrite Ht, <- filter_app_list, take_drop).
  rewrite Hl in H4, H5, H6. apply Forall_app in H4 as [H4 _].
  rewrite fmap_app in H5. rewrite fmap_app in H6. apply NoDup_app in H5 as (H5 & _ & _). apply NoDup_app in H6 as (H6 & _ & _). split.
  - by constructor; rewrite ?Hx.
  - exists ((λ x, (ie_event_id x, st_files e !! entry_path x)) <$> rest). unfold events. by rewrite Hl, fmap_app, Hf.
Qed.


(** The report counts the events that are neither deleted nor expired. *)
Lemma stats_count_fresh now info e :
  storage_inv e → ss_total_events (storage_get_stats now info e) = Z.of_nat (length (List.filter (Cleanup.fresh now) (live e))).
Proof.
  intros Hinv. unfold storage_get_stats, storage_total_events. rewrite (inv_initialized e Hinv). cbn [negb ss_total_events].
  unfold count_slots, live. by rewrite filter_filter_list.
Qed.

(** * Concrete starts *)

Definition grants_example : relay_grants := mk_grants true false true ESP_OK true true.

