(* ===== verification/SwMiner.v ===== *)
(** The gate's own miner (main/sw_miner.c): a thousand nonces of the current job in a
    turn, the first whose hash is within the target handed to the pool's client.
    SHA-256 and the random start are parameters; the task's other turns (no job, or
    the miner stopped) only wait. *)

From S2P Require Import Prelude CStr F64 Json Dns Session Config Mining StratumProxy StratumClient.
#[local] Open Scope Z_scope.

Section sw_miner.
Variable mbedtls_sha256 : list Z → list Z.
(** What is in the twelve bytes of the local array [header] that are never written. *)
Variable uninit : list Z.

Definition sw_header (local_job : tollgate_stratum_job_t) (nonce : Z) : list Z :=
  jb_prevhash local_job ++ jb_merkle_root local_job ++ uninit ++ put_le32 nonce.

(** [memcmp(hash, target, target_len) <= 0]: the bytes in the order of memory. *)
Definition within_target (local_job : tollgate_stratum_job_t) (hash : list Z) : bool :=
  compare_bytes hash (take (Z.to_nat (jb_target_len local_job)) (jb_target local_job)).

Definition sw_search (local_job : tollgate_stratum_job_t) (start_nonce : Z) : option Z :=
  u32_search (λ nonce, within_target local_job (sha256d mbedtls_sha256 (sw_header local_job nonce)))
    1001 start_nonce (u32 (start_nonce + 1000)).

(** A turn of [sw_miner_task] that has the job and is not stopped meanwhile: the pool's client and the statistics of
    miner 0 after it; [None]: the pool's client writes past a buffer. *)
Definition sw_turn (now : Z) (cfg : pool_config) (written : bool) (start_nonce : Z) (job : tollgate_stratum_job_t)
    (st : stratum_client_state_t * mining_state)
  : option (stratum_client_state_t * mining_state * list pool_event) :=
  let '(pool, mining) := st in
  if negb (jb_valid job) then Some (pool, mining, []) else
  match sw_search job start_nonce with
  | None => Some (pool, mining, [])
  | Some nonce =>
      '(_, pool1, out) ← stratum_client_submit_share cfg written (jb_job_id job) nonce (jb_ntime job) pool;
      Some (pool1, tollgate_core_mining_update_hashrate now 0 true mining, out)
  end.

(** The hashes in MH/s, with whole seconds passed. *)
Definition sw_hashrate (hashes elapsed_ms : Z) (s_hashrate : f64) : f64 :=
  let elapsed_s := Z.quot elapsed_ms 1000 in
  if 0 <? elapsed_s then f64_div (f64_div (f64_of_Z hashes) (f64_of_Z elapsed_s)) (f64_of_Z 1000000)
  else s_hashrate.
End sw_miner.

(** * The task and its stack *)

(** [sw_tasks]: the tasks that run on the stack allocated. *)
Record sw_state := mk_sw { sw_running : bool; sw_stack : bool; sw_handle : bool; sw_tasks : nat }.

Definition sw_boot : sw_state := mk_sw false false false 0.

(** [free(s_stack_buffer)] where it is allocated; [None] when a task still runs on it. *)
Definition free_stack (s : sw_state) : option sw_state :=
  if sw_stack s then
    match sw_tasks s with O => Some (mk_sw (sw_running s) false (sw_handle s) 0) | S _ => None end
  else Some s.

Definition sw_miner_start (stack_ok task_ok : bool) (s : sw_state) : option (esp_err_t * sw_state) :=
  if sw_running s then Some (ESP_OK, s) else
  s1 ← free_stack s;
  Some (if negb stack_ok then (ESP_FAIL, mk_sw false false (sw_handle s1) (sw_tasks s1))
        else if negb task_ok then (ESP_FAIL, mk_sw false false false (sw_tasks s1))
        else (ESP_OK, mk_sw true true true (S (sw_tasks s1)))).

(** The task sees that it is stopped, and ends. *)
Definition sw_task_ends (s : sw_state) : sw_state :=
  if sw_running s then s else mk_sw (sw_running s) (sw_stack s) (sw_handle s) (Nat.pred (sw_tasks s)).

(** [ended]: the task has ended within the half second the caller waits; it has no
    chance to if it waits a second for a job. *)
Definition sw_miner_stop (ended : bool) (s : sw_state) : option sw_state :=
  let s1 := mk_sw false (sw_stack s) (sw_handle s) (sw_tasks s) in
  let s2 := if sw_handle s1 then
              let s' := if ended then sw_task_ends s1 else s1 in mk_sw false (sw_stack s') false (sw_tasks s')
            else s1 in
  free_stack s2.

Definition sw_miner_is_running (s : sw_state) : bool := sw_running s.

(** The stack of a task that waits for a job is freed under it. *)
Example stop_frees_live_stack :
  (sw_miner_start true true sw_boot ≫= λ r, sw_miner_stop false r.2) = None.
Proof. reflexivity. Qed.

(** * What is submitted *)

Section results.
Context (sha : list Z → list Z) (uninit : list Z).
Implicit Types job : tollgate_stratum_job_t.

(** A turn of the miner submits to the pool exactly the first nonce of its window of a
    thousand whose hash is within the target of the job, with the number and the time of
    that job, and credits miner 0 with it; without such a nonce, without a valid job, or
    when the window would pass 2^32, it changes nothing. *)
Theorem sw_turn_submits_first now cfg written start job st :
  is_u32 start →
  sw_turn sha uninit now cfg written start job st =
  match (if jb_valid job && (start + 1000 <? 2 ^ 32)
         then List.find (λ n, within_target job (sha256d sha (sw_header uninit job n))) (seqZ start 1000) else None) with
  | None => Some (st, [])
  | Some nonce =>
      '(_, pool, out) ← stratum_client_submit_share cfg written (jb_job_id job) nonce (jb_ntime job) st.1;
      Some (pool, tollgate_core_mining_update_hashrate now 0 true st.2, out)
  end.
Proof.
  intros Hs. destruct st as [pool mining]. unfold sw_turn, sw_search.
  destruct (jb_valid job); cbn [negb andb]; [|done].
  pose proof (u32_search_window
    (λ n, within_target job (sha256d sha (sw_header uninit job n))) 1000 start Hs ltac:(lia)) as Hw.
  change (Z.of_nat 1000) with 1000 in Hw. rewrite Hw. by case_match; [case_match|].
Qed.

(** The header that is hashed holds neither the version, nor the time, nor the compact
    target of the job: it is the header of the proxy only if the previous hash begins
    with the version. *)
Theorem sw_header_not_proxy_header job nonce nonce' ntime version :
  (4 ≤ length (jb_prevhash job))%nat →
  sw_header uninit job nonce = build_header job nonce' ntime version →
  take 4 (jb_prevhash job) = put_be 4 version.
Proof.
  intros Hl He. unfold sw_header, build_header in He.
  apply (f_equal (take 4)) in He. rewrite take_app_le in He by done.
  rewrite He, take_app_length'; [done|symmetry; apply length_put_be].
Qed.
End results.

(** * Concrete runs *)

Definition sw_job_example : tollgate_stratum_job_t :=
  mk_stratum_job 7 (replicate 32 1) (replicate 32 2) 99 0 0x20000000 (replicate 32 9) 32 true false.
(** A hash that is within the target for every tenth nonce. *)
Definition sw_hash_example (m : list Z) : list Z :=
  if bool_decide (length m = 80%nat) then replicate 32 (default 0 (m !! 76%nat) mod 10)
  else (λ b, if b =? 0 then 0 else 200) <$> m.

Lemma sw_turn_submits_first_witness :
  (λ r, (cl_shares_accepted r.1.1, length r.2)) <$>
    sw_turn sw_hash_example (replicate 12 0) 5 (mk_pool_config "pool" 3333 "u" "p" None) true 11 sw_job_example
      (mk_stratum_client true "pool" 3333 0 1 0 0 4 0 1, mining_boot)
  = Some (1, 1%nat).
Proof.
  rewrite (sw_turn_submits_first sw_hash_example (replicate 12 0) 5 (mk_pool_config "pool" 3333 "u" "p" None) true 11
             sw_job_example _ ltac:(unfold is_u32; lia)).
  vm_compute. reflexivity.
Defined.
