(* ===== verification/RemoteTask.v ===== *)
(** The loop of the remote miner (remote_miner_task of main/remote_miner.c): a job is
    fetched for every turn, a thousand nonces of it are tried, and the hash rate is
    counted.  A turn in which the miner is stopped half-way only ends earlier and is left
    out. *)

From S2P Require Import Prelude CStr F64 Json Dns Firewall Session Config Mining Cashu Core.
From S2P Require Import StratumProxy StratumClient Api SwMiner RemoteMiner.
#[local] Open Scope Z_scope.

Record remote_task := mk_task { rt_hashes : Z; rt_start_time : Z; rt_last_job_id : Z; rt_hashrate : f64 }.
Definition remote_task_begins (now : Z) : remote_task := mk_task 0 now 0 f64_zero.

(** How a turn goes: what the gate answers, the random start and the time at the end. *)
Record remote_input := mk_input {
  ri_get : string → option (Z * list Z); ri_post : string → string → option Z; ri_start_nonce : Z; ri_now : Z
}.

Section task.
Context `{CUndef} `{CJson J} (sha : list Z → list Z) (gw : string).

(** The turns of the loop over the nonces: up to the one found, or all of them. *)
Definition nonces_tried (start : Z) (found : option Z) : Z :=
  match found with
  | Some nonce => nonce - start + 1
  | None => if start <? u32 (start + 1000) then 1000 else 0
  end.

(** A turn, with the share it submitted and the answer.  [None]: a read through NULL. *)
Definition remote_turn (i : remote_input) (s : remote_task) : option (remote_task * option (remote_job_t * Z * esp_err_t)) :=
  fetched ← fetch_job (ri_get i) gw;
  match fetched with
  | None => Some (s, None)
  | Some job =>
      let found := mine_round sha (ri_post i) gw job (ri_start_nonce i) in
      let hashes := u64 (rt_hashes s + nonces_tried (ri_start_nonce i) (fst <$> found)) in
      Some (mk_task hashes (rt_start_time s) (rj_job_id job)
              (sw_hashrate hashes (i64 (ri_now i - rt_start_time s)) (rt_hashrate s)),
            (λ r, (job, r.1, r.2)) <$> found)
  end.

Fixpoint remote_miner_task (turns : list remote_input) (s : remote_task)
  : option (remote_task * list (remote_job_t * Z * esp_err_t)) :=
  match turns with
  | [] => Some (s, [])
  | i :: turns' =>
      '(s1, share) ← remote_turn i s;
      '(s2, shares) ← remote_miner_task turns' s1;
      Some (s2, match share with Some x => x :: shares | None => shares end)
  end.

Lemma mined job post start r :
  is_u32 start → mine_round sha post gw job start = Some r →
  check_pow sha (build_header job r.1) (rj_target job) = true ∧ start <= r.1 < start + 1000 ∧
  r.2 = submit_share post gw (rj_job_id job) r.1 (rj_ntime job) (rj_version job).
Proof.
  intros Hs Hr. unfold mine_round, find_nonce in Hr. rewrite (u32_search_window _ 1000) in Hr by (done || lia).
  destruct (_ <? _) in Hr; [|discriminate]. destruct (List.find _ _) as [n|] eqn:Hf; [|discriminate]. injection Hr as <-. cbn [fst snd].
  apply List.find_some in Hf as [Hin Hc]. apply list_elem_of_In, elem_of_seqZ in Hin. split_and!; [done|lia|lia|done].
Qed.

Lemma remote_turn_spec i s s' share :
  is_u32 (ri_start_nonce i) → remote_turn i s = Some (s', share) →
  (∃ k, 0 <= k <= 1000 ∧ (rt_hashes s' = u64 (rt_hashes s + k) ∨ rt_hashes s' = rt_hashes s)) ∧
  match share with
  | Some (job, nonce, err) =>
      fetch_job (ri_get i) gw = Some (Some job) ∧ check_pow sha (build_header job nonce) (rj_target job) = true ∧
      err = submit_share (ri_post i) gw (rj_job_id job) nonce (rj_ntime job) (rj_version job)
  | None => True
  end.
Proof.
  intros Hs. unfold remote_turn. destruct (fetch_job (ri_get i) gw) as [[job|]|] eqn:Hf; cbn [mbind option_bind]; [| |done].
  2:{ intros [= <- <-]. split; [exists 0; split; [lia|by right]|done]. }
  destruct (mine_round sha (ri_post i) gw job (ri_start_nonce i)) as [r|] eqn:Hr; intros [= <- <-]; cbn.
  - destruct (mined job _ _ r Hs Hr) as (Hc & Hn & He). split; [|done].
    exists (r.1 - ri_start_nonce i + 1). split; [lia|by left].
  - split; [|done]. exists (nonces_tried (ri_start_nonce i) None). split; [cbn; case_if; lia|by left].
Qed.

(** What the remote miner sends.  In any run of its loop, every share it submits is for
    the job the gate gave in the same turn and has a header whose hash meets that job's
    target, and the outcome it notes is the gate's answer to exactly that share; with the
    count of hashes it claims at most a thousand for each turn. *)
Theorem remote_shares_are_solved turns s s' shares :
  Forall (λ i, is_u32 (ri_start_nonce i)) turns → 0 <= rt_hashes s →
  rt_hashes s + 1000 * Z.of_nat (length turns) < 2 ^ 64 →
  remote_miner_task turns s = Some (s', shares) →
  rt_hashes s <= rt_hashes s' <= rt_hashes s + 1000 * Z.of_nat (length turns) ∧
  Forall (λ '(job, nonce, err), ∃ i, i ∈ turns ∧ fetch_job (ri_get i) gw = Some (Some job) ∧
    check_pow sha (build_header job nonce) (rj_target job) = true ∧
    err = submit_share (ri_post i) gw (rj_job_id job) nonce (rj_ntime job) (rj_version job)) shares.
Proof.
  intros Hall. revert s s' shares. induction Hall as [|i turns Hi _ IH]; intros s s' shares Hh0 Hb; cbn [remote_miner_task length].
  { intros [= <- <-]. split; [lia|constructor]. }
  intros Hr. apply bind_Some in Hr as ([s1 share] & H1 & Hr). apply bind_Some in Hr as ([s2 rest] & H2 & [= <- <-]).
  destruct (remote_turn_spec i s s1 share Hi H1) as ((k & Hk & Hh) & Hs). cbn [length] in Hb.
  assert (rt_hashes s <= rt_hashes s1 <= rt_hashes s + 1000) as Hh1
    by (destruct Hh as [-> | ->]; [rewrite u64_small by (unfold is_u64; lia)|]; lia).
  destruct (IH s1 s2 rest ltac:(lia) ltac:(lia) H2) as [Hcount Hrest]. split; [lia|].
  assert (Forall (λ '(job, nonce, err), ∃ j, j ∈ i :: turns ∧ fetch_job (ri_get j) gw = Some (Some job) ∧
    check_pow sha (build_header job nonce) (rj_target job) = true ∧
    err = submit_share (ri_post j) gw (rj_job_id job) nonce (rj_ntime job) (rj_version job)) rest) as Hrest'.
  { eapply Forall_impl; [exact Hrest|]. intros [[job nonce] err] (j & Hj & Hrem). exists j. split; [by apply list_elem_of_further|done]. }
  destruct share as [[[job nonce] err]|]; [|done]. constructor; [|done]. exists i. split; [apply list_elem_of_here|done].
Qed.
End task.

(** * A concrete run *)

#[local] Instance U_remote : CUndef := cundef_zero.
#[local] Instance J_remote : CJson jval := tree_json (λ _, Some (JObj
  [("job_id"%string, JInt 7); ("prevhash"%string, JStr ""); ("merkle_root"%string, JStr "");
   ("version"%string, JInt 2); ("nbits"%string, JInt 0x207fffff); ("ntime"%string, JInt 5)])).
Definition turn_example : remote_input := mk_input (λ _, Some (200, str_bytes "job")) (λ _ _, Some 200) 41 3000.

Lemma remote_shares_are_solved_witness :
  match remote_miner_task (λ _, replicate 32 0) "192.168.4.1" [turn_example] (remote_task_begins 0) with
  | Some (s', [(job, nonce, err)]) =>
      rt_hashes s' <= 1000 ∧ nonce = 41 ∧ err = ESP_OK ∧
      check_pow (λ _, replicate 32 0) (build_header job nonce) (rj_target job) = true
  | _ => False
  end.
Proof.
  destruct (remote_miner_task (λ _, replicate 32 0) "192.168.4.1" [turn_example] (remote_task_begins 0)) as [[s' shares]|] eqn:E;
    [|discriminate E].
  destruct (remote_shares_are_solved (λ _, replicate 32 0) "192.168.4.1" [turn_example] (remote_task_begins 0) s' shares)
    as [H1 H2]; [repeat constructor; unfold is_u32; cbn; lia|cbn; lia|cbn; lia|exact E|].
  clear H2. vm_compute in E. injection E as <- <-. split; [apply H1|]. split; [reflexivity|]. split; [reflexivity|].
  vm_compute. reflexivity.
Defined.
