(* ===== verification/Handshake.v ===== *)
(** The connections to a relay (ws_connect of main/cvm_server.c and of
    main/sync_manager.c): the address, TLS, the upgrade to a WebSocket and the search for
    the status in the answer; and the event that the remote control publishes over a
    connection of its own.  What TLS answers is a script. *)

From S2P Require Import Prelude CStr F64 Json WebSocket Sync.
#[local] Open Scope Z_scope.

(** Whether there is a handle, what the connection to an address and the write of the
    request give, and the records that arrive. *)
Record tls_script := mk_tls {
  tl_init : bool; tl_connect : string * Z * string → Z; tl_write : Z; tl_answers : list tls_answer
}.

(** A connection that is up: the records still to come. *)
Record tls_up := mk_up { up_answers : list tls_answer }.

(** The result of connecting, the connection if it is up, what was written, and how many
    handles were made and destroyed. *)
Record connected := mk_connected {
  co_err : esp_err_t; co_tls : option tls_up; co_sent : list Z; co_made : nat; co_destroyed : nat
}.

Section handshake.
(** The 1024 bytes of the local array [resp]. *)
Variable uninit : list Z.

(** [None]: the search for the status runs past the array. *)
Definition await_upgrade (answers : list tls_answer) : option (option (list tls_answer)) :=
  let '(rlen, resp, rest) := tls_read 1023 uninit answers in
  if rlen <=? 0 then Some None else
  match strstr "101" (cstr resp) with
  | Some _ => Some (Some rest)
  | None => if bool_decide (0 ∈ resp) then Some None else None
  end.

(** Both functions; [checked]: the result of writing the request is looked at. *)
Definition upgrade (checked : bool) (s : tls_script) (address : string * Z * string) : option connected :=
  let '(host, port, path) := address in
  if negb (tl_init s) then Some (mk_connected ESP_ERR_NO_MEM None [] 0 0) else
  if tl_connect s address <? 0 then Some (mk_connected ESP_FAIL None [] 1 1) else
  let sent := str_bytes (upgrade_request host path) in
  if checked && (tl_write s <? 0) then Some (mk_connected ESP_FAIL None sent 1 1) else
  up ← await_upgrade (tl_answers s);
  Some match up with
       | Some rest => mk_connected ESP_OK (Some (mk_up rest)) sent 1 0
       | None => mk_connected ESP_FAIL None sent 1 1
       end.

Definition cvm_ws_connect (s : tls_script) (relay_url : string) : option connected :=
  match relay_address relay_url with
  | None => Some (mk_connected ESP_ERR_INVALID_ARG None [] 0 0)
  | Some address => upgrade true s address
  end.
Definition sync_ws_connect (s : tls_script) (wss_url : string) : option connected := upgrade false s (sync_address wss_url).

(** [publish_event_to_relay]; [writes]: what the writes of the frame answer.  The reply of
    the relay is read and thrown away.  [None] also when there is no memory for the
    message, or the writes do not end. *)
Definition publish_event_to_relay (malloc_ok : bool) (mask writes : list Z) (s : tls_script) (relay_url event_json : string)
  : option connected :=
  c ← cvm_ws_connect s relay_url;
  match co_tls c with
  | None => Some c
  | Some _ =>
      if negb malloc_ok then None else
      let msg_len2 := (10 + String.length event_json + 2)%nat in
      let msg := str_take (msg_len2 - 1) ("[" +:+ dq "EVENT" +:+ "," +:+ event_json +:+ "]")%string in
      '(_, frame) ← ws_send_text mask writes msg;
      Some (mk_connected ESP_OK None (co_sent c ++ frame ++ close_frame) (co_made c) (S (co_destroyed c)))
  end.
End handshake.

(** * Handles and bytes *)

(** A handle is left exactly with a connection that is up. *)
Definition books_kept (c : connected) : Prop :=
  (co_made c = co_destroyed c + match co_tls c with Some _ => 1 | None => 0 end)%nat.

Lemma upgrade_books uninit checked s address c :
  upgrade uninit checked s address = Some c → books_kept c ∧ (co_err c = ESP_OK ↔ is_Some (co_tls c)).
Proof.
  unfold upgrade. destruct address as [[host port] path].
  destruct (negb (tl_init s)); [intros [= <-]; cbn; split; [done|split; [done|by intros [? ?]]]|].
  destruct (_ <? _); [intros [= <-]; cbn; split; [done|split; [done|by intros [? ?]]]|].
  destruct (_ && _); [intros [= <-]; cbn; split; [done|split; [done|by intros [? ?]]]|].
  destruct (await_upgrade uninit (tl_answers s)) as [[rest|]|]; cbn; intros [= <-]; cbn;
    (split; [done|split; [by eauto|by intros [? ?]]]).
Qed.

Lemma write_all_sends answers frame sent : write_all answers frame = Some (true, sent) → sent = frame.
Proof.
  revert frame sent. induction answers as [|w answers IH]; intros [|b frame] sent; cbn [write_all]; try by intros [= <-].
  case_if; [done|]. destruct (write_all answers (drop (Z.to_nat w) (b :: frame))) as [[ok s]|] eqn:Ew; [|done].
  intros [= -> <-]. rewrite (IH _ _ Ew). apply take_drop.
Qed.

(** Connections to relays.  Whatever the network does, both functions leave a handle
    exactly when they report success; an event published leaves none, and what has gone
    out is the request for the upgrade, a frame and the frame that closes the connection;
    when every byte of the frame was taken, it reads as the message of that event. *)
Theorem relay_connections_ok uninit s url malloc mask writes json c :
  length mask = 4%nat → no_nul json → Z.of_nat (String.length json) + 11 < 2 ^ 31 →
  (∀ n, n < 2 ^ 31 → malloc n = true) →
  (∀ d, sync_ws_connect uninit s url = Some d → books_kept d ∧ (co_err d = ESP_OK ↔ is_Some (co_tls d))) ∧
  (∀ d, cvm_ws_connect uninit s url = Some d → books_kept d ∧ (co_err d = ESP_OK ↔ is_Some (co_tls d))) ∧
  (publish_event_to_relay uninit true mask writes s url json = Some c →
   co_made c = co_destroyed c ∧ co_tls c = None ∧
   (co_err c = ESP_OK → ∃ host port path frame ok,
      relay_address url = Some (host, port, path) ∧
      co_sent c = str_bytes (upgrade_request host path) ++ frame ++ close_frame ∧
      write_all writes (ws_text_frame mask ("[" +:+ dq "EVENT" +:+ "," +:+ json +:+ "]")) = Some (ok, frame) ∧
      (ok = true → frame_text malloc frame = Some (Some ("[" +:+ dq "EVENT" +:+ "," +:+ json +:+ "]"))%string))).
Proof.
  intros Hm Hn Hl Hmal.
  assert (∀ d, cvm_ws_connect uninit s url = Some d → books_kept d ∧ (co_err d = ESP_OK ↔ is_Some (co_tls d))) as Hcvm.
  { unfold cvm_ws_connect. intros d. destruct (relay_address url); [apply upgrade_books|].
    intros [= <-]. cbn. split; [done|split; [done|by intros [? ?]]]. }
  split_and!; [intros d; apply upgrade_books|exact Hcvm|].
  unfold publish_event_to_relay. intros Hp. apply bind_Some in Hp as (d & Hd & Hp).
  destruct (Hcvm d Hd) as [Hb Hok]. unfold books_kept in Hb. destruct (co_tls d) as [up|] eqn:Hup.
  2:{ injection Hp as <-. rewrite Hup. split_and!; [lia|done|]. intros E%Hok. by destruct E. }
  cbn [negb] in Hp. set (text := ("[" +:+ dq "EVENT" +:+ "," +:+ json +:+ "]")%string) in *.
  assert (String.length text = 10 + String.length json)%nat as Hlt.
  { subst text. rewrite !str_append_length. change (String.length (dq "EVENT")) with 7%nat. cbn [String.length]. lia. }
  rewrite str_take_all in Hp by lia. unfold ws_send_text in Hp.
  destruct (write_all writes (ws_text_frame mask text)) as [[ok frame]|] eqn:Hw; [|done]. injection Hp as <-. cbn [co_made co_destroyed co_tls co_err co_sent].
  split_and!; [lia|done|]. intros _. unfold cvm_ws_connect in Hd. destruct (relay_address url) as [[[host port] path]|] eqn:Hu.
  2:{ injection Hd as <-. discriminate. }
  exists host, port, path, frame, ok. split_and!; [done| |done|].
  - f_equal. revert Hd Hup. unfold upgrade. repeat (case_if; [by intros [= <-]|]).
    destruct (await_upgrade uninit (tl_answers s)) as [[rest|]|]; cbn; by intros [= <-].
  - intros ->. rewrite (write_all_sends _ _ _ Hw). unfold frame_text, ws_text_frame.
    rewrite (parse_frame malloc 0x80 _ mask).
    + cbn [Z.eqb Pos.eqb option_map]. rewrite xor_mask_involutive, cstr_str_bytes; [done|].
      unfold no_nul, text in *. rewrite !str_bytes_app. repeat (apply Forall_app_2; [by apply (bool_decide_unpack _)|]).
      apply Forall_app_2; [done|by apply (bool_decide_unpack _)].
    + by left.
    + done.
    + by rewrite length_xor_mask, length_str_bytes.
    + lia.
    + apply Hmal. lia.
Qed.

Definition upgraded_script : tls_script := mk_tls true (λ _, 0) 1 [Some (str_bytes "HTTP/1.1 101 Switching Protocols")].

Lemma relay_connections_ok_witness :
  ∃ c, publish_event_to_relay (replicate 1024 0) true [1; 2; 3; 4] [1000] upgraded_script "wss://nos.lol" "{}" = Some c ∧
    co_err c = ESP_OK ∧ co_made c = co_destroyed c ∧ co_tls c = None ∧
    ∃ host port path frame ok, relay_address "wss://nos.lol" = Some (host, port, path) ∧
      co_sent c = str_bytes (upgrade_request host path) ++ frame ++ close_frame ∧
      write_all [1000] (ws_text_frame [1; 2; 3; 4] ("[" +:+ dq "EVENT" +:+ ",{}]")) = Some (ok, frame).
Proof.
  destruct (publish_event_to_relay (replicate 1024 0) true [1; 2; 3; 4] [1000] upgraded_script "wss://nos.lol" "{}") as [c|] eqn:Hp;
    [|vm_compute in Hp; discriminate Hp].
  assert (He : co_err c = ESP_OK) by (revert Hp; vm_compute; intros [= <-]; reflexivity).
  destruct (relay_connections_ok (replicate 1024 0) upgraded_script "wss://nos.lol" (λ _, true) [1; 2; 3; 4] [1000] "{}" c)
    as (_ & _ & H); [reflexivity|apply (bool_decide_unpack _); vm_compute; exact I|cbn; lia|done|].
  destruct (H Hp) as (H1 & H2 & H3). destruct (H3 He) as (host & port & path & frame & ok & Ha & Hs & Hw & _).
  exists c. split; [reflexivity|]. split; [exact He|]. split; [exact H1|]. split; [exact H2|].
  exists host, port, path, frame, ok. split; [exact Ha|]. split; [exact Hs|exact Hw].
Defined.
