(* ===== verification/Faucet.v ===== *)
(** The faucet (main/faucet_client.c), which is asked for a token at intervals, and the
    hand-over of a token to the wallet (main/tls_worker.c).  The allocator, HTTP and
    cJSON are parameters; [None] of an operation is an access outside a block. *)

From S2P Require Import Prelude CStr F64 Json Config.
#[local] Open Scope Z_scope.

(** * Handing a token to the wallet *)

Inductive wallet_event := EvQueued (token : string) | EvReceive (token : string).

(** [queue]: whether the queue, if there is one, takes the token within a second;
    [strdup_ok]: whether the copy for it could be made. *)
Definition tls_worker_submit (queue : option bool) (strdup_ok : bool) (token : string) : list wallet_event :=
  match queue with
  | None => [EvReceive token]
  | Some taken => if strdup_ok then [if taken then EvQueued token else EvReceive token] else []
  end.

(** * Collecting the answer *)

(** The static buffer: its bytes up to [s_response_len], once allocated, and its size. *)
Record response := mk_response { s_response_buf : option (list Z); s_response_cap : Z }.

Section collect.
Variable malloc : Z → bool.

(** [HTTP_EVENT_ON_DATA] *)
Definition http_event_handler (data : list Z) (r : response) : option (esp_err_t * response) :=
  let r1 :=
    match s_response_buf r with
    | Some b => Some (b, s_response_cap r)
    | None => if malloc 8192 then Some ([], 8192) else None
    end in
  match r1 with
  | None => Some (ESP_FAIL, mk_response None 8192)
  | Some (buf, cap) =>
      let need := Z.of_nat (length buf) + Z.of_nat (length data) + 1 in
      let new_cap := if cap <? need then i32 (cap * 2) else cap in
      if (cap <? need) && negb (malloc new_cap) then Some (ESP_FAIL, mk_response (Some buf) cap)
      else if new_cap <? need then None
      else Some (ESP_OK, mk_response (Some (buf ++ data)) new_cap)
  end.

(** The client goes on with the next piece whatever the handler answers. *)
Fixpoint collect (chunks : list (list Z)) (r : response) : option response :=
  match chunks with
  | [] => Some r
  | data :: chunks' => '(_, r') ← http_event_handler data r; collect chunks' r'
  end.
End collect.

(** * The task *)

Section faucet.
Context `{CJson J}.
Variable cJSON_GetObjectItemCaseSensitive : J → string → option J.
Variable malloc : Z → bool.
Variable cfg : tollgate_config_t.
(** The POST request with its body: result, status and the pieces of the answer; [None]
    if the client cannot be made. *)
Variable http_post : string → string → option (esp_err_t * Z * list (list Z)).
Variable queue : option bool.
Variable strdup_ok : bool.

Definition post_body : string := ("{" +:+ dq "amount" +:+ ":10}")%string.

(** The token of an answer that reports success. *)
Definition faucet_token (root : J) : option string :=
  success ← cJSON_GetObjectItemCaseSensitive root "success";
  token_item ← cJSON_GetObjectItemCaseSensitive root "token";
  if bool_decide (bool_of success = Some true) then str_of token_item else None.

Definition faucet_poll_once : option (bool * list wallet_event) :=
  if str_empty (cf_faucet_url cfg) then Some (false, []) else
  match http_post (cf_faucet_url cfg) post_body with
  | None => Some (false, [])
  | Some (err, status, chunks) =>
      r ← collect malloc chunks (mk_response None 0);
      let answer := default [] (s_response_buf r) in
      Some (if negb (bool_decide (err = ESP_OK)) || negb (status =? 200) then (false, [])
            else if bool_decide (answer = []) then (false, [])
            else match cJSON_Parse (cstr answer) ≫= faucet_token with
                 | Some token => (true, tls_worker_submit queue strdup_ok token)
                 | None => (false, [])
                 end)
  end.

(** The pause between two requests; [None]: the product overflows an [int]. *)
Definition interval_ms : option Z :=
  if 0 <? cf_faucet_poll_interval_s cfg then
    let ms := cf_faucet_poll_interval_s cfg * 1000 in if ms <? 2 ^ 31 then Some ms else None
  else Some 120000.
End faucet.

(** Whether the task is to run, whether its stack is allocated, and the tasks that run
    on it. *)
Record faucet_state := mk_faucet { fc_running : bool; fc_stack : bool; fc_tasks : nat }.

Definition faucet_boot : faucet_state := mk_faucet false false 0.

(** [None]: the stack of a task that has not ended yet is freed. *)
Definition faucet_client_start (faucet_url : string) (stack_ok task_ok : bool) (s : faucet_state)
  : option (esp_err_t * faucet_state) :=
  if str_empty faucet_url then Some (ESP_OK, s)
  else if fc_running s then Some (ESP_OK, s)
  else if fc_stack s && negb (fc_tasks s =? 0)%nat then None
  else Some (if negb stack_ok then (ESP_FAIL, mk_faucet false false (fc_tasks s))
             else if negb task_ok then (ESP_FAIL, mk_faucet false false (fc_tasks s))
             else (ESP_OK, mk_faucet true true (S (fc_tasks s)))).
Definition faucet_client_stop (s : faucet_state) : faucet_state := mk_faucet false (fc_stack s) (fc_tasks s).

(** The task looks at the flag when a pause ends. *)
Definition faucet_task_wakes (s : faucet_state) : faucet_state :=
  if fc_running s then s else mk_faucet (fc_running s) (fc_stack s) (Nat.pred (fc_tasks s)).

(** A restart within a pause pulls the stack from under the sleeping task. *)
Example restart_frees_live_stack :
  ('(_, s) ← faucet_client_start "http://faucet" true true faucet_boot;
   faucet_client_start "http://faucet" true true (faucet_client_stop s)) = None.
Proof. reflexivity. Qed.

(** * What is collected *)

Section pieces.
Context (malloc : Z → bool).
Hypothesis malloc_ok : ∀ n, 0 < n → malloc n = true.

(** Room for the terminator, and a block no larger than twice what it holds. *)
Definition response_wf (r : response) : Prop :=
  match s_response_buf r with
  | Some b => Z.of_nat (length b) < s_response_cap r ∧
              8192 <= s_response_cap r <= 8194 + 2 * Z.of_nat (length b)
  | None => True
  end.
Definition received (r : response) : list Z := default [] (s_response_buf r).

Lemma handler_appends data r :
  response_wf r → Z.of_nat (length data) <= 8192 →
  Z.of_nat (length (received r ++ data)) < 2 ^ 28 →
  ∃ r', http_event_handler malloc data r = Some (ESP_OK, r') ∧ response_wf r' ∧
        s_response_buf r' = Some (received r ++ data).
Proof.
  unfold received. intros Hr Hd Ht. rewrite length_app in Ht. pow_consts.
  unfold http_event_handler.
  assert (∃ b cap, default [] (s_response_buf r) = b ∧ Z.of_nat (length b) < cap ∧
            8192 <= cap <= 8194 + 2 * Z.of_nat (length b) ∧
            match s_response_buf r with Some b => Some (b, s_response_cap r)
            | None => if malloc 8192 then Some ([], 8192) else None end = Some (b, cap)) as (b & cap & Hb & Hl & Hc & ->).
  { unfold response_wf in Hr. destruct (s_response_buf r) as [b|]; [destruct Hr; exists b, (s_response_cap r); split_and!; done || lia|].
    rewrite malloc_ok by lia. exists [], 8192. split_and!; try done; cbn; lia. }
  rewrite Hb in *. destruct (Z.ltb_spec cap (Z.of_nat (length b) + Z.of_nat (length data) + 1)); cbn [andb].
  - rewrite i32_small by (pow_consts; lia). rewrite malloc_ok by lia. cbn [negb].
    rewrite (proj2 (Z.ltb_ge _ _)) by lia. eexists. split_and!; [done| |done].
    unfold response_wf. cbn. rewrite length_app. lia.
  - rewrite (proj2 (Z.ltb_ge _ _)) by lia. eexists. split_and!; [done| |done].
    unfold response_wf. cbn. rewrite length_app. lia.
Qed.

Lemma collect_all chunks r :
  response_wf r → Forall (λ c, Z.of_nat (length c) <= 8192) chunks →
  Z.of_nat (length (received r ++ mjoin chunks)) < 2 ^ 28 →
  ∃ r', collect malloc chunks r = Some r' ∧ received r' = received r ++ mjoin chunks.
Proof.
  intros Hr Hc. revert r Hr. induction Hc as [|c chunks Hc Hcs IH]; intros r Hr Ht; cbn [collect].
  - exists r. by rewrite app_nil_r.
  - cbn [mjoin list_join] in Ht |- *. rewrite app_assoc in Ht.
    destruct (handler_appends c r Hr Hc) as (r1 & -> & Hw & Hb).
    { rewrite length_app in Ht. lia. }
    assert (received r1 = received r ++ c) as Hr1 by (unfold received at 1; by rewrite Hb).
    destruct (IH r1 Hw) as (r' & He & Hr'); [by rewrite Hr1|]. exists r'. split; [done|].
    by rewrite Hr', Hr1, app_assoc.
Qed.
End pieces.

Section poll.
Context `{CJson J} (get : J → string → option J) (malloc : Z → bool) (cfg : tollgate_config_t)
  (http_post : string → string → option (esp_err_t * Z * list (list Z))).

(** When the faucet answers with status 200 in pieces of at most 8192 bytes, fewer
    than 2^28 in all, and memory can be had, the answer is put together whole, whatever
    the pieces, within its block, and a request has exactly one effect: the token of an
    answer that reports success goes to the wallet, and any other answer does nothing. *)
Theorem faucet_token_reaches_wallet queue strdup_ok chunks :
  (∀ n, 0 < n → malloc n = true) → cf_faucet_url cfg ≠ EmptyString →
  http_post (cf_faucet_url cfg) post_body = Some (ESP_OK, 200, chunks) →
  Forall (λ c, Z.of_nat (length c) <= 8192) chunks → Z.of_nat (length (mjoin chunks)) < 2 ^ 28 →
  mjoin chunks ≠ [] →
  faucet_poll_once get malloc cfg http_post queue strdup_ok =
  Some match cJSON_Parse (cstr (mjoin chunks)) ≫= faucet_token get with
       | Some token => (true, tls_worker_submit queue strdup_ok token)
       | None => (false, [])
       end.
Proof.
  intros Hm Hu Hp Hc Ht Hn. unfold faucet_poll_once.
  assert (str_empty (cf_faucet_url cfg) = false) as -> by (by destruct (cf_faucet_url cfg)).
  rewrite Hp. destruct (collect_all malloc Hm chunks (mk_response None 0) I Hc Ht) as (r & -> & Hr).
  unfold received in Hr. cbn [mbind option_bind s_response_buf default app] in Hr |- *. rewrite Hr.
  rewrite bool_decide_true by done. cbn [negb orb Z.eqb Pos.eqb].
  by rewrite bool_decide_false.
Qed.
End poll.

(** A piece larger than the block after it has been doubled is copied past its end. *)
Theorem large_piece_overruns (malloc : Z → bool) (data : list Z) :
  (∀ n, 0 < n → malloc n = true) → 16384 <= Z.of_nat (length data) →
  http_event_handler malloc data (mk_response None 0) = None.
Proof.
  intros Hm Hd. unfold http_event_handler. cbn [s_response_buf]. rewrite Hm by lia. cbn [length].
  rewrite (proj2 (Z.ltb_lt 8192 _)) by lia. change (i32 (8192 * 2)) with 16384. rewrite Hm by lia. cbn [negb andb].
  by rewrite (proj2 (Z.ltb_lt 16384 _)) by lia.
Qed.

(** * Concrete runs *)

Definition faucet_answer : jval :=
  JObj [("success"%string, JBool true); ("token"%string, JStr "cashuA"); ("amount"%string, JInt 10)].
(** Only the text of the answer is JSON. *)
Definition faucet_parse (t : string) : option jval :=
  if bool_decide (t = "{...}"%string) then Some faucet_answer else None.
Definition faucet_config : tollgate_config_t :=
  match @load_config cundef_zero jval (tree_json (λ _, None))
          (JObj [("nsec"%string, JStr "k"); ("mining"%string, JObj [("faucet_url"%string, JStr "http://f")])]) with
  | Some (ESP_OK, c) => c
  | _ => config_defaults
  end.

Lemma faucet_token_reaches_wallet_witness :
  @faucet_poll_once jval (tree_json faucet_parse) (λ j k, @cJSON_GetObjectItem jval (tree_json faucet_parse) j k)
    (λ n, 0 <? n) faucet_config (λ _ _, Some (ESP_OK, 200, [str_bytes "{.."; str_bytes ".}"])) (Some true) true
  = Some (true, [EvQueued "cashuA"]).
Proof.
  rewrite (@faucet_token_reaches_wallet jval (tree_json faucet_parse)
             (λ j k, @cJSON_GetObjectItem jval (tree_json faucet_parse) j k) (λ n, 0 <? n) faucet_config
             (λ _ _, Some (ESP_OK, 200, [str_bytes "{.."; str_bytes ".}"])) (Some true) true
             [str_bytes "{.."; str_bytes ".}"]).
  - vm_compute. reflexivity.
  - intros n Hn. by apply Z.ltb_lt.
  - vm_compute. discriminate.
  - reflexivity.
  - repeat constructor; vm_compute; discriminate.
  - vm_compute. reflexivity.
  - vm_compute. discriminate.
Defined.
