(* ===== verification/Announce.v ===== *)
(** What the gate announces of itself: the signed event it publishes at intervals on the
    configured relays (main/wifistr.c), and the information element in its beacons
    (main/beacon_price.c).  TLS, SHA-256, the signature and cJSON are parameters; the
    timer, the log and the reply that is only logged are left out. *)

From S2P Require Import Prelude CStr F64 Json Beacon Dns RateLimiter SubManager Storage Relay.
From S2P Require Import Config Identity NostrEvent WebSocket RelaySelector Sync.
#[local] Open Scope Z_scope.

(** * The event *)

Section event.
Context `{CJson J}.
Variable cJSON_Duplicate : J → jval.
Variable mbedtls_sha256 : list Z → list Z.
Context {keypair : Type}.
Variable secp256k1_keypair_create : list Z → option keypair.
Variable secp256k1_schnorrsig_sign32 : keypair → list Z → option (list Z).

Definition tag (name value : string) : jval := JArr [JStr name; JStr value].

Definition wifistr_tags (id : tollgate_identity_t) (cfg : tollgate_config_t) : jval :=
  JArr [tag "d" (id_npub_hex id); tag "ssid" (id_ap_ssid id); tag "h" "cashu-testnut";
        tag "security" "open"; tag "g" (cf_nostr_geohash cfg); tag "c" "cashu"].

Definition wifistr_content (id : tollgate_identity_t) (cfg : tollgate_config_t) : string :=
  str_take 511
    ("TollGate WiFi hotspot: " +:+ id_ap_ssid id +:+ " | Price: " +:+ print_d (cf_price_per_step cfg)
     +:+ " sats/" +:+ print_d (cf_step_size_ms cfg) +:+ "ms | Mint: " +:+ cf_mint_url cfg)%string.

(** [now]: the clock; [malloc_ok]: whether the block for the text can be had.  The outer
    option is that of [nostr_event_sign], whose result is not looked at. *)
Definition build_wifistr_event (now : Z) (malloc_ok : bool) (id : tollgate_identity_t) (cfg : tollgate_config_t)
  : option (option string) :=
  if negb (id_initialized id) then Some None else
  let event := nostr_event_init cJSON_Duplicate mbedtls_sha256 now (id_npub_hex id) 38787
                 (Some (cJSON_PrintUnformatted (wifistr_tags id cfg))) (Some (wifistr_content id cfg)) in
  '(_, signed) ← nostr_event_sign secp256k1_keypair_create secp256k1_schnorrsig_sign32 event (id_nsec id);
  Some (if malloc_ok then nostr_event_to_json cJSON_Duplicate signed 2048 else None).

(** * Sending it *)

(** What happens at one relay: whether a handle can be had, the result of the connection,
    that of writing the request, and the records that arrive. *)
Record relay_session := mk_session {
  rs_init : bool;
  rs_connect : Z;
  rs_write : Z;
  rs_answers : list tls_answer
}.

Definition request_text (event_json : string) : string :=
  cJSON_PrintUnformatted (JArr ([JStr "EVENT"] ++ opt_item (cJSON_Duplicate <$> cJSON_Parse event_json))).

(** [uninit]: the 1024 bytes of the local array [resp].  The result and what was given to
    [esp_tls_conn_write]; [None]: the search for "101" runs past the array. *)
Definition ws_send_to_relay (uninit : list Z) (s : relay_session) (relay_url event_json : string)
  : option (esp_err_t * list (list Z)) :=
  match relay_address relay_url with
  | None => Some (ESP_ERR_INVALID_ARG, [])
  | Some (host, port, path) =>
      if negb (rs_init s) then Some (ESP_ERR_NO_MEM, []) else
      if rs_connect s <? 0 then Some (ESP_FAIL, []) else
      let upgrade := str_bytes (upgrade_request host path) in
      if rs_write s <? 0 then Some (ESP_FAIL, [upgrade]) else
      let '(rlen, resp, _) := tls_read 1023 uninit (rs_answers s) in
      if rlen <=? 0 then Some (ESP_FAIL, [upgrade]) else
      match strstr "101" (cstr resp) with
      | None => if bool_decide (0 ∈ resp) then Some (ESP_FAIL, [upgrade]) else None
      | Some _ => Some (ESP_OK, [upgrade; plain_text_frame (request_text event_json); close_frame])
      end
  end.

(** The relays in turn: the last result, and what each was sent. *)
Fixpoint publish_loop (uninit : list Z) (event_json : string) (relays : list (string * relay_session))
    (last_err : esp_err_t) : option (esp_err_t * list (list (list Z))) :=
  match relays with
  | [] => Some (last_err, [])
  | (url, s) :: relays' =>
      '(err, sent) ← ws_send_to_relay uninit s url event_json;
      '(last_err', rest) ← publish_loop uninit event_json relays'
                             (if bool_decide (err = ESP_OK) then ESP_OK else last_err);
      Some (last_err', sent :: rest)
  end.

(** [sessions]: what happens at each of the configured relays. *)
Definition wifistr_publish (now : Z) (malloc_ok : bool) (uninit : list Z) (sessions : list relay_session)
    (id : tollgate_identity_t) (cfg : tollgate_config_t) : option (esp_err_t * list (list (list Z))) :=
  text ← build_wifistr_event now malloc_ok id cfg;
  match text with
  | None => Some (ESP_FAIL, [])
  | Some event_json =>
      publish_loop uninit event_json
        (zip (take (Z.to_nat (cf_nostr_relay_count cfg)) (cf_nostr_relays cfg)) sessions) ESP_FAIL
  end.
End event.

(** The timer of [wifistr_start_periodic], once it runs, with its period in ticks: it is
    never stopped, and its interval is the one of the first start. *)
Definition wifistr_start_periodic (pdMS_TO_TICKS : Z → Z) (timer_ok : bool) (interval_s : Z) (s_publish_timer : option Z)
  : option Z :=
  match s_publish_timer with
  | Some period => Some period
  | None => if timer_ok then Some (pdMS_TO_TICKS (i32 (interval_s * 1000))) else None
  end.

(** * The beacon *)

Section beacon.
Variable mbedtls_sha256 : list Z → list Z.

Definition beacon_config (id : tollgate_identity_t) (cfg : tollgate_config_t) : tollgate_beacon_config_t :=
  mk_beacon_config (cf_mint_url cfg) (cf_metric cfg) (cf_price_per_step cfg) (cf_step_size_ms cfg)
    (cf_step_size_bytes cfg) (cf_nostr_geohash cfg) (if id_initialized id then Some (id_npub_hex id) else None)
    (id_initialized id).
Definition beacon_price_build_ie (id : tollgate_identity_t) (cfg : tollgate_config_t) : tollgate_price_ie_t :=
  tollgate_core_beacon_build_ie mbedtls_sha256 (beacon_config id cfg).

(** The element of each of the two frames the driver was given: beacon, probe response. *)
Record advertised := mk_advertised {
  ad_active : bool;
  ad_beacon : option tollgate_price_ie_t;
  ad_probe : option tollgate_price_ie_t
}.

(** [set_beacon], [set_probe]: the driver's answers. *)
Definition beacon_price_start (set_beacon set_probe : esp_err_t) (id : tollgate_identity_t) (cfg : tollgate_config_t)
    (a : advertised) : esp_err_t * advertised :=
  if ad_active a then (ESP_OK, a) else
  let ie := beacon_price_build_ie id cfg in
  if negb (bool_decide (set_beacon = ESP_OK)) then (set_beacon, a)
  else (ESP_OK, mk_advertised true (Some ie) (if bool_decide (set_probe = ESP_OK) then Some ie else ad_probe a)).
Definition beacon_price_stop (a : advertised) : esp_err_t * advertised :=
  if ad_active a then (ESP_OK, mk_advertised false None None) else (ESP_OK, a).
End beacon.

(** * What is announced *)

Section valid.
Context `{Schnorr keypair create sign xonly verify}
  (parse : string → option jval) (print : jval → string) (sha : list Z → list Z).
#[local] Hint Extern 0 (CJson jval) => exact (J_event parse print) : typeclass_instances.

Notation build := (build_wifistr_event (λ j, j) sha create sign).

(** What [wifistr_publish] announces is a valid event of this gate: the text is that of
    an event of kind 38787 under the gate's public key whose tags name that key, the
    network and the place of the gate, it has fewer than 2048 characters, and when it is
    parsed as it was printed the relay's validator accepts it. *)
Theorem announcement_is_valid now id cfg k text :
  sha256_bytes sha → create (id_nsec id) = Some k → id_npub_hex id = hex_bytes (xonly k) →
  (∀ msg, length msg = 32%nat → Forall is_u8 msg → is_Some (sign k msg)) →
  build now true id cfg = Some (Some text) →
  ∃ signed,
    text = print (event_tree (λ j, j) signed) ∧ (String.length text < 2048)%nat ∧
    ev_pubkey signed = id_npub_hex id ∧ ev_kind signed = 38787 ∧
    ev_tags_json signed = print (wifistr_tags id cfg) ∧ ev_content signed = wifistr_content id cfg ∧
    (parse text = Some (event_tree (λ j, j) signed) →
     relay_validator_verify_event (λ j, j) sha verify text = Some true).
Proof.
  intros Hs Hk Hn Hsig. unfold build_wifistr_event. case_if; [done|]. rewrite Hn.
  pose proof (signed_event_valid parse print sha now 38787 (Some (print (wifistr_tags id cfg)))
                (Some (wifistr_content id cfg)) (id_nsec id) k Hs ltac:(lia) Hk) as Hv.
  cbv zeta in Hv.
  pose proof (event_msg_init parse print sha now (hex_bytes (xonly k)) 38787 (Some (print (wifistr_tags id cfg)))
                (Some (wifistr_content id cfg)) Hs) as Hmsg.
  change (cJSON_PrintUnformatted (wifistr_tags id cfg)) with (print (wifistr_tags id cfg)).
  set (event := nostr_event_init _ _ _ _ _ _ _) in *.
  unfold nostr_event_sign in Hv |- *. rewrite Hmsg. rewrite Hmsg in Hv. cbn [mbind option_bind] in Hv |- *. rewrite Hk. rewrite Hk in Hv.
  destruct (Hs (str_bytes (print (event_serial (λ j, j) event)))) as [Hl Hu].
  destruct (Hsig _ Hl Hu) as [sig Hm]. rewrite Hm. rewrite Hm in Hv.
  cbv iota beta in Hv |- *. destruct Hv as [_ Hv]. intros Ht. injection Ht as Ht.
  destruct (Hv 2048%nat text Ht) as [Hlt Hver].
  eexists. split_and!; [|done| | | | |exact Hver].
  - unfold nostr_event_to_json in Ht. case_match; [done|]. by injection Ht.
  - cbn. apply strncpy_short. rewrite length_hex_bytes. destruct (xonly_bytes k) as [-> _]. done.
  - done.
  - done.
  - done.
Qed.
End valid.

(** * Who is told *)

Section publish.
Context `{CJson J} (dup : J → jval) (uninit : list Z) (text : string).

(** The result of one relay. *)
Definition relay_took (url : string) (s : relay_session) : Prop :=
  ∃ sent, ws_send_to_relay dup uninit s url text = Some (ESP_OK, sent).

Lemma publish_loop_sent relays last_err err sent :
  publish_loop dup uninit text relays last_err = Some (err, sent) →
  Forall2 (λ r out, ∃ e, ws_send_to_relay dup uninit r.2 r.1 text = Some (e, out)) relays sent ∧
  (err = ESP_OK ↔ last_err = ESP_OK ∨ Exists (λ r, relay_took r.1 r.2) relays) ∧
  (err ≠ ESP_OK → err = last_err).
Proof.
  revert last_err err sent. induction relays as [|[url s] relays IH]; intros last_err err sent; cbn [publish_loop].
  { intros [= <- <-]. split_and!; [constructor| |done]. split; [by left|]. intros [?|He]; [done|by inversion He]. }
  destruct (ws_send_to_relay dup uninit s url text) as [[e out]|] eqn:Hw; [|done]. cbn [mbind option_bind].
  destruct (publish_loop _ _ _ _ _) as [[err' rest]|] eqn:Hl; [|done]. cbn [mbind option_bind].
  intros [= <- <-]. destruct (IH _ _ _ Hl) as (HF & Hok & Hle).
  split_and!; [constructor; [by exists e|done]| |].
  - rewrite Hok, Exists_cons. cbn [fst snd]. case_bool_decide as He.
    + subst e. split; [|by left]. intros _. right. left. by exists out.
    + assert (¬ relay_took url s) by (intros [o Ho]; congruence). tauto.
  - intros Hne. specialize (Hle Hne). case_bool_decide; [|done]. by rewrite Hle in Hne.
Qed.

(** What a relay was sent tells whether it took the event. *)
Lemma relay_sent url s out e :
  ws_send_to_relay dup uninit s url text = Some (e, out) →
  (e = ESP_OK ∧ ∃ upgrade, out = [upgrade; plain_text_frame (request_text dup text); close_frame]) ∨
  (e ≠ ESP_OK ∧ (length out < 3)%nat).
Proof.
  unfold ws_send_to_relay.
  destruct (relay_address url) as [[[host port] path]|]; [|intros [= <- <-]; right; split; [done|cbn; lia]].
  destruct (tls_read _ _ _) as [[rlen resp] ?].
  repeat case_if; repeat case_match; intros [=]; subst; first [left; by eauto|right; split; [done|cbn; lia]].
Qed.

Lemma took_iff_sent relays sent :
  Forall2 (λ r out, ∃ e, ws_send_to_relay dup uninit r.2 r.1 text = Some (e, out)) relays sent →
  Exists (λ r, relay_took r.1 r.2) relays ↔ Exists (λ out, length out = 3%nat) sent.
Proof.
  induction 1 as [|[url s] out relays sent [e He] HF IH]; [by rewrite !Exists_nil|].
  rewrite !Exists_cons, IH. cbn [fst snd] in *. unfold relay_took.
  destruct (relay_sent url s out e He) as [[-> [up ->]]|[Hne Hlen]]; [split; intros _; left; [done|by eexists]|].
  split; intros [Ho|?]; try (by right); [destruct Ho as [o Ho]; congruence|lia].
Qed.

(** An announcement reports success exactly when one of the configured relays took it:
    every one of them is tried in turn, whatever became of those before it, and is sent
    what it would be sent alone; a relay that took the event was sent the request to
    upgrade, one frame with the event, and the frame that closes the connection. *)
Theorem announcement_outcome relays err sent :
  publish_loop dup uninit text relays ESP_FAIL = Some (err, sent) →
  err = (if decide (Exists (λ out, length out = 3%nat) sent) then ESP_OK else ESP_FAIL) ∧
  Forall2 (λ r out, ∃ e, ws_send_to_relay dup uninit r.2 r.1 text = Some (e, out) ∧
             (e = ESP_OK ↔ ∃ upgrade, out = [upgrade; plain_text_frame (request_text dup text); close_frame]))
    relays sent.
Proof.
  intros Hp. destruct (publish_loop_sent _ _ _ _ Hp) as (HF & Hok & Hle).
  rewrite (took_iff_sent _ _ HF) in Hok. split.
  - destruct (decide _) as [He|He]; [by apply Hok; right|]. apply Hle. intros [?|?]%Hok; done.
  - eapply Forall2_impl; [exact HF|]. intros r out [e He]. exists e. split; [done|].
    destruct (relay_sent _ _ _ _ He) as [[-> Hup]|[Hne Hlen]]; [done|].
    split; [done|]. intros [up ->]. cbn in Hlen. lia.
Qed.
End publish.

(** * Concrete runs *)

Definition announce_id : tollgate_identity_t :=
  mk_identity [] "" (hex_bytes (xonly_example tt)) [] [] "TollGate-1A2B" 0 "" [] [] "" true.
Definition announce_print (j : jval) : string := "e".

Lemma announcement_is_valid_witness :
  ∃ signed,
    @build_wifistr_event jval (printed_json (λ _, None) announce_print) (λ j, j) sha_example unit create_example
      sign_example 1700000000 true announce_id config_defaults = Some (Some "e"%string) ∧
    ev_pubkey signed = hex_bytes (seqZ 100 32) ∧ ev_kind signed = 38787.
Proof.
  destruct (@announcement_is_valid unit create_example sign_example xonly_example verify_example schnorr_example
              (λ _, None) announce_print sha_example 1700000000 announce_id config_defaults tt "e"%string)
    as (signed & _ & _ & Hp & Hk & _).
  - intros m. split; [reflexivity|]. apply seqZ_u8; lia.
  - reflexivity.
  - reflexivity.
  - intros msg Hl Hf. unfold sign_example. rewrite bool_decide_true by done. by eexists.
  - vm_compute. reflexivity.
  - exists signed. split; [vm_compute; reflexivity|]. split; [exact Hp|exact Hk].
Defined.

Definition upgraded : relay_session := mk_session true 0 1 [Some (str_bytes "HTTP/1.1 101")].
Definition refused : relay_session := mk_session true (-1) 0 [].
Definition announce_dup (j : jval) : jval := j.

Lemma announcement_outcome_witness :
  ∃ sent, @publish_loop jval (tree_json (λ _, None)) announce_dup (replicate 1024 0) "e"
            [("ws://plain", upgraded); ("wss://down", refused); ("wss://relay", upgraded)]%string ESP_FAIL
          = Some (ESP_OK, sent) ∧ length sent = 3%nat ∧ (length <$> sent) = [0; 0; 3]%nat.
Proof.
  destruct (@publish_loop jval (tree_json (λ _, None)) announce_dup (replicate 1024 0) "e"
    [("ws://plain", upgraded); ("wss://down", refused); ("wss://relay", upgraded)]%string ESP_FAIL)
    as [[err sent]|] eqn:Hp; [|vm_compute in Hp; discriminate].
  destruct (@announcement_outcome jval (tree_json (λ _, None)) announce_dup _ _ _ _ _ Hp) as [He HF].
  exists sent. assert ((length <$> sent) = [0; 0; 3]%nat) as Hlen
    by (vm_compute in Hp; injection Hp as _ <-; reflexivity).
  split; [|split; [symmetry; exact (Forall2_length _ _ _ HF)|exact Hlen]].
  do 2 f_equal. rewrite He. destruct sent as [|a [|b [|c [|]]]]; try discriminate Hlen.
  rewrite decide_True; [reflexivity|]. injection Hlen as _ _ Hc. by do 2 right; left.
Defined.
