(* ===== verification/Wallet.v ===== *)
(** The wallets of the gate (components/nucula_lib/nucula_wallet.cpp): up to four wallets of
    the Cashu library, one for each mint, behind one interface.  The library is an
    interface of operations ([CashuLib]) with the laws the code relies on
    ([CashuLaws]); a pointer to a wallet is its slot.  The status print only logs. *)

From S2P Require Import Prelude CStr F64 Json.
#[local] Open Scope Z_scope.

(** * The library *)

Record keyset := mk_keyset { ks_active : bool; ks_unit : string }.
Record cashu_token (P : Type) := mk_cashu_token { ct_mint : string; ct_unit : string; ct_proofs : list P }.
Arguments mk_cashu_token {P}.
Arguments ct_mint {P}.
Arguments ct_unit {P}.
Arguments ct_proofs {P}.
Record melt_quote := mk_quote { mq_amount : Z; mq_fee_reserve : Z }.

(** [cashu::Wallet] with its proofs; an operation that asks the mint gives its answer and
    the wallet after it. *)
Class CashuLib (W P : Type) := {
  new_wallet : string → nat → W;
  load_from_nvs : W → W;
  mint_url : W → string;
  balance : W → Z;
  proofs : W → list P;
  set_proofs : list P → W → W;
  save_proofs : W → W;
  keysets : W → list keyset;
  load_keysets : W → bool * W;
  receive : cashu_token P → W → option (list P) * W;
  select_proofs : Z → W → option (list P * list P);
  swap : list P → Z → string → W → option (list P * list P) * W;
  request_melt_quote : string → W → option melt_quote * W;
  melt_tokens : melt_quote → W → bool * W;
  deserialize_token_v3 : string → option (cashu_token P);
  serialize_token_v3 : cashu_token P → string;
  proof_amount : P → Z;
  proof_id : P → string;
  (** The unit of [swap] when none is given. *)
  default_unit : string
}.

Definition value `{CashuLib W P} (l : list P) : Z := foldr (λ p, Z.add (proof_amount p)) 0 l.

(** The balance is the value of the proofs, which only [set_proofs] and the operations that
    ask the mint change; a selection splits them; a swap gives what is asked for and at
    most what is put in. *)
Class CashuLaws (W P : Type) `{CashuLib W P} : Prop := {
  balance_value w : balance w = value (proofs w);
  proofs_set_proofs l w : proofs (set_proofs l w) = l;
  proofs_save_proofs w : proofs (save_proofs w) = proofs w;
  proofs_load_keysets w : proofs (load_keysets w).2 = proofs w;
  proofs_quote invoice w : proofs (request_melt_quote invoice w).2 = proofs w;
  select_splits n w l r : select_proofs n w = Some (l, r) → l ++ r ≡ₚ proofs w;
  proofs_swap l n unit w : proofs (swap l n unit w).2 = proofs w;
  swap_value l n unit w new change w' :
    swap l n unit w = (Some (new, change), w') → value new + value change <= value l;
  swap_amount l n unit w new change w' :
    swap l n unit w = (Some (new, change), w') → 0 <= n → value new = n
}.

Definition MAX_WALLETS : nat := 4.
Definition KEYSET_BASE_DELAY_MS : Z := 1000.
Definition KEYSET_MAX_DELAY_MS : Z := 30000.
Definition KEYSET_JITTER_MS : Z := 500.

(** The static variables of a slot, and of the file. *)
Record slot (W : Type) := mk_slot { sl_wallet : option W; sl_url : string; sl_loaded : bool; sl_attempts : Z }.
Arguments mk_slot {W}.
Arguments sl_wallet {W}.
Arguments sl_url {W}.
Arguments sl_loaded {W}.
Arguments sl_attempts {W}.
Record wallets (W : Type) := mk_wallets { wl_slots : list (slot W); wl_count : nat }.
Arguments mk_wallets {W}.
Arguments wl_slots {W}.
Arguments wl_count {W}.

Definition slot_empty {W} : slot W := mk_slot None "" false 0.
Definition wallets_boot {W} : wallets W := mk_wallets (replicate MAX_WALLETS slot_empty) 0.

(** What is asked of a mint and cannot be taken back: proofs given up for new ones. *)
Inductive mint_event (P : Type) := EvSwapped (i : nat) (inputs : list P) (new_proofs change : list P).
Arguments EvSwapped {P}.

Section wallet.
Context `{CashuLib W P}.
Implicit Types s : wallets W.
(** A shift by the width of an [int] or more. *)
Variable shl32_oob : Z → Z → Z.

Definition with_slots (f : list (slot W) → list (slot W)) s : wallets W := mk_wallets (f (wl_slots s)) (wl_count s).
Definition set_wallet (i : nat) (w : W) s : wallets W :=
  with_slots (alter (λ x, mk_slot (Some w) (sl_url x) (sl_loaded x) (sl_attempts x)) i) s.

(** [s_wallets[i]] of the slots in use. *)
Definition used s : list (option W) := sl_wallet <$> take (wl_count s) (wl_slots s).
Definition wallet_at s (i : nat) : option W := wl_slots s !! i ≫= sl_wallet.

(** * Keysets *)

Definition keyset_delay (attempts rnd : Z) : Z :=
  let delay_ms := if attempts <? 32 then i32 (Z.shiftl KEYSET_BASE_DELAY_MS attempts)
                  else shl32_oob KEYSET_BASE_DELAY_MS attempts in
  (if KEYSET_MAX_DELAY_MS <? delay_ms then KEYSET_MAX_DELAY_MS else delay_ms) + u32 rnd mod KEYSET_JITTER_MS.

(** Whether the keysets are there, and the pause made for them; [rnd]: [esp_random]. *)
Definition ensure_keysets (rnd : Z) (i : nat) s : bool * wallets W * option Z :=
  match wl_slots s !! i with
  | None => (false, s, None)
  | Some x =>
      match sl_wallet x with
      | None => (false, s, None)
      | Some w =>
          let put w loaded attempts := with_slots <[i := mk_slot (Some w) (sl_url x) loaded attempts]> s in
          if sl_loaded x then (true, s, None)
          else if negb (bool_decide (length (keysets w) = 0%nat)) then (true, put w true (sl_attempts x), None)
          else
            let delay := Some (keyset_delay (sl_attempts x) rnd) in
            let '(ok, w') := load_keysets w in
            if ok then (true, put w' true 0, delay) else (false, put w' false (sl_attempts x + 1), delay)
      end
  end.

(** * Choosing a wallet *)

Definition contains (s p : string) : bool := match strstr p s with Some _ => true | None => false end.

(** The first slot in use with a wallet that passes. *)
Definition first_wallet (f : W → bool) s : option nat :=
  find_slot (λ o, match o with Some w => f w | None => false end) (used s).
Definition slot_zero s : option nat := if bool_decide (is_Some (head (used s) ≫= id)) then Some 0%nat else None.

Definition token_is_for (mint : string) (w : W) : bool :=
  negb (str_empty (mint_url w)) && (contains mint (mint_url w) || contains (mint_url w) mint).
Definition find_wallet_for_token (tok : cashu_token P) s : option nat :=
  match first_wallet (token_is_for (ct_mint tok)) s with Some i => Some i | None => slot_zero s end.
Definition find_wallet_for_send (amount : Z) s : option nat :=
  match first_wallet (λ w, amount <=? balance w) s with Some i => Some i | None => slot_zero s end.

(** * Operations *)

Definition init_wallet (i : nat) (url : string) s : esp_err_t * wallets W :=
  if (MAX_WALLETS <=? i)%nat then (ESP_FAIL, s) else
  (ESP_OK, with_slots (alter (λ x, mk_slot (Some (load_from_nvs (new_wallet url i))) (strncpy 255 url)
                                      (sl_loaded x) (sl_attempts x)) i) s).

(** [mutex_ok], [ctx_ok]: whether the mutex and the context of the curve can be had. *)
Definition nucula_wallet_init (mutex_ok ctx_ok : bool) (url : string) s : esp_err_t * wallets W :=
  if (0 <? wl_count s)%nat then (ESP_OK, s) else
  if negb mutex_ok || negb ctx_ok then (ESP_FAIL, s) else
  let '(ret, s1) := init_wallet 0 url s in
  (ret, if bool_decide (ret = ESP_OK) then mk_wallets (wl_slots s1) 1 else s1).

Fixpoint init_loop (i : nat) (urls : list string) (ok : nat) s : nat * wallets W :=
  match urls with
  | [] => (ok, s)
  | url :: urls' =>
      let '(ret, s1) := init_wallet i url s in
      init_loop (S i) urls' (if bool_decide (ret = ESP_OK) then S ok else ok) s1
  end.

Definition nucula_wallet_init_multi (mutex_ok ctx_ok : bool) (urls : list string) s : esp_err_t * wallets W :=
  if (0 <? wl_count s)%nat then (ESP_OK, s) else
  let urls := take MAX_WALLETS urls in
  if negb mutex_ok || negb ctx_ok then (ESP_FAIL, s) else
  let '(ok, s1) := init_loop 0 urls 0 s in
  (if (0 <? ok)%nat then ESP_OK else ESP_FAIL, mk_wallets (wl_slots s1) (length urls)).

Definition nucula_wallet_receive (rnd : Z) (token_str : option string) s : esp_err_t * wallets W :=
  match token_str with
  | Some text =>
      if (wl_count s =? 0)%nat then (ESP_FAIL, s) else
      match (if has_prefix "cashuA" text then deserialize_token_v3 text else None) with
      | None => (ESP_FAIL, s)
      | Some tok =>
          match find_wallet_for_token tok s with
          | None => (ESP_FAIL, s)
          | Some i =>
              let '(ready, s1, _) := ensure_keysets rnd i s in
              if negb ready then (ESP_FAIL, s1) else
              match wallet_at s1 i with
              | None => (ESP_FAIL, s1)
              | Some w =>
                  let '(got, w') := receive tok w in
                  (if bool_decide (is_Some got) then ESP_OK else ESP_FAIL, set_wallet i w' s1)
              end
          end
      end
  | None => (ESP_FAIL, s)
  end.

(** The unit of the first active keyset. *)
Definition active_unit (w : W) : option string := ks_unit <$> List.find ks_active (keysets w).

(** The text of the token, with [token_out_size] bytes for it. *)
Definition nucula_wallet_send (rnd amount_sat : Z) (token_out_size : nat) s
  : esp_err_t * option string * wallets W * list (mint_event P) :=
  let fail s evs := (ESP_FAIL, None, s, evs) in
  if (wl_count s =? 0)%nat then fail s [] else
  let amount := i32 amount_sat in
  match find_wallet_for_send amount s with
  | None => fail s []
  | Some i =>
      let '(ready, s1, _) := ensure_keysets rnd i s in
      if negb ready then fail s1 [] else
      match wallet_at s1 i with
      | None => fail s1 []
      | Some w =>
          let wallet_unit := default "sat"%string (active_unit w) in
          match select_proofs amount w with
          | None => fail s1 []
          | Some (selected, remaining) =>
              let '(swapped, w1) := swap selected amount wallet_unit w in
              let s2 := set_wallet i w1 s1 in
              match swapped with
              | None => fail s2 []
              | Some (new_proofs, change) =>
                  let evs := [EvSwapped i selected new_proofs change] in
                  let encoded := serialize_token_v3 (mk_cashu_token (mint_url w1) wallet_unit new_proofs) in
                  if str_empty encoded || (token_out_size <=? String.length encoded)%nat then fail s2 evs
                  else (ESP_OK, Some encoded,
                        set_wallet i (save_proofs (set_proofs (remaining ++ change) w1)) s2, evs)
              end
          end
      end
  end.

Definition nucula_wallet_balance s : Z :=
  foldl (λ total o, match o with Some w => u64 (total + u64 (balance w)) | None => total end) 0 (used s).

Definition nucula_wallet_proof_count s : Z :=
  foldl (λ total o, match o with Some w => i32 (total + Z.of_nat (length (proofs w))) | None => total end) 0 (used s).

(** [s_unit]: the text left by the last call. *)
Definition nucula_wallet_unit (s_unit : string) s : string :=
  match omap (λ o, o ≫= active_unit) (used s) with unit :: _ => strncpy 15 unit | [] => s_unit end.

Definition nucula_wallet_proofs_json s : jval :=
  JArr (mjoin ((λ x, match sl_wallet x with
                     | Some w => (λ p, JObj [("amount"%string, JInt (proof_amount p)); ("id"%string, JStr (proof_id p));
                                             ("mint"%string, JStr (sl_url x))]) <$> proofs w
                     | None => []
                     end) <$> take (wl_count s) (wl_slots s))).

(** The proofs of a wallet for fresh ones. *)
Definition swap_one (rnd : Z) (i : nat) s : bool * wallets W * list (mint_event P) :=
  match wallet_at s i with
  | None => (false, s, [])
  | Some w =>
      if bool_decide (length (proofs w) = 0%nat) then (false, s, []) else
      let '(ready, s1, _) := ensure_keysets rnd i s in
      if negb ready then (false, s1, []) else
      match wallet_at s1 i with
      | None => (false, s1, [])
      | Some w1 =>
          match swap (proofs w1) (-1) default_unit w1 with
          | (None, w2) => (false, set_wallet i w2 s1, [])
          | (Some (new_proofs, change), w2) =>
              (true, set_wallet i (save_proofs (set_proofs (new_proofs ++ change) w2)) s1,
               [EvSwapped i (proofs w1) new_proofs change])
          end
      end
  end.

Fixpoint swap_loop (rnd : Z) (todo i : nat) (any_ok : bool) s : bool * wallets W * list (mint_event P) :=
  match todo with
  | O => (any_ok, s, [])
  | S todo' =>
      let '(ok, s1, evs) := swap_one rnd i s in
      let '(ok', s2, evs') := swap_loop rnd todo' (S i) (any_ok || ok) s1 in
      (ok', s2, evs ++ evs')
  end.

Definition nucula_wallet_swap_all (rnd : Z) s : esp_err_t * wallets W * list (mint_event P) :=
  if (wl_count s =? 0)%nat then (ESP_FAIL, s, []) else
  let '(any_ok, s1, evs) := swap_loop rnd (wl_count s) 0 false s in
  (if any_ok then ESP_OK else ESP_FAIL, s1, evs).

Definition nucula_wallet_melt (rnd : Z) (bolt11_invoice : option string) (max_fee_sats : Z) s
  : esp_err_t * wallets W * option melt_quote :=
  let fail s := (ESP_FAIL, s, None) in
  match bolt11_invoice with
  | None => fail s
  | Some invoice =>
      if (wl_count s =? 0)%nat then fail s else
      match first_wallet (λ w, 0 <? balance w) s with
      | None => fail s
      | Some i =>
          let '(ready, s1, _) := ensure_keysets rnd i s in
          if negb ready then fail s1 else
          match wallet_at s1 i with
          | None => fail s1
          | Some w =>
              match request_melt_quote invoice w with
              | (None, w1) => fail (set_wallet i w1 s1)
              | (Some quote, w1) =>
                  let s2 := set_wallet i w1 s1 in
                  if max_fee_sats <? u64 (u64 (mq_amount quote) + u64 (mq_fee_reserve quote)) then fail s2 else
                  if balance w1 <? mq_amount quote then fail s2 else
                  let '(paid, w2) := melt_tokens quote w1 in
                  let s3 := set_wallet i w2 s2 in
                  if paid then (ESP_OK, s3, Some quote) else fail s3
              end
          end
      end
  end.
End wallet.

(** * What is held *)

Section laws.
Context `{CashuLaws W P} (shl32_oob : Z → Z → Z).
Implicit Types s : wallets W.

(** The proofs in each slot. *)
Definition proofs_of s : list (option (list P)) := (λ x, proofs <$> sl_wallet x) <$> wl_slots s.

Lemma value_app l k : value (l ++ k) = value l + value k.
Proof. unfold value. induction l as [|p l IH]; cbn [app foldr]; [done|]. rewrite IH. lia. Qed.

Lemma value_perm l k : l ≡ₚ k → value l = value k.
Proof. unfold value. induction 1; cbn [foldr] in *; try lia; congruence. Qed.

Lemma proofs_of_set i w s :
  proofs_of (set_wallet i w s) = <[i := Some (proofs w)]> (proofs_of s).
Proof.
  unfold proofs_of, set_wallet, with_slots. cbn [wl_slots].
  apply list_eq. intros j. rewrite list_lookup_fmap, list_lookup_alter, list_lookup_insert, list_lookup_fmap, length_fmap.
  destruct (decide (i = j)) as [->|Hj].
  - destruct (wl_slots s !! j) as [x|] eqn:Hx; cbn.
    + rewrite decide_True; [done|]. split; [done|]. by eapply lookup_lt_Some.
    + apply lookup_ge_None in Hx. by rewrite decide_False by lia.
  - by rewrite decide_False by (by intros [? _]).
Qed.

Lemma wallet_at_proofs i w s : wallet_at s i = Some w → proofs_of s !! i = Some (Some (proofs w)).
Proof.
  unfold wallet_at, proofs_of. intros (x & Hx & Hw)%bind_Some. rewrite list_lookup_fmap, Hx. cbn. by rewrite Hw.
Qed.

(** A wallet that holds the same changes nothing that is held. *)
Lemma proofs_of_same i w w' s :
  wallet_at s i = Some w → proofs w' = proofs w → proofs_of (set_wallet i w' s) = proofs_of s.
Proof. intros Hw Hp. rewrite proofs_of_set, Hp. by apply list_insert_id, wallet_at_proofs. Qed.

Lemma ensure_keysets_proofs rnd i s :
  proofs_of (ensure_keysets shl32_oob rnd i s).1.2 = proofs_of s.
Proof.
  unfold ensure_keysets. destruct (wl_slots s !! i) as [x|] eqn:Hx; [|done].
  destruct (sl_wallet x) as [w|] eqn:Hw; [|done].
  assert (∀ w' l a, proofs w' = proofs w →
    proofs_of (with_slots <[i := mk_slot (Some w') (sl_url x) l a]> s) = proofs_of s) as Hput.
  { intros w' l a Hp. unfold proofs_of, with_slots. cbn [wl_slots]. rewrite list_fmap_insert. cbn.
    rewrite Hp. apply list_insert_id. rewrite list_lookup_fmap, Hx. cbn. by rewrite Hw. }
  pose proof (proofs_load_keysets w) as Hl. destruct (load_keysets w) as [ok w'].
  destruct (sl_loaded x); [done|]. destruct (bool_decide _); cbn [negb fst snd]; [|by apply Hput].
  destruct ok; cbn [fst snd]; by apply Hput.
Qed.

Lemma ensure_keysets_keeps rnd i s ready s1 delay :
  ensure_keysets shl32_oob rnd i s = (ready, s1, delay) → proofs_of s1 = proofs_of s.
Proof. intros He. pose proof (ensure_keysets_proofs rnd i s) as Hp. by rewrite He in Hp. Qed.

(** * Sending *)

(** What [amount] units cost slot [i]: selected proofs are given up for new ones, which are
    worth the amount, and a change; the rest is the fee of the mint. *)
Definition spends (s : wallets W) (amount : Z) (i : nat) (rest new_proofs change : list P)
    (evs : list (mint_event P)) : Prop :=
  ∃ selected held, proofs_of s !! i = Some (Some held) ∧ selected ++ rest ≡ₚ held ∧
    evs = [EvSwapped i selected new_proofs change] ∧
    value new_proofs + value change <= value selected ∧ (0 <= amount → value new_proofs = amount).


(** * Paying an invoice *)

(** C13: The wallet never pays more than it is told.  [nucula_wallet_melt] succeeds only
    with a quote whose amount and fee together do not exceed the bound, from a wallet
    whose balance covers the amount; when it fails before that quote is accepted, every
    wallet holds what it held.  In either case at most one wallet changes. *)
Theorem wallet_melt_outcome rnd invoice bound s err s' quote :
  nucula_wallet_melt shl32_oob rnd invoice bound s = (err, s', quote) →
  (∃ i (w : W) q (paid : bool), quote = (if paid then Some q else None) ∧ err = (if paid then ESP_OK else ESP_FAIL) ∧
     u64 (u64 (mq_amount q) + u64 (mq_fee_reserve q)) <= bound ∧
     mq_amount q <= value (proofs w) ∧ proofs_of s !! i = Some (Some (proofs w)) ∧
     melt_tokens q w = (paid, (melt_tokens q w).2) ∧
     proofs_of s' = <[i := Some (proofs (melt_tokens q w).2)]> (proofs_of s)) ∨
  (err = ESP_FAIL ∧ quote = None ∧ proofs_of s' = proofs_of s).
Proof.
  unfold nucula_wallet_melt. intros Hm.
  assert (∀ s1, (ESP_FAIL, s1, None) = (err, s', quote) → proofs_of s1 = proofs_of s →
    err = ESP_FAIL ∧ quote = None ∧ proofs_of s' = proofs_of s) as Hfail.
  { intros s1 [= <- <- <-] Hp. auto. }
  destruct invoice as [invoice|]; [|right; by eapply Hfail].
  destruct (wl_count s =? 0)%nat; [right; by eapply Hfail|].
  destruct (first_wallet (λ w, 0 <? balance w) s) as [i|]; [|right; by eapply Hfail].
  destruct (ensure_keysets shl32_oob rnd i s) as [[ready s1] delay] eqn:He. apply ensure_keysets_keeps in He.
  destruct ready; cbn [negb] in Hm; [|right; by eapply Hfail].
  destruct (wallet_at s1 i) as [w|] eqn:Hw; [|right; by eapply Hfail].
  pose proof (proofs_quote invoice w) as Hq. destruct (request_melt_quote invoice w) as [[q|] w1]; cbn [snd] in Hq;
    pose proof (proofs_of_same i w w1 s1 Hw Hq) as Hsame; rewrite He in Hsame; [|right; by eapply Hfail].
  destruct (Z.ltb_spec bound (u64 (u64 (mq_amount q) + u64 (mq_fee_reserve q)))); [right; by eapply Hfail|].
  destruct (Z.ltb_spec (balance w1) (mq_amount q)) as [?|Hb]; [right; by eapply Hfail|].
  left. exists i, w1, q. destruct (melt_tokens q w1) as [paid w2] eqn:Hpay. exists paid.
  rewrite balance_value in Hb. cbn [snd].
  destruct paid; injection Hm as <- <- <-; (split_and!; try done;
    [by rewrite Hq, <- He; apply wallet_at_proofs|by rewrite proofs_of_set, Hsame]).
Qed.

(** * Swapping everything *)

Lemma swap_one_value rnd i s ok s' evs :
  swap_one shl32_oob rnd i s = (ok, s', evs) →
  (evs = [] ∧ proofs_of s' = proofs_of s ∧ ok = false) ∨
  ∃ held new_proofs change, ok = true ∧ proofs_of s !! i = Some (Some held) ∧ held ≠ [] ∧
    evs = [EvSwapped i held new_proofs change] ∧ value (new_proofs ++ change) <= value held ∧
    proofs_of s' = <[i := Some (new_proofs ++ change)]> (proofs_of s).
Proof.
  unfold swap_one. intros Hs. destruct (wallet_at s i) as [w0|] eqn:Hw0; [|left; by injection Hs as <- <- <-].
  case_bool_decide as Hlen; [left; by injection Hs as <- <- <-|].
  destruct (ensure_keysets shl32_oob rnd i s) as [[ready s1] delay] eqn:He. apply ensure_keysets_keeps in He.
  destruct ready; cbn [negb] in Hs; [|left; by injection Hs as <- <- <-].
  destruct (wallet_at s1 i) as [w|] eqn:Hw; [|left; by injection Hs as <- <- <-].
  assert (proofs w = proofs w0) as Hpw.
  { apply wallet_at_proofs in Hw, Hw0. rewrite He in Hw. congruence. }
  pose proof (proofs_swap (proofs w) (-1) default_unit w) as Hsp.
  destruct (swap (proofs w) (-1) default_unit w) as [[[new_proofs change]|] w2] eqn:Hsw; cbn [snd] in Hsp.
  - right. injection Hs as <- <- <-. exists (proofs w), new_proofs, change. split_and!; try done.
    + rewrite <- He. by apply wallet_at_proofs.
    + rewrite Hpw. intros Hn. by rewrite Hn in Hlen.
    + rewrite value_app. by eapply swap_value.
    + by rewrite proofs_of_set, proofs_save_proofs, proofs_set_proofs, He.
  - left. injection Hs as <- <- <-. split_and!; try done. by rewrite (proofs_of_same i w w2), He.
Qed.

(** What a sequence of swaps leaves in slot [j]. *)
Definition swapped_or_kept s s' (evs : list (mint_event P)) (j : nat) : Prop :=
  (proofs_of s' !! j = proofs_of s !! j ∧ ∀ l n c, EvSwapped j l n c ∉ evs) ∨
  ∃ held new_proofs change, EvSwapped j held new_proofs change ∈ evs ∧ held ≠ [] ∧
    proofs_of s !! j = Some (Some held) ∧ proofs_of s' !! j = Some (Some (new_proofs ++ change)) ∧
    value (new_proofs ++ change) <= value held.

Lemma swap_loop_spec rnd todo : ∀ i any_ok s ok s' evs,
  swap_loop shl32_oob rnd todo i any_ok s = (ok, s', evs) →
  (ok = true ↔ any_ok = true ∨ evs ≠ []) ∧
  (∀ j l n c, EvSwapped j l n c ∈ evs → (i ≤ j)%nat) ∧ ∀ j, swapped_or_kept s s' evs j.
Proof.
  induction todo as [|todo IH]; intros i any_ok s ok s' evs; cbn [swap_loop].
  { intros [= <- <- <-]. split_and!; [split; [by left|by intros [?|?]]|by intros ???? ?%not_elem_of_nil|].
    intros j. left. split; [done|]. intros l n c. apply not_elem_of_nil. }
  destruct (swap_one shl32_oob rnd i s) as [[ok1 s1] evs1] eqn:H1.
  destruct (swap_loop shl32_oob rnd todo (S i) (any_ok || ok1) s1) as [[ok2 s2] evs2] eqn:H2.
  intros [= <- <- <-]. destruct (IH _ _ _ _ _ _ H2) as (Hok & Hge & Hkept).
  apply swap_one_value in H1 as [(-> & Hp & ->)|(held & new & change & -> & Hi & Hne & -> & Hv & Hp)].
  - cbn [app]. rewrite orb_false_r in Hok. split_and!; [done|intros j l n c Hin; specialize (Hge j l n c Hin); lia|].
    intros j. unfold swapped_or_kept. rewrite <- Hp. apply Hkept.
  - rewrite orb_true_r in Hok. cbn [app]. split_and!.
    + split; [intros _; by right|]. intros _. apply Hok. by left.
    + intros j l n c [[= -> _ _ _]|Hin]%elem_of_cons; [done|]. specialize (Hge j l n c Hin). lia.
    + intros j. destruct (decide (j = i)) as [->|Hj].
      * right. exists held, new, change. split_and!; [by left|done|done| |done].
        destruct (Hkept i) as [[-> _]|(l & n & c & Hin & _)].
        -- rewrite Hp. rewrite list_lookup_insert_eq; [done|]. by eapply lookup_lt_Some.
        -- specialize (Hge i l n c Hin). lia.
      * destruct (Hkept j) as [[He Hn]|(l & n & c & Hin & Hl & Hs & Hs' & Hval)].
        -- left. rewrite He, Hp, list_lookup_insert_ne by done. split; [done|].
           intros l n c [[= -> _ _ _]|Hin]%elem_of_cons; [done|]. by eapply Hn.
        -- right. exists l, n, c. rewrite Hp, list_lookup_insert_ne in Hs by done. split_and!; try done. by right.
Qed.

Lemma swap_all_spec rnd s err s' evs :
  nucula_wallet_swap_all shl32_oob rnd s = (err, s', evs) →
  err = (if bool_decide (evs = []) then ESP_FAIL else ESP_OK) ∧ ∀ j, swapped_or_kept s s' evs j.
Proof.
  unfold nucula_wallet_swap_all. case_if.
  { intros [= <- <- <-]. split; [by rewrite bool_decide_true|]. intros j. left. split; [done|].
    intros l n c. apply not_elem_of_nil. }
  destruct (swap_loop shl32_oob rnd (wl_count s) 0 false s) as [[ok s1] evs1] eqn:Hl. intros [= <- <- <-].
  destruct (swap_loop_spec _ _ _ _ _ _ _ _ Hl) as (Hok & _ & Hk). split; [|done].
  case_bool_decide as Hn; destruct ok; try done; [|by destruct Hok as [_ Hok]; discriminate Hok; right].
  destruct Hok as [Hok _]. by destruct (Hok eq_refl).
Qed.

(** Swapping everything loses nothing but fees: a wallet either holds what it held,
    and nothing of it was swapped, or all that it held was swapped and it holds all the
    new proofs and the change, worth at most as much; the call succeeds exactly when
    some wallet swapped, and a wallet that fails does not stop the others. *)
Theorem swap_all_outcome rnd s err s' evs :
  nucula_wallet_swap_all shl32_oob rnd s = (err, s', evs) →
  err = (if bool_decide (evs = []) then ESP_FAIL else ESP_OK) ∧ ∀ j, swapped_or_kept s s' evs j.
Proof. apply swap_all_spec. Qed.
End laws.

(** * The pause before the keysets *)

(** For the first 22 attempts the pause doubles from a second up to the bound of
    thirty, with less than half a second added; then the shifted number passes 2^31 and
    the pause is negative. *)
Theorem keyset_delay_bounds shl32_oob attempts rnd :
  (0 <= attempts <= 21 →
   let jitter := keyset_delay shl32_oob attempts rnd - Z.min 30000 (1000 * 2 ^ attempts) in 0 <= jitter < 500) ∧
  keyset_delay shl32_oob 22 rnd < 0.
Proof.
  assert (0 <= u32 rnd mod 500 < 500) by (apply Z.mod_pos_bound; lia).
  unfold keyset_delay, KEYSET_BASE_DELAY_MS, KEYSET_MAX_DELAY_MS, KEYSET_JITTER_MS. split.
  - intros Ha. cbv zeta. rewrite (proj2 (Z.ltb_lt attempts 32)) by lia. rewrite Z.shiftl_mul_pow2 by lia.
    assert (2 ^ attempts <= 2 ^ 21) by (apply Z.pow_le_mono_r; lia).
    assert (0 < 2 ^ attempts) by (apply Z.pow_pos_nonneg; lia).
    change (2 ^ 21) with 2097152 in *. rewrite i32_small by (change (2 ^ 31) with 2147483648; lia).
    destruct (Z.ltb_spec 30000 (1000 * 2 ^ attempts)); lia.
  - change (22 <? 32) with true. change (i32 (Z.shiftl 1000 22)) with (-100663296). cbn [Z.ltb Z.compare]. lia.
Qed.

(** * Concrete runs *)

(** A wallet whose proofs are amounts, at a mint that asks no fee. *)
Record toy_wallet := mk_toy { tw_url : string; tw_proofs : list Z }.
Definition toy_value (l : list Z) : Z := foldr Z.add 0 l.

Definition toy_lib : CashuLib toy_wallet Z := {|
  new_wallet url _ := mk_toy url [];
  load_from_nvs w := w;
  mint_url := tw_url;
  balance w := toy_value (tw_proofs w);
  proofs := tw_proofs;
  set_proofs l w := mk_toy (tw_url w) l;
  save_proofs w := w;
  keysets _ := [mk_keyset true "sat"];
  load_keysets w := (true, w);
  receive tok w := (Some (ct_proofs tok), mk_toy (tw_url w) (tw_proofs w ++ ct_proofs tok));
  select_proofs n w := if n <=? toy_value (tw_proofs w) then Some (tw_proofs w, []) else None;
  swap l n _ w :=
    (if n <? 0 then Some ([toy_value l], [])
     else if n <=? toy_value l then Some ([n], [toy_value l - n]) else None, w);
  request_melt_quote _ w := (Some (mk_quote 50 1), w);
  melt_tokens q w := (true, mk_toy (tw_url w) [toy_value (tw_proofs w) - mq_amount q]);
  deserialize_token_v3 _ := None;
  serialize_token_v3 tok := ("cashuA" +:+ print_u (foldr Z.add 0 (ct_proofs tok)))%string;
  proof_amount p := p;
  proof_id _ := "00"%string;
  default_unit := "sat"%string
|}.

Lemma toy_laws : @CashuLaws toy_wallet Z toy_lib.
Proof.
  split; cbn; try done.
  - intros n w l r. case_if; [|done]. intros [= <- <-]. by rewrite app_nil_r.
  - intros l n unit w new change w'. assert (@value _ _ toy_lib l = toy_value l) as -> by done.
    unfold value. destruct (n <? 0); [intros [= <- <- <-]; cbn; lia|].
    case_if; [|done]. intros [= <- <- <-]. cbn. lia.
  - intros l n unit w new change w'. unfold value. cbn.
    destruct (Z.ltb_spec n 0); [lia|]. case_if; [|done]. intros [= <- <- <-] _. cbn. lia.
Qed.

Definition toy_slot (url : string) (l : list Z) : slot toy_wallet := mk_slot (Some (mk_toy url l)) url false 0.
Definition toy_wallets : wallets toy_wallet :=
  mk_wallets [toy_slot "https://a" [4; 1]; toy_slot "https://b" [64; 32; 4]; slot_empty; slot_empty] 2.
Definition toy_send (size : nat) := @nucula_wallet_send toy_wallet Z toy_lib (λ _ _, 0) 7 21 size toy_wallets.


(** The balance counts both wallets, but the first that holds anything has to pay alone. *)
Example first_wallet_pays_alone :
  @nucula_wallet_balance toy_wallet Z toy_lib toy_wallets = 105 ∧
  (@nucula_wallet_melt toy_wallet Z toy_lib (λ _ _, 0) 7 (Some "lnbc"%string) 100 toy_wallets).1.1 = ESP_FAIL.
Proof. split; reflexivity. Qed.

Definition rich_wallets : wallets toy_wallet :=
  mk_wallets [toy_slot "https://a" []; toy_slot "https://b" [64; 32; 4]; slot_empty; slot_empty] 2.

Lemma wallet_melt_outcome_witness :
  ∃ s', @nucula_wallet_melt toy_wallet Z toy_lib (λ _ _, 0) 7 (Some "lnbc"%string) 60 rich_wallets
          = (ESP_OK, s', Some (mk_quote 50 1)) ∧
        proofs_of (H := toy_lib) s' = [Some []; Some [50]; None; None].
Proof.
  destruct (@nucula_wallet_melt toy_wallet Z toy_lib (λ _ _, 0) 7 (Some "lnbc"%string) 60 rich_wallets)
    as [[err s'] quote] eqn:He. exists s'.
  destruct (@wallet_melt_outcome _ _ _ toy_laws (λ _ _, 0) 7 (Some "lnbc"%string) 60 rich_wallets err s' quote He)
    as [(i & w & q & paid & -> & -> & _)|(-> & -> & _)]; vm_compute in He.
  - destruct paid; [|discriminate He]. injection He as <- <-. split; reflexivity.
  - discriminate He.
Defined.

Lemma swap_all_outcome_witness :
  ∃ s' evs, @nucula_wallet_swap_all toy_wallet Z toy_lib (λ _ _, 0) 7 toy_wallets = (ESP_OK, s', evs) ∧
    proofs_of (H := toy_lib) s' = [Some [5]; Some [100]; None; None].
Proof.
  destruct (@nucula_wallet_swap_all toy_wallet Z toy_lib (λ _ _, 0) 7 toy_wallets) as [[err s'] evs] eqn:He.
  destruct (@swap_all_outcome _ _ _ toy_laws (λ _ _, 0) 7 toy_wallets err s' evs He) as [Herr _].
  exists s', evs. vm_compute in He. injection He as _ <- <-. rewrite Herr. split; reflexivity.
Defined.
