(* ===== verification/RelayServer.v ===== *)
(** The server the relay's clients connect to (components/wisp_relay/ws_server.c,
    nip11_relay.c, flash_monitor.c) with its start and stop (main/local_relay.c): the
    frames of a connection, what is sent at once and what through the queue of the
    HTTP server.  The HTTP server and the file system are parameters. *)

From stdpp Require Import relations.
From S2P Require Import Prelude CStr F64 Json Dns RateLimiter SubManager Storage Relay.
#[local] Open Scope Z_scope.

Definition WS_MAX_FRAME_SIZE : Z := 65536.
Definition LOCAL_RELAY_PORT : Z := 4869.

(** * State *)

(** The tables, whether the HTTP server runs ([server->server]), and the work queued on
    it: texts to send. *)
Record server := mk_server {
  sv_ctx : relay_ctx_t;
  sv_running : bool;
  sv_queue : list sent
}.

Definition with_ctx (c : relay_ctx_t) (s : server) : server := mk_server c (sv_running s) (sv_queue s).
Definition with_queue (q : list sent) (s : server) : server := mk_server (sv_ctx s) (sv_running s) q.

(** What goes out on a connection. *)
Inductive wire :=
| WireText (fd : Z) (text : string)
| WirePong (fd : Z) (payload : list Z)
| WireClose (fd : Z).

(** * Sending *)

Section sending.
(** Whether memory for a message of some length can be had, and whether the queue of the
    HTTP server takes another one. *)
Variable malloc_ok : Z → bool.
Variable queue_ok : list sent → bool.
(** The outcome of [httpd_ws_send_frame]. *)
Variable send_frame : Z → esp_err_t.

(** [current]: the connection whose frame is being handled, [g_current_req]. *)
Definition ws_server_send (current : option Z) (fd : Z) (data : string) (s : server)
  : esp_err_t * server * list wire :=
  if negb (sv_running s) then (ESP_ERR_INVALID_STATE, s, []) else
  if bool_decide (current = Some fd) then (send_frame fd, s, [WireText fd data]) else
  if negb (malloc_ok (Z.of_nat (String.length data))) then (ESP_ERR_NO_MEM, s, []) else
  if queue_ok (sv_queue s) then (ESP_OK, with_queue (sv_queue s ++ [(fd, data)]) s, [])
  else (ESP_FAIL, s, []).

(** The texts a handler sends, in order; their outcomes are not looked at. *)
Fixpoint send_all (current : option Z) (out : list sent) (s : server) : server * list wire :=
  match out with
  | [] => (s, [])
  | (fd, data) :: out' =>
      let '(_, s1, w1) := ws_server_send current fd data s in
      let '(s2, w2) := send_all current out' s1 in
      (s2, w1 ++ w2)
  end.

(** The first work of the queue: [ws_async_send]. *)
Definition ws_async_send (s : server) : server * list wire :=
  match sv_queue s with
  | [] => (s, [])
  | (fd, data) :: q => (with_queue q s, [WireText fd data])
  end.

Definition ws_server_broadcast (data : string) (s : server) : server * list wire :=
  send_all None ((λ c, (wc_fd c, data)) <$> List.filter wc_active (ws_connections (rc_ws_server (sv_ctx s)))) s.
End sending.

(** * Frames *)

Inductive ws_type := WS_TEXT | WS_PING | WS_CLOSE | WS_OTHER.

(** A frame as the HTTP server gives it: the outcome of reading its header, its type and
    bytes, and the outcome of reading these. *)
Record ws_frame := mk_frame {
  fr_header : esp_err_t;
  fr_type : ws_type;
  fr_payload : list Z;
  fr_recv : esp_err_t
}.

Section handler.
Context `{CUndef} `{CJson J} (dup : J → jval) (sha : list Z → list Z)
  (schnorr : list Z → list Z → list Z → bool) (strdup : string → option string)
  (nvs_ok : bool) (fopen_ok : string → bool).
Variable malloc_ok : Z → bool.
Variable queue_ok : list sent → bool.
Variable send_frame : Z → esp_err_t.

(** [ws_handler] on an open connection.  A result other than [ESP_OK] makes the HTTP
    server close the connection. *)
Definition ws_handler (ck : clocks) (fd : Z) (f : ws_frame) (s : server)
  : option (esp_err_t * server * list wire) :=
  let len := Z.of_nat (length (fr_payload f)) in
  if negb (bool_decide (fr_header f = ESP_OK)) then Some (fr_header f, s, []) else
  if len =? 0 then Some (ESP_OK, s, []) else
  if WS_MAX_FRAME_SIZE <? len then Some (ESP_FAIL, s, []) else
  if negb (malloc_ok (len + 1)) then Some (ESP_ERR_NO_MEM, s, []) else
  if negb (bool_decide (fr_recv f = ESP_OK)) then Some (fr_recv f, s, []) else
  let active := with_ctx (with_ws (sv_ctx s)
                  (update_connection_activity (ck_uptime ck) fd (rc_ws_server (sv_ctx s)))) s in
  match fr_type f with
  | WS_TEXT =>
      '(c, out) ← on_ws_message dup sha schnorr strdup nvs_ok fopen_ok ck fd (bytes_str (fr_payload f)) (sv_ctx s);
      let '(s1, w) := send_all malloc_ok queue_ok send_frame (Some fd) out (with_ctx c s) in
      Some (ESP_OK, s1, w)
  | WS_PING => Some (send_frame fd, active, [WirePong fd (fr_payload f)])
  | WS_CLOSE => Some (ESP_FAIL, active, [WireClose fd])
  | WS_OTHER => Some (ESP_OK, active, [])
  end.
End handler.

(** * NIP-11 *)

Definition lower_char (c : ascii) : ascii := if (65 <=? ord c) && (ord c <=? 90) then chr (ord c + 32) else c.
(** [strcasecmp(a, b) == 0] *)
Fixpoint strcaseeq (a b : string) : bool :=
  match a, b with
  | EmptyString, EmptyString => true
  | String x a', String y b' => Ascii.eqb (lower_char x) (lower_char y) && strcaseeq a' b'
  | _, _ => false
  end.

Record http_answer := mk_answer { an_status : string; an_headers : list (string * string); an_body : string }.

Definition cors_headers : list (string * string) :=
  [("Access-Control-Allow-Origin", "*"); ("Access-Control-Allow-Headers", "Content-Type, Accept");
   ("Access-Control-Allow-Methods", "GET, OPTIONS")]%string.

(** [doc]: the document of the file; [accept]: the header, at most 63 characters of it. *)
Definition relay_nip11_handler (doc accept : string) : http_answer :=
  mk_answer "200 OK"
    (("Content-Type", match strstr "application/nostr+json" accept with
                      | Some _ => "application/nostr+json" | None => "application/json" end)%string :: cors_headers) doc.
Definition relay_nip11_options_handler : http_answer := mk_answer "204 No Content" cors_headers "".

(** A GET request at the server's address: the handshake, or the document.  A header that
    does not fit its buffer counts as none, like one with another text. *)
Definition ws_get (doc accept : string) (upgrade : option string) : option http_answer :=
  match upgrade with
  | Some u => if strcaseeq u "websocket" then None else Some (relay_nip11_handler doc accept)
  | None => Some (relay_nip11_handler doc accept)
  end.

(** * Start and stop *)

(** [httpd_start_ok], [register_ok]: the outcomes of the HTTP server; memory for the lock
    is had. *)
Definition ws_server_init (httpd_start_ok register_ok : bool) (s : server) : esp_err_t * server :=
  if sv_running s then (ESP_ERR_INVALID_STATE, s) else
  let empty := mk_ws_server (replicate WS_MAX_CONNECTIONS ws_connection_zero) 0 in
  let s1 := mk_server (with_ws (sv_ctx s) empty) false (sv_queue s) in
  if negb httpd_start_ok then (ESP_FAIL, s1)
  else if negb register_ok then (ESP_FAIL, s1)
  else (ESP_OK, mk_server (sv_ctx s1) true []).

(** The callbacks are cleared before the HTTP server closes the connections. *)
Definition ws_server_stop (s : server) : server :=
  mk_server (with_ws (sv_ctx s) (mk_ws_server (replicate WS_MAX_CONNECTIONS ws_connection_zero) 0)) false [].

Definition ws_server_is_running (s : server) : bool := sv_running s.

Definition local_relay_start (initialized httpd_start_ok register_ok : bool) (s : server) : server :=
  if initialized then (ws_server_init httpd_start_ok register_ok s).2 else s.
Definition local_relay_stop (initialized : bool) (s : server) : server :=
  if initialized then ws_server_stop s else s.

(** * The file system *)

Record flash_health_t := mk_health { fh_total : Z; fh_used : Z; fh_free : Z }.

(** The bytes of the partition, if it can be asked; the percentage is left out. *)
Definition flash_get_health (info : option (Z * Z)) : flash_health_t :=
  match info with
  | None => mk_health 0 0 0
  | Some (total, used) => mk_health total used (if total =? 0 then 0 else u32 (total - used))
  end.

(** * The server as a whole *)

Section steps.
Context `{CUndef} `{CJson J} (dup : J → jval) (sha : list Z → list Z)
  (schnorr : list Z → list Z → list Z → bool) (strdup : string → option string)
  (nvs_ok : bool) (fopen_ok : string → bool).
Context (malloc_ok : Z → bool) (queue_ok : list sent → bool) (send_frame : Z → esp_err_t).

(** A frame, after which the HTTP server closes the connection if the handler fails. *)
Definition serve_frame (ck : clocks) (fd : Z) (f : ws_frame) (s : server) : option (server * list wire) :=
  '(ret, s1, w) ← ws_handler dup sha schnorr strdup nvs_ok fopen_ok malloc_ok queue_ok send_frame ck fd f s;
  Some (if bool_decide (ret = ESP_OK) then s1 else with_ctx (on_close fd (sv_ctx s1)) s1, w).

(** What the running server does, with what goes out. *)
Inductive server_step : server → list wire → server → Prop :=
| sv_open s now ip fd ws :
    find_connection_by_fd fd (rc_ws_server (sv_ctx s)) = None →
    on_open now ip fd (rc_ws_server (sv_ctx s)) = (ESP_OK, ws) →
    server_step s [] (with_ctx (with_ws (sv_ctx s) ws) s)
| sv_frame s ck fd f s' w :
    is_Some (find_connection_by_fd fd (rc_ws_server (sv_ctx s))) →
    serve_frame ck fd f s = Some (s', w) →
    server_step s w s'
| sv_close s fd : server_step s [] (with_ctx (on_close fd (sv_ctx s)) s)
| sv_work s : server_step s (ws_async_send s).2 (ws_async_send s).1
| sv_publish s now json err c out :
    local_relay_publish nvs_ok fopen_ok now json (sv_ctx s) = Some (err, c, out) →
    server_step s (send_all malloc_ok queue_ok send_frame None out (with_ctx c s)).2
      (send_all malloc_ok queue_ok send_frame None out (with_ctx c s)).1.

(** ** Sending *)

Lemma ws_server_send_ctx current fd data s :
  let '(_, s', _) := ws_server_send malloc_ok queue_ok send_frame current fd data s in
  sv_ctx s' = sv_ctx s ∧ sv_running s' = sv_running s.
Proof. unfold ws_server_send. repeat case_match; simplify_eq; done. Qed.

Lemma send_all_ctx current out s :
  sv_ctx (send_all malloc_ok queue_ok send_frame current out s).1 = sv_ctx s ∧
  sv_running (send_all malloc_ok queue_ok send_frame current out s).1 = sv_running s.
Proof.
  revert s. induction out as [|[fd data] out IH]; intros s; cbn [send_all]; [done|].
  pose proof (ws_server_send_ctx current fd data s) as Hc.
  destruct (ws_server_send _ _ _ _ _ _ _) as [[err s1] w1]. destruct Hc as [Hc Hr]. specialize (IH s1).
  destruct (send_all _ _ _ _ _ _) as [s2 w2]. cbn [fst] in *. destruct IH as [-> ->]. done.
Qed.

(** With room for everything, the texts for the connection at hand go out at once, and
    the others queue up. *)
Lemma send_all_split fd out s :
  (∀ n, malloc_ok n = true) → (∀ q, queue_ok q = true) → sv_running s = true →
  send_all malloc_ok queue_ok send_frame (Some fd) out s =
  (with_queue (sv_queue s ++ List.filter (λ m, negb (m.1 =? fd)) out) s,
   (λ m, WireText m.1 m.2) <$> List.filter (λ m, m.1 =? fd) out).
Proof.
  intros Hm Hq. revert s. induction out as [|[fd' data] out IH]; intros s Hr; cbn [send_all List.filter].
  - rewrite app_nil_r. by destruct s.
  - unfold ws_server_send. rewrite Hr, Hm, Hq. cbn [negb fst].
    case_bool_decide as Hf.
    + injection Hf as ->. rewrite Z.eqb_refl. cbn [negb]. rewrite IH by done. done.
    + rewrite (proj2 (Z.eqb_neq fd' fd)) by congruence. cbn [negb]. rewrite IH by done.
      cbn [sv_queue with_queue]. by rewrite <- app_assoc.
Qed.

(** ** Refinement *)

Lemma serve_frame_ctx ck fd f s s' w :
  is_Some (find_connection_by_fd fd (rc_ws_server (sv_ctx s))) →
  serve_frame ck fd f s = Some (s', w) →
  rtc (relay_step dup sha schnorr strdup nvs_ok fopen_ok) (sv_ctx s) (sv_ctx s').
Proof.
  intros Hfd. unfold serve_frame.
  destruct (ws_handler _ _ _ _ _ _ _ _ _ _ _ _ _) as [[[ret s1] w1]|] eqn:Hh; [|done].
  cbn [mbind option_bind]. intros [= <- <-].
  assert (rtc (relay_step dup sha schnorr strdup nvs_ok fopen_ok) (sv_ctx s) (sv_ctx s1)) as Hs1.
  { unfold ws_handler in Hh. repeat (case_match; [simplify_eq; done|]).
    destruct (fr_type f); [|injection Hh as <- <- <-; apply rtc_once, step_activity..].
    apply bind_Some in Hh as ([c out] & Hm & Hh).
    pose proof (send_all_ctx (Some fd) out (with_ctx c s)) as [Hc _].
    destruct (send_all _ _ _ _ _ _) as [s2 w2]. injection Hh as <- <- <-. cbn [fst] in Hc. rewrite Hc.
    apply rtc_once. by eapply step_message. }
  case_bool_decide; [done|]. eapply rtc_r; [exact Hs1|]. cbn [sv_ctx with_ctx]. apply step_close.
Qed.


(** ** Deliveries *)

(** What is sent when the whole queue is worked off. *)
Fixpoint drain (n : nat) (s : server) : server * list wire :=
  match n with
  | O => (s, [])
  | S n' => let '(s1, w1) := ws_async_send s in let '(s2, w2) := drain n' s1 in (s2, w1 ++ w2)
  end.

Lemma drain_queue s :
  drain (length (sv_queue s)) s = (with_queue [] s, (λ m, WireText m.1 m.2) <$> sv_queue s).
Proof.
  destruct s as [c r q]. induction q as [|[fd data] q IH]; cbn [length drain sv_queue]; [done|].
  unfold ws_async_send. cbn [sv_queue]. change (with_queue q _) with (mk_server c r q).
  cbn [sv_queue] in IH. by rewrite IH.
Qed.

(** C36: Nothing that a text frame makes the relay say is lost or repeated.  With memory
    and room in the queue, the answers to the sender go out at once, in the order the
    relay gave them; what is for other connections waits behind the work that is queued
    already, and goes out in order when the queue is worked off. *)
Theorem frame_answers_delivered ck fd f s c out :
  (∀ n, malloc_ok n = true) → (∀ q, queue_ok q = true) → sv_running s = true →
  fr_header f = ESP_OK → fr_type f = WS_TEXT → fr_recv f = ESP_OK →
  0 < Z.of_nat (length (fr_payload f)) <= WS_MAX_FRAME_SIZE →
  on_ws_message dup sha schnorr strdup nvs_ok fopen_ok ck fd (bytes_str (fr_payload f)) (sv_ctx s) = Some (c, out) →
  ∃ s', serve_frame ck fd f s = Some (s', (λ m, WireText m.1 m.2) <$> List.filter (λ m, m.1 =? fd) out) ∧
    sv_ctx s' = c ∧
    drain (length (sv_queue s')) s' =
      (with_queue [] s', (λ m, WireText m.1 m.2) <$> sv_queue s ++ List.filter (λ m, negb (m.1 =? fd)) out).
Proof.
  intros Hm Hq Hr Hh Ht Hv Hl Hmsg. unfold serve_frame, ws_handler.
  rewrite Hh, Ht, Hv, Hm, Hmsg. rewrite !bool_decide_true by done. cbn [negb].
  rewrite (proj2 (Z.eqb_neq _ 0)), (proj2 (Z.ltb_ge _ _)) by lia. cbn [mbind option_bind].
  rewrite send_all_split by done. cbn [mbind option_bind]. rewrite bool_decide_true by done.
  eexists. split; [done|]. split; [done|]. apply drain_queue.
Qed.
End steps.

(** * What the server forgets *)

(** A text queued for a connection that has closed goes to the next client that gets its
    number. *)
Theorem queued_text_reaches_next_client s fd data q now ip ws :
  sv_queue s = (fd, data) :: q →
  on_open now ip fd (rc_ws_server (on_close fd (sv_ctx s))) = (ESP_OK, ws) →
  (ws_async_send (with_ctx (with_ws (on_close fd (sv_ctx s)) ws) (with_ctx (on_close fd (sv_ctx s)) s))).2
  = [WireText fd data].
Proof. intros Hq _. unfold ws_async_send. cbn [sv_queue with_ctx]. by rewrite Hq. Qed.

(** A stop closes every connection and keeps every subscription. *)
Theorem stop_keeps_subscriptions s :
  rc_sub_manager (sv_ctx (ws_server_stop s)) = rc_sub_manager (sv_ctx s) ∧
  ∀ fd, find_connection_by_fd fd (rc_ws_server (sv_ctx (ws_server_stop s))) = None.
Proof.
  split; [done|]. intros fd. unfold ws_server_stop, find_connection_by_fd. cbn [sv_ctx rc_ws_server with_ws ws_connections].
  by destruct (find_slot _ _) as [i|] eqn:Hf; [apply find_slot_Some in Hf as (x & [-> _]%lookup_replicate_1 & Hx & _)|].
Qed.

(** * Witnesses *)

#[local] Existing Instance cundef_zero.

Definition server_example : server := mk_server relay_example true [].
Definition server_after_open : server := mk_server relay_after_open true [(55, "queued"%string)].
Definition text_frame (s : string) : ws_frame := mk_frame ESP_OK WS_TEXT (str_bytes s) ESP_OK.
Definition serve_example (s : server) : option (server * list wire) :=
  @serve_frame cundef_zero jval (json_event 300) id sha_zero schnorr_true Some true (λ _, true)
    (λ _, true) (λ _, true) (λ _, ESP_OK) clocks_example 54 (text_frame "[REQ]") s.


Lemma frame_answers_delivered_witness :
  ∃ c out s', @on_ws_message cundef_zero jval (json_event 300) id sha_zero schnorr_true Some true (λ _, true)
      clocks_example 54 "[REQ]" relay_after_open = Some (c, out) ∧
    serve_example server_after_open
    = Some (s', (λ m, WireText m.1 m.2) <$> List.filter (λ m, m.1 =? 54) out) ∧ length out = 1%nat ∧
    sv_ctx s' = c.
Proof.
  destruct (@on_ws_message cundef_zero jval (json_event 300) id sha_zero schnorr_true Some true (λ _, true)
      clocks_example 54 "[REQ]" relay_after_open) as [[c out]|] eqn:Hm; [|vm_compute in Hm; discriminate].
  pose proof (@frame_answers_delivered cundef_zero jval (json_event 300) id sha_zero schnorr_true Some true (λ _, true)
    (λ _, true) (λ _, true) (λ _, ESP_OK) clocks_example 54 (text_frame "[REQ]") server_after_open c out) as H.
  destruct H as (s' & Hs & Hc & _); try done.
  exists c, out, s'. split_and!; [done|exact Hs| |exact Hc].
  vm_compute in Hm. injection Hm as <- <-. reflexivity.
Defined.
