(* ===== verification/Redeem.v ===== *)
(** How a token that has been paid reaches the wallet (main/tls_worker.c,
    main/mint_health.c): the queue of at most eight tokens, the task that takes them from
    it between its rounds of probes, and what happens when the queue is full.  HTTP, the
    random numbers and the wallet library are parameters; the actions of the task and of
    those who submit tokens come in any order. *)

From S2P Require Import Prelude CStr F64 Json Dns Firewall Session Config Mining Cashu Core.
From S2P Require Import MintHealth Api Faucet Wallet.
#[local] Open Scope Z_scope.

Definition WALLET_QUEUE_LEN : nat := 8.
Definition MINT_HEALTH_PROBE_INTERVAL_S : Z := 300.
Definition MAX_CALLBACKS : nat := 4.

(** * Probes and queries *)

(** [http_get]: the error of opening the connection (zero for none) and the status;
    [None]: no client could be made. *)
Section probes.
Variable http_get : string → option (Z * Z).

(** Whether the mint answers, and [s_last_probe_err]. *)
Definition probe_mint (url : string) : bool * Z :=
  match http_get (str_take 511 (url +:+ "/v1/info")%string) with
  | None => (false, -1)
  | Some (err, status) => if negb (err =? 0) then (false, err) else ((200 <=? status) && (status <? 300), 0)
  end.

Definition probe_report (now : Z) (m : tollgate_mint_status_t) : probe_result :=
  let '(ok, err) := probe_mint (ms_url m) in
  mk_probe ok (if ok then 200 else 0) (if ok then 0 else err) now.

(** A round, with the lock had in five seconds; whether the callbacks fire. *)
Definition probe_round (lock : bool) (now : Z) (s : tollgate_mint_health_t) : tollgate_mint_health_t * bool :=
  if lock then run_probes (probe_report now <$> s) s else (s, false).
Definition initial_round (lock : bool) (now : Z) (s : tollgate_mint_health_t) : tollgate_mint_health_t * bool :=
  if lock then (run_initial_probes (probe_report now <$> s) s, true) else (s, false).
End probes.

(** The queries give up when the lock, which a round of probes holds from its start to
    its end, is not had in a second. *)
Definition mint_health_get_all (lock : bool) (s : tollgate_mint_health_t) : tollgate_mint_health_t :=
  if lock then s else [].
Definition mint_health_is_reachable (lock : bool) (url : option string) (s : tollgate_mint_health_t) : bool :=
  match url with Some u => lock && tollgate_core_mint_health_is_reachable s u | None => false end.
Definition mint_health_mark_unreachable (lock : bool) (url : option string) (s : tollgate_mint_health_t)
  : tollgate_mint_health_t :=
  match url with
  | Some u => if lock then tollgate_core_mint_health_mark_unreachable s u else s
  | None => s
  end.

(** The callbacks, as numbers; zero for NULL. *)
Definition mint_health_register_callback (cb : nat) (cbs : list nat) : list nat :=
  if (length cbs <? MAX_CALLBACKS)%nat && negb (cb =? 0)%nat then cbs ++ [cb] else cbs.
Definition fire_callbacks (cbs : list nat) : list nat := List.filter (λ cb, negb (cb =? 0)%nat) cbs.

(** * The task *)

(** Where the task is: before its first probes, in [process_wallet_queue], waiting for the
    interval that began at a tick to pass, before a round of probes, or gone. *)
Inductive health_pc := Starting | Draining | Waiting (start : Z) | Probing | Ended.

Record health (W : Type) := mk_health_state {
  s_running : bool;
  s_pc : health_pc;
  s_wallet_queue : option (list string);
  s_health_state : tollgate_mint_health_t;
  s_wallet : wallets W
}.
Arguments mk_health_state {W}.
Arguments s_running {W}.
Arguments s_pc {W}.
Arguments s_wallet_queue {W}.
Arguments s_health_state {W}.
Arguments s_wallet {W}.

(** What happens to tokens: into the queue, out of it to the wallet, or to the wallet
    directly. *)
Inductive token_event := TkQueued (token : string) | TkTaken (token : string) (rnd : Z) | TkDirect (token : string) (rnd : Z).

Section task.
Context `{CashuLib W P} (shl32_oob : Z → Z → Z) (http_get : string → option (Z * Z)) (tick_ms : Z).
Implicit Types s : health W.

Definition with_pc (pc : health_pc) s : health W :=
  mk_health_state (s_running s) pc (s_wallet_queue s) (s_health_state s) (s_wallet s).
Definition with_queue_of (q : list string) s : health W :=
  mk_health_state (s_running s) (s_pc s) (Some q) (s_health_state s) (s_wallet s).
Definition with_health (h : tollgate_mint_health_t) s : health W :=
  mk_health_state (s_running s) (s_pc s) (s_wallet_queue s) h (s_wallet s).

(** The wallet is offered a token; the outcome is only logged. *)
Definition offer (token : string) (rnd : Z) s : health W :=
  mk_health_state (s_running s) (s_pc s) (s_wallet_queue s) (s_health_state s)
    (nucula_wallet_receive shl32_oob rnd (Some token) (s_wallet s)).2.

(** The next token of the queue, if there is one. *)
Definition take_token (rnd : Z) s : option (health W * token_event) :=
  match s_wallet_queue s with
  | Some (token :: q) => Some (offer token rnd (with_queue_of q s), TkTaken token rnd)
  | _ => None
  end.

(** One turn of the task, at tick [now]: [lock]: whether the lock is had for a round. *)
Definition health_task (lock : bool) (now rnd : Z) s : health W * list token_event :=
  match s_pc s with
  | Starting => (with_pc Draining (with_health (initial_round http_get lock (now * tick_ms) (s_health_state s)).1 s), [])
  | Draining =>
      match take_token rnd s with
      | Some (s', e) => (s', [e])
      | None => (with_pc (if s_running s then Waiting now else Ended) s, [])
      end
  | Waiting start =>
      if negb (s_running s) then (with_pc Ended s, [])
      else if MINT_HEALTH_PROBE_INTERVAL_S * 1000 <=? u32 ((now - start) * tick_ms) then (with_pc Probing s, [])
      else match take_token rnd s with Some (s', e) => (s', [e]) | None => (s, []) end
  | Probing => (with_pc Draining (with_health (probe_round http_get lock (now * tick_ms) (s_health_state s)).1 s), [])
  | Ended => (s, [])
  end.

(** [queue_ok]: whether a queue could be made.  That the task could not be made is not
    noticed. *)
Definition mint_health_start (queue_ok task_ok : bool) s : health W :=
  if s_running s then s else
  mk_health_state true (if task_ok then Starting else Ended) (if queue_ok then Some [] else None)
    (s_health_state s) (s_wallet s).
Definition mint_health_stop s : health W :=
  mk_health_state false (s_pc s) (s_wallet_queue s) (s_health_state s) (s_wallet s).

(** * Submitting a token *)

Definition wallet_event_effect (rnd : Z) (e : wallet_event) s : health W * list token_event :=
  match e, s_wallet_queue s with
  | EvQueued token, Some q => (with_queue_of (q ++ [token]) s, [TkQueued token])
  | EvQueued _, None => (s, [])
  | EvReceive token, _ => (offer token rnd s, [TkDirect token rnd])
  end.

Fixpoint wallet_effects (rnd : Z) (es : list wallet_event) s : health W * list token_event :=
  match es with
  | [] => (s, [])
  | e :: es' =>
      let '(s1, t1) := wallet_event_effect rnd e s in
      let '(s2, t2) := wallet_effects rnd es' s1 in (s2, t1 ++ t2)
  end.

(** The state is the one at the end of the second that [xQueueSend] waits for room. *)
Definition submit (strdup_ok : bool) (token : string) (rnd : Z) s : health W * list token_event :=
  wallet_effects rnd
    (tls_worker_submit ((λ q, length q <? WALLET_QUEUE_LEN)%nat <$> s_wallet_queue s) strdup_ok token) s.

(** * Runs *)

Inductive action := Submit (strdup_ok : bool) (token : string) (rnd : Z) | Turn (lock : bool) (now rnd : Z).

Definition act (a : action) s : health W * list token_event :=
  match a with
  | Submit d token rnd => submit d token rnd s
  | Turn lock now rnd => health_task lock now rnd s
  end.

Fixpoint run (l : list action) s : health W * list token_event :=
  match l with
  | [] => (s, [])
  | a :: l' => let '(s1, t1) := act a s in let '(s2, t2) := run l' s1 in (s2, t1 ++ t2)
  end.
End task.

(** What a sequence of actions submits, and what its events queue, take and offer. *)
Definition submitted (a : action) : option string := match a with Submit _ t _ => Some t | Turn _ _ _ => None end.
Definition is_turn (a : action) : bool := match a with Turn _ _ _ => true | _ => false end.
Definition accepted (e : token_event) : option string :=
  match e with TkQueued t | TkDirect t _ => Some t | TkTaken _ _ => None end.
Definition queued (e : token_event) : option string := match e with TkQueued t => Some t | _ => None end.
Definition taken (e : token_event) : option string := match e with TkTaken t _ => Some t | _ => None end.
Definition offered (e : token_event) : option (string * Z) :=
  match e with TkTaken t r | TkDirect t r => Some (t, r) | TkQueued _ => None end.

(** * Nothing is lost, nothing is offered twice *)

Section properties.
Context `{CashuLib W P} (shl32_oob : Z → Z → Z) (http_get : string → option (Z * Z)) (tick_ms : Z).
Implicit Types (s : health W) (l : list action).
#[local] Abbreviation run := (run shl32_oob http_get tick_ms).
#[local] Abbreviation act := (act shl32_oob http_get tick_ms).

Definition queue_of s : list string := default [] (s_wallet_queue s).

(** The effect of events on a queue and on the wallets. *)
Definition redeemed (es : list token_event) (ws : wallets W) : wallets W :=
  foldl (λ ws '(t, r), (nucula_wallet_receive shl32_oob r (Some t) ws).2) ws (omap offered es).

Lemma redeemed_app es es' ws : redeemed (es ++ es') ws = redeemed es' (redeemed es ws).
Proof. unfold redeemed. by rewrite omap_app, foldl_app. Qed.

(** What one step does, and what all steps do together. *)
Definition accounted (subs : list string) s s' (es : list token_event) : Prop :=
  omap taken es ++ queue_of s' = queue_of s ++ omap queued es ∧
  omap accepted es = subs ∧
  s_wallet s' = redeemed es (s_wallet s) ∧
  (is_Some (s_wallet_queue s) → is_Some (s_wallet_queue s')) ∧
  ((length (queue_of s) ≤ WALLET_QUEUE_LEN)%nat → (length (queue_of s') ≤ WALLET_QUEUE_LEN)%nat).

Lemma accounted_refl s : accounted [] s s [].
Proof. split_and!; try done. cbn. by rewrite app_nil_r. Qed.

Lemma accounted_trans subs1 subs2 s s1 s2 es1 es2 :
  accounted subs1 s s1 es1 → accounted subs2 s1 s2 es2 → accounted (subs1 ++ subs2) s s2 (es1 ++ es2).
Proof.
  intros (Hq1 & Ha1 & Hw1 & Hs1 & Hl1) (Hq2 & Ha2 & Hw2 & Hs2 & Hl2). rewrite <- Ha1, <- Ha2.
  split_and!; rewrite ?omap_app; [|done| |eauto..].
  - by rewrite <- app_assoc, Hq2, app_assoc, Hq1, <- app_assoc.
  - by rewrite redeemed_app, <- Hw1.
Qed.

Lemma take_token_accounted rnd s s' e :
  take_token shl32_oob rnd s = Some (s', e) → accounted [] s s' [e] ∧ s_pc s' = s_pc s ∧ s_running s' = s_running s
    ∧ taken e ≠ None.
Proof.
  unfold take_token, accounted, queue_of. destruct (s_wallet_queue s) as [[|t q]|] eqn:Hq; [done| |done].
  intros [= <- <-]. cbn. rewrite app_nil_r. split_and!; try done. lia.
Qed.

Lemma health_task_accounted lock now rnd s :
  accounted [] s (health_task shl32_oob http_get tick_ms lock now rnd s).1
    (health_task shl32_oob http_get tick_ms lock now rnd s).2.
Proof.
  assert (∀ pc h, accounted [] s (with_pc pc (with_health h s)) []) as Hh.
  { intros pc h. split_and!; try done. cbn. by rewrite app_nil_r. }
  assert (∀ pc, accounted [] s (with_pc pc s) []) as Hp.
  { intros pc. split_and!; try done. cbn. by rewrite app_nil_r. }
  unfold health_task.
  destruct (s_pc s) as [| |start| |]; [apply Hh| | |apply Hh|apply accounted_refl].
  - destruct (take_token _ _ _) as [[s' e]|] eqn:Ht; [by apply take_token_accounted in Ht as (? & _)|apply Hp].
  - destruct (s_running s); cbn [negb]; [|apply Hp]. destruct (_ <=? _); [apply Hp|].
    destruct (take_token _ _ _) as [[s' e]|] eqn:Ht; [by apply take_token_accounted in Ht as (? & _)|apply accounted_refl].
Qed.

Lemma submit_accounted token rnd s :
  accounted [token] s (submit shl32_oob true token rnd s).1 (submit shl32_oob true token rnd s).2 ∧
  s_pc (submit shl32_oob true token rnd s).1 = s_pc s ∧
  s_running (submit shl32_oob true token rnd s).1 = s_running s ∧
  ∃ e, (submit shl32_oob true token rnd s).2 = [e] ∧ taken e = None.
Proof.
  unfold submit, tls_worker_submit, accounted, queue_of.
  destruct (s_wallet_queue s) as [q|] eqn:Hq; cbn [fmap option_fmap option_map wallet_effects wallet_event_effect].
  - destruct (Nat.ltb_spec (length q) WALLET_QUEUE_LEN); cbn; rewrite Hq; cbn; rewrite ?app_nil_r;
      split_and!; try done; try (intros; rewrite ?length_app; cbn; lia); eauto.
  - cbn. rewrite Hq. cbn. split_and!; try done; eauto.
Qed.

(** Memory for the copy of every token. *)
Definition copies_made l : Prop := Forall (λ a, match a with Submit d _ _ => d = true | Turn _ _ _ => True end) l.

Lemma run_accounted l s :
  copies_made l → accounted (omap submitted l) s (run l s).1 (run l s).2.
Proof.
  unfold copies_made. intros Hl. revert s. induction Hl as [|a l Ha _ IH]; intros s; [apply accounted_refl|].
  cbn [Redeem.run]. assert (accounted (omap submitted [a]) s (act a s).1 (act a s).2) as Hact.
  { destruct a as [d t r|lock now r]; [subst d; apply submit_accounted|apply health_task_accounted]. }
  destruct (Redeem.act _ _ _ a s) as [s1 es1]. specialize (IH s1). destruct (Redeem.run _ _ _ l s1) as [s2 es2].
  change (a :: l) with ([a] ++ l). rewrite omap_app. by eapply accounted_trans.
Qed.

(** C7: The way of a token.  In any order of submissions and turns of the task, and with
    memory for the copies, every token submitted is put into the queue or offered to the
    wallet at once, and only once; what is taken from the queue is what was put into it,
    in order; the queue never holds more than eight; and the wallets are those that
    receive exactly the tokens offered, one after the other. *)
Theorem tokens_accounted l s q :
  s_wallet_queue s = Some q → (length q ≤ WALLET_QUEUE_LEN)%nat → copies_made l →
  omap taken (run l s).2 ++ queue_of (run l s).1 = q ++ omap queued (run l s).2 ∧
  omap accepted (run l s).2 = omap submitted l ∧
  s_wallet (run l s).1 = redeemed (run l s).2 (s_wallet s) ∧
  (length (queue_of (run l s).1) ≤ WALLET_QUEUE_LEN)%nat.
Proof.
  intros Hq Hlen Hl. destruct (run_accounted l s Hl) as (H1 & H2 & H3 & _ & H5).
  assert (queue_of s = q) as Hqs by (unfold queue_of; by rewrite Hq).
  rewrite Hqs in H1, H5. split_and!; auto.
Qed.

(** * Every token gets its turn *)

(** The turns of the task before it takes from a queue that holds something. *)
Definition turns_before (pc : health_pc) : nat :=
  match pc with Waiting _ => 2 | Starting | Probing => 1 | Draining | Ended => 0 end.
Definition turns_for (n : nat) (pc : health_pc) : nat :=
  match n with O => 0 | S m => S (turns_before pc + 3 * m) end.
Definition turns l : nat := length (List.filter is_turn l).

Definition alive s : Prop := s_running s = true ∧ s_pc s ≠ Ended.

Lemma health_task_progress lock now rnd s :
  queue_of s ≠ [] → alive s →
  let '(s1, es) := health_task shl32_oob http_get tick_ms lock now rnd s in
  alive s1 ∧
  ((∃ e t, es = [e] ∧ taken e = Some t ∧ s_pc s1 = s_pc s ∧ queue_of s = t :: queue_of s1) ∨
   (es = [] ∧ S (turns_before (s_pc s1)) = turns_before (s_pc s) ∧ queue_of s1 = queue_of s)).
Proof.
  unfold queue_of at 1. intros Hq [Hr Hpc].
  assert (∃ t q, s_wallet_queue s = Some (t :: q)) as (t & q & Hqs)
    by (destruct (s_wallet_queue s) as [[|t q]|]; cbn in Hq; [done|eauto|done]).
  assert (take_token shl32_oob rnd s = Some (offer shl32_oob t rnd (with_queue_of q s), TkTaken t rnd)) as Htk
    by (unfold take_token; by rewrite Hqs).
  unfold health_task, alive, queue_of. rewrite Htk, Hr. cbn [negb].
  destruct (s_pc s) as [| |start| |] eqn:Hp; [| |destruct (_ <=? _)| |done]; cbn; rewrite ?Hqs, ?Hp; cbn;
    (split; [done|]); first [right; split_and!; reflexivity|left; do 2 eexists; split_and!; reflexivity].
Qed.

Lemma submit_keeps token rnd s :
  alive s → alive (submit shl32_oob true token rnd s).1 ∧
  s_pc (submit shl32_oob true token rnd s).1 = s_pc s ∧
  omap taken (submit shl32_oob true token rnd s).2 = [] ∧
  ∃ q, queue_of (submit shl32_oob true token rnd s).1 = queue_of s ++ q.
Proof.
  intros [Hr Hpc]. destruct (submit_accounted token rnd s) as ((Hq & _) & Hp & Hr' & e & He & Ht).
  rewrite He in Hq |- *. cbn in Hq |- *. rewrite Ht in Hq |- *. unfold alive. rewrite Hp, Hr'.
  split_and!; try done. eauto.
Qed.

Lemma turns_take l s n :
  copies_made l → alive s → (n ≤ length (queue_of s))%nat → (turns_for n (s_pc s) ≤ turns l)%nat →
  (n ≤ length (omap taken (run l s).2))%nat.
Proof.
  intros Hl. revert s n. induction Hl as [|a l Ha _ IH]; intros s [|m] Hal Hn Ht; try lia.
  { cbn in Ht. lia. }
  cbn [Redeem.run]. destruct a as [d t r|lock now r]; cbn [Redeem.act].
  - subst d. destruct (submit_keeps t r s Hal) as (Hal1 & Hp & _ & q & Hq).
    destruct (submit _ _ _ _ _) as [s1 es1]. cbn [fst] in *. specialize (IH s1 (S m) Hal1).
    destruct (Redeem.run _ _ _ l s1) as [s2 es2]. cbn [fst snd] in *. rewrite omap_app, length_app.
    rewrite Hq, length_app, Hp in IH. specialize (IH ltac:(lia) Ht). lia.
  - pose proof (health_task_progress lock now r s ltac:(intros E; rewrite E in Hn; cbn in Hn; lia) Hal) as Hst.
    destruct (health_task _ _ _ _ _ _ _) as [s1 es1]. destruct Hst as (Hal1 & Hst).
    unfold turns in *. cbn in Ht.
    destruct Hst as [(e & t & -> & He & Hp & Hq)|(-> & Hp & Hq)].
    + specialize (IH s1 m Hal1). destruct (Redeem.run _ _ _ l s1) as [s2 es2]. cbn [fst snd] in *.
      cbn. rewrite He. cbn. rewrite Hq in Hn. cbn in Hn. rewrite Hp in IH.
      specialize (IH ltac:(lia) ltac:(destruct m; cbn; lia)). lia.
    + specialize (IH s1 (S m) Hal1). destruct (Redeem.run _ _ _ l s1) as [s2 es2]. cbn [fst snd app] in *.
      apply IH; [by rewrite Hq|]. cbn. lia.
Qed.

(** A token in the queue gets its turn: while the task runs, the token with [k] tokens
    before it is taken for the wallet, as the one after those [k], within [3 * (k + 1)] turns
    of the task, whatever is submitted meanwhile and however long the probes take. *)
Theorem queued_token_is_taken l s k t :
  queue_of s !! k = Some t → alive s → copies_made l → (3 * S k ≤ turns l)%nat →
  omap taken (run l s).2 !! k = Some t.
Proof.
  intros Hk Hal Hl Ht. assert (k < length (queue_of s))%nat by by eapply lookup_lt_Some.
  assert (S k ≤ length (omap taken (run l s).2))%nat as Hlen.
  { apply turns_take; [done..|]. cbn. destruct (s_pc s); cbn; lia. }
  destruct (run_accounted l s Hl) as (Heq & _).
  assert ((omap taken (run l s).2 ++ queue_of (run l s).1) !! k = Some t) as Ha
    by (rewrite Heq; by apply lookup_app_l_Some).
  by rewrite lookup_app_l in Ha by lia.
Qed.

(** C6: From a payment to the wallet.  A token for which the payment handler has given a
    session, and which its worker submits while the task runs, is offered to the wallet:
    at once when the queue is full, or else within three turns of the task for each token
    before it and three more. *)
Theorem paid_token_is_offered `{MacLookup} `{CUndef} `{CJson J} b64 sha http_post pf ticks cfg npub rq ss ss' body rp
    rnd l s :
  api_post_payment b64 sha http_post pf ticks cfg npub rq ss = (rp, ss', Some body) →
  alive s → copies_made l → (3 * S (length (queue_of s)) ≤ turns l)%nat →
  reply_status rp = 200 ∧ ∃ r, (body, r) ∈ omap offered (run (Submit true body rnd :: l) s).2.
Proof.
  intros Hpay Hal Hl Ht. split.
  { unfold api_post_payment in Hpay. repeat case_match; simplify_eq; done. }
  cbn [Redeem.run Redeem.act]. destruct (submit_accounted body rnd s) as ((Hq & Ha & _) & _ & _ & e & He & Htk).
  destruct (submit_keeps body rnd s Hal) as (Hal1 & Hp & _).
  destruct (submit _ _ _ _ _) as [s1 es1]. cbn [fst snd] in *. subst es1.
  destruct e as [t|t r|t r]; [|done|].
  - cbn in Ha, Hq. injection Ha as ->.
    pose proof (queued_token_is_taken l s1 (length (queue_of s)) body) as Hlive. rewrite Hq in Hlive.
    specialize (Hlive ltac:(by apply list_lookup_middle) Hal1 Hl Ht).
    destruct (Redeem.run _ _ _ l s1) as [s2 es2]. cbn [snd] in *. cbn.
    apply list_elem_of_lookup_2, list_elem_of_omap in Hlive as (e & He & Hte).
    destruct e as [t|t r|t r]; [done| |done]. cbn in Hte. injection Hte as ->.
    exists r. apply list_elem_of_omap. by exists (TkTaken body r).
  - cbn in Ha. injection Ha as ->. destruct (Redeem.run _ _ _ l s1) as [s2 es2]. cbn. exists r. by left.
Qed.
End properties.

(** * What is given up *)

(** A token whose receipt fails, because the mint does not answer say, is freed like any
    other: it is neither in the queue nor tried again. *)
Theorem failed_receipt_loses_token `{CashuLib W P} shl32_oob http_get tick_ms lock now rnd t q (s : health W) :
  s_pc s = Draining → s_wallet_queue s = Some (t :: q) →
  (nucula_wallet_receive shl32_oob rnd (Some t) (s_wallet s)).1 = ESP_FAIL →
  let s' := (health_task shl32_oob http_get tick_ms lock now rnd s).1 in
  s_wallet_queue s' = Some q ∧ s_wallet s' = (nucula_wallet_receive shl32_oob rnd (Some t) (s_wallet s)).2.
Proof. intros Hp Hq _. unfold health_task, take_token. by rewrite Hp, Hq. Qed.

(** Without memory for the task the start reports nothing, and what is queued stays. *)
Theorem start_without_task_strands_tokens `{CashuLib W P} shl32_oob http_get tick_ms (s : health W) l :
  s_running s = false → Forall (λ a, is_turn a = true) l →
  let s1 := mint_health_start true false s in
  Redeem.run shl32_oob http_get tick_ms l s1 = (s1, []) ∧ mint_health_start true true s1 = s1.
Proof.
  intros Hr Hl. unfold mint_health_start. rewrite Hr. cbv zeta. cbn [s_running]. split; [|done].
  induction Hl as [|[d t r|lock now r] l Ha _ IH]; [done|done|]. cbn [Redeem.run act health_task s_pc].
  by rewrite IH.
Qed.

(** While a round of probes lasts, the mints are not to be had: the report is empty and
    the price is quoted at the configured mint, reachable or not. *)
Theorem probing_hides_mints cfg npub unit s :
  api_get_mints (mint_health_get_all false s) = ReplyJson 200 (JArr []) ∧
  api_get_discovery cfg npub unit (mint_health_get_all false s) = api_get_discovery cfg npub unit [] ∧
  (∀ url, mint_health_is_reachable false (Some url) s = false).
Proof. done. Qed.

(** * Witnesses *)

Definition toy_health (pc : health_pc) (q : list string) : health toy_wallet :=
  mk_health_state true pc (Some q) [] toy_wallets.
Definition toy_turns (n : nat) : list action := replicate n (Turn true 0 0).
Definition toy_run (l : list action) (s : health toy_wallet) : health toy_wallet * list token_event :=
  @Redeem.run toy_wallet Z toy_lib (λ _ _, 0) (λ _, Some (0, 200)) 10 l s.
Definition nine_tokens : list action := replicate 9 (Submit true "t" 3) ++ toy_turns 3.

Lemma tokens_accounted_witness :
  let '(s', es) := toy_run nine_tokens (toy_health Draining []) in
  omap taken es ++ queue_of s' = omap queued es ∧ omap accepted es = omap submitted nine_tokens ∧
  length (omap queued es) = 8%nat ∧ length (omap taken es) = 3%nat.
Proof.
  destruct (@tokens_accounted toy_wallet Z toy_lib (λ _ _, 0) (λ _, Some (0, 200)) 10 nine_tokens
    (toy_health Draining []) [] eq_refl ltac:(cbn; lia) ltac:(repeat constructor)) as (H1 & H2 & _).
  split; [exact H1|]. split; [exact H2|]. split; vm_compute; reflexivity.
Defined.

Lemma queued_token_is_taken_witness :
  omap taken (toy_run (toy_turns 6) (toy_health Probing ["a"; "b"]%string)).2 !! 1%nat = Some "b"%string.
Proof.
  apply (@queued_token_is_taken toy_wallet Z toy_lib (λ _ _, 0) (λ _, Some (0, 200)) 10 (toy_turns 6)
    (toy_health Probing ["a"; "b"]%string) 1 "b"%string); [done|done|repeat constructor|cbn; lia].
Defined.

Lemma paid_token_is_offered_witness :
  reply_status pay_reply.1.1 = 200 ∧
  ∃ r, ("cashuAe30"%string, r) ∈ omap offered
         (toy_run (Submit true "cashuAe30" 5 :: toy_turns 6) (toy_health Starting ["a"]%string)).2.
Proof.
  destruct (@paid_token_is_offered toy_wallet Z toy_lib (λ _ _, 0) (λ _, Some (0, 200)) 10 mac_none cundef_zero
    jval json_env b64_env (λ _, [7]) http_env platform_example 1000 config_example "npub" pay_request session_boot
    pay_reply.1.2 "cashuAe30" pay_reply.1.1 5 (toy_turns 6) (toy_health Starting ["a"]%string)) as [H1 H2].
  - vm_compute. reflexivity.
  - done.
  - repeat constructor.
  - cbn. lia.
  - split; [exact H1|exact H2].
Defined.
