(* ===== verification/CvmTask.v ===== *)
(** The task that keeps the remote control on its relay (main/cvm_server.c): one
    connection after the other, what is sent when it is up, the loop of reads with its
    pings, and the start and stop of the task.  TLS is a script: how each connection and
    each read turns out, and at what time. *)

From S2P Require Import Prelude CStr F64 Json Dns Firewall Session Config Mining Cashu Core.
From S2P Require Import RateLimiter SubManager Storage Relay Identity NostrEvent WebSocket Mcp Cvm.
#[local] Open Scope Z_scope.

Definition CVM_WS_PING_INTERVAL_S : Z := 30.
Definition PONG : list Z := [0x8A; 0x00].
Definition PING : list Z := [0x89; 0x00].
Definition CLOSE : list Z := [0x88; 0x00].

(** * What the task does and meets *)

Inductive cv_event :=
| CvConnected
| CvSent (text : string)
| CvWrote (frame : list Z)
| CvPing (at_s : Z)
| CvCall (c : wallet_call)
| CvPublished (text : string)
| CvDestroyed
| CvPause.

(** [esp_tls_conn_read]. *)
Inductive tls_read_result := RdClosed | RdError | RdBytes (bs : list Z).

(** A turn of the loop: [g_running] at its head, the read, the sessions, the time for an
    answer, and the second of the uptime at its end. *)
Record read_step := mk_read_step {
  rd_running : bool;
  rd_result : tls_read_result;
  rd_sessions : session_state;
  rd_created : Z;
  rd_now : Z
}.

(** A turn of the outer loop: [g_running] at its head, whether the connection, the
    subscription and the memory for the buffer come off, the time of the announcements
    and of the first ping, and the reads. *)
Record attempt := mk_attempt {
  at_running : bool;
  at_connect : bool;
  at_subscribe : bool;
  at_malloc : bool;
  at_created : Z;
  at_start : Z;
  at_reads : list read_step
}.

(** How a turn of the outer loop leaves the task: for another one, ended, or still in
    its reads. *)
Inductive cv_outcome := CvAgain | CvEnds | CvReading.
#[global] Instance cv_outcome_eq_dec : EqDecision cv_outcome.
Proof. solve_decision. Defined.

Section task.
Context `{CUndef} `{CJson J}.
Variable cJSON_Duplicate : J → jval.
Variable mbedtls_sha256 : list Z → list Z.
Context {keypair : Type} (secp256k1_keypair_create : list Z → option keypair).
Variable secp256k1_schnorrsig_sign32 : keypair → list Z → option (list Z).
Variable printed_number : J → f64.
Variable nucula_wallet_balance nucula_wallet_proof_count : Z.
Variable nucula_wallet_send : Z → Z + string.
Variable nucula_wallet_melt : string → Z → option string.
Variable malloc : Z → bool.
Variable id : tollgate_identity_t.

(** * Announcements *)

Definition plain (v : jval) : string := match v with JStr s => s | _ => cJSON_PrintUnformatted v end.

(** The message to the relay, if the event fits. *)
Definition publish_event_via_ws (now kind : Z) (content tags : string) : esp_err_t * option string :=
  if negb (id_initialized id) then (ESP_FAIL, None) else
  let event := nostr_event_init cJSON_Duplicate mbedtls_sha256 now (id_npub_hex id) kind (Some tags) (Some content) in
  match '(_, signed) ← nostr_event_sign secp256k1_keypair_create secp256k1_schnorrsig_sign32 event (id_nsec id);
        nostr_event_to_json cJSON_Duplicate signed 4096 with
  | Some event_json => (ESP_OK, Some ("[" +:+ dq "EVENT" +:+ "," +:+ event_json +:+ "]")%string)
  | None => (ESP_ERR_NO_MEM, None)
  end.

Definition publish_announcements_via_ws (now : Z) : list string :=
  if negb (id_initialized id) then [] else
  omap (λ '(kind, content, tags), (publish_event_via_ws now kind (plain content) (plain tags)).2)
    (announcements cJSON_Duplicate).

(** * Reads *)

(** [None]: a frame is read out of bounds. *)
Fixpoint relay_loop (reads : list read_step) (last_ping : Z) (cfg : tollgate_config_t)
  : option (tollgate_config_t * list cv_event * bool) :=
  match reads with
  | [] => Some (cfg, [], false)
  | r :: reads' =>
      if negb (rd_running r) then Some (cfg, [], true) else
      match rd_result r with
      | RdClosed => Some (cfg, [], true)
      | RdError => relay_loop reads' last_ping cfg
      | RdBytes bs =>
          '(eff, back, ends) ← relay_read cJSON_Duplicate mbedtls_sha256 secp256k1_keypair_create
             secp256k1_schnorrsig_sign32 printed_number nucula_wallet_balance nucula_wallet_proof_count
             nucula_wallet_send nucula_wallet_melt id (rd_created r) malloc bs (rd_sessions r) cfg;
          let evs := (CvCall <$> eff.1.2) ++ (CvPublished <$> eff.2)
                     ++ (if bool_decide (back = []) then [] else [CvWrote back]) in
          if (ends : bool) then Some (eff.1.1, evs, true) else
          let due := CVM_WS_PING_INTERVAL_S <=? rd_now r - last_ping in
          '(cfg', evs', over) ← relay_loop reads' (if due then rd_now r else last_ping) eff.1.1;
          Some (cfg', evs ++ (if due then [CvPing (rd_now r)] else []) ++ evs', over)
      end
  end.

(** * Connections *)

Definition cvm_attempt (a : attempt) (cfg : tollgate_config_t)
  : option (tollgate_config_t * list cv_event * cv_outcome) :=
  if negb (at_running a) then Some (cfg, [], CvEnds) else
  if negb (at_connect a) then Some (cfg, [CvPause], CvAgain) else
  let hello := CvConnected :: (if at_subscribe a then [CvSent (cJSON_PrintUnformatted (subscribe_to_relay (id_npub_hex id)))] else []) in
  if negb (at_subscribe a) then Some (cfg, hello ++ [CvDestroyed; CvPause], CvAgain) else
  let up := hello ++ (CvSent <$> publish_announcements_via_ws (at_created a)) in
  if negb (at_malloc a) then Some (cfg, up ++ [CvDestroyed], CvEnds) else
  '(cfg', evs, over) ← relay_loop (at_reads a) (at_start a) cfg;
  Some (if (over : bool) then (cfg', up ++ evs ++ [CvWrote CLOSE; CvDestroyed; CvPause], CvAgain)
        else (cfg', up ++ evs, CvReading)).

Fixpoint cvm_attempts (l : list attempt) (cfg : tollgate_config_t)
  : option (tollgate_config_t * list cv_event * cv_outcome) :=
  match l with
  | [] => Some (cfg, [], CvAgain)
  | a :: l' =>
      '(cfg1, e1, o) ← cvm_attempt a cfg;
      match o with
      | CvAgain => '(cfg2, e2, o2) ← cvm_attempts l' cfg1; Some (cfg2, e1 ++ e2, o2)
      | _ => Some (cfg1, e1, o)
      end
  end.

Definition cvm_relay_task (l : list attempt) (cfg : tollgate_config_t)
  : option (tollgate_config_t * list cv_event * cv_outcome) :=
  if negb (id_initialized id) then Some (cfg, [], CvEnds) else cvm_attempts l cfg.
End task.

(** * Start and stop *)

(** [g_running], whether [g_task] is set, and the tasks that have not ended. *)
Record cvm_server := mk_cvm_server { g_running : bool; g_task : bool; g_alive : nat }.
Definition cvm_server_boot : cvm_server := mk_cvm_server false false 0.
(** The new state, and the relay of the task that is made. *)
Definition cvm_server_start (task_ok : bool) (cfg : tollgate_config_t) (s : cvm_server) : cvm_server * option string :=
  if g_running s then (s, None)
  else if task_ok then (mk_cvm_server true true (S (g_alive s)), Some (cvm_relay cfg))
  else (mk_cvm_server false (g_task s) (g_alive s), None).
Definition cvm_server_stop (s : cvm_server) : cvm_server := mk_cvm_server false false (g_alive s).
(** A task looks at the flag, between two reads or after a pause. *)
Definition cvm_task_looks (s : cvm_server) : cvm_server :=
  if g_running s then s else mk_cvm_server false (g_task s) (Nat.pred (g_alive s)).
Definition cvm_get_pubkey_hex (id : tollgate_identity_t) : option string :=
  if id_initialized id then Some (id_npub_hex id) else None.

(** * The events of a run *)

Definition call_of (e : cv_event) : option wallet_call := match e with CvCall c => Some c | _ => None end.
Definition ping_of (e : cv_event) : option Z := match e with CvPing t => Some t | _ => None end.
Definition is_connected (e : cv_event) : bool := match e with CvConnected => true | _ => false end.
Definition is_destroyed (e : cv_event) : bool := match e with CvDestroyed => true | _ => false end.
Definition count (f : cv_event → bool) (l : list cv_event) : nat := length (List.filter f l).

Lemma count_app f a b : count f (a ++ b) = (count f a + count f b)%nat.
Proof. unfold count. by rewrite List.filter_app, length_app. Qed.
Lemma count_fmap {A} f (g : A → cv_event) l : (∀ x, f (g x) = false) → count f (g <$> l) = 0%nat.
Proof. intros Hf. unfold count. induction l as [|x l IH]; [done|]. cbn. by rewrite Hf. Qed.

Lemma omap_calls (l : list wallet_call) : omap call_of (CvCall <$> l) = l.
Proof. induction l as [|x l IH]; cbn; congruence. Qed.
Lemma omap_none {A B} (f : cv_event → option B) (g : A → cv_event) (l : list A) : (∀ x, f (g x) = None) → omap f (g <$> l) = [].
Proof. intros Hf. induction l as [|x l IH]; [done|]. cbn. by rewrite Hf. Qed.

(** Each ping at least half a minute after the one before. *)
Fixpoint spaced (last : Z) (l : list Z) : Prop :=
  match l with [] => True | t :: l' => last + CVM_WS_PING_INTERVAL_S <= t ∧ spaced t l' end.

Section run.
Context `{CUndef} `{CJson J} (dup : J → jval) (sha : list Z → list Z).
Context {keypair : Type} (create : list Z → option keypair) (sign : keypair → list Z → option (list Z)).
Context (printed : J → f64) (balance proofs : Z) (send : Z → Z + string) (melt : string → Z → option string).
Context (malloc : Z → bool) (id : tollgate_identity_t).
#[local] Abbreviation loop := (relay_loop dup sha create sign printed balance proofs send melt malloc id).
#[local] Abbreviation attempts := (cvm_attempts dup sha create sign printed balance proofs send melt malloc id).
#[local] Abbreviation task := (cvm_relay_task dup sha create sign printed balance proofs send melt malloc id).

(** A read that holds a text frame with a request in the owner's name. *)
Definition commanding (r : read_step) : Prop :=
  id_initialized id = true ∧
  ∃ bs t e text, rd_result r = RdBytes bs ∧ frame_text malloc bs = Some (Some t) ∧
    command_event t = Some (Some (id_npub_hex id), e, Some text).

Lemma relay_read_effects now bs ss cfg eff back ends r :
  rd_result r = RdBytes bs →
  relay_read dup sha create sign printed balance proofs send melt id now malloc bs ss cfg = Some (eff, back, ends) →
  (length eff.1.2 ≤ 1)%nat ∧ (eff.1.2 ≠ [] → commanding r) ∧ (config_wf cfg → config_wf eff.1.1).
Proof.
  intros Hr. unfold relay_read. destruct (_ =? 1).
  2: { repeat case_match; intros [= <- <- <-]; cbn; split_and!; try done; lia. }
  destruct (frame_text malloc bs) as [text|] eqn:Hf; [|done]. cbn [mbind option_bind]. intros [= <- <- <-].
  destruct text as [t|]; [|cbn; split_and!; try done; lia].
  destruct (str_empty t); [cbn; split_and!; try done; lia|].
  destruct (process_relay_message dup sha create sign printed balance proofs send melt id now t ss cfg)
    as [[cfg' calls] pubs] eqn:Hp.
  pose proof (process_obeys_owner _ _ _ _ _ _ _ _ _ _ _ _ _ _ _ _ _ Hp) as (Hc & _ & Hown). cbn.
  split_and!; [done| |].
  - intros Hne. destruct Hown as [Hin (e & text & Hcmd)]; [tauto|]. split; [done|]. by exists bs, t, e, text.
  - intros Hwf. pose proof (process_config_wf dup sha create sign printed balance proofs send melt id now t ss cfg Hwf) as Hw.
    by rewrite Hp in Hw.
Qed.

(** One loop of reads: its calls, its pings, and what it does not do. *)
Lemma relay_loop_spec reads last cfg cfg' evs over :
  loop reads last cfg = Some (cfg', evs, over) →
  (length (omap call_of evs) ≤ length reads)%nat ∧
  (omap call_of evs ≠ [] → ∃ r, r ∈ reads ∧ commanding r) ∧
  spaced last (omap ping_of evs) ∧
  count is_connected evs = 0%nat ∧ count is_destroyed evs = 0%nat ∧
  (config_wf cfg → config_wf cfg').
Proof.
  revert last cfg cfg' evs over. induction reads as [|r reads IH]; intros last cfg cfg' evs over; cbn [relay_loop].
  { intros [= <- <- <-]. done. }
  destruct (rd_running r); cbn [negb]; [|intros [= <- <- <-]; cbn; split_and!; try done; lia].
  destruct (rd_result r) as [| |bs] eqn:Hr.
  - intros [= <- <- <-]. cbn. split_and!; try done. lia.
  - intros (H1 & H2 & H3)%IH. split_and!; try apply H3; [cbn; lia|].
    intros Hne. destruct (H2 Hne) as (x & ? & ?). exists x. split; [by right|done].
  - intros ([[eff back] ends] & Hread & Hk)%bind_Some.
    destruct (relay_read_effects _ _ _ _ _ _ _ r Hr Hread) as (Hl & Hcmd & Hwf).
    set (e0 := (CvCall <$> eff.1.2) ++ _) in *.
    assert (omap call_of e0 = eff.1.2 ∧ omap ping_of e0 = [] ∧ count is_connected e0 = 0%nat ∧ count is_destroyed e0 = 0%nat)
      as (Hc0 & Hp0 & Hn0 & Hd0).
    { unfold e0. rewrite !omap_app, !count_app, !count_fmap by done.
      rewrite omap_calls, (omap_none call_of CvPublished), (omap_none ping_of CvCall), (omap_none ping_of CvPublished) by done.
      case_bool_decide; cbn; by rewrite ?app_nil_r. }
    clearbody e0. destruct ends.
    + injection Hk as <- <- <-. rewrite Hc0, Hp0. split_and!; try done.
      * cbn; lia.
      * intros Hne. exists r. split; [by left|auto].
    + apply bind_Some in Hk as ([[cfg1 evs1] over1] & Hrec & [= <- <- <-]).
      apply IH in Hrec as (H1 & H2 & H3 & H4 & H5 & H6).
      set (due := CVM_WS_PING_INTERVAL_S <=? rd_now r - last) in *.
      rewrite !omap_app, !count_app, Hc0, Hp0, Hn0, Hd0, H4, H5.
      assert (omap call_of (if due then [CvPing (rd_now r)] else []) = []) as -> by by destruct due.
      cbn [app]. split_and!.
      * rewrite length_app. cbn [length]. lia.
      * intros Hne. destruct (decide (eff.1.2 = [])) as [He|He]; [|exists r; split; [by left|auto]].
        rewrite He in Hne. destruct (H2 Hne) as (x & ? & ?). exists x. split; [by right|done].
      * destruct due eqn:Hdue; [|exact H3]. cbn. split; [unfold due in Hdue; bool_hyps; lia|exact H3].
      * by destruct due.
      * by destruct due.
      * auto.
Qed.

Lemma cvm_attempt_spec a cfg cfg' evs o :
  cvm_attempt dup sha create sign printed balance proofs send melt malloc id a cfg = Some (cfg', evs, o) →
  count is_connected evs = (count is_destroyed evs + if bool_decide (o = CvReading) then 1 else 0)%nat ∧
  (length (omap call_of evs) ≤ length (at_reads a))%nat ∧
  (omap call_of evs ≠ [] → ∃ r, r ∈ at_reads a ∧ commanding r) ∧
  spaced (at_start a) (omap ping_of evs) ∧
  (config_wf cfg → config_wf cfg').
Proof.
  unfold cvm_attempt. destruct (at_running a); cbn [negb]; [|intros [= <- <- <-]; cbn; split_and!; try done; lia].
  destruct (at_connect a); cbn [negb]; [|intros [= <- <- <-]; cbn; split_and!; try done; lia].
  destruct (at_subscribe a); cbn [negb]; [|intros [= <- <- <-]; cbn; split_and!; try done; lia].
  cbv zeta. set (up := (CvConnected :: _) ++ (CvSent <$> _)).
  assert (count is_connected up = 1%nat ∧ count is_destroyed up = 0%nat ∧ omap call_of up = [] ∧ omap ping_of up = [])
    as (Hs1 & Hs2 & Hs3 & Hs4).
  { unfold up. rewrite !omap_app, !count_app, !count_fmap, !omap_none by done. done. }
  clearbody up. destruct (at_malloc a); cbn [negb].
  2: { intros [= <- <- <-]. rewrite !omap_app, !count_app, Hs1, Hs2, Hs3, Hs4. cbn. split_and!; try done; lia. }
  intros ([[cfg1 evs1] over] & Hloop & Hk)%bind_Some. apply relay_loop_spec in Hloop as (H1 & H2 & H3 & H4 & H5 & H6).
  destruct over; injection Hk as <- <- <-;
    rewrite !omap_app, !count_app, Hs1, Hs2, Hs3, Hs4, H4, H5; cbn; rewrite ?app_nil_r; by split_and!.
Qed.

Lemma cvm_attempts_spec l cfg cfg' evs o :
  attempts l cfg = Some (cfg', evs, o) →
  count is_connected evs = (count is_destroyed evs + if bool_decide (o = CvReading) then 1 else 0)%nat ∧
  (length (omap call_of evs) ≤ sum_list (length ∘ at_reads <$> l))%nat ∧
  (omap call_of evs ≠ [] → ∃ a r, a ∈ l ∧ r ∈ at_reads a ∧ commanding r) ∧
  (config_wf cfg → config_wf cfg').
Proof.
  revert cfg cfg' evs o. induction l as [|a l IH]; intros cfg cfg' evs o; cbn [cvm_attempts].
  { intros [= <- <- <-]. done. }
  intros ([[cfg1 e1] o1] & Ha & Hk)%bind_Some. apply cvm_attempt_spec in Ha as (H1 & H2 & H3 & _ & H5).
  assert (omap call_of e1 ≠ [] → ∃ a' r, a' ∈ a :: l ∧ r ∈ at_reads a' ∧ commanding r) as H3'.
  { intros Hne. destruct (H3 Hne) as (r & ? & ?). exists a, r. split; [by left|done]. }
  change (sum_list (length ∘ at_reads <$> a :: l)) with (length (at_reads a) + sum_list (length ∘ at_reads <$> l))%nat.
  destruct o1; [|injection Hk as <- <- <-; split_and!; [done|lia|done|done]..].
  apply bind_Some in Hk as ([[cfg2 e2] o2] & Hl & [= <- <- <-]). apply IH in Hl as (G1 & G2 & G3 & G4).
  rewrite !count_app, omap_app, length_app, H1, G1. rewrite (bool_decide_false (CvAgain = CvReading)) by done.
  split_and!; [lia|lia| |auto].
  intros Hne. destruct (decide (omap call_of e1 = [])) as [He|He]; [|auto].
  rewrite He in Hne. destruct (G3 Hne) as (a' & r & ? & ? & ?). exists a', r. split; [by right|done].
Qed.

(** C21: The remote control as it runs.  Over any number of connections, however each of
    them, each read and each write turns out, the wallet is called at most once for
    each read; if it is called at all the gate has an identity and some read held a
    text frame whose event names the owner's key; the configuration stays well formed; and
    every connection that was made has been given back, but for the one being read. *)
Theorem cvm_task_obeys_owner l cfg cfg' evs o :
  task l cfg = Some (cfg', evs, o) →
  (length (omap call_of evs) ≤ sum_list (length ∘ at_reads <$> l))%nat ∧
  (omap call_of evs ≠ [] → ∃ a r, a ∈ l ∧ r ∈ at_reads a ∧ commanding r) ∧
  (config_wf cfg → config_wf cfg') ∧
  count is_connected evs = (count is_destroyed evs + if bool_decide (o = CvReading) then 1 else 0)%nat.
Proof.
  unfold cvm_relay_task. destruct (id_initialized id); cbn [negb].
  2: { intros [= <- <- <-]. cbn. split_and!; try done. lia. }
  intros (H1 & H2 & H3 & H4)%cvm_attempts_spec. by split_and!.
Qed.

(** Pings go out at least half a minute apart. *)
Theorem pings_are_spaced a cfg cfg' evs o :
  cvm_attempt dup sha create sign printed balance proofs send melt malloc id a cfg = Some (cfg', evs, o) →
  spaced (at_start a) (omap ping_of evs).
Proof. intros (_ & _ & _ & Hs & _)%cvm_attempt_spec. done. Qed.

(** A connection that is broken, so that every read fails at once, is neither given up nor
    pinged: only a relay that closes it in due form makes the task connect again. *)
Theorem read_errors_never_reconnect l last cfg :
  Forall (λ r, rd_running r = true ∧ rd_result r = RdError) l → loop l last cfg = Some (cfg, [], false).
Proof.
  induction 1 as [|r l [Hr He] _ IH]; [done|]. cbn [relay_loop]. rewrite Hr, He. cbn [negb]. exact IH.
Qed.

(** Without memory for the buffer the task ends, and no start makes another one. *)
Theorem no_memory_ends_remote_control a l cfg s task_ok :
  id_initialized id = true → at_running a = true → at_connect a = true → at_subscribe a = true → at_malloc a = false →
  (∃ evs, task (a :: l) cfg = Some (cfg, evs, CvEnds)) ∧
  (g_running s = true → cvm_server_start task_ok cfg s = (s, None)).
Proof.
  intros Hid Hr Hc Hs Hm. split; [|intros Hg; unfold cvm_server_start; by rewrite Hg].
  unfold cvm_relay_task. rewrite Hid. cbn [negb cvm_attempts]. unfold cvm_attempt. rewrite Hr, Hc, Hs, Hm.
  cbn [negb mbind option_bind]. by eexists.
Qed.
End run.

(** A restart before the task looks at its flag leaves two of them, each of which obeys
    every command. *)
Example restart_runs_two_tasks cfg :
  g_alive (cvm_task_looks (cvm_server_start true cfg (cvm_server_stop
            (cvm_server_start true cfg cvm_server_boot).1)).1) = 2%nat.
Proof. reflexivity. Qed.

(** * Witnesses *)

(** A connection that fails, one that brings the stranger's event and is closed. *)
Definition forged_frame : list Z := 0x81 :: 5 :: str_bytes "event".
Definition attempts_example : list attempt :=
  [mk_attempt true false false false 0 0 [];
   mk_attempt true true true true 0 100
     [mk_read_step true RdError session_boot 0 110; mk_read_step true (RdBytes forged_frame) session_boot 0 140;
      mk_read_step true (RdBytes CLOSE) session_boot 0 141]].
Definition cvm_run_example : option (tollgate_config_t * list cv_event * cv_outcome) :=
  @cvm_relay_task cundef_zero jval (printed_json parse_forged print_forged) (λ v, v) (λ l, l) unit
    key_example_create no_signature (λ _, f64_zero) 5000 7 (λ _, inr "cashuA"%string) (λ _ _, None) (λ _, true)
    identity_example attempts_example config_example.

Lemma cvm_task_obeys_owner_witness :
  match cvm_run_example with
  | Some (_, evs, o) => omap call_of evs = [WalletSend 1000] ∧ omap ping_of evs = [140] ∧ o = CvAgain ∧
                        count is_connected evs = count is_destroyed evs ∧ (1 ≤ sum_list (length ∘ at_reads <$> attempts_example))%nat
  | None => False
  end.
Proof.
  destruct cvm_run_example as [[[cfg' evs] o]|] eqn:He; [|vm_compute in He; discriminate].
  destruct (@cvm_task_obeys_owner cundef_zero jval (printed_json parse_forged print_forged) (λ v, v) (λ l, l) unit
    key_example_create no_signature (λ _, f64_zero) 5000 7 (λ _, inr "cashuA"%string) (λ _ _, None) (λ _, true)
    identity_example attempts_example config_example cfg' evs o He) as (H1 & _ & _ & H4).
  assert (o = CvAgain ∧ omap call_of evs = [WalletSend 1000] ∧ omap ping_of evs = [140]) as (-> & Hc & Hp)
    by (vm_compute in He; injection He as _ <- <-; done).
  rewrite Hc in H1. cbn in H4. rewrite Nat.add_0_r in H4. split_and!; try done.
Defined.
