(* ===== verification/ProxyServer.v ===== *)
(** The server of the Stratum proxy (tollgate_core_stratum_proxy.c): its start with the
    self-test, the task that takes one connection after the other, and its stop.  What
    the sockets do, and the jobs that another task announces meanwhile, are inputs that
    come in any order. *)

From S2P Require Import Prelude CStr F64 Mining StratumProxy.
#[local] Open Scope Z_scope.

(** * State *)

(** Where the task is: not there, at [select], or with the miner on a descriptor, whose
    slot it remembers. *)
Inductive proxy_pc := NoTask | Selecting | Serving (fd : Z) (i : nat).

(** [s_port], [s_running], whether [s_server_fd] is open, the task, and the tables. *)
Record proxy_server := mk_proxy_server {
  pv_port : Z;
  pv_running : bool;
  pv_listening : bool;
  pv_pc : proxy_pc;
  pv_proxy : proxy_state
}.

Definition with_proxy (p : proxy_state) (v : proxy_server) : proxy_server :=
  mk_proxy_server (pv_port v) (pv_running v) (pv_listening v) (pv_pc v) p.
Definition at_pc (pc : proxy_pc) (v : proxy_server) : proxy_server :=
  mk_proxy_server (pv_port v) (pv_running v) (pv_listening v) pc (pv_proxy v).

(** What [select] and [accept] give: an error of [select]; nothing to do, or an error of
    [accept]; a connection. *)
Inductive select_result := SelError | SelNothing | SelAccept (fd ip : Z).

Inductive proxy_input :=
| InSelect (r : select_result)
| InRecv (now : Z) (data : option string)
| InJob (job : tollgate_stratum_job_t)
| InDifficulty (d : f64)
| InStop.

(** What goes out, and the connections that are closed or turned away. *)
Inductive server_event := PvOut (e : proxy_event) | PvClosed (fd : Z) | PvRejected (fd : Z).

(** * Start *)

(** The tables after the resets: the slots keep all but their descriptors. *)
Definition reset_proxy (p : proxy_state) : proxy_state :=
  mk_proxy_state stratum_job_zero proxy_stats_zero (f64_of_Z 1) (sp_share_cb p)
    ((λ m, mk_miner (-1) (mr_ip m) (mr_worker m) (mr_authorized m) (mr_req_id m)) <$> sp_miners p)
    (sp_mining p).

(** [None]: the task of an earlier start has not ended yet, and would go on beside the new one. *)
Definition proxy_server_init (port : Z) (socket_ok bind_ok listen_ok task_ok : bool) (v : proxy_server)
  : option (esp_err_t * proxy_server) :=
  if pv_running v then Some (ESP_OK, v) else
  match pv_pc v with
  | NoTask =>
      let p := reset_proxy (pv_proxy v) in
      let down := mk_proxy_server (u16 port) false false NoTask p in
      Some (if negb (socket_ok && bind_ok && listen_ok) then (ESP_FAIL, down)
            else if negb task_ok then (ESP_FAIL, down)
            else (ESP_OK, mk_proxy_server (u16 port) true true Selecting p))
  | _ => None
  end.

(** * Stop *)

Definition tollgate_core_stratum_proxy_stop (v : proxy_server) : proxy_server :=
  mk_proxy_server (pv_port v) false false (pv_pc v) (pv_proxy v).

(** * The task *)

Section server.
Context `{CUndef} (mbedtls_sha256 : list Z → list Z) (print_f1 : f64 → string).

(** The end of the task. *)
Definition shut_down (v : proxy_server) : proxy_server * list server_event :=
  let p := pv_proxy v in
  (mk_proxy_server (pv_port v) false false NoTask
     (with_miners p ((λ m, if 0 <=? mr_fd m then mk_miner (-1) (mr_ip m) (mr_worker m) (mr_authorized m) (mr_req_id m)
                           else m) <$> sp_miners p)),
   PvClosed <$> List.filter (λ fd, 0 <=? fd) (mr_fd <$> sp_miners p)).

(** The end of a connection. *)
Definition leave (fd : Z) (v : proxy_server) : proxy_server * list server_event :=
  (at_pc Selecting (with_proxy (unregister_miner fd (pv_proxy v)) v), [PvClosed fd]).

Definition accepted_miner (fd ip : Z) (v : proxy_server) : proxy_server * list server_event :=
  match register_miner fd ip (pv_proxy v) with
  | Some (i, p) => (at_pc (Serving fd i) (with_proxy (with_stats p (count_share (sp_stats p) 0 0 0 1)) v), [])
  | None => (v, [PvRejected fd; PvClosed fd])
  end.

Definition out (r : proxy_state * list proxy_event) (v : proxy_server) : proxy_server * list server_event :=
  (with_proxy r.1 v, PvOut <$> r.2).

(** One input; those that are not for the place the task is at do nothing.  A [recv] that
    gives nothing has failed, or waited for thirty seconds, or met the end. *)
Definition proxy_server_task (i : proxy_input) (v : proxy_server) : proxy_server * list server_event :=
  match i, pv_pc v with
  | InSelect r, Selecting =>
      if negb (pv_running v) then shut_down v else
      match r with
      | SelError => shut_down v
      | SelNothing => (v, [])
      | SelAccept fd ip => accepted_miner fd ip v
      end
  | InRecv now data, Serving fd slot =>
      if negb (pv_running v) then leave fd v else
      match data with
      | None => leave fd v
      | Some d => if str_empty d then leave fd v
                  else out (handle_received mbedtls_sha256 print_f1 now fd slot d (pv_proxy v)) v
      end
  | InJob job, _ => out (tollgate_core_stratum_proxy_set_job job (pv_proxy v)) v
  | InDifficulty d, _ => out (tollgate_core_stratum_proxy_set_difficulty print_f1 d (pv_proxy v)) v
  | InStop, _ => (tollgate_core_stratum_proxy_stop v, [])
  | _, _ => (v, [])
  end.

(** The miner being served. *)
Definition served (v : proxy_server) : option Z := match pv_pc v with Serving fd _ => Some fd | _ => None end.

(** The events of a run, each with the miner served when it happened. *)
Fixpoint proxy_run (l : list proxy_input) (v : proxy_server) : proxy_server * list (option Z * server_event) :=
  match l with
  | [] => (v, [])
  | i :: l' =>
      let '(v1, e1) := proxy_server_task i v in
      let '(v2, e2) := proxy_run l' v1 in (v2, ((λ e, (served v, e)) <$> e1) ++ e2)
  end.

(** main/stratum_proxy.c: the names under which the other parts call these. *)
Definition stratum_proxy_init (port : Z) (socket_ok bind_ok listen_ok task_ok : bool) (v : proxy_server)
  : option (esp_err_t * proxy_server) := proxy_server_init port socket_ok bind_ok listen_ok task_ok v.
Definition stratum_proxy_set_job (job : tollgate_stratum_job_t) (v : proxy_server) : proxy_server * list server_event :=
  out (tollgate_core_stratum_proxy_set_job job (pv_proxy v)) v.
Definition stratum_proxy_get_current_job (v : proxy_server) : tollgate_stratum_job_t := sp_current_job (pv_proxy v).
Definition stratum_proxy_get_stats (v : proxy_server) : tollgate_stratum_proxy_stats_t :=
  tollgate_core_stratum_proxy_get_stats (pv_proxy v).
Definition stratum_proxy_stop (v : proxy_server) : proxy_server := tollgate_core_stratum_proxy_stop v.

(** What the self-test does: a connection of its own that subscribes and closes. *)
Definition self_test_line : string :=
  ("{" +:+ dq "id" +:+ ":1," +:+ dq "method" +:+ ":" +:+ dq "mining.subscribe" +:+ "," +:+ dq "params" +:+ ":[]}" +:+ nl)%string.
Definition self_test (now fd : Z) : list proxy_input :=
  [InSelect (SelAccept fd 0x0100007F); InRecv now (Some self_test_line); InRecv now None].
End server.

(** * One miner at a time *)

Section serving.
Context `{CUndef} (sha : list Z → list Z) (print_f1 : f64 → string).
#[local] Abbreviation task := (proxy_server_task sha print_f1).
#[local] Abbreviation runs := (proxy_run sha print_f1).

Definition fds (p : proxy_state) : list Z := mr_fd <$> sp_miners p.
Definition is_free (fd : Z) : Prop := fd < 0.

(** The descriptors of the table: none, or the one being served, in the first slot. *)
Definition table_of (cur : option Z) (l : list Z) : Prop :=
  match cur with
  | None => Forall is_free l ∧ l ≠ []
  | Some fd => 0 <= fd ∧ ∃ tl, l = fd :: tl ∧ Forall is_free tl
  end.
Definition serves_one (v : proxy_server) : Prop :=
  table_of (served v) (fds (pv_proxy v)) ∧
  match pv_pc v with Serving _ i => i = 0%nat | _ => True end.

Definition sends_to (fd : Z) (e : proxy_event) : Prop := match e with EvSend fd' _ => fd' = fd | EvShare _ _ _ _ _ => True end.

Lemma handle_line_local now fd i line p :
  fds (handle_line sha print_f1 now fd i line p).1 = fds p ∧
  Forall (sends_to fd) (handle_line sha print_f1 now fd i line p).2.
Proof.
  unfold handle_line. destruct (sp_miners p !! i) as [m|] eqn:Hm; [|done].
  destruct (line_method line) as [method|]; [|done].
  case_bool_decide.
  { split; [done|]. unfold handle_subscribe, handle_set_difficulty. destruct (jb_valid _); cbn; by repeat constructor. }
  case_bool_decide.
  { split; [|by repeat constructor]. unfold fds. cbn [fst with_miners sp_miners].
    rewrite list_fmap_insert. cbn [mr_fd]. apply list_insert_id. by rewrite list_lookup_fmap, Hm. }
  case_bool_decide; [|destruct (_ || _); split; try done; by repeat constructor].
  unfold handle_submit. destruct (negb _); [split; [done|by repeat constructor]|].
  destruct (share_verdict _ _ _); [destruct (bool_decide _)|destruct (sp_share_cb p)]; split; try done; by repeat constructor.
Qed.

Lemma handle_received_local now fd i d p :
  fds (handle_received sha print_f1 now fd i d p).1 = fds p ∧
  Forall (sends_to fd) (handle_received sha print_f1 now fd i d p).2.
Proof.
  unfold handle_received. generalize (split_lines (str_take (RECV_BUF_SIZE - 1) d) "") as lines.
  intros lines. assert (Forall (sends_to fd) (@nil proxy_event)) as He by constructor. revert He.
  generalize (@nil proxy_event) as ev. revert p. induction lines as [|line lines IH]; intros p ev He; [done|].
  cbn [foldl fst snd]. destruct (handle_line_local now fd i line p) as [Hf Hs].
  destruct (handle_line _ _ _ _ _ _ _) as [p1 ev1]. cbn [fst snd] in *.
  destruct (IH p1 (ev ++ ev1)) as [IH1 IH2]; [by apply Forall_app|]. by rewrite IH1, Hf.
Qed.

(** A broadcast reaches the miner being served at most. *)
Lemma broadcast_local cur msg p :
  table_of cur (fds p) → Forall (λ e, ∃ fd, cur = Some fd ∧ sends_to fd e) (broadcast_to_miners msg p).
Proof.
  intros Ht. apply Forall_fmap, Forall_forall. intros m Hin%list_elem_of_In. apply filter_In in Hin as [Hin Hp].
  apply andb_true_iff in Hp as [Hge%Z.leb_le _].
  assert (mr_fd m ∈ fds p) as Hfd by (apply list_elem_of_fmap_2; by apply list_elem_of_In).
  destruct cur as [fd|]; cbn in Ht |- *.
  - destruct Ht as [_ (tl & Heq & Hfree)]. rewrite Heq in Hfd. exists fd. split; [done|].
    apply elem_of_cons in Hfd as [->|Hfd]; [done|]. rewrite Forall_forall in Hfree. specialize (Hfree _ Hfd).
    unfold is_free in Hfree. lia.
  - destruct Ht as [Hfree _]. rewrite Forall_forall in Hfree. specialize (Hfree _ Hfd). unfold is_free in Hfree. lia.
Qed.

Lemma register_first fd ip p i p' :
  table_of None (fds p) → 0 <= fd → register_miner fd ip p = Some (i, p') → i = 0%nat ∧ table_of (Some fd) (fds p').
Proof.
  unfold register_miner, fds. intros [Hfree Hne] Hfd. destruct (sp_miners p) as [|m l]; [done|]. cbn [fmap list_fmap] in *.
  apply Forall_cons in Hfree as [Hm Hl]. cbn [find_slot]. rewrite (proj2 (Z.ltb_lt _ _)) by done.
  intros [= <- <-]. split; [done|]. cbn. eauto.
Qed.

Lemma register_never_full fd ip p : table_of None (fds p) → register_miner fd ip p ≠ None.
Proof.
  unfold register_miner, fds. intros [Hfree Hne]. destruct (sp_miners p) as [|m l]; [done|]. cbn [fmap list_fmap] in *.
  apply Forall_cons in Hfree as [Hm _]. cbn [find_slot]. by rewrite (proj2 (Z.ltb_lt _ _)) by done.
Qed.

Lemma unregister_first fd p : table_of (Some fd) (fds p) → table_of None (fds (unregister_miner fd p)).
Proof.
  unfold unregister_miner, find_miner, fds. intros [Hfd (tl & Heq & Hfree)].
  destruct (sp_miners p) as [|m l] eqn:Hm; [done|]. cbn in Heq. injection Heq as Hm1 Hl. cbn [find_slot].
  rewrite Hm1, Z.eqb_refl. cbn. rewrite Hl. split; [|done]. constructor; [unfold is_free; lia|done].
Qed.

(** An event that concerns the miner being served and nobody else. *)
Definition local_event (cur : option Z) (e : server_event) : Prop :=
  match e with
  | PvOut (EvSend fd _) | PvClosed fd => cur = Some fd
  | PvOut _ => True
  | PvRejected _ => False
  end.
Definition input_ok (i : proxy_input) : Prop := match i with InSelect (SelAccept fd _) => 0 <= fd | _ => True end.

Lemma local_out cur es :
  Forall (λ e, ∃ fd, cur = Some fd ∧ sends_to fd e) es → Forall (local_event cur) (PvOut <$> es).
Proof.
  intros Hes. apply Forall_fmap. eapply Forall_impl; [exact Hes|]. intros [fd' t|] (fd & -> & Hs); cbn in *; [by subst|done].
Qed.

Lemma shut_down_local v : table_of None (fds (pv_proxy v)) →
  fds (pv_proxy (shut_down v).1) = fds (pv_proxy v) ∧ (shut_down v).2 = [].
Proof.
  unfold shut_down, fds. cbn. intros [Hfree _]. induction (sp_miners (pv_proxy v)) as [|m l IH]; [done|].
  cbn in Hfree |- *. apply Forall_cons in Hfree as [Hm Hl]. destruct (IH Hl) as [IH1 IH2].
  rewrite (proj2 (Z.leb_gt 0 (mr_fd m))) by done. by rewrite IH1, IH2.
Qed.

Lemma proxy_task_local i v :
  serves_one v → input_ok i → serves_one (task i v).1 ∧ Forall (local_event (served v)) (task i v).2.
Proof.
  intros Hs Hi. assert (serves_one v ∧ Forall (local_event (served v)) []) as Hstay by (split; [done|constructor]).
  destruct Hs as [Ht Hpc]. destruct i as [r|now data|job|d|]; cbn [proxy_server_task].
  - destruct (pv_pc v) as [| |fd slot] eqn:Hv; [exact Hstay| |exact Hstay].
    assert (table_of None (fds (pv_proxy v))) as Hnone by (unfold served in Ht; by rewrite Hv in Ht).
    destruct (shut_down_local v Hnone) as [Hf He].
    assert (serves_one (shut_down v).1 ∧ Forall (local_event (served v)) (shut_down v).2) as Hdown
      by (split; [split; [|done]; by rewrite Hf|by rewrite He]).
    destruct (pv_running v); cbn [negb]; [|done].
    destruct r as [| |fd ip]; [done|exact Hstay|].
    unfold accepted_miner. destruct (register_miner fd ip (pv_proxy v)) as [[i p]|] eqn:Hr;
      [|by apply register_never_full in Hr].
    apply register_first in Hr as [-> Htab]; [|done|exact Hi]. split; [|by constructor]. by split.
  - destruct (pv_pc v) as [| |fd slot] eqn:Hv; [exact Hstay..|].
    subst slot. assert (served v = Some fd) as Hs by (unfold served; by rewrite Hv). rewrite Hs in *.
    assert (serves_one (leave fd v).1 ∧ Forall (local_event (Some fd)) (leave fd v).2) as Hleave.
    { split; [|by repeat constructor]. split; [|done]. by apply unregister_first. }
    destruct (pv_running v); cbn [negb]; [|done]. destruct data as [d|]; [|done]. destruct (str_empty d); [done|].
    destruct (handle_received_local now fd 0 d (pv_proxy v)) as [Hf He]. split.
    + split; unfold served; cbn [out fst with_proxy pv_pc pv_proxy]; rewrite Hv; [by rewrite Hf|done].
    + apply local_out. eapply Forall_impl; [exact He|]. eauto.
  - split; [by split|]. cbn [out snd]. apply local_out. unfold tollgate_core_stratum_proxy_set_job. cbn [snd].
    destruct (jb_valid job); [by apply broadcast_local|constructor].
  - split; [by split|]. cbn [out snd]. apply local_out. unfold tollgate_core_stratum_proxy_set_difficulty. cbn [snd].
    by apply broadcast_local.
  - split; [by split|constructor].
Qed.

Lemma init_serves_one port a b c d v err v' :
  sp_miners (pv_proxy v) ≠ [] → pv_running v = false →
  proxy_server_init port a b c d v = Some (err, v') → serves_one v'.
Proof.
  intros Hne Hr. unfold proxy_server_init. rewrite Hr. destruct (pv_pc v); [|done..].
  assert (table_of None (fds (reset_proxy (pv_proxy v)))) as Ht.
  { unfold fds, reset_proxy. cbn. split; [|by destruct (sp_miners (pv_proxy v))].
    apply Forall_fmap, Forall_fmap, Forall_forall. done. }
  destruct (negb _); [by intros [= <- <-]; split|]. destruct d; cbn [negb]; intros [= <- <-]; by split.
Qed.

(** C39: The proxy serves one miner at a time.  From a start, whatever the sockets do and
    whatever jobs and difficulties come meanwhile, everything that is sent, and every
    connection that is closed, concerns the miner being served; the table of eight holds
    that miner in its first slot and nobody else; and nobody is turned away, because a
    second connection is not accepted before the first has ended. *)
Theorem proxy_serves_one port a b c d v err v1 l :
  sp_miners (pv_proxy v) ≠ [] → pv_running v = false → proxy_server_init port a b c d v = Some (err, v1) →
  Forall input_ok l →
  Forall (λ '(cur, e), local_event cur e) (runs l v1).2 ∧
  table_of (served (runs l v1).1) (fds (pv_proxy (runs l v1).1)).
Proof.
  intros Hne Hr Hinit Hl. apply init_serves_one in Hinit; [|done..]. revert v1 Hinit.
  induction Hl as [|i l Hi _ IH]; intros v1 Hs; [split; [constructor|apply Hs]|]. cbn [proxy_run].
  destruct (proxy_task_local i v1 Hs Hi) as [Hs1 He1]. destruct (task i v1) as [v2 e1]. cbn [fst snd] in *.
  destruct (IH v2 Hs1) as [IH1 IH2]. destruct (runs l v2) as [v3 e2]. cbn [fst snd] in *. split; [|done].
  apply Forall_app. split; [|done]. by apply Forall_fmap.
Qed.

(** The self-test is answered, and leaves the table as it was. *)
Theorem self_test_leaves_no_trace now fd v :
  0 <= fd → pv_running v = true → pv_pc v = Selecting → serves_one v →
  serves_one (runs (self_test now fd) v).1 ∧ pv_pc (runs (self_test now fd) v).1 = Selecting ∧
  ∃ t es, (runs (self_test now fd) v).2 = (Some fd, PvOut (EvSend fd t)) :: es.
Proof.
  intros Hfd Hr Hpc [Ht Hx]. assert (table_of None (fds (pv_proxy v))) as Hnone
    by (unfold served in Ht; by rewrite Hpc in Ht).
  assert (split_lines (str_take (RECV_BUF_SIZE - 1) self_test_line) "" = [str_take (String.length self_test_line - 1) self_test_line])
    as Hlines by (vm_compute; reflexivity).
  assert (line_method (str_take (String.length self_test_line - 1) self_test_line) = Some "mining.subscribe"%string)
    as Hmethod by (vm_compute; reflexivity).
  unfold self_test. cbn [proxy_run proxy_server_task]. rewrite Hpc, Hr. cbn [negb]. unfold accepted_miner.
  destruct (register_miner fd _ (pv_proxy v)) as [[i p]|] eqn:Hreg; [|by apply register_never_full in Hreg].
  pose proof (register_first _ _ _ _ _ Hnone Hfd Hreg) as [-> Htab].
  cbn [at_pc with_proxy pv_pc pv_running pv_proxy served fmap list_fmap app]. rewrite Hr. cbn [negb].
  change (str_empty self_test_line) with false. cbn iota.
  unfold handle_received. rewrite Hlines. cbn [foldl fst snd]. unfold handle_line. rewrite Hmethod.
  set (p1 := with_stats p _). assert (fds p1 = fds p) as Hp1 by done.
  destruct Htab as [_ (tl & Heq & Hfree)].
  assert (∃ m, sp_miners p1 !! 0%nat = Some m) as [m Hm].
  { unfold fds in Heq. change (sp_miners p1) with (sp_miners p). destruct (sp_miners p); [done|]. by eexists. }
  rewrite Hm. rewrite bool_decide_true by done.
  cbn [out fst snd with_proxy pv_pc pv_running pv_proxy at_pc leave app fmap list_fmap served]. rewrite Hr. cbn [negb].
  split_and!; [|done|by do 2 eexists].
  split; [|done]. cbn. apply unregister_first. rewrite Hp1. split; [done|]. eauto.
Qed.
End serving.

(** * Concrete runs *)

Definition proxy_server_boot : proxy_server :=
  mk_proxy_server 0 false false NoTask (tollgate_core_stratum_proxy_init true mining_boot).
Definition proxy_server_up : proxy_server :=
  mk_proxy_server 3333 true true Selecting (reset_proxy (pv_proxy proxy_server_boot)).
Definition authorize_line : string :=
  ("{" +:+ dq "id" +:+ ":2," +:+ dq "method" +:+ ":" +:+ dq "mining.authorize" +:+ "," +:+ dq "params" +:+ ":["
   +:+ dq "w" +:+ "]}" +:+ nl)%string.

(** A miner that says nothing for thirty seconds, mining say, is disconnected, and the job
    that comes next reaches nobody. *)
Definition silent_miner : list proxy_input :=
  [InSelect (SelAccept 50 7); InRecv 0 (Some authorize_line); InRecv 30000 None; InJob job_example].
Example silent_miner_dropped :
  (λ x, x.2) <$> (@proxy_run cundef_zero sha_small print_none silent_miner proxy_server_up).2
  = [PvOut (send_response 50 2 "true" false); PvClosed 50].
Proof. vm_compute. reflexivity. Qed.

Lemma proxy_serves_one_witness :
  served (@proxy_run cundef_zero sha_small print_none (take 2 silent_miner) proxy_server_up).1 = Some 50 ∧
  ∃ tl, fds (pv_proxy (@proxy_run cundef_zero sha_small print_none (take 2 silent_miner) proxy_server_up).1) = 50 :: tl ∧
    Forall is_free tl.
Proof.
  split; [vm_compute; reflexivity|].
  destruct (@proxy_serves_one cundef_zero sha_small print_none 3333 true true true true proxy_server_boot ESP_OK
    proxy_server_up (take 2 silent_miner)) as [_ Ht]; try done.
  - by repeat constructor.
  - destruct Ht as [_ Htl]. exact Htl.
Defined.
