(* ===== verification/Reports.v ===== *)
(** The HTTP servers as a whole: the reports and the wallet's handlers of the interface on
    port 2121 that [Api] leaves out, and the routes, the start and the stop of the two
    servers (main/tollgate_api.c, main/captive_portal.c).  The HTTP server itself and the
    wallet library are parameters. *)

From S2P Require Import Prelude CStr F64 Json Dns Firewall Session Config Mining Cashu Core.
From S2P Require Import Market Portal StratumProxy StratumClient Identity Api Wallet.
#[local] Open Scope Z_scope.

(** * The wallet over HTTP *)

Section wallet.
Context `{CashuLib W P} (shl32_oob : Z → Z → Z).
Implicit Types s : wallets W.

Definition balance_report s : list (string * jval) :=
  [("balance"%string, JNum (f64_of_Z (nucula_wallet_balance s)));
   ("proof_count"%string, JInt (nucula_wallet_proof_count s))].

(** [reparse]: the text of the proofs, parsed again. *)
Definition api_get_wallet (reparse : jval → option jval) s : reply :=
  ReplyJson 200 (JObj (balance_report s
    ++ match reparse (nucula_wallet_proofs_json s) with Some l => [("proofs"%string, l)] | None => [] end)).

Definition api_post_wallet_swap (rnd : Z) s : reply * wallets W * list (mint_event P) :=
  if nucula_wallet_balance s =? 0 then (error_reply 400 "no proofs to swap" 27, s, []) else
  let '(err, s', evs) := nucula_wallet_swap_all shl32_oob rnd s in
  if negb (bool_decide (err = ESP_OK)) then (error_reply 502 "swap failed" 21, s', evs)
  else (ReplyJson 200 (JObj (balance_report s')), s', evs).
End wallet.

(** * Reports *)

(** [%.6f] and the like are left to the printer of numbers. *)
Definition api_get_mining_stats (p : proxy_state) (c : stratum_client_state_t) : reply :=
  let st := tollgate_core_stratum_proxy_get_stats p in
  ReplyJson 200 (JObj
    [("proxy"%string, JObj
       [("hashrate_ghs"%string, JNum (px_hashrate_ghs st)); ("total_shares"%string, JNum (f64_of_Z (px_total_shares st)));
        ("total_accepted"%string, JNum (f64_of_Z (px_total_accepted st)));
        ("total_rejected"%string, JNum (f64_of_Z (px_total_rejected st)));
        ("hashprice"%string, JNum (px_current_hashprice st)); ("active_miners"%string, JInt (px_active_miners st))]);
     ("upstream"%string, JObj
       [("connected"%string, JBool (cl_connected c)); ("pool_host"%string, JStr (cl_pool_host c));
        ("pool_port"%string, JInt (cl_pool_port c)); ("difficulty"%string, JNum (f64_of_Z (cl_difficulty c)));
        ("shares_accepted"%string, JNum (f64_of_Z (cl_shares_accepted c)));
        ("shares_rejected"%string, JNum (f64_of_Z (cl_shares_rejected c)))])]).

(** The report of the core on its miners. *)
Definition tollgate_core_get_mining_status_json (p : proxy_state) : jval :=
  let st := tollgate_core_stratum_proxy_get_stats p in
  JObj
    [("proxy"%string, JObj
       [("hashrate_ghs"%string, JNum (px_hashrate_ghs st)); ("total_shares"%string, JNum (f64_of_Z (px_total_shares st)));
        ("total_accepted"%string, JNum (f64_of_Z (px_total_accepted st)));
        ("total_rejected"%string, JNum (f64_of_Z (px_total_rejected st)));
        ("active_miners"%string, JInt (px_active_miners st)); ("hashprice"%string, JNum (px_current_hashprice st));
        ("nbits"%string, JNum (f64_of_Z (px_nbits st)))])].

Definition api_get_identity_debug (id : option tollgate_identity_t) : reply :=
  let known := match id with Some i => id_initialized i | None => false end in
  ReplyJson 200 (JObj (("initialized"%string, JBool known)
    :: match id with
       | Some i =>
           if known
           then [("locking_pubkey"%string, JStr (if str_empty (id_locking_pubkey_hex i) then "(empty)" else id_locking_pubkey_hex i));
                 ("npub"%string, JStr (id_npub_hex i)); ("ssid"%string, JStr (id_ap_ssid i))]
           else []
       | None => []
       end)).

(** The outcome of the handler too: anything but [ESP_OK] closes the connection. *)
Definition api_get_mining_pubkey (id : option tollgate_identity_t) : esp_err_t * reply :=
  match id with
  | Some i =>
      if negb (id_initialized i) then (ESP_FAIL, ReplyText 500 "identity not initialized")
      else if str_empty (id_locking_pubkey_hex i) then (ESP_FAIL, ReplyText 500 "locking pubkey not derived")
      else (ESP_OK, ReplyJson 200 (JObj [("locking_pubkey"%string, JStr (id_locking_pubkey_hex i))]))
  | None => (ESP_FAIL, ReplyText 500 "identity not initialized")
  end.

(** [%02X] of the bytes, with colons between them. *)
Fixpoint bssid_text (l : list Z) : string :=
  match l with
  | [] => ""
  | [b] => hex2_upper b
  | b :: l' => (hex2_upper b +:+ ":" +:+ bssid_text l')%string
  end.

Definition market_report (e : tollgate_market_entry_t) : jval :=
  JObj ([("bssid"%string, JStr (str_take 17 (bssid_text (take 6 (me_bssid e)))));
         ("ssid"%string, JStr (if bool_decide (me_ssid e = []) then "unknown" else bytes_str (me_ssid e)));
         ("rssi"%string, JInt (me_rssi e)); ("price_per_step"%string, JInt (me_price_per_step e));
         ("step_size"%string, JNum (f64_of_Z (me_step_size e)));
         ("metric"%string, JStr (if me_metric e =? 0 then "milliseconds" else "bytes"))]
        ++ (if bool_decide (me_geohash e = []) then [] else [("geohash"%string, JStr (bytes_str (me_geohash e)))])).

Definition api_get_market (m : tollgate_market_t) : reply :=
  ReplyJson 200 (JObj
    [("count"%string, JInt (Z.of_nat (mk_count m)));
     ("last_scan_s"%string, JNum (f64_of_Z (Z.quot (last_scan_ms m) 1000)));
     ("entries"%string, JArr (market_report <$> List.filter me_valid (mk_entries m)))]).

(** * Servers *)

Inductive http_method := HTTP_GET | HTTP_POST.
#[global] Instance http_method_eq_dec : EqDecision http_method.
Proof. solve_decision. Defined.

(** The handlers, by their names. *)
Inductive handler :=
| H_mining_pubkey | H_identity_debug | H_discovery | H_debug | H_payment | H_mints | H_usage | H_whoami
| H_wallet | H_wallet_swap | H_wallet_send | H_market | H_mining_job | H_mining_share | H_mining_stats
| H_portal | H_grant_access | H_status | H_portal_whoami | H_portal_usage | H_reset_auth | H_redirect_to_portal
| H_setup_page | H_wifi_scan | H_wifi_connect | H_wifi_status.
Definition route : Type := http_method * string * handler.

Definition API_MAX_URI_HANDLERS : nat := 16.
Definition PORTAL_MAX_URI_HANDLERS : nat := 20.

(** What [tollgate_api_start] registers, in order. *)
Definition api_routes (mining_enabled : bool) : list route :=
  [(HTTP_GET, "/mining/pubkey", H_mining_pubkey); (HTTP_GET, "/identity", H_identity_debug);
   (HTTP_GET, "/", H_discovery); (HTTP_GET, "/debug", H_debug); (HTTP_POST, "/", H_payment);
   (HTTP_GET, "/mints", H_mints); (HTTP_GET, "/usage", H_usage); (HTTP_GET, "/whoami", H_whoami);
   (HTTP_GET, "/wallet", H_wallet); (HTTP_POST, "/wallet/swap", H_wallet_swap);
   (HTTP_POST, "/wallet/send", H_wallet_send); (HTTP_GET, "/market", H_market)]%string
  ++ (if mining_enabled
      then [(HTTP_GET, "/mining/job", H_mining_job); (HTTP_POST, "/mining/share", H_mining_share);
            (HTTP_GET, "/mining/stats", H_mining_stats)]%string
      else []).

(** The routes of the server, while it runs. *)
Definition tollgate_api_start (httpd_start : esp_err_t) (mining_enabled : bool) (s_api_server : option (list route))
  : esp_err_t * option (list route) :=
  match s_api_server with
  | Some _ => (ESP_OK, s_api_server)
  | None => if bool_decide (httpd_start = ESP_OK) then (ESP_OK, Some (api_routes mining_enabled)) else (httpd_start, None)
  end.
Definition tollgate_api_stop (s_api_server : option (list route)) : option (list route) := None.

(** What [captive_portal_start] registers. *)
Definition portal_routes : list route :=
  [(HTTP_GET, "/", H_portal); (HTTP_GET, "/grant_access", H_grant_access); (HTTP_GET, "/api/status", H_status);
   (HTTP_GET, "/whoami", H_portal_whoami); (HTTP_GET, "/usage", H_portal_usage);
   (HTTP_GET, "/reset_authentication", H_reset_auth); (HTTP_GET, "/generate_204", H_redirect_to_portal);
   (HTTP_GET, "/hotspot-detect.html", H_redirect_to_portal); (HTTP_GET, "/canonical.html", H_redirect_to_portal);
   (HTTP_GET, "/success.txt", H_redirect_to_portal); (HTTP_GET, "/ncsi.txt", H_redirect_to_portal);
   (HTTP_GET, "/connecttest.txt", H_redirect_to_portal); (HTTP_GET, "/wpad.dat", H_redirect_to_portal);
   (HTTP_GET, "/setup", H_setup_page); (HTTP_GET, "/wifi/scan", H_wifi_scan);
   (HTTP_POST, "/wifi/connect", H_wifi_connect); (HTTP_GET, "/wifi/status", H_wifi_status)]%string.

Record portal_server := mk_portal {
  ps_start_called : bool;
  ps_start_result : esp_err_t;
  ps_server : option (list route);
  ps_ap_ip_str : string
}.

Definition captive_portal_start (httpd_start : esp_err_t) (ap_ip_str : option string) (s : portal_server)
  : esp_err_t * portal_server :=
  match ps_server s, ap_ip_str with
  | Some _, _ => (ESP_OK, mk_portal true (ps_start_result s) (ps_server s) (ps_ap_ip_str s))
  | None, None => (ESP_ERR_INVALID_ARG, mk_portal true (ps_start_result s) None (ps_ap_ip_str s))
  | None, Some ip =>
      (httpd_start,
       mk_portal true httpd_start (if bool_decide (httpd_start = ESP_OK) then Some portal_routes else None) (strncpy 15 ip))
  end.
Definition captive_portal_stop (s : portal_server) : portal_server :=
  mk_portal (ps_start_called s) (ps_start_result s) None (ps_ap_ip_str s).

(** [api_get_debug]: what it looks at. *)
Record debug_facts := mk_debug {
  db_portal : portal_server;
  db_portal_result : Z;
  db_services_called : bool;
  db_ap_services_called : bool;
  db_sta_got_ip : bool;
  db_ap_started : bool;
  db_heap : Z; db_min_heap : Z; db_internal : Z; db_largest : Z; db_spiram : Z;
  db_dns : Z * Z * Z;
  db_sta_ip : Z; db_sta_gw : Z;
  db_identity : option tollgate_identity_t;
  db_api_server : option (list route)
}.

Definition api_get_debug (d : debug_facts) : reply :=
  let n k v : string * jval := (k, JNum (f64_of_Z v)) in
  let '(d0, d1, d2) := db_dns d in
  ReplyJson 200 (JObj
    [("portal_running"%string, JBool (bool_decide (is_Some (ps_server (db_portal d)))));
     ("portal_start_called"%string, JBool (ps_start_called (db_portal d)));
     ("portal_start_result"%string, JInt (db_portal_result d));
     ("start_services_called"%string, JBool (db_services_called d));
     ("start_ap_services_called"%string, JBool (db_ap_services_called d));
     ("sta_got_ip"%string, JBool (db_sta_got_ip d)); ("ap_started"%string, JBool (db_ap_started d));
     n "free_heap"%string (db_heap d); n "min_free_heap"%string (db_min_heap d);
     n "free_internal"%string (db_internal d); n "largest_internal"%string (db_largest d);
     n "free_spiram"%string (db_spiram d);
     ("dns0"%string, JStr (ip_str d0)); ("dns1"%string, JStr (ip_str d1)); ("dns2"%string, JStr (ip_str d2));
     ("sta_ip"%string, JStr (ip_str (db_sta_ip d))); ("sta_gw"%string, JStr (ip_str (db_sta_gw d)));
     ("identity_initialized"%string, JBool match db_identity d with Some i => id_initialized i | None => false end);
     ("api_server_running"%string, JBool (bool_decide (is_Some (db_api_server d))))]).

(** * Routes *)

(** Every handler is reached.  On each of the two servers, with mining or without, no
    two handlers are registered for the same method and path, and there is room for all
    of them; and the paths by which phones look for a portal are exactly those that
    lead to the portal's page. *)
Theorem routes_are_served mining uri :
  NoDup (api_routes mining).*1 ∧ (length (api_routes mining) ≤ API_MAX_URI_HANDLERS)%nat ∧
  NoDup portal_routes.*1 ∧ (length portal_routes ≤ PORTAL_MAX_URI_HANDLERS)%nat ∧
  (tollgate_core_portal_is_captive_uri uri = true ↔ (HTTP_GET, uri, H_redirect_to_portal) ∈ portal_routes).
Proof.
  split_and!.
  - apply (bool_decide_unpack _). destruct mining; vm_compute; exact I.
  - destruct mining; vm_compute; lia.
  - apply (bool_decide_unpack _). vm_compute. exact I.
  - vm_compute. lia.
  - unfold tollgate_core_portal_is_captive_uri, portal_routes, CAPTIVE_URIS. split.
    + intros (u & Hu & He)%existsb_exists. apply bool_decide_eq_true in He as ->.
      cbn in Hu. apply list_elem_of_In. cbn. intuition congruence.
    + intros Hin. apply existsb_exists. exists uri. split; [|by apply bool_decide_eq_true].
      apply list_elem_of_In in Hin. cbn in Hin |- *. intuition congruence.
Qed.

(** While the portal runs, a start with another address of the access point is answered
    with success and changes nothing. *)
Theorem portal_keeps_old_address r ip s routes :
  ps_server s = Some routes →
  (captive_portal_start r ip s).1 = ESP_OK ∧ ps_ap_ip_str (captive_portal_start r ip s).2 = ps_ap_ip_str s ∧
  ps_server (captive_portal_start r ip s).2 = Some routes.
Proof. intros Hs. unfold captive_portal_start. by rewrite Hs. Qed.

(** * The wallet's reports *)

Section reports.
Context `{CashuLaws W P}.
Implicit Types s : wallets W.

Lemma mjoin_cons {A} (x : list A) l : mjoin (x :: l) = x ++ mjoin l.
Proof. done. Qed.

(** The proofs of the wallets in use, with the mint of the slot, and how one is listed. *)
Definition held s : list (string * P) :=
  mjoin ((λ x, match sl_wallet x with Some w => (λ p, (sl_url x, p)) <$> proofs w | None => [] end)
         <$> take (wl_count s) (wl_slots s)).
Definition proof_item (x : string * P) : jval :=
  JObj [("amount"%string, JInt (proof_amount x.2)); ("id"%string, JStr (proof_id x.2)); ("mint"%string, JStr x.1)].

Lemma u64_add_u64_r a b : u64 (a + u64 b) = u64 (a + b).
Proof. unfold u64. zlia. Qed.
Lemma u64_add_u64_l a b : u64 (u64 a + b) = u64 (a + b).
Proof. unfold u64. zlia. Qed.

(** The report of the wallet adds up: the proofs it lists are those of all the wallets,
    each with its mint, and the balance it gives is what these are worth together, in 64
    bits. *)
Theorem wallet_report_adds_up s :
  api_get_wallet Some s = ReplyJson 200 (JObj (balance_report s ++ [("proofs"%string, JArr (proof_item <$> held s))])) ∧
  nucula_wallet_balance s = u64 (value (held s).*2).
Proof.
  split.
  - unfold api_get_wallet. cbn iota. assert (nucula_wallet_proofs_json s = JArr (proof_item <$> held s)) as ->; [|done].
    unfold nucula_wallet_proofs_json, held. f_equal.
    induction (take (wl_count s) (wl_slots s)) as [|x slots IH]; [done|]. rewrite !fmap_cons, !mjoin_cons.
    rewrite fmap_app, <- IH. f_equal. destruct (sl_wallet x); [|done]. by rewrite <- list_fmap_compose.
  - unfold nucula_wallet_balance, used, held. generalize (take (wl_count s) (wl_slots s)) as slots. intros slots.
    rewrite <- (Z.add_0_l (value _)). assert (0 = u64 0) as Ht by done. revert Ht. generalize 0 as total.
    induction slots as [|x slots IH]; intros total Ht.
    { cbn. by rewrite Z.add_0_r. }
    rewrite !fmap_cons, mjoin_cons. cbn [foldl]. rewrite fmap_app, value_app. destruct (sl_wallet x) as [w|]; [|by rewrite IH].
    rewrite IH by (unfold u64; zlia). rewrite u64_add_u64_r, u64_add_u64_l, balance_value.
    rewrite <- list_fmap_compose. cbn [compose]. rewrite list_fmap_id. f_equal. lia.
Qed.

(** What a swap over HTTP answers.  Status 200 means that some wallet's proofs were
    swapped; 400 that there was nothing to swap; 502 that every wallet holds the proofs it
    held.  Whatever the status, each wallet holds what it held or all the new proofs. *)
Theorem swap_reply_tells_outcome shl32_oob rnd s rp s' evs :
  api_post_wallet_swap shl32_oob rnd s = (rp, s', evs) →
  (reply_status rp = 200 ↔ evs ≠ []) ∧
  (reply_status rp = 400 ↔ nucula_wallet_balance s = 0) ∧
  (reply_status rp = 502 → ∀ j, proofs_of s' !! j = proofs_of s !! j) ∧
  ∀ j, swapped_or_kept s s' evs j.
Proof.
  unfold api_post_wallet_swap. destruct (Z.eqb_spec (nucula_wallet_balance s) 0) as [Hz|Hz].
  { intros [= <- <- <-]. cbn. split_and!; try done. intros j. left. split; [done|]. intros l n c. apply not_elem_of_nil. }
  destruct (nucula_wallet_swap_all shl32_oob rnd s) as [[err s1] evs1] eqn:Hs.
  pose proof (swap_all_spec _ _ _ _ _ _ Hs) as [-> Hk].
  destruct (decide (evs1 = [])) as [->|Hne].
  - rewrite (bool_decide_true ([] = [])) by done. cbn. intros [= <- <- <-]. cbn. split_and!; try done.
    intros _ j. destruct (Hk j) as [[Hp _]|(l & n & c & Hin & _)]; [done|by apply not_elem_of_nil in Hin].
  - rewrite (bool_decide_false (evs1 = [])) by done. cbn. intros [= <- <- <-]. cbn. by split_and!; try (split; lia || done).
Qed.
End reports.

(** * Concrete runs *)

Lemma wallet_report_adds_up_witness :
  length (@held toy_wallet Z toy_lib toy_wallets) = 5%nat ∧
  @nucula_wallet_balance toy_wallet Z toy_lib toy_wallets = u64 (@value toy_wallet Z toy_lib (@held toy_wallet Z toy_lib toy_wallets).*2).
Proof. split; [reflexivity|]. apply (@wallet_report_adds_up toy_wallet Z toy_lib toy_laws toy_wallets). Defined.

Lemma swap_reply_tells_outcome_witness :
  let res := @api_post_wallet_swap toy_wallet Z toy_lib (λ _ _, 0) 7 toy_wallets in
  reply_status res.1.1 = 200 ∧ length res.2 = 2%nat.
Proof.
  cbv zeta. set (res := api_post_wallet_swap _ _ _).
  destruct (@swap_reply_tells_outcome toy_wallet Z toy_lib toy_laws (λ _ _, 0) 7 toy_wallets res.1.1 res.1.2 res.2)
    as [H200 _]; [vm_compute; reflexivity|].
  assert (length res.2 = 2%nat) as Hl by (vm_compute; reflexivity). split; [|exact Hl].
  apply H200. intros He. by rewrite He in Hl.
Defined.
