(* ===== verification/PoolTask.v ===== *)
(** The task of the pool client (main/stratum_client.c): connections to the pool one after
    the other, lines read and handled, and the start and stop.  How each connection, each
    allocation and each read turns out is a script. *)

From S2P Require Import Prelude CStr F64 Json Mining StratumProxy StratumClient.
#[local] Open Scope Z_scope.

(** * State *)

(** [s_running], the state of the client, whether [s_transport] is there, and the receive
    buffers that nobody frees any more. *)
Record pool_task := mk_pool_task {
  pk_running : bool;
  pk_client : stratum_client_state_t;
  pk_transport : bool;
  pk_leaked : nat
}.

Definition pool_task_boot : pool_task := mk_pool_task false stratum_client_init false 0.

Inductive pool_task_event :=
| PkOpened
| PkClosed
| PkPause (ms : Z)
| PkDo (e : pool_event)
| PkEnded.

(** A turn of the loop: whether the connection comes off, whether there is memory for the
    buffer, and the stream of bytes up to where a read fails or gives nothing for five
    seconds. *)
Record pool_turn := mk_pool_turn { pt_connect : bool; pt_malloc : bool; pt_stream : list Z }.

Section task.
Context `{CUndef} `{CJson J} (cfg : pool_config).

(** [stratum_connect] when it fails, and the end of a connection. *)
Definition disconnected (s : stratum_client_state_t) : stratum_client_state_t :=
  with_connected s false (cl_pool_host s) (cl_pool_port s).

Definition hang_up (s : pool_task) : pool_task * list pool_task_event :=
  (mk_pool_task (pk_running s) (disconnected (pk_client s)) false (pk_leaked s),
   if pk_transport s then [PkClosed] else []).

(** The connection, when there is none; whether there is one now. *)
Definition reconnect (ok : bool) (s : pool_task) : bool * pool_task * list pool_task_event :=
  if cl_connected (pk_client s) then (true, s, []) else
  let old := if pk_transport s then [PkClosed] else [] in
  if negb ok then (false, mk_pool_task (pk_running s) (pk_client s) false (pk_leaked s), old ++ [PkPause 10000])
  else let '(c, evs) := stratum_connect cfg (pk_client s) in
       (true, mk_pool_task (pk_running s) c true (pk_leaked s), old ++ PkOpened :: (PkDo <$> evs)).

(** One turn, with what is left of the stream; [None]: a string is read through NULL. *)
Definition stratum_client_task (t : pool_turn) (s : pool_task)
  : option (pool_task * list pool_task_event * list Z) :=
  if negb (pk_running s) then
    let '(s1, e) := hang_up s in Some (s1, e ++ [PkEnded], pt_stream t)
  else
  let '(up, s1, e1) := reconnect (pt_connect t) s in
  if negb up then Some (s1, e1, pt_stream t) else
  if negb (pt_malloc t) then Some (s1, e1 ++ [PkPause 1000], pt_stream t) else
  match read_line 2047 (pt_stream t) [] with
  | None =>
      let '(s2, e2) := hang_up s1 in
      Some (mk_pool_task (pk_running s2) (pk_client s2) (pk_transport s2) (S (pk_leaked s2)), e1 ++ e2 ++ [PkPause 5000], [])
  | Some (line, rest) =>
      match cJSON_Parse (cstr line) with
      | None => Some (mk_pool_task (pk_running s1) (pk_client s1) (pk_transport s1) (S (pk_leaked s1)), e1, rest)
      | Some _ =>
          '(c, evs) ← handle_pool_line (cstr line) (pk_client s1);
          Some (mk_pool_task (pk_running s1) c (pk_transport s1) (pk_leaked s1), e1 ++ (PkDo <$> evs), rest)
      end
  end.

(** Turns in a row, each with a stream of its own. *)
Fixpoint pool_turns (l : list pool_turn) (s : pool_task) : option (pool_task * list pool_task_event) :=
  match l with
  | [] => Some (s, [])
  | t :: l' =>
      '(s1, e1, _) ← stratum_client_task t s;
      '(s2, e2) ← pool_turns l' s1;
      Some (s2, e1 ++ e2)
  end.
End task.

(** * Start and stop *)

Definition stratum_client_start (task_ok : bool) (s : pool_task) : esp_err_t * pool_task :=
  if pk_running s then (ESP_OK, s)
  else if task_ok then (ESP_OK, mk_pool_task true (pk_client s) (pk_transport s) (pk_leaked s))
  else (ESP_FAIL, s).
Definition stratum_client_stop (s : pool_task) : pool_task :=
  mk_pool_task false (pk_client s) (pk_transport s) (pk_leaked s).

(** * What the task keeps *)

Definition is_opened (e : pool_task_event) : bool := match e with PkOpened => true | _ => false end.
Definition is_closed (e : pool_task_event) : bool := match e with PkClosed => true | _ => false end.
Definition times (f : pool_task_event → bool) (l : list pool_task_event) : nat := length (List.filter f l).

(** A turn that reads no document: the connection is lost, or the line is no JSON. *)
Definition reads_nothing `{CJson J} (t : pool_turn) : bool :=
  match read_line 2047 (pt_stream t) [] with
  | None => true
  | Some (line, _) => negb (bool_decide (is_Some (cJSON_Parse (cstr line))))
  end.

Lemma times_app f a b : times f (a ++ b) = (times f a + times f b)%nat.
Proof. unfold times. by rewrite List.filter_app, length_app. Qed.
Lemma times_do f evs : (∀ e, f (PkDo e) = false) → times f (PkDo <$> evs) = 0%nat.
Proof. intros Hf. unfold times. induction evs as [|e evs IH]; [done|]. cbn. by rewrite Hf. Qed.

Section keeps.
Context `{CUndef} `{CJson J} (cfg : pool_config).
#[local] Abbreviation task := (stratum_client_task cfg).
#[local] Abbreviation turns := (pool_turns cfg).

(** Connected exactly while there is a transport. *)
Definition transport_wf (s : pool_task) : Prop := cl_connected (pk_client s) = pk_transport s.

(** What a step does to the connection and to the buffers. *)
Definition balanced (leaks : nat) (s s' : pool_task) (evs : list pool_task_event) : Prop :=
  (times is_opened evs + Nat.b2n (pk_transport s) = times is_closed evs + Nat.b2n (pk_transport s'))%nat ∧
  pk_leaked s' = (pk_leaked s + leaks)%nat ∧ transport_wf s' ∧ pk_running s' = pk_running s.

Lemma handle_pool_line_connected line c c' evs :
  handle_pool_line line c = Some (c', evs) → cl_connected c' = cl_connected c.
Proof.
  unfold handle_pool_line. destruct (cJSON_Parse line) as [root|]; [|by intros [= <- <-]].
  intros ([c1 ev] & H1 & [= <- <-])%bind_Some.
  assert (cl_connected c1 = cl_connected c) as <-.
  { destruct (get_str root "method") as [m|]; [|by injection H1 as <- <-].
    repeat case_match; try (by injection H1 as <- <-).
    - unfold handle_mining_notify in H1. apply bind_Some in H1 as (r & _ & H1).
      destruct r as [[job nbits]|]; by injection H1 as <- <-.
    - injection H1 as <- <-. unfold handle_mining_set_difficulty. by case_match. }
  unfold handle_subscribe_response. by repeat case_match.
Qed.

Lemma reconnect_balanced ok s up s1 e1 :
  transport_wf s → reconnect cfg ok s = (up, s1, e1) →
  balanced 0 s s1 e1 ∧ cl_connected (pk_client s1) = up.
Proof.
  unfold reconnect, balanced. intros Hwf. destruct (cl_connected (pk_client s)) eqn:Hc.
  { intros [= <- <- <-]. split_and!; try done; cbn; lia. }
  unfold transport_wf in Hwf. rewrite Hc in Hwf. rewrite <- Hwf. destruct ok; cbn [negb app].
  - unfold stratum_connect, send_subscribe, send_authorize. cbn. intros [= <- <- <-]. by split_and!.
  - intros [= <- <- <-]. cbn. rewrite Hc. split_and!; try done; cbn; lia.
Qed.

Lemma hang_up_balanced s s1 e1 : hang_up s = (s1, e1) → balanced 0 s s1 e1.
Proof.
  unfold hang_up, balanced. intros [= <- <-]. cbn. split_and!; [by destruct (pk_transport s)|lia|done|done].
Qed.

Lemma balanced_trans m n s s1 s2 e1 e2 :
  balanced m s s1 e1 → balanced n s1 s2 e2 → balanced (m + n) s s2 (e1 ++ e2).
Proof.
  intros (H1 & H2 & H3 & H4) (G1 & G2 & G3 & G4). split_and!; [rewrite !times_app; lia|lia|done|congruence].
Qed.

(** The buffers a turn leaves behind. *)
Definition turn_leaks (t : pool_turn) (s : pool_task) : nat :=
  Nat.b2n (pk_running s && (cl_connected (pk_client s) || pt_connect t) && pt_malloc t && reads_nothing t).

Lemma task_balanced t s s' evs rest :
  transport_wf s → task t s = Some (s', evs, rest) → balanced (turn_leaks t s) s s' evs.
Proof.
  unfold stratum_client_task, turn_leaks. intros Hwf. destruct (pk_running s); cbn [negb andb].
  2: { destruct (hang_up s) as [s1 e1] eqn:Hh. intros [= <- <- <-]. apply hang_up_balanced in Hh as (H1 & H2 & H3 & H4).
       split_and!; [rewrite !times_app; cbn; lia|done|done|done]. }
  destruct (reconnect cfg (pt_connect t) s) as [[up s1] e1] eqn:Hr.
  pose proof (reconnect_balanced _ _ _ _ _ Hwf Hr) as [Hb Hup].
  assert (up = cl_connected (pk_client s) || pt_connect t) as <-.
  { unfold reconnect in Hr. destruct (cl_connected (pk_client s)); [by injection Hr as <-|].
    destruct (pt_connect t); cbn [negb] in Hr; [|by injection Hr as <-].
    destruct (stratum_connect _ _) as [c evs0]. by injection Hr as <-. }
  pose proof Hb as (H1 & H2 & H3 & H4). destruct up; cbn [negb andb]; [|by intros [= <- <- <-]].
  destruct (pt_malloc t); cbn [negb andb].
  2: { intros [= <- <- <-]. split_and!; [rewrite !times_app; cbn; lia|done|done|done]. }
  unfold reads_nothing. destruct (read_line 2047 (pt_stream t) []) as [[line rest1]|].
  - destruct (cJSON_Parse (cstr line)) as [root|].
    + intros ([c evs1] & Hl & [= <- <- <-])%bind_Some. apply handle_pool_line_connected in Hl. cbn.
      split_and!; [|cbn; lia|unfold transport_wf in *; cbn; congruence|done].
      rewrite !times_app, !times_do by done. cbn. lia.
    + intros [= <- <- <-]. cbn. split_and!; [done|cbn; lia|done|done].
  - destruct (hang_up s1) as [s2 e2] eqn:Hh. intros [= <- <- <-]. apply hang_up_balanced in Hh as (G1 & G2 & G3 & G4).
    cbn. split_and!; [rewrite !times_app; cbn; lia|cbn; lia|done|cbn; congruence].
Qed.

(** The buffers that a sequence of turns leaves behind. *)
Fixpoint leaks (l : list pool_turn) (s : pool_task) : nat :=
  match l with
  | [] => 0
  | t :: l' => match task t s with Some (s1, _, _) => turn_leaks t s + leaks l' s1 | None => 0 end
  end.

(** The books of the pool's task.  However connections, allocations and reads turn
    out, every connection opened is closed before the next one is, the client says it is
    connected exactly while there is a connection, and a receive buffer of 2048 bytes is
    lost for every connection that breaks and for every line that is no JSON, and for
    nothing else. *)
Theorem pool_task_books l s s' evs :
  transport_wf s → turns l s = Some (s', evs) →
  (times is_opened evs + Nat.b2n (pk_transport s) = times is_closed evs + Nat.b2n (pk_transport s'))%nat ∧
  cl_connected (pk_client s') = pk_transport s' ∧
  pk_leaked s' = (pk_leaked s + leaks l s)%nat.
Proof.
  intros Hwf Hl. assert (balanced (leaks l s) s s' evs) as (H1 & H2 & H3 & _); [|done].
  revert s s' evs Hwf Hl. induction l as [|t l IH]; intros s s' evs Hwf; cbn [pool_turns leaks].
  { intros [= <- <-]. split_and!; [done|lia|done|done]. }
  intros ([[s1 e1] rest] & Ht & Hk)%bind_Some. apply bind_Some in Hk as ([s2 e2] & Hl & [= <- <-]). rewrite Ht.
  apply task_balanced in Ht as Hb; [|done]. eapply balanced_trans; [exact Hb|]. apply IH; [apply Hb|done].
Qed.

(** A pool that says nothing for five seconds is taken for lost, and asked again after
    five more. *)
Theorem silent_pool_dropped s :
  pk_running s = true → cl_connected (pk_client s) = true → pk_transport s = true →
  task (mk_pool_turn true true []) s
  = Some (mk_pool_task true (disconnected (pk_client s)) false (S (pk_leaked s)), [PkClosed; PkPause 5000], []).
Proof.
  intros Hr Hc Ht. unfold stratum_client_task, reconnect. rewrite Hr, Hc. cbn. unfold hang_up. by rewrite Hr, Ht.
Qed.
End keeps.

(** * A concrete run *)

Definition pool_cfg_example : pool_config := mk_pool_config "pool" 3333 "user" "x" None.
Definition pool_turns_example : list pool_turn :=
  [mk_pool_turn false true []; mk_pool_turn true true (str_bytes "noise" ++ [10]); mk_pool_turn true true []].
Definition pool_run_example : option (pool_task * list pool_task_event) :=
  @pool_turns cundef_zero jval (printed_json (λ _, None) (λ _, ""%string)) pool_cfg_example pool_turns_example
    (stratum_client_start true pool_task_boot).2.

(** A connection that fails, one that brings a line which is no JSON and then nothing: two
    buffers are gone. *)
Lemma pool_task_books_witness :
  match pool_run_example with
  | Some (s', evs) => pk_leaked s' = 2%nat ∧ times is_opened evs = times is_closed evs ∧ pk_transport s' = false
  | None => False
  end.
Proof.
  destruct pool_run_example as [[s' evs]|] eqn:He; [|vm_compute in He; discriminate].
  destruct (@pool_task_books cundef_zero jval (printed_json (λ _, None) (λ _, ""%string)) pool_cfg_example pool_turns_example
    (stratum_client_start true pool_task_boot).2 s' evs eq_refl He) as (H1 & _ & H3).
  assert (pk_transport s' = false) as Ht by (vm_compute in He; by injection He as <- _).
  rewrite Ht in H1. cbn in H1. rewrite !Nat.add_0_r in H1. split_and!; [|done|done].
  rewrite H3. vm_compute. reflexivity.
Defined.
