(* ===== verification/Standalone.v ===== *)
(** The stand-alone miner (mining-standalone/main): its configuration, its start, its Wi-Fi
    and address handlers, and the holder of the current job that takes the place of the proxy.
    [stratum_client.c], [sw_miner.c] and [tollgate_core_stratum_client.c] of that directory
    are the files of main/ and tollgate_core/ word for word, modelled in [PoolTask],
    [SwMiner] and [StratumClient]. *)

From S2P Require Import Prelude CStr F64 Json Mining StratumProxy StratumClient Config SwMiner PoolTask Boot.
#[local] Open Scope Z_scope.

(** * Configuration *)

(** The settings of menuconfig: a text that is not configured is [None]. *)
Record kconfig := mk_kconfig {
  kc_stratum_host : option string;
  kc_stratum_port : Z;
  kc_stratum_user : option string;
  kc_stratum_pass : option string;
  kc_wifi_ssid : option string;
  kc_wifi_pass : option string
}.

(** [s_config] with the texts of the Wi-Fi. *)
Record mining_config := mk_mining_config {
  mc_pool : pool_config;
  mc_wifi_ssid : string;
  mc_wifi_pass : string;
  mc_initialized : bool
}.

Definition mining_config_boot : mining_config := mk_mining_config (mk_pool_config "" 0 "" "" None) "" "" false.

(** A text that is not configured leaves what was there. *)
Definition mining_config_init (kc : kconfig) (c : mining_config) : mining_config :=
  let text n o := match o with Some s => strncpy n s | None => ""%string end in
  let keep n o old := match o with Some s => strncpy n s | None => old end in
  mk_mining_config
    (mk_pool_config (text 127%nat (kc_stratum_host kc)) (u16 (kc_stratum_port kc)) (text 127%nat (kc_stratum_user kc))
       (text 63%nat (kc_stratum_pass kc)) None)
    (keep 32%nat (kc_wifi_ssid kc) (mc_wifi_ssid c)) (keep 64%nat (kc_wifi_pass kc) (mc_wifi_pass c)) true.

Definition mining_config_set_wifi (ssid pass : option string) (c : mining_config) : mining_config :=
  let keep n o old := match o with Some s => strncpy n s | None => old end in
  mk_mining_config (mc_pool c) (keep 32%nat ssid (mc_wifi_ssid c)) (keep 64%nat pass (mc_wifi_pass c)) (mc_initialized c).

Definition tollgate_config_get (kc : kconfig) (c : mining_config) : mining_config :=
  if mc_initialized c then c else mining_config_init kc c.

(** * The holder of the job *)

(** [s_mutex], and the job. *)
Record job_holder := mk_holder { jh_mutex : bool; jh_job : tollgate_stratum_job_t }.
Definition holder_boot : job_holder := mk_holder false stratum_job_zero.

(** [mutex_ok]: whether a mutex can be made. *)
Definition stratum_proxy_init (mutex_ok : bool) (h : job_holder) : job_holder :=
  mk_holder (jh_mutex h || mutex_ok) stratum_job_zero.
Definition stratum_proxy_set_job (job : option tollgate_stratum_job_t) (h : job_holder) : job_holder :=
  match job with Some j => if jh_mutex h then mk_holder true j else h | None => h end.
Definition stratum_proxy_get_current_job (h : job_holder) : option tollgate_stratum_job_t :=
  if jh_mutex h then Some (jh_job h) else None.

Fixpoint hold_jobs (jobs : list tollgate_stratum_job_t) (h : job_holder) : job_holder :=
  match jobs with [] => h | j :: jobs' => hold_jobs jobs' (stratum_proxy_set_job (Some j) h) end.

(** * Events *)

Record miner_app := mk_app {
  ap_connected : bool;                 (* BIT_STA_CONNECTED *)
  ap_started : bool;                   (* s_services_started *)
  ap_connects : nat;                   (* calls of esp_wifi_connect *)
  ap_starts : nat;                     (* times the services were started *)
  ap_holder : job_holder;
  ap_pool : pool_task;
  ap_miner : sw_state
}.

Definition app_boot : miner_app := mk_app false false 0 0 holder_boot pool_task_boot sw_boot.

Inductive wifi_event := STA_START | STA_DISCONNECTED | WIFI_OTHER.

Definition wifi_event_handler (e : wifi_event) (s : miner_app) : miner_app :=
  match e with
  | STA_START => mk_app (ap_connected s) (ap_started s) (S (ap_connects s)) (ap_starts s) (ap_holder s) (ap_pool s) (ap_miner s)
  | STA_DISCONNECTED => mk_app false (ap_started s) (S (ap_connects s)) (ap_starts s) (ap_holder s) (ap_pool s) (ap_miner s)
  | WIFI_OTHER => s
  end.

(** The memory that the start of the services needs: the mutex, the pool's task, the
    stack and the task of the miner. *)
Record start_memory := mk_memory { sm_mutex : bool; sm_pool : bool; sm_stack : bool; sm_task : bool }.

(** [None]: the stack of a live task is freed. *)
Definition ip_event_handler (got_ip : bool) (m : start_memory) (s : miner_app) : option miner_app :=
  if negb got_ip then Some s else
  if ap_started s
  then Some (mk_app true true (ap_connects s) (ap_starts s) (ap_holder s) (ap_pool s) (ap_miner s))
  else
    let pool := mk_pool_task (pk_running (ap_pool s)) stratum_client_init (pk_transport (ap_pool s)) (pk_leaked (ap_pool s)) in
    '(_, miner) ← sw_miner_start (sm_stack m) (sm_task m) (ap_miner s);
    Some (mk_app true true (ap_connects s) (S (ap_starts s)) (stratum_proxy_init (sm_mutex m) (ap_holder s))
            (stratum_client_start (sm_pool m) pool).2 miner).

(** What happens to the program: events of the Wi-Fi and of the address, a turn of the
    pool's task, whose jobs go to the holder. *)
Inductive app_event :=
| AppWifi (e : wifi_event)
| AppIp (got_ip : bool) (m : start_memory)
| AppPool (t : pool_turn).

Definition job_of_event (e : pool_task_event) : option tollgate_stratum_job_t :=
  match e with PkDo (EvJob j) => Some j | _ => None end.

Section app.
Context `{CUndef} `{CJson J} (cfg : pool_config).

Definition app_step (e : app_event) (s : miner_app) : option (miner_app * list tollgate_stratum_job_t) :=
  match e with
  | AppWifi w => Some (wifi_event_handler w s, [])
  | AppIp got m => s' ← ip_event_handler got m s; Some (s', [])
  | AppPool t =>
      if negb (ap_started s) then Some (s, []) else
      '(pool, evs, _) ← stratum_client_task cfg t (ap_pool s);
      let jobs := omap job_of_event evs in
      Some (mk_app (ap_connected s) (ap_started s) (ap_connects s) (ap_starts s)
              (hold_jobs jobs (ap_holder s)) pool (ap_miner s), jobs)
  end.

(** A run, with the jobs the pool announced in it. *)
Fixpoint app_run (l : list app_event) (s : miner_app) : option (miner_app * list tollgate_stratum_job_t) :=
  match l with
  | [] => Some (s, [])
  | e :: l' =>
      '(s1, j1) ← app_step e s;
      '(s2, j2) ← app_run l' s1;
      Some (s2, j1 ++ j2)
  end.
End app.

(** * The start *)

Definition mining_config_get_wifi_ssid (c : mining_config) : string := mc_wifi_ssid c.
Definition mining_config_get_wifi_pass (c : mining_config) : string := mc_wifi_pass c.

(** What [wifi_init_sta] gives the driver. *)
Definition miner_sta (c : mining_config) : sta_config :=
  mk_sta (strncpy 31 (mining_config_get_wifi_ssid c)) (strncpy 63 (mining_config_get_wifi_pass c)) WIFI_AUTH_WPA2_PSK.

Section start.
Variable answer : list boot_call → boot_call → boot_result.

Definition wifi_init_sta (c : mining_config) : boot unit :=
  tell CreateSta;;
  check answer WifiInit;;
  check answer RegisterWifi;;
  check answer RegisterGotIp;;
  check answer SetModeSta;;
  check answer (SetStaConfig (miner_sta c));;
  check answer WifiStart.

(** The configuration and the program that waits for its first address. *)
Definition app_main (kc : kconfig) : boot (mining_config * miner_app) :=
  nvs_ready answer;;
  let c := mining_config_init kc mining_config_boot in
  check answer NetifInit;;
  check answer EventLoop;;
  wifi_init_sta c;;
  tell StartStatsTask;;
  mret (c, app_boot).

Definition miner_calls (c : mining_config) : list boot_call :=
  [NetifInit; EventLoop; CreateSta; WifiInit; RegisterWifi; RegisterGotIp; SetModeSta; SetStaConfig (miner_sta c);
   WifiStart; StartStatsTask].

(** The start of the stand-alone miner.  When it ends, both handlers were there before the
    driver ran, the driver was given the network of the settings, a name of up to 31
    characters and a password of up to 63 whole, and the program begins without a
    connection; and it ends when every call answers well. *)
Theorem miner_start_outcome kc :
  (∀ calls c s, app_main kc [] = (calls, Some (c, s)) →
    c = mining_config_init kc mining_config_boot ∧ s = app_boot ∧
    (∃ l, calls = l ++ miner_calls c ∧ Forall is_nvs l) ∧
    (∀ ssid pass, kc_wifi_ssid kc = Some ssid → kc_wifi_pass kc = Some pass →
      (String.length ssid ≤ 31)%nat → (String.length pass ≤ 63)%nat →
      SetStaConfig (mk_sta ssid pass WIFI_AUTH_WPA2_PSK) ∈ calls)) ∧
  ((∀ h k, answer h k = BOOT_OK) → is_Some (app_main kc []).2).
Proof.
  split.
  - intros calls c s Hr. unfold app_main in Hr. apply boot_bind_inv in Hr as (? & h0 & (l & -> & Hl)%nvs_inv & Hr).
    unfold wifi_init_sta in Hr. boot_run.
    match goal with H : _ = (c, s) |- _ => injection H as <- <- end.
    split_and!; [done|done|exists l; split; [by rewrite <- !app_assoc|done]|].
    intros ssid pass Hs Hp H31 H63. rewrite <- !app_assoc. apply elem_of_app. right. apply elem_of_app. right. cbn [app].
    do 7 apply list_elem_of_further. unfold miner_sta, mining_config_get_wifi_ssid, mining_config_get_wifi_pass, mining_config_init.
    cbn [mc_wifi_ssid mc_wifi_pass]. rewrite Hs, Hp.
    rewrite (strncpy_short 32), (strncpy_short 64), (strncpy_short 31), (strncpy_short 63) by lia. apply list_elem_of_here.
  - intros Hok. assert (∀ h k, check answer k h = (h ++ [k], Some ())) as Hc by (intros h k; unfold check; by rewrite Hok).
    assert (nvs_ready answer [] = ([NvsInit], Some ())) as Hn.
    { unfold nvs_ready, call, mbind, boot_bind, mret, boot_ret. rewrite Hok. done. }
    unfold app_main, wifi_init_sta, tell, mbind, boot_bind, mret, boot_ret. rewrite Hn, !Hc. by eexists.
Qed.
End start.

(** A name of 32 characters, which the settings keep, is cut to 31 for the driver. *)
Example long_name_is_cut :
  let name := "a network name of 32 characters."%string in
  let c := mining_config_init (mk_kconfig None 0 None None (Some name) None) mining_config_boot in
  mc_wifi_ssid c = name ∧ st_ssid (miner_sta c) = "a network name of 32 characters"%string.
Proof. by split. Qed.

(** * Started once, and with the latest job *)

Section once.
Context `{CUndef} `{CJson J} (cfg : pool_config).

(** The state after the jobs [js] have been announced. *)
Definition app_inv (s : miner_app) (js : list tollgate_stratum_job_t) : Prop :=
  ap_starts s = Nat.b2n (ap_started s) ∧
  (ap_started s = false → js = [] ∧ ap_holder s = holder_boot) ∧
  (jh_mutex (ap_holder s) = true → jh_job (ap_holder s) = default stratum_job_zero (last js)).

Lemma holder_takes_jobs jobs h :
  jh_mutex (hold_jobs jobs h) = jh_mutex h ∧
  (jh_mutex h = true →
   jh_job (hold_jobs jobs h) = default (jh_job h) (last jobs)).
Proof.
  revert h. induction jobs as [|j jobs IH]; intros h; [done|]. cbn [hold_jobs].
  assert (stratum_proxy_set_job (Some j) h = if jh_mutex h then mk_holder true j else h) as -> by done.
  destruct (jh_mutex h) eqn:Hm.
  - destruct (IH (mk_holder true j)) as [IH1 IH2]. split; [done|]. intros _. rewrite IH2 by done.
    rewrite last_cons. by destruct (last jobs).
  - destruct (IH h) as [IH1 _]. rewrite IH1, Hm. done.
Qed.

Lemma app_step_inv e s js s' jobs :
  app_inv s js → app_step cfg e s = Some (s', jobs) → app_inv s' (js ++ jobs).
Proof.
  intros (H1 & H2 & H3). destruct e as [w|got m|t]; cbn [app_step].
  - intros [= <- <-]. rewrite app_nil_r. by destruct w.
  - intros (s1 & Hip & [= <- <-])%bind_Some. rewrite app_nil_r. unfold ip_event_handler in Hip.
    destruct got; cbn [negb] in Hip; [|by injection Hip as <-].
    destruct (ap_started s) eqn:Hs.
    + injection Hip as <-. by split_and!.
    + apply bind_Some in Hip as ([err miner] & _ & [= <-]). destruct (H2 eq_refl) as [-> Hh].
      split_and!; cbn; [by rewrite H1|done|by intros _].
  - destruct (ap_started s) eqn:Hs; cbn [negb].
    2: { intros [= <- <-]. rewrite app_nil_r. unfold app_inv. by rewrite Hs. }
    intros ([[pool evs] rest] & _ & [= <- <-])%bind_Some.
    destruct (holder_takes_jobs (omap job_of_event evs) (ap_holder s)) as [G1 G2].
    split_and!; cbn [ap_starts ap_started ap_holder]; [by rewrite H1|done|]. rewrite G1. intros Hm. rewrite G2, H3 by done.
    rewrite last_app. by destruct (last (omap job_of_event evs)).
Qed.

(** The stand-alone miner starts its services at most once, at the first address it
    gets, however often the Wi-Fi comes and goes; and what it mines is the job the pool
    announced last, unless there was no memory for the lock, when it never sees any. *)
Theorem standalone_mines_latest_job l s jobs :
  app_run cfg l app_boot = Some (s, jobs) →
  ap_starts s = Nat.b2n (ap_started s) ∧
  stratum_proxy_get_current_job (ap_holder s) =
    (if jh_mutex (ap_holder s) then Some (default stratum_job_zero (last jobs)) else None).
Proof.
  assert (∀ l s js s' jobs, app_inv s js → app_run cfg l s = Some (s', jobs) → app_inv s' (js ++ jobs)) as Hall.
  { clear. induction l as [|e l IH]; intros s js s' jobs Hs; cbn [app_run].
    { intros [= <- <-]. by rewrite app_nil_r. }
    intros ([s1 j1] & Hstep & Hk)%bind_Some. apply bind_Some in Hk as ([s2 j2] & Hrun & [= <- <-]).
    rewrite app_assoc. eapply IH; [|exact Hrun]. by eapply app_step_inv. }
  intros Hrun. apply (Hall _ _ [] _ _) in Hrun as (H1 & _ & H3); [|done]. split; [done|].
  unfold stratum_proxy_get_current_job. destruct (jh_mutex (ap_holder s)); [|done]. by rewrite H3.
Qed.
End once.

(** A start that fails is not made again: without memory for the stack of the miner at the
    first address, no later one starts it. *)
Theorem failed_start_is_final m m' s s' :
  ap_started s = false → sw_running (ap_miner s) = false → sm_stack m = false →
  ip_event_handler true m s = Some s' →
  sw_running (ap_miner s') = false ∧
  ip_event_handler true m' s' = Some s'.
Proof.
  intros Hs Hr Hm. unfold ip_event_handler at 1. rewrite Hs. cbn [negb]. unfold sw_miner_start. rewrite Hr, Hm.
  destruct (free_stack (ap_miner s)) as [s1|]; [|done]. cbn. intros [= <-]. done.
Qed.

(** * A concrete run *)

Definition notify_line : string := "notify".
Definition notify_tree : jval :=
  JObj [("id", JNull); ("method", JStr "mining.notify");
        ("params", JArr [JStr "7"; JStr (hex_bytes (replicate 32 0)); JStr ""; JStr ""; JStr ""; JStr "20000000";
                         JStr "1d00ffff"; JStr "00000000"; JBool true])]%string.
Definition parse_pool (s : string) : option jval := if has_prefix "notify" s then Some notify_tree else None.
Definition app_example : list app_event :=
  [AppWifi STA_START; AppIp true (mk_memory true true true true); AppWifi STA_DISCONNECTED;
   AppIp true (mk_memory false false false false);
   AppPool (mk_pool_turn true true (str_bytes notify_line ++ [10]))].
Definition app_run_example : option (miner_app * list tollgate_stratum_job_t) :=
  @app_run cundef_zero jval (printed_json parse_pool (λ _, ""%string)) pool_cfg_example app_example app_boot.

Lemma standalone_mines_latest_job_witness :
  match app_run_example with
  | Some (s, jobs) => ap_starts s = 1%nat ∧ length jobs = 1%nat ∧
                      stratum_proxy_get_current_job (ap_holder s) = Some (default stratum_job_zero (last jobs))
  | None => False
  end.
Proof.
  destruct app_run_example as [[s jobs]|] eqn:He; [|vm_compute in He; discriminate].
  destruct (@standalone_mines_latest_job cundef_zero jval (printed_json parse_pool (λ _, ""%string)) pool_cfg_example
    app_example s jobs He) as [H1 H2].
  vm_compute in He. injection He as <- <-. split_and!; [exact H1|reflexivity|exact H2].
Defined.
