(* ===== verification/MinerTasks.v ===== *)
(** Starting and stopping the other miners (main/remote_miner.c, main/asic_miner.c), and the
    adapter that is to collect items for negentropy (main/negentropy_adapter.c). *)

From stdpp Require Import relations.
From S2P Require Import Prelude CStr F64 SwMiner.
#[local] Open Scope Z_scope.

(** * The remote miner *)

(** The flag, stack, handle and tasks, as for the software miner, and [s_gw_ip]. *)
Record remote_state := mk_remote { rm_sw : sw_state; s_gw_ip : string }.
Definition remote_boot : remote_state := mk_remote sw_boot "".

(** [ended]: the task has ended within the half second that is waited; it has no chance to
    while it waits for the gateway's answer.  [None]: the stack of a live task is freed. *)
Definition remote_miner_stop (ended : bool) (s : remote_state) : option remote_state :=
  sw ← sw_miner_stop ended (rm_sw s); Some (mk_remote sw "").

Definition remote_miner_start (gw_ip : string) (ended stack_ok task_ok : bool) (s : remote_state)
  : option (esp_err_t * remote_state) :=
  if sw_running (rm_sw s) && bool_decide (s_gw_ip s = gw_ip) then Some (ESP_OK, s) else
  s1 ← (if sw_running (rm_sw s) then remote_miner_stop ended s else Some s);
  '(err, sw) ← sw_miner_start stack_ok task_ok (rm_sw s1);
  Some (err, mk_remote sw (strncpy 15 gw_ip)).

Definition remote_miner_is_running (s : remote_state) : bool := sw_running (rm_sw s).

(** * The miner with a chip *)

Record asic_state := mk_asic { as_present : bool; as_running : bool; as_handle : bool; as_hashrate : f64 }.
Definition asic_boot : asic_state := mk_asic false false false f64_zero.
Definition asic_miner_init (s : asic_state) : esp_err_t * asic_state :=
  (ESP_OK, mk_asic false (as_running s) (as_handle s) (as_hashrate s)).
Definition asic_miner_start (task_ok : bool) (s : asic_state) : esp_err_t * asic_state :=
  if negb (as_present s) then (ESP_FAIL, s)
  else if task_ok then (ESP_OK, mk_asic (as_present s) true true (as_hashrate s))
  else (ESP_FAIL, mk_asic (as_present s) false (as_handle s) (as_hashrate s)).
Definition asic_miner_stop (s : asic_state) : asic_state := mk_asic (as_present s) false false (as_hashrate s).

Inductive asic_step : asic_state → asic_state → Prop :=
| asic_init s : asic_step s (asic_miner_init s).2
| asic_start s ok : asic_step s (asic_miner_start ok s).2
| asic_stop s : asic_step s (asic_miner_stop s).

(** * The adapter *)

Record negentropy_item_t := mk_item { ni_created_at : Z; ni_id : list Z }.
(** The items written, and the capacity of the block. *)
Record negentropy_adapter := mk_adapter { na_items : list negentropy_item_t; na_capacity : nat }.

Definition negentropy_adapter_from_storage (storage calloc_ok : bool) : option negentropy_adapter :=
  if storage && calloc_ok then Some (mk_adapter [] 0) else None.

(** [realloc_ok]: whether a block of so many items can be had.  [None]: the item is written
    behind the block. *)
Definition negentropy_adapter_insert_item (realloc_ok : nat → bool) (created_at : Z) (id : option (list Z))
    (a : negentropy_adapter) : option (esp_err_t * negentropy_adapter) :=
  match id with
  | None => Some (ESP_ERR_INVALID_ARG, a)
  | Some id =>
      let full := (na_capacity a <=? length (na_items a))%nat in
      let new_cap := if (na_capacity a =? 0)%nat then 64%nat else (na_capacity a * 2)%nat in
      if full && negb (realloc_ok new_cap) then Some (ESP_ERR_NO_MEM, a) else
      let cap := if full then new_cap else na_capacity a in
      if (cap <=? length (na_items a))%nat then None
      else Some (ESP_OK, mk_adapter (na_items a ++ [mk_item (u64 created_at) (take 32 id)]) cap)
  end.

(** The items are freed before they are handed over. *)
Definition negentropy_adapter_get_items (a : negentropy_adapter) : esp_err_t * list negentropy_item_t * negentropy_adapter :=
  (ESP_OK, [], mk_adapter [] 0).

(** Items inserted one after the other. *)
Fixpoint insert_items (realloc_ok : nat → bool) (l : list (Z * list Z)) (a : negentropy_adapter)
  : option negentropy_adapter :=
  match l with
  | [] => Some a
  | (t, id) :: l' => '(_, a') ← negentropy_adapter_insert_item realloc_ok t (Some id) a; insert_items realloc_ok l' a'
  end.

(** * Properties *)

(** The stack of a task that waits for its gateway is freed when another gateway is
    chosen. *)
Example other_gateway_frees_live_stack :
  ('(_, s) ← remote_miner_start "192.168.4.1" false true true remote_boot;
   remote_miner_start "192.168.5.1" false true true s) = None.
Proof. reflexivity. Qed.

(** No chip is ever found, so its miner never runs. *)
Theorem asic_never_runs s :
  rtc asic_step asic_boot s → as_running s = false ∧ as_present s = false ∧ as_hashrate s = f64_zero.
Proof.
  intros Hr. assert (as_running asic_boot = false ∧ as_present asic_boot = false ∧ as_hashrate asic_boot = f64_zero) as H0
    by done.
  revert H0. induction Hr as [|x y z Hxy _ IH]; [done|]. intros (H1 & H2 & H3). apply IH.
  destruct Hxy as [s|s ok|s]; cbn; [done| |done]. unfold asic_miner_start. by rewrite H2.
Qed.

(** The adapter's array.  However many items are inserted, none is written behind the
    block; with memory the items are there in the order they came, and the block holds
    64 times a power of two and at most twice what is needed. *)
Theorem insert_items_in_bounds realloc_ok l a :
  (length (na_items a) ≤ na_capacity a)%nat → (∃ k, na_capacity a = 64 * 2 ^ k ∨ na_capacity a = 0)%nat →
  ∃ a', insert_items realloc_ok l a = Some a' ∧ (length (na_items a') ≤ na_capacity a')%nat ∧
    ((∀ n, realloc_ok n = true) →
     na_items a' = na_items a ++ ((λ x, mk_item (u64 x.1) (take 32 x.2)) <$> l) ∧
     (na_capacity a ≤ 2 * length (na_items a) + 64 → na_capacity a' ≤ 2 * length (na_items a') + 64)%nat).
Proof.
  revert a. induction l as [|[t id] l IH]; intros a Hl [k Hk]; cbn [insert_items].
  { exists a. split_and!; [done|done|]. intros _. by rewrite app_nil_r. }
  unfold negentropy_adapter_insert_item. destruct (Nat.leb_spec (na_capacity a) (length (na_items a))) as [Hf|Hf]; cbn [andb].
  - set (cap := if (na_capacity a =? 0)%nat then 64%nat else _).
    assert (length (na_items a) < cap ∧ (∃ k, cap = 64 * 2 ^ k) ∧ cap ≤ 2 * length (na_items a) + 64)%nat as (H1 & [j Hj] & H3).
    { unfold cap. destruct (Nat.eqb_spec (na_capacity a) 0) as [Hz|Hz].
      - split_and!; [lia|by exists 0%nat|lia].
      - destruct Hk as [Hk|Hk]; [|done]. split_and!; [lia|exists (S k); rewrite Hk; cbn; lia|lia]. }
    destruct (realloc_ok cap) eqn:Hr; cbn [negb].
    + rewrite (proj2 (Nat.leb_gt _ _)) by done. cbn [mbind option_bind].
      destruct (IH (mk_adapter (na_items a ++ [mk_item (u64 t) (take 32 id)]) cap)) as (a' & Ha & Hb & Hc).
      { cbn. rewrite length_app. cbn. lia. } { exists j. by left. }
      exists a'. split_and!; [done|done|]. intros Hok. destruct (Hc Hok) as [Hi Hcap]. cbn in Hi, Hcap.
      rewrite Hi. split; [by rewrite <- app_assoc|]. intros _. rewrite <- Hi. apply Hcap. rewrite length_app. cbn. lia.
    + cbn [mbind option_bind]. destruct (IH a Hl (ex_intro _ k Hk)) as (a' & Ha & Hb & _).
      exists a'. split_and!; [done|done|]. intros Hok. by rewrite Hok in Hr.
  - rewrite (proj2 (Nat.leb_gt _ _)) by done. cbn [mbind option_bind].
    destruct (IH (mk_adapter (na_items a ++ [mk_item (u64 t) (take 32 id)]) (na_capacity a))) as (a' & Ha & Hb & Hc).
    { cbn. rewrite length_app. cbn. lia. } { by exists k. }
    exists a'. split_and!; [done|done|]. intros Hok. destruct (Hc Hok) as [Hi Hcap]. cbn in Hi, Hcap.
    rewrite Hi. split; [by rewrite <- app_assoc|]. intros Hle. rewrite <- Hi. apply Hcap. rewrite length_app. cbn. lia.
Qed.

(** Whatever has been inserted, what is handed over is nothing. *)
Theorem get_items_gives_nothing a : (negentropy_adapter_get_items a).1.2 = [].
Proof. done. Qed.
